(* ===== verification/_CoqProject ===== *)
-Q . S2P
Prelude.v
PyVal.v
Regex.v
Redaction.v
Policies.v
Errors.v
Transport.v
Resilience.v
Breaker.v
Urls.v
Json.v
JsonText.v
Uris.v
Artifact.v
StateStore.v
StateLocks.v
StateProofs.v
Ids.v
Profiles.v
Capability.v
CapabilityProofs.v
Receipts.v
Projection.v
Records.v
Events.v
Mutation.v
Clients.v
ClientProofs.v
Cache.v
CacheProofs.v
CacheMap.v
Targets.v
Redirects.v
RedirectProofs.v
Urllib.v
Httpx.v
TransportProofs.v
Identity.v
Streams.v
Materialize.v
Sync.v
SyncProofs.v
SyncReader.v
SyncSafety.v
Bulk.v
BulkProofs.v
BulkStream.v
OAuth.v
OAuthProofs.v
ByteSource.v
ByteSourceProofs.v
Readers.v
ReadersProofs.v
Ckan.v
CkanClient.v
CkanResults.v
CkanProofs.v
CkanManifest.v
CkanServices.v
CkanServicesProofs.v
CkanProbes.v
CkanProbesProofs.v
Udata.v
UdataClient.v
UdataProofs.v
