(* ===== verification/Prelude.v ===== *)
(** * Datasluice: a verification library

    Datasluice is a Python package that reads catalogs of open data (CKAN,
    uData), calls and mutates them under safety policies, and copies their
    resources to a data lake.  This library models its core - the layers every
    connector and every copy goes through - and proves what they promise.
    Paths below are relative to [src/src/datasluice/].

    ** How the code is modelled

    A dataclass is a [Record], its [__post_init__] a function [make_*] that
    returns the record or raises; an enumeration is an [Inductive] or, where
    the code compares strings, a string.  Code that only computes returns a
    [result]: [Ok] or [Raise] with an exception of the package's hierarchy
    ([exc_kind], [is_subclass], so that [except] clauses are as wide as in the
    source).  Code that acts is a computation [M W A] on a world [W] that is
    kept when it raises, so that what was done before an exception stays done.
    Dynamic values are [pyval]; a [str] is a [string] of code points below 256,
    a dictionary keeps its order.  Integers are unbounded, as in Python; a
    float is an exact rational, an infinity or NaN, and what depends on the
    rounding of binary64 is a parameter ([FloatText]).

    Code that is not under [src/] is a type class the definitions take:
    filesystems ([StateStore.Filesystem], [Materialize.Destination]), digests
    ([Sha256]), dates ([DateTimes]), the syntax of IP addresses, [urljoin] and
    name resolution ([Targets]), openers and clients of [urllib.request] and
    [httpx] ([Urllib], [Httpx]), [pyarrow] ([Streams.Batches],
    [Materialize.ParquetCodec], [Readers.ArrowTables]), [zipfile] and the
    decompressors ([ByteSource.ZipFiles], [ByteSource.Codecs]), [json.loads] of
    bytes ([Readers.JsonDocument]), clocks, sleeps, senders, sinks and
    callables of the caller.  Theorems that need something of them name it as a law, and
    a witness gives an instance that obeys it.

    ** The parts

    Values and texts.  [Prelude] (results, computations, triples, rationals),
    [PyVal] (language), [Regex] ([re]), [Urls] ([urllib.parse]), [Json]
    ([domain/_json.py], frozen JSON), [JsonText] ([json.dumps], [json.loads]),
    [Uris] ([_uri.py]: [sanitize_uri]), [Redaction]
    ([domain/catalog/redaction.py], [runtime/redaction.py]).

    Records.  [Ids], [Profiles], [Receipts], [Records], [Projection]
    ([domain/catalog/]: ids.py, operations.py, profiles.py, receipts.py,
    models.py), [Artifact] ([domain/artifact.py] and the locator of
    [application.py]), [Policies] ([domain/catalog/safety.py],
    resilience.py), [Errors] ([errors/catalog.py]), [Transport]
    ([runtime/transport/base.py]).

    The runtime of a catalog call.  [Resilience] and [Breaker]
    ([runtime/resilience.py]: deadlines, the retry loop, circuit breakers),
    [Events] ([runtime/events.py]), [Capability] ([runtime/capability.py]),
    [Mutation] ([runtime/mutation.py]), [Clients] ([runtime/clients.py]),
    [Bulk] ([runtime/bulk.py]), [OAuth] ([runtime/oauth.py], credentials of
    [domain/catalog/auth.py]).  A dispatch of [Clients] asks the capability
    cache through an interface ([Clients.cache_service] discharges it), admits
    the request at the breaker, runs the retry loop of [Resilience] around the
    transport and reports to the emitter of [Events]; a mutation is a dispatch
    inside [Mutation.execute]; a bulk run is a plan of them on a pool.

    The CKAN connector ([connectors/catalog/ckan/]).  [Ckan] (inventory.py,
    errors.py, results.py, mapping.py and the converters of clients.py: the
    action registry, typed errors of an envelope, mutation tiers, the decoding
    of results), [CkanClient] (clients.py, settings.py: origins, requests,
    the dispatch with its events, typed reads and mutations), [CkanManifest]
    (action_manifest.json) and [CkanServices] (services/: every keyword method
    as the call it makes, receipt targets, uploads, the filestore facade).  It runs on the state, the
    breakers and the retry loop of [Clients]; the capability cache is asked
    through [CkanClient.ScopedCapabilities], which [CkanClient.cache_scoped]
    discharges.  [CkanProbes] (probes.py, the declared profile): the runner
    that reads the status of a deployment; [CkanProbes.runner_probes] makes it
    the probe of a capability cache.

    The uData connector ([connectors/catalog/udata/]).  [Udata] (probes.py,
    settings.py, mapping.py: the gate of the exact version and the page
    envelope) and [UdataClient] (clients.py: the call of a route behind the
    gate, the opening of a stream).  The gate runs on its own cache and the
    world of the client; the rest is as for CKAN.

    Transports.  [Redirects] ([runtime/transport/_shared.py],
    [domain/credentials.py]), [Urllib] and [Httpx] (the two adapters), and
    [Targets] ([_uri.py]: [validate_http_target], [io/_redirects.py]).

    The data plane.  [ByteSource] ([data/_byte_source.py],
    [data/compression.py]: chunked bodies as files, lookahead, decompression),
    [Readers] ([data/readers/]: CSV, JSON, GeoJSON and XLSX), [Identity] ([domain/resource.py], [domain/access.py],
    [sync/_identity.py], [sync/_hashing.py]), [Streams]
    ([data/batch_stream.py], the row-group reader of
    [data/readers/parquet.py], the checkpointable openings of
    [data/access.py]), [Materialize] ([sync/materialize.py]), [StateStore]
    ([sync/state_store.py], [domain/sync_state.py]), [Sync] ([sync/sync.py])
    and [Cache] ([io/content_cache.py]).  A sync reads the state of a resource
    in a transaction of the store, opens a stream of [Streams] from the
    beginning or from the cursor of its checkpoint, has [Materialize] publish
    it shard by shard, and commits the [Artifact] that describes the result.

    ** What is proved

    Bulk runs ([BulkProofs], [BulkStream]): a run dispatches each item at most
    once, in plan order and within its parallelism, yields receipts in order,
    ends with a summary that adds up, and every checkpoint it persists can be
    resumed.  Syncs ([SyncProofs], [SyncReader], [SyncSafety]): a checkpointed
    sync that is interrupted at any step, any number of times, ends with the
    file and the digests of one that was not; what is skipped was found at the
    destination; a checkpoint keeps its cursor, and a cursor gives
    exactly the row groups that are left.  The client ([ClientProofs]): nothing
    is sent past a guard that refuses, trials of a breaker are given back, one
    terminal event, closing is final.  CKAN ([CkanResults], [CkanProofs]): what
    precedes a request, a destructive action is sent only when it is confirmed,
    a dispatch settles, decoding keeps every element of a result, what the
    status of an answer hides, and ([CkanServicesProofs]) every method of the
    services is registered in the manifest on the tier it needs; the evidence
    of a probe opens what the deployment offers, from one read per window
    ([CkanProbesProofs]).  uData ([UdataProofs]): nothing is sent but behind the
    pinned version and, outside a loopback deployment, nothing but a read; a call
    settles; the failure of a stream that is never reported.  OAuth
    ([OAuthProofs]): a refresh sends one request and keeps what it cannot
    replace, a code is exchanged only for the bound state, and what a cancelled
    refresh leaves behind.  Retries and breakers ([Resilience], [Breaker]): the
    loop follows its grammar within its bounds; the registry refines the closed
    / open / half-open machine.  The state store ([StateLocks], [StateProofs]): threads of several processes behave as one
    compare-and-swap register per key, the lock registry is exact, states
    round-trip.  The data plane ([ByteSourceProofs], [ReadersProofs]): a
    chunked source behind any sequence of peeks and reads gives its bytes once
    and in order, decompressed data is bounded, the decompressor is the one the
    magic bytes or the hint choose; which rows of a decoded file the readers
    keep, and which they lose.  The content cache ([CacheProofs], [CacheMap]): a map with
    expiring entries, whose payloads have the digest that was put, also when
    others use the directory.  The transports ([RedirectProofs],
    [TransportProofs]): credentials and bodies go only where they may, both
    adapters follow the same redirects, bodies stay within their limit.  The
    capability cache ([CapabilityProofs]): one synchronous leader per key, no
    waiter is stranded.  The rest: envelopes round-trip or refuse with a contract error,
    redaction and the sanitised text of a URI that parses reveal nothing of what
    they hide.

    The theorems that state a property of the program carry an identifier
    [C<n>]; those with hypotheses have a witness [<theorem>_witness] that
    applies them to concrete values.

    ** Concurrency, fuel and bounds

    What runs under a lock is one step.  Histories of threads are step
    relations with an invariant ([StateLocks], [CapabilityProofs]), or
    computations between whose steps the environment may act ([CacheProofs],
    the worker pool of [Bulk]).  A generator is the list of the steps its
    consumer drives ([Streams]), or a computation that calls what its consumer
    does ([Sync.sync_each], [Bulk]).

    Recursion is structural where the code iterates over data.  Loops that end
    for another reason have fuel, and a theorem that it is enough: the retry
    loop has [max_attempts] steps ([Resilience.retry_loop_bounded]); the loop
    over redirects has one more than its limit
    ([Targets.follow_redirects_ends]); a bulk run needs one round per settled
    item ([BulkStream.run_workers_total]); the regular expressions need the
    length of their input.  Loops over the bytes of a source count their rounds
    in binary ([ByteSource.upto]): each but the last takes a byte, so as many
    rounds as bytes are enough ([ByteSourceProofs.upto_rule]).

    ** Not modelled

    The services, models and wire records of the uData connector, its guard of
    an opened stream and its controlled factories, the Socrata connector, the
    drift reports, rate limits and factories of CKAN ([connectors/]),
    the contract suites ([contracts/]), the command line, stores
    of credentials ([runtime/credentials/]) and the locks of the OAuth
    provider, sessions and plugins, the downloader and the
    storage backends of [io/], transforms and integrations: most of it is one definition per remote
    endpoint or calls into other libraries, over the layers above.  Inside the
    modelled files: logging, the OpenTelemetry bridge, TLS contexts, the
    Windows file lock, [mkstemp] and [fsync], the Arrow C stream export, the
    display-only fields of a resource, and code points beyond 255. *)
From stdpp Require Export base tactics list option strings gmap.
From Stdlib Require Import QArith Lqa ZArith.
Local Close Scope Q_scope.

Declare Scope py_scope.
Delimit Scope py_scope with py.

(** ** Python values *)

(** A Python float: the finite ones are exact rationals, so that the rounding
    of binary64 arithmetic is not modelled; infinities and NaN are kept. *)
Inductive pyfloat :=
| FFin (q : Q)
| FInf (negative : bool)
| FNan.

(** The values the contracts of the package inspect dynamically.  A [str] is a
    [string] whose characters are its code points (below 256); a mapping keeps
    its insertion order; [PyBytes] carries the text that decoding it as UTF-8
    with replacement gives; [PyObject] is any other object, with the text its
    [repr] gives ([None] when [repr] raises). *)
Inductive pyval :=
| PyNone
| PyBool (b : bool)
| PyInt (z : Z)
| PyFloat (f : pyfloat)
| PyStr (s : string)
| PyBytes (raw text : string)
| PyList (l : list pyval)
| PyTuple (l : list pyval)
| PyDict (kvs : list (pyval * pyval))
| PyProxy (kvs : list (pyval * pyval))
| PyObject (repr : option string).

(** A [dict[str, object]], in insertion order. *)
Abbreviation pydict := (list (string * pyval)).

(** ** Exceptions *)

Inductive exc_kind :=
| ValueError | UnicodeError | JSONDecodeError | AttributeError | TypeError | KeyError | RuntimeError | AssertionError | OverflowError
| OSError | FileNotFoundError | EOFError | BadZipFile | ZlibError | ZstdError
| ArrowError | HTTPException | HttpxError | OtherException
| DataSluiceError | StateStoreError | SyncStateConflictError | StreamClosedError
| ActionManifestError | FormatError | TransformError | DecompressionError | SchemaUnificationError | DownloadError | ChecksumMismatchError | UnsupportedAccessError
| TransportError
| CatalogError | NativeCatalogError | UnsupportedCapabilityError | UnauthenticatedError
| ForbiddenError | CatalogNotFoundError | CatalogValidationError | CatalogConflictError
| CatalogRateLimitError | BudgetExhaustedError | CatalogUnavailableError
| CancelledError | GeneratorExit.

#[global] Instance exc_kind_eq_dec : EqDecision exc_kind.
Proof. solve_decision. Defined.

(** The direct base class of each exception class ([exceptions.py],
    [errors/catalog.py], [runtime/transport/base.py] and the builtins);
    [None] stands for [Exception] and for [BaseException]. *)
Definition exc_base (k : exc_kind) : option exc_kind :=
  match k with
  | FileNotFoundError => Some OSError
  | UnicodeError | JSONDecodeError => Some ValueError
  | StateStoreError | StreamClosedError | ActionManifestError | FormatError | SchemaUnificationError | DownloadError
  | CatalogError | NativeCatalogError => Some DataSluiceError
  | SyncStateConflictError => Some StateStoreError
  | TransformError | DecompressionError => Some FormatError
  | ChecksumMismatchError | UnsupportedAccessError => Some DownloadError
  | TransportError => Some RuntimeError
  | UnsupportedCapabilityError | UnauthenticatedError | ForbiddenError
  | CatalogNotFoundError | CatalogValidationError | CatalogConflictError
  | CatalogRateLimitError | BudgetExhaustedError | CatalogUnavailableError => Some CatalogError
  | _ => None
  end.

(** [isinstance(exc, k)]: the hierarchy is at most four classes deep. *)
Definition is_subclass (k base : exc_kind) : bool :=
  let up o := o ≫= exc_base in
  let ks := [Some k; exc_base k; up (exc_base k); up (up (exc_base k))] in
  existsb (λ o, bool_decide (o = Some base)) ks.

(** [isinstance(exc, Exception)]: what an [except Exception] clause catches. *)
Definition is_Exception (k : exc_kind) : bool :=
  match k with CancelledError | GeneratorExit => false | _ => true end.

(** The attributes of the exceptions of [errors/catalog.py]. *)
Record catalog_info := CatalogInfo {
  ci_operation : string;
  ci_platform : string;
  ci_capability_state : option string;
  ci_safe_action : string;
  ci_status_code : option Z;
  ci_vendor_code : option string;
  ci_retry_after : option Q;
  ci_elapsed : Q;
  ci_budget : Q;
  ci_retry_state : pydict;
  ci_metadata : pydict
}.

Record exn := Exn {
  exn_kind : exc_kind;
  exn_msg : string;
  exn_info : option catalog_info
}.

Definition err (k : exc_kind) (msg : string) : exn := Exn k msg None.

(** ** Computations that may raise *)

Inductive result (A : Type) :=
| Ok (a : A)
| Raise (e : exn).
Arguments Ok {A} a.
Arguments Raise {A} e.

#[global] Instance result_ret : MRet result := λ A, @Ok A.
#[global] Instance result_bind : MBind result := λ A B k m,
  match m with Ok a => k a | Raise e => Raise e end.
#[global] Instance result_fmap : FMap result := λ A B f m,
  match m with Ok a => Ok (f a) | Raise e => Raise e end.

Definition is_ok {A} (m : result A) : bool := match m with Ok _ => true | _ => false end.

(** [if b: raise e] *)
Definition raise_if (b : bool) (e : exn) : result unit := if b then Raise e else Ok tt.

(** [raise E(...)] where the constructor validates its own arguments. *)
Definition raise_new {A} (c : result exn) : result A :=
  match c with Ok e => Raise e | Raise e => Raise e end.

(** [tuple(f(x) for x in l)] and list comprehensions whose body may raise. *)
Section map_res.
Context {A B : Type} (f : A → result B).

Fixpoint map_res (l : list A) : result (list B) :=
  match l with
  | [] => Ok []
  | x :: l' => y ← f x; ys ← map_res l'; Ok (y :: ys)
  end.
End map_res.

(** ** Stateful computations

    An exception does not undo the assignments made before it was raised, so
    the state is returned on both outcomes. *)
Definition M (S A : Type) : Type := S → result A * S.

#[global] Instance M_ret S : MRet (M S) := λ A a s, (Ok a, s).
#[global] Instance M_bind S : MBind (M S) := λ A B k m s,
  match m s with
  | (Ok a, s') => k a s'
  | (Raise e, s') => (Raise e, s')
  end.

Definition throw {S A} (e : exn) : M S A := λ s, (Raise e, s).
Definition lift_res {S A} (m : result A) : M S A := λ s, (m, s).
Definition read {S A} (f : S → A) : M S A := λ s, (Ok (f s), s).
Definition modify {S} (f : S → S) : M S unit := λ s, (Ok tt, f s).

Lemma bind_step {S A B} (m : M S A) (k : A → M S B) (s : S) :
  (m ≫= k) s = match m s with (Ok a, s') => k a s' | (Raise e, s') => (Raise e, s') end.
Proof. reflexivity. Qed.

(** [try: m except (those h accepts): h] *)
Definition try_except {S A} (m : M S A) (h : exn → option (M S A)) : M S A := λ s,
  match m s with
  | (Ok a, s') => (Ok a, s')
  | (Raise e, s') => match h e with Some k => k s' | None => (Raise e, s') end
  end.

(** [try: m finally: f] *)
Definition try_finally {S A} (m : M S A) (f : M S unit) : M S A := λ s,
  match m s with
  | (r, s') => match f s' with (Ok _, s'') => (r, s'') | (Raise e, s'') => (Raise e, s'') end
  end.

(** [m] on a component of the state. *)
Definition zoom {S T A} (get : S → T) (put : T → S → S) (m : M T A) : M S A := λ s,
  let '(r, t) := m (get s) in (r, put t s).

(** ** Lemmas on results *)

Lemma bind_ok {A B} (m : result A) (k : A → result B) b :
  (m ≫= k) = Ok b ↔ ∃ a, m = Ok a ∧ k a = Ok b.
Proof. destruct m; cbn; naive_solver. Qed.

Lemma bind_raise {A B} (m : result A) (k : A → result B) e :
  (m ≫= k) = Raise e ↔ m = Raise e ∨ ∃ a, m = Ok a ∧ k a = Raise e.
Proof. destruct m; cbn; naive_solver. Qed.

Lemma raise_if_ok b e : raise_if b e = Ok tt ↔ b = false.
Proof. destruct b; cbn; naive_solver. Qed.

(** Rewriting forms: a guard that does not fire, a step that succeeds. *)
Lemma guard_bind {A} b e (m : result A) : b = false → (raise_if b e;; m) = m.
Proof. by intros ->. Qed.
Lemma guard_raise {A} b e (m : result A) : b = true → (raise_if b e;; m) = Raise e.
Proof. by intros ->. Qed.
Lemma ok_bind {A B} m a (k : A → result B) : m = Ok a → (m ≫= k) = k a.
Proof. by intros ->. Qed.

Lemma raise_new_ok {A} c (a : A) : raise_new c ≠ Ok a.
Proof. by destruct c. Qed.

Lemma map_res_ok {A B} (f : A → result B) l l' :
  map_res f l = Ok l' ↔ Forall2 (λ x y, f x = Ok y) l l'.
Proof.
  revert l'. induction l as [|x l IH]; intros l'; cbn.
  - split; [intros [= <-]; constructor | by inversion 1].
  - rewrite bind_ok. setoid_rewrite bind_ok. setoid_rewrite IH. split.
    + intros (y & Hy & ys & Hys & [= <-]). by constructor.
    + inversion 1; subst; eauto 10.
Qed.

Lemma map_res_length {A B} (f : A → result B) l l' :
  map_res f l = Ok l' → length l' = length l.
Proof. intros H%map_res_ok. symmetry. by eapply Forall2_length. Qed.

(** [inv_ok] turns hypotheses [.. = Ok _] about chains of binds into the facts
    each step gives. *)
Ltac inv_ok :=
  repeat match goal with
  | H : (_ ≫= _) = Ok _ |- _ => apply bind_ok in H; destruct H as (? & ? & H); cbn beta in H
  | H : raise_if _ _ = Ok ?u |- _ => destruct u; apply raise_if_ok in H
  | H : raise_new _ = Ok _ |- _ => by apply raise_new_ok in H
  | H : Ok _ = Ok _ |- _ => injection H as H; try subst
  | H : Raise _ = Ok _ |- _ => discriminate H
  | H : Ok _ = Raise _ |- _ => discriminate H
  | H : mret _ = Ok _ |- _ => unfold mret, result_ret in H
  | H : prod _ _ |- _ => destruct H
  end.

(** [raises P m]: what [m] raises satisfies [P]. *)
Definition raises {A} (P : exn → Prop) (m : result A) : Prop := ∀ e, m = Raise e → P e.

Section raises.
Context (P : exn → Prop).

Lemma raises_ok {A} (a : A) : raises P (Ok a).
Proof. by intros e. Qed.
Lemma raises_raise {A} e : P e → raises P (@Raise A e).
Proof. by intros He e' [= <-]. Qed.
Lemma raises_if b e : P e → raises P (raise_if b e).
Proof. destruct b; [apply raises_raise|intros; apply raises_ok]. Qed.
Lemma raises_bind {A B} (m : result A) (k : A → result B) :
  raises P m → (∀ a, m = Ok a → raises P (k a)) → raises P (m ≫= k).
Proof. intros Hm Hk e [He|(a & Ha & He)]%bind_raise; [by apply Hm|by eapply Hk]. Qed.
Lemma raises_map_res {A B} (f : A → result B) l : Forall (λ x, raises P (f x)) l → raises P (map_res f l).
Proof.
  induction 1 as [|x l Hx _ IH]; [apply raises_ok|]. cbn. apply raises_bind; [done|]. intros y _.
  apply raises_bind; [done|]. intros ys _. apply raises_ok.
Qed.
End raises.

(** ** Invariants of stateful computations *)

(** [preserves P m]: [m] keeps [P], whether it returns or raises. *)
Definition preserves {S A} (P : S → Prop) (m : M S A) : Prop := ∀ s, P s → P (m s).2.

Section preserves.
Context {S : Type} (P : S → Prop).

Lemma preserves_ret {A} (a : A) : preserves P (mret a).
Proof. by intros s Hs. Qed.
Lemma preserves_throw {A} e : preserves P (@throw S A e).
Proof. by intros s Hs. Qed.
Lemma preserves_lift {A} (m : result A) : preserves P (lift_res m).
Proof. by intros s Hs. Qed.
Lemma preserves_read {A} (f : S → A) : preserves P (read f).
Proof. by intros s Hs. Qed.
Lemma preserves_modify f : (∀ s, P s → P (f s)) → preserves P (modify f).
Proof. intros Hf s Hs. by apply Hf. Qed.
Lemma preserves_bind {A B} (m : M S A) (k : A → M S B) :
  preserves P m → (∀ a, preserves P (k a)) → preserves P (m ≫= k).
Proof.
  intros Hm Hk s Hs. unfold mbind, M_bind. specialize (Hm s Hs).
  destruct (m s) as [[a|e] s']; [by apply Hk|done].
Qed.
Lemma preserves_try {A} (m : M S A) h :
  preserves P m → (∀ e k, h e = Some k → preserves P k) → preserves P (try_except m h).
Proof.
  intros Hm Hh s Hs. unfold try_except. specialize (Hm s Hs). destruct (m s) as [[a|e] s']; [done|].
  destruct (h e) eqn:E; [by eapply Hh|done].
Qed.
Lemma preserves_finally {A} (m : M S A) f : preserves P m → preserves P f → preserves P (try_finally m f).
Proof.
  intros Hm Hf s Hs. unfold try_finally. specialize (Hm s Hs). destruct (m s) as [r s']. specialize (Hf s' Hm).
  by destruct (f s') as [[]].
Qed.
End preserves.

(** [hoare P m Q E]: from a state satisfying [P], [m] returns a value and a
    state satisfying [Q], or raises with a state satisfying [E]. *)
Definition hoare {S A} (P : S → Prop) (m : M S A) (Q : A → S → Prop) (E : exn → S → Prop) : Prop :=
  ∀ s, P s → match m s with (Ok a, s') => Q a s' | (Raise e, s') => E e s' end.

Section hoare.
Context {S : Type}.
Implicit Types (P : S → Prop) (E : exn → S → Prop).

Lemma hoare_ret {A} P (a : A) Q E : (∀ s, P s → Q a s) → hoare P (mret a) Q E.
Proof. intros H s Hs. by apply H. Qed.
Lemma hoare_throw {A} P e (Q : A → S → Prop) E : (∀ s, P s → E e s) → hoare P (throw e) Q E.
Proof. intros H s Hs. by apply H. Qed.
Lemma hoare_lift {A} P (m : result A) Q E :
  (∀ s a, P s → m = Ok a → Q a s) → (∀ s e, P s → m = Raise e → E e s) → hoare P (lift_res m) Q E.
Proof. intros HQ HE s Hs. unfold lift_res. destruct m; auto. Qed.
Lemma hoare_read {A} P (f : S → A) Q E : (∀ s, P s → Q (f s) s) → hoare P (read f) Q E.
Proof. intros H s Hs. by apply H. Qed.
Lemma hoare_modify P f (Q : unit → S → Prop) E : (∀ s, P s → Q tt (f s)) → hoare P (modify f) Q E.
Proof. intros H s Hs. by apply H. Qed.
Lemma hoare_bind {A B} P (m : M S A) (k : A → M S B) R Q E :
  hoare P m R E → (∀ a, hoare (R a) (k a) Q E) → hoare P (m ≫= k) Q E.
Proof.
  intros Hm Hk s Hs. unfold mbind, M_bind. specialize (Hm s Hs).
  destruct (m s) as [[a|e] s']; [by apply Hk|done].
Qed.
Lemma hoare_conseq {A} P P' (m : M S A) Q Q' E E' :
  hoare P' m Q' E' → (∀ s, P s → P' s) → (∀ a s, Q' a s → Q a s) → (∀ e s, E' e s → E e s) → hoare P m Q E.
Proof.
  intros H HP HQ HE s Hs. specialize (H s (HP s Hs)). destruct (m s) as [[a|e] s']; auto.
Qed.
Lemma hoare_try {A} P (m : M S A) h Q E E' :
  hoare P m Q E' →
  (∀ e k, h e = Some k → hoare (E' e) k Q E) → (∀ e s, h e = None → E' e s → E e s) →
  hoare P (try_except m h) Q E.
Proof.
  intros Hm Hh Hn s Hs. unfold try_except. specialize (Hm s Hs). destruct (m s) as [[a|e] s']; [done|].
  destruct (h e) as [k|] eqn:E1; [by apply (Hh e k E1)|by apply Hn].
Qed.
Lemma hoare_finally {A} P (m : M S A) f Q E :
  hoare P m Q E → (∀ a, hoare (Q a) f (λ _, Q a) E) → (∀ e, hoare (E e) f (λ _, E e) E) →
  hoare P (try_finally m f) Q E.
Proof.
  intros Hm HQ HE s Hs. unfold try_finally. specialize (Hm s Hs). destruct (m s) as [[a|e] s'].
  - specialize (HQ a s' Hm). by destruct (f s') as [[]].
  - specialize (HE e s' Hm). by destruct (f s') as [[]].
Qed.
Lemma hoare_and {A} P (m : M S A) Q Q' E E' :
  hoare P m Q E → hoare P m Q' E' → hoare P m (λ a s, Q a s ∧ Q' a s) (λ e s, E e s ∧ E' e s).
Proof. intros H H' s Hs. specialize (H s Hs). specialize (H' s Hs). by destruct (m s) as [[]]. Qed.
Lemma hoare_pure {A} (P : Prop) R (m : M S A) Q E :
  (P → hoare R m Q E) → hoare (λ s, P ∧ R s) m Q E.
Proof. intros H s [Hp Hr]. by apply H. Qed.
Lemma preserves_hoare {A} P (m : M S A) : preserves P m ↔ hoare P m (λ _, P) (λ _, P).
Proof.
  split; intros H s Hs; specialize (H s Hs).
  - by destruct (m s) as [[]].
  - by destruct (m s) as [[]].
Qed.
(** What [m] returns may be used to show that the rest keeps [P]. *)
Lemma preserves_bind_gives {A B} (F : A → Prop) P (m : M S A) (k : A → M S B) :
  hoare P m (λ a s, F a ∧ P s) (λ _, P) → (∀ a, F a → preserves P (k a)) → preserves P (m ≫= k).
Proof.
  intros Hm Hk s Hs. unfold mbind, M_bind. specialize (Hm s Hs).
  destruct (m s) as [[a|e] s']; [|done]. destruct Hm as [Ha Hs']. by apply Hk.
Qed.
End hoare.

(** ** Rational numbers as booleans *)

Definition Qltb (a b : Q) : bool := negb (Qle_bool b a).
Definition qmax (a b : Q) : Q := if Qle_bool a b then b else a.
Definition qmin (a b : Q) : Q := if Qle_bool a b then a else b.

Infix "<=?q" := Qle_bool (at level 70) : py_scope.
Infix "<?q" := Qltb (at level 70) : py_scope.

Lemma Qltb_true a b : Qltb a b = true ↔ (a < b)%Q.
Proof.
  unfold Qltb. rewrite negb_true_iff, <- not_true_iff_false, Qle_bool_iff.
  split; intros H; [by apply Qnot_le_lt | by apply Qlt_not_le].
Qed.

Lemma Qltb_false a b : Qltb a b = false ↔ (b <= a)%Q.
Proof. unfold Qltb. by rewrite negb_false_iff, Qle_bool_iff. Qed.

Lemma Qle_bool_false a b : Qle_bool a b = false ↔ (b < a)%Q.
Proof. rewrite <- Qltb_true. unfold Qltb. by rewrite negb_true_iff. Qed.

Lemma qmax_l a b : (a <= qmax a b)%Q.
Proof. unfold qmax. destruct (Qle_bool a b) eqn:E; [by apply Qle_bool_iff | apply Qle_refl]. Qed.

Lemma qmax_r a b : (b <= qmax a b)%Q.
Proof.
  unfold qmax. destruct (Qle_bool a b) eqn:E; [apply Qle_refl|].
  apply Qle_bool_false in E. by apply Qlt_le_weak.
Qed.

Lemma qmin_r a b : (qmin a b <= b)%Q.
Proof.
  unfold qmin. destruct (Qle_bool a b) eqn:E; [by apply Qle_bool_iff | apply Qle_refl].
Qed.

(** [qbool] rewrites boolean comparisons of rationals as propositions. *)
Ltac qbool :=
  repeat match goal with
  | H : Qle_bool _ _ = true |- _ => apply Qle_bool_iff in H
  | H : Qle_bool _ _ = false |- _ => apply Qle_bool_false in H
  | H : Qltb _ _ = true |- _ => apply Qltb_true in H
  | H : Qltb _ _ = false |- _ => apply Qltb_false in H
  | H : (_ && _)%bool = true |- _ => apply andb_true_iff in H; destruct H
  | H : (_ || _)%bool = false |- _ => apply orb_false_iff in H; destruct H
  | H : negb _ = true |- _ => apply negb_true_iff in H
  | H : negb _ = false |- _ => apply negb_false_iff in H
  | H : Z.eqb _ _ = true |- _ => apply Z.eqb_eq in H
  | H : Z.eqb _ _ = false |- _ => apply Z.eqb_neq in H
  | H : Z.leb _ _ = true |- _ => apply Z.leb_le in H
  | H : Z.leb _ _ = false |- _ => apply Z.leb_gt in H
  | H : Z.ltb _ _ = true |- _ => apply Z.ltb_lt in H
  | H : Z.ltb _ _ = false |- _ => apply Z.ltb_ge in H
  end.

(** ** Hint databases *)
Create HintDb datasluice.
#[export] Hint Resolve qmax_l qmax_r qmin_r : datasluice.
#[export] Hint Resolve raises_ok raises_raise raises_if raises_bind raises_map_res : datasluice.
#[export] Hint Resolve preserves_ret preserves_throw preserves_lift preserves_read preserves_bind : datasluice.
#[export] Hint Rewrite @bind_ok @raise_if_ok Qltb_true Qltb_false Qle_bool_iff : datasluice.
