(* ===== verification/PyVal.v ===== *)
(** * Python values, strings and dictionaries

    The parts of the language the models share: [isinstance] tests on dynamic
    values, the string methods the sources call, dictionaries in insertion
    order, and the induction principle of nested values. *)
From S2P Require Import Prelude.
From Stdlib Require Import QArith ZArith Ascii.
Local Close Scope Q_scope.
Local Open Scope Z_scope.

(** ** Dynamic types *)

Definition is_str (v : pyval) : bool := match v with PyStr _ => true | _ => false end.
(** [isinstance(v, Mapping)] *)
Definition is_mapping (v : pyval) : bool :=
  match v with PyDict _ | PyProxy _ => true | _ => false end.

(** [v == z] for an integer literal: booleans and floats compare by value. *)
Definition py_eq_int (v : pyval) (z : Z) : bool :=
  match v with
  | PyBool b => (if b then 1 else 0) =? z
  | PyInt n => n =? z
  | PyFloat (FFin q) => Qeq_bool q (inject_Z z)
  | _ => false
  end.

(** [type(v) is int], false for booleans. *)
Definition type_is_int (v : pyval) : bool := match v with PyInt _ => true | _ => false end.
Definition type_is_bool (v : pyval) : bool := match v with PyBool _ => true | _ => false end.

(** [v == "s"] *)
Definition py_eq_str (v : pyval) (s : string) : bool :=
  match v with PyStr t => bool_decide (t = s) | _ => false end.

(** [d.get(key)] of a dictionary whose keys need not be strings *)
Fixpoint lookup_key (key : string) (kvs : list (pyval * pyval)) : option pyval :=
  match kvs with
  | [] => None
  | (k, v) :: kvs => if py_eq_str k key then Some v else lookup_key key kvs
  end.

(** [float(v)] for a number: an [int] (hence a [bool]) or a [float]. *)
Definition as_number (v : pyval) : option pyfloat :=
  match v with
  | PyBool b => Some (FFin (if b then 1 else 0)%Q)
  | PyInt z => Some (FFin (inject_Z z))
  | PyFloat f => Some f
  | _ => None
  end.

(** [None]-or-string values, as the records store them. *)
Definition opt_str (o : option string) : pyval :=
  match o with None => PyNone | Some s => PyStr s end.

(** ** Strings *)

Definition code (c : ascii) : Z := Z.of_N (N_of_ascii c).
Definition in_range (lo hi : Z) (c : ascii) : bool := (lo <=? code c) && (code c <=? hi).
Definition is_digit : ascii → bool := in_range 48 57.
Definition is_lower_az : ascii → bool := in_range 97 122.
Definition is_upper_AZ : ascii → bool := in_range 65 90.

(** [c.lower()] below code point 256: the ASCII and Latin-1 capitals move by 32. *)
Definition lower_char (c : ascii) : ascii :=
  if is_upper_AZ c || (in_range 192 222 c && negb (code c =? 215))
  then ascii_of_N (N_of_ascii c + 32) else c.

Fixpoint string_map (f : ascii → ascii) (s : string) : string :=
  match s with EmptyString => EmptyString | String c s' => String (f c) (string_map f s') end.

Fixpoint string_forallb (p : ascii → bool) (s : string) : bool :=
  match s with EmptyString => true | String c s' => p c && string_forallb p s' end.

Definition str_lower : string → string := string_map lower_char.
(** [s.replace(a, b)] for one-character strings. *)
Definition replace_char (a b : ascii) : string → string :=
  string_map (λ c, if bool_decide (c = a) then b else c).

(** [s.startswith(p)] and [p in s] *)
Definition starts_with (p s : string) : bool := String.prefix p s.
Fixpoint str_contains (p s : string) : bool :=
  starts_with p s || match s with EmptyString => false | String _ s' => str_contains p s' end.

(** [s[:n]] *)
Fixpoint str_take (n : nat) (s : string) : string :=
  match n, s with
  | S n', String c s' => String c (str_take n' s')
  | _, _ => EmptyString
  end.

Definition str_nonempty (s : string) : bool := match s with EmptyString => false | _ => true end.

(** [o is None or o]: optional texts are non-empty when supplied. *)
Definition opt_nonempty (o : option string) : bool :=
  match o with None => true | Some s => str_nonempty s end.

(** ** Dictionaries in insertion order *)

Fixpoint dict_get {V} (k : string) (d : list (string * V)) : option V :=
  match d with
  | [] => None
  | (k', v) :: d' => if bool_decide (k = k') then Some v else dict_get k d'
  end.

(** [d[k] = v] keeps the position of an existing key. *)
Fixpoint dict_set {V} (k : string) (v : V) (d : list (string * V)) : list (string * V) :=
  match d with
  | [] => [(k, v)]
  | (k', v') :: d' =>
      if bool_decide (k = k') then (k', v) :: d' else (k', v') :: dict_set k v d'
  end.

(** [{**a, **b}] *)
Definition dict_merge {V} (a b : list (string * V)) : list (string * V) :=
  fold_left (λ acc kv, dict_set kv.1 kv.2 acc) b a.

(** [set(d) == keys] *)
Definition keys_are {V} (d : list (string * V)) (keys : list string) : bool :=
  forallb (λ k, bool_decide (k ∈ keys)) d.*1 && forallb (λ k, bool_decide (k ∈ d.*1)) keys.

(** [d[k]] after the key set has been checked: a missing key raises. *)
Definition field (d : pydict) (k : string) : result pyval :=
  match dict_get k d with Some v => Ok v | None => Raise (err KeyError k) end.

(** A [dict] literal with string keys. *)
Definition str_dict (d : pydict) : pyval := PyDict (prod_map PyStr id <$> d).
(** The items of a mapping with string keys. *)
Definition items_of (d : pydict) : list (pyval * pyval) := prod_map PyStr id <$> d.

(** The string keys among the items, and whether the items are those of a
    dictionary with string keys. *)
Definition key_strings (kvs : list (pyval * pyval)) : list string :=
  omap (λ kv, match kv.1 with PyStr s => Some s | _ => None end) kvs.
Definition dict_items (kvs : list (pyval * pyval)) : bool :=
  forallb (λ kv, is_str kv.1) kvs && bool_decide (NoDup (key_strings kvs)).

(** ** Induction on nested values *)

Section pyval_ind.
Variable P : pyval → Prop.
Hypothesis Hnone : P PyNone.
Hypothesis Hbool : ∀ b, P (PyBool b).
Hypothesis Hint : ∀ z, P (PyInt z).
Hypothesis Hfloat : ∀ f, P (PyFloat f).
Hypothesis Hstr : ∀ s, P (PyStr s).
Hypothesis Hbytes : ∀ s t, P (PyBytes s t).
Hypothesis Hlist : ∀ l, Forall P l → P (PyList l).
Hypothesis Htuple : ∀ l, Forall P l → P (PyTuple l).
Hypothesis Hdict : ∀ d, Forall (λ kv, P kv.2) d → P (PyDict d).
Hypothesis Hproxy : ∀ d, Forall (λ kv, P kv.2) d → P (PyProxy d).
Hypothesis Hobj : ∀ r, P (PyObject r).

Fixpoint pyval_nested_ind (v : pyval) : P v :=
  let all := fix all (l : list pyval) : Forall P l :=
    match l with
    | [] => Forall_nil_2 _
    | x :: l' => Forall_cons_2 _ _ _ (pyval_nested_ind x) (all l')
    end in
  let all_snd := fix all_snd (d : list (pyval * pyval)) : Forall (λ kv, P kv.2) d :=
    match d with
    | [] => Forall_nil_2 _
    | kv :: d' => Forall_cons_2 _ kv _ (pyval_nested_ind kv.2) (all_snd d')
    end in
  match v with
  | PyNone => Hnone
  | PyBool b => Hbool b
  | PyInt z => Hint z
  | PyFloat f => Hfloat f
  | PyStr s => Hstr s
  | PyBytes s t => Hbytes s t
  | PyList l => Hlist l (all l)
  | PyTuple l => Htuple l (all l)
  | PyDict d => Hdict d (all_snd d)
  | PyProxy d => Hproxy d (all_snd d)
  | PyObject r => Hobj r
  end.
End pyval_ind.

(** ** Lemmas *)

Lemma str_take_length n s : (String.length (str_take n s) ≤ n)%nat.
Proof. revert s. induction n as [|n IH]; intros [|c s]; cbn; [lia..|]. specialize (IH s). lia. Qed.

Lemma str_take_short n s : (String.length s ≤ n)%nat → str_take n s = s.
Proof.
  revert s. induction n as [|n IH]; intros [|c s]; cbn; try done; [lia|].
  intros. by rewrite IH by lia.
Qed.

Lemma str_nonempty_true s : str_nonempty s = true ↔ s ≠ "".
Proof. by destruct s. Qed.

Lemma str_take_nonempty n s : str_nonempty s = true → str_nonempty (str_take (S n) s) = true.
Proof. by destruct s. Qed.

Lemma dict_get_set {V} k k' (v : V) d :
  dict_get k (dict_set k' v d) = if bool_decide (k = k') then Some v else dict_get k d.
Proof.
  induction d as [|[k1 v1] d IH]; cbn; [done|].
  repeat (case_bool_decide; cbn); subst; try done; by rewrite IH; case_bool_decide.
Qed.

Lemma dict_get_None {V} k (d : list (string * V)) : dict_get k d = None ↔ k ∉ d.*1.
Proof.
  induction d as [|[k1 v1] d IH]; cbn; [set_solver|].
  case_bool_decide; subst; [set_solver|]. rewrite IH. set_solver.
Qed.

Lemma dict_get_elem {V} k v (d : list (string * V)) : dict_get k d = Some v → (k, v) ∈ d.
Proof.
  induction d as [|[k1 v1] d IH]; cbn; [done|].
  case_bool_decide; [intros [= ->]; subst; left | right; auto].
Qed.

Lemma dict_set_keys {V} k (v : V) d :
  (dict_set k v d).*1 = if bool_decide (k ∈ d.*1) then d.*1 else d.*1 ++ [k].
Proof.
  induction d as [|[k1 v1] d IH]; [done|].
  cbn [dict_set]. rewrite (fmap_cons _ (k1, v1)). cbn [fst].
  destruct (decide (k = k1)) as [->|E].
  - rewrite (bool_decide_eq_true_2 (k1 = k1)) by done.
    by rewrite bool_decide_eq_true_2 by set_solver.
  - rewrite (bool_decide_eq_false_2 (k = k1)) by done. rewrite fmap_cons, IH. clear IH. cbn [fst].
    repeat case_bool_decide; set_solver.
Qed.

Lemma dict_set_length {V} k (v : V) d :
  (length (dict_set k v d) ≤ S (length d))%nat.
Proof. induction d as [|[k1 v1] d IH]; cbn; [lia|]. case_bool_decide; cbn; lia. Qed.

Lemma dict_set_fresh {V} k (v : V) d : k ∉ d.*1 → dict_set k v d = d ++ [(k, v)].
Proof.
  induction d as [|[k1 v1] d IH]; cbn; [done|]. intros Hn.
  rewrite bool_decide_eq_false_2 by set_solver. rewrite IH; [done|set_solver].
Qed.

(** A fold of [dict_set] over a dictionary with distinct keys copies it. *)
Lemma dict_merge_app {V} (b a : list (string * V)) :
  NoDup (a.*1 ++ b.*1) → dict_merge a b = a ++ b.
Proof.
  revert a. induction b as [|[k v] b IH]; intros a Hnd; cbn; [by rewrite app_nil_r|].
  unfold dict_merge in *. cbn in *. rewrite dict_set_fresh.
  - rewrite IH, <- app_assoc; [done|]. rewrite fmap_app, <- app_assoc. exact Hnd.
  - apply NoDup_app in Hnd as (_ & Hd & _). intros Hin. apply (Hd k Hin). left.
Qed.

Lemma dict_merge_nil {V} (b : list (string * V)) : NoDup b.*1 → dict_merge [] b = b.
Proof. intros. by apply (dict_merge_app b []). Qed.

Lemma key_strings_items (d : pydict) : key_strings (items_of d) = d.*1.
Proof. unfold key_strings. induction d as [|[k v] d IH]; [done|]. cbn. by f_equal. Qed.

Lemma dict_items_spec kvs : dict_items kvs = true ↔ ∃ d, kvs = items_of d ∧ NoDup d.*1.
Proof.
  unfold dict_items. rewrite andb_true_iff, bool_decide_eq_true. split.
  - intros [Hs Hnd]. exists (zip (key_strings kvs) kvs.*2).
    assert (Heq : kvs = items_of (zip (key_strings kvs) kvs.*2)).
    { clear Hnd. induction kvs as [|[[] v] kvs IH]; try done. cbn in *. f_equal. by apply IH. }
    split; [done|]. rewrite <- key_strings_items, <- Heq. done.
  - intros (d & -> & Hnd). rewrite key_strings_items. split; [|done].
    clear Hnd. induction d as [|[k v] d IH]; [done|exact IH].
Qed.

#[export] Hint Resolve str_take_length dict_get_elem : datasluice.
