(* ===== verification/Regex.v ===== *)
(** * Regular expressions, as the sources use them

    A backtracking matcher for the constructs the package's patterns use:
    character classes, sequences, ordered alternatives, greedy repetition,
    numbered groups and word boundaries, with [search], [sub] and [fullmatch]
    on strings whose code points are below 256. *)
From S2P Require Import Prelude PyVal.
From Stdlib Require Import ZArith Ascii.
Local Open Scope Z_scope.

Inductive re :=
| RSet (p : ascii → bool)
| REps
| RSeq (a b : re)
| RAlt (a b : re)
| RStar (a : re)
| RGroup (n : nat) (a : re)
| RWordB.

(** A position: the character before it and the characters from it on. *)
Record pos := Pos { before : option ascii; rest : list ascii }.

Definition start (s : list ascii) : pos := Pos None s.
Definition advance (p : pos) : pos :=
  match rest p with [] => p | c :: l => Pos (Some c) l end.

(** The text between two positions of one scan. *)
Definition between (p q : pos) : list ascii := take (length (rest p) - length (rest q)) (rest p).

(** [\w] and [\s] below code point 256. *)
Definition is_word (c : ascii) : bool :=
  is_digit c || is_lower_az c || is_upper_AZ c || (code c =? 95) ||
  bool_decide (code c ∈ [170; 178; 179; 181; 185; 186; 188; 189; 190]) ||
  (in_range 192 255 c && negb (code c =? 215) && negb (code c =? 247)).
Definition is_space (c : ascii) : bool :=
  in_range 9 13 c || in_range 28 32 c || (code c =? 133) || (code c =? 160).

Definition at_word_boundary (p : pos) : bool :=
  let here := match rest p with c :: _ => is_word c | [] => false end in
  let prev := match before p with Some c => is_word c | None => false end in
  xorb here prev.

Abbreviation caps := (list (nat * list ascii)).
Abbreviation cont := (pos → caps → option (pos * caps)).

(** Greedy repetition: try one more round, else go on; a round that consumes
    nothing is not repeated, so the remaining length bounds the rounds. *)
Definition star_loop (body : pos → caps → cont → option (pos * caps)) (k : cont) :=
  fix loop (n : nat) (p : pos) (c : caps) : option (pos * caps) :=
    match n with
    | O => k p c
    | S n' =>
        match body p c (λ p' c', if (length (rest p') <? length (rest p))%nat then loop n' p' c' else None) with
        | Some res => Some res
        | None => k p c
        end
    end.

(** Depth-first matching with a continuation. *)
Fixpoint re_match (r : re) (p : pos) (c : caps) (k : cont) : option (pos * caps) :=
  match r with
  | RSet f => match rest p with
              | x :: _ => if f x then k (advance p) c else None
              | [] => None
              end
  | REps => k p c
  | RSeq a b => re_match a p c (λ p' c', re_match b p' c' k)
  | RAlt a b => match re_match a p c k with Some res => Some res | None => re_match b p c k end
  | RStar a => star_loop (re_match a) k (length (rest p)) p c
  | RGroup n a => re_match a p c (λ p' c', k p' ((n, between p p') :: c))
  | RWordB => if at_word_boundary p then k p c else None
  end.

Definition re_accept (p : pos) (c : caps) : option (pos * caps) := Some (p, c).

(** [pattern.match] at a position, and [pattern.fullmatch]. *)
Definition match_at (r : re) (p : pos) : option (pos * caps) := re_match r p [] re_accept.
Definition fullmatch (r : re) (s : string) : bool :=
  bool_decide (is_Some (re_match r (start (String.list_ascii_of_string s)) []
    (λ p c, match rest p with [] => Some (p, c) | _ => None end))).

(** [pattern.search]: the first position from which the pattern matches. *)
Fixpoint search_from (r : re) (fuel : nat) (p : pos) : bool :=
  match match_at r p with
  | Some _ => true
  | None => match fuel, rest p with
            | S n, _ :: _ => search_from r n (advance p)
            | _, _ => false
            end
  end.
Definition search (r : re) (s : string) : bool :=
  let l := String.list_ascii_of_string s in search_from r (length l) (start l).

Definition group (n : nat) (c : caps) : list ascii :=
  match List.find (λ e, Nat.eqb e.1 n) c with Some e => e.2 | None => [] end.

(** [pattern.sub]: replace the leftmost matches, left to right.  Every pattern
    here consumes a character, so each round shortens the remaining text. *)
Fixpoint sub_from (r : re) (repl : caps → list ascii) (fuel : nat) (p : pos) : list ascii :=
  match fuel, rest p with
  | S n, x :: _ =>
      match match_at r p with
      | Some (p', c) =>
          if (length (rest p') <? length (rest p))%nat then repl c ++ sub_from r repl n p'
          else x :: sub_from r repl n (advance p)
      | None => x :: sub_from r repl n (advance p)
      end
  | _, _ => rest p
  end.
Definition re_sub (r : re) (repl : caps → list ascii) (s : string) : string :=
  let l := String.list_ascii_of_string s in
  String.string_of_list_ascii (sub_from r repl (length l) (start l)).

(** ** Building patterns *)

Definition ci (f : ascii → bool) (c : ascii) : bool := f c || f (lower_char c).
Definition lit (c : ascii) : re := RSet (λ x, bool_decide (x = c)).
(** A literal under [re.IGNORECASE]. *)
Fixpoint lit_ci (s : string) : re :=
  match s with
  | EmptyString => REps
  | String c s' => RSeq (RSet (λ x, bool_decide (lower_char x = lower_char c))) (lit_ci s')
  end.
Fixpoint alts (l : list re) : re :=
  match l with [] => RSet (λ _, false) | [r] => r | r :: l' => RAlt r (alts l') end.
Definition plus (r : re) : re := RSeq r (RStar r).
Fixpoint repeat_re (n : nat) (r : re) : re := match n with O => REps | S n' => RSeq r (repeat_re n' r) end.
Definition none_of (l : list ascii) (c : ascii) : bool := negb (bool_decide (c ∈ l)).

(** ** Character-class patterns

    A full match of [first rest*] is a test on each character. *)

Section set_star.
Variables (f : ascii → bool) (k : cont).
Hypothesis k_end : ∀ p c, k p c = match rest p with [] => Some (p, c) | _ => None end.

Lemma star_set_complete n l b c : (length l ≤ n)%nat → forallb f l = true →
  is_Some (star_loop (re_match (RSet f)) k n (Pos b l) c).
Proof.
  revert l b c. induction n as [|n IH]; intros [|x l] b c Hn Hall; cbn in Hn; cbn [star_loop];
    [rewrite k_end; by eexists | lia | cbn; rewrite k_end; by eexists |].
  cbn in Hall. apply andb_true_iff in Hall as [Hx Hl].
  destruct (IH l (Some x) c) as [y Hy]; [lia|done|].
  change (re_match (RSet f) (Pos b (x :: l)) c ?k') with (if f x then k' (Pos (Some x) l) c else None).
  rewrite Hx. cbn [rest length]. rewrite (proj2 (Nat.ltb_lt _ _)) by lia.
  rewrite Hy. by eexists.
Qed.

Lemma star_set_sound n l b c res :
  star_loop (re_match (RSet f)) k n (Pos b l) c = Some res → forallb f l = true.
Proof.
  revert l b c. induction n as [|n IH]; intros [|x l] b c; cbn [star_loop]; try done;
    [by rewrite k_end|].
  change (re_match (RSet f) (Pos b (x :: l)) c ?k') with (if f x then k' (Pos (Some x) l) c else None).
  destruct (f x) eqn:Hx; [|by rewrite k_end].
  cbn [rest length]. rewrite (proj2 (Nat.ltb_lt _ _)) by lia.
  case_match eqn:E; [|by rewrite k_end]. intros [= ->]. cbn. rewrite Hx. cbn.
  eapply IH. exact E.
Qed.
End set_star.

Definition head_tail (f g : ascii → bool) (s : string) : bool :=
  match String.list_ascii_of_string s with [] => false | c :: l => f c && forallb g l end.

Lemma fullmatch_head_tail f g s :
  fullmatch (RSeq (RSet f) (RStar (RSet g))) s = head_tail f g s.
Proof.
  unfold fullmatch, head_tail. destruct (String.list_ascii_of_string s) as [|c l].
  { done. }
  change (re_match (RSeq (RSet f) (RStar (RSet g))) (start (c :: l)) [] ?k) with
    (if f c then star_loop (re_match (RSet g)) k (length l) (Pos (Some c) l) [] else None).
  destruct (f c); [|apply bool_decide_eq_false_2; by intros []].
  destruct (forallb g l) eqn:E; [apply bool_decide_eq_true_2 | apply bool_decide_eq_false_2].
  - by apply star_set_complete.
  - intros [res H%star_set_sound]; [congruence|done].
Qed.

(** A substitution whose replacements are not empty keeps a text non-empty. *)
Lemma sub_from_nonempty r repl fuel p :
  (∀ c, repl c ≠ []) → rest p ≠ [] → sub_from r repl fuel p ≠ [].
Proof.
  intros Hr Hp. destruct fuel as [|n]; [done|]. cbn [sub_from].
  destruct (rest p) as [|x l]; [done|]. repeat case_match; try done.
  intros [Hnil _]%app_eq_nil. by eapply Hr.
Qed.

Lemma re_sub_nonempty r repl s :
  (∀ c, repl c ≠ []) → str_nonempty s = true → str_nonempty (re_sub r repl s) = true.
Proof.
  intros Hr Hs. unfold re_sub. pose proof (sub_from_nonempty r repl
    (length (String.list_ascii_of_string s)) (start (String.list_ascii_of_string s)) Hr) as H.
  destruct (sub_from _ _ _ _); [|done]. destruct s; [done|]. by destruct H.
Qed.

#[global] Arguments fullmatch : simpl never.
#[global] Arguments search : simpl never.
#[global] Arguments re_sub : simpl never.
