(* ===== verification/Redaction.v ===== *)
(** * Redaction of metadata and text

    [domain/catalog/redaction.py] and the gate of [runtime/redaction.py]. *)
From S2P Require Import Prelude PyVal Regex.
From Stdlib Require Import QArith ZArith Ascii.
Local Close Scope Q_scope.
Local Open Scope Z_scope.

Definition REDACTED : string := "***".
Definition TRUNCATED : string := "[TRUNCATED]".
Definition MAX_METADATA_ENTRIES : nat := 32.
Definition MAX_METADATA_DEPTH : nat := 8.
Definition MAX_TEXT_LENGTH : nat := 256.

Definition SENSITIVE_PARTS : list string :=
  ["authorization"; "credential"; "token"; "secret"; "password"; "passwd"; "pwd"; "cookie";
   "api_key"; "apikey"; "private_key"; "access_key"; "consumer_key"; "client_key";
   "signature"; "body"; "header"].

Definition is_sensitive_record_key (key : string) : bool :=
  let normalized := replace_char "-"%char "_"%char (str_lower key) in
  existsb (λ part, str_contains part normalized) SENSITIVE_PARTS.

(** The query keywords, longest first. *)
Definition SENSITIVE_QUERY_KEYS : list string :=
  ["authorization"; "consumer-key"; "consumer_key"; "private-key"; "private_key";
   "access-key"; "access_key"; "client-key"; "client_key"; "credential"; "signature";
   "password"; "api-key"; "api_key"; "apikey"; "cookie"; "passwd"; "secret"; "token"; "pwd"].

(** A parameter whose name contains one of the keywords, ignoring case: group 1
    is the name with the separator before it, then come an equals sign and a
    non-empty value. *)
Definition CREDENTIAL_QUERY_RE : re :=
  let name := RSet (λ c, none_of ["="; "&"; ";"]%char c && negb (is_space c)) in
  let value := RSet (λ c, none_of ["&"; ";"]%char c && negb (is_space c)) in
  RSeq (RGroup 1
          (RSeq (RAlt (RSet (λ c, bool_decide (c ∈ ["?"; "&"; ";"]%char))) RWordB)
             (RSeq (RStar name) (RSeq (alts (lit_ci <$> SENSITIVE_QUERY_KEYS)) (RStar name)))))
       (RSeq (lit "="%char) (plus value)).

(** A bearer or basic authorization value of at least eight characters. *)
Definition AUTH_SCHEME_RE : re :=
  let tok := RSet (ci (λ c, is_lower_az c || is_digit c ||
                            bool_decide (c ∈ ["."; "_"; "~"; "+"; "/"; "="; "-"]%char))) in
  RSeq RWordB (RSeq (RGroup 1 (RAlt (lit_ci "bearer") (lit_ci "basic")))
    (RSeq (plus (RSet is_space)) (RSeq (repeat_re 8 tok) (RStar tok)))).

(** The user information of a URL, ignoring case: group 1 is the scheme and the
    user name, group 2 the password between the colon and the at sign. *)
Definition USERINFO_RE : re :=
  let scheme := RSet (ci (λ c, is_lower_az c || is_digit c || bool_decide (c ∈ ["+"; "."; "-"]%char))) in
  RSeq RWordB (RSeq (RGroup 1
      (RSeq (RSet (ci is_lower_az)) (RSeq (RStar scheme) (RSeq (lit_ci "://")
        (RStar (RSet (λ c, none_of [":"; "@"; "/"]%char c && negb (is_space c))))))))
    (RSeq (lit ":"%char) (RSeq (RGroup 2 (RStar (RSet (λ c, none_of ["@"%char] c && negb (is_space c)))))
      (lit "@"%char)))).

Definition _SCAN_MARGIN : nat := 64.
Definition _output_window (value : string) : string := str_take (MAX_TEXT_LENGTH + _SCAN_MARGIN) value.

Fixpoint str_drop (n : nat) (s : string) : string :=
  match n, s with S n', String _ s' => str_drop n' s' | _, _ => s end.

Definition window_hit (window : string) : bool :=
  search USERINFO_RE window || search CREDENTIAL_QUERY_RE window || search AUTH_SCHEME_RE window.

(** The windows start every [MAX_TEXT_LENGTH] characters, the first always. *)
Fixpoint scan_windows (fuel : nat) (s : string) : bool :=
  window_hit (_output_window s) ||
  match fuel with
  | O => false
  | S n => let s' := str_drop MAX_TEXT_LENGTH s in str_nonempty s' && scan_windows n s'
  end.

Definition contains_credential_content (value : pyval) : bool :=
  match value with PyStr s => scan_windows (String.length s) s | _ => false end.

Definition redact_string (value : string) : string :=
  let g1 tail (c : caps) := group 1 c ++ String.list_ascii_of_string tail in
  let scrubbed := re_sub USERINFO_RE (g1 ":***@") (_output_window value) in
  let scrubbed := re_sub CREDENTIAL_QUERY_RE (g1 "=***") scrubbed in
  str_take MAX_TEXT_LENGTH (re_sub AUTH_SCHEME_RE (g1 " ***") scrubbed).

Definition _render_unsupported (repr : option string) : string :=
  match repr with Some s => redact_string s | None => TRUNCATED end.

(** What [_bounded_entry] does with the redacted value: objects that are not
    JSON-shaped are rendered. *)
Definition bounded (redacted : pyval) : pyval :=
  match redacted with
  | PyObject r => PyStr (_render_unsupported r)
  | PyBytes _ t => PyStr (redact_string t)
  | v => v
  end.

(** The loop over the first entries: keys that are not non-empty strings are
    dropped, sensitive keys lose their value. *)
Definition redact_entries (f : pyval → pyval) : nat → list (pyval * pyval) → pydict → pydict :=
  fix go n kvs acc {struct kvs} :=
    match kvs, n with
    | (k, v) :: kvs', S n' =>
        go n' kvs'
          (match k with
           | PyStr s =>
               if str_nonempty s then
                 dict_set s (if is_sensitive_record_key s then PyStr REDACTED else f v) acc
               else acc
           | _ => acc
           end)
    | _, _ => acc
    end.

(** The tail of [redact_mapping]: a mapping that was cut gets a marker. *)
Definition mark_cut (size : nat) (redacted : pydict) : pydict :=
  if (MAX_METADATA_ENTRIES <? size)%nat then
    dict_set TRUNCATED (PyStr TRUNCATED) (removelast redacted)
  else redacted.

Definition redact_items (f : pyval → pyval) : nat → list pyval → list pyval :=
  fix go n l {struct l} := match l, n with x :: l', S n' => f x :: go n' l' | _, _ => [] end.

(** The last item of a sequence that was cut becomes the marker. *)
Definition cut_items (size : nat) (items : list pyval) : list pyval :=
  if (MAX_METADATA_ENTRIES <? size)%nat then removelast items ++ [PyStr TRUNCATED] else items.

Fixpoint redact_value (depth : nat) (value : pyval) : pyval :=
  let mapping kvs :=
    if (MAX_METADATA_DEPTH <=? depth)%nat then PyStr TRUNCATED
    else str_dict (mark_cut (length kvs)
           (redact_entries (λ v, bounded (redact_value (S depth) v)) MAX_METADATA_ENTRIES kvs [])) in
  let items l :=
    if (MAX_METADATA_DEPTH <=? depth)%nat then PyStr TRUNCATED
    else PyTuple (cut_items (length l) (redact_items (redact_value (S depth)) MAX_METADATA_ENTRIES l)) in
  match value with
  | PyStr s => PyStr (redact_string s)
  | PyBytes _ text => PyStr (redact_string text)
  | PyNone | PyBool _ | PyInt _ | PyFloat _ => value
  | PyDict kvs | PyProxy kvs => mapping kvs
  | PyList l | PyTuple l => items l
  | PyObject _ => if (MAX_METADATA_DEPTH <=? depth)%nat then PyStr TRUNCATED else value
  end.

Definition _bounded_entry (depth : nat) (value : pyval) : pyval := bounded (redact_value depth value).

Definition redact_mapping (depth : nat) (value : list (pyval * pyval)) : pydict :=
  if (MAX_METADATA_DEPTH <=? depth)%nat then [(TRUNCATED, PyStr TRUNCATED)]
  else mark_cut (length value) (redact_entries (_bounded_entry (S depth)) MAX_METADATA_ENTRIES value []).

(** [runtime/redaction.py]: [no_redact] is [DATASLUICE_NO_REDACT == "1"]. *)
Definition redact_for_output (no_redact : bool) (value : pyval) : pyval :=
  if no_redact then value else redact_value 0 value.
Definition redact_event_metadata (no_redact : bool) (value : pydict) : pydict :=
  if no_redact then value else redact_mapping 0 (items_of value).

(** ** What redacted output looks like *)

Fixpoint py_depth (v : pyval) : nat :=
  match v with
  | PyList l | PyTuple l => S (foldr (λ x n, py_depth x `max` n)%nat 0%nat l)
  | PyDict d | PyProxy d => S (foldr (λ kv n, py_depth kv.2 `max` n)%nat 0%nat d)
  | _ => 0%nat
  end.

(** Bounded and free of the values of sensitive keys, at every level. *)
Fixpoint clean (v : pyval) : bool :=
  match v with
  | PyNone | PyBool _ | PyInt _ | PyFloat _ | PyObject _ => true
  | PyStr s => (String.length s <=? MAX_TEXT_LENGTH)%nat
  | PyTuple l => (length l <=? MAX_METADATA_ENTRIES)%nat && forallb clean l
  | PyDict d =>
      (length d <=? MAX_METADATA_ENTRIES)%nat &&
      forallb (λ kv, match kv.1 with
                     | PyStr k => str_nonempty k &&
                         (negb (is_sensitive_record_key k) || py_eq_str kv.2 REDACTED)
                     | _ => false
                     end && clean kv.2) d
  | PyBytes _ _ | PyList _ | PyProxy _ => false
  end.

Definition entry_clean (kv : string * pyval) : Prop :=
  str_nonempty kv.1 = true ∧ (is_sensitive_record_key kv.1 = true → kv.2 = PyStr REDACTED) ∧ clean kv.2 = true.
Definition dict_clean (d : pydict) : Prop :=
  (length d ≤ MAX_METADATA_ENTRIES)%nat ∧ Forall entry_clean d.

(** ** Lemmas *)

Lemma redact_string_bounded s : (String.length (redact_string s) ≤ MAX_TEXT_LENGTH)%nat.
Proof. apply str_take_length. Qed.

Lemma redact_string_nonempty s : str_nonempty s = true → str_nonempty (redact_string s) = true.
Proof.
  intros Hs. unfold redact_string. apply str_take_nonempty.
  repeat (apply re_sub_nonempty; [intros c H%app_eq_nil; by destruct H|]).
  by apply str_take_nonempty.
Qed.

Lemma clean_redact_string s : clean (PyStr (redact_string s)) = true.
Proof. cbn. apply Nat.leb_le, redact_string_bounded. Qed.

Lemma bounded_clean v : clean v = true → clean (bounded v) = true.
Proof.
  destruct v as [| | | | | | | | | |r]; cbn; try done.
  intros _. destruct r; [apply clean_redact_string | done].
Qed.

Lemma dict_set_Forall {V} (P : string * V → Prop) k v d :
  P (k, v) → Forall P d → Forall P (dict_set k v d).
Proof.
  intros Hp. induction 1 as [|[k' v'] d Hx Hd IH]; cbn; [by repeat constructor|].
  case_bool_decide; subst; by constructor.
Qed.

Lemma redact_entries_spec f n kvs acc :
  Forall (λ kv, clean (f kv.2) = true) kvs →
  Forall entry_clean acc →
  (length (redact_entries f n kvs acc) ≤ length acc + n)%nat ∧
  Forall entry_clean (redact_entries f n kvs acc).
Proof.
  intros Hf. revert n acc. induction Hf as [|[k v] kvs Hv Hkvs IH]; intros n acc Hacc; [split; [cbn; lia|done]|].
  destruct n as [|n]; [split; [cbn; lia|done]|]. cbn [redact_entries fst snd] in *.
  assert (Hskip : (length (redact_entries f n kvs acc) ≤ length acc + S n)%nat ∧
                  Forall entry_clean (redact_entries f n kvs acc))
    by (destruct (IH n acc Hacc); split; [lia|done]).
  destruct k as [| | | |s| | | | | |]; try exact Hskip.
  destruct (str_nonempty s) eqn:Es; [|exact Hskip].
  destruct (IH n (dict_set s (if is_sensitive_record_key s then PyStr REDACTED else f v) acc)) as [Hl Hc].
  { apply dict_set_Forall; [|done]. unfold entry_clean; cbn [fst snd].
    split_and!; [done|by intros ->|]. by destruct (is_sensitive_record_key s). }
  split; [|done]. pose proof (dict_set_length s (if is_sensitive_record_key s then PyStr REDACTED else f v) acc).
  lia.
Qed.

Lemma removelast_length {A} (l : list A) : (length (removelast l) ≤ length l - 1)%nat.
Proof. induction l as [|x [|y l] IH]; cbn in *; lia. Qed.
Lemma removelast_Forall {A} (P : A → Prop) l : Forall P l → Forall P (removelast l).
Proof.
  induction 1 as [|x l Hx Hl IH]; [done|]. destruct l; [by constructor|]. by constructor.
Qed.

Lemma mark_cut_clean n d : dict_clean d → dict_clean (mark_cut n d).
Proof.
  intros [Hl Hf]. unfold mark_cut. case_match; [|done]. split.
  - pose proof (dict_set_length TRUNCATED (PyStr TRUNCATED) (removelast d)).
    pose proof (removelast_length d). unfold MAX_METADATA_ENTRIES in *. lia.
  - apply dict_set_Forall; [by vm_compute|]. by apply removelast_Forall.
Qed.

Lemma redact_items_spec f n l :
  Forall (λ v, clean (f v) = true) l →
  (length (redact_items f n l) ≤ n)%nat ∧ forallb clean (redact_items f n l) = true.
Proof.
  intros Hf. revert n. induction Hf as [|x l Hx Hl IH]; intros [|n]; cbn; try (split; [lia|done]).
  destruct (IH n). rewrite Hx. split; [lia|done].
Qed.

Lemma cut_items_clean n l :
  (length l ≤ MAX_METADATA_ENTRIES)%nat → forallb clean l = true → clean (PyTuple (cut_items n l)) = true.
Proof.
  intros Hl Hf. change (clean (PyTuple ?l')) with
    ((length l' <=? MAX_METADATA_ENTRIES)%nat && forallb clean l').
  rewrite andb_true_iff, Nat.leb_le. unfold cut_items. case_match; [|done].
  rewrite length_app. pose proof (removelast_length l).
  split; [unfold MAX_METADATA_ENTRIES in *; cbn [length]; lia|].
  rewrite forallb_forall, <- List.Forall_forall in *. apply Forall_app. split; [by apply removelast_Forall|].
  by repeat constructor.
Qed.

Lemma dict_clean_clean d : dict_clean d → clean (str_dict d) = true.
Proof.
  intros [Hl Hf]. unfold str_dict. cbn [clean]. rewrite andb_true_iff, Nat.leb_le, length_fmap. split; [done|].
  rewrite forallb_forall, <- List.Forall_forall, Forall_fmap. eapply Forall_impl; [done|].
  intros [k v] (Hk & Hs & Hv). unfold compose, prod_map, id. cbn [fst snd] in *.
  rewrite Hk, Hv, andb_true_r. cbn [andb].
  destruct (is_sensitive_record_key k); [|done]. by rewrite (Hs eq_refl).
Qed.

Lemma mapping_clean f kvs :
  Forall (λ kv, clean (f kv.2) = true) kvs →
  dict_clean (mark_cut (length kvs) (redact_entries f MAX_METADATA_ENTRIES kvs [])).
Proof.
  intros Hf. apply mark_cut_clean.
  destruct (redact_entries_spec f MAX_METADATA_ENTRIES kvs [] Hf) as [? ?]; [constructor|]. by split.
Qed.

Lemma redact_value_clean v : ∀ depth, clean (redact_value depth v) = true.
Proof.
  induction v as [| | | |s|raw t|l IH|l IH|d IH|d IH|r] using pyval_nested_ind; intros depth;
    cbn [redact_value]; try done; try apply clean_redact_string;
    try (case_match; [done|]).
  - apply cut_items_clean; apply redact_items_spec; eapply Forall_impl; [exact IH| |exact IH|]; cbn; auto.
  - apply cut_items_clean; apply redact_items_spec; eapply Forall_impl; [exact IH| |exact IH|]; cbn; auto.
  - apply dict_clean_clean, mapping_clean. eapply Forall_impl; [exact IH|].
    intros kv Hkv. apply bounded_clean, Hkv.
  - apply dict_clean_clean, mapping_clean. eapply Forall_impl; [exact IH|].
    intros kv Hkv. apply bounded_clean, Hkv.
  - done.
Qed.

Lemma redact_mapping_clean depth kvs : dict_clean (redact_mapping depth kvs).
Proof.
  unfold redact_mapping. case_match.
  - split; [cbn; unfold MAX_METADATA_ENTRIES; lia|]. by repeat constructor.
  - apply mapping_clean, Forall_forall. intros kv _. apply bounded_clean, redact_value_clean.
Qed.

#[export] Hint Resolve redact_string_bounded clean_redact_string redact_value_clean
  redact_mapping_clean : datasluice.

Lemma foldr_max_le {A} (g : A → nat) l n :
  Forall (λ x, (g x ≤ n)%nat) l → (foldr (λ x m, g x `max` m)%nat 0%nat l ≤ n)%nat.
Proof. induction 1; cbn; lia. Qed.

Lemma redact_items_Forall f (P : pyval → Prop) n l :
  Forall (λ v, P (f v)) l → Forall P (redact_items f n l).
Proof. intros H. revert n. induction H; intros [|n]; cbn; by constructor. Qed.

Lemma cut_items_Forall (P : pyval → Prop) n l : P (PyStr TRUNCATED) → Forall P l → Forall P (cut_items n l).
Proof.
  intros Ht Hl. unfold cut_items. case_match; [|done]. apply Forall_app.
  split; [by apply removelast_Forall | by repeat constructor].
Qed.

Lemma redact_entries_Forall f (P : pyval → Prop) n kvs acc :
  P (PyStr REDACTED) → Forall (λ kv, P (f kv.2)) kvs → Forall (λ kv, P kv.2) acc →
  Forall (λ kv, P kv.2) (redact_entries f n kvs acc).
Proof.
  intros Hr Hkvs. revert n acc. induction Hkvs as [|[k v] kvs Hv Hkvs IH]; intros [|n] acc Hacc;
    cbn [redact_entries]; try done. apply IH. destruct k; try done. case_match; [|done].
  apply dict_set_Forall; [|done]. by case_match.
Qed.

Lemma mark_cut_Forall (P : pyval → Prop) n d :
  P (PyStr TRUNCATED) → Forall (λ kv, P kv.2) d → Forall (λ kv, P kv.2) (mark_cut n d).
Proof.
  intros Ht Hd. unfold mark_cut. case_match; [|done].
  apply dict_set_Forall; [done|]. by apply removelast_Forall.
Qed.

Lemma py_depth_str_dict d n :
  Forall (λ kv, (py_depth kv.2 ≤ n)%nat) d → (py_depth (str_dict d) ≤ S n)%nat.
Proof.
  intros Hd. unfold str_dict; cbn [py_depth]. apply le_n_S, foldr_max_le, Forall_fmap. done.
Qed.

Lemma bounded_depth v n : (py_depth v ≤ n)%nat → (py_depth (bounded v) ≤ n)%nat.
Proof. destruct v; cbn; auto with lia. Qed.

Lemma redact_value_depth v : ∀ depth, (depth ≤ MAX_METADATA_DEPTH)%nat →
  (py_depth (redact_value depth v) ≤ MAX_METADATA_DEPTH - depth)%nat.
Proof.
  induction v as [| | | |s|raw t|l IH|l IH|d IH|d IH|r] using pyval_nested_ind; intros depth Hd;
    cbn [redact_value]; try (cbn; lia);
    (destruct (MAX_METADATA_DEPTH <=? depth)%nat eqn:E; [cbn; lia|apply Nat.leb_gt in E; try (cbn; lia)]).
  1,2: cbn [py_depth]; transitivity (S (MAX_METADATA_DEPTH - S depth)); [apply le_n_S, foldr_max_le|lia];
    apply cut_items_Forall; [cbn; lia|]; apply redact_items_Forall;
    eapply Forall_impl; [exact IH|]; cbn; intros x Hx; apply Hx; lia.
  1,2: transitivity (S (MAX_METADATA_DEPTH - S depth)); [apply py_depth_str_dict|lia];
    apply (mark_cut_Forall (λ v, (py_depth v ≤ _)%nat)); [cbn; lia|];
    apply (redact_entries_Forall _ (λ v, (py_depth v ≤ _)%nat)); [cbn; lia| |constructor];
    eapply Forall_impl; [exact IH|]; cbn; intros x Hx; apply bounded_depth, Hx; lia.
Qed.

Lemma redact_mapping_depth depth kvs : (depth ≤ MAX_METADATA_DEPTH)%nat →
  Forall (λ kv, (py_depth kv.2 ≤ MAX_METADATA_DEPTH)%nat) (redact_mapping depth kvs).
Proof.
  intros Hd. unfold redact_mapping. case_match; [repeat constructor; cbn; lia|].
  apply (mark_cut_Forall (λ v, (py_depth v ≤ _)%nat)); [cbn; lia|].
  apply (redact_entries_Forall _ (λ v, (py_depth v ≤ _)%nat)); [cbn; lia| |constructor].
  apply Forall_forall. intros kv _. apply bounded_depth.
  assert (S depth ≤ MAX_METADATA_DEPTH)%nat by (apply Nat.leb_gt in H; lia).
  pose proof (redact_value_depth kv.2 (S depth)). lia.
Qed.

(** The entries of a small mapping, one by one. *)
Lemma redact_entries_app f n (d : pydict) acc :
  (length d ≤ n)%nat → NoDup (acc.*1 ++ d.*1) → Forall (λ kv, str_nonempty kv.1 = true) d →
  redact_entries f n (items_of d) acc =
  acc ++ ((λ kv, (kv.1, if is_sensitive_record_key kv.1 then PyStr REDACTED else f kv.2)) <$> d).
Proof.
  revert n acc. induction d as [|[k v] d IH]; intros [|n] acc Hl Hnd Hne; cbn in Hl; try lia;
    cbn [items_of fmap list_fmap redact_entries]; try by rewrite app_nil_r.
  apply Forall_cons in Hne as [Hk Hne]. cbn [fst] in Hk. unfold prod_map at 1; cbn [fst snd].
  rewrite Hk, dict_set_fresh.
  - fold (items_of d). rewrite IH; [by rewrite <- app_assoc|lia| |done].
    rewrite fmap_app, <- app_assoc. done.
  - apply NoDup_app in Hnd as (_ & Hnd & _). intros Hin. apply (Hnd k Hin). left.
Qed.

Lemma redact_mapping_small depth (d : pydict) :
  (depth < MAX_METADATA_DEPTH)%nat → (length d ≤ MAX_METADATA_ENTRIES)%nat →
  NoDup d.*1 → Forall (λ kv, str_nonempty kv.1 = true) d →
  redact_mapping depth (items_of d) =
  (λ kv, (kv.1, if is_sensitive_record_key kv.1 then PyStr REDACTED
                else _bounded_entry (S depth) kv.2)) <$> d.
Proof.
  intros Hd Hl Hnd Hne. unfold redact_mapping, mark_cut.
  rewrite (proj2 (Nat.leb_gt _ _)) by done. unfold items_of at 1. rewrite length_fmap.
  rewrite (proj2 (Nat.ltb_ge _ _)) by done. by apply redact_entries_app.
Qed.

(** ** Properties *)

(** Whatever mapping it is given, the redaction gate returns a dictionary
    of at most 32 entries with non-empty string keys, no key whose name is
    credential-like keeps its value (at any level), every text is at most 256
    characters long and the nesting is at most eight levels deep. *)
Theorem redact_mapping_safe depth kvs :
  (depth ≤ MAX_METADATA_DEPTH)%nat →
  dict_clean (redact_mapping depth kvs) ∧
  Forall (λ kv, (py_depth kv.2 ≤ MAX_METADATA_DEPTH)%nat) (redact_mapping depth kvs).
Proof. auto using redact_mapping_clean, redact_mapping_depth. Qed.

(** A nested mapping with a token in it and an authorization header in a text. *)
Definition sample_metadata : pydict :=
  [("attempt", PyInt 2); ("Access-Token", PyStr "abc");
   ("detail", PyDict [(PyStr "api_key", PyStr "k"); (PyStr "note", PyStr "Bearer abcdefghij")])].

Lemma redact_mapping_safe_witness :
  redact_mapping 0 (items_of sample_metadata) =
    [("attempt", PyInt 2); ("Access-Token", PyStr "***");
     ("detail", PyDict [(PyStr "api_key", PyStr "***"); (PyStr "note", PyStr "Bearer ***")])] ∧
  dict_clean (redact_mapping 0 (items_of sample_metadata)) ∧
  Forall (λ kv, (py_depth kv.2 ≤ MAX_METADATA_DEPTH)%nat) (redact_mapping 0 (items_of sample_metadata)).
Proof. split; [by vm_compute|]. apply redact_mapping_safe. unfold MAX_METADATA_DEPTH. lia. Defined.

(** a mapping of at most 32 entries with distinct non-empty string keys
    keeps exactly its keys, in order: a sensitive one is masked and any other
    has its own redacted value. *)
Theorem redact_mapping_keeps_entries (no_redact : bool) (d : pydict) :
  no_redact = false →
  (length d ≤ MAX_METADATA_ENTRIES)%nat → NoDup d.*1 → Forall (λ kv, str_nonempty kv.1 = true) d →
  redact_event_metadata no_redact d =
  (λ kv, (kv.1, if is_sensitive_record_key kv.1 then PyStr REDACTED else _bounded_entry 1 kv.2)) <$> d.
Proof. intros -> ???. apply redact_mapping_small; unfold MAX_METADATA_DEPTH; auto with lia. Qed.

Lemma redact_mapping_keeps_entries_witness :
  redact_event_metadata false [("retry_count", PyInt 3); ("password", PyStr "x")] =
  [("retry_count", PyInt 3); ("password", PyStr "***")].
Proof.
  refine (eq_trans (redact_mapping_keeps_entries false _ eq_refl _ _ _) _).
  - cbn. unfold MAX_METADATA_ENTRIES. lia.
  - by apply (bool_decide_unpack _).
  - by repeat constructor.
  - by vm_compute.
Defined.

#[global] Arguments redact_string : simpl never.
#[global] Arguments redact_mapping : simpl never.
#[global] Arguments redact_event_metadata : simpl never.
#[global] Arguments contains_credential_content : simpl never.
#[global] Arguments is_sensitive_record_key : simpl never.
