(* ===== verification/Policies.v ===== *)
(** * Mutation safety policies, time budgets, retry decisions, circuit states

    [domain/catalog/safety.py], [domain/catalog/resilience.py] and the defaults
    of [runtime/constants.py].  A frozen dataclass is a record, its
    [__post_init__] a [make_*] function that raises or returns the record; the
    [isinstance] checks of statically typed fields hold by typing. *)
From S2P Require Import Prelude PyVal.
From Stdlib Require Import QArith Lqa ZArith.
Local Close Scope Q_scope.
Local Open Scope Z_scope.
Local Open Scope py_scope.

(** ** safety.py *)

Record ConfirmationPolicy := { confirmed : bool; conf_operation : option string; conf_target : option string }.

Definition make_confirmation (c : bool) (operation target : option string) : result ConfirmationPolicy :=
  raise_if (negb (opt_nonempty operation))
    (err ValueError "Mutation confirmation operation must be a non-empty string when supplied.");;
  raise_if (negb (opt_nonempty target))
    (err ValueError "Mutation confirmation target must be a non-empty string when supplied.");;
  Ok {| confirmed := c; conf_operation := operation; conf_target := target |}.

Record IdempotencyPolicy := { safe : bool; idem_key : option string; explicit_retry_opt_in : bool }.

Definition make_idempotency (s : bool) (key : option string) (opt_in : bool) : result IdempotencyPolicy :=
  raise_if (negb (opt_nonempty key)) (err ValueError "Idempotency keys must be non-empty strings.");;
  Ok {| safe := s; idem_key := key; explicit_retry_opt_in := opt_in |}.

Definition allows_retry (p : IdempotencyPolicy) : bool :=
  safe p || bool_decide (is_Some (idem_key p)) || explicit_retry_opt_in p.

Record ConcurrencyPolicy := { token : option string; overwrite : bool }.

Definition make_concurrency (tok : option string) (ow : bool) : result ConcurrencyPolicy :=
  raise_if (negb (opt_nonempty tok)) (err ValueError "Concurrency tokens must be non-empty strings.");;
  Ok {| token := tok; overwrite := ow |}.

Definition concurrency_allows (p : ConcurrencyPolicy) : bool :=
  bool_decide (is_Some (token p)) || overwrite p.

Record DryRunPolicy := { requested : bool }.

Definition dry_run_allows (p : DryRunPolicy) (capability_supported : bool) : bool :=
  negb (requested p) || capability_supported.

Record MutationPolicy := {
  destructive : bool;
  confirmation : option ConfirmationPolicy;
  concurrency : option ConcurrencyPolicy;
  idempotency : IdempotencyPolicy;
  dry_run : DryRunPolicy
}.

Definition allows_execution (p : MutationPolicy) (capability_supported : bool) : bool :=
  let is_confirmed := match confirmation p with None => false | Some c => confirmed c end in
  (negb (destructive p) || is_confirmed) && dry_run_allows (dry_run p) capability_supported.

Inductive atomicity := Atomic | Independent.

(** The [_ATOMICITIES] frozenset. *)
Definition atomicity_of (s : string) : option atomicity :=
  if bool_decide (s = "atomic") then Some Atomic
  else if bool_decide (s = "independent") then Some Independent else None.
Definition _MAX_BULK_PARALLELISM : Z := 32.

Record BulkExecutionPolicy := {
  bep_atomicity : atomicity;
  native_atomic_available : bool;
  max_parallelism : Z;
  bep_cancellation_requested : bool;
  checkpoint_required : bool
}.

Definition make_bulk_policy (atom : string) (native : bool) (par : Z) (cancel checkpoint : bool)
  : result BulkExecutionPolicy :=
  match atomicity_of atom with
  | None => Raise (err ValueError "Bulk atomicity must be atomic or independent.")
  | Some a =>
      raise_if (negb ((1 <=? par) && (par <=? _MAX_BULK_PARALLELISM)))
        (err ValueError "Bulk parallelism must be between one and the configured safety limit.");;
      raise_if (match a with Atomic => negb native | _ => false end)
        (err ValueError "Atomic bulk execution requires a native atomic endpoint.");;
      raise_if (match a with Atomic => negb (par =? 1) | _ => false end)
        (err ValueError "Native atomic bulk execution cannot parallelize independent requests.");;
      Ok {| bep_atomicity := a; native_atomic_available := native; max_parallelism := par;
            bep_cancellation_requested := cancel; checkpoint_required := checkpoint |}
  end.

Definition is_atomic (p : BulkExecutionPolicy) : bool :=
  match bep_atomicity p with Atomic => true | Independent => false end.

(** ** resilience.py *)

Definition _positive_budget (value : pyval) (name : string) : result Q :=
  match as_number value with
  | Some (FFin q) =>
      if 0%Q <?q q then Ok q
      else Raise (err ValueError (name +:+ " budget must be a finite positive number."))
  | _ => Raise (err ValueError (name +:+ " budget must be a finite positive number."))
  end.

Record TimeBudget := { connect : Q; read_budget : Q; write_budget : Q; total : Q }.

Definition make_time_budget (c r w t : pyval) : result TimeBudget :=
  qc ← _positive_budget c "Connect";
  qr ← _positive_budget r "Read";
  qw ← _positive_budget w "Write";
  qt ← _positive_budget t "Total";
  raise_if (qt <?q qmax (qmax qc qr) qw)
    (err ValueError "Total budget cannot be shorter than an individual operation budget.");;
  Ok {| connect := qc; read_budget := qr; write_budget := qw; total := qt |}.

Record RetryDecision := { retry : bool; delay : option Q; reason : string }.

(** [RetryDecision.__post_init__] on a float delay. *)
Definition make_retry_decision (b : bool) (d : option pyfloat) (r : string) : result RetryDecision :=
  raise_if (negb (str_nonempty r)) (err ValueError "Retry decisions require a boolean and non-empty reason.");;
  q ← (match d with
       | None => Ok None
       | Some (FFin q) =>
           if q <?q 0%Q then Raise (err ValueError "Retry delays must be finite non-negative numbers.")
           else Ok (Some q)
       | Some _ => Raise (err ValueError "Retry delays must be finite non-negative numbers.")
       end);
  raise_if (negb b && bool_decide (is_Some q)) (err ValueError "Declined retry decisions cannot include a delay.");;
  Ok {| retry := b; delay := q; reason := r |}.

(** Comparisons of a float with a finite number; every comparison with NaN is false. *)
Definition float_lt (f : pyfloat) (q : Q) : bool :=
  match f with FFin p => p <?q q | FInf neg => neg | FNan => false end.
Definition float_gt (f : pyfloat) (q : Q) : bool :=
  match f with FFin p => q <?q p | FInf neg => negb neg | FNan => false end.

Definition retryable_statuses : list Z := [408; 425; 429; 500; 502; 503; 504].
Definition retryable_status (status_code : option Z) : bool :=
  match status_code with None => true | Some c => bool_decide (c ∈ retryable_statuses) end.
Definition valid_status (c : Z) : bool := (100 <=? c) && (c <=? 599).

Definition for_response (attempt max_attempts : Z) (status_code : option Z) (retry_after : option pyfloat)
    (idem : IdempotencyPolicy) (budget : TimeBudget) : result RetryDecision :=
  raise_if ((attempt <? 1) || (max_attempts <? attempt))
    (err ValueError "Retry attempt counts must be positive and ordered.");;
  raise_if (match status_code with Some c => negb (valid_status c) | None => false end)
    (err ValueError "Retry status codes must be valid HTTP status codes.");;
  raise_if (match retry_after with Some f => float_lt f 0%Q | None => false end)
    (err ValueError "Retry-After must be a non-negative number.");;
  if negb (allows_retry idem) then
    make_retry_decision false None "The operation is not safe to repeat."
  else if max_attempts <=? attempt then
    make_retry_decision false None "The retry attempt limit is exhausted."
  else if negb (retryable_status status_code) then
    make_retry_decision false None "The response is not retryable."
  else
    let d := match retry_after with
             | Some f => f
             | None => FFin (qmin (inject_Z (2 ^ (attempt - 1))) (total budget))
             end in
    if float_gt d (total budget) then
      make_retry_decision false None "Retry-After exceeds the total time budget."
    else make_retry_decision true (Some d) "The response is retryable within the configured budget.".

(** The circuit identity; [CircuitKey.__post_init__] reduces [origin] to its
    scheme and authority with [urlsplit], which is [Clients.make_circuit_key];
    keys here are taken after it. *)
Record CircuitKey := { origin : string; credential_scope : string }.

#[global] Instance CircuitKey_eq_dec : EqDecision CircuitKey.
Proof. solve_decision. Defined.
#[global] Instance CircuitKey_countable : Countable CircuitKey.
Proof.
  refine (inj_countable' (λ k, (origin k, credential_scope k))
            (λ p, {| origin := p.1; credential_scope := p.2 |}) _).
  by intros [].
Defined.

Record CircuitState := {
  failure_count : Z;
  failure_threshold : Z;
  cooldown : Q;
  is_open : bool
}.

Definition make_circuit_state (fc ft : Z) (cd : pyval) (op : bool) : result CircuitState :=
  raise_if (fc <? 0) (err ValueError "Circuit failure counts must be non-negative integers.");;
  raise_if (ft <? 1) (err ValueError "Circuit failure thresholds must be positive integers.");;
  q ← _positive_budget cd "Circuit cooldown";
  Ok {| failure_count := fc; failure_threshold := ft; cooldown := q; is_open := op |}.

Definition is_available (s : CircuitState) : bool := negb (is_open s).

Definition record_failure (s : CircuitState) : result CircuitState :=
  let failures := failure_count s + 1 in
  make_circuit_state failures (failure_threshold s) (PyFloat (FFin (cooldown s)))
    (failure_threshold s <=? failures).

Definition circuit_reset (s : CircuitState) : result CircuitState :=
  make_circuit_state 0 (failure_threshold s) (PyFloat (FFin (cooldown s))) false.

(** ** constants.py *)
Definition DEFAULT_CONNECT_BUDGET_SECONDS : pyval := PyFloat (FFin 10%Q).
Definition DEFAULT_READ_BUDGET_SECONDS : pyval := PyFloat (FFin 30%Q).
Definition DEFAULT_WRITE_BUDGET_SECONDS : pyval := PyFloat (FFin 30%Q).
Definition DEFAULT_OPERATION_TOTAL_BUDGET_SECONDS : pyval := PyFloat (FFin 60%Q).
Definition DEFAULT_BREAKER_FAILURE_THRESHOLD : Z := 5.
Definition DEFAULT_BREAKER_COOLDOWN_SECONDS : pyval := PyFloat (FFin 30%Q).
Definition DEFAULT_BULK_MAX_PARALLELISM : Z := 4.

Definition _default_budget : result TimeBudget :=
  make_time_budget DEFAULT_CONNECT_BUDGET_SECONDS DEFAULT_READ_BUDGET_SECONDS
    DEFAULT_WRITE_BUDGET_SECONDS DEFAULT_OPERATION_TOTAL_BUDGET_SECONDS.

(** ** Well-formedness *)

Definition budget_wf (b : TimeBudget) : Prop :=
  (0 < connect b ∧ 0 < read_budget b ∧ 0 < write_budget b ∧ 0 < total b ∧
   connect b <= total b ∧ read_budget b <= total b ∧ write_budget b <= total b)%Q.

Definition decision_wf (d : RetryDecision) : Prop :=
  (∀ q, delay d = Some q → 0 <= q)%Q ∧ (retry d = false → delay d = None) ∧ reason d ≠ "".

Definition circuit_wf (s : CircuitState) : Prop :=
  0 <= failure_count s ∧ 1 <= failure_threshold s ∧ (0 < cooldown s)%Q.

(** ** Lemmas *)

Lemma positive_budget_ok v name q :
  _positive_budget v name = Ok q ↔ as_number v = Some (FFin q) ∧ (0 < q)%Q.
Proof.
  unfold _positive_budget. destruct (as_number v) as [[p| |]|]; cbn; try naive_solver.
  destruct (0%Q <?q p) eqn:E; qbool.
  - naive_solver.
  - split; [done|]. intros [[= <-] Hq]. lra.
Qed.

Lemma qmax3_lt t a b c :
  (t <?q qmax (qmax a b) c) = false ↔ (a <= t ∧ b <= t ∧ c <= t)%Q.
Proof.
  rewrite Qltb_false. pose proof (qmax_l (qmax a b) c). pose proof (qmax_r (qmax a b) c).
  pose proof (qmax_l a b). pose proof (qmax_r a b). split; [intros; repeat split; lra|].
  intros (? & ? & ?). unfold qmax in *. repeat case_match; lra.
Qed.

Lemma make_circuit_state_ok fc ft cd op s :
  make_circuit_state fc ft cd op = Ok s →
  circuit_wf s ∧ failure_count s = fc ∧ failure_threshold s = ft ∧ is_open s = op ∧
  as_number cd = Some (FFin (cooldown s)).
Proof.
  unfold make_circuit_state. intros. inv_ok. qbool.
  match goal with H : _positive_budget _ _ = _ |- _ => apply positive_budget_ok in H as [? ?] end.
  done.
Qed.

Lemma make_circuit_state_total fc ft q op :
  0 <= fc → 1 <= ft → (0 < q)%Q →
  make_circuit_state fc ft (PyFloat (FFin q)) op =
  Ok {| failure_count := fc; failure_threshold := ft; cooldown := q; is_open := op |}.
Proof.
  intros. unfold make_circuit_state, _positive_budget. cbn.
  rewrite (proj2 (Z.ltb_ge fc 0)), (proj2 (Z.ltb_ge ft 1)) by lia. cbn.
  by rewrite (proj2 (Qltb_true 0 q)).
Qed.

Lemma record_failure_total s : circuit_wf s →
  record_failure s = Ok {| failure_count := failure_count s + 1; failure_threshold := failure_threshold s;
                           cooldown := cooldown s; is_open := failure_threshold s <=? failure_count s + 1 |}.
Proof. intros (? & ? & ?). unfold record_failure. apply make_circuit_state_total; [lia|done..]. Qed.

Lemma circuit_reset_total s : circuit_wf s →
  circuit_reset s = Ok {| failure_count := 0; failure_threshold := failure_threshold s;
                          cooldown := cooldown s; is_open := false |}.
Proof. intros (? & ? & ?). by apply make_circuit_state_total. Qed.

#[export] Hint Resolve record_failure_total circuit_reset_total : datasluice.

(** The guards and the verdict of [for_response], as one equation. *)
Lemma for_response_guarded attempt max_attempts status ra idem b :
  1 <= attempt <= max_attempts →
  (∀ c, status = Some c → valid_status c = true) →
  (∀ f, ra = Some f → ∃ q, f = FFin q ∧ (0 <= q)%Q) →
  (0 < total b)%Q →
  ∃ d, for_response attempt max_attempts status ra idem b = Ok d ∧ decision_wf d ∧
    (retry d = true ↔
       allows_retry idem = true ∧ attempt < max_attempts ∧ retryable_status status = true ∧
       (∀ q, ra = Some (FFin q) → (q <= total b)%Q)) ∧
    (retry d = true → ∃ q, delay d = Some q ∧ (0 <= q <= total b)%Q ∧
       match ra with Some f => f = FFin q | None => q = qmin (inject_Z (2 ^ (attempt - 1))) (total b) end).
Proof.
  intros Hatt Hst Hra Htot. unfold for_response.
  rewrite (proj2 (Z.ltb_ge attempt 1)), (proj2 (Z.ltb_ge max_attempts attempt)) by lia.
  replace (match status with Some c => negb (valid_status c) | None => false end) with false
    by (destruct status; [by rewrite Hst|done]).
  replace (match ra with Some f => float_lt f 0%Q | None => false end) with false.
  2:{ destruct ra as [f|]; [|done]. destruct (Hra f eq_refl) as (q & -> & Hq).
      symmetry. by apply Qltb_false. }
  cbn [raise_if orb]. cbn.
  destruct (allows_retry idem) eqn:Eidem; cbn.
  2:{ eexists; split; [done|]. split_and!; try done; naive_solver. }
  destruct (max_attempts <=? attempt) eqn:Emax; qbool; cbn.
  { eexists; split; [done|]. split_and!; try done. split; [done|]. cbn. intros (_ & ? & _). lia. }
  destruct (retryable_status status) eqn:Ers; cbn.
  2:{ eexists; split; [done|]. split_and!; try done; naive_solver. }
  assert (Hmin : (0 <= qmin (inject_Z (2 ^ (attempt - 1))) (total b) <= total b)%Q).
  { split; [|apply qmin_r]. unfold qmin. case_match; [|lra].
    change 0%Q with (inject_Z 0). rewrite <- Zle_Qle. apply Z.pow_nonneg. lia. }
  destruct ra as [f|]; [destruct (Hra f eq_refl) as (q & -> & Hq)|]; cbn;
    match goal with |- context [total b <?q ?d] => destruct (total b <?q d) eqn:Egt; qbool end; try lra.
  - eexists; split; [done|]. split_and!; try done. split; [done|]. intros (_ & _ & _ & H).
    specialize (H q eq_refl). lra.
  - unfold make_retry_decision. cbn. rewrite (proj2 (Qltb_false q 0)) by done. cbn.
    eexists; split; [done|]. unfold decision_wf; cbn. split_and!; try done; try naive_solver.
  - unfold make_retry_decision. cbn. rewrite (proj2 (Qltb_false _ 0)) by tauto. cbn.
    eexists; split; [done|]. unfold decision_wf; cbn. split_and!; try done; try naive_solver.
Qed.
