(* ===== verification/Errors.v ===== *)
(** * Catalog errors

    The constructors of [errors/catalog.py], which validate and redact what an
    error carries, and the mapping of native failures to portable errors. *)
From S2P Require Import Prelude PyVal Redaction.
From Stdlib Require Import QArith Lqa ZArith.
Local Close Scope Q_scope.
Local Open Scope Z_scope.
Local Open Scope py_scope.

(** ** Metadata *)

(** [repr] of the floats that are not finite. *)
Definition nonfinite_repr (f : pyfloat) : string :=
  match f with FInf true => "-inf" | FInf false => "inf" | _ => "nan" end.

(** The entries of a mapping whose key is a non-empty string. *)
Definition str_keyed (k : pyval) : bool :=
  match k with PyStr s => str_nonempty s | _ => false end.

Fixpoint _freeze_metadata_node (node : pyval) : pyval :=
  match node with
  | PyDict kvs | PyProxy kvs =>
      PyProxy ((fix go kvs := match kvs with
               | [] => []
               | (k, v) :: kvs' =>
                   if str_keyed k then (k, _freeze_metadata_node v) :: go kvs' else go kvs'
               end) kvs)
  | PyList l | PyTuple l => PyTuple (_freeze_metadata_node <$> l)
  | PyFloat (FFin q) => node
  | PyFloat f => PyStr (redact_string (nonfinite_repr f))
  | PyNone | PyStr _ | PyBool _ | PyInt _ => node
  | PyBytes _ t => PyStr (redact_string t)
  | PyObject r => PyStr (redact_string (default "" r))
  end.

Definition _bounded_metadata (value : option pydict) : pydict :=
  match value with
  | None => []
  | Some d => (λ kv, (kv.1, _freeze_metadata_node kv.2)) <$> redact_mapping 0 (items_of d)
  end.

(** ** Constructors *)

Definition _platform_value (platform : string) : result string :=
  raise_if (negb (str_nonempty platform)) (err ValueError "Catalog error platform must be a non-empty string.");;
  Ok platform.

(** [CatalogError.__init__] for the subclass [kind]; the attributes only some
    subclasses have are [None] or zero. *)
Definition catalog_error (kind : exc_kind) (message operation platform : string)
    (capability_state : option string) (safe_action : string) (metadata : option pydict) : result exn :=
  raise_if (negb (str_nonempty message)) (err ValueError "Catalog error messages must be non-empty strings.");;
  raise_if (negb (str_nonempty operation)) (err ValueError "Catalog error operations must be non-empty strings.");;
  raise_if (negb (str_nonempty safe_action)) (err ValueError "Catalog errors require a safe next action.");;
  p ← _platform_value platform;
  Ok (Exn kind message (Some {|
    ci_operation := operation; ci_platform := p; ci_capability_state := capability_state;
    ci_safe_action := safe_action; ci_status_code := None; ci_vendor_code := None;
    ci_retry_after := None; ci_elapsed := 0%Q; ci_budget := 0%Q; ci_retry_state := [];
    ci_metadata := _bounded_metadata metadata |})).

Definition update_info (f : catalog_info → catalog_info) (e : exn) : exn :=
  Exn (exn_kind e) (exn_msg e) (f <$> exn_info e).

Definition catalog_rate_limit_error (message operation platform : string)
    (capability_state : option string) (safe_action : string) (retry_after : option Q)
    (metadata : option pydict) : result exn :=
  raise_if (match retry_after with Some q => q <?q 0%Q | None => false end)
    (err ValueError "Retry-After must be a non-negative number.");;
  e ← catalog_error CatalogRateLimitError message operation platform capability_state safe_action metadata;
  Ok (update_info (λ i, CatalogInfo (ci_operation i) (ci_platform i) (ci_capability_state i)
        (ci_safe_action i) (ci_status_code i) (ci_vendor_code i) retry_after
        (ci_elapsed i) (ci_budget i) (ci_retry_state i) (ci_metadata i)) e).

Definition budget_exhausted_error (message operation platform : string)
    (capability_state : option string) (safe_action : string) (elapsed_seconds budget_seconds : Q)
    (retry_state : option pydict) (metadata : option pydict) : result exn :=
  raise_if (elapsed_seconds <?q 0%Q) (err ValueError "Elapsed seconds must be finite non-negative numbers.");;
  raise_if (budget_seconds <?q 0%Q) (err ValueError "Budget seconds must be finite non-negative numbers.");;
  raise_if (budget_seconds <=?q 0%Q) (err ValueError "Budget seconds must be a positive number.");;
  e ← catalog_error BudgetExhaustedError message operation platform capability_state safe_action metadata;
  Ok (update_info (λ i, CatalogInfo (ci_operation i) (ci_platform i) (ci_capability_state i)
        (ci_safe_action i) (ci_status_code i) (ci_vendor_code i) (ci_retry_after i)
        elapsed_seconds budget_seconds (_bounded_metadata retry_state) (ci_metadata i)) e).

Definition _validate_native_error_identity (message operation : string) : result unit :=
  raise_if (negb (str_nonempty message)) (err ValueError "Native catalog error messages must be non-empty strings.");;
  raise_if (negb (str_nonempty operation)) (err ValueError "Native catalog error operations must be non-empty strings.").

Definition _validate_native_error_details (status_code : option Z) (vendor_code : option string)
    (retry_after : option Q) : result unit :=
  raise_if (match status_code with Some c => negb ((100 <=? c) && (c <=? 599)) | None => false end)
    (err ValueError "Native catalog error status codes must be valid HTTP status codes.");;
  raise_if (match vendor_code with Some v => (MAX_TEXT_LENGTH <? String.length v)%nat | None => false end)
    (err ValueError "Native catalog error vendor codes must be bounded strings.");;
  raise_if (match retry_after with Some q => q <?q 0%Q | None => false end)
    (err ValueError "Native catalog error Retry-After must be a non-negative number.").

Definition _validate_native_error_context (capability_state safe_action : option string) : result unit :=
  raise_if (negb (opt_nonempty capability_state))
    (err ValueError "Native catalog error capability states must be non-empty strings when supplied.");;
  raise_if (negb (opt_nonempty safe_action))
    (err ValueError "Native catalog errors require a non-empty safe action when supplied.").

Definition native_catalog_error (message operation platform : string) (status_code : option Z)
    (vendor_code : option string) (retry_after : option Q) (capability_state safe_action : option string)
    (metadata : option pydict) : result exn :=
  _validate_native_error_identity message operation;;
  _validate_native_error_details status_code vendor_code retry_after;;
  _validate_native_error_context capability_state safe_action;;
  p ← _platform_value platform;
  Ok (Exn NativeCatalogError (redact_string message) (Some {|
    ci_operation := operation; ci_platform := p; ci_capability_state := capability_state;
    ci_safe_action := default "Inspect the native catalog response and retry when the deployment is ready."
                        safe_action;
    ci_status_code := status_code; ci_vendor_code := vendor_code; ci_retry_after := retry_after;
    ci_elapsed := 0%Q; ci_budget := 0%Q; ci_retry_state := [];
    ci_metadata := _bounded_metadata metadata |})).

(** ** Mapping native failures *)

(** The table of [map_catalog_error]: error class, capability state, action. *)
Definition error_of_status (status_code : option Z) : exc_kind * option string * string :=
  match status_code with
  | None => (CatalogUnavailableError, Some "unavailable", "Retry after the deployment is available.")
  | Some c =>
      if c =? 401 then (UnauthenticatedError, Some "unauthorized", "Provide valid credentials and retry the operation.")
      else if c =? 403 then (ForbiddenError, Some "forbidden", "Use credentials with the required scope or role.")
      else if c =? 404 then (CatalogNotFoundError, None, "Confirm the target identifier and deployment.")
      else if c =? 409 then (CatalogConflictError, None, "Refresh the target version token before retrying.")
      else if c =? 410 then (CatalogConflictError, Some "unavailable",
        "The target is deleted or retired; recreate it or address the archived resource.")
      else if c =? 423 then (CatalogUnavailableError, Some "deployment-disabled",
        "The deployment is read-only; mutations require a writable deployment.")
      else if c =? 422 then (CatalogValidationError, None,
        "Correct the request according to the platform validation details.")
      else if c =? 429 then (CatalogRateLimitError, None, "Wait for Retry-After before retrying a safe operation.")
      else if 500 <=? c then (CatalogUnavailableError, Some "unavailable", "Retry after the deployment is available.")
      else (CatalogValidationError, None, "Correct the request before retrying.")
  end.

Definition opt_int (o : option Z) : pyval := match o with None => PyNone | Some z => PyInt z end.

Definition map_catalog_error (native : exn) : result exn :=
  match exn_kind native, exn_info native with
  | NativeCatalogError, Some i =>
      let '(kind, capability_state, safe_action) := error_of_status (ci_status_code i) in
      let metadata := dict_set "status_code" (opt_int (ci_status_code i)) (ci_metadata i) in
      match kind with
      | CatalogRateLimitError =>
          catalog_rate_limit_error (exn_msg native) (ci_operation i) (ci_platform i) capability_state
            safe_action (ci_retry_after i) (Some metadata)
      | _ => catalog_error kind (exn_msg native) (ci_operation i) (ci_platform i) capability_state
               safe_action (Some metadata)
      end
  | _, _ => Raise (err TypeError "Catalog error mapping requires NativeCatalogError.")
  end.

(** ** Lemmas *)

Lemma catalog_error_ok kind message operation platform cap action md e :
  catalog_error kind message operation platform cap action md = Ok e →
  exn_kind e = kind ∧ exn_msg e = message ∧ ∃ i, exn_info e = Some i ∧ ci_operation i = operation ∧
    ci_platform i = platform ∧ ci_capability_state i = cap ∧ ci_safe_action i = action ∧
    ci_metadata i = _bounded_metadata md.
Proof. unfold catalog_error, _platform_value. intros. inv_ok. eauto 10. Qed.

Lemma catalog_error_total kind message operation platform cap action md :
  message ≠ "" → operation ≠ "" → platform ≠ "" → action ≠ "" →
  ∃ e, catalog_error kind message operation platform cap action md = Ok e.
Proof.
  intros. unfold catalog_error, _platform_value.
  destruct message, operation, platform, action; try done. cbn. by eexists.
Qed.

Lemma budget_exhausted_total message operation platform cap action el bu rs md :
  message ≠ "" → operation ≠ "" → platform ≠ "" → action ≠ "" → (0 <= el)%Q → (0 < bu)%Q →
  ∃ e i, budget_exhausted_error message operation platform cap action el bu rs md = Ok e ∧
    exn_kind e = BudgetExhaustedError ∧ exn_msg e = message ∧ exn_info e = Some i ∧
    ci_operation i = operation ∧ ci_platform i = platform ∧
    ci_elapsed i = el ∧ ci_budget i = bu ∧ ci_retry_state i = _bounded_metadata rs.
Proof.
  intros ???? Hel Hbu. unfold budget_exhausted_error.
  destruct (catalog_error_total BudgetExhaustedError message operation platform cap action md) as [e He]; [done..|].
  apply catalog_error_ok in He as Hok. destruct Hok as (Hk & Hm & i & Hi & Ho & Hp & _).
  rewrite (proj2 (Qltb_false el 0)) by exact Hel. rewrite (proj2 (Qltb_false bu 0)) by lra.
  rewrite (proj2 (Qle_bool_false bu 0)) by done. cbn. rewrite He. cbn.
  exists (update_info (λ i, CatalogInfo (ci_operation i) (ci_platform i) (ci_capability_state i)
        (ci_safe_action i) (ci_status_code i) (ci_vendor_code i) (ci_retry_after i)
        el bu (_bounded_metadata rs) (ci_metadata i)) e).
  eexists. cbn. rewrite Hi. split_and!; try reflexivity; done.
Qed.

Lemma native_catalog_error_ok message operation platform sc vc ra cap action md n :
  native_catalog_error message operation platform sc vc ra cap action md = Ok n →
  str_nonempty message = true ∧ str_nonempty operation = true ∧ str_nonempty platform = true ∧
  (∀ q, ra = Some q → (0 <= q)%Q) ∧
  exn_kind n = NativeCatalogError ∧ exn_msg n = redact_string message ∧ ∃ i, exn_info n = Some i ∧
  ci_operation i = operation ∧ ci_platform i = platform ∧ ci_status_code i = sc ∧ ci_retry_after i = ra.
Proof.
  unfold native_catalog_error, _validate_native_error_identity, _validate_native_error_details,
    _validate_native_error_context, _platform_value.
  intros. inv_ok. qbool. split_and!; try done; [|by eexists].
  intros q ->. by qbool.
Qed.

(** ** Properties *)

(** mapping a native failure to a portable error never fails, and keeps
    its operation, platform and (redacted) message; the error class, the
    capability state and the safe action are those of the status table, and a
    rate-limit error keeps the Retry-After delay. *)
Theorem map_catalog_error_total message operation platform sc vc ra cap action md n :
  native_catalog_error message operation platform sc vc ra cap action md = Ok n →
  ∃ e i, map_catalog_error n = Ok e ∧ exn_info e = Some i ∧
    (exn_kind e, ci_capability_state i, ci_safe_action i) = error_of_status sc ∧
    exn_msg e = redact_string message ∧ ci_operation i = operation ∧ ci_platform i = platform ∧
    is_subclass (exn_kind e) CatalogError = true ∧
    (sc = Some 429 → ci_retry_after i = ra).
Proof.
  intros (Hm & Ho & Hp & Hra & Hk & Hmsg & i & Hi & <- & <- & <- & <-)%native_catalog_error_ok.
  unfold map_catalog_error. rewrite Hk, Hi, Hmsg.
  destruct (error_of_status (ci_status_code i)) as [[kind cs] act] eqn:Etab.
  assert (Hsub : is_subclass kind CatalogError = true ∧ act ≠ "" ∧
    (kind ≠ CatalogRateLimitError → ci_status_code i ≠ Some 429)).
  { unfold error_of_status in Etab. repeat case_match; simplify_eq; split_and!; try done; qbool; congruence. }
  destruct Hsub as (Hsub & Hact & H429). apply redact_string_nonempty in Hm.
  rewrite str_nonempty_true in Hm, Ho, Hp.
  set (md' := Some (dict_set _ _ _)).
  destruct (decide (kind = CatalogRateLimitError)) as [->|Hne].
  - unfold catalog_rate_limit_error.
    rewrite guard_bind by (destruct (ci_retry_after i); [by apply Qltb_false, Hra|done]).
    destruct (catalog_error_total CatalogRateLimitError (redact_string message) (ci_operation i)
      (ci_platform i) cs act md') as [e He]; [done..|].
    apply catalog_error_ok in He as Hok. destruct Hok as (Hk' & Hm' & j & Hj & ? & ? & ? & ? & ?).
    rewrite (ok_bind _ _ _ He). eexists _, _. split; [reflexivity|].
    unfold update_info; cbn [exn_info]. rewrite Hj. split; [reflexivity|]. cbn.
    rewrite Hk'. subst. split_and!; done.
  - destruct (catalog_error_total kind (redact_string message) (ci_operation i)
      (ci_platform i) cs act md') as [e He]; [done..|].
    apply catalog_error_ok in He as Hok. destruct Hok as (Hk' & Hm' & j & Hj & ? & ? & ? & ? & ?).
    exists e, j. split; [by destruct kind|]. subst. split_and!; try done.
    intros Hs. by destruct (H429 Hne).
Qed.

Lemma map_catalog_error_total_witness :
  ∃ n e i, native_catalog_error "Too many" "package_search" "ckan" (Some 429) None (Some 5%Q) None None None
             = Ok n ∧
    map_catalog_error n = Ok e ∧ exn_info e = Some i ∧ exn_kind e = CatalogRateLimitError ∧
    ci_retry_after i = Some 5%Q.
Proof.
  destruct (map_catalog_error_total "Too many" "package_search" "ckan" (Some 429) None (Some 5%Q) None None None
              _ ltac:(vm_compute; reflexivity)) as (e & i & He & Hi & Ht & _ & _ & _ & _ & Hr).
  eexists _, e, i. split; [vm_compute; reflexivity|]. split; [exact He|].
  injection Ht as Hk Hc Ha. eauto.
Defined.

#[global] Arguments catalog_error : simpl never.
#[global] Arguments budget_exhausted_error : simpl never.
#[global] Arguments catalog_rate_limit_error : simpl never.
#[global] Arguments native_catalog_error : simpl never.
#[global] Arguments map_catalog_error : simpl never.
