(* ===== verification/Transport.v ===== *)
(** * Transport records

    [runtime/transport/base.py]: requests, responses, upload parts, the header
    and method rewriting of a redirect hop, and the stream response whose
    resource is released once. *)
From S2P Require Import Prelude PyVal Policies.
From Stdlib Require Import QArith Lqa ZArith.
Local Close Scope Q_scope.
Local Open Scope Z_scope.
Local Open Scope py_scope.

Abbreviation headers := (list (string * string)).

Definition _SAFE_REDIRECT_HEADERS : list string :=
  ["accept"; "content-type"; "user-agent"; "range"; "if-none-match"; "if-modified-since"].
Definition _HOP_BODYLESS_HEADERS : list string := ["content-length"; "content-type"; "transfer-encoding"].
Definition _POST_TO_GET_STATUSES : list Z := [301; 302].

Inductive RedirectPolicy := FOLLOW | NO_FOLLOW.

Definition name_in (names : list string) (kv : string * string) : bool :=
  bool_decide (str_lower kv.1 ∈ names).

Definition strip_sensitive_redirect_headers (h : headers) : headers :=
  List.filter (name_in _SAFE_REDIRECT_HEADERS) h.
Definition drop_body_transfer_headers (h : headers) : headers :=
  List.filter (λ kv, negb (name_in _HOP_BODYLESS_HEADERS kv)) h.

(** Part data: buffered bytes, or a one-shot stream the caller owns. *)
Inductive upload_data := UploadBytes (data : string) | UploadStream (handle : nat).

Record UploadPart := {
  field_name : string; part_data : upload_data; file_name : option string; content_type : option string
}.

Definition make_upload_part (name : string) (data : upload_data) (fname ctype : option string) : result UploadPart :=
  raise_if (negb (str_nonempty name)) (err ValueError "Upload part field names must be non-empty strings.");;
  raise_if (negb (opt_nonempty fname))
    (err ValueError "Upload part file names must be non-empty strings when supplied.");;
  raise_if (negb (opt_nonempty ctype))
    (err ValueError "Upload part content types must be non-empty strings when supplied.");;
  Ok {| field_name := name; part_data := data; file_name := fname; content_type := ctype |}.

Definition is_stream (p : UploadPart) : bool :=
  match part_data p with UploadStream _ => true | UploadBytes _ => false end.

(** [method.upper() == "POST"]: only ASCII letters upper-case to these. *)
Definition upper_char (c : Ascii.ascii) : Ascii.ascii :=
  if is_lower_az c then Ascii.ascii_of_N (Ascii.N_of_ascii c - 32) else c.
Definition is_post (method : string) : bool := bool_decide (string_map upper_char method = "POST").

Definition redirect_method_and_body (method : string) (status : Z) (body : option string)
    (files : list UploadPart) : string * option string * list UploadPart :=
  if status =? 303 then ("GET", None, [])
  else if bool_decide (status ∈ _POST_TO_GET_STATUSES) && is_post method then ("GET", None, [])
  else (method, body, files).

Definition nonempty_list {A} (l : list A) : bool := match l with [] => false | _ => true end.

Definition _validate_request_payload (body : option string) (files : list UploadPart) : result unit :=
  raise_if (bool_decide (is_Some body) && nonempty_list files)
    (err ValueError "Runtime requests cannot carry a byte body and multipart parts together.").

Definition _validate_response_limit (max_response_bytes : option Z) : result unit :=
  raise_if (match max_response_bytes with Some n => n <? 1 | None => false end)
    (err ValueError "Runtime request response limits must be positive integers when supplied.").

Definition _freeze_request_headers (h : headers) : result headers :=
  raise_if (negb (forallb (λ kv, str_nonempty kv.1) h))
    (err ValueError "Runtime request headers must contain non-empty string names and string values.");;
  Ok h.

(** The data of a deadline monitor ([runtime/resilience.py]); requests carry
    one, its operations are in [Resilience]. *)
Record DeadlineMonitor := {
  dm_budget : TimeBudget;
  dm_started_at : Q;
  dm_operation : option string;
  dm_platform : option string
}.

Record RuntimeRequest := {
  method : string; url : string; req_headers : headers; req_body : option string;
  files : list UploadPart; redirect_policy : RedirectPolicy;
  max_response_bytes : option Z; deadline : option DeadlineMonitor
}.

Definition make_runtime_request (m u : string) (h : headers) (body : option string) (parts : list UploadPart)
    (policy : RedirectPolicy) (limit : option Z) (dl : option DeadlineMonitor) : result RuntimeRequest :=
  raise_if (negb (str_nonempty m)) (err ValueError "Runtime request methods must be non-empty strings.");;
  raise_if (negb (str_nonempty u)) (err ValueError "Runtime request URLs must be non-empty strings.");;
  _validate_request_payload body parts;;
  raise_if (match policy with FOLLOW => existsb is_stream parts | NO_FOLLOW => false end)
    (err ValueError "Multipart parts carrying one-shot streams require RedirectPolicy.NO_FOLLOW.");;
  _validate_response_limit limit;;
  hs ← _freeze_request_headers h;
  Ok {| method := m; url := u; req_headers := hs; req_body := body; files := parts;
        redirect_policy := policy; max_response_bytes := limit; deadline := dl |}.

Record RuntimeResponse := {
  status_code : Z; resp_headers : headers; body : string; retry_after : option Q
}.

Definition make_runtime_response (status : Z) (h : headers) (b : string) (ra : option pyfloat)
  : result RuntimeResponse :=
  raise_if (negb ((100 <=? status) && (status <=? 599)))
    (err ValueError "Runtime response status codes must be valid HTTP status codes.");;
  raise_if (negb (forallb (λ kv, str_nonempty kv.1) h))
    (err ValueError "Runtime response headers must contain non-empty string names and string values.");;
  r ← (match ra with
       | None => Ok None
       | Some (FFin q) =>
           if q <?q 0%Q then Raise (err ValueError "Runtime response Retry-After must be a finite non-negative number.")
           else Ok (Some q)
       | Some _ => Raise (err ValueError "Runtime response Retry-After must be a finite non-negative number.")
       end);
  Ok {| status_code := status; resp_headers := h; body := b; retry_after := r |}.

Definition response_wf (r : RuntimeResponse) : Prop :=
  valid_status (status_code r) = true ∧ (∀ q, retry_after r = Some q → (0 <= q)%Q).

Lemma make_runtime_response_wf status h b ra r :
  make_runtime_response status h b ra = Ok r → response_wf r ∧ status_code r = status ∧ body r = b.
Proof.
  unfold make_runtime_response, response_wf, valid_status. intros. inv_ok. qbool.
  cbn. split_and!; try done.
  - apply andb_true_iff. split; by apply Z.leb_le.
  - intros q ->. repeat case_match; simplify_eq; by qbool.
Qed.

(** ** The stream response

    [RuntimeStreamResponse] as a state: the closed flag and the calls made to
    the callbacks its owner supplied. *)
Inductive callback := CloseCall | FailCall (e : exn) | CompleteCall.

Record RuntimeStreamResponse := {
  stream_status : Z; chunks : list pyval; stream_retry_after : option Q;
  has_failure_callback : bool; has_completion_callback : bool;
  _closed : bool; calls : list callback
}.

Definition set_closed (s : RuntimeStreamResponse) : RuntimeStreamResponse :=
  {| stream_status := stream_status s; chunks := chunks s; stream_retry_after := stream_retry_after s;
     has_failure_callback := has_failure_callback s; has_completion_callback := has_completion_callback s;
     _closed := true; calls := calls s |}.
Definition call (c : callback) (s : RuntimeStreamResponse) : RuntimeStreamResponse :=
  {| stream_status := stream_status s; chunks := chunks s; stream_retry_after := stream_retry_after s;
     has_failure_callback := has_failure_callback s; has_completion_callback := has_completion_callback s;
     _closed := _closed s; calls := calls s ++ [c] |}.

(** [__iter__]: the non-empty byte chunks, up to the first chunk of another
    type, which raises. *)
Fixpoint stream_iter (cs : list pyval) : list string * option exn :=
  match cs with
  | [] => ([], None)
  | PyBytes raw _ :: cs' =>
      let '(out, e) := stream_iter cs' in (if str_nonempty raw then raw :: out else out, e)
  | _ :: _ => ([], Some (err TransportError "The catalog transport yielded a non-byte stream chunk."))
  end.

Definition stream_close (s : RuntimeStreamResponse) : RuntimeStreamResponse :=
  if _closed s then s else call CloseCall (set_closed s).
Definition stream_fail (e : exn) (s : RuntimeStreamResponse) : RuntimeStreamResponse :=
  if has_failure_callback s then call (FailCall e) s else s.
Definition stream_complete (s : RuntimeStreamResponse) : RuntimeStreamResponse :=
  if has_completion_callback s then call CompleteCall s else s.

(** [_shared.py] *)
Definition _enforce_body_limit (size max_bytes : Z) : result unit :=
  raise_if (max_bytes <? size) (err TransportError "The catalog response exceeds its configured byte limit.").
