(* ===== verification/Resilience.v ===== *)
(** * Deadlines, retries and circuit breakers

    [runtime/resilience.py].  The monotonic clock, the sleep and the request
    sender are callables of the caller: the definitions take them as arguments,
    over any state [S] that the sender may change. *)
From S2P Require Import Prelude PyVal Policies Redaction Errors Transport.
From Stdlib Require Import QArith Lqa ZArith.
Local Close Scope Q_scope.
Local Open Scope Z_scope.
Local Open Scope py_scope.

(** A state with a monotonic clock to read. *)
Class Clocked (S : Type) := clock : S → Q * S.

Definition clock_now {S} `{Clocked S} : M S Q := λ s, let '(t, s') := clock s in (Ok t, s').

(** ** DeadlineMonitor *)
Module Deadline.
Section deadline.
Context {S : Type} `{!Clocked S}.

(** [DeadlineMonitor.__init__] *)
Definition make_monitor (budget : TimeBudget) : M S DeadlineMonitor :=
  t ← clock_now;
  mret {| dm_budget := budget; dm_started_at := t; dm_operation := None; dm_platform := None |}.

Definition remaining_at (m : DeadlineMonitor) (now : Q) : Q :=
  (total (dm_budget m) - (now - dm_started_at m))%Q.
Definition remaining (m : DeadlineMonitor) : M S Q := t ← clock_now; mret (remaining_at m t).

(** [value or fallback] on an optional string: the empty string is false. *)
Definition or_default (value : option string) (fallback : string) : string :=
  match value with Some v => if str_nonempty v then v else fallback | None => fallback end.

Definition _raise_exhausted {A} (m : DeadlineMonitor) (retry_state : pydict) : M S A :=
  let operation := or_default (dm_operation m) "runtime.dispatch" in
  let platform := or_default (dm_platform m) "runtime" in
  t ← clock_now;
  lift_res (raise_new (budget_exhausted_error
    ("Catalog operation " +:+ operation +:+ " on " +:+ platform +:+ " exhausted its total time budget.")
    operation platform (Some "unavailable")
    "Increase the operation budget or retry after the deployment is available."
    (qmax 0%Q (t - dm_started_at m)%Q) (total (dm_budget m)) (Some retry_state) None)).

Definition set_identity (operation platform : option string) (m : DeadlineMonitor) : DeadlineMonitor :=
  {| dm_budget := dm_budget m; dm_started_at := dm_started_at m;
     dm_operation := match operation with Some o => Some o | None => dm_operation m end;
     dm_platform := match platform with Some p => Some p | None => dm_platform m end |}.

(** The monitor as the call leaves it is returned when the call succeeds. *)
Definition assert_dispatchable (operation platform : option string) (m : DeadlineMonitor)
  : M S DeadlineMonitor :=
  let m := set_identity operation platform m in
  left ← remaining m;
  if left <=?q 0%Q then _raise_exhausted m [("phase", PyStr "dispatch")] else mret m.

Definition check_wait (delay : Q) (retry_state : option pydict) (m : DeadlineMonitor) : M S unit :=
  if delay <?q 0%Q then throw (err ValueError "Retry delays must be non-negative numbers.")
  else
    left ← remaining m;
    if left <?q delay then
      let state := [("phase", PyStr "retry-wait"); ("delay_seconds", PyFloat (FFin delay))] in
      _raise_exhausted m (match retry_state with Some d => dict_merge state d | None => state end)
    else mret tt.
End deadline.
End Deadline.
Import Deadline.

(** ** RetryLoop *)

Record RetryLoop := {
  rl_budget : TimeBudget;
  rl_idempotency : IdempotencyPolicy;
  rl_deadline : DeadlineMonitor;
  rl_max_attempts : Z
}.

Definition make_retry_loop (budget : TimeBudget) (idem : IdempotencyPolicy) (deadline : DeadlineMonitor)
    (max_attempts : Z) : result RetryLoop :=
  raise_if (max_attempts <? 1) (err ValueError "Retry loops require at least one attempt.");;
  Ok {| rl_budget := budget; rl_idempotency := idem; rl_deadline := deadline; rl_max_attempts := max_attempts |}.

Definition no_terminal_outcome : exn :=
  err RuntimeError "Retry loop exhausted without a terminal runtime outcome.".

Section retry.
Context {S : Type} `{!Clocked S}.
Variables (sleep : Q → M S unit) (send : M S RuntimeResponse).

(** The verdict of one attempt: the terminal response, or the delay before
    the next one. *)
Definition _settle_attempt (l : RetryLoop) (attempt : Z) (response : option RuntimeResponse)
    (failure : option exn) : M S (RuntimeResponse + Q) :=
  decision ← lift_res (for_response attempt (rl_max_attempts l) (status_code <$> response)
                         (FFin <$> (response ≫= retry_after)) (rl_idempotency l) (rl_budget l));
  if negb (retry decision) then
    match response, failure with
    | Some r, _ => mret (inl r)
    | None, None =>
        throw (err TransportError "Runtime transport produced neither a response nor a failure.")
    | None, Some e => throw e
    end
  else
    let d := default 0%Q (delay decision) in
    check_wait d (Some [("attempt", PyInt attempt); ("max_attempts", PyInt (rl_max_attempts l));
                        ("reason", PyStr (reason decision))]) (rl_deadline l);;
    mret (inr d).

(** [try: response = send() except TransportError as exc: failure = exc] *)
Definition send_attempt : M S (option RuntimeResponse * option exn) :=
  try_except (r ← send; mret (Some r, None))
    (λ e, if is_subclass (exn_kind e) TransportError then Some (mret (None, Some e)) else None).

(** The body of the loop from [attempt] on, [todo] attempts of the range left. *)
Fixpoint run_from (l : RetryLoop) (todo : nat) (attempt : Z) : M S RuntimeResponse :=
  match todo with
  | O => throw no_terminal_outcome
  | Datatypes.S todo' =>
      assert_dispatchable None None (rl_deadline l);;
      '(response, failure) ← send_attempt;
      outcome ← _settle_attempt l attempt response failure;
      match outcome with
      | inl r => mret r
      | inr d => sleep d;; run_from l todo' (attempt + 1)
      end
  end.

(** [run]; [run_async] is the same loop with awaited callables. *)
Definition run (l : RetryLoop) : M S RuntimeResponse := run_from l (Z.to_nat (rl_max_attempts l)) 1.
End retry.

(** What the clock, the sender and the sleep keep, the loop keeps. *)
Section keeps.
Context {S : Type} `{!Clocked S}.
Variables (P : S → Prop).
Hypothesis clock_keeps : ∀ s, P s → P (clock s).2.

Lemma clock_now_keeps : preserves P clock_now.
Proof. intros s Hs. unfold clock_now. specialize (clock_keeps s Hs). by destruct (clock s). Qed.
#[local] Hint Resolve clock_now_keeps : datasluice.

Lemma raise_exhausted_keeps A m rs : preserves P (@_raise_exhausted S _ A m rs).
Proof. unfold _raise_exhausted. auto with datasluice. Qed.
#[local] Hint Resolve raise_exhausted_keeps : datasluice.

Lemma assert_dispatchable_keeps op pl m : preserves P (assert_dispatchable op pl m).
Proof.
  unfold assert_dispatchable, remaining. apply preserves_bind; [auto with datasluice|].
  intros q. case_match; auto with datasluice.
Qed.

Lemma check_wait_keeps d rs m : preserves P (check_wait d rs m).
Proof.
  unfold check_wait, remaining. case_match; [auto with datasluice|].
  apply preserves_bind; [auto with datasluice|]. intros q. case_match; auto with datasluice.
Qed.

Lemma run_from_keeps sleep send l todo : (∀ d, preserves P (sleep d)) → preserves P send →
  ∀ k, preserves P (run_from sleep send l todo k).
Proof.
  intros Hsleep Hsend. induction todo as [|todo IH]; intros k; cbn [run_from]; [auto with datasluice|].
  apply preserves_bind; [apply assert_dispatchable_keeps|]. intros _.
  apply preserves_bind.
  - apply preserves_try; [auto with datasluice|]. intros e m Hm. case_match; [|done]. injection Hm as <-.
    auto with datasluice.
  - intros [response failure]. apply preserves_bind.
    + unfold _settle_attempt. apply preserves_bind; [auto with datasluice|]. intros d. case_match.
      * repeat case_match; auto with datasluice.
      * apply preserves_bind; [apply check_wait_keeps|auto with datasluice].
    + intros [r|d]; auto with datasluice.
Qed.

Lemma run_keeps sleep send l : (∀ d, preserves P (sleep d)) → preserves P send → preserves P (run sleep send l).
Proof. intros. by apply run_from_keeps. Qed.
End keeps.

(** ** Runs with a log

    The same loop over a state that records what it did: every clock reading,
    every request sent with its outcome, every sleep. *)
Inductive event :=
| EvClock (t : Q)
| EvSend (r : result RuntimeResponse)
| EvSleep (d : Q).

Record logged (S : Type) := Logged { base : S; log : list event }.
Arguments Logged {S} base log.
Arguments base {S} l.
Arguments log {S} l.

Definition add_event {S} (e : event) (s : logged S) : logged S := Logged (base s) (log s ++ [e]).

#[global] Instance logged_clocked {S} `{!Clocked S} : Clocked (logged S) := λ s,
  let '(t, b) := clock (base s) in (t, Logged b (log s ++ [EvClock t])).

Definition log_send {S} (send : M S RuntimeResponse) : M (logged S) RuntimeResponse := λ s,
  let '(r, b) := send (base s) in (r, Logged b (log s ++ [EvSend r])).
Definition log_sleep {S} (sleep : Q → M S unit) (d : Q) : M (logged S) unit := λ s,
  let '(r, b) := sleep d (base s) in (r, Logged b (log s ++ [EvSleep d])).

(** What a loop may do, as a grammar of logs: [loop_log l k todo es r] says that
    from attempt [k], with [todo] attempts left, the events [es] may happen
    and [r] be the outcome.  [told l k r d]: the policy answers outcome [r] of
    attempt [k] with decision [d]. *)
Definition is_transport_error (e : exn) : bool := is_subclass (exn_kind e) TransportError.

Definition told (l : RetryLoop) (k : Z) (r : result RuntimeResponse) (d : RetryDecision) : Prop :=
  (∀ resp, r = Ok resp → response_wf resp) ∧
  let response := match r with Ok resp => Some resp | Raise _ => None end in
  for_response k (rl_max_attempts l) (status_code <$> response) (FFin <$> (response ≫= retry_after))
    (rl_idempotency l) (rl_budget l) = Ok d.

Definition left_at (l : RetryLoop) (t : Q) : Q := remaining_at (rl_deadline l) t.

Definition is_budget_error {A} (r : result A) : Prop :=
  match r with Raise e => exn_kind e = BudgetExhaustedError | Ok _ => False end.

Inductive loop_log (l : RetryLoop) : Z → nat → list event → result RuntimeResponse → Prop :=
| LogExpired k todo t t' r :
    (left_at l t <= 0)%Q → is_budget_error r →
    loop_log l k (S todo) [EvClock t; EvClock t'] r
| LogCrash k todo t e :
    (0 < left_at l t)%Q → is_transport_error e = false →
    loop_log l k (S todo) [EvClock t; EvSend (Raise e)] (Raise e)
| LogTerminal k todo t r d :
    (0 < left_at l t)%Q → told l k r d → retry d = false →
    loop_log l k (S todo) [EvClock t; EvSend r] r
| LogNoTime k todo t r d q t1 t2 r' :
    (0 < left_at l t)%Q → told l k r d → delay d = Some q → (left_at l t1 < q)%Q → is_budget_error r' →
    loop_log l k (S todo) [EvClock t; EvSend r; EvClock t1; EvClock t2] r'
| LogSleepCrash k todo t r d q t1 e :
    (0 < left_at l t)%Q → told l k r d → delay d = Some q → (0 <= q <= left_at l t1)%Q →
    loop_log l k (S todo) [EvClock t; EvSend r; EvClock t1; EvSleep q] (Raise e)
| LogRetry k todo t r d q t1 es r' :
    (0 < left_at l t)%Q → told l k r d → delay d = Some q → (0 <= q <= left_at l t1)%Q →
    loop_log l (k + 1) todo es r' →
    loop_log l k (S todo) ([EvClock t; EvSend r; EvClock t1; EvSleep q] ++ es) r'.

(** A loop whose budget and deadline are sound: what [TimeBudget] and the
    constructors establish. *)
Definition loop_wf (l : RetryLoop) : Prop :=
  budget_wf (rl_budget l) ∧ budget_wf (dm_budget (rl_deadline l)) ∧ 1 <= rl_max_attempts l.

Lemma or_default_nonempty v f : str_nonempty f = true → str_nonempty (or_default v f) = true.
Proof. intros Hf. unfold or_default. destruct v as [s|]; [|done]. by destruct (str_nonempty s) eqn:E. Qed.

Lemma raise_exhausted_budget {S A} `{!Clocked S} m rs s :
  budget_wf (dm_budget m) →
  ∃ e, @_raise_exhausted S _ A m rs s = (Raise e, (clock s).2) ∧ exn_kind e = BudgetExhaustedError.
Proof.
  intros Hb. unfold _raise_exhausted, mbind, M_bind, clock_now. destruct (clock s) as [t s'].
  set (op := or_default _ _). set (pl := or_default _ _).
  assert (Hop : str_nonempty op = true) by by apply or_default_nonempty.
  assert (Hpl : str_nonempty pl = true) by by apply or_default_nonempty.
  edestruct (budget_exhausted_total ("Catalog operation " +:+ op +:+ " on " +:+ pl +:+ " exhausted its total time budget.")
    op pl (Some "unavailable")
      "Increase the operation budget or retry after the deployment is available."
      (qmax 0%Q (t - dm_started_at m)%Q) (total (dm_budget m)) (Some rs) None) as (e & i & He & Hk & _).
  1,4: done.
  1,2: by apply str_nonempty_true.
  - apply qmax_l.
  - apply Hb.
  - exists e. rewrite He. done.
Qed.

Lemma clock_logged {S} `{!Clocked S} (s : logged S) t b :
  clock (base s) = (t, b) → clock s = (t, Logged b (log s ++ [EvClock t])).
Proof. intros E. unfold clock at 1, logged_clocked. by rewrite E. Qed.

(** What the two deadline checks do, read off the log. *)
Lemma assert_dispatchable_logged {S} `{!Clocked S} op pl m (s : logged S) :
  budget_wf (dm_budget m) →
  ∃ t b, clock (base s) = (t, b) ∧
    ((0 < remaining_at m t)%Q ∧
       assert_dispatchable op pl m s = (Ok (set_identity op pl m), Logged b (log s ++ [EvClock t])) ∨
     (remaining_at m t <= 0)%Q ∧ ∃ e t' b', exn_kind e = BudgetExhaustedError ∧ clock b = (t', b') ∧
       assert_dispatchable op pl m s = (Raise e, Logged b' (log s ++ [EvClock t; EvClock t']))).
Proof.
  intros Hb. destruct (clock (base s)) as [t b] eqn:E. exists t, b. split; [done|].
  unfold assert_dispatchable, remaining, clock_now, mbind, M_bind.
  rewrite (clock_logged _ _ _ E). cbn.
  change (remaining_at (set_identity op pl m) t) with (remaining_at m t).
  destruct (remaining_at m t <=?q 0%Q) eqn:El; qbool; [right|by left].
  split; [done|].
  match goal with |- context [@_raise_exhausted _ _ ?A ?m ?st ?s'] =>
    edestruct (@raise_exhausted_budget _ A _ m st s') as (e & He & Hk); [done|] end.
  rewrite He. cbn. destruct (clock b) as [t' b'] eqn:E'. exists e, t', b'.
  rewrite (clock_logged (Logged b _) t' b') by done. cbn. by rewrite <- app_assoc.
Qed.

Lemma check_wait_logged {S} `{!Clocked S} m q rs (s : logged S) :
  budget_wf (dm_budget m) → (0 <= q)%Q →
  ∃ t b, clock (base s) = (t, b) ∧
    ((q <= remaining_at m t)%Q ∧
       check_wait q rs m s = (Ok tt, Logged b (log s ++ [EvClock t])) ∨
     (remaining_at m t < q)%Q ∧ ∃ e t' b', exn_kind e = BudgetExhaustedError ∧
       check_wait q rs m s = (Raise e, Logged b' (log s ++ [EvClock t; EvClock t']))).
Proof.
  intros Hb Hq. destruct (clock (base s)) as [t b] eqn:E. exists t, b. split; [done|].
  unfold check_wait. rewrite (proj2 (Qltb_false q 0)) by done.
  unfold remaining, clock_now, mbind, M_bind.
  rewrite (clock_logged _ _ _ E). cbn. destruct (remaining_at m t <?q q) eqn:El; qbool; [right|by left].
  split; [done|].
  match goal with |- context [@_raise_exhausted _ _ ?A m ?st ?s'] =>
    edestruct (@raise_exhausted_budget _ A _ m st s') as (e & He & Hk); [done|] end.
  rewrite He. cbn. destruct (clock b) as [t' b'] eqn:E'. exists e, t', b'.
  rewrite (clock_logged (Logged b _) t' b') by done. cbn. by rewrite <- app_assoc.
Qed.

(** The policy answers every response the transport can build. *)
Lemma told_total l k r :
  loop_wf l → 1 <= k <= rl_max_attempts l →
  (∀ resp, r = Ok resp → response_wf resp) →
  ∃ d, told l k r d ∧ decision_wf d ∧
    (retry d = true → k < rl_max_attempts l ∧ allows_retry (rl_idempotency l) = true ∧
                      ∃ q, delay d = Some q ∧ (0 <= q)%Q).
Proof.
  intros (Hb & _ & _) Hk Hr. unfold told.
  edestruct (for_response_guarded k (rl_max_attempts l)) as (d & Hd & Hwf & Hretry & Hdelay);
    [done| | | |exists d; split; [split; [done|exact Hd]|]].
  - destruct r as [resp|e]; [|done]. intros c [= <-]. by apply (Hr resp).
  - destruct r as [resp|e]; cbn; [|done]. intros f Hf. destruct (retry_after resp) as [q|] eqn:Eq; [|done].
    injection Hf as <-. exists q. split; [done|]. by apply (Hr resp).
  - apply Hb.
  - split; [exact Hwf|]. intros H. destruct (Hdelay H) as (q & ? & ? & _).
    apply Hretry in H as (? & ? & _). split_and!; [done..|]. exists q. split; [done|]. tauto.
Qed.

Section refinement.
Context {S : Type} `{!Clocked S}.
Variables (sleep : Q → M S unit) (send : M S RuntimeResponse).
(** [RuntimeResponse] validates itself. *)
Hypothesis send_wf : ∀ s resp s', send s = (Ok resp, s') → response_wf resp.

Lemma send_attempt_logged s :
  ∃ r b, (∀ resp, r = Ok resp → response_wf resp) ∧
    (send_attempt (log_send send) s) =
      (match r with
       | Ok resp => Ok (Some resp, None)
       | Raise e => if is_transport_error e then Ok (None, Some e) else Raise e
       end, Logged b (log s ++ [EvSend r])).
Proof.
  unfold send_attempt, try_except, mbind, M_bind, log_send.
  destruct (send (base s)) as [r b] eqn:E. exists r, b. split.
  - intros resp ->. by eapply send_wf.
  - destruct r as [resp|e]; [reflexivity|]. unfold is_transport_error. cbn -[is_subclass].
    by destruct (is_subclass _ _); reflexivity.
Qed.

Lemma settle_logged l k r s :
  loop_wf l → 1 <= k <= rl_max_attempts l → (∀ resp, r = Ok resp → response_wf resp) →
  let response := match r with Ok resp => Some resp | Raise _ => None end in
  let failure := match r with Ok _ => None | Raise e => Some e end in
  let '(v, s') := _settle_attempt l k response failure s in
  ∃ d, told l k r d ∧
    (retry d = false ∧ s' = s ∧ v = match r with Ok resp => Ok (inl resp) | Raise e => Raise e end ∨
     ∃ q t, delay d = Some q ∧ k < rl_max_attempts l ∧
       ((0 <= q <= left_at l t)%Q ∧ v = Ok (inr q) ∧ log s' = log s ++ [EvClock t] ∨
        (left_at l t < q)%Q ∧ is_budget_error v ∧ ∃ t2, log s' = log s ++ [EvClock t; EvClock t2])).
Proof.
  intros Hl Hk Hr response failure. destruct (told_total l k r Hl Hk Hr) as (d & Hd & _ & Hretry).
  destruct (_settle_attempt l k response failure s) as [v s'] eqn:E. exists d. split; [done|].
  revert E. unfold _settle_attempt, lift_res. unfold mbind at 1, M_bind at 1.
  destruct Hd as [_ Hd]. fold response in Hd. rewrite Hd. destruct (retry d) eqn:Erd; cbn [negb]; intros E.
  2:{ left. subst response failure. destruct r; cbn in E; injection E as <- <-; split_and!; first [done|reflexivity]. }
  right. destruct (Hretry eq_refl) as (Hlt & _ & q & Eq & Hq).
  rewrite Eq in E |- *. cbn [default from_option] in E. unfold id in E. revert E.
  match goal with |- context [check_wait q ?rs _] =>
    destruct (check_wait_logged (rl_deadline l) q rs s) as (t & b & _ & [[? Hc]|[? (e & t' & b' & Hk' & Hc)]]);
    [apply Hl|done|..] end;
    unfold mbind, M_bind; rewrite Hc; intros [= <- <-]; exists q, t; (split; [done|]); (split; [done|]).
  - left. split; [split; done|]. split; reflexivity.
  - right. split; [done|]. split; [done|]. exists t'. reflexivity.
Qed.

Lemma run_from_log l todo : ∀ k s r s',
  loop_wf l → 1 <= k → k + Z.of_nat todo = rl_max_attempts l + 1 → (0 < todo)%nat →
  run_from (log_sleep sleep) (log_send send) l todo k s = (r, s') →
  ∃ es, log s' = log s ++ es ∧ loop_log l k todo es r.
Proof.
  induction todo as [|todo IH]; intros k s r s' Hl Hk Hmax Htodo; [lia|].
  cbn [run_from]. unfold mbind at 1, M_bind at 1.
  destruct (assert_dispatchable_logged None None (rl_deadline l) s) as (t & b & _ & [[Ht ->]|[Ht (e & t' & b' & He & _ & ->)]]);
    [apply Hl| |intros [= <- <-]; exists [EvClock t; EvClock t']; split; [done|by constructor]].
  destruct (send_attempt_logged (Logged b (log s ++ [EvClock t]))) as (o & b1 & Ho & Hs).
  unfold mbind at 1, M_bind at 1. rewrite Hs. cbn [log].
  set (s1 := Logged b1 _).
  assert (Hs1 : log s1 = log s ++ [EvClock t; EvSend o]) by by (cbn; rewrite <- app_assoc).
  destruct (match o with Ok _ => false | Raise e => negb (is_transport_error e) end) eqn:Ecrash.
  { destruct o as [|e]; [done|]. apply negb_true_iff in Ecrash. rewrite Ecrash. intros [= <- <-].
    eexists. split; [exact Hs1|]. by constructor. }
  pose proof (settle_logged l k o s1 Hl ltac:(lia) Ho) as Hset. cbn zeta in Hset.
  intros E.
  assert (E' : (outcome ← _settle_attempt l k
                  (match o with Ok resp => Some resp | Raise _ => None end)
                  (match o with Ok _ => None | Raise e => Some e end);
                match outcome with
                | inl r => mret r
                | inr d => log_sleep sleep d;; run_from (log_sleep sleep) (log_send send) l todo (k + 1)
                end) s1 = (r, s')).
  { destruct o as [resp|e]; [exact E|]. apply negb_false_iff in Ecrash. by rewrite Ecrash in E. }
  clear E. unfold mbind at 1, M_bind at 1 in E'.
  destruct (_settle_attempt l k _ _ s1) as [v s2] in Hset, E'.
  destruct Hset as (d & Hd & [(Hrd & -> & ->)|(q & t1 & Hq & Hlt & [(Hle & -> & Hlog)|(Hgt & Hbud & t2 & Hlog)])]).
  - assert (r = o ∧ s' = s1) as [-> ->] by (destruct o; by inversion E').
    eexists. split; [exact Hs1|]. by eapply LogTerminal.
  - unfold mbind, M_bind, log_sleep in E'. destruct (sleep q (base s2)) as [[[]|e] b2].
    + apply IH in E' as (es & Hes & Hloop); [|done|lia..].
      exists ([EvClock t; EvSend o; EvClock t1; EvSleep q] ++ es). split; [|by eapply LogRetry].
      rewrite Hes. cbn [log]. rewrite Hlog, Hs1. by rewrite <- !app_assoc.
    + injection E' as <- <-. eexists. split; [|by eapply LogSleepCrash].
      cbn [log]. rewrite Hlog, Hs1. by rewrite <- !app_assoc.
  - destruct v as [|e]; [done|]. injection E' as <- <-.
    eexists. split; [|by eapply LogNoTime]. rewrite Hlog, Hs1. by rewrite <- !app_assoc.
Qed.
End refinement.

(** ** What every log shows *)

Definition sends (es : list event) : list (result RuntimeResponse) :=
  omap (λ e, match e with EvSend r => Some r | _ => None end) es.

(** Each request is sent, and each sleep taken, directly after a clock reading
    that leaves time for it; [now] is the last reading. *)
Fixpoint paced (l : RetryLoop) (now : option Q) (es : list event) : Prop :=
  match es with
  | [] => True
  | EvClock t :: es' => paced l (Some t) es'
  | EvSend _ :: es' => (∃ t, now = Some t ∧ (0 < left_at l t)%Q) ∧ paced l None es'
  | EvSleep d :: es' => (∃ t, now = Some t ∧ (0 <= d <= left_at l t)%Q) ∧ paced l None es'
  end.

Lemma told_retry l k r d q :
  loop_wf l → 1 <= k <= rl_max_attempts l → told l k r d → delay d = Some q →
  allows_retry (rl_idempotency l) = true ∧ k < rl_max_attempts l.
Proof.
  intros Hl Hk [Hr Hd] Hq. destruct (told_total l k r Hl Hk Hr) as (d' & [_ Hd'] & (_ & Hwf & _) & Hy).
  cbn zeta in *. rewrite Hd in Hd'. injection Hd' as <-.
  destruct (retry d) eqn:E; [|by rewrite Hwf in Hq]. by destruct (Hy eq_refl) as (? & ? & _).
Qed.

Lemma loop_log_sends l k todo es r :
  loop_log l k todo es r → (length (sends es) ≤ todo)%nat.
Proof. unfold sends. induction 1; cbn in *; lia. Qed.

Lemma loop_log_paced l k todo es r now :
  loop_log l k todo es r → paced l now es.
Proof. intros H. revert now. induction H; intros now; cbn; split_and?; eauto. Qed.

Lemma loop_log_once l k todo es r :
  loop_wf l → 1 <= k → k + Z.of_nat todo = rl_max_attempts l + 1 →
  loop_log l k todo es r → allows_retry (rl_idempotency l) = false → (length (sends es) ≤ 1)%nat.
Proof.
  intros Hl Hk Hm H Hno. revert Hk Hm. destruct H as [| | | | |k todo t r d q]; intros Hk Hm; try (unfold sends; cbn; lia).
  destruct (told_retry l k r d q) as [? _]; [done|lia|done..|congruence].
Qed.

Definition last_send (es : list event) : option (result RuntimeResponse) := last (sends es).

(** The outcome is the last answer, unless the budget or a callable ended it. *)
Lemma loop_log_outcome l k todo es r :
  loop_log l k todo es r →
  match r with
  | Ok resp => last_send es = Some (Ok resp)
  | Raise e => last_send es = Some (Raise e) ∨ exn_kind e = BudgetExhaustedError ∨
               ∃ es' d, es = es' ++ [EvSleep d]
  end.
Proof.
  unfold last_send. intros H. induction H as [? ? ? ? r ? Hb|? ? ? e|? ? ? r d|? ? ? r d q t1 t2 r' ? ? ? ? Hb
    |? ? ? r d q t1 e|? ? ? r d q t1 es r' ? ? ? ? H IH].
  - destruct r; [done|]. by right; left.
  - by left.
  - destruct r; [done|]. by left.
  - destruct r'; [done|]. by right; left.
  - right; right. by eexists [_; _; _], _.
  - destruct r' as [resp|e].
    + change (sends _) with (r :: sends es). destruct (sends es) eqn:E; [done|].
      by rewrite last_cons_cons.
    + destruct IH as [IH|[IH|(es' & d' & ->)]]; [left|by right; left|right; right].
      * change (sends _) with (r :: sends es). destruct (sends es) eqn:E; [done|].
        by rewrite last_cons_cons.
      * by eexists (_ :: _ :: _ :: _ :: es'), d'.
Qed.

Section retry_properties.
Context {S : Type} `{!Clocked S}.
Variables (sleep : Q → M S unit) (send : M S RuntimeResponse).

Lemma run_log l s r s' :
  (∀ s resp s', send s = (Ok resp, s') → response_wf resp) →
  loop_wf l → run (log_sleep sleep) (log_send send) l s = (r, s') →
  ∃ es, log s' = log s ++ es ∧ loop_log l 1 (Z.to_nat (rl_max_attempts l)) es r.
Proof.
  intros Hs Hl E. destruct Hl as (? & ? & Hm). eapply run_from_log; try done; lia.
Qed.

(** C19: whatever the sender, the sleep and the clock do, a retry loop is one
    of the runs the grammar [loop_log] allows: it checks the deadline before
    every send, follows the decision of the policy after it, and checks the
    remaining time before every sleep. *)
Theorem retry_loop_refines l s r s' :
  (∀ s resp s', send s = (Ok resp, s') → response_wf resp) → loop_wf l →
  run (log_sleep sleep) (log_send send) l s = (r, s') →
  ∃ es, log s' = log s ++ es ∧ loop_log l 1 (Z.to_nat (rl_max_attempts l)) es r.
Proof. apply run_log. Qed.

(** A retry loop sends at most [max_attempts] requests, and at most one
    when the idempotency policy does not allow a retry; every send happens
    with time left and every sleep fits in the time left; the loop returns
    the last answer, or raises the last failure, an exhausted budget or what
    the sleep raised (its final [RuntimeError] is never reached unless the
    sender raised it). *)
Theorem retry_loop_bounded l s r s' :
  (∀ s resp s', send s = (Ok resp, s') → response_wf resp) → loop_wf l →
  run (log_sleep sleep) (log_send send) l s = (r, s') →
  ∃ es, log s' = log s ++ es ∧
    Z.of_nat (length (sends es)) <= rl_max_attempts l ∧
    (allows_retry (rl_idempotency l) = false → (length (sends es) ≤ 1)%nat) ∧
    paced l None es ∧
    match r with
    | Ok resp => last_send es = Some (Ok resp)
    | Raise e => last_send es = Some (Raise e) ∨ exn_kind e = BudgetExhaustedError ∨
                 ∃ es' d, es = es' ++ [EvSleep d]
    end.
Proof.
  intros Hs Hl E. destruct (run_log l s r s' Hs Hl E) as (es & Hes & Hlog).
  assert (Hm : 1 <= rl_max_attempts l) by apply Hl.
  exists es. split_and!; [done| | |by eapply loop_log_paced|by eapply loop_log_outcome].
  - apply loop_log_sends in Hlog. lia.
  - apply loop_log_once with (k := 1) (todo := Z.to_nat (rl_max_attempts l)) (r := r); [done|lia..|done].
Qed.
End retry_properties.

(** ** Witnesses *)

(** A clock that ticks once per reading, and a sender that fails twice with
    503 before it answers 200. *)
#[local] Instance tick_clock : Clocked (Q * nat) := λ s, (s.1, ((s.1 + 1)%Q, s.2)).
Definition sample_budget : TimeBudget := {| connect := 1; read_budget := 2; write_budget := 2; total := 30 |}%Q.
Definition sample_loop : RetryLoop := {|
  rl_budget := sample_budget;
  rl_idempotency := {| safe := true; idem_key := None; explicit_retry_opt_in := false |};
  rl_deadline := {| dm_budget := sample_budget; dm_started_at := 0%Q; dm_operation := None; dm_platform := None |};
  rl_max_attempts := 3 |}.
Definition answer (c : Z) : RuntimeResponse :=
  {| status_code := c; resp_headers := []; body := ""; retry_after := None |}.
Definition sample_send : M (Q * nat) RuntimeResponse := λ s,
  (Ok (answer (if (s.2 <? 2)%nat then 503 else 200)), (s.1, Datatypes.S s.2)).
Definition sample_sleep (d : Q) : M (Q * nat) unit := λ s, (Ok tt, ((s.1 + d)%Q, s.2)).
Definition sample_run := run (log_sleep sample_sleep) (log_send sample_send) sample_loop (Logged (0%Q, 0%nat) []).

Lemma sample_loop_wf : loop_wf sample_loop.
Proof. unfold loop_wf, budget_wf, sample_loop, sample_budget; cbn. split_and!; first [lia|lra]. Qed.

Lemma sample_send_wf s resp s' : sample_send s = (Ok resp, s') → response_wf resp.
Proof. intros [= <- _]. split; [by case_match|done]. Qed.

Lemma sample_run_ok : sample_run = (Ok (answer 200), sample_run.2).
Proof. vm_compute. reflexivity. Qed.

Lemma retry_loop_refines_witness :
  sample_run.1 = Ok (answer 200) ∧
  ∃ es, log sample_run.2 = es ∧ loop_log sample_loop 1 3 es (Ok (answer 200)).
Proof.
  split; [by rewrite sample_run_ok|].
  destruct (retry_loop_refines sample_sleep sample_send sample_loop (Logged (0%Q, 0%nat) []) (Ok (answer 200)) sample_run.2
    sample_send_wf sample_loop_wf sample_run_ok) as (es & Hes & Hlog).
  exists es. split; [exact Hes|exact Hlog].
Defined.

Lemma retry_loop_bounded_witness :
  length (sends (log sample_run.2)) = 3%nat ∧
  ∃ es, log sample_run.2 = es ∧ Z.of_nat (length (sends es)) <= 3 ∧ paced sample_loop None es.
Proof.
  split; [vm_compute; reflexivity|].
  destruct (retry_loop_bounded sample_sleep sample_send sample_loop (Logged (0%Q, 0%nat) []) (Ok (answer 200)) sample_run.2
    sample_send_wf sample_loop_wf sample_run_ok) as (es & Hes & Hn & _ & Hp & _).
  exists es. split; [exact Hes|]. split; [exact Hn|exact Hp].
Defined.
