(* ===== verification/Breaker.v ===== *)
(** * The circuit-breaker registry

    [BreakerRegistry] of [runtime/resilience.py]: circuit snapshots, the time a
    circuit opened and the half-open trials, per key.  Every method runs under
    the registry's lock, so a concurrent history is a sequence of the
    operations below. *)
From S2P Require Import Prelude PyVal Policies Resilience.
From Stdlib Require Import QArith Lqa ZArith.
From stdpp Require Import gmap.
Local Close Scope Q_scope.
Local Open Scope Z_scope.
Local Open Scope py_scope.

Record BreakerRegistry := {
  _initial_state : CircuitState;
  _states : gmap CircuitKey CircuitState;
  _opened_at : gmap CircuitKey Q;
  _trial_in_flight : gset CircuitKey
}.

Definition make_registry (threshold : Z) (cooldown : pyval) : result BreakerRegistry :=
  c ← make_circuit_state 0 threshold cooldown false;
  Ok {| _initial_state := c; _states := ∅; _opened_at := ∅; _trial_in_flight := ∅ |}.

Definition set_state (k : CircuitKey) (c : CircuitState) (r : BreakerRegistry) : BreakerRegistry :=
  {| _initial_state := _initial_state r; _states := <[k := c]> (_states r);
     _opened_at := _opened_at r; _trial_in_flight := _trial_in_flight r |}.
Definition set_opened (f : gmap CircuitKey Q → gmap CircuitKey Q) (r : BreakerRegistry) : BreakerRegistry :=
  {| _initial_state := _initial_state r; _states := _states r;
     _opened_at := f (_opened_at r); _trial_in_flight := _trial_in_flight r |}.
Definition set_trials (f : gset CircuitKey → gset CircuitKey) (r : BreakerRegistry) : BreakerRegistry :=
  {| _initial_state := _initial_state r; _states := _states r;
     _opened_at := _opened_at r; _trial_in_flight := f (_trial_in_flight r) |}.
Definition discard_trial (k : CircuitKey) : BreakerRegistry → BreakerRegistry :=
  set_trials (λ t, t ∖ {[k]}).

(** [self._states.get(key, self._initial_state)] *)
Definition circuit (r : BreakerRegistry) (k : CircuitKey) : CircuitState :=
  default (_initial_state r) (_states r !! k).

Section registry.
Context {W : Type} `{!Clocked W}.
Abbreviation R := (M (BreakerRegistry * W)).

#[global] Instance registry_clocked : Clocked (BreakerRegistry * W) := λ s,
  let '(t, w) := clock s.2 in (t, (s.1, w)).

Definition update (f : BreakerRegistry → BreakerRegistry) : R unit := modify (λ s, (f s.1, s.2)).

(** [self._states.setdefault(key, self._initial_state)] *)
Definition _state_for (k : CircuitKey) : R CircuitState :=
  c ← read (λ s, circuit s.1 k);
  update (set_state k c);;
  mret c.

Definition breaker_admit (k : CircuitKey) : R bool :=
  state ← _state_for k;
  if negb (is_open state) then mret true
  else
    fallback ← clock_now;
    opened_at ← read (λ s, default fallback (_opened_at s.1 !! k));
    now ← clock_now;
    in_flight ← read (λ s, bool_decide (k ∈ _trial_in_flight s.1));
    if (now - opened_at <?q cooldown state)%Q || in_flight then mret false
    else update (set_trials (λ t, {[k]} ∪ t));; mret true.

Definition record_success (k : CircuitKey) : R CircuitState :=
  state ← _state_for k;
  c ← lift_res (circuit_reset state);
  update (set_state k c);;
  update (set_opened (delete k));;
  update (discard_trial k);;
  read (λ s, circuit s.1 k).

Definition record_transport_failure (k : CircuitKey) : R CircuitState :=
  state ← _state_for k;
  c ← lift_res (record_failure state);
  update (set_state k c);;
  update (discard_trial k);;
  (if is_open c then t ← clock_now; update (set_opened (<[k := t]>)) else mret tt);;
  mret c.

Definition record_response (k : CircuitKey) (status_code : Z) : R CircuitState :=
  if negb (valid_status status_code) then
    throw (err ValueError "Circuit response statuses must be valid HTTP status codes.")
  else if 500 <=? status_code then record_transport_failure k
  else if (200 <=? status_code) && (status_code <? 400) then record_success k
  else update (discard_trial k);; _state_for k.

Definition inspect (k : CircuitKey) : R CircuitState := _state_for k.

Definition release_trial (k : CircuitKey) : R unit :=
  _state_for k;;
  update (discard_trial k).

Definition reset (k : CircuitKey) : R CircuitState := record_success k.
End registry.

(** ** The operations as a type *)

Inductive operation :=
| Admit (k : CircuitKey)
| Success (k : CircuitKey)
| Failure (k : CircuitKey)
| Response (k : CircuitKey) (status : Z)
| Inspect (k : CircuitKey)
| Release (k : CircuitKey)
| ManualReset (k : CircuitKey).

Definition op_key (o : operation) : CircuitKey :=
  match o with
  | Admit k | Success k | Failure k | Response k _ | Inspect k | Release k | ManualReset k => k
  end.

(** The answer of an admission; [None] for the other operations. *)
Definition exec {W} `{!Clocked W} (o : operation) : M (BreakerRegistry * W) (option bool) :=
  match o with
  | Admit k => b ← breaker_admit k; mret (Some b)
  | Success k => record_success k;; mret None
  | Failure k => record_transport_failure k;; mret None
  | Response k c => record_response k c;; mret None
  | Inspect k => inspect k;; mret None
  | Release k => release_trial k;; mret None
  | ManualReset k => reset k;; mret None
  end.

(** ** The abstract machine of one circuit *)

Inductive phase :=
| Closed (failures : Z)
| Opened (since : Q)
| HalfOpen (since : Q).

Section spec.
Variables (threshold : Z) (cooldown : Q).

(** The phase after a transport failure observed at [now]. *)
Definition trip (now : Q) (p : phase) : phase :=
  match p with
  | Closed n => if threshold <=? n + 1 then Opened now else Closed (n + 1)
  | Opened _ | HalfOpen _ => Opened now
  end.

(** Giving up a trial without a verdict. *)
Definition abandon (p : phase) : phase :=
  match p with HalfOpen t => Opened t | _ => p end.

Definition spec (o : operation) (now : Q) (p : phase) : option bool * phase :=
  match o with
  | Admit _ =>
      match p with
      | Closed _ => (Some true, p)
      | Opened t => if (now - t <?q cooldown)%Q then (Some false, p) else (Some true, HalfOpen t)
      | HalfOpen _ => (Some false, p)
      end
  | Success _ | ManualReset _ => (None, Closed 0)
  | Failure _ => (None, trip now p)
  | Response _ c =>
      (None, if 500 <=? c then trip now p
             else if (200 <=? c) && (c <? 400) then Closed 0 else abandon p)
  | Inspect _ => (None, p)
  | Release _ => (None, abandon p)
  end.
End spec.

(** The phase the registry gives a circuit. *)
Definition phase_of (r : BreakerRegistry) (k : CircuitKey) : phase :=
  let c := circuit r k in
  let since := default 0%Q (_opened_at r !! k) in
  if is_open c then
    if bool_decide (k ∈ _trial_in_flight r) then HalfOpen since else Opened since
  else Closed (failure_count c).

(** The clock reading that decides an operation: an admission reads the clock
    for a fallback first. *)
Definition decisive {W} `{!Clocked W} (o : operation) (w : W) : Q :=
  match o with Admit _ => (clock (clock w).2).1 | _ => (clock w).1 end.

Definition op_valid (o : operation) : bool :=
  match o with Response _ c => valid_status c | _ => true end.

(** ** The invariant of the registry *)

Definition circuit_ok (init c : CircuitState) : Prop :=
  circuit_wf c ∧ failure_threshold c = failure_threshold init ∧ cooldown c = cooldown init ∧
  is_open c = (failure_threshold c <=? failure_count c).

Record registry_inv (r : BreakerRegistry) : Prop := {
  inv_circuit k : circuit_ok (_initial_state r) (circuit r k);
  inv_opened k : is_Some (_opened_at r !! k) ↔ is_open (circuit r k) = true;
  inv_trial k : k ∈ _trial_in_flight r → is_open (circuit r k) = true;
  inv_fresh : failure_count (_initial_state r) = 0
}.

(** ** Lemmas *)

Lemma circuit_set r k c k' :
  circuit (set_state k c r) k' = if decide (k = k') then c else circuit r k'.
Proof.
  unfold circuit. cbn. destruct (decide (k = k')) as [<-|].
  - by rewrite lookup_insert_eq.
  - by rewrite lookup_insert_ne.
Qed.

(** [setdefault] stores what reading the key already gives. *)
Lemma circuit_touch r k k' : circuit (set_state k (circuit r k) r) k' = circuit r k'.
Proof. rewrite circuit_set. by case_decide; subst. Qed.

Lemma registry_inv_touch r k : registry_inv r → registry_inv (set_state k (circuit r k) r).
Proof.
  intros [Hc Ho Ht Hf]. split; cbn; try done; intros k'; rewrite ?circuit_touch; auto.
Qed.

Lemma phase_touch r k k' : phase_of (set_state k (circuit r k) r) k' = phase_of r k'.
Proof. unfold phase_of. by rewrite circuit_touch. Qed.

(** Each operation refines the abstract machine on its own circuit, leaves the
    other circuits alone and keeps the invariant. *)
Record refines (o : operation) (now : Q) (r : BreakerRegistry) (v : option bool) (r' : BreakerRegistry) : Prop := {
  ref_inv : registry_inv r';
  ref_init : _initial_state r' = _initial_state r;
  ref_spec : (v, phase_of r' (op_key o)) =
    spec (failure_threshold (_initial_state r)) (cooldown (_initial_state r)) o now (phase_of r (op_key o));
  ref_other k : k ≠ op_key o → phase_of r' k = phase_of r k
}.

(** A registry whose entry for [k] is rewritten: circuit, opening time, no trial. *)
Definition rewritten (k : CircuitKey) (c : CircuitState) (since : option Q) (r r' : BreakerRegistry) : Prop :=
  (∀ k', circuit r' k' = if decide (k = k') then c else circuit r k') ∧
  (∀ k', _opened_at r' !! k' = if decide (k = k') then since else _opened_at r !! k') ∧
  (∀ k', k' ∈ _trial_in_flight r' ↔ k' ∈ _trial_in_flight r ∧ k ≠ k') ∧
  _initial_state r' = _initial_state r.

Lemma rewritten_inv k c since r r' :
  registry_inv r → rewritten k c since r r' → circuit_ok (_initial_state r) c →
  (is_Some since ↔ is_open c = true) → registry_inv r'.
Proof.
  intros [Hc Ho Ht Hf] (Ec & Eo & Et & Ei) Hok Hs. split; rewrite ?Ei; try done; intros k'; rewrite ?Ec, ?Eo.
  - case_decide; auto.
  - case_decide; auto.
  - intros [Hk' Hne]%Et. rewrite decide_False by done. auto.
Qed.

Lemma rewritten_phase k c since r r' :
  rewritten k c since r r' →
  phase_of r' k = (if is_open c then Opened (default 0%Q since) else Closed (failure_count c)) ∧
  ∀ k', k' ≠ k → phase_of r' k' = phase_of r k'.
Proof.
  intros (Ec & Eo & Et & Ei). unfold phase_of. split.
  - rewrite Ec, Eo, !decide_True by done.
    rewrite bool_decide_eq_false_2; [done|]. rewrite Et. naive_solver.
  - intros k' Hne. rewrite Ec, Eo, !decide_False by done.
    erewrite bool_decide_ext; [done|]. rewrite Et. naive_solver.
Qed.

Section executions.
Context {W : Type} `{!Clocked W}.
Implicit Types (r : BreakerRegistry) (w : W).

Lemma state_for_eq k r w : _state_for k (r, w) = (Ok (circuit r k), (set_state k (circuit r k) r, w)).
Proof. reflexivity. Qed.

Lemma release_eq k r w :
  ∃ r', release_trial k (r, w) = (Ok tt, (r', w)) ∧ rewritten k (circuit r k) (_opened_at r !! k) r r'.
Proof.
  eexists. split; [reflexivity|]. unfold rewritten. cbn. split_and!; try done; intros k'.
  - unfold circuit at 1. cbn. fold (circuit r k). change (default _ _) with (circuit (set_state k (circuit r k) r) k').
    apply circuit_set.
  - by case_decide; subst.
  - set_solver.
Qed.

Lemma neutral_eq k r w :
  ∃ r', (update (discard_trial k);; _state_for k) (r, w) = (Ok (circuit r k), (r', w)) ∧
    rewritten k (circuit r k) (_opened_at r !! k) r r'.
Proof.
  eexists. split; [reflexivity|]. unfold rewritten. cbn. split_and!; try done; intros k'.
  - apply (circuit_set r k).
  - by case_decide; subst.
  - set_solver.
Qed.

Lemma success_eq k r w :
  registry_inv r →
  ∃ r' c, record_success k (r, w) = (Ok c, (r', w)) ∧ rewritten k c None r r' ∧
    circuit_ok (_initial_state r) c ∧ is_open c = false ∧ failure_count c = 0.
Proof.
  intros [Hc Ho Ht Hf]. destruct (Hc k) as (Hwf & Hth & Hcd & _).
  unfold record_success, mbind, M_bind, lift_res. rewrite state_for_eq.
  rewrite circuit_reset_total by done. cbn -[circuit].
  eexists _, _. split; [reflexivity|]. split_and!; cbn; try done.
  - split_and!; cbn; try done; intros k'.
    + unfold circuit. cbn. rewrite insert_insert_eq. case_decide; subst;
        [by rewrite lookup_insert_eq|by rewrite lookup_insert_ne].
    + case_decide; subst; [by rewrite lookup_delete_eq|by rewrite lookup_delete_ne].
    + set_solver.
  - unfold circuit. cbn. rewrite lookup_insert_eq. cbn. unfold circuit_ok, circuit_wf in *. cbn.
    split_and!; try done; try tauto. destruct Hwf as (? & ? & ?). symmetry. apply Z.leb_gt. change (default _ _) with (circuit r k). lia.
  - unfold circuit. cbn. by rewrite lookup_insert_eq.
  - unfold circuit. cbn. by rewrite lookup_insert_eq.
Qed.

Lemma failure_eq k r w :
  registry_inv r →
  let c := {| failure_count := failure_count (circuit r k) + 1; failure_threshold := failure_threshold (circuit r k);
              cooldown := cooldown (circuit r k);
              is_open := failure_threshold (circuit r k) <=? failure_count (circuit r k) + 1 |} in
  ∃ r' w', record_transport_failure k (r, w) = (Ok c, (r', w')) ∧
    rewritten k c (if is_open c then Some (clock w).1 else None) r r' ∧ circuit_ok (_initial_state r) c.
Proof.
  intros Hinv c. pose proof Hinv as [Hc Ho Ht Hf]. destruct (Hc k) as (Hwf & Hth & Hcd & Hop).
  assert (Hok : circuit_ok (_initial_state r) c).
  { unfold circuit_ok, circuit_wf in *. cbn. destruct Hwf as (? & ? & ?). split_and!; done || lia. }
  unfold record_transport_failure, mbind, M_bind, lift_res. rewrite state_for_eq.
  rewrite record_failure_total by done. fold c. cbn -[circuit c].
  assert (Hcirc : ∀ r0 k', circuit (set_state k c (set_state k (circuit r k) r0)) k' =
                           if decide (k = k') then c else circuit r0 k').
  { intros r0 k'. rewrite circuit_set. case_decide; [done|]. rewrite circuit_set. by rewrite decide_False. }
  unfold clock_now, registry_clocked. destruct (is_open c) eqn:E; cbn.
  - unfold clock at 1. cbn. destruct (clock w) as [t w'] eqn:Ew. cbn.
    eexists _, _. split; [reflexivity|]. split; [|done]. split_and!; cbn; try done; intros k'.
    + apply (Hcirc r k').
    + case_decide; subst; [by rewrite lookup_insert_eq|by rewrite lookup_insert_ne].
    + set_solver.
  - eexists _, _. split; [reflexivity|]. split; [|done]. split_and!; cbn; try done; intros k'.
    + apply (Hcirc r k').
    + case_decide; subst; [|done]. apply eq_None_not_Some. intros Hs%Ho. cbn in E. rewrite Hop in Hs.
      apply Z.leb_le in Hs. apply Z.leb_gt in E. lia.
    + set_solver.
Qed.

Lemma admit_eq k r w :
  let c := circuit r k in
  let r1 := set_state k c r in
  breaker_admit k (r, w) =
    if is_open c then
      let '(t0, w1) := clock w in
      let '(t1, w2) := clock w1 in
      if (t1 - default t0 (_opened_at r !! k) <?q cooldown c)%Q || bool_decide (k ∈ _trial_in_flight r)
      then (Ok false, (r1, w2)) else (Ok true, (set_trials (λ t, {[k]} ∪ t) r1, w2))
    else (Ok true, (r1, w)).
Proof.
  cbn zeta. unfold breaker_admit, mbind, M_bind. rewrite state_for_eq.
  destruct (is_open (circuit r k)); cbn [negb]; [|reflexivity].
  unfold clock_now. change (@clock (BreakerRegistry * W) registry_clocked) with
    (λ s : BreakerRegistry * W, let '(t, w') := @clock W Clocked0 s.2 in (t, (s.1, w'))).
  cbn -[circuit]. destruct (clock w) as [t0 w1]. cbn -[circuit]. destruct (clock w1) as [t1 w2]. cbn -[circuit].
  by destruct (_ || _).
Qed.

(** Half-opening a circuit. *)
Lemma admit_trial_inv k r :
  registry_inv r → is_open (circuit r k) = true →
  let r' := set_trials (λ t, {[k]} ∪ t) (set_state k (circuit r k) r) in
  registry_inv r' ∧ phase_of r' k = HalfOpen (default 0%Q (_opened_at r !! k)) ∧
  ∀ k', k' ≠ k → phase_of r' k' = phase_of r k'.
Proof.
  intros [Hc Ho Ht Hf] Hopen r'.
  assert (Hcirc : ∀ k', circuit r' k' = circuit r k') by apply circuit_touch.
  split_and!.
  - split; cbn; try done; intros k'; rewrite ?Hcirc; auto. set_solver.
  - unfold phase_of. rewrite Hcirc, Hopen. rewrite bool_decide_eq_true_2; [done|]. cbn. set_solver.
  - intros k' Hne. unfold phase_of. rewrite Hcirc. erewrite bool_decide_ext; [done|]. cbn. set_solver.
Qed.

Lemma trip_phase k r now :
  registry_inv r →
  let n := failure_count (circuit r k) + 1 in
  (if failure_threshold (circuit r k) <=? n then Opened now else Closed n)
  = trip (failure_threshold (_initial_state r)) now (phase_of r k).
Proof.
  intros [Hc Ho Ht Hf]. destruct (Hc k) as (Hwf & Hth & Hcd & Hop). unfold phase_of. cbn. rewrite <- Hth.
  destruct (is_open (circuit r k)) eqn:E; [|done].
  symmetry in Hop. apply Z.leb_le in Hop. rewrite (proj2 (Z.leb_le _ _)) by lia. by case_bool_decide.
Qed.

Lemma abandon_phase k r :
  registry_inv r →
  (if is_open (circuit r k) then Opened (default 0%Q (_opened_at r !! k)) else Closed (failure_count (circuit r k)))
  = abandon (phase_of r k).
Proof. intros _. unfold phase_of. by repeat case_match. Qed.

Lemma failure_refines o k r w :
  registry_inv r → op_key o = k →
  (∀ th cd now p, spec th cd o now p = (None, trip th now p)) →
  ∃ r' w' c, record_transport_failure k (r, w) = (Ok c, (r', w')) ∧ refines o (clock w).1 r None r'.
Proof.
  intros Hinv Hk Hspec. destruct (failure_eq k r w Hinv) as (r' & w' & E & Hrw & Hok).
  eexists r', w', _. split; [exact E|]. apply rewritten_phase in Hrw as Hph. destruct Hph as [Hph Hother].
  split; rewrite ?Hk; try done.
  - eapply rewritten_inv; try done. cbn. destruct (_ <=? _) eqn:Eop; split; intros Hx; try done.
  - apply Hrw.
  - rewrite Hph, Hspec, <- trip_phase by done. cbn. by destruct (_ <=? _).
Qed.

Lemma success_refines o k r w now :
  registry_inv r → op_key o = k → (∀ th cd now p, spec th cd o now p = (None, Closed 0)) →
  ∃ r' c, record_success k (r, w) = (Ok c, (r', w)) ∧ refines o now r None r'.
Proof.
  intros Hinv Hk Hspec. destruct (success_eq k r w Hinv) as (r' & c & E & Hrw & Hok & Ho & Hf).
  exists r', c. split; [done|]. apply rewritten_phase in Hrw as Hph. destruct Hph as [Hph Hother].
  split; rewrite ?Hk; try done.
  - eapply rewritten_inv; try done. rewrite Ho. split; [by intros ?%is_Some_None|done].
  - apply Hrw.
  - by rewrite Hph, Hspec, Ho, Hf.
Qed.

Lemma abandon_refines o k r r' now :
  registry_inv r → op_key o = k → (∀ th cd now p, spec th cd o now p = (None, abandon p)) →
  rewritten k (circuit r k) (_opened_at r !! k) r r' → refines o now r None r'.
Proof.
  intros Hinv Hk Hspec Hrw. apply rewritten_phase in Hrw as Hph. destruct Hph as [Hph Hother].
  pose proof Hinv as [Hc Ho Ht Hf]. split; rewrite ?Hk; try done.
  - by eapply rewritten_inv.
  - apply Hrw.
  - by rewrite Hph, Hspec, abandon_phase.
Qed.

Lemma touch_refines o k r now v :
  registry_inv r → op_key o = k →
  spec (failure_threshold (_initial_state r)) (cooldown (_initial_state r)) o now (phase_of r k) = (v, phase_of r k) →
  refines o now r v (set_state k (circuit r k) r).
Proof.
  intros Hinv Hk Hspec. split; rewrite ?Hk; try done.
  - by apply registry_inv_touch.
  - by rewrite phase_touch, Hspec.
  - intros. apply phase_touch.
Qed.
End executions.

(** Every valid operation answers, does what the abstract machine does at the
    time it read, and touches one circuit. *)
Lemma exec_refines {W} `{!Clocked W} o r (w : W) :
  registry_inv r → op_valid o = true →
  ∃ v r' w', exec o (r, w) = (Ok v, (r', w')) ∧ refines o (decisive o w) r v r'.
Proof.
  intros Hinv Hvalid. unfold exec.
  destruct o as [k|k|k|k c|k|k|k]; cbn [op_valid] in Hvalid; unfold mbind, M_bind.
  - rewrite admit_eq. destruct (is_open (circuit r k)) eqn:Eo.
    2:{ eexists _, _, _. split; [reflexivity|]. apply touch_refines; [done..|].
        unfold phase_of. by rewrite Eo. }
    cbn [decisive]. destruct (clock w) as [t0 w1]. cbn [snd]. destruct (clock w1) as [t1 w2]. cbn [fst].
    pose proof Hinv as [Hc Ho Ht Hf]. destruct (Hc k) as (_ & _ & Hcd & _).
    destruct (proj2 (Ho k) Eo) as [t Et]. rewrite Et. cbn [default from_option]. unfold id.
    assert (Hph : phase_of r k = if bool_decide (k ∈ _trial_in_flight r) then HalfOpen t else Opened t).
    { unfold phase_of. by rewrite Eo, Et. }
    destruct (bool_decide (k ∈ _trial_in_flight r)) eqn:Etr.
    { rewrite orb_true_r. eexists _, _, _. split; [reflexivity|]. apply touch_refines; [done..|]. by rewrite Hph. }
    rewrite orb_false_r, Hcd. destruct (_ <?q _) eqn:El.
    { eexists _, _, _. split; [reflexivity|]. apply touch_refines; [done..|]. rewrite Hph. cbn. by rewrite El. }
    eexists _, _, _. split; [reflexivity|].
    destruct (admit_trial_inv k r Hinv Eo) as (? & Hp & Hother). split; try done.
    cbn [op_key]. rewrite Hp, Hph, Et. cbn. by rewrite El.
  - destruct (success_refines (Success k) k r w (clock w).1) as (r' & c & -> & ?); [done..|].
    by eexists _, _, _.
  - destruct (failure_refines (Failure k) k r w) as (r' & w' & c & -> & ?); [done..|].
    by eexists _, _, _.
  - unfold record_response. rewrite Hvalid. cbn [negb].
    destruct (500 <=? c) eqn:E5; [|destruct ((200 <=? c) && (c <? 400)) eqn:E2].
    + destruct (failure_refines (Response k c) k r w) as (r' & w' & c' & -> & ?); [done..| |by eexists _, _, _].
      intros. cbn. by rewrite E5.
    + destruct (success_refines (Response k c) k r w (clock w).1) as (r' & c' & -> & ?); [done..| |by eexists _, _, _].
      intros. cbn. by rewrite E5, E2.
    + destruct (neutral_eq k r w) as (r' & -> & Hrw). eexists _, _, _. split; [reflexivity|].
      eapply abandon_refines; try done. intros. cbn. by rewrite E5, E2.
  - eexists _, _, _. split; [reflexivity|]. by apply touch_refines.
  - destruct (release_eq k r w) as (r' & -> & Hrw). eexists _, _, _. split; [reflexivity|].
    by eapply abandon_refines.
  - destruct (success_refines (ManualReset k) k r w (clock w).1) as (r' & c & Heq & ?); [done..|].
    unfold reset. rewrite Heq. by eexists _, _, _.
Qed.

(** ** Histories *)

Fixpoint exec_all {W} `{!Clocked W} (ops : list operation) : M (BreakerRegistry * W) (list (option bool)) :=
  match ops with
  | [] => mret []
  | o :: ops' => v ← exec o; vs ← exec_all ops'; mret (v :: vs)
  end.

Lemma registry_fresh threshold cd r :
  make_registry threshold cd = Ok r → registry_inv r ∧ ∀ k, phase_of r k = Closed 0.
Proof.
  unfold make_registry. intros. inv_ok.
  match goal with H : make_circuit_state _ _ _ _ = _ |- _ => apply make_circuit_state_ok in H as (Hwf & Hc & Ht & Ho & _) end.
  split.
  - split; cbn; try done.
    + intros k. unfold circuit_ok, circuit; cbn. rewrite lookup_empty; cbn. rewrite Hc, Ho. destruct Hwf as (? & ? & ?).
      split_and!; try done. symmetry. apply Z.leb_gt. lia.
    + intros k. unfold circuit; cbn. rewrite !lookup_empty; cbn. rewrite Ho. by split; [intros ?%is_Some_None|].
  - intros k. unfold phase_of, circuit; cbn. rewrite lookup_empty; cbn. by rewrite Ho, Hc.
Qed.

(** The operations that cannot end a trial of [k]. *)
Definition keeps_trial (k : CircuitKey) (o : operation) : bool :=
  match o with
  | Admit _ | Inspect _ => true
  | _ => negb (bool_decide (op_key o = k))
  end.

Lemma exec_all_half_open {W} `{!Clocked W} k since ops : ∀ r (w : W),
  registry_inv r → phase_of r k = HalfOpen since → Forall (λ o, op_valid o && keeps_trial k o = true) ops →
  ∃ vs r' w', exec_all ops (r, w) = (Ok vs, (r', w')) ∧ phase_of r' k = HalfOpen since ∧
    Forall2 (λ o v, o = Admit k → v = Some false) ops vs.
Proof.
  induction ops as [|o ops IH]; intros r w Hinv Hph Hops.
  - eexists [], r, w. done.
  - inversion_clear Hops as [|? ? Ho Hops']. apply andb_true_iff in Ho as [Hv Hk].
    destruct (exec_refines o r w Hinv Hv) as (v & r1 & w1 & E & [Hinv1 _ Hs Hother]).
    assert (Hph1 : phase_of r1 k = HalfOpen since ∧ (o = Admit k → v = Some false)).
    { destruct (decide (op_key o = k)) as [<-|Hne].
      - rewrite Hph in Hs. destruct o; cbn in *; try (rewrite bool_decide_eq_true_2 in Hk by done; done); naive_solver.
      - rewrite Hother by done. split; [done|]. intros ->. done. }
    destruct Hph1 as [Hph1 Hv1].
    destruct (IH r1 w1 Hinv1 Hph1 Hops') as (vs & r' & w' & E' & ? & ?).
    exists (v :: vs), r', w'. split; [|by auto]. cbn. unfold mbind, M_bind. by rewrite E, E'.
Qed.

(** ** Properties *)

(** C20: every valid operation of the registry succeeds, keeps the invariant,
    answers and moves its own circuit as the closed / open / half-open machine
    does at the clock reading it took, and leaves every other circuit as it
    was; a registry starts with every circuit closed. *)
Theorem breaker_refines_machine {W} `{!Clocked W} threshold cd r0 o r (w : W) :
  make_registry threshold cd = Ok r0 → registry_inv r → op_valid o = true →
  (registry_inv r0 ∧ ∀ k, phase_of r0 k = Closed 0) ∧
  ∃ v r' w', exec o (r, w) = (Ok v, (r', w')) ∧ refines o (decisive o w) r v r'.
Proof. intros H0 Hr Ho. split; [by eapply registry_fresh|by apply exec_refines]. Qed.

(** Once an open circuit has admitted its half-open trial, no sequence of
    operations that holds no verdict or release for that circuit admits
    another dispatch through it, whatever happens to other circuits. *)
Theorem breaker_single_trial {W} `{!Clocked W} k since r (w : W) r1 w1 ops :
  registry_inv r → phase_of r k = Opened since →
  exec (Admit k) (r, w) = (Ok (Some true), (r1, w1)) →
  Forall (λ o, op_valid o && keeps_trial k o = true) ops →
  ∃ vs r' w', exec_all ops (r1, w1) = (Ok vs, (r', w')) ∧ phase_of r' k = HalfOpen since ∧
    Forall2 (λ o v, o = Admit k → v = Some false) ops vs.
Proof.
  intros Hinv Hph E Hops. destruct (exec_refines (Admit k) r w Hinv eq_refl) as (v & r' & w' & E' & [Hinv' _ Hs _]).
  rewrite E in E'. injection E' as <- <- <-. cbn [op_key] in Hs. rewrite Hph in Hs. cbn in Hs.
  apply exec_all_half_open; [done| |done]. destruct (_ <?q _); by inversion Hs.
Qed.

(** ** Witnesses *)

(** A clock that advances by ten seconds at each reading. *)
#[local] Instance ticking : Clocked Q := λ t, (t, (t + 10)%Q).

Definition key_a : CircuitKey := {| origin := "https://a.example"; credential_scope := "anonymous" |}.
Definition key_b : CircuitKey := {| origin := "https://b.example"; credential_scope := "anonymous" |}.

Definition sample_registry : BreakerRegistry :=
  match make_registry 2 (PyInt 15) with
  | Ok r => (exec_all [Failure key_a; Failure key_a] (r, 0%Q)).2.1
  | Raise _ => {| _initial_state := {| failure_count := 0; failure_threshold := 1; cooldown := 1%Q; is_open := false |};
                  _states := ∅; _opened_at := ∅; _trial_in_flight := ∅ |}
  end.

Lemma sample_registry_ok : registry_inv sample_registry ∧ phase_of sample_registry key_a = Opened 0%Q.
Proof.
  split; [|vm_compute; reflexivity].
  destruct (make_registry 2 (PyInt 15)) as [r|] eqn:E; [|vm_compute in E; discriminate E].
  destruct (registry_fresh _ _ _ E) as [H0 _]. unfold sample_registry. rewrite E.
  destruct (exec_refines (Failure key_a) r 0%Q H0 eq_refl) as (v1 & r1 & w1 & E1 & [H1 _ _ _]).
  destruct (exec_refines (Failure key_a) r1 w1 H1 eq_refl) as (v2 & r2 & w2 & E2 & [H2 _ _ _]).
  assert (E' : exec_all [Failure key_a; Failure key_a] (r, 0%Q) = (Ok [v1; v2], (r2, w2))).
  { cbn [exec_all]. unfold mbind, M_bind. by rewrite E1, E2. }
  by rewrite E'.
Qed.

Lemma breaker_refines_machine_witness :
  registry_inv sample_registry ∧
  ∃ v r' w', exec (Response key_a 503) (sample_registry, 20%Q) = (Ok v, (r', w')) ∧
    refines (Response key_a 503) (decisive (Response key_a 503) 20%Q) sample_registry v r'.
Proof.
  split; [apply sample_registry_ok|].
  destruct (make_registry 2 (PyInt 15)) as [r0|] eqn:E; [|vm_compute in E; discriminate E].
  exact (proj2 (breaker_refines_machine 2 (PyInt 15) r0 (Response key_a 503) sample_registry 20%Q E
                  (proj1 sample_registry_ok) eq_refl)).
Defined.

Definition sample_history : list operation :=
  [Admit key_a; Response key_b 502; Inspect key_a; Admit key_b; Success key_b; Admit key_a].

Lemma breaker_single_trial_witness :
  ∃ vs r' w', let s := (exec (Admit key_a) (sample_registry, 20%Q)).2 in
    exec_all sample_history s = (Ok vs, (r', w')) ∧ phase_of r' key_a = HalfOpen 0%Q ∧
    Forall2 (λ o v, o = Admit key_a → v = Some false) sample_history vs.
Proof.
  destruct (exec (Admit key_a) (sample_registry, 20%Q)) as [v [r1 w1]] eqn:E.
  assert (v = Ok (Some true)) as -> by (vm_compute in E; congruence).
  apply (breaker_single_trial key_a 0%Q sample_registry 20%Q r1 w1 sample_history);
    [apply sample_registry_ok|apply sample_registry_ok|exact E|repeat constructor].
Defined.
