(* ===== verification/Urls.v ===== *)
(** * URLs

    What the package uses of [urllib.parse]: [urlsplit], the user information
    of its result, and [urlunsplit], on strings of code points below 256 (for
    which the NFKC check of [urlsplit] refuses nothing). *)
From Stdlib Require Import Ascii String ZArith Lia.
From S2P Require Import Prelude PyVal.
From stdpp Require Import strings.
Local Open Scope Z_scope.
Local Open Scope py_scope.

(** [ipaddress], which checks the text between brackets, is not modelled:
    [bracketed_ok] is what [urlsplit] finds of a netloc with brackets. *)
Class IpLiterals := bracketed_ok : string → bool.

(** ** Splitting strings *)

(** [s] up to the first character of [p], and the rest from that character on. *)
Fixpoint break (p : ascii → bool) (s : string) : string * string :=
  match s with
  | EmptyString => (EmptyString, EmptyString)
  | String c s' => if p c then (EmptyString, s) else let '(a, b) := break p s' in (String c a, b)
  end.

(** [s.partition(c)]: what follows the first [c], if there is one. *)
Definition partition (c : ascii) (s : string) : string * option string :=
  match break (λ x, bool_decide (x = c)) s with
  | (a, EmptyString) => (a, None)
  | (a, String _ b) => (a, Some b)
  end.

(** [s.rpartition(c)]: what precedes the last [c], if there is one. *)
Fixpoint rpartition (c : ascii) (s : string) : option string * string :=
  match s with
  | EmptyString => (None, EmptyString)
  | String x s' =>
      match rpartition c s' with
      | (Some a, b) => (Some (String x a), b)
      | (None, b) => if bool_decide (x = c) then (Some EmptyString, s') else (None, s)
      end
  end.

Fixpoint str_filter (p : ascii → bool) (s : string) : string :=
  match s with
  | EmptyString => EmptyString
  | String c s' => if p c then String c (str_filter p s') else str_filter p s'
  end.

Fixpoint str_drop_while (p : ascii → bool) (s : string) : string :=
  match s with EmptyString => EmptyString | String c s' => if p c then str_drop_while p s' else s end.

Definition is_c0_or_space (c : ascii) : bool := code c <=? 32.
Definition is_unsafe (c : ascii) : bool := bool_decide (code c ∈ [9; 10; 13]).
Definition is_scheme_char (c : ascii) : bool :=
  is_lower_az c || is_upper_AZ c || is_digit c || bool_decide (c ∈ ["+"; "-"; "."]%char).
Definition ends_netloc (c : ascii) : bool := bool_decide (c ∈ ["/"; "?"; "#"]%char).

(** ** urlsplit *)

Record SplitResult := {
  scheme : string; netloc : string; url_path : string; url_query : string; url_fragment : string
}.

Definition is_alpha (c : ascii) : bool := is_lower_az c || is_upper_AZ c.

(** The scheme and what follows it. *)
Definition split_scheme (url : string) : string * string :=
  match partition ":" url with
  | (String c s, Some rest) =>
      if is_alpha c && string_forallb is_scheme_char (String c s) then (str_lower (String c s), rest) else ("", url)
  | _ => ("", url)
  end.

Definition split_netloc (url : string) : string * string :=
  match url with
  | String "/" (String "/" rest) => break ends_netloc rest
  | _ => ("", url)
  end.

Definition or_empty (o : option string) : string := match o with Some s => s | None => "" end.
Definition has_char (c : ascii) (s : string) : bool := negb (string_forallb (λ x, negb (bool_decide (x = c))) s).

Definition urlsplit `{IpLiterals} (value : string) : result SplitResult :=
  let url := str_filter (λ c, negb (is_unsafe c)) (str_drop_while is_c0_or_space value) in
  let '(scheme, url) := split_scheme url in
  let '(netloc, url) := split_netloc url in
  raise_if (negb (Bool.eqb (has_char "[" netloc) (has_char "]" netloc))) (err ValueError "Invalid IPv6 URL");;
  raise_if (has_char "[" netloc && negb (bracketed_ok netloc)) (err ValueError "Invalid IPv6 URL");;
  let '(url, fragment) := partition "#" url in
  let '(path, query) := partition "?" url in
  Ok {| scheme := scheme; netloc := netloc; url_path := path; url_query := or_empty query;
        url_fragment := or_empty fragment |}.

(** [parsed.username] and [parsed.password] *)
Definition username (p : SplitResult) : option string :=
  match rpartition "@" (netloc p) with
  | (Some userinfo, _) => Some (partition ":" userinfo).1
  | (None, _) => None
  end.
Definition password (p : SplitResult) : option string :=
  match rpartition "@" (netloc p) with
  | (Some userinfo, _) => (partition ":" userinfo).2
  | (None, _) => None
  end.

(** [urlunsplit((scheme, netloc, path, "", ""))] for a [netloc] that is not empty. *)
Definition urlunsplit_origin (scheme netloc path : string) : string :=
  let path := if str_nonempty path && negb (starts_with "/" path) then "/" +:+ path else path in
  let url := "//" +:+ netloc +:+ path in
  if str_nonempty scheme then scheme +:+ ":" +:+ url else url.

(** ** Lemmas *)

Lemma break_all p s : string_forallb (λ c, negb (p c)) s = true → break p s = (s, "").
Proof.
  induction s as [|c s IH]; cbn; [done|]. intros [Hc Hs]%andb_true_iff. apply negb_true_iff in Hc.
  by rewrite Hc, IH.
Qed.
Lemma break_fst p s : string_forallb (λ c, negb (p c)) (break p s).1 = true.
Proof.
  induction s as [|c s IH]; cbn; [done|]. destruct (p c) eqn:Ec; [done|]. destruct (break p s) as [a b]. cbn in *.
  by rewrite Ec.
Qed.

Lemma forallb_map p f s : string_forallb p (string_map f s) = string_forallb (λ c, p (f c)) s.
Proof. induction s as [|c s IH]; cbn; [done|]. by rewrite IH. Qed.
Lemma forallb_impl (p q : ascii → bool) s :
  (∀ c, p c = true → q c = true) → string_forallb p s = true → string_forallb q s = true.
Proof.
  intros H. induction s as [|c s IH]; cbn; [done|]. intros [Hc Hs]%andb_true_iff. by rewrite (H c Hc), IH.
Qed.
Lemma filter_all p s : string_forallb p s = true → str_filter p s = s.
Proof. induction s as [|c s IH]; cbn; [done|]. intros [Hc Hs]%andb_true_iff. by rewrite Hc, IH. Qed.
Lemma filter_forallb p s : string_forallb p (str_filter p s) = true.
Proof. induction s as [|c s IH]; cbn; [done|]. destruct (p c) eqn:Ec; cbn; by rewrite ?Ec. Qed.

Lemma string_app_empty_r s : s +:+ "" = s.
Proof. induction s as [|c s IH]; [done|]. change (String c (s +:+ "") = String c s). by rewrite IH. Qed.

(** Reading back an origin [https://netloc]. *)
Lemma urlsplit_origin `{IpLiterals} net :
  string_forallb (λ c, negb (is_unsafe c)) net = true →
  string_forallb (λ c, negb (ends_netloc c)) net = true →
  has_char "[" net = has_char "]" net → (has_char "[" net = true → bracketed_ok net = true) →
  urlsplit ("https://" +:+ net) =
    Ok {| scheme := "https"; netloc := net; url_path := ""; url_query := ""; url_fragment := "" |}.
Proof.
  intros Hsafe Hends Hb Hok. unfold urlsplit.
  change (str_drop_while is_c0_or_space ("https://" +:+ net)) with ("https://" +:+ net).
  rewrite filter_all by exact Hsafe.
  change (split_scheme ("https://" +:+ net)) with ("https", "//" +:+ net).
  cbn [split_netloc]. change (split_netloc ("//" +:+ net)) with (break ends_netloc net).
  rewrite break_all by done. cbn match beta. rewrite Hb. rewrite Bool.eqb_reflx. cbn [negb raise_if mbind result_bind].
  rewrite guard_bind; [done|]. rewrite <- Hb. destruct (has_char "[" net); [|done]. by rewrite Hok.
Qed.

(** [bool] facts about all 256 characters. *)
Lemma all_chars (p : ascii → bool) :
  forallb p (map ascii_of_nat (seq 0 256)) = true → ∀ c, p c = true.
Proof.
  intros H c. rewrite forallb_forall in H. apply H. rewrite in_map_iff. exists (nat_of_ascii c).
  split; [apply ascii_nat_embedding|]. apply in_seq. pose proof (nat_ascii_bounded c). lia.
Qed.

Lemma lower_idem s : str_lower (str_lower s) = str_lower s.
Proof.
  unfold str_lower. induction s as [|c s IH]; [done|]. cbn. rewrite IH. f_equal.
  apply Ascii.eqb_eq. apply (all_chars (λ c, Ascii.eqb (lower_char (lower_char c)) (lower_char c))).
  vm_compute; reflexivity.
Qed.

(** Lowering a string keeps the characters that are not letters. *)
Lemma lower_keeps (p : ascii → bool) s :
  forallb (λ c, Bool.eqb (p (lower_char c)) (p c)) (map ascii_of_nat (seq 0 256)) = true →
  string_forallb (λ c, negb (p c)) (str_lower s) = string_forallb (λ c, negb (p c)) s.
Proof.
  intros H. unfold str_lower. rewrite forallb_map. induction s as [|c s IH]; [done|]. cbn. rewrite IH. f_equal. f_equal.
  by apply Bool.eqb_prop, (all_chars _ H).
Qed.

(** [c in s] and the pieces of a split URL. *)
Lemma rpartition_None c s : (rpartition c s).1 = None ↔ has_char c s = false.
Proof.
  unfold has_char. rewrite negb_false_iff. induction s as [|x s IH]; cbn; [done|].
  destruct (rpartition c s) as [[a|] b]; cbn in *.
  - split; [done|]. intros [_ H]%andb_true_iff. by apply IH in H.
  - case_bool_decide; cbn; [done|]. rewrite <- IH. tauto.
Qed.

Lemma forallb_break p q s : string_forallb p s = true → string_forallb p (break q s).1 = true.
Proof.
  induction s as [|c s IH]; cbn; [done|]. intros [Hc Hs]%andb_true_iff. destruct (q c); [done|].
  specialize (IH Hs). destruct (break q s). cbn in *. by rewrite Hc.
Qed.
Lemma break_snd p q s : string_forallb p s = true → string_forallb p (break q s).2 = true.
Proof.
  induction s as [|c s IH]; cbn; [done|]. intros [Hc Hs]%andb_true_iff. destruct (q c); cbn; [by rewrite Hc|].
  specialize (IH Hs). by destruct (break q s).
Qed.

Lemma split_scheme_rest p url : string_forallb p url = true → string_forallb p (split_scheme url).2 = true.
Proof.
  unfold split_scheme, partition. intros H. pose proof (break_snd p (λ x, bool_decide (x = ":"%char)) url H) as Hr.
  destruct (break _ url) as [a b]. destruct b as [|c b]; destruct a as [|x a]; cbn in *; try done.
  apply andb_true_iff in Hr as [_ Hr]. by case_match.
Qed.

Lemma split_netloc_chars p url :
  string_forallb p url = true →
  string_forallb p (split_netloc url).1 = true ∧ string_forallb (λ c, negb (ends_netloc c)) (split_netloc url).1 = true.
Proof.
  intros H. unfold split_netloc. repeat case_match; try done. subst. cbn in H. repeat apply andb_true_iff in H as [_ H].
  split; [by apply forallb_break|apply break_fst].
Qed.

(** The netloc of a URL: no delimiter, no unsafe character, brackets that [ipaddress] accepts. *)
Lemma urlsplit_netloc `{IpLiterals} v p :
  urlsplit v = Ok p →
  string_forallb (λ c, negb (is_unsafe c)) (netloc p) = true ∧
  string_forallb (λ c, negb (ends_netloc c)) (netloc p) = true ∧
  has_char "[" (netloc p) = has_char "]" (netloc p) ∧ (has_char "[" (netloc p) = true → bracketed_ok (netloc p) = true).
Proof.
  unfold urlsplit. set (url := str_filter _ _).
  assert (Hsafe : string_forallb (λ c, negb (is_unsafe c)) url = true) by apply filter_forallb.
  clearbody url. pose proof (split_scheme_rest _ url Hsafe) as H1. destruct (split_scheme url) as [sch rest]. cbn in H1.
  destruct (split_netloc_chars _ rest H1) as [H2 H3]. destruct (split_netloc rest) as [net path]. cbn in *.
  intros E. apply bind_ok in E as ([] & Hb%raise_if_ok & E). apply bind_ok in E as ([] & Hi%raise_if_ok & E).
  destruct (partition "#" path) as [u f]. destruct (partition "?" u) as [pa q]. injection E as <-. cbn.
  split_and!; [done..| |].
  - by apply negb_false_iff, Bool.eqb_prop in Hb.
  - intros Hh. rewrite Hh in Hi. by apply negb_false_iff in Hi.
Qed.

Lemma has_char_lower c s :
  forallb (λ x, Bool.eqb (bool_decide (lower_char x = c)) (bool_decide (x = c))) (map ascii_of_nat (seq 0 256)) = true →
  has_char c (str_lower s) = has_char c s.
Proof. intros H. unfold has_char. f_equal. by apply (lower_keeps (λ x, bool_decide (x = c))). Qed.

Lemma urlsplit_raises `{IpLiterals} v : raises (λ x, exn_kind x = ValueError) (urlsplit v).
Proof.
  unfold urlsplit. destruct (split_scheme _) as [sch url]. destruct (split_netloc url) as [net rest].
  apply raises_bind; [by apply raises_if|]. intros _ _. apply raises_bind; [by apply raises_if|]. intros _ _.
  destruct (partition "#" rest) as [u f]. destruct (partition "?" u) as [path q]. apply raises_ok.
Qed.

#[global] Arguments urlsplit : simpl never.
