(* ===== verification/Json.v ===== *)
(** * Strict JSON contracts

    The shared parts of the schema-v1 envelopes: [object_dict] of
    [domain/_json.py], the freezing and thawing of JSON values and the digests
    of [domain/artifact.py].  [Wire] is the interface of a record with a strict
    envelope: the encoder, the decoder and the law that connects them. *)
From S2P Require Import Prelude PyVal Regex.
From Stdlib Require Import QArith ZArith Ascii.
Local Close Scope Q_scope.
Local Open Scope Z_scope.

(** ** Contract errors *)

Definition artifact_contract_error (path : string) : exn :=
  err DataSluiceError ("Invalid schema-v1 contract at " +:+ path).
Definition _contract_error (path : string) : exn :=
  err DataSluiceError ("Invalid schema-v1 catalog contract at " +:+ path).

(** ** Dictionaries with string keys *)

Section entries.
Variables (error : exn) (f : string → pyval → result pyval).

(** [for key, nested in value.items()], rejecting a key that is no string. *)
Fixpoint copy_entries (kvs : list (pyval * pyval)) (acc : pydict) : result pydict :=
  match kvs with
  | [] => Ok acc
  | (PyStr k, v) :: kvs' => v' ← f k v; copy_entries kvs' (dict_set k v' acc)
  | _ :: _ => Raise error
  end.
End entries.

Definition object_dict (value : pyval) (path : string) (error : string → exn) : result pydict :=
  match value with
  | PyDict kvs => copy_entries (error path) (λ _ v, Ok v) kvs []
  | _ => Raise (error path)
  end.

(** [models._object_dict] *)
Definition _object_dict (value : pyval) (path : string) : result pydict := object_dict value path _contract_error.

(** ** Freezing and thawing *)

Fixpoint _freeze_json (error : string → exn) (value : pyval) (path : string) {struct value} : result pyval :=
  match value with
  | PyNone | PyStr _ | PyBool _ | PyInt _ | PyFloat (FFin _) => Ok value
  | PyDict kvs | PyProxy kvs =>
      d ← copy_entries (error path) (λ k v, _freeze_json error v (path +:+ "." +:+ k)) kvs [];
      Ok (PyProxy (items_of d))
  | PyList l | PyTuple l =>
      ys ← map_res (λ v, _freeze_json error v path) l;
      Ok (PyTuple ys)
  | _ => Raise (error path)
  end.

Fixpoint _thaw_json (value : pyval) : pyval :=
  match value with
  | PyDict kvs | PyProxy kvs => PyDict (prod_map id _thaw_json <$> kvs)
  | PyTuple l => PyList (_thaw_json <$> l)
  | _ => value
  end.

(** ** Digests *)

Definition is_hex (c : ascii) : bool := is_digit c || in_range 97 102 c.
Definition _SHA256_RE : re := repeat_re 64 (RSet is_hex).
Definition _is_sha256 (value : pyval) : bool :=
  match value with PyStr s => fullmatch _SHA256_RE s | _ => false end.

(** ** Extensions *)

Definition isascii (s : string) : bool := string_forallb (λ c, code c <? 128) s.
(** [c.isalnum()] on ASCII. *)
Definition isalnum (c : ascii) : bool := is_digit c || is_lower_az c || is_upper_AZ c.

Fixpoint dot_then_alnum (s : string) : bool :=
  match s with
  | String c s' =>
      (bool_decide (c = "."%char) && match s' with String d _ => isalnum d | EmptyString => false end)
      || dot_then_alnum s'
  | EmptyString => false
  end.

Definition valid_namespace (namespace : string) : bool :=
  match namespace with
  | EmptyString => false
  | String c _ =>
      isascii namespace && isalnum c &&
      string_forallb (λ x, isalnum x || bool_decide (x ∈ ["."; "-"]%char)) namespace &&
      dot_then_alnum namespace
  end.

Definition _freeze_extensions (error : string → exn) (value : pyval) : result pydict :=
  match value with
  | PyDict kvs | PyProxy kvs =>
      copy_entries (error "extensions")
        (λ namespace extension,
           raise_if (negb (valid_namespace namespace)) (error "extensions");;
           _freeze_json error extension ("extensions." +:+ namespace)) kvs []
  | _ => Raise (error "extensions")
  end.

(** ** JSON values, thawed and frozen *)

(** [json b v]: a JSON value with finite numbers and distinct string keys,
    whose containers are frozen (tuples and proxies) or plain (lists and
    dictionaries). *)
Fixpoint json (is_frozen : bool) (v : pyval) : bool :=
  match v with
  | PyNone | PyStr _ | PyBool _ | PyInt _ | PyFloat (FFin _) => true
  | PyTuple l => is_frozen && forallb (json is_frozen) l
  | PyList l => negb is_frozen && forallb (json is_frozen) l
  | PyProxy kvs => is_frozen && dict_items kvs && forallb (λ kv, json is_frozen kv.2) kvs
  | PyDict kvs => negb is_frozen && dict_items kvs && forallb (λ kv, json is_frozen kv.2) kvs
  | _ => false
  end.
Definition frozen : pyval → bool := json true.
Definition plain : pyval → bool := json false.

Definition frozen_dict (d : pydict) : Prop := NoDup d.*1 ∧ Forall (λ kv, frozen kv.2 = true) d.
Definition plain_dict (d : pydict) : Prop := NoDup d.*1 ∧ Forall (λ kv, plain kv.2 = true) d.

(** [_thaw_json] of a frozen mapping, as a dictionary. *)
Definition thaw_dict (d : pydict) : pydict := prod_map id _thaw_json <$> d.

(** ** Records with a strict envelope *)

(** The encoder writes what the decoder reads back, and the decoder accepts
    nothing that its constructor would not build. *)
Class Wire (A : Type) := {
  to_wire : A → pyval;
  from_wire : pyval → result A;
  wire_wf : A → Prop;
  wire_roundtrip a : wire_wf a → from_wire (to_wire a) = Ok a;
  wire_sound v a : from_wire v = Ok a → wire_wf a
}.

(** ** Lemmas *)

Lemma copy_entries_ok error f kvs acc d :
  copy_entries error f kvs acc = Ok d →
  ∃ src : pydict, kvs = items_of src ∧
    ∃ out, Forall2 (λ a b, a.1 = b.1 ∧ f a.1 a.2 = Ok b.2) src out ∧ d = dict_merge acc out.
Proof.
  revert acc. induction kvs as [|[k v] kvs IH]; intros acc; cbn.
  - intros [= <-]. exists []. split; [done|]. by exists [].
  - destruct k; try done. intros H. inv_ok. match goal with H : copy_entries _ _ _ _ = _ |- _ => apply IH in H end.
    destruct H as (src & -> & out & Hout & ->).
    eexists ((_, v) :: src). split; [done|]. eexists ((_, _) :: out). split; [|done]. by constructor.
Qed.

Lemma copy_entries_total error f (src out acc : pydict) :
  Forall2 (λ a b, a.1 = b.1 ∧ f a.1 a.2 = Ok b.2) src out →
  copy_entries error f (items_of src) acc = Ok (dict_merge acc out).
Proof.
  intros H. revert acc. induction H as [|[k v] [k' v'] src out [Hk Hf] _ IH]; intros acc; [done|].
  cbn in *. subst k'. rewrite Hf. cbn. apply IH.
Qed.

Lemma copy_entries_id (error : exn) (d : pydict) :
  NoDup d.*1 → copy_entries error (λ _ v, Ok v) (items_of d) [] = Ok d.
Proof.
  intros Hnd. rewrite (copy_entries_total _ _ d d) by (apply Forall_Forall2_diag; by apply Forall_forall).
  by rewrite dict_merge_nil.
Qed.

Lemma copy_entries_raises P error f kvs acc :
  P error → Forall (λ kv, ∀ k, raises P (f k kv.2)) kvs → raises P (copy_entries error f kvs acc).
Proof.
  intros He Hf. revert acc. induction Hf as [|[k v] kvs Hv _ IH]; intros acc; [apply raises_ok|].
  cbn. destruct k; auto with datasluice.
Qed.

Lemma freeze_json_raises P error v : (∀ p, P (error p)) → ∀ path, raises P (_freeze_json error v path).
Proof.
  intros He. induction v as [| | |[]| |s t|l IH|l IH|kvs IH|kvs IH|r] using pyval_nested_ind; intros path;
    cbn [_freeze_json]; auto with datasluice.
  - apply raises_bind; [|auto with datasluice]. apply raises_map_res. by eapply Forall_impl.
  - apply raises_bind; [|auto with datasluice]. apply raises_map_res. by eapply Forall_impl.
  - apply raises_bind; [|auto with datasluice]. apply copy_entries_raises; [done|]. by eapply Forall_impl.
  - apply raises_bind; [|auto with datasluice]. apply copy_entries_raises; [done|]. by eapply Forall_impl.
Qed.

(** What [object_dict] reads back from a dictionary literal. *)
Lemma object_dict_str_dict d path : NoDup d.*1 → _object_dict (str_dict d) path = Ok d.
Proof. intros. by apply copy_entries_id. Qed.

Lemma object_dict_ok v path d :
  _object_dict v path = Ok d → ∃ src : pydict, v = str_dict src ∧ d = dict_merge [] src.
Proof.
  unfold _object_dict, object_dict. destruct v; try done. intros H.
  apply copy_entries_ok in H as (src & -> & out & Hout & ->). exists src. split; [done|]. f_equal.
  induction Hout as [|[] [] ? ? [? ?]]; cbn in *; congruence.
Qed.

Lemma dict_merge_keys {V} (b a : list (string * V)) : NoDup a.*1 → NoDup (dict_merge a b).*1.
Proof.
  unfold dict_merge. revert a. induction b as [|[k v] b IH]; intros a Ha; [done|]. cbn. apply IH.
  rewrite dict_set_keys. case_bool_decide; [done|]. apply NoDup_app. split_and!; [done|set_solver|].
  apply NoDup_singleton.
Qed.

Lemma dict_merge_Forall_kv {V} (P : string → V → Prop) (b a : list (string * V)) :
  Forall (λ kv, P kv.1 kv.2) a → Forall (λ kv, P kv.1 kv.2) b → Forall (λ kv, P kv.1 kv.2) (dict_merge a b).
Proof.
  intros Ha Hb. unfold dict_merge. revert a Ha.
  induction Hb as [|[k v] b Hk _ IH]; intros a Ha; [done|]. cbn. apply IH.
  induction Ha as [|[k' v'] a Hk' Ha IHa]; cbn; [by constructor|]. case_bool_decide; subst; by constructor.
Qed.

Lemma dict_merge_Forall {V} (P : V → Prop) (b a : list (string * V)) :
  Forall (λ kv, P kv.2) a → Forall (λ kv, P kv.2) b → Forall (λ kv, P kv.2) (dict_merge a b).
Proof. apply (dict_merge_Forall_kv (λ _, P)). Qed.

Lemma json_items b (d : pydict) :
  NoDup d.*1 → Forall (λ kv, json b kv.2 = true) d →
  dict_items (items_of d) && forallb (λ kv, json b kv.2) (items_of d) = true.
Proof.
  intros Hnd Hd. apply andb_true_iff. split; [apply dict_items_spec; eauto|].
  apply forallb_forall. intros kv. unfold items_of. rewrite <- list_elem_of_In, list_elem_of_fmap.
  intros ([k v] & -> & Hin). rewrite Forall_forall in Hd. apply (Hd _ Hin).
Qed.

Lemma json_items_inv b kvs :
  dict_items kvs && forallb (λ kv, json b kv.2) kvs = true →
  ∃ d, kvs = items_of d ∧ NoDup d.*1 ∧ Forall (λ kv, json b kv.2 = true) d.
Proof.
  intros [(d & -> & Hnd)%dict_items_spec Hall]%andb_true_iff. exists d. split_and!; try done.
  rewrite forallb_forall in Hall. apply Forall_forall. intros [k v] Hin.
  apply (Hall (PyStr k, v)). rewrite <- list_elem_of_In. apply list_elem_of_fmap. by exists (k, v).
Qed.

Lemma frozen_proxy d : frozen_dict d → frozen (PyProxy (items_of d)) = true.
Proof. intros [Hnd Hd]. unfold frozen. cbn. by apply json_items. Qed.

Lemma forallb_Forall {A} (p : A → bool) l : forallb p l = true ↔ Forall (λ x, p x = true) l.
Proof. rewrite forallb_forall, Forall_forall. by setoid_rewrite <- list_elem_of_In. Qed.

(** Freezing gives a frozen value. *)
Lemma freeze_entries_frozen error f kvs d :
  (∀ k v v', (PyStr k, v) ∈ kvs → f k v = Ok v' → frozen v' = true) →
  copy_entries error f kvs [] = Ok d → frozen_dict d.
Proof.
  intros Hf (src & -> & out & Hout & ->)%copy_entries_ok. split.
  - apply dict_merge_keys. constructor.
  - apply (dict_merge_Forall (λ v, frozen v = true)); [constructor|].
    revert Hf. induction Hout as [|[k v] [k' v'] src out [Hk Hv] _ IH]; intros Hf; [constructor|]. cbn in *. subst.
    constructor; [eapply Hf; [left|done]|]. apply IH. intros. eapply Hf; [by right|done].
Qed.

Lemma freeze_json_frozen error v : ∀ path v', _freeze_json error v path = Ok v' → frozen v' = true.
Proof.
  induction v as [| | |[]| |s t|l IH|l IH|kvs IH|kvs IH|r] using pyval_nested_ind;
    intros path v' Hv; cbn in Hv; try (by inv_ok).
  - inv_ok. apply map_res_ok in H. cbn. apply forallb_Forall.
    induction H as [|x y l l' Hx _ IHl]; [constructor|]. inversion_clear IH. constructor; eauto.
  - inv_ok. apply map_res_ok in H. cbn. apply forallb_Forall.
    induction H as [|x y l l' Hx _ IHl]; [constructor|]. inversion_clear IH. constructor; eauto.
  - inv_ok. apply frozen_proxy. eapply freeze_entries_frozen; [|done]. cbn. intros k v v' Hin Hv.
    rewrite Forall_forall in IH. by eapply (IH _ Hin).
  - inv_ok. apply frozen_proxy. eapply freeze_entries_frozen; [|done]. cbn. intros k v v' Hin Hv.
    rewrite Forall_forall in IH. by eapply (IH _ Hin).
Qed.

(** Thawing a frozen mapping, and freezing it again. *)
Lemma thaw_items d : prod_map id _thaw_json <$> items_of d = items_of (thaw_dict d).
Proof. unfold items_of, thaw_dict. rewrite <- !list_fmap_compose. apply list_fmap_ext. by intros ? []. Qed.

Lemma thaw_dict_keys d : (thaw_dict d).*1 = d.*1.
Proof. unfold thaw_dict. rewrite <- list_fmap_compose. apply list_fmap_ext. by intros ? []. Qed.

Lemma refreeze_entries e f d :
  NoDup d.*1 → Forall (λ kv, f kv.1 (_thaw_json kv.2) = Ok kv.2) d →
  copy_entries e f (items_of (thaw_dict d)) [] = Ok d.
Proof.
  intros Hnd Hd. rewrite (copy_entries_total _ _ _ d).
  - by rewrite dict_merge_nil.
  - unfold thaw_dict. clear Hnd. induction Hd as [|[k v] d Hk _ IH]; [constructor|]. constructor; [|exact IH]. done.
Qed.

Lemma freeze_thaw error v : frozen v = true → ∀ path, _freeze_json error (_thaw_json v) path = Ok v.
Proof.
  unfold frozen. induction v as [| | |[]| |s t|l IH|l IH|kvs IH|kvs IH|r] using pyval_nested_ind;
    intros Hv path; try done.
  - cbn in Hv. apply forallb_Forall in Hv. cbn.
    assert (map_res (λ v, _freeze_json error v path) (_thaw_json <$> l) = Ok l) as ->; [|done].
    apply map_res_ok. induction l as [|x l IHl]; [constructor|]. inversion_clear IH. inversion_clear Hv.
    constructor; auto.
  - cbn in Hv. apply json_items_inv in Hv as (d & -> & Hnd & Hd). cbn. rewrite thaw_items.
    rewrite refreeze_entries; [done|done|]. apply Forall_forall. intros [k v] Hin.
    rewrite Forall_forall in IH. rewrite Forall_forall in Hd. apply (IH (PyStr k, v)); [|by apply (Hd _ Hin)].
    apply list_elem_of_fmap. by exists (k, v).
Qed.

(** Freezing a plain JSON value succeeds, and thawing gives it back. *)
Lemma thaw_freeze error v : plain v = true → ∀ path, ∃ f, _freeze_json error v path = Ok f ∧ _thaw_json f = v.
Proof.
  unfold plain. induction v as [| | |[]| |s t|l IH|l IH|kvs IH|kvs IH|r] using pyval_nested_ind;
    intros Hv path; try done; try (by eexists).
  - cbn in Hv. apply forallb_Forall in Hv.
    assert (Hm : ∃ ys, map_res (λ v, _freeze_json error v path) l = Ok ys ∧ _thaw_json <$> ys = l).
    { induction l as [|x l IHl]; [by exists []|]. inversion_clear IH. inversion_clear Hv.
      destruct (H H1 path) as (y & Hy & Ey). destruct IHl as (ys & Hys & Eys); [done..|].
      exists (y :: ys). cbn. rewrite Hy. cbn. rewrite Hys. cbn. by rewrite Ey, Eys. }
    destruct Hm as (ys & Hys & Eys). exists (PyTuple ys). cbn. rewrite Hys. cbn. by rewrite Eys.
  - cbn in Hv. apply json_items_inv in Hv as (d & -> & Hnd & Hd).
    assert (Hm : ∃ out, Forall2 (λ a b : string * pyval, a.1 = b.1 ∧
                   _freeze_json error a.2 (path +:+ "." +:+ a.1) = Ok b.2) d out ∧ thaw_dict out = d).
    { clear Hnd. induction d as [|[k v] d IHd]; [by exists []|]. cbn in IH. inversion_clear IH. inversion_clear Hd.
      destruct (H H1 (path +:+ "." +:+ k)) as (y & Hy & Ey). destruct IHd as (ys & Hys & Eys); [done..|].
      exists ((k, y) :: ys). split; [by constructor|].
      change (thaw_dict _) with ((k, _thaw_json y) :: thaw_dict ys). by rewrite Ey, Eys. }
    destruct Hm as (out & Hout & Eout). exists (PyProxy (items_of out)). cbn.
    rewrite (copy_entries_total _ _ _ out) by exact Hout. cbn. rewrite dict_merge_nil.
    + rewrite thaw_items, Eout. done.
    + by rewrite <- thaw_dict_keys, Eout.
Qed.

(** ** Envelopes *)

(** The header every [from_dict] checks: a dictionary with exactly the expected
    keys, schema version 1 (an [int]) and the expected kind. *)
Definition open_envelope (name : string) (keys : list string) (value : pyval) : result pydict :=
  data ← _object_dict value name;
  raise_if (negb (keys_are data keys)) (_contract_error name);;
  version ← field data "schema_version";
  kind ← field data "kind";
  raise_if (negb (py_eq_int version 1) || negb (type_is_int version) || negb (py_eq_str kind name))
    (_contract_error name);;
  Ok data.

Lemma open_envelope_literal name keys d :
  NoDup d.*1 → keys_are d keys = true →
  dict_get "schema_version" d = Some (PyInt 1) → dict_get "kind" d = Some (PyStr name) →
  open_envelope name keys (str_dict d) = Ok d.
Proof.
  intros Hnd Hk Hv Hkind. unfold open_envelope. rewrite object_dict_str_dict by done. cbn.
  rewrite Hk. cbn. unfold field. rewrite Hv. cbn. rewrite Hkind. cbn. by rewrite bool_decide_eq_true_2.
Qed.

(** [isinstance(v, str)] and [isinstance(v, str) and v] as decoders. *)
Definition as_str (e : exn) (v : pyval) : result string :=
  match v with PyStr s => Ok s | _ => Raise e end.
Definition as_bool (e : exn) (v : pyval) : result bool :=
  match v with PyBool b => Ok b | _ => Raise e end.
Definition as_int (e : exn) (v : pyval) : result Z :=
  match v with PyInt z => Ok z | _ => Raise e end.
Definition as_list (e : exn) (v : pyval) : result (list pyval) :=
  match v with PyList l => Ok l | _ => Raise e end.

(** [receipts._required_text] and [receipts._optional_text] *)
Definition _required_text (value : pyval) (path : string) : result string :=
  match value with
  | PyStr s => raise_if (negb (str_nonempty s)) (_contract_error path);; Ok s
  | _ => Raise (_contract_error path)
  end.
Definition _optional_text (value : pyval) (path : string) : result (option string) :=
  match value with
  | PyNone => Ok None
  | PyStr s => Ok (Some s)
  | _ => Raise (_contract_error path)
  end.

Lemma required_text_str s path : s ≠ "" → _required_text (PyStr s) path = Ok s.
Proof. intros. unfold _required_text. by rewrite (proj2 (str_nonempty_true s)). Qed.

Lemma required_text_ok v path s : _required_text v path = Ok s → v = PyStr s ∧ s ≠ "".
Proof.
  destruct v; try done. cbn. intros H. inv_ok. apply negb_false_iff, str_nonempty_true in H0. done.
Qed.

Lemma optional_text_opt o path : _optional_text (opt_str o) path = Ok o.
Proof. by destruct o. Qed.

(** A decoder of a list of records inverts their encoder. *)
Lemma map_wire {A} `{Wire A} (l : list A) :
  Forall wire_wf l → map_res from_wire (to_wire <$> l) = Ok l.
Proof.
  intros Hl. apply map_res_ok. induction Hl as [|x l Hx _ IH]; constructor; [by apply wire_roundtrip|exact IH].
Qed.

Lemma map_wire_sound {A} `{Wire A} vs (l : list A) : map_res from_wire vs = Ok l → Forall wire_wf l.
Proof. intros Hl%map_res_ok. induction Hl; constructor; [by eapply wire_sound|done]. Qed.

(** [literal_keys] proves that the keys written in a dictionary literal are
    distinct; [envelope] opens the envelope a [to_dict] wrote. *)
Ltac literal_keys := apply (bool_decide_unpack _); vm_compute; exact I.
Ltac envelope := rewrite open_envelope_literal by first [literal_keys | reflexivity].

Lemma field_hit k v d : field ((k, v) :: d) k = Ok v.
Proof. unfold field. cbn. by rewrite bool_decide_eq_true_2. Qed.
Lemma field_miss k k' v d : bool_decide (k = k') = false → field ((k', v) :: d) k = field d k.
Proof. intros E. unfold field. cbn. by rewrite E. Qed.

(** A key the envelope check has seen is present. *)
Lemma field_present keys data k : keys_are data keys = true → bool_decide (k ∈ keys) = true →
  ∀ P, raises P (field data k).
Proof.
  unfold keys_are. intros [_ Hk]%andb_true_iff Hin%bool_decide_eq_true P. rewrite forallb_Forall, Forall_forall in Hk.
  specialize (Hk k Hin). apply bool_decide_eq_true in Hk. unfold field.
  destruct (dict_get k data) eqn:E; [apply raises_ok|]. by apply dict_get_None in E.
Qed.

(** [literal_fields] reads the fields of a dictionary literal. *)
Ltac literal_fields :=
  cbn [mbind result_bind];
  repeat first [rewrite field_hit; cbn [mbind result_bind] | rewrite field_miss by (vm_compute; reflexivity)].

(** ** Properties *)

(** freezing and thawing are inverse: freezing any value gives a frozen
    JSON value or a contract error; a frozen value thaws to one that freezes
    back to it; and a plain JSON value of any depth can be frozen, and thaws
    back to itself. *)
Theorem freeze_thaw_inverse (error : string → exn) (v : pyval) (path : string) :
  (∀ f, _freeze_json error v path = Ok f → frozen f = true) ∧
  (frozen v = true → _freeze_json error (_thaw_json v) path = Ok v) ∧
  (plain v = true → ∃ f, _freeze_json error v path = Ok f ∧ _thaw_json f = v).
Proof.
  split_and!; [intros f; apply freeze_json_frozen|intros; by apply freeze_thaw|intros; by apply thaw_freeze].
Qed.

Definition sample_json : pyval :=
  str_dict [("title", PyStr "Air quality"); ("tags", PyList [PyStr "air"; PyNone; PyInt 3]);
            ("nested", str_dict [("ok", PyBool true); ("ratio", PyFloat (FFin (1 # 2)))])].

Lemma freeze_thaw_inverse_witness :
  plain sample_json = true ∧
  ∃ f, _freeze_json _contract_error sample_json "value" = Ok f ∧ _thaw_json f = sample_json ∧ frozen f = true.
Proof.
  split; [reflexivity|].
  destruct (freeze_thaw_inverse _contract_error sample_json "value") as (H1 & _ & H3).
  destruct (H3 eq_refl) as (f & Hf & Ht). exists f. split; [exact Hf|]. split; [exact Ht|]. exact (H1 f Hf).
Defined.
