(* ===== verification/JsonText.v ===== *)
(** * JSON texts

    What the package uses of the [json] module: [json.dumps] with
    [ensure_ascii] and, where asked, [sort_keys], and [json.loads].  A text is
    the decoded [str]: a code point beyond 255, which a [string] does not
    represent, makes [loads] fail here.  The decimal text of a float and its
    reading are the parameter [FloatText], since the rounding of binary64 is
    not modelled. *)
From S2P Require Import Prelude PyVal Json.
From Stdlib Require Import QArith ZArith Ascii DecimalString DecimalZ DecimalFacts.
Local Close Scope Q_scope.
Local Open Scope string_scope.
Local Open Scope Z_scope.
Local Open Scope py_scope.

(** [float.__repr__] of a finite float, and [float] of a JSON number text. *)
Class FloatText := { float_repr : Q → string; float_of_text : string → pyfloat }.

(** ** Printing *)

Definition hex_digit (n : N) : ascii := if (n <? 10)%N then ascii_of_N (48 + n) else ascii_of_N (87 + n).

(** [ESCAPE_DCT] and [\u%04x] outside the printable ASCII range *)
Definition escape_char (c : ascii) : string :=
  let n := N_of_ascii c in
  if (n =? 92)%N then "\\" else if (n =? 34)%N then String "\" (String c "")
  else if (n =? 8)%N then "\b" else if (n =? 12)%N then "\f" else if (n =? 10)%N then "\n"
  else if (n =? 13)%N then "\r" else if (n =? 9)%N then "\t"
  else if in_range 32 126 c then String c ""
  else "\u00" +:+ String (hex_digit (n / 16)) (String (hex_digit (n mod 16)) "").

Fixpoint escape (s : string) : string :=
  match s with EmptyString => "" | String c s' => escape_char c +:+ escape s' end.
Definition quote : ascii := ascii_of_N 34.
Definition encode_string (s : string) : string := String quote (escape s +:+ String quote "").

(** [int.__repr__] *)
Definition int_repr (z : Z) : string := NilZero.string_of_int (Z.to_int z).

(** [sorted] by a string key; the keys of a dictionary are distinct. *)
Section sort.
Context {A : Type} (key : A → string).
Fixpoint insert_item (x : A) (d : list A) : list A :=
  match d with
  | [] => [x]
  | y :: d' => if String.leb (key x) (key y) then x :: d else y :: insert_item x d'
  end.
Definition sort_items (d : list A) : list A := foldr insert_item [] d.
End sort.

Definition not_serializable : exn := err TypeError "Object is not JSON serializable".

(** The items of a dictionary with string keys, printed. *)
Section dumps_items.
Context (f : pyval → result string).
Fixpoint dumps_items (kvs : list (pyval * pyval)) : result (list (string * string)) :=
  match kvs with
  | [] => Ok []
  | (PyStr k, v) :: kvs' => t ← f v; ts ← dumps_items kvs'; Ok ((k, t) :: ts)
  | _ => Raise not_serializable
  end.
End dumps_items.

Definition member_text (kt : string * string) : string := encode_string kt.1 +:+ ": " +:+ kt.2.

Section text.
Context `{FloatText}.

(** [json.dumps(value, sort_keys=sorted)]; the dictionaries the package
    serialises have string keys. *)
Fixpoint dumps (sorted : bool) (v : pyval) : result string :=
  match v with
  | PyNone => Ok "null"
  | PyBool true => Ok "true"
  | PyBool false => Ok "false"
  | PyInt z => Ok (int_repr z)
  | PyFloat (FFin q) => Ok (float_repr q)
  | PyFloat (FInf false) => Ok "Infinity"
  | PyFloat (FInf true) => Ok "-Infinity"
  | PyFloat FNan => Ok "NaN"
  | PyStr s => Ok (encode_string s)
  | PyList l | PyTuple l => ts ← map_res (dumps sorted) l; Ok ("[" +:+ String.concat ", " ts +:+ "]")
  | PyDict kvs =>
      ts ← dumps_items (dumps sorted) kvs;
      let ts := if sorted then sort_items fst ts else ts in
      Ok ("{" +:+ String.concat ", " (member_text <$> ts) +:+ "}")
  | PyBytes _ _ | PyProxy _ | PyObject _ => Raise not_serializable
  end.

(** ** Reading *)

Definition is_ws (c : ascii) : bool := bool_decide (code c ∈ [32; 9; 10; 13]).
Fixpoint skip_ws (s : string) : string :=
  match s with String c s' => if is_ws c then skip_ws s' else s | EmptyString => s end.

Definition hex_value (c : ascii) : option N :=
  let n := N_of_ascii c in
  if in_range 48 57 c then Some (n - 48)%N
  else if in_range 97 102 c then Some (n - 87)%N
  else if in_range 65 70 c then Some (n - 55)%N else None.

(** The body of a string after its opening quote, with the rest of the text. *)
Fixpoint scan_string (s : string) : option (string * string) :=
  match s with
  | EmptyString => None
  | String c s' =>
      if bool_decide (c = quote) then Some ("", s')
      else if bool_decide (c = "\"%char) then
        match s' with
        | String "u" (String h1 (String h2 (String h3 (String h4 r)))) =>
            a ← hex_value h1; b ← hex_value h2; x ← hex_value h3; y ← hex_value h4;
            if (a =? 0)%N && (b =? 0)%N then prod_map (String (ascii_of_N (16 * x + y))) id <$> scan_string r else None
        | String e r =>
            match N_of_ascii e with
            | 34%N | 92%N | 47%N => prod_map (String e) id <$> scan_string r
            | 98%N => prod_map (String (ascii_of_N 8)) id <$> scan_string r
            | 102%N => prod_map (String (ascii_of_N 12)) id <$> scan_string r
            | 110%N => prod_map (String (ascii_of_N 10)) id <$> scan_string r
            | 114%N => prod_map (String (ascii_of_N 13)) id <$> scan_string r
            | 116%N => prod_map (String (ascii_of_N 9)) id <$> scan_string r
            | _ => None
            end
        | EmptyString => None
        end
      else if code c <? 32 then None
      else prod_map (String c) id <$> scan_string s'
  end.

Fixpoint span_digits (s : string) : string * string :=
  match s with
  | String c s' => if is_digit c then prod_map (String c) id (span_digits s') else ("", s)
  | EmptyString => ("", "")
  end.

(** [NUMBER_RE]: the integer part, and the fraction and exponent when they are
    complete. *)
Definition scan_int_part (s : string) : option (string * string) :=
  let '(digits, rest) := span_digits s in
  match digits with
  | EmptyString => None
  | String "0" more => Some ("0", more +:+ rest)
  | _ => Some (digits, rest)
  end.
Definition scan_fraction (s : string) : string * string :=
  match s with
  | String "." s' => let '(d, rest) := span_digits s' in if str_nonempty d then ("." +:+ d, rest) else ("", s)
  | _ => ("", s)
  end.
Definition scan_exponent (s : string) : string * string :=
  match s with
  | String e s' =>
      if bool_decide (e ∈ ["e"; "E"]%char) then
        let '(sign, s'') := match s' with
          | String c r => if bool_decide (c ∈ ["-"; "+"]%char) then (String c "", r) else ("", s')
          | EmptyString => ("", s') end in
        let '(d, rest) := span_digits s'' in
        if str_nonempty d then (String e (sign +:+ d), rest) else ("", s)
      else ("", s)
  | EmptyString => ("", s)
  end.

Definition int_of_text (s : string) : option Z := Z.of_int <$> NilZero.int_of_string s.

Definition scan_number (s : string) : option (pyval * string) :=
  let '(sign, s') := match s with String "-" r => ("-", r) | _ => ("", s) end in
  '(whole, s1) ← scan_int_part s';
  let '(frac, s2) := scan_fraction s1 in
  let '(expo, s3) := scan_exponent s2 in
  if str_nonempty frac || str_nonempty expo then Some (PyFloat (float_of_text (sign +:+ whole +:+ frac +:+ expo)), s3)
  else z ← int_of_text (sign +:+ whole); Some (PyInt z, s3).

Fixpoint strip_prefix (p s : string) : option string :=
  match p, s with
  | EmptyString, _ => Some s
  | String a p', String b s' => if bool_decide (a = b) then strip_prefix p' s' else None
  | _, EmptyString => None
  end.

(** [scan_once], the array and the object scanners; an object keeps the last
    value of a repeated key at its first position. *)
Fixpoint scan_value (fuel : nat) (s : string) {struct fuel} : option (pyval * string) :=
  match fuel with
  | O => None
  | S fuel =>
      match strip_prefix (String quote EmptyString) s with
      | Some r => prod_map PyStr id <$> scan_string r
      | None =>
      match s with
      | String "{" r =>
          match skip_ws r with
          | String "}" r' => Some (PyDict [], r')
          | r' => '(d, r'') ← scan_members fuel r'; Some (str_dict (dict_merge [] d), r'')
          end
      | String "[" r =>
          match skip_ws r with
          | String "]" r' => Some (PyList [], r')
          | r' => prod_map PyList id <$> scan_elements fuel r'
          end
      | String "n" (String "u" (String "l" (String "l" r))) => Some (PyNone, r)
      | String "t" (String "r" (String "u" (String "e" r))) => Some (PyBool true, r)
      | String "f" (String "a" (String "l" (String "s" (String "e" r)))) => Some (PyBool false, r)
      | String "N" (String "a" (String "N" r)) => Some (PyFloat FNan, r)
      | _ =>
          match strip_prefix "Infinity" s, strip_prefix "-Infinity" s with
          | Some r, _ => Some (PyFloat (FInf false), r)
          | _, Some r => Some (PyFloat (FInf true), r)
          | _, _ => scan_number s
          end
      end
      end
  end
with scan_elements (fuel : nat) (s : string) {struct fuel} : option (list pyval * string) :=
  match fuel with
  | O => None
  | S fuel =>
      '(v, r) ← scan_value fuel s;
      match skip_ws r with
      | String "]" r' => Some ([v], r')
      | String "," r' => prod_map (cons v) id <$> scan_elements fuel (skip_ws r')
      | _ => None
      end
  end
with scan_members (fuel : nat) (s : string) {struct fuel} : option (pydict * string) :=
  match fuel with
  | O => None
  | S fuel =>
      match strip_prefix (String quote EmptyString) s with
      | Some r0 =>
          '(k, r1) ← scan_string r0;
          match skip_ws r1 with
          | String ":" r2 =>
              '(v, r) ← scan_value fuel (skip_ws r2);
              match skip_ws r with
              | String "}" r' => Some ([(k, v)], r')
              | String "," r' => prod_map (cons (k, v)) id <$> scan_members fuel (skip_ws r')
              | _ => None
              end
          | _ => None
          end
      | None => None
      end
  end.

(** [json.loads(text)]; [None] is a [JSONDecodeError]. *)
Definition loads (text : string) : option pyval :=
  '(v, rest) ← scan_value (S (String.length text)) (skip_ws text);
  match skip_ws rest with EmptyString => Some v | _ => None end.
End text.

(** [raw.decode()]: UTF-8 of code points below 256; [None] is a
    [UnicodeDecodeError], or a text this development does not represent. *)
Fixpoint decode_utf8 (raw : string) : option string :=
  match raw with
  | EmptyString => Some ""
  | String c r =>
      if code c <? 128 then String c <$> decode_utf8 r
      else match r with
           | String d r' =>
               if bool_decide (code c ∈ [194; 195]) && in_range 128 191 d
               then String (ascii_of_N (Z.to_N ((code c - 194) * 64 + code d))) <$> decode_utf8 r' else None
           | EmptyString => None
           end
  end.

(** ** What a text reads back as *)

Definition key_text (kv : pyval * pyval) : string := match kv.1 with PyStr s => s | _ => "" end.

(** Tuples become lists, and [sort_keys] orders the items of dictionaries. *)
Fixpoint reread (sorted : bool) (v : pyval) : pyval :=
  match v with
  | PyList l | PyTuple l => PyList (reread sorted <$> l)
  | PyDict kvs =>
      let d := prod_map id (reread sorted) <$> kvs in
      PyDict (if sorted then sort_items key_text d else d)
  | _ => v
  end.

(** A text after which a number has ended *)
Definition number_end (rest : string) : bool :=
  match rest with
  | EmptyString => true
  | String c _ => negb (is_digit c) && negb (bool_decide (c ∈ ["."; "e"; "E"]%char))
  end.

(** The decimal text of a float is an ASCII JSON number that reads back as it. *)
Definition float_text_ok `{FloatText} (q : Q) : Prop :=
  isascii (float_repr q) = true ∧
  ∀ rest, number_end rest = true → scan_number (float_repr q +:+ rest) = Some (PyFloat (FFin q), rest).

Fixpoint floats (v : pyval) : list Q :=
  match v with
  | PyFloat (FFin q) => [q]
  | PyList l | PyTuple l => concat (floats <$> l)
  | PyDict kvs => concat ((λ kv, floats kv.2) <$> kvs)
  | _ => []
  end.

(** ** Lemmas *)

#[local] Arguments String.append !_ _ / : simpl nomatch.

Lemma app_assoc_s (a b c : string) : (a +:+ b) +:+ c = a +:+ (b +:+ c).
Proof. induction a as [|x a IH]; cbn; congruence. Qed.
Lemma app_length_s (a b : string) : String.length (a +:+ b) = (String.length a + String.length b)%nat.
Proof. induction a as [|x a IH]; cbn; congruence. Qed.

(** *** Strings *)

Lemma scan_escaped c X : scan_string (escape_char c +:+ X) = prod_map (String c) id <$> scan_string X.
Proof. destruct c as [[] [] [] [] [] [] [] []]; reflexivity. Qed.

Lemma scan_escape s rest : scan_string (escape s +:+ String quote rest) = Some (s, rest).
Proof.
  induction s as [|c s IH]; [reflexivity|]. cbn [escape]. rewrite app_assoc_s, scan_escaped, IH. reflexivity.
Qed.

Lemma scan_encoded s rest :
  strip_prefix (String quote EmptyString) (encode_string s +:+ rest) = Some (escape s +:+ String quote rest).
Proof. unfold encode_string. cbn. by rewrite app_assoc_s. Qed.

(** *** Numbers *)

Lemma span_digits_all s rest :
  string_forallb is_digit s = true → (match rest with String c _ => is_digit c | EmptyString => false end) = false →
  span_digits (s +:+ rest) = (s, rest).
Proof.
  intros Hs Hr. induction s as [|c s IH]; cbn in *.
  - destruct rest as [|c r]; [done|]. cbn. by rewrite Hr.
  - apply andb_true_iff in Hs as [-> Hs]. by rewrite IH.
Qed.

Lemma digits_of_uint d : string_forallb is_digit (NilEmpty.string_of_uint d) = true.
Proof. induction d; cbn; done. Qed.

Lemma number_end_digit rest :
  number_end rest = true → (match rest with String c _ => is_digit c | EmptyString => false end) = false.
Proof. destruct rest as [|c r]; [done|]. cbn. intros [H _]%andb_true_iff. by apply negb_true_iff in H. Qed.

Lemma number_end_rest rest : number_end rest = true → scan_fraction rest = ("", rest) ∧ scan_exponent rest = ("", rest).
Proof.
  destruct rest as [|c r]; [done|]. cbn. intros [_ H]%andb_true_iff. apply negb_true_iff, bool_decide_eq_false in H.
  split.
  - destruct c as [[] [] [] [] [] [] [] []]; try reflexivity. destruct H. left.
  - rewrite bool_decide_eq_false_2; [done|]. intros Hc. apply H. right. exact Hc.
Qed.

Lemma scan_uint u rest :
  (∃ u', u = Decimal.D0 u' ∧ u' = Decimal.Nil) ∨ (u ≠ Decimal.Nil ∧ ∀ u', u ≠ Decimal.D0 u') →
  number_end rest = true →
  scan_int_part (NilEmpty.string_of_uint u +:+ rest) = Some (NilEmpty.string_of_uint u, rest).
Proof.
  intros Hu Hr. unfold scan_int_part.
  rewrite (span_digits_all _ _ (digits_of_uint u) (number_end_digit _ Hr)).
  destruct Hu as [(? & -> & ->)|[Hnil H0]]; [reflexivity|].
  destruct u; try done. by destruct (H0 u).
Qed.

Lemma pos_digits p : Pos.to_uint p ≠ Decimal.Nil ∧ ∀ u', Pos.to_uint p ≠ Decimal.D0 u'.
Proof.
  assert (Hn : Decimal.unorm (Pos.to_uint p) = Pos.to_uint p).
  { pose proof (DecimalZ.to_of (Z.to_int (Z.pos p))) as H. rewrite DecimalZ.of_to in H. cbn in H. congruence. }
  split; [apply DecimalPos.Unsigned.to_uint_nonnil|]. intros u' Hu. rewrite Hu in Hn.
  unfold Decimal.unorm in Hn. destruct (Decimal.nzhead (Decimal.D0 u')) eqn:E; try discriminate.
  - injection Hn as <-. pose proof (DecimalPos.Unsigned.of_to p) as H. rewrite Hu in H. done.
  - by apply nzhead_nonzero in E.
Qed.

Lemma int_of_repr z : int_of_text (int_repr z) = Some z.
Proof.
  unfold int_of_text, int_repr. rewrite NilZero.isi; cbn.
  - by rewrite DecimalZ.of_to.
  - destruct z; cbn; [done| |done]. intros [= H]. by apply (proj1 (pos_digits p)).
  - destruct z; cbn; [done|done|]. intros [= H]. by apply (proj1 (pos_digits p)).
Qed.

Lemma string_of_uint_nonnil u : u ≠ Decimal.Nil → NilZero.string_of_uint u = NilEmpty.string_of_uint u.
Proof. by destruct u. Qed.

Lemma scan_int `{FloatText} z rest : number_end rest = true → scan_number (int_repr z +:+ rest) = Some (PyInt z, rest).
Proof.
  intros Hr. pose proof (number_end_rest _ Hr) as [Hf He].
  pose proof (int_of_repr z) as Hz.
  assert (Hu : ∀ sign u, int_repr z = sign +:+ NilEmpty.string_of_uint u → (sign = "" ∨ sign = "-") →
    (∃ u', u = Decimal.D0 u' ∧ u' = Decimal.Nil) ∨ (u ≠ Decimal.Nil ∧ ∀ u', u ≠ Decimal.D0 u') →
    scan_number (int_repr z +:+ rest) = Some (PyInt z, rest)).
  { intros sign u E Hs Hu. rewrite E in *. unfold scan_number.
    assert (Hsplit : (match (sign +:+ NilEmpty.string_of_uint u) +:+ rest with String "-" r => ("-", r)
                      | _ => ("", (sign +:+ NilEmpty.string_of_uint u) +:+ rest) end)
      = (sign, NilEmpty.string_of_uint u +:+ rest)).
    { destruct Hs as [-> | ->]; [|reflexivity]. destruct Hu as [(? & -> & ->)|[Hn _]]; [reflexivity|].
      by destruct u. }
    rewrite Hsplit. rewrite (scan_uint u rest Hu Hr). cbn. rewrite Hf. cbn. rewrite He. cbn. by rewrite Hz. }
  destruct z as [|p|p].
  - apply (Hu "" (Decimal.D0 Decimal.Nil)); [reflexivity|by left|by left; eexists].
  - apply (Hu "" (Pos.to_uint p)); [|by left|by right; apply pos_digits].
    cbn. by rewrite string_of_uint_nonnil by apply pos_digits.
  - apply (Hu "-" (Pos.to_uint p)); [|by right|by right; apply pos_digits].
    cbn. by rewrite string_of_uint_nonnil by apply pos_digits.
Qed.

(** A text that reads as a number is scanned as one. *)
Lemma scan_value_number `{FloatText} n s x : scan_number s = Some x → scan_value (S n) s = Some x.
Proof.
  intros Hs. cbn [scan_value]. destruct s as [|c r]; [done|].
  assert (Hc : c = "-"%char ∧ (∃ d r', r = String d r' ∧ is_digit d = true) ∨ is_digit c = true).
  { unfold scan_number in Hs. destruct (decide (c = "-"%char)) as [-> |Hne].
    - left. split; [done|]. unfold scan_int_part in Hs. destruct r as [|d r']; [done|]. cbn in Hs.
      destruct (is_digit d) eqn:Ed; [eauto|done].
    - right. destruct (is_digit c) eqn:Ec; [done|]. exfalso. unfold scan_int_part in Hs.
      assert (span_digits (String c r) = ("", String c r)) as E by (cbn; by rewrite Ec).
      destruct c as [[] [] [] [] [] [] [] []]; try (rewrite E in Hs; done); done. }
  destruct Hc as [(-> & d & r' & -> & Hd)|Hc].
  - destruct d as [[] [] [] [] [] [] [] []]; try discriminate Hd; exact Hs.
  - destruct c as [[] [] [] [] [] [] [] []]; try discriminate Hc; exact Hs.
Qed.

(** *** Sorting *)

Section sort_lemmas.
Context {A : Type} (key : A → string).

Lemma insert_item_perm x d : insert_item key x d ≡ₚ x :: d.
Proof.
  induction d as [|y d IH]; [done|]. cbn. case_match; [done|]. rewrite IH. constructor.
Qed.
Lemma sort_items_perm d : sort_items key d ≡ₚ d.
Proof. induction d as [|x d IH]; [done|]. cbn. rewrite insert_item_perm. by rewrite IH. Qed.

Lemma sort_items_map {B} (key' : B → string) (f : A → B) d :
  (∀ x, key' (f x) = key x) → sort_items key' (f <$> d) = f <$> sort_items key d.
Proof.
  intros Hf. induction d as [|x d IH]; [done|]. cbn. unfold sort_items in IH. rewrite IH.
  generalize (foldr (insert_item key) [] d). intros l. induction l as [|y l IHl]; [done|].
  cbn. rewrite !Hf. case_match; [done|]. cbn. by rewrite IHl.
Qed.

Lemma sort_items_Forall2 {B} (key' : B → string) (R : A → B → Prop) d d' :
  (∀ x y, R x y → key x = key' y) → Forall2 R d d' → Forall2 R (sort_items key d) (sort_items key' d').
Proof.
  intros HR. induction 1 as [|x y d d' Hxy _ IH]; [constructor|]. cbn. unfold sort_items in IH.
  revert IH. generalize (foldr (insert_item key) [] d), (foldr (insert_item key') [] d'). intros l l'.
  induction 1 as [|a b l l' Hab Hl IHl]; cbn; [by repeat constructor|].
  rewrite <- (HR _ _ Hxy), <- (HR _ _ Hab). case_match; by repeat constructor.
Qed.
End sort_lemmas.

(** *** Containers *)

Section roundtrip.
Context `{FloatText} (sorted : bool).

(** The text starts neither with white space nor with a closing bracket. *)
Definition head_ok (t : string) : bool :=
  match t with String c _ => negb (is_ws c) && negb (bool_decide (c = "]"%char)) | EmptyString => false end.

Definition text_reads (v : pyval) (t : string) : Prop :=
  head_ok t = true ∧
  ∀ n rest, (String.length t ≤ n)%nat → number_end rest = true → scan_value n (t +:+ rest) = Some (reread sorted v, rest).

Lemma skip_head t x : head_ok t = true → skip_ws (t +:+ x) = t +:+ x.
Proof. destruct t as [|c t]; [done|]. cbn. intros [Hc _]%andb_true_iff. apply negb_true_iff in Hc. by rewrite Hc. Qed.

Lemma text_reads_fixed v t :
  head_ok t = true → (∀ n rest, number_end rest = true → scan_value (S n) (t +:+ rest) = Some (reread sorted v, rest)) →
  text_reads v t.
Proof.
  intros Ht Hs. split; [done|]. intros [|n] rest Hn Hr; [|auto]. destruct t; [done|]. cbn in Hn. lia.
Qed.

Lemma scan_elements_texts l ts : Forall2 text_reads l ts → l ≠ [] → ∀ n rest,
  (String.length (String.concat ", " ts) < n)%nat →
  scan_elements n (String.concat ", " ts +:+ String "]" rest) = Some (reread sorted <$> l, rest).
Proof.
  induction 1 as [|v t l ts [Ht Hv] Hl IH]; [done|]. intros _ n rest Hn. destruct n as [|n]; [lia|].
  cbn [scan_elements]. destruct ts as [|t' ts].
  - cbn in *. inversion Hl; subst. rewrite Hv by (done || lia). done.
  - destruct l as [|v' l]; [inversion Hl|].
    change (String.concat ", " (t :: t' :: ts)) with (t +:+ ", " +:+ String.concat ", " (t' :: ts)) in *.
    rewrite !app_assoc_s in *. rewrite !app_length_s in Hn. cbn [String.length] in Hn.
    rewrite Hv by (done || lia). cbn [mbind option_bind].
    change (", " +:+ String.concat ", " (t' :: ts)) with (String "," (String " " (String.concat ", " (t' :: ts)))).
    cbn [String.append skip_ws]. change (is_ws ",") with false. cbv iota.
    change (skip_ws (String " " ?x)) with (skip_ws x).
    assert (Hh : head_ok (String.concat ", " (t' :: ts)) = true).
    { inversion Hl as [|? ? ? ? [Ht' _]]; subst. destruct t'; [done|]. destruct ts; done. }
    cbn [skip_ws]. change (is_ws " ") with true. cbv iota. rewrite (skip_head _ _ Hh).
    rewrite IH; [done|done|]. lia.
Qed.

Definition member_reads (kv : string * pyval) (kt : string * string) : Prop := kv.1 = kt.1 ∧ text_reads kv.2 kt.2.

Lemma member_head kt ts x : ∃ y, String.concat ", " (member_text <$> kt :: ts) +:+ x = String quote y.
Proof. destruct ts; cbn; eexists; reflexivity. Qed.

Lemma scan_members_texts d ts : Forall2 member_reads d ts → d ≠ [] → ∀ n rest,
  (String.length (String.concat ", " (member_text <$> ts)) < n)%nat →
  scan_members n (String.concat ", " (member_text <$> ts) +:+ String "}" rest)
  = Some (prod_map id (reread sorted) <$> d, rest).
Proof.
  induction 1 as [|[k v] [k' t] d ts [Hk [Ht Hv]] Hd IH]; [done|]. intros _ n rest Hn. cbn in Hk. subst k'.
  cbn [fst snd] in Ht, Hv.
  destruct n as [|n]; [lia|].
  assert (Hm : ∀ X, scan_members (S n) (member_text (k, t) +:+ X) =
    '(v', r) ← scan_value n (t +:+ X);
    match skip_ws r with
    | String "}" r' => Some ([(k, v')], r')
    | String "," r' => prod_map (cons (k, v')) id <$> scan_members n (skip_ws r')
    | _ => None
    end).
  { intros X. cbn [scan_members]. unfold member_text. cbn [fst snd]. rewrite !app_assoc_s, scan_encoded, scan_escape.
    cbn [mbind option_bind]. cbn [String.append skip_ws]. change (is_ws ":") with false. cbv iota.
    cbn [skip_ws]. change (is_ws " ") with true. cbv iota. by rewrite skip_head. }
  destruct ts as [|kt' ts].
  - inversion Hd; subst. cbn [fmap list_fmap String.concat] in *. rewrite Hm. unfold member_text in Hn.
    cbn [fst snd] in Hn. rewrite !app_length_s in Hn. cbn in *. rewrite Hv by (done || lia). done.
  - destruct d as [|kv' d]; [inversion Hd|].
    change (String.concat ", " (member_text <$> (k, t) :: kt' :: ts))
      with (member_text (k, t) +:+ ", " +:+ String.concat ", " (member_text <$> kt' :: ts)) in *.
    rewrite !app_assoc_s, Hm. unfold member_text at 1 in Hn. cbn [fst snd] in Hn.
    rewrite !app_length_s in Hn. cbn [String.length] in *. cbn in Ht. rewrite Hv by (done || lia).
    cbn [mbind option_bind String.append skip_ws]. change (is_ws ",") with false. cbv iota.
    cbn [skip_ws]. change (is_ws " ") with true. cbv iota.
    destruct (member_head kt' ts (String "}" rest)) as [y Hy].
    assert (skip_ws (String.concat ", " (member_text <$> kt' :: ts) +:+ String "}" rest)
      = String.concat ", " (member_text <$> kt' :: ts) +:+ String "}" rest) as ->.
    { rewrite Hy. reflexivity. }
    rewrite IH; [done|done|]. lia.
Qed.
End roundtrip.

(** *** The round trip *)

Lemma int_head z : head_ok (int_repr z) = true.
Proof.
  destruct z as [|p|p]; [done| |]; cbn; [|done].
  rewrite string_of_uint_nonnil by apply pos_digits. pose proof (proj1 (pos_digits p)).
  by destruct (Pos.to_uint p).
Qed.

Lemma float_head `{FloatText} q : float_text_ok q → head_ok (float_repr q) = true.
Proof.
  intros [_ Hq]. pose proof (Hq "" eq_refl) as Hs. destruct (float_repr q) as [|c r]; [done|].
  destruct c as [[] [] [] [] [] [] [] []]; try reflexivity; discriminate Hs.
Qed.

Lemma Forall_concat_map {A B} (P : B → Prop) (f : A → list B) l :
  Forall P (concat (f <$> l)) ↔ Forall (λ x, Forall P (f x)) l.
Proof. induction l as [|x l IH]; cbn; [done|]. rewrite Forall_app, Forall_cons. tauto. Qed.

Lemma dumps_items_ok f (d : pydict) ts :
  Forall2 (λ kv kt, kv.1 = kt.1 ∧ f kv.2 = Ok kt.2) d ts → dumps_items f (items_of d) = Ok ts.
Proof.
  induction 1 as [|[k v] [k' t] d ts [Hk Hv] _ IH]; [done|]. cbn in *. subst. rewrite Hv. cbn.
  unfold items_of in IH. by rewrite IH.
Qed.

Lemma reread_dict sorted (d : pydict) :
  reread sorted (str_dict d) = str_dict (prod_map id (reread sorted) <$> (if sorted then sort_items fst d else d)).
Proof.
  cbn. unfold str_dict. f_equal.
  assert (prod_map id (reread sorted) <$> (prod_map PyStr id <$> d)
    = prod_map PyStr id <$> (prod_map id (reread sorted) <$> d)) as ->.
  { rewrite <- !list_fmap_compose. apply list_fmap_ext. by intros ? []. }
  destruct sorted; [|done].
  rewrite (sort_items_map fst key_text (prod_map PyStr id)) by by intros [].
  by rewrite (sort_items_map fst fst (prod_map id (reread true))) by by intros [].
Qed.

Lemma dumps_reads `{FloatText} sorted v :
  plain v = true → Forall float_text_ok (floats v) → ∃ t, dumps sorted v = Ok t ∧ text_reads sorted v t.
Proof.
  unfold plain. induction v as [|[]|z|[q|[]|]|s|s t|l IH|l IH|kvs IH|kvs IH|r] using pyval_nested_ind;
    intros Hp Hf; try discriminate Hp.
  - exists "null". split; [done|]. apply text_reads_fixed; [done|]. intros n rest _. reflexivity.
  - exists "true". split; [done|]. apply text_reads_fixed; [done|]. intros n rest _. reflexivity.
  - exists "false". split; [done|]. apply text_reads_fixed; [done|]. intros n rest _. reflexivity.
  - exists (int_repr z). split; [done|]. apply text_reads_fixed; [apply int_head|]. intros n rest Hr.
    by apply scan_value_number, scan_int.
  - cbn in Hf. inversion_clear Hf as [|? ? Hq _]. exists (float_repr q). split; [done|].
    apply text_reads_fixed; [by apply float_head|]. intros n rest Hr. by apply scan_value_number, (proj2 Hq).
  - exists (encode_string s). split; [done|]. apply text_reads_fixed; [done|]. intros n rest Hr. cbn [scan_value].
    rewrite scan_encoded, scan_escape. done.
  - cbn in Hp, Hf. apply forallb_Forall in Hp. apply Forall_concat_map in Hf.
    assert (∃ ts, map_res (dumps sorted) l = Ok ts ∧ Forall2 (text_reads sorted) l ts) as (ts & Hd & Hts).
    { induction l as [|x l IHl]; [exists []; by split|]. inversion_clear IH as [|? ? Hx Hl].
      inversion_clear Hp. inversion_clear Hf. destruct Hx as (t & Ht & Hr); [done..|].
      destruct IHl as (ts & Hts & Hrs); [done..|]. exists (t :: ts). cbn. rewrite Ht, Hts. cbn. split; [done|by constructor]. }
    exists ("[" +:+ String.concat ", " ts +:+ "]"). cbn. rewrite Hd. split; [done|]. split; [done|].
    intros n rest Hn Hr. cbn in Hn. rewrite app_length_s in Hn. cbn in Hn. destruct n as [|n]; [lia|].
    cbn. rewrite app_assoc_s. cbn. destruct Hts as [|x t l ts [Hh Ht] Hl]; [done|].
    pose proof (scan_elements_texts sorted (x :: l) (t :: ts)) as Hse.
    specialize (Hse ltac:(constructor; [by split|done]) ltac:(done) n rest ltac:(lia)).
    assert (Hhead : head_ok (String.concat ", " (t :: ts)) = true) by (destruct t; [done|]; destruct ts; done).
    change (String.append "]" rest) with (String "]" rest).
    rewrite (skip_head _ _ Hhead). remember (String.concat ", " (t :: ts)) as text eqn:Etext. clear Etext.
    destruct text as [|c y]; [done|]. cbn [String.append] in Hse |- *. cbn in Hhead.
    apply andb_true_iff in Hhead as [_ Hc%negb_true_iff%bool_decide_eq_false].
    destruct c as [[] [] [] [] [] [] [] []]; try (rewrite Hse; reflexivity). by destruct Hc.
  - cbn in Hp, Hf. apply json_items_inv in Hp as (d & -> & Hnd & Hp). apply Forall_concat_map in Hf.
    assert (∃ ts, Forall2 (λ kv kt, kv.1 = kt.1 ∧ dumps sorted kv.2 = Ok kt.2) d ts ∧
      Forall2 (member_reads sorted) d ts) as (ts & Hd & Hts).
    { clear Hnd. induction d as [|[k x] d IHd]; [exists []; by split|]. inversion_clear IH as [|? ? Hx Hl].
      inversion_clear Hp. inversion_clear Hf. destruct Hx as (t & Ht & Hr); [done..|].
      destruct IHd as (ts & Hts & Hrs); [done..|]. exists ((k, t) :: ts). split; by constructor. }
    set (order := λ A (key : A → string) d, if sorted then sort_items key d else d).
    exists ("{" +:+ String.concat ", " (member_text <$> order _ fst ts) +:+ "}"). cbn [dumps].
    rewrite (dumps_items_ok _ _ _ Hd). cbn [mbind result_bind]. split; [done|]. split; [done|].
    assert (Hts' : Forall2 (member_reads sorted) (order _ fst d) (order _ fst ts)).
    { unfold order. destruct sorted; [|done]. apply sort_items_Forall2; [|done]. by intros x y [? _]. }
    assert (Hperm : order _ fst d ≡ₚ d) by (unfold order; destruct sorted; [apply sort_items_perm|done]).
    pose proof (reread_dict sorted d) as Hre. change (reread sorted (PyDict (items_of d)) = str_dict (prod_map id (reread sorted) <$> order _ fst d)) in Hre.
    rewrite Hre. clear Hre. intros n rest Hn Hr. cbn in Hn. rewrite app_length_s in Hn. cbn in Hn.
    destruct n as [|n]; [lia|]. cbn. rewrite app_assoc_s. cbn.
    assert (Hnd' : NoDup (prod_map id (reread sorted) <$> order _ fst d).*1).
    { rewrite <- list_fmap_compose. erewrite list_fmap_ext; [|by intros ? []; reflexivity]. by rewrite Hperm. }
    destruct (order _ fst d) as [|kv d'] eqn:Ed; [by inversion Hts'; subst|].
    destruct (order _ fst ts) as [|kt ts'] eqn:Et; [inversion Hts'|].
    pose proof (scan_members_texts sorted (kv :: d') (kt :: ts') Hts' ltac:(done) n rest ltac:(lia)) as Hsm.
    destruct (member_head kt ts' (String "}" rest)) as [y Hy].
    change (String.append "}" rest) with (String "}" rest). rewrite Hy in Hsm |- *.
    change (skip_ws (String quote y)) with (String quote y). unfold quote in *. cbn. cbn in Hsm. rewrite Hsm. cbn.
    pose proof (dict_merge_nil _ Hnd') as Hmerge. cbn in Hmerge. by rewrite Hmerge.
Qed.

Lemma string_app_nil_r t : t +:+ "" = t.
Proof. induction t as [|c t IH]; cbn; [done|by rewrite IH]. Qed.

Lemma reread_plain v : plain v = true → reread false v = v.
Proof.
  unfold plain. induction v as [| | | | |s t|l IH|l IH|kvs IH|kvs IH|r] using pyval_nested_ind; intros Hp; try done.
  - cbn in *. f_equal. apply forallb_Forall in Hp. induction l as [|x l IHl]; [done|]. inversion_clear IH.
    inversion_clear Hp. cbn. f_equal; auto.
  - cbn in *. f_equal. apply andb_true_iff in Hp as [_ Hp]. apply forallb_Forall in Hp.
    induction kvs as [|[k x] l IHl]; [done|]. inversion_clear IH. inversion_clear Hp. cbn in *.
    f_equal; [f_equal|]; auto.
Qed.

(** *** Texts are ASCII *)

Lemma isascii_app a b : isascii (a +:+ b) = isascii a && isascii b.
Proof. unfold isascii. induction a as [|c a IH]; [done|]. cbn. rewrite IH. by rewrite andb_assoc. Qed.

Lemma isascii_escape s : isascii (escape s) = true.
Proof.
  induction s as [|c s IH]; [done|]. cbn [escape]. rewrite isascii_app, IH, andb_true_r.
  by destruct c as [[] [] [] [] [] [] [] []].
Qed.

Lemma isascii_encoded s : isascii (encode_string s) = true.
Proof.
  unfold encode_string. change (isascii (escape s +:+ String quote "") = true).
  by rewrite isascii_app, isascii_escape.
Qed.

Lemma isascii_int z : isascii (int_repr z) = true.
Proof.
  assert (H : ∀ u, isascii (NilEmpty.string_of_uint u) = true) by (induction u; done).
  destruct z as [|p|p]; [done| |]; cbn; rewrite string_of_uint_nonnil by apply pos_digits; apply H.
Qed.

Lemma isascii_concat ts : Forall (λ t, isascii t = true) ts → isascii (String.concat ", " ts) = true.
Proof.
  induction 1 as [|t ts Ht Hts IH]; [done|]. destruct ts as [|t' ts]; [done|].
  change (String.concat ", " (t :: t' :: ts)) with (t +:+ ", " +:+ String.concat ", " (t' :: ts)).
  by rewrite !isascii_app, Ht, IH.
Qed.

Lemma dumps_items_inv f kvs ts : dumps_items f kvs = Ok ts →
  ∃ d, kvs = items_of d ∧ Forall2 (λ kv kt, kv.1 = kt.1 ∧ f kv.2 = Ok kt.2) d ts.
Proof.
  revert ts. induction kvs as [|[k v] kvs IH]; intros ts E; cbn in E.
  - injection E as <-. exists []. by split.
  - destruct k; try discriminate E. inv_ok. destruct (IH _ H0) as (d & -> & Hd).
    exists ((s, v) :: d). split; [done|]. constructor; [by split|done].
Qed.

Lemma dumps_ascii `{FloatText} sorted v : ∀ t,
  Forall float_text_ok (floats v) → dumps sorted v = Ok t → isascii t = true.
Proof.
  induction v as [|[]|z|[q|[]|]|s|s t'|l IH|l IH|kvs IH|kvs IH|r] using pyval_nested_ind; intros t Hf E; cbn in E, Hf;
    try (injection E as <-; try reflexivity); try discriminate E.
  - apply isascii_int.
  - inversion_clear Hf as [|? ? Hq _]. apply Hq.
  - apply isascii_encoded.
  - inv_ok. apply map_res_ok in H0. change (isascii (String ?c ?s)) with (isascii s). rewrite isascii_app. cbn. rewrite andb_true_r. apply isascii_concat.
    apply Forall_concat_map in Hf.
    induction H0 as [|x y l ts Hx _ IHl]; [constructor|]. inversion_clear IH. inversion_clear Hf. constructor; eauto.
  - inv_ok. apply map_res_ok in H0. change (isascii (String ?c ?s)) with (isascii s). rewrite isascii_app. cbn. rewrite andb_true_r. apply isascii_concat.
    apply Forall_concat_map in Hf.
    induction H0 as [|x y l ts Hx _ IHl]; [constructor|]. inversion_clear IH. inversion_clear Hf. constructor; eauto.
  - inv_ok. apply dumps_items_inv in H0 as (d & -> & Hd). rename x into a. change (isascii (String ?c ?s)) with (isascii s). rewrite isascii_app. cbn. rewrite andb_true_r.
    apply isascii_concat. apply Forall_concat_map in Hf.
    assert (Hts : Forall (λ t, isascii t = true) (member_text <$> a)).
    { induction Hd as [|[k x] [k' y] d ts [Hk Hx] _ IHd]; [constructor|]. inversion_clear IH. inversion_clear Hf.
      cbn in Hk. subst k'. constructor; [|auto]. change (isascii (encode_string k +:+ (": " +:+ y)) = true).
      rewrite isascii_app, isascii_encoded. cbn in *. change (isascii y = true). eauto. }
    destruct sorted; [|done]. revert Hts. apply Forall_Permutation; [done|].
    apply fmap_Permutation. first [apply sort_items_perm|symmetry; apply sort_items_perm].
Qed.

Lemma dumps_loads `{FloatText} sorted v : plain v = true → Forall float_text_ok (floats v) →
  ∃ t, dumps sorted v = Ok t ∧ isascii t = true ∧ loads t = Some (reread sorted v).
Proof.
  intros Hp Hf. destruct (dumps_reads sorted v Hp Hf) as (t & Ht & Hh & Hr). exists t. split_and!; [done| |].
  - by apply (dumps_ascii sorted v).
  - unfold loads. rewrite <- (string_app_nil_r t) at 2. rewrite skip_head by done.
    rewrite Hr by (done || lia). done.
Qed.

(** ** Properties *)

(** [json.dumps] writes every plain JSON value - any nesting, any string of
    code points below 256, any integer - as an ASCII text, and [json.loads] of
    that text, which is read in full, gives the value back: exactly, or with
    the items of each dictionary in key order when the keys were sorted. *)
Theorem loads_dumps `{FloatText} (sorted : bool) (v : pyval) :
  plain v = true → Forall float_text_ok (floats v) →
  ∃ t, dumps sorted v = Ok t ∧ isascii t = true ∧ loads t = Some (reread sorted v) ∧
       (sorted = false → reread sorted v = v).
Proof.
  intros Hp Hf. destruct (dumps_loads sorted v Hp Hf) as (t & Ht & Ha & Hl). exists t. split_and!; [done..|].
  intros ->. by apply reread_plain.
Qed.

(** A text for floats that are whole numbers *)
#[local] Instance whole_text : FloatText :=
  {| float_repr q := int_repr (Qnum q) +:+ ".0"; float_of_text _ := FFin (3 # 1) |}.

Definition sample_state : pyval :=
  str_dict [("title", PyStr (String "c" (String "a" (String "f" (String "233" EmptyString))))); ("n", PyInt (-120)); ("flags", PyList [PyBool true; PyNone; PyFloat (FFin (3 # 1))]);
            ("empty", str_dict [])].

Lemma loads_dumps_witness :
  dumps true sample_state = Ok (String.concat (String quote "")
    ["{"; "empty"; ": {}, "; "flags"; ": [true, null, 3.0], "; "n"; ": -120, "; "title"; ": "; "caf\u00e9"; "}"]) ∧
  ∃ t, dumps true sample_state = Ok t ∧ isascii t = true ∧ loads t = Some (reread true sample_state).
Proof.
  split; [vm_compute; reflexivity|].
  assert (Hf : Forall float_text_ok (floats sample_state)).
  { constructor; [|constructor]. split; [reflexivity|]. intros rest Hr.
    unfold float_repr, whole_text. change (int_repr (Qnum (3 # 1)) +:+ ".0") with "3.0".
    destruct rest as [|c r]; [reflexivity|].
    destruct c as [[] [] [] [] [] [] [] []]; try discriminate Hr; reflexivity. }
  destruct (loads_dumps true sample_state eq_refl Hf) as (t & Ht & Ha & Hl & _). exists t. split; [exact Ht|]. split; [exact Ha|exact Hl].
Defined.
