(* ===== verification/Uris.v ===== *)
(** * Displayable URIs

    [sanitize_uri] of [_uri.py], which strips the user information and the
    sensitive query values of a URI before it is logged, shown or compared.
    The percent coding of [urllib.parse] goes through UTF-8 and is the
    parameter [QueryText]. *)
From Stdlib Require Import Ascii ZArith Lia DecimalString.
From stdpp Require Import strings.
From S2P Require Import Prelude PyVal Urls JsonText.
Local Open Scope Z_scope.
Local Open Scope py_scope.

(** [unquote(text.replace("+", " "))] and [quote_plus(text, safe="*")] *)
Class QueryText := { unquote_plus : string → string; quote_plus : string → string }.

(** ** The host and the port of a split URL *)

(** [SplitResult._hostinfo] *)
Definition hostinfo (p : SplitResult) : string * option string :=
  let host_text := (rpartition "@" (netloc p)).2 in
  match partition "[" host_text with
  | (_, Some bracketed) =>
      let '(host, rest) := partition "]" bracketed in (host, (partition ":" (or_empty rest)).2)
  | (_, None) => partition ":" host_text
  end.

(** [parsed.hostname] *)
Definition hostname (p : SplitResult) : option string :=
  let host := (hostinfo p).1 in
  if str_nonempty host then
    match partition "%" host with
    | (h, Some zone) => Some (str_lower h +:+ "%" +:+ zone)
    | (h, None) => Some (str_lower h)
    end
  else None.

(** [parsed.port], which raises when it is no number up to 65535 *)
Definition port (p : SplitResult) : result (option Z) :=
  match (hostinfo p).2 with
  | Some text =>
      if str_nonempty text then
        raise_if (negb (string_forallb is_digit text)) (err ValueError "Port could not be cast to integer value");;
        let n := Z.of_uint (default Decimal.Nil (DecimalString.NilEmpty.uint_of_string text)) in
        raise_if (65535 <? n) (err ValueError "Port out of range 0-65535");;
        Ok (Some n)
      else Ok None
  | None => Ok None
  end.

(** ** sanitize_uri *)

Definition _SENSITIVE_QUERY_KEYS : list string :=
  ["api_key"; "apikey"; "token"; "access_token"; "refresh_token"; "secret"; "signature"; "credential"; "password";
   "x-api-key"; "x-api-token"; "x-auth-token"; "sig"; "x-amz-signature"; "x-amz-credential"; "x-amz-security-token";
   "x-goog-signature"; "x-goog-credential"].
Definition _REDACTED : string := "***".

Definition _netloc_without_userinfo (parts : SplitResult) : string :=
  match hostname parts with
  | None => (rpartition "@" (netloc parts)).2
  | Some host =>
      let host := if has_char ":" host then "[" +:+ host +:+ "]" else host in
      match port parts with
      | Ok (Some n) => host +:+ ":" +:+ int_repr n
      | Ok None | Raise _ => host
      end
  end.

(** The pieces of [text.split("&")], without the empty ones. *)
Fixpoint split_fields (acc : string) (text : string) : list string :=
  match text with
  | EmptyString => if str_nonempty acc then [acc] else []
  | String c r =>
      if bool_decide (c = "&"%char) then (if str_nonempty acc then [acc] else []) ++ split_fields "" r
      else split_fields (acc +:+ String c "") r
  end.

Section query.
Context `{QueryText}.

(** [parse_qsl(query, keep_blank_values=True)], which raises only when it is
    given a limit or asked to be strict. *)
Definition parse_qsl (query : string) : list (string * string) :=
  (λ piece, let '(name, value) := partition "=" piece in (unquote_plus name, unquote_plus (or_empty value)))
    <$> split_fields "" query.

(** [urlencode(pairs, doseq=True, safe="*")] for string values *)
Definition urlencode (pairs : list (string * string)) : string :=
  String.concat "&" ((λ kv, quote_plus kv.1 +:+ "=" +:+ quote_plus kv.2) <$> pairs).

Definition is_sensitive (name : string) : bool := bool_decide (str_lower name ∈ _SENSITIVE_QUERY_KEYS).
Definition redact_pair (kv : string * string) : string * string :=
  (kv.1, if is_sensitive kv.1 then _REDACTED else kv.2).

Definition _redacted_query (query : string) : string :=
  if str_nonempty query then urlencode (redact_pair <$> parse_qsl query) else "".

(** [uses_netloc] of [urllib.parse] *)
Definition uses_netloc : list string :=
  [""; "ftp"; "http"; "gopher"; "nntp"; "telnet"; "imap"; "wais"; "file"; "mms"; "https"; "shttp"; "snews";
   "prospero"; "rtsp"; "rtsps"; "rtspu"; "rsync"; "svn"; "svn+ssh"; "sftp"; "nfs"; "git"; "git+ssh"; "ws"; "wss";
   "itms-services"].

(** [urlunsplit((scheme, netloc, path, query, fragment))] *)
Definition urlunsplit (scheme netloc path query fragment : string) : string :=
  let url :=
    if str_nonempty netloc then
      "//" +:+ netloc +:+ (if str_nonempty path && negb (starts_with "/" path) then "/" +:+ path else path)
    else if starts_with "//" path then "//" +:+ path
    else if str_nonempty scheme && bool_decide (scheme ∈ uses_netloc) &&
            (negb (str_nonempty path) || starts_with "/" path) then "//" +:+ path
    else path in
  let url := if str_nonempty scheme then scheme +:+ ":" +:+ url else url in
  let url := if str_nonempty query then url +:+ "?" +:+ query else url in
  if str_nonempty fragment then url +:+ "#" +:+ fragment else url.

Definition sanitize_uri `{IpLiterals} (uri : string) : string :=
  match urlsplit uri with
  | Raise _ => uri
  | Ok parts =>
      if negb (str_nonempty (scheme parts)) then uri
      else urlunsplit (scheme parts) (_netloc_without_userinfo parts) (url_path parts)
             (_redacted_query (url_query parts)) (url_fragment parts)
  end.
End query.

(** ** Properties *)

(** What is left of a split URL once its secrets are set aside: the netloc
    after the user information, and the query with the values of sensitive
    names dropped. *)
Definition public_part `{QueryText} (p : SplitResult) :=
  (scheme p, (rpartition "@" (netloc p)).2, url_path p, url_fragment p,
   str_nonempty (url_query p),
   (λ kv, (kv.1, if is_sensitive kv.1 then None else Some kv.2)) <$> parse_qsl (url_query p)).

Lemma hostinfo_public p q : (rpartition "@" (netloc p)).2 = (rpartition "@" (netloc q)).2 → hostinfo p = hostinfo q.
Proof. unfold hostinfo. by intros ->. Qed.

Lemma netloc_public p q :
  (rpartition "@" (netloc p)).2 = (rpartition "@" (netloc q)).2 →
  _netloc_without_userinfo p = _netloc_without_userinfo q.
Proof.
  intros E. pose proof (hostinfo_public _ _ E) as Hi. unfold _netloc_without_userinfo, hostname, port. by rewrite Hi, E.
Qed.

Lemma redacted_public (l l' : list (string * string)) :
  (λ kv, (kv.1, if is_sensitive kv.1 then None else Some kv.2)) <$> l
    = (λ kv, (kv.1, if is_sensitive kv.1 then None else Some kv.2)) <$> l' →
  redact_pair <$> l = redact_pair <$> l'.
Proof.
  revert l'. induction l as [|[k v] l IH]; intros [|[k' v'] l'] E; try done. cbn in *.
  injection E as -> Hv Hl. f_equal; [|by apply IH]. unfold redact_pair. cbn.
  destruct (is_sensitive k'); [done|]. by injection Hv as ->.
Qed.

(** C39: [sanitize_uri] reveals nothing of the credentials of a URI that
    [urlsplit] accepts: two such URIs with a scheme that differ only in their
    user information and in the values of sensitive query parameters have the
    same [sanitize_uri].  The condition is needed: a URI that [urlsplit]
    refuses is displayed as it is, with its credentials
    ([sanitize_uri_unparsed]). *)
Theorem sanitize_uri_noninterference `{QueryText, IpLiterals} (u v : string) (p q : SplitResult) :
  urlsplit u = Ok p → urlsplit v = Ok q → scheme p ≠ "" → public_part p = public_part q →
  sanitize_uri u = sanitize_uri v.
Proof.
  intros Hu Hv Hs Hpq. unfold sanitize_uri. rewrite Hu, Hv. unfold public_part in Hpq.
  injection Hpq as E1 E2 E3 E4 E5 E6. rewrite <- E1. apply str_nonempty_true in Hs. rewrite Hs. cbn.
  rewrite (netloc_public _ _ E2), E3, E4. f_equal. unfold _redacted_query. rewrite E5.
  destruct (str_nonempty (url_query q)); [|done]. by rewrite (redacted_public _ _ E6).
Qed.

#[local] Instance sample_query : QueryText := {| unquote_plus s := s; quote_plus s := s |}.
#[local] Instance sample_ips : IpLiterals := λ _, false.

Lemma sanitize_uri_noninterference_witness :
  sanitize_uri "https://ann:pw@data.example.org:8443/x?q=air&token=t1" = "https://data.example.org:8443/x?q=air&token=***" ∧
  sanitize_uri "https://ann:pw@data.example.org:8443/x?q=air&token=t1"
    = sanitize_uri "https://bob@data.example.org:8443/x?q=air&token=other".
Proof.
  split; [vm_compute; reflexivity|]. eapply sanitize_uri_noninterference; [vm_compute; reflexivity|vm_compute; reflexivity| |].
  - discriminate.
  - vm_compute. reflexivity.
Defined.

(** A URI that [urlsplit] refuses is displayed as it is, with its credentials. *)
Lemma sanitize_uri_unparsed : sanitize_uri "https://ann:pw@[::1/x" = "https://ann:pw@[::1/x".
Proof. vm_compute. reflexivity. Qed.
