(* ===== verification/Artifact.v ===== *)
(** * Artifacts

    The schema-v1 materialization envelope: [Digest], [ArtifactProvenance] and
    [Artifact] of [domain/artifact.py], with the direct locator of
    [application.py] that a provenance carries.  Calendar dates are the
    parameter [DateTimes]. *)
From Stdlib Require Import ZArith Lia Ascii.
From stdpp Require Import strings.
From S2P Require Import Prelude PyVal Regex Urls Json JsonText Uris.
Local Open Scope Z_scope.
Local Open Scope py_scope.

(** [datetime]: [fromisoformat] ([None] is a [ValueError]), whether [tzinfo] is
    set, [astimezone(UTC)] and the [isoformat] of a UTC date. *)
Class DateTimes := {
  datetime : Type;
  fromisoformat : string → option datetime;
  has_tzinfo : datetime → bool;
  astimezone_utc : datetime → datetime;
  isoformat : datetime → string
}.

(** [s.replace(old, new)] for an [old] that is not empty *)
Fixpoint replace_from (skip : nat) (old new s : string) : string :=
  match s with
  | EmptyString => ""
  | String c r =>
      match skip with
      | S n => replace_from n old new r
      | O => if starts_with old s then new +:+ replace_from (String.length old - 1) old new r
             else String c (replace_from 0 old new r)
      end
  end.
Definition str_replace (old new s : string) : string := replace_from 0 old new s.

(** ** Envelopes with their own contract error *)

Definition keyed_dict (error : string → exn) (path : string) (keys : list string) (value : pyval) : result pydict :=
  data ← object_dict value path error;
  raise_if (negb (keys_are data keys)) (error path);;
  Ok data.

Definition tagged_dict (error : string → exn) (path kind : string) (keys : list string) (value : pyval)
  : result pydict :=
  data ← keyed_dict error path keys value;
  version ← field data "schema_version";
  k ← field data "kind";
  raise_if (negb (py_eq_int version 1) || negb (type_is_int version) || negb (py_eq_str k kind)) (error path);;
  Ok data.

(** [_freeze_json(value, path)] that must be a mapping *)
Definition freeze_mapping (error : string → exn) (value : pyval) (path : string) : result pydict :=
  frozen ← _freeze_json error value path;
  match frozen with PyProxy kvs => copy_entries (error path) (λ _ v, Ok v) kvs [] | _ => Raise (error path) end.

(** ** Digest *)

Record Digest := { algorithm : string; digest_value : string }.

Definition make_digest (algo value : string) : result Digest :=
  raise_if (negb (bool_decide (algo = "sha256")) || negb (_is_sha256 (PyStr value))) (artifact_contract_error "digest");;
  Ok {| algorithm := algo; digest_value := value |}.

Definition _DIGEST_KEYS : list string := ["algorithm"; "value"].

Definition digest_to_dict (d : Digest) : pyval :=
  str_dict [("algorithm", PyStr (algorithm d)); ("value", PyStr (digest_value d))].

Definition digest_from_dict (value : pyval) : result Digest :=
  data ← keyed_dict artifact_contract_error "digest" _DIGEST_KEYS value;
  v ← field data "algorithm"; algo ← as_str (artifact_contract_error "digest") v;
  v ← field data "value"; digest ← as_str (artifact_contract_error "digest") v;
  make_digest algo digest.

(** ** DirectResourceLocator *)

Definition locator_contract_error (path : string) : exn :=
  err DataSluiceError ("Invalid schema-v1 resource locator at " +:+ path).

Definition _OBJECT_STORAGE_SCHEMES : list string := ["s3"; "gs"; "gcs"; "az"; "azure"; "abfs"].

(** [PureWindowsPath(value).is_absolute()] of a text that has a URL scheme,
    which is no UNC path: a drive and a root *)
Definition is_drive_absolute (value : string) : bool :=
  match value with
  | String _ (String ":" (String sep _)) => bool_decide (sep ∈ ["\"; "/"]%char)
  | _ => false
  end.

Definition _validate_uri `{IpLiterals} (value : pyval) (path : string) : result string :=
  match value with
  | PyStr value =>
      raise_if (negb (str_nonempty value)) (locator_contract_error path);;
      parts ← match urlsplit value with
              | Raise e => if is_subclass (exn_kind e) ValueError then Raise (locator_contract_error path) else Raise e
              | Ok p => Ok p
              end;
      raise_if (bool_decide (is_Some (username parts)) || bool_decide (is_Some (password parts)))
        (locator_contract_error path);;
      raise_if (str_nonempty (scheme parts) &&
                negb (bool_decide (scheme parts ∈ ["file"; "http"; "https"] ++ _OBJECT_STORAGE_SCHEMES)) &&
                negb (is_drive_absolute value)) (locator_contract_error path);;
      Ok value
  | _ => Raise (locator_contract_error path)
  end.

Record DirectResourceLocator := {
  loc_uri : string; loc_format : option string; loc_media_type : option string; loc_extensions : pydict
}.

Definition make_locator `{IpLiterals} (uri : string) (format media_type : option string) (extensions : pyval)
  : result DirectResourceLocator :=
  _validate_uri (PyStr uri) "uri";;
  exts ← _freeze_extensions artifact_contract_error extensions;
  Ok {| loc_uri := uri; loc_format := format; loc_media_type := media_type; loc_extensions := exts |}.

Definition _DIRECT_LOCATOR_KEYS : list string :=
  ["schema_version"; "kind"; "uri"; "format"; "media_type"; "extensions"].

Definition locator_to_dict `{IpLiterals, QueryText} (l : DirectResourceLocator) : pyval :=
  str_dict [("schema_version", PyInt 1); ("kind", PyStr "direct"); ("uri", PyStr (sanitize_uri (loc_uri l)));
            ("format", opt_str (loc_format l)); ("media_type", opt_str (loc_media_type l));
            ("extensions", _thaw_json (PyProxy (items_of (loc_extensions l))))].

(** [isinstance(v, str) or v is None] *)
Definition as_opt_str (e : exn) (v : pyval) : result (option string) :=
  match v with PyNone => Ok None | PyStr s => Ok (Some s) | _ => Raise e end.

Definition locator_from_dict `{IpLiterals} (value : pyval) : result DirectResourceLocator :=
  data ← tagged_dict locator_contract_error "direct" "direct" _DIRECT_LOCATOR_KEYS value;
  v ← field data "uri"; uri ← as_str (locator_contract_error "direct") v;
  v ← field data "format"; format ← as_opt_str (locator_contract_error "direct") v;
  v ← field data "media_type"; media_type ← as_opt_str (locator_contract_error "direct") v;
  v ← field data "extensions"; extensions ← object_dict v "extensions" locator_contract_error;
  make_locator uri format media_type (str_dict extensions).

Definition resource_locator_from_dict `{IpLiterals} (value : pyval) : result DirectResourceLocator :=
  data ← object_dict value "locator" locator_contract_error;
  if py_eq_str (default PyNone (dict_get "kind" data)) "direct" then locator_from_dict (str_dict data)
  else Raise (locator_contract_error "kind").

(** ** ArtifactProvenance *)

Section artifact.
Context `{IpLiterals, QueryText, DateTimes}.

Record ArtifactProvenance := {
  source_locator : DirectResourceLocator; resource_identity : string; created_at : datetime;
  materialization_mode : string; transforms : list string
}.

Definition make_provenance (p : ArtifactProvenance) : result ArtifactProvenance :=
  raise_if (negb (_is_sha256 (PyStr (resource_identity p)))) (artifact_contract_error "provenance");;
  raise_if (negb (has_tzinfo (created_at p))) (artifact_contract_error "provenance.created_at");;
  raise_if (negb (bool_decide (materialization_mode p ∈ ["parquet"; "raw"])))
    (artifact_contract_error "provenance.materialization_mode");;
  Ok p.

Definition _PROVENANCE_KEYS : list string :=
  ["source_locator"; "resource_identity"; "created_at"; "materialization_mode"; "transforms"].

(** [self.created_at.astimezone(UTC).isoformat().replace("+00:00", "Z")] *)
Definition created_text (d : datetime) : string := str_replace "+00:00" "Z" (isoformat (astimezone_utc d)).

Definition provenance_to_dict (p : ArtifactProvenance) : pyval :=
  str_dict [("source_locator", locator_to_dict (source_locator p)); ("resource_identity", PyStr (resource_identity p));
            ("created_at", PyStr (created_text (created_at p)));
            ("materialization_mode", PyStr (materialization_mode p));
            ("transforms", PyList (PyStr <$> transforms p))].

Definition provenance_from_dict (value : pyval) : result ArtifactProvenance :=
  data ← keyed_dict artifact_contract_error "provenance" _PROVENANCE_KEYS value;
  source ← field data "source_locator";
  v ← field data "resource_identity"; identity ← as_str (artifact_contract_error "provenance") v;
  v ← field data "created_at"; created ← as_str (artifact_contract_error "provenance") v;
  v ← field data "materialization_mode"; mode ← as_str (artifact_contract_error "provenance") v;
  v ← field data "transforms"; l ← as_list (artifact_contract_error "provenance") v;
  trs ← map_res (as_str (artifact_contract_error "provenance")) l;
  date ← match fromisoformat (str_replace "Z" "+00:00" created) with
         | None => Raise (artifact_contract_error "provenance.created_at")
         | Some d => Ok d
         end;
  raise_if (negb (has_tzinfo date)) (artifact_contract_error "provenance.created_at");;
  located ← object_dict source "provenance.source_locator" artifact_contract_error;
  locator ← resource_locator_from_dict (str_dict located);
  make_provenance {| source_locator := locator; resource_identity := identity; created_at := date;
                     materialization_mode := mode; transforms := trs |}.

(** ** Artifact *)

Definition _public_uri (value : string) (path : string) : result string :=
  raise_if (negb (str_nonempty value)) (artifact_contract_error path);;
  parts ← match urlsplit value with
          | Raise e => if is_subclass (exn_kind e) ValueError then Raise (artifact_contract_error path) else Raise e
          | Ok p => Ok p
          end;
  raise_if (bool_decide (is_Some (username parts)) || bool_decide (is_Some (password parts)) ||
            negb (bool_decide (sanitize_uri value = value))) (artifact_contract_error path);;
  Ok value.

Record Artifact := {
  uri : string; media_type : string; size : Z; content_digest : Digest; blob_digest : Digest;
  provenance : ArtifactProvenance; metadata : pydict; extensions : pydict
}.

Definition make_artifact (uri media_type : string) (size : Z) (content blob : Digest) (prov : ArtifactProvenance)
    (metadata extensions : pyval) : result Artifact :=
  _public_uri uri "uri";;
  raise_if (negb (str_nonempty media_type)) (artifact_contract_error "media_type");;
  raise_if (size <? 0) (artifact_contract_error "size");;
  md ← freeze_mapping artifact_contract_error metadata "metadata";
  exts ← _freeze_extensions artifact_contract_error extensions;
  Ok {| uri := uri; media_type := media_type; size := size; content_digest := content; blob_digest := blob;
        provenance := prov; metadata := md; extensions := exts |}.

Definition _ARTIFACT_KEYS : list string :=
  ["schema_version"; "kind"; "uri"; "media_type"; "size"; "content_digest"; "blob_digest"; "provenance"; "metadata";
   "extensions"].

Definition artifact_to_dict (a : Artifact) : pyval :=
  str_dict [("schema_version", PyInt 1); ("kind", PyStr "artifact"); ("uri", PyStr (uri a));
            ("media_type", PyStr (media_type a)); ("size", PyInt (size a));
            ("content_digest", digest_to_dict (content_digest a)); ("blob_digest", digest_to_dict (blob_digest a));
            ("provenance", provenance_to_dict (provenance a));
            ("metadata", _thaw_json (PyProxy (items_of (metadata a))));
            ("extensions", _thaw_json (PyProxy (items_of (extensions a))))].

Definition artifact_from_dict (value : pyval) : result Artifact :=
  data ← tagged_dict artifact_contract_error "artifact" "artifact" _ARTIFACT_KEYS value;
  v ← field data "uri"; u ← as_str (artifact_contract_error "artifact") v;
  v ← field data "media_type"; mt ← as_str (artifact_contract_error "artifact") v;
  v ← field data "size"; sz ← as_int (artifact_contract_error "artifact") v;
  v ← field data "content_digest"; content ← digest_from_dict v;
  v ← field data "blob_digest"; blob ← digest_from_dict v;
  v ← field data "provenance"; prov ← provenance_from_dict v;
  v ← field data "metadata"; md ← object_dict v "metadata" artifact_contract_error;
  v ← field data "extensions"; exts ← object_dict v "extensions" artifact_contract_error;
  make_artifact u mt sz content blob prov (str_dict md) (str_dict exts).
End artifact.

(** ** Lemmas *)

Lemma object_dict_literal d path error : NoDup d.*1 → object_dict (str_dict d) path error = Ok d.
Proof.
  intros Hnd. cbn. change (prod_map PyStr id <$> d) with (items_of d). by apply copy_entries_id.
Qed.

Lemma keyed_literal error path keys d :
  NoDup d.*1 → keys_are d keys = true → keyed_dict error path keys (str_dict d) = Ok d.
Proof. intros Hnd Hk. unfold keyed_dict. rewrite object_dict_literal by done. cbn. by rewrite Hk. Qed.

Lemma tagged_literal error path kind keys d :
  NoDup d.*1 → keys_are d keys = true →
  dict_get "schema_version" d = Some (PyInt 1) → dict_get "kind" d = Some (PyStr kind) →
  tagged_dict error path kind keys (str_dict d) = Ok d.
Proof.
  intros Hnd Hk Hv Hkind. unfold tagged_dict. rewrite keyed_literal by done. cbn. unfold field. rewrite Hv. cbn.
  rewrite Hkind. cbn. by rewrite bool_decide_eq_true_2.
Qed.

(** [open_literal] opens the dictionary literal a [to_dict] wrote. *)
Ltac open_literal :=
  first [rewrite tagged_literal by first [literal_keys | reflexivity]
        |rewrite keyed_literal by first [literal_keys | reflexivity]]; literal_fields.

Definition ext_wf (d : pydict) : Prop := frozen_dict d ∧ Forall (λ kv, valid_namespace kv.1 = true) d.

Lemma thaw_proxy d : _thaw_json (PyProxy (items_of d)) = str_dict (thaw_dict d).
Proof. cbn. by rewrite thaw_items. Qed.

Lemma freeze_ext_ok e v d : _freeze_extensions e v = Ok d → ext_wf d.
Proof.
  assert (Hc : ∀ kvs, copy_entries (e "extensions") (λ namespace extension,
      raise_if (negb (valid_namespace namespace)) (e "extensions");;
      _freeze_json e extension ("extensions." +:+ namespace)) kvs [] = Ok d → ext_wf d).
  { intros kvs (src & -> & out & Hout & ->)%copy_entries_ok. split; [split|].
    - apply dict_merge_keys. constructor.
    - apply (dict_merge_Forall (λ v, frozen v = true)); [constructor|].
      induction Hout as [|x y src out [_ Hf] _ IH]; [constructor|]. constructor; [|done]. inv_ok.
      by eapply freeze_json_frozen.
    - apply (dict_merge_Forall_kv (λ k _, valid_namespace k = true)); [constructor|].
      induction Hout as [|x y src out [Hk Hf] _ IH]; [constructor|]. constructor; [|done]. inv_ok.
      rewrite <- Hk. by apply negb_false_iff. }
  destruct v; try done; apply Hc.
Qed.

Lemma freeze_ext_thaw e d : ext_wf d → _freeze_extensions e (str_dict (thaw_dict d)) = Ok d.
Proof.
  intros [[Hnd Hf] Hn]. unfold str_dict, _freeze_extensions.
  change (prod_map PyStr id <$> thaw_dict d) with (items_of (thaw_dict d)). apply refreeze_entries; [done|].
  clear Hnd. induction d as [|[k v] d IH]; [constructor|]. inversion_clear Hf. inversion_clear Hn.
  constructor; [|by apply IH]. cbn in *. rewrite H1. cbn. by apply freeze_thaw.
Qed.

Lemma freeze_mapping_ok e v path d : freeze_mapping e v path = Ok d → frozen_dict d.
Proof.
  unfold freeze_mapping. intros Hv. inv_ok. apply freeze_json_frozen in H. destruct x; try done.
  unfold frozen in H. cbn in H. apply json_items_inv in H as (d' & -> & Hnd & Hd).
  rewrite copy_entries_id in Hv by done. injection Hv as <-. done.
Qed.

Lemma freeze_mapping_thaw e d path : frozen_dict d → freeze_mapping e (str_dict (thaw_dict d)) path = Ok d.
Proof.
  intros Hd. unfold freeze_mapping. rewrite <- thaw_proxy, freeze_thaw by by apply frozen_proxy. cbn.
  by apply copy_entries_id, Hd.
Qed.

Definition digest_wf (d : Digest) : Prop := algorithm d = "sha256" ∧ _is_sha256 (PyStr (digest_value d)) = true.

Lemma digest_roundtrip d : digest_wf d → digest_from_dict (digest_to_dict d) = Ok d.
Proof.
  destruct d as [a v]. intros [Ha Hv]. cbn in Ha. subst a.
  unfold digest_from_dict, digest_to_dict. cbn [algorithm digest_value]. open_literal. cbn -[_is_sha256] in *.
  unfold make_digest. rewrite bool_decide_eq_true_2 by done. rewrite Hv. done.
Qed.

Lemma digest_sound v d : digest_from_dict v = Ok d → digest_wf d.
Proof.
  intros Hd. unfold digest_from_dict, make_digest in Hd. inv_ok.
  apply orb_false_iff in H4 as [Ha Hs]. apply negb_false_iff in Ha, Hs. by apply bool_decide_eq_true in Ha.
Qed.

#[global] Instance digest_wire : Wire Digest :=
  {| to_wire := digest_to_dict; from_wire := digest_from_dict; wire_wf := digest_wf;
     wire_roundtrip := digest_roundtrip; wire_sound := digest_sound |}.

(** The URI of a locator that shows as it is *)
Definition locator_public `{IpLiterals, QueryText} (l : DirectResourceLocator) : Prop :=
  sanitize_uri (loc_uri l) = loc_uri l.
Definition locator_wf `{IpLiterals} (l : DirectResourceLocator) : Prop :=
  _validate_uri (PyStr (loc_uri l)) "uri" = Ok (loc_uri l) ∧ ext_wf (loc_extensions l).

Lemma validate_uri_ok `{IpLiterals} v path u : _validate_uri v path = Ok u → v = PyStr u.
Proof.
  destruct v; try done. unfold _validate_uri. intros Hv. inv_ok. done.
Qed.

Lemma as_opt_str_opt e o : as_opt_str e (opt_str o) = Ok o.
Proof. by destruct o. Qed.

Lemma make_locator_wf `{IpLiterals} u f m e l : make_locator u f m e = Ok l → locator_wf l.
Proof.
  unfold make_locator. intros Hl. inv_ok. split; cbn; [|by eapply freeze_ext_ok].
  by pose proof (validate_uri_ok _ _ _ H0) as [= ->].
Qed.

Lemma locator_from_dict_wf `{IpLiterals} v l : resource_locator_from_dict v = Ok l → locator_wf l.
Proof.
  unfold resource_locator_from_dict, locator_from_dict. intros Hl. inv_ok. case_match; [|done]. inv_ok.
  by eapply make_locator_wf.
Qed.

Lemma thaw_ext_NoDup d : ext_wf d → NoDup (thaw_dict d).*1.
Proof. intros [[Hnd _] _]. by rewrite thaw_dict_keys. Qed.

Lemma locator_roundtrip `{IpLiterals, QueryText} l :
  locator_wf l → locator_public l →
  ∃ d, locator_to_dict l = str_dict d ∧ NoDup d.*1 ∧ resource_locator_from_dict (str_dict d) = Ok l.
Proof.
  intros [Hu He] Hp. unfold locator_to_dict. rewrite Hp, thaw_proxy. eexists. split; [done|]. split; [literal_keys|].
  unfold resource_locator_from_dict. rewrite object_dict_literal by literal_keys. cbn [mbind result_bind].
  change (py_eq_str (default PyNone _) "direct") with true. cbv iota. unfold locator_from_dict. open_literal.
  rewrite !as_opt_str_opt. cbn [as_str mbind result_bind].
  rewrite object_dict_literal by by apply thaw_ext_NoDup. cbn [mbind result_bind]. unfold make_locator. rewrite Hu.
  cbn [mbind result_bind]. rewrite freeze_ext_thaw by done. cbn. by destruct l.
Qed.

Section artifact_proofs.
Context `{IpLiterals, QueryText, DateTimes}.

Definition provenance_wf (p : ArtifactProvenance) : Prop :=
  locator_wf (source_locator p) ∧ _is_sha256 (PyStr (resource_identity p)) = true ∧
  has_tzinfo (created_at p) = true ∧ materialization_mode p ∈ ["parquet"; "raw"].

Definition public_uri (u : string) : Prop := _public_uri u "uri" = Ok u.

Definition artifact_wf (a : Artifact) : Prop :=
  public_uri (uri a) ∧ media_type a ≠ "" ∧ 0 <= size a ∧ digest_wf (content_digest a) ∧ digest_wf (blob_digest a) ∧
  provenance_wf (provenance a) ∧ frozen_dict (metadata a) ∧ ext_wf (extensions a).

(** The same instant, in UTC *)
Definition provenance_in_utc (p : ArtifactProvenance) : ArtifactProvenance :=
  {| source_locator := source_locator p; resource_identity := resource_identity p;
     created_at := astimezone_utc (created_at p); materialization_mode := materialization_mode p;
     transforms := transforms p |}.
Definition in_utc (a : Artifact) : Artifact :=
  {| uri := uri a; media_type := media_type a; size := size a; content_digest := content_digest a;
     blob_digest := blob_digest a; provenance := provenance_in_utc (provenance a); metadata := metadata a;
     extensions := extensions a |}.

(** The UTC text of a date reads back as that date. *)
Definition dates_read : Prop := ∀ d, has_tzinfo d = true →
  fromisoformat (str_replace "Z" "+00:00" (created_text d)) = Some (astimezone_utc d) ∧
  has_tzinfo (astimezone_utc d) = true.

Lemma public_uri_ok u : _public_uri u "uri" = Ok u ↔ is_ok (_public_uri u "uri") = true.
Proof.
  split; [by intros ->|]. destruct (_public_uri u "uri") as [u'|] eqn:E; [|done]. unfold _public_uri in E. by inv_ok.
Qed.

Lemma make_artifact_wf u mt sz c b p md ex a :
  digest_wf c → digest_wf b → provenance_wf p → make_artifact u mt sz c b p md ex = Ok a → artifact_wf a.
Proof.
  unfold make_artifact. intros Hc Hb Hp Ha. inv_ok. split_and!; cbn; try done.
  - apply public_uri_ok. match goal with H : _public_uri _ _ = _ |- _ => by rewrite H end.
  - by apply str_nonempty_true, negb_false_iff.
  - match goal with H : (_ <? 0) = false |- _ => by apply Z.ltb_ge in H end.
  - by eapply freeze_mapping_ok.
  - by eapply freeze_ext_ok.
Qed.

Lemma map_as_str e l : map_res (as_str e) (PyStr <$> l) = Ok l.
Proof. apply map_res_ok. induction l; constructor; done. Qed.

Lemma provenance_from_dict_wf v p : provenance_from_dict v = Ok p → provenance_wf p.
Proof.
  unfold provenance_from_dict, make_provenance. intros Hp. inv_ok. split_and!.
  - cbn. by eapply locator_from_dict_wf.
  - by apply negb_false_iff.
  - by apply negb_false_iff.
  - match goal with H : negb (bool_decide (_ ∈ _)) = false |- _ =>
      apply negb_false_iff, bool_decide_eq_true in H; exact H end.
Qed.

Lemma provenance_roundtrip p :
  dates_read → provenance_wf p → locator_public (source_locator p) →
  provenance_from_dict (provenance_to_dict p) = Ok (provenance_in_utc p).
Proof.
  intros Hdates (Hl & Hs & Ht & Hm) Hpub. destruct (Hdates _ Ht) as [Hread Htz].
  unfold provenance_from_dict, provenance_to_dict.
  destruct (locator_roundtrip _ Hl Hpub) as (d & -> & Hnd & Hd).
  open_literal. cbn [as_str as_list mbind result_bind]. rewrite map_as_str. cbn [mbind result_bind].
  rewrite Hread. cbn [mbind result_bind]. rewrite Htz. cbn [negb raise_if mbind result_bind].
  rewrite object_dict_literal by done. cbn [mbind result_bind]. rewrite Hd. cbn [mbind result_bind].
  unfold make_provenance. cbn [resource_identity created_at materialization_mode]. rewrite Hs, Htz.
  by rewrite bool_decide_eq_true_2.
Qed.
End artifact_proofs.

(** ** Properties *)

Section properties.
Context `{IpLiterals, QueryText, DateTimes}.

(** C40: the artifact envelope is strict: whatever [from_dict] accepts is a
    well-formed artifact - a URI that shows no credentials, a media type, a
    size that is not negative, two SHA-256 digests, a provenance with a
    timezone-aware date and a known mode, frozen JSON metadata and namespaced
    extensions.  And [from_dict] reads back what [to_dict] wrote, with the date
    in UTC, of every well-formed artifact whose source locator has a URI that
    [sanitize_uri] leaves as it is; the URI of another locator, one with a
    [token] in its query for instance, is written redacted. *)
Theorem artifact_envelope :
  dates_read →
  (∀ v a, artifact_from_dict v = Ok a → artifact_wf a) ∧
  (∀ a, artifact_wf a → locator_public (source_locator (provenance a)) →
        artifact_from_dict (artifact_to_dict a) = Ok (in_utc a)).
Proof.
  intros Hdates. split.
  - intros v a Ha. unfold artifact_from_dict in Ha. inv_ok. eapply make_artifact_wf; [| | |exact Ha].
    + by eapply digest_sound.
    + by eapply digest_sound.
    + by eapply provenance_from_dict_wf.
  - intros a (Hu & Hmt & Hsz & Hc & Hb & Hp & Hmd & Hex) Hpub.
    unfold artifact_from_dict, artifact_to_dict. rewrite !thaw_proxy. open_literal.
    cbn [as_str as_int mbind result_bind].
    rewrite (digest_roundtrip (content_digest a)) by exact Hc.  cbn [mbind result_bind].
    rewrite (digest_roundtrip (blob_digest a)) by exact Hb. cbn [mbind result_bind].
    rewrite (provenance_roundtrip (provenance a)) by assumption. cbn [mbind result_bind].
    rewrite (object_dict_literal (thaw_dict (metadata a))) by (rewrite thaw_dict_keys; apply Hmd). cbn [mbind result_bind].
    rewrite (object_dict_literal (thaw_dict (extensions a))) by by apply thaw_ext_NoDup.
    cbn [mbind result_bind]. unfold make_artifact. rewrite Hu. cbn [mbind result_bind].
    apply str_nonempty_true in Hmt. rewrite Hmt. apply Z.ltb_ge in Hsz. rewrite Hsz. cbn [negb raise_if mbind result_bind].
    rewrite freeze_mapping_thaw by done. cbn [mbind result_bind]. rewrite freeze_ext_thaw by done. done.
Qed.
End properties.

(** Dates whose texts are [Z] dates already; every other text is refused. *)
#[local] Instance sample_dates : DateTimes :=
  {| datetime := unit; has_tzinfo _ := true; astimezone_utc d := d; isoformat _ := "2024-05-01T00:00:00+00:00";
     fromisoformat s := if bool_decide (s = "2024-05-01T00:00:00+00:00") then Some tt else None |}.
#[local] Instance sample_query : QueryText := {| unquote_plus s := s; quote_plus s := s |}.
#[local] Instance sample_ips : IpLiterals := λ _, false.

Definition sample_sha : string := "0123456789abcdef0123456789abcdef0123456789abcdef0123456789abcdef".
Definition sample_artifact : Artifact :=
  {| uri := "s3://lake/air.parquet"; media_type := "application/vnd.apache.parquet"; size := 512;
     content_digest := {| algorithm := "sha256"; digest_value := sample_sha |};
     blob_digest := {| algorithm := "sha256"; digest_value := sample_sha |};
     provenance := {| source_locator := {| loc_uri := "https://data.example.org/air.csv"; loc_format := Some "CSV";
                        loc_media_type := None; loc_extensions := [("org.example", PyTuple [PyInt 1])] |};
                      resource_identity := sample_sha; created_at := tt; materialization_mode := "parquet";
                      transforms := ["dedupe"] |};
     metadata := [("rows", PyInt 42); ("nested", PyProxy [(PyStr "ok", PyBool true)])]; extensions := [] |}.

Lemma artifact_envelope_witness :
  artifact_wf sample_artifact ∧ artifact_from_dict (artifact_to_dict sample_artifact) = Ok sample_artifact.
Proof.
  assert (Hw : artifact_wf sample_artifact).
  { assert (Hn : ∀ l : list string, bool_decide (NoDup l) = true → NoDup l) by (intros l; apply bool_decide_eq_true).
    split_and!; try (vm_compute; reflexivity); try discriminate.
    - split; vm_compute; reflexivity.
    - split; vm_compute; reflexivity.
    - split; [|split; [vm_compute; reflexivity|split; [reflexivity|left]]].
      split; [vm_compute; reflexivity|]. split; [split|]; [apply Hn; vm_compute; reflexivity|..]; repeat constructor.
    - split; [apply Hn; vm_compute; reflexivity|]. repeat constructor.
    - split; [split|]; constructor. }
  split; [exact Hw|].
  assert (Hd : dates_read) by (intros []; split; reflexivity).
  destruct (artifact_envelope Hd) as [_ Hr]. exact (Hr sample_artifact Hw eq_refl).
Defined.
