(* ===== verification/StateStore.v ===== *)
(** * The durable sync-state store

    [FileStateStore] and [InMemoryStateStore] of [sync/state_store.py]: the
    validation of a durable state, its envelope, the process-wide lock registry
    with the per-key advisory file locks, and compare-and-swap.

    The filesystem is an fsspec backend and [hashlib] and the date parsers are
    not under [src/]: they are the parameters [Filesystem], [Sha256],
    [DateTimes] and [HttpDates].  [open] and [flock] on a lock file are
    operations of [Filesystem] too, as far as they may fail; who holds a lock
    is part of the state.  The Windows variant of the file lock is not
    modelled. *)
From Stdlib Require Import ZArith Lia Ascii.
From stdpp Require Import strings gmap.
From S2P Require Import Prelude PyVal Regex Urls Json JsonText Uris Artifact.
Local Open Scope Z_scope.
Local Open Scope py_scope.

Class Sha256 := sha256 : string → string.
(** [parsedate_to_datetime] gives a date with a time zone; it does not raise. *)
Class HttpDates := http_date_aware : string → bool.

(** ** The state *)

(** [domain/sync_state.py]; the fields are checked dynamically before a write. *)
Record SyncState := { cursor : pyval; partitions : pyval; last_synced_at : pyval; extra : pyval }.

Definition state_error (message : string) : exn := err StateStoreError message.
Definition _INVALID_CURSOR : exn := state_error "Invalid durable SyncState at state.cursor".
Definition _INVALID_LAST_SYNCED_AT : exn := state_error "Invalid durable SyncState at state.last_synced_at".
Definition _INVALID_CHECKPOINT : exn := state_error "Invalid durable SyncState at state.extra.datasluice_checkpoint".
Definition _INVALID_CHECKPOINT_POSITION : exn :=
  state_error "Invalid durable SyncState at state.extra.datasluice_checkpoint.position".
Definition _INVALID_COMPLETED_ARTIFACT : exn :=
  state_error "Invalid durable SyncState at state.extra.datasluice_completed_artifact".
Definition _INVALID_SOURCE_VERSION : exn :=
  state_error "Invalid durable SyncState at state.extra.datasluice_source_version".

(** The items of a dictionary whose keys are all strings *)
Fixpoint str_items (kvs : list (pyval * pyval)) : option pydict :=
  match kvs with
  | [] => Some []
  | (PyStr k, v) :: kvs' => cons (k, v) <$> str_items kvs'
  | _ => None
  end.

(** [d.get(key)] *)
Definition get (key : string) (d : pydict) : pyval := default PyNone (dict_get key d).

(** [is_sha256] of [sync/_hashing.py] *)
Definition is_hex_any (c : ascii) : bool := is_digit c || in_range 97 102 c || in_range 65 70 c.
Definition is_sha256 (v : pyval) : bool :=
  match v with PyStr s => (String.length s =? 64)%nat && string_forallb is_hex_any s | _ => false end.

Definition _is_source_version (v : pyval) : bool := match v with PyNone => true | _ => is_sha256 v end.

(** *** Watermarks *)

Definition _SECRET_SUBSTRINGS : list string :=
  ["signature"; "credential"; "password"; "token"; "secret"; "bearer"; "apikey"; "api_key"; "authorization"].

Definition _contains_secret_material (watermark : string) : bool :=
  let lowered := str_lower watermark in
  str_contains "://" lowered || str_contains "@" lowered || str_contains "?=" lowered ||
  existsb (λ s, str_contains s lowered) _SECRET_SUBSTRINGS ||
  negb (string_forallb (λ c, 32 <=? code c) watermark).

Definition etag_char (c : ascii) : bool := (code c =? 33) || in_range 35 126 c || in_range 128 255 c.
Definition one (x : ascii) : re := RSet (λ c, bool_decide (c = x)).
Definition _ETAG_PATTERN : re :=
  RSeq (RAlt (RSeq (one "W") (one "/")) REps) (RSeq (one quote) (RSeq (RStar (RSet etag_char)) (one quote))).

Definition _MAX_WATERMARK_LENGTH : nat := 256.
Definition _MAX_TIMESTAMP_LENGTH : nat := 128.

Definition _is_completed_watermark `{HttpDates} (watermark : string) : bool :=
  if negb (str_nonempty watermark) || (_MAX_WATERMARK_LENGTH <? String.length watermark)%nat then false
  else if is_sha256 (PyStr watermark) then true
  else if fullmatch _ETAG_PATTERN watermark then negb (_contains_secret_material watermark)
  else http_date_aware watermark.

Definition _validate_cursor `{HttpDates} (key : string) (cursor : pyval) : result unit :=
  match cursor with
  | PyDict [] => Ok tt
  | PyDict [(cursor_key, watermark)] =>
      raise_if (negb (py_eq_str cursor_key key) ||
                match watermark with PyStr w => negb (_is_completed_watermark w) | _ => true end) _INVALID_CURSOR
  | _ => Raise _INVALID_CURSOR
  end.

(** *** The other fields *)

Definition _validate_last_synced_at `{DateTimes} (value : pyval) : result unit :=
  match value with
  | PyNone => Ok tt
  | PyStr text =>
      raise_if (negb (str_nonempty text) || (_MAX_TIMESTAMP_LENGTH <? String.length text)%nat) _INVALID_LAST_SYNCED_AT;;
      match fromisoformat text with
      | None => Raise _INVALID_LAST_SYNCED_AT
      | Some parsed => raise_if (negb (has_tzinfo parsed)) _INVALID_LAST_SYNCED_AT
      end
  | _ => Raise _INVALID_LAST_SYNCED_AT
  end.

Definition _CHECKPOINT_V3_KEYS : list string :=
  ["version"; "status"; "next_batch_index"; "position"; "source_version"; "destination_identity"].
Definition _CHECKPOINT_POSITION_KEYS : list string := ["kind"; "row_group_index"].

(** [type(v) is int and v >= 0] *)
Definition is_index (v : pyval) : bool := match v with PyInt n => 0 <=? n | _ => false end.

Definition _validate_checkpoint_v3 (checkpoint : option pydict) : result unit :=
  match checkpoint with
  | Some d =>
      raise_if (negb (keys_are d _CHECKPOINT_V3_KEYS)) _INVALID_CHECKPOINT;;
      position ← match get "position" d with
                 | PyDict kvs =>
                     match str_items kvs with
                     | Some p => raise_if (negb (keys_are p _CHECKPOINT_POSITION_KEYS)) _INVALID_CHECKPOINT_POSITION;; Ok p
                     | None => Raise _INVALID_CHECKPOINT_POSITION
                     end
                 | _ => Raise _INVALID_CHECKPOINT_POSITION
                 end;
      raise_if (negb (is_index (get "next_batch_index" d)) || negb (is_index (get "row_group_index" position)) ||
                negb (py_eq_str (get "kind" position) "parquet_row_group") ||
                negb (py_eq_str (get "status" d) "in_progress") ||
                negb (_is_source_version (get "source_version" d)) ||
                negb (is_sha256 (get "destination_identity" d))) _INVALID_CHECKPOINT
  | None => Raise _INVALID_CHECKPOINT
  end.

Section store.
Context `{IpLiterals, QueryText, DateTimes, HttpDates, FloatText, Sha256}.

Definition _validate_completed_artifact (artifact : pyval) : result unit :=
  match artifact_from_dict artifact with Ok _ => Ok tt | Raise _ => Raise _INVALID_COMPLETED_ARTIFACT end.

(** A checkpoint is a [dict]; only one with string keys can have version 3 and
    the expected keys. *)
Definition _validate_extra (extra : pyval) : result unit :=
  match extra with
  | PyDict [] => Ok tt
  | PyDict kvs =>
      match str_items kvs with
      | None => Raise (state_error "Invalid durable SyncState at state.extra")
      | Some d =>
          if bool_decide ("datasluice_completed_artifact" ∈ d.*1) &&
             forallb (λ k, bool_decide (k ∈ ["datasluice_completed_artifact"; "datasluice_source_version"])) d.*1 then
            _validate_completed_artifact (get "datasluice_completed_artifact" d);;
            raise_if (negb (_is_source_version (get "datasluice_source_version" d))) _INVALID_SOURCE_VERSION
          else
            raise_if (negb (keys_are d ["datasluice_checkpoint"]))
              (state_error "Invalid durable SyncState at state.extra");;
            match get "datasluice_checkpoint" d with
            | PyDict ckvs =>
                raise_if (negb (existsb (λ kv, py_eq_str kv.1 "version" && py_eq_int kv.2 3) ckvs))
                  (state_error "Invalid durable SyncState at state.extra.datasluice_checkpoint.version");;
                _validate_checkpoint_v3 (str_items ckvs)
            | _ => Raise _INVALID_CHECKPOINT
            end
      end
  | _ => Raise (state_error "Invalid durable SyncState at state.extra")
  end.

Definition _validate_state_for_write (key : string) (s : SyncState) : result unit :=
  _validate_cursor key (cursor s);;
  match partitions s with
  | PyDict [] => Ok tt
  | _ => Raise (state_error "Invalid durable SyncState at state.partitions")
  end;;
  _validate_last_synced_at (last_synced_at s);;
  _validate_extra (extra s).

(** ** The envelope *)

Definition _COMPLETED_WATERMARK_SCHEMA : string := "datasluice_completed_watermark_v1".

Definition _encode_state (s : SyncState) : pyval :=
  str_dict
    [("cursor", match cursor s with
                | PyDict ((_, watermark) :: _) =>
                    str_dict [("schema", PyStr _COMPLETED_WATERMARK_SCHEMA); ("watermark", watermark)]
                | _ => PyDict []
                end);
     ("partitions", PyDict []); ("last_synced_at", last_synced_at s); ("extra", extra s)].

Definition _serialize_state (s : SyncState) : result string :=
  dumps true (str_dict [("schema_version", PyInt 1); ("state", _encode_state s)]).

Definition _mapping_field (state : pydict) (name : string) : result pyval :=
  match default (PyDict []) (dict_get name state) with
  | PyDict kvs => Ok (PyDict kvs)
  | _ => Raise (state_error ("Corrupt state envelope at state." +:+ name))
  end.

Definition _decode_completed_cursor (key : string) (cursor : pyval) : result pyval :=
  let corrupt := state_error "Corrupt state envelope at state.cursor" in
  match cursor with
  | PyDict [] => Ok (PyDict [])
  | PyDict kvs =>
      match str_items kvs with
      | Some d =>
          raise_if (negb (keys_are d ["schema"; "watermark"])) corrupt;;
          match get "watermark" d with
          | PyStr w => raise_if (negb (py_eq_str (get "schema" d) _COMPLETED_WATERMARK_SCHEMA)) corrupt;;
                       Ok (str_dict [(key, PyStr w)])
          | _ => Raise corrupt
          end
      | None => Raise corrupt
      end
  | _ => Raise corrupt
  end.

Definition _decode_envelope (key raw : string) : result SyncState :=
  envelope ← match decode_utf8 raw ≫= loads with
             | None => Raise (state_error "Corrupt state envelope: invalid JSON")
             | Some v => Ok v
             end;
  let unsupported := state_error "Unsupported state envelope schema_version; expected 1" in
  match envelope with
  | PyDict kvs =>
      match str_items kvs with
      | None => Raise unsupported
      | Some d =>
          raise_if (negb (py_eq_int (get "schema_version" d) 1)) unsupported;;
          match get "state" d with
          | PyDict skvs =>
              s ← match str_items skvs with
                  | Some s => Ok s
                  | None => Raise (state_error "Corrupt state envelope at state")
                  end;
              raise_if (negb (keys_are d ["schema_version"; "state"])) (state_error "Corrupt state envelope at top level");;
              c ← _decode_completed_cursor key (default (PyDict []) (dict_get "cursor" s));
              p ← _mapping_field s "partitions";
              e ← _mapping_field s "extra";
              let state := {| cursor := c; partitions := p; last_synced_at := get "last_synced_at" s; extra := e |} in
              _validate_state_for_write key state;;
              Ok state
          | _ => Raise (state_error "Corrupt state envelope at state")
          end
      end
  | _ => Raise unsupported
  end.

(** ** The filesystem *)

(** The fsspec backend: [cat_file], [pipe_file], [mv], [rm] and [exists], the
    opening of a lock file with [flock], and the text of
    [os.getpid()] and [secrets.token_hex(8)] in a temporary name.  Any of them
    may raise. *)
Class Filesystem (W : Type) := {
  cat_file : string → M W string;
  pipe_file : string → string → M W unit;
  mv : string → string → M W unit;
  rm : string → M W unit;
  exists_file : string → M W bool;
  open_lock_file : string → M W unit;
  temporary_suffix : M W string;
  strip_protocol : string → string
}.

Record FileStateStore := { store_base : string; store_protocols : list string }.

Definition _ATOMIC_MV_BACKENDS : list string := ["file"; "local"; "memory"].

(** [base_uri.rstrip("/")] *)
Fixpoint rstrip_slash (s : string) : string :=
  match s with
  | EmptyString => ""
  | String c r =>
      match rstrip_slash r with
      | EmptyString => if bool_decide (c = "/"%char) then "" else String c ""
      | r' => String c r'
      end
  end.
Definition make_store (base_uri : string) (protocols : list string) : FileStateStore :=
  {| store_base := rstrip_slash base_uri; store_protocols := protocols |}.

Definition _is_atomic_mv (st : FileStateStore) : bool :=
  existsb (λ p, bool_decide (p ∈ _ATOMIC_MV_BACKENDS)) (store_protocols st).

Definition is_local (st : FileStateStore) : bool :=
  existsb (λ p, bool_decide (p ∈ ["file"; "local"])) (store_protocols st).

Definition _state_path (st : FileStateStore) (key : string) : string :=
  store_base st +:+ "/" +:+ sha256 key +:+ ".json".

(** [sorted(protocol)] orders the names; one name stands for itself. *)
Definition _lock_scope (st : FileStateStore) (key : string) : string :=
  String.concat "+" (sort_items (λ p, p) (store_protocols st)) +:+ "::" +:+ store_base st +:+ "::" +:+ _state_path st key.

Definition _temporary_path (st : FileStateStore) (payload suffix : string) : string :=
  store_base st +:+ "/." +:+ sha256 payload +:+ ".tmp." +:+ suffix.
End store.

(** ** Locks

    A thread is a process and a number in it.  [_GLOBAL_LOCKS] and
    [_GLOBAL_LOCKS_USERS] exist once per process; the [RLock] objects are a
    heap; [_HELD_FILE_LOCKS.scopes] exists once per thread; an advisory file
    lock belongs to the thread whose open file holds it. *)
Abbreviation thread := (nat * nat)%type.

Record RLock := { lock_owner : option thread; lock_depth : nat }.
Record registry := { _GLOBAL_LOCKS : gmap string nat; _GLOBAL_LOCKS_USERS : gmap string nat }.
Definition empty_registry : registry := {| _GLOBAL_LOCKS := ∅; _GLOBAL_LOCKS_USERS := ∅ |}.

Record world (W : Type) := World {
  registries : gmap nat registry; rlocks : list RLock; file_locks : gmap string thread;
  _HELD_FILE_LOCKS : gmap thread (gset string); disk : W
}.
Arguments World {W}.
Arguments registries {W}.
Arguments rlocks {W}.
Arguments file_locks {W}.
Arguments _HELD_FILE_LOCKS {W}.
Arguments disk {W}.

Section locks.
Context {W : Type}.

Definition registry_of (p : nat) (w : world W) : registry := default empty_registry (registries w !! p).
Definition held (t : thread) (w : world W) : gset string := default ∅ (_HELD_FILE_LOCKS w !! t).

Definition set_registry (p : nat) (f : registry → registry) (w : world W) : world W :=
  World (<[p := f (registry_of p w)]> (registries w)) (rlocks w) (file_locks w) (_HELD_FILE_LOCKS w) (disk w).
Definition set_rlocks (f : list RLock → list RLock) (w : world W) : world W :=
  World (registries w) (f (rlocks w)) (file_locks w) (_HELD_FILE_LOCKS w) (disk w).
Definition set_file_locks (f : gmap string thread → gmap string thread) (w : world W) : world W :=
  World (registries w) (rlocks w) (f (file_locks w)) (_HELD_FILE_LOCKS w) (disk w).
Definition set_held (t : thread) (s : gset string) (w : world W) : world W :=
  World (registries w) (rlocks w) (file_locks w) (<[t := s]> (_HELD_FILE_LOCKS w)) (disk w).
Definition set_disk (d : W) (w : world W) : world W :=
  World (registries w) (rlocks w) (file_locks w) (_HELD_FILE_LOCKS w) d.

(** The first [with _GLOBAL_LOCKS_GUARD] of [_key_lock_held]: the lock of the
    scope, created when it is new, and one more user of it. *)
Definition enter_registry (t : thread) (scope : string) : M (world W) nat :=
  found ← read (λ w, _GLOBAL_LOCKS (registry_of t.1 w) !! scope);
  lock ← match found with
         | Some l => mret l
         | None =>
             l ← read (λ w, length (rlocks w));
             modify (set_rlocks (λ ls, ls ++ [{| lock_owner := None; lock_depth := 0 |}]));;
             modify (set_registry t.1 (λ r, {| _GLOBAL_LOCKS := <[scope := l]> (_GLOBAL_LOCKS r);
                                               _GLOBAL_LOCKS_USERS := _GLOBAL_LOCKS_USERS r |}));;
             mret l
         end;
  modify (set_registry t.1 (λ r, {| _GLOBAL_LOCKS := _GLOBAL_LOCKS r;
    _GLOBAL_LOCKS_USERS := <[scope := (default 0 (_GLOBAL_LOCKS_USERS r !! scope) + 1)%nat]> (_GLOBAL_LOCKS_USERS r) |}));;
  mret lock.

(** The second one: one user less, and no lock without users. *)
Definition leave_registry (t : thread) (scope : string) : M (world W) unit :=
  modify (set_registry t.1 (λ r,
    let remaining := (default 0 (_GLOBAL_LOCKS_USERS r !! scope) - 1)%nat in
    if (0 <? remaining)%nat then
      {| _GLOBAL_LOCKS := _GLOBAL_LOCKS r; _GLOBAL_LOCKS_USERS := <[scope := remaining]> (_GLOBAL_LOCKS_USERS r) |}
    else {| _GLOBAL_LOCKS := delete scope (_GLOBAL_LOCKS r); _GLOBAL_LOCKS_USERS := delete scope (_GLOBAL_LOCKS_USERS r) |})).

(** [RLock.acquire] when the lock is free or the caller's, and [release] *)
Definition may_acquire (t : thread) (l : nat) (w : world W) : bool :=
  match rlocks w !! l with
  | Some k => match lock_owner k with None => true | Some o => bool_decide (o = t) end
  | None => false
  end.
Definition acquire (t : thread) (l : nat) : M (world W) unit :=
  modify (set_rlocks (alter (λ k, {| lock_owner := Some t; lock_depth := S (lock_depth k) |}) l)).
Definition release (l : nat) : M (world W) unit :=
  modify (set_rlocks (alter (λ k,
    {| lock_owner := if (lock_depth k =? 1)%nat then None else lock_owner k; lock_depth := lock_depth k - 1 |}) l)).

(** The advisory lock of a lock file: whether the caller may take it now *)
Definition may_flock (path : string) (w : world W) : bool := negb (bool_decide (is_Some (file_locks w !! path))).
End locks.

Section operations.
Context `{IpLiterals, QueryText, DateTimes, HttpDates, FloatText, Sha256} {W : Type} `{!Filesystem W}.
Variable self : FileStateStore.

Definition on_disk {A} (m : M W A) : M (world W) A := λ w, let '(r, d) := m (disk w) in (r, set_disk d w).

Definition lock_path (key : string) : string := strip_protocol (_state_path self key) +:+ ".lock".

(** [_file_lock] up to its [yield]: [None] when it takes no lock, else the
    scopes the thread held before. *)
Definition file_lock_enter (t : thread) (key : string) : M (world W) (option (gset string)) :=
  before ← read (held t);
  if negb (is_local self) || bool_decide (_lock_scope self key ∈ before) then mret None
  else
    on_disk (open_lock_file (lock_path key));;
    modify (set_file_locks (<[lock_path key := t]>));;
    modify (set_held t (before ∪ {[_lock_scope self key]}));;
    mret (Some before).

(** Its [finally], for the scopes it saved *)
Definition file_lock_exit (t : thread) (key : string) (saved : option (gset string)) : M (world W) unit :=
  match saved with
  | None => mret tt
  | Some before => modify (set_held t before);; modify (set_file_locks (delete (lock_path key)))
  end.

(** [_key_lock_held], run by [t] when no other thread has the lock *)
Definition _key_lock_held {A} (t : thread) (key : string) (body : M (world W) A) : M (world W) A :=
  lock ← enter_registry t (_lock_scope self key);
  try_finally
    (acquire t lock;;
     try_finally
       (saved ← file_lock_enter t key;
        try_finally body (file_lock_exit t key saved))
       (release lock))
    (leave_registry t (_lock_scope self key)).

Definition key_lock {A} (t : thread) (key : string) (body : M (world W) A) : M (world W) A :=
  if negb (_is_atomic_mv self) then
    throw (state_error "Sync transactions require local storage or a backend with a distributed key lock")
  else _key_lock_held t key body.

(** [safe_remove] of [io/filesystem.py] *)
Definition safe_remove (path : string) : M W unit :=
  try_except (b ← exists_file path; if (b : bool) then rm path else mret tt)
    (λ e, if is_subclass (exn_kind e) OSError then Some (mret tt) else None).

Definition read_raw (key : string) : M W (option string) :=
  try_except (s ← cat_file (_state_path self key); mret (Some s))
    (λ e, if is_subclass (exn_kind e) FileNotFoundError then Some (mret None)
          else if is_Exception (exn_kind e)
          then Some (throw (state_error ("Failed to read state for key at " +:+ sanitize_uri (_state_path self key))))
          else None).
Definition read_version : string → M W (option string) := read_raw.

Definition get_with_version (key : string) : M W (option SyncState * option string) :=
  raw ← read_raw key;
  match raw with
  | None => mret (None, None)
  | Some raw => s ← lift_res (_decode_envelope key raw); mret (Some s, Some raw)
  end.

Definition get_state (key : string) : M W (option SyncState) :=
  raw ← read_raw key;
  match raw with
  | None => mret None
  | Some raw => s ← lift_res (_decode_envelope key raw); mret (Some s)
  end.

Definition publish_error : exn := state_error "Failed to publish durable state envelope".

Definition _publish (key payload : string) : M W unit :=
  suffix ← temporary_suffix;
  let tmp := _temporary_path self payload suffix in
  try_except (pipe_file tmp payload;; mv tmp (_state_path self key))
    (λ e, if is_Exception (exn_kind e) then Some (safe_remove tmp;; throw publish_error) else None).

Definition conflict_error : exn :=
  err SyncStateConflictError "State changed since last read (CAS mismatch); re-read and re-apply".

(** Whether two versions have the same digest; an absent one counts as empty. *)
Definition same_version (expected actual : option string) : bool :=
  bool_decide (sha256 (default "" expected) = sha256 (default "" actual)).

Definition conditional_put (t : thread) (key : string) (state : SyncState) (expected_prior : option string)
  : M (world W) string :=
  lift_res (_validate_state_for_write key state);;
  payload ← lift_res (_serialize_state state);
  _key_lock_held t key
    (actual_prior ← on_disk (read_raw key);
     (if negb (same_version expected_prior actual_prior) then throw conflict_error else mret tt);;
     on_disk (_publish key payload));;
  mret payload.

(** [put], without [expected_prior] and with it *)
Definition put (t : thread) (key : string) (state : SyncState) (expected_prior : option (option string))
  : M (world W) unit :=
  match expected_prior with
  | Some prior => conditional_put t key state prior;; mret tt
  | None =>
      lift_res (_validate_state_for_write key state);;
      payload ← lift_res (_serialize_state state);
      on_disk (_publish key payload)
  end.

Definition delete_state (key : string) : M W unit :=
  try_except (rm (_state_path self key))
    (λ e, if is_subclass (exn_kind e) FileNotFoundError then Some (mret tt)
          else if is_Exception (exn_kind e)
          then Some (throw (state_error ("Failed to delete state for key at " +:+ sanitize_uri (_state_path self key))))
          else None).
End operations.

(** ** InMemoryStateStore *)

Record InMemoryStateStore := { _store : gmap string SyncState }.
Definition memory_get (key : string) (s : InMemoryStateStore) : option SyncState := _store s !! key.
Definition memory_put (key : string) (state : SyncState) (s : InMemoryStateStore) : InMemoryStateStore :=
  {| _store := <[key := state]> (_store s) |}.
Definition memory_delete (key : string) (s : InMemoryStateStore) : InMemoryStateStore :=
  {| _store := delete key (_store s) |}.
