(* ===== verification/StateLocks.v ===== *)
(** * Concurrent writers of the durable state store

    Threads of several processes run [key_lock] and [conditional_put] of one
    [FileStateStore] on one disk, step by step: each step is a block of
    [StateStore] that runs without interference - under the registry guard, a
    lock operation, or one filesystem call - and any filesystem call may fail.
    The theorems: the per-key section is exclusive across threads and
    processes, the lock registry counts its users exactly and leaks nothing,
    and what the writers do is a history of an atomic compare-and-swap
    register. *)
From Stdlib Require Import ZArith Lia.
From stdpp Require Import strings gmap.
From S2P Require Import Prelude PyVal Regex Urls Json JsonText Uris Artifact StateStore.
Local Open Scope py_scope.

(** ** The disk *)

(** A disk with atomic renames, as the [file], [local] and [memory] backends
    have them; the names of temporary files are chosen by the machine below. *)
Abbreviation files := (gmap string string).

#[global] Instance plain_disk : Filesystem files := {|
  cat_file p := λ d, match d !! p with Some s => (Ok s, d) | None => (Raise (err FileNotFoundError p), d) end;
  pipe_file p s := λ d, (Ok tt, <[p := s]> d);
  mv p q := λ d, match d !! p with Some s => (Ok tt, <[q := s]> (delete p d)) | None => (Raise (err FileNotFoundError p), d) end;
  rm p := λ d, match d !! p with Some _ => (Ok tt, delete p d) | None => (Raise (err FileNotFoundError p), d) end;
  exists_file p := λ d, (Ok (bool_decide (is_Some (d !! p))), d);
  open_lock_file p := mret tt;
  temporary_suffix := mret "1.0";
  strip_protocol p := p
|}.

(** ** Calls in progress *)

(** Where a call of [_key_lock_held] is: it has a user count, the thread lock,
    the file lock or the re-entrant pass, and gives them back in turn. *)
Inductive stage := Registered | Locked | Entered (saved : option (gset string)) | Unlocking | Leaving.

(** What the call does inside: the body of a [key_lock], or the check, the
    temporary file and the rename of a [conditional_put]. *)
Inductive job :=
| Hold
| CasRead (expected : option string) (payload : string)
| CasChecked (expected : option string) (payload : string)
| CasStaged (expected : option string) (payload tmp : string)
| CasDone.

Record frame := Frame { f_key : string; f_lock : nat; f_stage : stage; f_job : job }.
Definition at_stage (s : stage) (f : frame) : frame := Frame (f_key f) (f_lock f) s (f_job f).
Definition at_job (j : job) (f : frame) : frame := Frame (f_key f) (f_lock f) (f_stage f) j.

(** ** Frame stacks and sums over them *)

Abbreviation stacks := (gmap thread (list frame)).
Definition stack (m : stacks) (t : thread) : list frame := default [] (m !! t).

Definition count (p : frame → bool) (st : list frame) : nat := length (List.filter p st).
Definition total (p : thread → frame → bool) (m : stacks) : nat :=
  sum_list_with (λ ts, count (p ts.1) ts.2) (map_to_list m).

Lemma total_delete p m t : total p m = (count (p t) (stack m t) + total p (delete t m))%nat.
Proof.
  unfold total, stack. destruct (m !! t) as [st|] eqn:E; cbn.
  - rewrite <- (insert_delete_id m t st) at 1 by done.
    rewrite (map_to_list_insert (delete t m)) by apply lookup_delete_eq. done.
  - by rewrite delete_id.
Qed.

Lemma total_insert p m t st :
  (total p (<[t := st]> m) + count (p t) (stack m t) = total p m + count (p t) st)%nat.
Proof.
  rewrite (total_delete p m t), (total_delete p (<[t := st]> m) t).
  assert (stack (<[t := st]> m) t = st) as -> by (unfold stack; by rewrite lookup_insert_eq).
  rewrite delete_insert_eq. lia.
Qed.

Lemma count_pos p st f : f ∈ st → p f = true → (0 < count p st)%nat.
Proof.
  intros Hf Hp. unfold count. assert (Hin : In f (List.filter p st)).
  { apply filter_In. by rewrite <- list_elem_of_In. }
  destruct (List.filter p st); [done|cbn; lia].
Qed.

Lemma total_pos p m t f : f ∈ stack m t → p t f = true → (0 < total p m)%nat.
Proof. intros Hf Hp. rewrite (total_delete p m t). pose proof (count_pos _ _ _ Hf Hp). lia. Qed.

Lemma total_pos_inv p m : (0 < total p m)%nat → ∃ t f, f ∈ stack m t ∧ p t f = true.
Proof.
  intros Hpos. unfold total in Hpos.
  assert (H : ∃ ts, ts ∈ map_to_list m ∧ (0 < count (p ts.1) ts.2)%nat).
  { induction (map_to_list m) as [|ts l IH]; cbn in Hpos; [lia|].
    destruct (decide (0 < count (p ts.1) ts.2)%nat) as [Hc|Hc]; [exists ts; split; [left|done]|].
    destruct IH as (ts' & ? & ?); [lia|]. exists ts'. split; [by right|done]. }
  destruct H as ([t st] & Hin & Hc). apply elem_of_map_to_list in Hin. unfold count in Hc. cbn in Hc.
  destruct (List.filter (p t) st) as [|f l] eqn:E; cbn in Hc; [lia|].
  assert (Hf : In f (List.filter (p t) st)) by (rewrite E; by left).
  apply filter_In in Hf as [Hf Hp]. exists t, f. split; [|done]. unfold stack. rewrite Hin. by apply list_elem_of_In.
Qed.

Lemma stack_insert m t t' st : stack (<[t := st]> m) t' = if decide (t = t') then st else stack m t'.
Proof. unfold stack. case_decide; [subst; by rewrite lookup_insert_eq|by rewrite lookup_insert_ne]. Qed.

(** ** The machine *)

(** What happened to the versions, in order: a read of a key, a refused write
    and a committed one. *)
Inductive version_event :=
| ReadVersion (path : string) (seen : option string)
| Conflict (path : string) (expected : option string)
| Commit (path : string) (expected : option string) (payload : string).

Record config := Config { c_world : world files; c_stacks : stacks; c_log : list version_event }.

Section machine.
Context `{Sha256}.
Variable self : FileStateStore.

Abbreviation scope f := (_lock_scope self (f_key f)).
Abbreviation path k := (_state_path self k).
Abbreviation lockfile k := (lock_path (W := files) self k).

(** A thread makes a call from the outside or inside a section it holds; a
    memory backend exists in one process, here number 0. *)
Definition may_call (st : list frame) : Prop :=
  match st with
  | [] => True
  | f :: _ => f_job f = Hold ∧ match f_stage f with Entered _ => True | _ => False end
  end.
Definition may_start (t : thread) : Prop := is_local self = true ∨ t.1 = 0%nat.

Definition flock_free (t : thread) (key : string) (w : world files) : bool :=
  negb (is_local self) || bool_decide (_lock_scope self key ∈ held t w) || may_flock (lockfile key) w.

(** The versions a failed [pipe_file] and a failed clean-up may leave. *)
Definition with_file (d : files) (p : string) (left : option string) : files :=
  match left with Some s => <[p := s]> d | None => delete p d end.

Inductive step : config → config → Prop :=
| StBegin t key j w m g l w' :
    may_start t → may_call (stack m t) → (j = Hold ∨ ∃ e p, j = CasRead e p) →
    enter_registry t (_lock_scope self key) w = (Ok l, w') →
    step (Config w m g) (Config w' (<[t := Frame key l Registered j :: stack m t]> m) g)
| StAcquire t f st w m g w' :
    stack m t = f :: st → f_stage f = Registered → may_acquire t (f_lock f) w = true →
    acquire t (f_lock f) w = (Ok tt, w') →
    step (Config w m g) (Config w' (<[t := at_stage Locked f :: st]> m) g)
| StFlock t f st w m g saved w' :
    stack m t = f :: st → f_stage f = Locked → flock_free t (f_key f) w = true →
    file_lock_enter self t (f_key f) w = (Ok saved, w') →
    step (Config w m g) (Config w' (<[t := at_stage (Entered saved) f :: st]> m) g)
| StFlockFail t f st w m g :
    stack m t = f :: st → f_stage f = Locked →
    step (Config w m g) (Config w (<[t := at_stage Unlocking f :: st]> m) g)
| StCheck t f st w m g saved e p :
    stack m t = f :: st → f_stage f = Entered saved → f_job f = CasRead e p →
    same_version e (disk w !! path (f_key f)) = true →
    step (Config w m g) (Config w (<[t := at_job (CasChecked e p) f :: st]> m) g)
| StConflict t f st w m g saved e p :
    stack m t = f :: st → f_stage f = Entered saved → f_job f = CasRead e p →
    same_version e (disk w !! path (f_key f)) = false →
    step (Config w m g) (Config w (<[t := at_job CasDone f :: st]> m) (g ++ [Conflict (path (f_key f)) e]))
| StReadFail t f st w m g saved e p :
    stack m t = f :: st → f_stage f = Entered saved → f_job f = CasRead e p →
    step (Config w m g) (Config w (<[t := at_job CasDone f :: st]> m) g)
| StStage t f st w m g saved e p suffix d :
    stack m t = f :: st → f_stage f = Entered saved → f_job f = CasChecked e p →
    disk w !! _temporary_path self p suffix = None →
    pipe_file (_temporary_path self p suffix) p (disk w) = (Ok tt, d) →
    step (Config w m g)
      (Config (set_disk d w) (<[t := at_job (CasStaged e p (_temporary_path self p suffix)) f :: st]> m) g)
| StStageFail t f st w m g saved e p suffix left :
    stack m t = f :: st → f_stage f = Entered saved → f_job f = CasChecked e p →
    disk w !! _temporary_path self p suffix = None →
    step (Config w m g)
      (Config (set_disk (with_file (disk w) (_temporary_path self p suffix) left) w) (<[t := at_job CasDone f :: st]> m) g)
| StCommit t f st w m g saved e p tmp d :
    stack m t = f :: st → f_stage f = Entered saved → f_job f = CasStaged e p tmp →
    mv tmp (path (f_key f)) (disk w) = (Ok tt, d) →
    step (Config w m g)
      (Config (set_disk d w) (<[t := at_job CasDone f :: st]> m) (g ++ [Commit (path (f_key f)) e p]))
| StCommitFail t f st w m g saved e p tmp left :
    stack m t = f :: st → f_stage f = Entered saved → f_job f = CasStaged e p tmp →
    step (Config w m g) (Config (set_disk (with_file (disk w) tmp left) w) (<[t := at_job CasDone f :: st]> m) g)
| StExit t f st w m g saved w' :
    stack m t = f :: st → f_stage f = Entered saved → (f_job f = Hold ∨ f_job f = CasDone) →
    file_lock_exit self t (f_key f) saved w = (Ok tt, w') →
    step (Config w m g) (Config w' (<[t := at_stage Unlocking f :: st]> m) g)
| StRelease t f st w m g w' :
    stack m t = f :: st → f_stage f = Unlocking → release (f_lock f) w = (Ok tt, w') →
    step (Config w m g) (Config w' (<[t := at_stage Leaving f :: st]> m) g)
| StLeave t f st w m g w' :
    stack m t = f :: st → f_stage f = Leaving → leave_registry t (scope f) w = (Ok tt, w') →
    step (Config w m g) (Config w' (<[t := st]> m) g)
| StRead key w m g :
    step (Config w m g) (Config w m (g ++ [ReadVersion (path key) (disk w !! path key)])).

Definition initial (d : files) : config := Config (World ∅ [] ∅ ∅ d) ∅ [].

Inductive reachable (d : files) : config → Prop :=
| ReachInit : reachable d (initial d)
| ReachStep c c' : reachable d c → step c c' → reachable d c'.

(** ** The abstract compare-and-swap register *)

(** One atomic step on the versions of all keys; [None] when the event is not
    what a register in that state does. *)
Definition register_step (r : files) (e : version_event) : option files :=
  match e with
  | ReadVersion p seen => if bool_decide (seen = r !! p) then Some r else None
  | Conflict p expected => if same_version expected (r !! p) then None else Some r
  | Commit p expected payload => if same_version expected (r !! p) then Some (<[p := payload]> r) else None
  end.
Definition register_run (r : files) (l : list version_event) : option files :=
  foldl (λ r e, r ≫= λ r, register_step r e) (Some r) l.

Lemma register_run_snoc r l e : register_run r (l ++ [e]) = register_run r l ≫= λ r, register_step r e.
Proof. unfold register_run. by rewrite foldl_app. Qed.

(** ** The invariant *)

Definition in_scope (p : nat) (sc : string) (t : thread) (f : frame) : bool :=
  bool_decide (t.1 = p) && bool_decide (scope f = sc).
Definition has_lock (s : stage) : bool := match s with Registered | Leaving => false | _ => true end.
Definition holding (l : nat) (_ : thread) (f : frame) : bool := bool_decide (f_lock f = l) && has_lock (f_stage f).

(** The scopes a thread holds, read off its frames: each took what the frames
    below it held, and its own. *)
Fixpoint stack_ok (h : gset string) (st : list frame) : Prop :=
  match st with
  | [] => h = ∅
  | f :: st' =>
      may_call st' ∧
      match f_stage f with
      | Entered (Some s) => is_local self = true ∧ scope f ∉ s ∧ h = s ∪ {[scope f]} ∧ stack_ok s st'
      | Entered None => (is_local self = true → scope f ∈ h) ∧ stack_ok h st'
      | _ => stack_ok h st'
      end
  end.

Definition is_temporary (tmp p : string) : Prop := ∃ suffix, tmp = _temporary_path self p suffix.

Definition job_ok (d : files) (f : frame) : Prop :=
  match f_job f with
  | CasChecked e p => same_version e (d !! path (f_key f)) = true ∧ ∃ s, f_stage f = Entered s
  | CasStaged e p tmp => same_version e (d !! path (f_key f)) = true ∧ (∃ s, f_stage f = Entered s) ∧
      is_temporary tmp p ∧ d !! tmp = Some p
  | _ => True
  end.

Definition staged_at (f : frame) : option string := match f_job f with CasStaged _ _ tmp => Some tmp | _ => None end.

Record inv (d0 : files) (c : config) : Prop := {
  i_users p sc : default 0%nat (_GLOBAL_LOCKS_USERS (registry_of p (c_world c)) !! sc) = total (in_scope p sc) (c_stacks c);
  i_users_pos p sc n : _GLOBAL_LOCKS_USERS (registry_of p (c_world c)) !! sc = Some n → (0 < n)%nat;
  i_lock t f : f ∈ stack (c_stacks c) t →
    _GLOBAL_LOCKS (registry_of t.1 (c_world c)) !! scope f = Some (f_lock f);
  i_lock_used p sc l : _GLOBAL_LOCKS (registry_of p (c_world c)) !! sc = Some l →
    (0 < total (in_scope p sc) (c_stacks c))%nat ∧ (l < length (rlocks (c_world c)))%nat;
  i_lock_inj p sc p' sc' l : _GLOBAL_LOCKS (registry_of p (c_world c)) !! sc = Some l →
    _GLOBAL_LOCKS (registry_of p' (c_world c)) !! sc' = Some l → p = p' ∧ sc = sc';
  i_rlock l k : rlocks (c_world c) !! l = Some k →
    lock_depth k = total (holding l) (c_stacks c) ∧ (lock_depth k = 0%nat → lock_owner k = None) ∧
    ∀ t f, f ∈ stack (c_stacks c) t → holding l t f = true → lock_owner k = Some t;
  i_flock t f s : f ∈ stack (c_stacks c) t → f_stage f = Entered (Some s) →
    file_locks (c_world c) !! lockfile (f_key f) = Some t;
  i_flock_used p t : file_locks (c_world c) !! p = Some t →
    ∃ f s, f ∈ stack (c_stacks c) t ∧ f_stage f = Entered (Some s) ∧ lockfile (f_key f) = p;
  i_stack t : stack_ok (held t (c_world c)) (stack (c_stacks c) t);
  i_start t : stack (c_stacks c) t ≠ [] → may_start t;
  i_job t f : f ∈ stack (c_stacks c) t → job_ok (disk (c_world c)) f;
  i_staged t t' f f' tmp : f ∈ stack (c_stacks c) t → f' ∈ stack (c_stacks c) t' → t ≠ t' →
    staged_at f = Some tmp → staged_at f' ≠ Some tmp;
  i_log : ∃ r, register_run d0 (c_log c) = Some r ∧ ∀ k, r !! path k = disk (c_world c) !! path k
}.

(** ** Facts about the blocks *)

Lemma registry_set p f (w : world files) p' :
  registry_of p' (set_registry p f w) = if decide (p = p') then f (registry_of p w) else registry_of p' w.
Proof.
  unfold registry_of, set_registry. cbn. case_decide; [subst; by rewrite lookup_insert_eq|by rewrite lookup_insert_ne].
Qed.

Lemma enter_facts t sc (w : world files) l w' : enter_registry t sc w = (Ok l, w') →
  let r := registry_of t.1 w in
  (∀ p, registry_of p w' = if decide (t.1 = p) then
     {| _GLOBAL_LOCKS := <[sc := l]> (_GLOBAL_LOCKS r);
        _GLOBAL_LOCKS_USERS := <[sc := (default 0 (_GLOBAL_LOCKS_USERS r !! sc) + 1)%nat]> (_GLOBAL_LOCKS_USERS r) |}
     else registry_of p w) ∧
  file_locks w' = file_locks w ∧ (∀ t', held t' w' = held t' w) ∧ disk w' = disk w ∧
  (_GLOBAL_LOCKS r !! sc = Some l ∧ rlocks w' = rlocks w ∨
   _GLOBAL_LOCKS r !! sc = None ∧ l = length (rlocks w) ∧
   rlocks w' = rlocks w ++ [{| lock_owner := None; lock_depth := 0 |}]).
Proof.
  unfold enter_registry, mbind, M_bind, read. cbn.
  destruct (_GLOBAL_LOCKS (registry_of t.1 w) !! sc) as [l'|] eqn:E; cbn; intros [= <- <-].
  - split_and!; try done; [|by left]. intros p. rewrite registry_set. case_decide; [|done].
    by rewrite (insert_id (_GLOBAL_LOCKS _)) by done.
  - split_and!; try done; [|by right]. intros p. rewrite !registry_set. rewrite !(decide_True (P := t.1 = t.1)) by done. by case_decide.
Qed.

Lemma leave_facts t sc (w w' : world files) : leave_registry t sc w = (Ok tt, w') →
  let r := registry_of t.1 w in
  let remaining := (default 0 (_GLOBAL_LOCKS_USERS r !! sc) - 1)%nat in
  (∀ p, registry_of p w' = if decide (t.1 = p) then
     (if (0 <? remaining)%nat then
       {| _GLOBAL_LOCKS := _GLOBAL_LOCKS r; _GLOBAL_LOCKS_USERS := <[sc := remaining]> (_GLOBAL_LOCKS_USERS r) |}
      else {| _GLOBAL_LOCKS := delete sc (_GLOBAL_LOCKS r); _GLOBAL_LOCKS_USERS := delete sc (_GLOBAL_LOCKS_USERS r) |})
     else registry_of p w) ∧
  file_locks w' = file_locks w ∧ (∀ t', held t' w' = held t' w) ∧ disk w' = disk w ∧ rlocks w' = rlocks w.
Proof.
  unfold leave_registry, modify. intros [= <-]. split_and!; try done. intros p. by rewrite registry_set.
Qed.

Lemma flock_facts t key (w : world files) saved w' : file_lock_enter self t key w = (Ok saved, w') →
  (saved = None ∧ w' = w ∧ (is_local self = true → _lock_scope self key ∈ held t w)) ∨
  (saved = Some (held t w) ∧ is_local self = true ∧ _lock_scope self key ∉ held t w ∧
   w' = set_held t (held t w ∪ {[_lock_scope self key]}) (set_file_locks <[lockfile key := t]> w)).
Proof.
  unfold file_lock_enter, mbind, M_bind, read. cbn.
  destruct (negb (is_local self) || bool_decide (_lock_scope self key ∈ held t w)) eqn:E; cbn; intros [= <- <-].
  - left. split_and!; [done..|]. intros Hl. rewrite Hl in E. by apply bool_decide_eq_true in E.
  - right. apply orb_false_iff in E as [El%negb_false_iff Es%bool_decide_eq_false]. split_and!; [done..|].
    by destruct w.
Qed.

Lemma unflock_facts t key saved (w w' : world files) : file_lock_exit self t key saved w = (Ok tt, w') →
  match saved with
  | None => w' = w
  | Some before => w' = set_file_locks (delete (lockfile key)) (set_held t before w)
  end.
Proof. destruct saved; cbn; by intros [= <-]. Qed.

Lemma held_set t s (w : world files) t' : held t' (set_held t s w) = if decide (t = t') then s else held t' w.
Proof.
  unfold held, set_held. cbn. case_decide; [subst; by rewrite lookup_insert_eq|by rewrite lookup_insert_ne].
Qed.

(** *** Names *)

Lemma scope_path k k' : _lock_scope self k = _lock_scope self k' ↔ path k = path k'.
Proof. unfold _lock_scope. split; [|by intros ->]. intros E. by do 4 apply (inj (String.append _)) in E. Qed.

Lemma lockfile_path k k' : lockfile k = lockfile k' ↔ path k = path k'.
Proof.
  unfold lock_path. cbn. split; [|by intros ->]. intros E.
  assert (Hr : ∀ a b c : string, a +:+ c = b +:+ c → a = b); [|by eapply Hr].
  clear. intros a b c E. apply (f_equal String.list_ascii_of_string) in E.
  assert (Ha : ∀ x y, String.list_ascii_of_string (x +:+ y) = String.list_ascii_of_string x ++ String.list_ascii_of_string y).
  { intros x y. induction x as [|ch x IH]; [done|]. change (String ch x +:+ y) with (String ch (x +:+ y)). cbn. by rewrite IH. }
  rewrite !Ha in E. apply app_inv_tail in E.
  rewrite <- (String.string_of_list_ascii_of_string a), <- (String.string_of_list_ascii_of_string b). by rewrite E.
Qed.

(** *** Frames of the next configuration *)

Lemma stack_elem m t st t' f : f ∈ stack (<[t := st]> m) t' ↔ (t = t' ∧ f ∈ st) ∨ (t ≠ t' ∧ f ∈ stack m t').
Proof. rewrite stack_insert. case_decide; naive_solver. Qed.

Lemma top_elem m t f st g : stack m t = f :: st → g ∈ st → g ∈ stack m t.
Proof. intros ->. by right. Qed.
Lemma top_elem_head m t f st : stack m t = f :: st → f ∈ stack m t.
Proof. intros ->. by left. Qed.

Lemma total_update p m t f f' st : stack m t = f :: st →
  (total p (<[t := f' :: st]> m) + (if p t f then 1 else 0) = total p m + (if p t f' then 1 else 0))%nat.
Proof.
  intros Hs. pose proof (total_insert p m t (f' :: st)) as E. rewrite Hs in E.
  unfold count in E. cbn in E. destruct (p t f), (p t f'); cbn in E; lia.
Qed.

Lemma total_same p m t f f' st :
  stack m t = f :: st → p t f' = p t f → total p (<[t := f' :: st]> m) = total p m.
Proof. intros Hs Hp. pose proof (total_update p m t f f' st Hs) as E. rewrite Hp in E. lia. Qed.

(** Below the top of a stack, every frame is an open section. *)
Lemma stack_ok_hold h st : stack_ok h st → ∀ f, f ∈ tail st → f_job f = Hold.
Proof.
  revert h. induction st as [|f st IH]; intros h Hok g Hg; [by apply not_elem_of_nil in Hg|].
  cbn in Hg. destruct st as [|f' st]; [by apply not_elem_of_nil in Hg|].
  destruct Hok as [[Hj _] Hok]. apply elem_of_cons in Hg as [-> |Hg]; [done|].
  assert (Hok' : ∃ h', stack_ok h' (f' :: st)) by (destruct (f_stage f) as [| |[]| |]; naive_solver).
  destruct Hok' as [h' Hok']. by apply (IH h').
Qed.

Lemma stack_ok_entered h st : stack_ok h st → is_local self = true →
  ∀ f s, f ∈ st → f_stage f = Entered s → scope f ∈ h.
Proof.
  intros Hok Hl. revert h Hok. induction st as [|f st IH]; intros h Hok g s Hg Hs; [by apply not_elem_of_nil in Hg|].
  destruct Hok as [_ Hok]. apply elem_of_cons in Hg as [-> |Hg].
  - rewrite Hs in Hok. destruct s as [s|]; [|tauto]. destruct Hok as (_ & _ & -> & _). set_solver.
  - destruct (f_stage f) as [| |[s'|]| |].
    1,2,5,6: by eapply IH.
    + destruct Hok as (_ & _ & -> & Hok). pose proof (IH _ Hok _ _ Hg Hs). set_solver.
    + destruct Hok as [_ Hok]. by eapply IH.
Qed.

Lemma stack_ok_taken h st x : stack_ok h st → x ∈ h →
  ∃ f s, f ∈ st ∧ f_stage f = Entered (Some s) ∧ scope f = x.
Proof.
  revert h. induction st as [|f st IH]; intros h Hok Hx; [cbn in Hok; set_solver|].
  destruct Hok as [_ Hok].
  assert (Hrest : ∀ h', stack_ok h' st → x ∈ h' → ∃ g s, g ∈ f :: st ∧ f_stage g = Entered (Some s) ∧ scope g = x).
  { intros h' Hok' Hx'. destruct (IH h' Hok' Hx') as (g & s & ? & ? & ?). exists g, s. split; [by right|done]. }
  destruct (f_stage f) as [| |[s'|]| |] eqn:Ef.
  1,2,5,6: by eapply Hrest.
  - destruct Hok as (_ & _ & -> & Hok). apply elem_of_union in Hx as [Hx|Hx]; [by eapply Hrest|].
    apply elem_of_singleton in Hx as ->. exists f, s'. split; [left|done].
  - destruct Hok as [_ Hok]. by eapply Hrest.
Qed.

(** ** Exclusion *)

(** Two threads that are inside the section of the same key are one. *)
Lemma inv_exclusive d0 c t t' f f' s s' : inv d0 c →
  f ∈ stack (c_stacks c) t → f' ∈ stack (c_stacks c) t' → f_stage f = Entered s → f_stage f' = Entered s' →
  path (f_key f) = path (f_key f') → t = t'.
Proof.
  intros Hinv Hf Hf' Hs Hs' Hp. pose proof (proj2 (scope_path _ _) Hp) as Hsc.
  destruct (is_local self) eqn:Hl.
  - pose proof (stack_ok_entered _ _ (i_stack _ _ Hinv t) Hl _ _ Hf Hs) as Hh.
    pose proof (stack_ok_entered _ _ (i_stack _ _ Hinv t') Hl _ _ Hf' Hs') as Hh'.
    destruct (stack_ok_taken _ _ _ (i_stack _ _ Hinv t) Hh) as (g & u & Hg & Hu & Eg).
    destruct (stack_ok_taken _ _ _ (i_stack _ _ Hinv t') Hh') as (g' & u' & Hg' & Hu' & Eg').
    pose proof (i_flock _ _ Hinv _ _ _ Hg Hu) as Ht. pose proof (i_flock _ _ Hinv _ _ _ Hg' Hu') as Ht'.
    rewrite <- Hsc, <- Eg in Eg'. apply scope_path, lockfile_path in Eg'. rewrite Eg', Ht in Ht'. by injection Ht'.
  - assert (Hz : t.1 = t'.1).
    { assert (∀ u g, g ∈ stack (c_stacks c) u → u.1 = 0%nat) as Hzero.
      { intros u g Hg. destruct (i_start _ _ Hinv u) as [?|?]; [|congruence|done].
        intros E. rewrite E in Hg. by apply not_elem_of_nil in Hg. }
      by rewrite (Hzero _ _ Hf), (Hzero _ _ Hf'). }
    pose proof (i_lock _ _ Hinv _ _ Hf) as Ek. pose proof (i_lock _ _ Hinv _ _ Hf') as Ek'.
    rewrite <- Hz, <- Hsc, Ek in Ek'. injection Ek' as Ek'.
    destruct (i_lock_used _ _ Hinv _ _ _ Ek) as [_ Hlen].
    destruct (rlocks (c_world c) !! f_lock f) as [k|] eqn:E; [|by apply lookup_ge_None in E; lia].
    destruct (i_rlock _ _ Hinv _ _ E) as (_ & _ & Ho).
    assert (lock_owner k = Some t) as Ho1.
    { eapply Ho; [exact Hf|]. unfold holding. rewrite Hs, bool_decide_eq_true_2; done. }
    assert (lock_owner k = Some t') as Ho2.
    { eapply Ho; [exact Hf'|]. unfold holding. rewrite Hs', <- Ek', bool_decide_eq_true_2; done. }
    congruence.
Qed.

(** ** Preservation *)

Lemma elem_update m t f f' st u x : stack m t = f :: st →
  x ∈ stack (<[t := f' :: st]> m) u → (u = t ∧ x = f') ∨ (u = t ∧ x ∈ st) ∨ (u ≠ t ∧ x ∈ stack m u).
Proof.
  intros Hs [[<- Hx]|[Hne Hx]]%stack_elem; [|naive_solver].
  apply elem_of_cons in Hx as [-> |Hx]; naive_solver.
Qed.

(** A frame that is neither the new top nor another thread's old one *)
Ltac old_frame Hs Hx :=
  destruct (elem_update _ _ _ _ _ _ _ Hs Hx) as [[-> ->]|[[-> Hx']|[? Hx']]];
  [ | apply (top_elem _ _ _ _ _ Hs) in Hx' | ].

Lemma inv_job d0 w m g t f j st d g' :
  inv d0 (Config w m g) → stack m t = f :: st →
  (∀ u x, x ∈ stack (<[t := at_job j f :: st]> m) u → job_ok d x) →
  (∀ tmp, staged_at (at_job j f) = Some tmp → ∀ u x, u ≠ t → x ∈ stack m u → staged_at x ≠ Some tmp) →
  (∃ r, register_run d0 g' = Some r ∧ ∀ k, r !! path k = d !! path k) →
  inv d0 (Config (set_disk d w) (<[t := at_job j f :: st]> m) g').
Proof.
  intros Hinv Hs Hjob Hstaged Hlog. set (f' := at_job j f) in *.
  assert (Hin : f ∈ stack m t) by (rewrite Hs; left).
  assert (Hsame : ∀ p, p t f' = p t f → total p (<[t := f' :: st]> m) = total p m) by (intros p; apply total_same; done).
  split; cbn; intros *.
  - intros. rewrite Hsame by done. apply (i_users _ _ Hinv).
  - apply (i_users_pos _ _ Hinv).
  - intros Hx. old_frame Hs Hx; [exact (i_lock _ _ Hinv _ _ Hin)|by apply (i_lock _ _ Hinv)..].
  - rewrite Hsame by done. apply (i_lock_used _ _ Hinv).
  - apply (i_lock_inj _ _ Hinv).
  - intros Hk. destruct (i_rlock _ _ Hinv _ _ Hk) as (Hd & Hz & Ho). rewrite Hsame by done. split_and!; [done..|].
    intros u x Hx Hh. old_frame Hs Hx; [exact (Ho _ _ Hin Hh)|by eapply Ho..].
  - intros Hx Hst. old_frame Hs Hx; [exact (i_flock _ _ Hinv _ _ _ Hin Hst)|by eapply (i_flock _ _ Hinv)..].
  - intros Hp. destruct (i_flock_used _ _ Hinv _ _ Hp) as (x & s & Hx & Hst & Hl).
    destruct (decide (t0 = t)) as [-> |Hne].
    + cbn in Hx. rewrite Hs in Hx. apply elem_of_cons in Hx as [-> |Hx].
      * exists f', s. split; [|done]. apply stack_elem. left. split; [done|left].
      * exists x, s. split; [|done]. apply stack_elem. left. split; [done|by right].
    + exists x, s. split; [|done]. apply stack_elem. by right.
  - pose proof (i_stack _ _ Hinv t0) as Hok. rewrite stack_insert. case_decide; [subst t0|done].
    cbn in Hok. rewrite Hs in Hok. exact Hok.
  - rewrite stack_insert. case_decide; [subst t0|apply (i_start _ _ Hinv)].
    intros _. apply (i_start _ _ Hinv). cbn. by rewrite Hs.
  - apply Hjob.
  - pose proof (stack_ok_hold _ _ (i_stack _ _ Hinv t)) as Hhold. cbn in Hhold. rewrite Hs in Hhold. cbn in Hhold.
    assert (Htail : ∀ x u, x ∈ st → staged_at x ≠ Some u).
    { intros x u Hx. unfold staged_at. by rewrite (Hhold _ Hx). }
    intros Hx Hy Hne Hsx Hsy. destruct (decide (t0 = t)) as [-> |Hn0]; [|destruct (decide (t' = t)) as [-> |Hn1]].
    + destruct (elem_update _ _ _ _ _ _ _ Hs Hx) as [[_ ->]|[[_ Hx']|[? _]]]; [|by eapply Htail|done].
      destruct (elem_update _ _ _ _ _ _ _ Hs Hy) as [[? _]|[[? _]|[_ Hy']]]; [congruence..|].
      by eapply (Hstaged _ Hsx t').
    + destruct (elem_update _ _ _ _ _ _ _ Hs Hy) as [[_ ->]|[[_ Hy']|[? _]]]; [|by eapply Htail|done].
      destruct (elem_update _ _ _ _ _ _ _ Hs Hx) as [[? _]|[[? _]|[_ Hx']]]; [congruence..|].
      by eapply (Hstaged _ Hsy t0).
    + apply stack_elem in Hx as [[? _]|[_ Hx]]; [congruence|]. apply stack_elem in Hy as [[? _]|[_ Hy]]; [congruence|].
      by apply (i_staged _ _ Hinv _ _ _ _ _ Hx Hy Hne Hsx).
  - exact Hlog.
Qed.

(** Digests are hexadecimal, so a temporary name is no state file. *)
Hypothesis digest_hex : ∀ x, is_sha256 (PyStr (sha256 x)) = true.

Lemma temporary_not_path p suffix k : _temporary_path self p suffix ≠ path k.
Proof.
  unfold _temporary_path, _state_path. intros E. apply (inj (String.append _)) in E.
  pose proof (digest_hex k) as Hk. unfold is_sha256 in Hk. apply andb_true_iff in Hk as [Hlen Hhex].
  destruct (sha256 k) as [|c r]; [by apply Nat.eqb_eq in Hlen|].
  injection E as E _. subst c. discriminate Hhex.
Qed.

(** A change of the disk that other writers do not see *)
Lemma job_ok_disk d d' x :
  d' !! path (f_key x) = d !! path (f_key x) → (∀ tmp, staged_at x = Some tmp → d' !! tmp = d !! tmp) →
  job_ok d x → job_ok d' x.
Proof.
  intros Hp Ht. unfold job_ok, staged_at in *. destruct (f_job x); rewrite ?Hp; try done.
  intros (? & ? & ? & E). split_and!; try done. by rewrite Ht.
Qed.

(** The job of [t] changes and the disk with it: the frames of other threads
    stay sound when the disk keeps what they rely on. *)
Lemma others_ok d0 w m g t f j st d :
  inv d0 (Config w m g) → stack m t = f :: st → job_ok d (at_job j f) →
  (∀ u x, u ≠ t → x ∈ stack m u → staged_at x ≠ None ∨ (∃ e p, f_job x = CasChecked e p) →
     d !! path (f_key x) = disk w !! path (f_key x) ∧ ∀ tmp, staged_at x = Some tmp → d !! tmp = disk w !! tmp) →
  ∀ u x, x ∈ stack (<[t := at_job j f :: st]> m) u → job_ok d x.
Proof.
  intros Hinv Hs Hj Hd u x Hx.
  destruct (elem_update _ _ _ _ _ _ _ Hs Hx) as [[-> ->]|[[-> Hx']|[Hne Hx']]]; [done| |].
  - pose proof (stack_ok_hold _ _ (i_stack _ _ Hinv t)) as Hhold. cbn in Hhold. rewrite Hs in Hhold.
    unfold job_ok. by rewrite (Hhold _ Hx').
  - pose proof (i_job _ _ Hinv _ _ Hx') as Hok. cbn in Hok. pose proof (Hd _ _ Hne Hx') as Hd'.
    destruct (f_job x) eqn:Ej; try (unfold job_ok; by rewrite Ej).
    + destruct Hd' as [Hp Ht]; [right; eauto|]. by apply (job_ok_disk (disk w)).
    + destruct Hd' as [Hp Ht]; [left; unfold staged_at; by rewrite Ej|]. by apply (job_ok_disk (disk w)).
Qed.

Lemma set_disk_id (w : world files) : set_disk (disk w) w = w.
Proof. by destruct w. Qed.

Lemma inv_job_same d0 w m g t f j st g' :
  inv d0 (Config w m g) → stack m t = f :: st → job_ok (disk w) (at_job j f) → staged_at (at_job j f) = None →
  (∃ r, register_run d0 g' = Some r ∧ ∀ k, r !! path k = disk w !! path k) →
  inv d0 (Config w (<[t := at_job j f :: st]> m) g').
Proof.
  intros Hinv Hs Hj Hst Hlog. rewrite <- (set_disk_id w) at 1. eapply inv_job; [done|done| | |done].
  - eapply others_ok; [done..|]. by intros.
  - intros tmp Htmp. congruence.
Qed.

Lemma log_snoc d0 w m g e : inv d0 (Config w m g) →
  (∀ r : files, (∀ k, r !! path k = disk w !! path k) → register_step r e = Some r) →
  ∃ r, register_run d0 (g ++ [e]) = Some r ∧ ∀ k, r !! path k = disk w !! path k.
Proof.
  intros Hinv He. destruct (i_log _ _ Hinv) as (r & Hr & Hd). exists r. split; [|done].
  cbn [c_log c_world] in *. rewrite register_run_snoc, Hr. cbn. by apply He.
Qed.

(** What another writer's checked or staged frame says of its key *)
Lemma other_path d0 w m g t f s u x :
  inv d0 (Config w m g) → f ∈ stack m t → f_stage f = Entered s → u ≠ t → x ∈ stack m u →
  staged_at x ≠ None ∨ (∃ e p, f_job x = CasChecked e p) → path (f_key x) ≠ path (f_key f).
Proof.
  intros Hinv Hf Hs Hne Hx Hj Hp. apply Hne. pose proof (i_job _ _ Hinv _ _ Hx) as Hok. unfold job_ok in Hok.
  assert (Hst : ∃ s', f_stage x = Entered s').
  { unfold staged_at in Hj. destruct (f_job x); naive_solver. }
  destruct Hst as [s' Hst]. by apply (inv_exclusive _ _ _ _ _ _ _ _ Hinv Hx Hf Hst Hs).
Qed.

Lemma inv_stage d0 w m g t f st saved e p suffix d :
  inv d0 (Config w m g) → stack m t = f :: st → f_stage f = Entered saved → f_job f = CasChecked e p →
  disk w !! _temporary_path self p suffix = None → d = <[_temporary_path self p suffix := p]> (disk w) →
  inv d0 (Config (set_disk d w) (<[t := at_job (CasStaged e p (_temporary_path self p suffix)) f :: st]> m) g).
Proof.
  intros Hinv Hs Hst Hj Hfree ->. set (tmp := _temporary_path self p suffix) in *.
  assert (Hin : f ∈ stack m t) by (rewrite Hs; left).
  assert (Hp : ∀ k, <[tmp := p]> (disk w) !! path k = disk w !! path k).
  { intros k. apply lookup_insert_ne, temporary_not_path. }
  assert (Hfresh : ∀ u x, x ∈ stack m u → staged_at x ≠ Some tmp).
  { intros u x Hx E. pose proof (i_job _ _ Hinv _ _ Hx) as Hok. unfold job_ok, staged_at in *. cbn in Hok.
    destruct (f_job x); try done. injection E as ->. destruct Hok as (_ & _ & _ & E). congruence. }
  eapply inv_job; [done|done| | |].
  - eapply others_ok; [done|done| |].
    + pose proof (i_job _ _ Hinv _ _ Hin) as Hok. unfold job_ok in *. rewrite Hj in Hok. cbn in *. rewrite Hp.
      destruct Hok as [? ?]. split_and!; [done..|by exists suffix|by rewrite lookup_insert_eq].
    + intros u x Hne Hx _. split; [apply Hp|]. intros tmp' Ht. apply lookup_insert_ne. intros <-. by apply (Hfresh u x).
  - cbn. intros tmp' [= <-] u x _ Hx. by apply (Hfresh u).
  - destruct (i_log _ _ Hinv) as (r & Hr & Hd). exists r. split; [done|]. intros k. by rewrite Hp.
Qed.

Lemma inv_commit d0 w m g t f st saved e p tmp d :
  inv d0 (Config w m g) → stack m t = f :: st → f_stage f = Entered saved → f_job f = CasStaged e p tmp →
  mv tmp (path (f_key f)) (disk w) = (Ok tt, d) →
  inv d0 (Config (set_disk d w) (<[t := at_job CasDone f :: st]> m) (g ++ [Commit (path (f_key f)) e p])).
Proof.
  intros Hinv Hs Hst Hj Hmv. assert (Hin : f ∈ stack m t) by (rewrite Hs; left).
  pose proof (i_job _ _ Hinv _ _ Hin) as Hok. unfold job_ok in Hok. rewrite Hj in Hok.
  destruct Hok as (Hv & _ & [suffix Htmp] & Hfile). cbn in Hmv, Hv, Hfile. rewrite Hfile in Hmv. injection Hmv as <-.
  assert (Hne_tmp : ∀ k, tmp ≠ path k) by (intros k; rewrite Htmp; apply temporary_not_path).
  eapply inv_job; [done|done| |done|].
  - eapply others_ok; [done|done|done|]. intros u x Hne Hx Hcas.
    pose proof (other_path _ _ _ _ _ _ _ _ _ Hinv Hin Hst Hne Hx Hcas) as Hp. split.
    + rewrite lookup_insert_ne by done. by apply lookup_delete_ne.
    + intros tmp' Ht. assert (Htmp' : tmp' ≠ path (f_key f)).
      { pose proof (i_job _ _ Hinv _ _ Hx) as Hok. unfold job_ok, staged_at in *.
        destruct (f_job x); try done. injection Ht as ->. destruct Hok as (_ & _ & [sfx ->] & _).
        apply temporary_not_path. }
      rewrite lookup_insert_ne by done. apply lookup_delete_ne. intros <-.
      eapply (i_staged _ _ Hinv u t x f tmp Hx Hin Hne Ht). unfold staged_at. by rewrite Hj.
  - destruct (i_log _ _ Hinv) as (r & Hr & Hd). cbn [c_log c_world] in Hr, Hd. exists (<[path (f_key f) := p]> r).
    rewrite register_run_snoc, Hr. cbn. rewrite Hd, Hv. split; [done|]. intros k.
    destruct (decide (path (f_key f) = path k)) as [->|Hk]; [by rewrite !lookup_insert_eq|].
    rewrite !lookup_insert_ne, lookup_delete_ne by done. apply Hd.
Qed.

(** A failed write leaves the versions alone. *)
Lemma inv_abort d0 w m g t f st tmp p left :
  inv d0 (Config w m g) → stack m t = f :: st → is_temporary tmp p →
  (∀ u x, u ≠ t → x ∈ stack m u → staged_at x ≠ Some tmp) →
  inv d0 (Config (set_disk (with_file (disk w) tmp left) w) (<[t := at_job CasDone f :: st]> m) g).
Proof.
  intros Hinv Hs [suffix Htmp] Hfresh.
  assert (Hother : ∀ q, tmp ≠ q → with_file (disk w) tmp left !! q = disk w !! q).
  { intros q Hq. unfold with_file. destruct left; [by apply lookup_insert_ne|by apply lookup_delete_ne]. }
  assert (Hp : ∀ k, with_file (disk w) tmp left !! path k = disk w !! path k).
  { intros k. apply Hother. rewrite Htmp. apply temporary_not_path. }
  eapply inv_job; [done|done| |done|].
  - eapply others_ok; [done|done|done|]. intros u x Hne Hx _. split; [apply Hp|]. intros tmp' Ht. apply Hother.
    intros <-. by apply (Hfresh u x).
  - destruct (i_log _ _ Hinv) as (r & Hr & Hd). exists r. split; [done|]. intros k. by rewrite Hp.
Qed.

(** *** Lock steps *)

Definition rlock_ok (w : world files) (m : stacks) : Prop := ∀ l k, rlocks w !! l = Some k →
  lock_depth k = total (holding l) m ∧ (lock_depth k = 0%nat → lock_owner k = None) ∧
  ∀ t f, f ∈ stack m t → holding l t f = true → lock_owner k = Some t.
Definition flock_ok (w : world files) (m : stacks) : Prop :=
  (∀ t f s, f ∈ stack m t → f_stage f = Entered (Some s) → file_locks w !! lockfile (f_key f) = Some t) ∧
  (∀ p t, file_locks w !! p = Some t →
     ∃ f s, f ∈ stack m t ∧ f_stage f = Entered (Some s) ∧ lockfile (f_key f) = p).

Lemma inv_stage_step d0 w w' m g t f s st :
  let m' := <[t := at_stage s f :: st]> m in
  inv d0 (Config w m g) → stack m t = f :: st → job_ok (disk w) (at_stage s f) →
  (∀ p, registry_of p w' = registry_of p w) → disk w' = disk w → length (rlocks w') = length (rlocks w) →
  rlock_ok w' m' → flock_ok w' m' → (∀ u, stack_ok (held u w') (stack m' u)) →
  inv d0 (Config w' m' g).
Proof.
  intros m' Hinv Hs Hj Hreg Hdisk Hlen Hr [Hf Hfu] Hst.
  assert (Hin : f ∈ stack m t) by (rewrite Hs; left).
  assert (Hsame : ∀ p sc, total (in_scope p sc) m' = total (in_scope p sc) m) by (intros; by apply (total_same _ _ _ f)).
  split; cbn [c_world c_stacks c_log]; intros *; rewrite ?Hreg, ?Hdisk, ?Hlen, ?Hsame.
  - apply (i_users _ _ Hinv).
  - apply (i_users_pos _ _ Hinv).
  - intros Hx. old_frame Hs Hx; [exact (i_lock _ _ Hinv _ _ Hin)|by apply (i_lock _ _ Hinv)..].
  - apply (i_lock_used _ _ Hinv).
  - apply (i_lock_inj _ _ Hinv).
  - apply Hr.
  - apply Hf.
  - apply Hfu.
  - apply Hst.
  - unfold m'. rewrite stack_insert. case_decide; [subst|apply (i_start _ _ Hinv)].
    intros _. apply (i_start _ _ Hinv). cbn. by rewrite Hs.
  - intros Hx. old_frame Hs Hx; [exact Hj|by apply (i_job _ _ Hinv _ _ Hx')..].
  - intros Hx Hy Hne. old_frame Hs Hx.
    + apply stack_elem in Hy as [[? _]|[_ Hy]]; [done|]. exact (i_staged _ _ Hinv _ _ _ _ _ Hin Hy Hne).
    + apply stack_elem in Hy as [[? _]|[_ Hy]]; [done|]. exact (i_staged _ _ Hinv _ _ _ _ _ Hx' Hy Hne).
    + destruct (elem_update _ _ _ _ _ _ _ Hs Hy) as [[-> ->]|[[-> Hy']|[_ Hy']]].
      * exact (i_staged _ _ Hinv _ _ _ _ _ Hx' Hin Hne).
      * apply (top_elem _ _ _ _ _ Hs) in Hy'. exact (i_staged _ _ Hinv _ _ _ _ _ Hx' Hy' Hne).
      * exact (i_staged _ _ Hinv _ _ _ _ _ Hx' Hy' Hne).
  - apply (i_log _ _ Hinv).
Qed.

Lemma idle_job d f s : (∀ s', f_stage f ≠ Entered s') → job_ok d f → job_ok d (at_stage s f).
Proof. unfold job_ok. cbn. destruct (f_job f); try done; intros Hne; naive_solver. Qed.

(** The locks that neither gained nor lost a holder *)
Lemma rlock_ok_same d0 (w w' : world files) m g t f s st :
  inv d0 (Config w m g) → stack m t = f :: st → rlocks w' = rlocks w → has_lock s = has_lock (f_stage f) →
  rlock_ok w' (<[t := at_stage s f :: st]> m).
Proof.
  intros Hinv Hs Hr Hh l k Hk. rewrite Hr in Hk. destruct (i_rlock _ _ Hinv _ _ Hk) as (Hd & Hz & Ho).
  assert (Hsame : ∀ u, holding l u (at_stage s f) = holding l u f) by (intros; unfold holding; cbn; by rewrite Hh).
  assert (Hin : f ∈ stack m t) by (rewrite Hs; left).
  rewrite (total_same _ _ _ f) by done. split_and!; [done..|]. intros u x Hx Hx1.
  old_frame Hs Hx; [rewrite Hsame in Hx1; exact (Ho _ _ Hin Hx1)|by eapply Ho..].
Qed.

Lemma flock_ok_same d0 (w w' : world files) m g t f s st :
  inv d0 (Config w m g) → stack m t = f :: st → file_locks w' = file_locks w →
  (∀ b, f_stage f ≠ Entered (Some b)) → (∀ b, s ≠ Entered (Some b)) →
  flock_ok w' (<[t := at_stage s f :: st]> m).
Proof.
  intros Hinv Hs Hfl Hn Hn'. split; rewrite Hfl.
  - intros u x b Hx Hb. old_frame Hs Hx; [by destruct (Hn' b)|by eapply (i_flock _ _ Hinv)..].
  - intros p u Hp. destruct (i_flock_used _ _ Hinv _ _ Hp) as (x & b & Hx & Hb & Hl). exists x, b. split; [|done].
    apply stack_elem. destruct (decide (t = u)) as [<-|Hne]; [left|by right]. split; [done|].
    cbn in Hx. rewrite Hs in Hx. apply elem_of_cons in Hx as [->|Hx]; [by destruct (Hn b)|by right].
Qed.

Lemma stack_ok_same d0 (w w' : world files) m g t f s st :
  inv d0 (Config w m g) → stack m t = f :: st → (∀ u, held u w' = held u w) →
  (∀ b, f_stage f ≠ Entered b) → (∀ b, s ≠ Entered b) →
  ∀ u, stack_ok (held u w') (stack (<[t := at_stage s f :: st]> m) u).
Proof.
  intros Hinv Hs Hh Hn Hn' u. rewrite Hh, stack_insert. pose proof (i_stack _ _ Hinv u) as Hok. cbn in Hok.
  case_decide; [subst u|done]. rewrite Hs in Hok. destruct Hok as [Hm Hok]. split; [done|]. cbn.
  destruct (f_stage f) as [| |b| |]; [| |by destruct (Hn b)|..]; (destruct s as [| |b'| |]; [| |by destruct (Hn' b')|..]); done.
Qed.

Lemma inv_flock_fail d0 w m g t f st :
  inv d0 (Config w m g) → stack m t = f :: st → f_stage f = Locked →
  inv d0 (Config w (<[t := at_stage Unlocking f :: st]> m) g).
Proof.
  intros Hinv Hs Hst. assert (Hne : ∀ b, f_stage f ≠ Entered b) by (intros b; by rewrite Hst).
  eapply inv_stage_step; [done|done| |done..| | |].
  - apply idle_job; [done|]. apply (i_job _ _ Hinv t). cbn. rewrite Hs. left.
  - eapply rlock_ok_same; [done|done|done|]. by rewrite Hst.
  - eapply flock_ok_same; [done|done|done|by intros|done].
  - by eapply stack_ok_same.
Qed.

Lemma alter_lock (w : world files) l h k l' :
  rlocks (set_rlocks (alter h l) w) !! l' = Some k ↔
  (l = l' ∧ ∃ k0, rlocks w !! l = Some k0 ∧ k = h k0) ∨ (l ≠ l' ∧ rlocks w !! l' = Some k).
Proof.
  cbn. destruct (decide (l = l')) as [<-|Hne].
  - rewrite list_lookup_alter_eq. destruct (rlocks w !! l); cbn; naive_solver.
  - rewrite list_lookup_alter_ne by done. naive_solver.
Qed.

Lemma inv_acquire d0 w m g t f st :
  inv d0 (Config w m g) → stack m t = f :: st → f_stage f = Registered → may_acquire t (f_lock f) w = true →
  inv d0 (Config (set_rlocks (alter (λ k, {| lock_owner := Some t; lock_depth := S (lock_depth k) |}) (f_lock f)) w)
            (<[t := at_stage Locked f :: st]> m) g).
Proof.
  intros Hinv Hs Hst Hmay. assert (Hne : ∀ b, f_stage f ≠ Entered b) by (intros b; by rewrite Hst).
  assert (Hin : f ∈ stack m t) by (rewrite Hs; left).
  eapply inv_stage_step; [done|done| |done|done|by cbn; rewrite length_alter| | |].
  - apply idle_job; [done|]. by apply (i_job _ _ Hinv t).
  - intros l k [[<- (k0 & Hk0 & ->)]|[Hl Hk]]%alter_lock.
    + destruct (i_rlock _ _ Hinv _ _ Hk0) as (Hd & Hz & Ho). cbn.
      pose proof (total_update (holding (f_lock f)) m t f (at_stage Locked f) st Hs) as E.
      assert (holding (f_lock f) t f = false ∧ holding (f_lock f) t (at_stage Locked f) = true) as [E1 E2].
      { unfold holding. cbn. rewrite Hst, !bool_decide_eq_true_2 by done. done. }
      rewrite E1, E2 in E. clear E1 E2. cbn in Hd. split_and!; [lia|done|]. intros u x Hx Hh.
      unfold may_acquire in Hmay. rewrite Hk0 in Hmay.
      old_frame Hs Hx; [done|done|]. pose proof (Ho _ _ Hx' Hh) as Eo. rewrite Eo in Hmay.
      apply bool_decide_eq_true in Hmay. by subst.
    + destruct (i_rlock _ _ Hinv _ _ Hk) as (Hd & Hz & Ho).
      assert (Hf : ∀ u, holding l u (at_stage Locked f) = false ∧ holding l u f = false).
      { intros u. unfold holding. cbn. by rewrite bool_decide_eq_false_2. }
      rewrite (total_same _ _ _ f) by (done || by rewrite (proj1 (Hf t)), (proj2 (Hf t))). split_and!; [done..|].
      intros u x Hx Hh. old_frame Hs Hx; [by rewrite (proj1 (Hf t)) in Hh|by eapply Ho..].
  - by eapply flock_ok_same.
  - by eapply stack_ok_same.
Qed.

Lemma inv_release d0 w m g t f st :
  inv d0 (Config w m g) → stack m t = f :: st → f_stage f = Unlocking →
  inv d0 (Config (set_rlocks (alter (λ k, {| lock_owner := if (lock_depth k =? 1)%nat then None else lock_owner k;
                                            lock_depth := lock_depth k - 1 |}) (f_lock f)) w)
            (<[t := at_stage Leaving f :: st]> m) g).
Proof.
  intros Hinv Hs Hst. assert (Hne : ∀ b, f_stage f ≠ Entered b) by (intros b; by rewrite Hst).
  assert (Hin : f ∈ stack m t) by (rewrite Hs; left).
  eapply inv_stage_step; [done|done| |done|done|by cbn; rewrite length_alter| | |].
  - apply idle_job; [done|]. by apply (i_job _ _ Hinv t).
  - intros l k [[<- (k0 & Hk0 & ->)]|[Hl Hk]]%alter_lock.
    + destruct (i_rlock _ _ Hinv _ _ Hk0) as (Hd & Hz & Ho). cbn.
      pose proof (total_update (holding (f_lock f)) m t f (at_stage Leaving f) st Hs) as E.
      assert (holding (f_lock f) t f = true ∧ holding (f_lock f) t (at_stage Leaving f) = false) as [E1 E2].
      { unfold holding. cbn. rewrite Hst, !bool_decide_eq_true_2 by done. done. }
      rewrite E1, E2 in E. clear E1 E2. cbn in Hd. split_and!.
      * lia.
      * destruct (Nat.eqb_spec (lock_depth k0) 1); [done|]. intros. assert (lock_depth k0 = 0%nat) by lia. auto.
      * intros u x Hx Hh. destruct (Nat.eqb_spec (lock_depth k0) 1) as [E1|E1].
        -- pose proof (total_pos (holding (f_lock f)) _ _ _ Hx Hh). lia.
        -- old_frame Hs Hx; [|by eapply Ho..]. unfold holding in Hh. cbn in Hh. by rewrite andb_false_r in Hh.
    + destruct (i_rlock _ _ Hinv _ _ Hk) as (Hd & Hz & Ho).
      assert (Hf : ∀ u, holding l u (at_stage Leaving f) = false ∧ holding l u f = false).
      { intros u. unfold holding. cbn. by rewrite bool_decide_eq_false_2. }
      rewrite (total_same _ _ _ f) by (done || by rewrite (proj1 (Hf t)), (proj2 (Hf t))). split_and!; [done..|].
      intros u x Hx Hh. old_frame Hs Hx; [by rewrite (proj1 (Hf t)) in Hh|by eapply Ho..].
  - by eapply flock_ok_same.
  - by eapply stack_ok_same.
Qed.

Lemma inv_flock d0 w m g t f st saved w' :
  inv d0 (Config w m g) → stack m t = f :: st → f_stage f = Locked → flock_free t (f_key f) w = true →
  file_lock_enter self t (f_key f) w = (Ok saved, w') →
  inv d0 (Config w' (<[t := at_stage (Entered saved) f :: st]> m) g).
Proof.
  intros Hinv Hs Hst Hfree Hf. assert (Hne : ∀ b, f_stage f ≠ Entered b) by (intros b; by rewrite Hst).
  assert (Hin : f ∈ stack m t) by (rewrite Hs; left).
  pose proof (i_stack _ _ Hinv t) as Hok. cbn in Hok. rewrite Hs in Hok. destruct Hok as [Hm Hok]. rewrite Hst in Hok.
  assert (Hj : job_ok (disk w) (at_stage (Entered saved) f)) by (apply idle_job; [done|]; by apply (i_job _ _ Hinv t)).
  apply flock_facts in Hf as [(-> & -> & Hh)|(-> & Hl & Hh & ->)].
  - eapply inv_stage_step; [done..| | |].
    + eapply rlock_ok_same; [done|done|done|]. by rewrite Hst.
    + by eapply flock_ok_same.
    + intros u. rewrite stack_insert. case_decide; [subst u|apply (i_stack _ _ Hinv u)]. done.
  - unfold flock_free in Hfree. rewrite Hl, (bool_decide_eq_false_2 _ Hh) in Hfree. cbn in Hfree.
    apply negb_true_iff, bool_decide_eq_false, eq_None_not_Some in Hfree.
    eapply inv_stage_step; [done..| | |].
    + eapply rlock_ok_same; [done|done|done|]. by rewrite Hst.
    + split; cbn.
      * intros u x b Hx Hb. old_frame Hs Hx; [by rewrite lookup_insert_eq|..];
          pose proof (i_flock _ _ Hinv _ _ _ Hx' Hb) as Eb; cbn in Eb;
          (rewrite lookup_insert_ne; [done|]); intros E; rewrite <- E in Eb; unfold lock_path in *; cbn in *; congruence.
      * intros p u Hp. apply lookup_insert_Some in Hp as [[<- <-]|[Hp Hu]].
        -- eexists _, _. split; [apply stack_elem; left; split; [done|left]|done].
        -- destruct (i_flock_used _ _ Hinv _ _ Hu) as (x & b & Hx & Hb & E). exists x, b. split; [|done].
           apply stack_elem. destruct (decide (t = u)) as [<-|Hne']; [left|by right]. split; [done|].
           cbn in Hx. rewrite Hs in Hx. apply elem_of_cons in Hx as [->|Hx]; [by destruct (Hne (Some b))|by right].
    + intros u. rewrite held_set, stack_insert. case_decide; [subst u|apply (i_stack _ _ Hinv u)].
      split; [done|]. cbn. done.
Qed.

Lemma inv_exit d0 w m g t f st saved w' :
  inv d0 (Config w m g) → stack m t = f :: st → f_stage f = Entered saved → (f_job f = Hold ∨ f_job f = CasDone) →
  file_lock_exit self t (f_key f) saved w = (Ok tt, w') →
  inv d0 (Config w' (<[t := at_stage Unlocking f :: st]> m) g).
Proof.
  intros Hinv Hs Hst Hj Hf. assert (Hin : f ∈ stack m t) by (rewrite Hs; left).
  pose proof (i_stack _ _ Hinv t) as Hok. cbn in Hok. rewrite Hs in Hok. destruct Hok as [Hm Hok]. rewrite Hst in Hok.
  assert (Hj' : job_ok (disk w) (at_stage Unlocking f)) by (unfold job_ok; cbn; destruct Hj as [-> | ->]; done).
  apply unflock_facts in Hf. destruct saved as [before|]; subst w'.
  - destruct Hok as (Hl & Hfresh & Hh & Hok).
    eapply inv_stage_step; [done|done|done|done|done|done| | |].
    + eapply rlock_ok_same; [done|done|done|]. by rewrite Hst.
    + assert (Hdiff : ∀ u x b, x ∈ st ∨ u ≠ t → x ∈ stack m u → f_stage x = Entered (Some b) →
        lockfile (f_key f) ≠ lockfile (f_key x)).
      { intros u x b [Hx|Hx] Hxu Hb E.
        - apply lockfile_path, scope_path in E. apply Hfresh. rewrite E. by eapply (stack_ok_entered before st).
        - apply Hx. pose proof (i_flock _ _ Hinv _ _ _ Hxu Hb) as E1. pose proof (i_flock _ _ Hinv _ _ _ Hin Hst) as E2.
          cbn [c_world] in *. rewrite E, E1 in E2. by injection E2. }
      split; cbn.
      * intros u x b Hx Hb. destruct (elem_update _ _ _ _ _ _ _ Hs Hx) as [[-> ->]|[[-> Hx']|[Hu Hx']]]; [done| |].
        -- rewrite lookup_delete_ne.
           ++ eapply (i_flock _ _ Hinv); [|done]. by eapply top_elem.
           ++ eapply (Hdiff t); [by left|by eapply top_elem|done].
        -- rewrite lookup_delete_ne; [by eapply (i_flock _ _ Hinv)|]. by eapply (Hdiff u); [right|..].
      * intros p u Hp. apply lookup_delete_Some in Hp as [Hp Hu].
        destruct (i_flock_used _ _ Hinv _ _ Hu) as (x & b & Hx & Hb & E). exists x, b. split; [|done].
        apply stack_elem. destruct (decide (t = u)) as [<-|Hne']; [left|by right]. split; [done|].
        cbn in Hx. rewrite Hs in Hx. apply elem_of_cons in Hx as [->|Hx]; [done|by right].
    + intros u. change (held u _) with (held u (set_held t before w)). rewrite held_set, stack_insert.
      case_decide; [subst u|apply (i_stack _ _ Hinv u)]. split; [done|]. cbn. done.
  - destruct Hok as [_ Hok]. eapply inv_stage_step; [done|done|done|done|done|done| | |].
    + eapply rlock_ok_same; [done|done|done|]. by rewrite Hst.
    + eapply flock_ok_same; [done|done|done| |done]. intros b. by rewrite Hst.
    + intros u. rewrite stack_insert. case_decide; [subst u|apply (i_stack _ _ Hinv u)]. split; [done|]. done.
Qed.

(** *** Entering and leaving the registry *)

Lemma total_push p m t f : total p (<[t := f :: stack m t]> m) = (total p m + if p t f then 1 else 0)%nat.
Proof.
  pose proof (total_insert p m t (f :: stack m t)) as E. unfold count in E. cbn in E. destruct (p t f); cbn in E; lia.
Qed.
Lemma total_pop p m t f st : stack m t = f :: st → (total p (<[t := st]> m) + (if p t f then 1 else 0) = total p m)%nat.
Proof.
  intros Hs. pose proof (total_insert p m t st) as E. rewrite Hs in E. unfold count in E. cbn in E.
  destruct (p t f); cbn in E; lia.
Qed.

Lemma push_elem m t f u x : x ∈ stack (<[t := f :: stack m t]> m) u → (u = t ∧ x = f) ∨ x ∈ stack m u.
Proof. intros [[<- Hx]|[_ Hx]]%stack_elem; [|by right]. apply elem_of_cons in Hx as [->|Hx]; [by left|by right]. Qed.

Lemma inv_begin d0 w m g t key j l w' :
  inv d0 (Config w m g) → may_start t → may_call (stack m t) → (j = Hold ∨ ∃ e p, j = CasRead e p) →
  enter_registry t (_lock_scope self key) w = (Ok l, w') →
  inv d0 (Config w' (<[t := Frame key l Registered j :: stack m t]> m) g).
Proof.
  intros Hinv Hstart Hcall Hj Hw. set (sc := _lock_scope self key). set (f := Frame key l Registered j).
  apply enter_facts in Hw as (Hreg & Hfl & Hheld & Hdisk & Hrl). fold sc in Hreg, Hrl.
  assert (Hstk : ∀ u, stack (<[t := f :: stack m t]> m) u = if decide (t = u) then f :: stack m t else stack m u)
    by (intros; apply stack_insert).
  assert (Hlen : (l < length (rlocks w'))%nat).
  { destruct Hrl as [[Hl ->]|(_ & -> & ->)]; [|rewrite length_app; cbn; lia].
    apply (i_lock_used _ _ Hinv _ _ _ Hl). }
  assert (Hlocks : ∀ p sc' l', _GLOBAL_LOCKS (registry_of p w') !! sc' = Some l' →
    (p = t.1 ∧ sc' = sc ∧ l' = l) ∨ _GLOBAL_LOCKS (registry_of p w) !! sc' = Some l' ∧ (p = t.1 → sc' ≠ sc)).
  { intros p sc' l' E. rewrite Hreg in E. case_decide; [|naive_solver]. subst p.
    cbn in E. apply lookup_insert_Some in E as [[<- <-]|[? E]]; [by left|right; split; [done|]]. naive_solver. }
  assert (Hfresh : ∀ p sc', _GLOBAL_LOCKS (registry_of p w) !! sc' = Some l → p = t.1 ∧ sc' = sc).
  { intros p sc' E. destruct Hrl as [[Hl _]|(_ & Hl & _)].
    - by apply (i_lock_inj _ _ Hinv _ _ _ _ _ E).
    - apply (i_lock_used _ _ Hinv) in E as [_ E]. cbn in E. lia. }
  assert (Hin_f : ∀ p x, in_scope p x t f = bool_decide (t.1 = p) && bool_decide (sc = x)) by done.
  assert (Hno_f : ∀ n u, holding n u f = false) by (intros; unfold holding; apply andb_false_r).
  split; cbn [c_world c_stacks c_log]; intros *.
  - rewrite total_push, Hreg, Hin_f. pose proof (i_users _ _ Hinv p sc0) as Hu. cbn in Hu.
    case_decide; [subst p; rewrite bool_decide_eq_true_2 by done|rewrite bool_decide_eq_false_2 by done; cbn; lia].
    cbn. destruct (decide (sc = sc0)) as [<-|Hsc].
    + rewrite lookup_insert_eq, bool_decide_eq_true_2 by done. cbn. pose proof (i_users _ _ Hinv t.1 sc) as Hu'. cbn in Hu'. lia.
    + rewrite lookup_insert_ne, bool_decide_eq_false_2 by done. cbn. lia.
  - rewrite Hreg. case_decide; [subst p|apply (i_users_pos _ _ Hinv)]. cbn. intros [[_ <-]|[_ E]]%lookup_insert_Some; [lia|].
    by eapply (i_users_pos _ _ Hinv).
  - intros Hx. rewrite Hreg. apply push_elem in Hx as [[-> ->]|Hx].
    + rewrite decide_True by done. cbn. by rewrite lookup_insert_eq.
    + pose proof (i_lock _ _ Hinv _ _ Hx) as E. cbn [c_world] in E. case_decide as Hp; [cbn|done].
      rewrite Hp. destruct (decide (sc = scope f0)) as [Hsc|Hsc]; [|by rewrite lookup_insert_ne].
      rewrite <- Hsc, lookup_insert_eq. destruct Hrl as [[Hl _]|(Hl & _)]; rewrite Hp, Hsc, E in Hl; congruence.
  - intros E. rewrite total_push. apply Hlocks in E as [(-> & -> & ->)|[E _]].
    + split; [|done]. rewrite Hin_f, !bool_decide_eq_true_2 by done. cbn. lia.
    + destruct (i_lock_used _ _ Hinv _ _ _ E) as [H1 H2]. cbn in H1, H2. split; [lia|].
      destruct Hrl as [[_ ->]|(_ & _ & ->)]; [done|rewrite length_app; lia].
  - intros E E'. apply Hlocks in E as [(-> & -> & ->)|[E Hn]]; apply Hlocks in E' as [(-> & -> & E')|[E' Hn']].
    + done.
    + apply Hfresh in E' as [-> ->]. by destruct Hn'.
    + subst. apply Hfresh in E as [-> ->]. by destruct Hn.
    + by apply (i_lock_inj _ _ Hinv _ _ _ _ _ E).
  - intros Hk. rewrite total_push, Hno_f, Nat.add_0_r.
    assert (Hold : rlocks w !! l0 = Some k ∨ (l0 = length (rlocks w) ∧ k = {| lock_owner := None; lock_depth := 0 |})).
    { destruct Hrl as [[_ Er]|(_ & _ & Er)]; rewrite Er in Hk; [by left|].
      apply lookup_app_Some in Hk as [Hk|[Hge Hk]]; [by left|right].
      destruct (l0 - length (rlocks w))%nat as [|n] eqn:En; [|by destruct n]. injection Hk as <-. split; [lia|done]. }
    destruct Hold as [Hold|[-> ->]].
    + destruct (i_rlock _ _ Hinv _ _ Hold) as (Hd & Hz & Ho). split_and!; [done..|].
      intros u x [[-> ->]|Hx]%push_elem Hh; [|by eapply Ho]. by rewrite Hno_f in Hh.
    + assert (Hno : ∀ u x, x ∈ stack m u → holding (length (rlocks w)) u x = false).
      { intros u x Hx. unfold holding. rewrite bool_decide_eq_false_2; [done|].
        intros E. pose proof (i_lock _ _ Hinv _ _ Hx) as Hl. apply (i_lock_used _ _ Hinv) in Hl as [_ Hl].
        cbn in Hl. lia. }
      split_and!; [|done|].
      * cbn. destruct (total (holding (length (rlocks w))) m) eqn:E; [done|].
        destruct (total_pos_inv (holding (length (rlocks w))) m ltac:(lia)) as (u & x & Hx & Hh).
        by rewrite (Hno u x Hx) in Hh.
      * intros u x [[-> ->]|Hx]%push_elem Hh; [|by rewrite (Hno u x Hx) in Hh].
        by rewrite Hno_f in Hh.
  - rewrite Hfl. intros [[-> ->]|Hx]%push_elem Hb; [done|]. by eapply (i_flock _ _ Hinv).
  - rewrite Hfl. intros E. destruct (i_flock_used _ _ Hinv _ _ E) as (x & b & Hx & Hb & El). exists x, b.
    split; [|done]. cbn in Hx. rewrite Hstk. case_decide; [subst; by right|done].
  - rewrite Hheld, Hstk. pose proof (i_stack _ _ Hinv t0) as Hok. cbn in Hok. case_decide; [subst t0|done]. by split.
  - rewrite Hstk. case_decide; [by subst|apply (i_start _ _ Hinv)].
  - rewrite Hdisk. intros [[-> ->]|Hx]%push_elem; [|by apply (i_job _ _ Hinv t0)].
    unfold job_ok. cbn. by destruct Hj as [->|(e & p & ->)].
  - assert (Hnone : staged_at f = None) by (unfold staged_at; cbn; by destruct Hj as [->|(e & p & ->)]).
    intros [[-> ->]|Hx]%push_elem [[-> ->]|Hy]%push_elem Hne Hsx; [done|congruence|congruence|].
    exact (i_staged _ _ Hinv _ _ _ _ _ Hx Hy Hne Hsx).
  - rewrite Hdisk. apply (i_log _ _ Hinv).
Qed.

Lemma inv_leave d0 w m g t f st w' :
  inv d0 (Config w m g) → stack m t = f :: st → f_stage f = Leaving → leave_registry t (scope f) w = (Ok tt, w') →
  inv d0 (Config w' (<[t := st]> m) g).
Proof.
  intros Hinv Hs Hst Hw. apply leave_facts in Hw as (Hreg & Hfl & Hheld & Hdisk & Hrl).
  set (users := default 0%nat (_GLOBAL_LOCKS_USERS (registry_of t.1 w) !! scope f)) in *.
  assert (Hin : f ∈ stack m t) by (rewrite Hs; left).
  assert (Hsub : ∀ u x, x ∈ stack (<[t := st]> m) u → x ∈ stack m u).
  { intros u x [[<- Hx]|[_ Hx]]%stack_elem; [|done]. by eapply top_elem. }
  assert (Hback : ∀ u x, x ∈ stack m u → x ∈ stack (<[t := st]> m) u ∨ (u = t ∧ x = f)).
  { intros u x Hx. rewrite stack_insert. case_decide; [subst u|by left]. rewrite Hs in Hx.
    apply elem_of_cons in Hx as [->|Hx]; [by right|by left]. }
  assert (Hpop : ∀ p sc, (total (in_scope p sc) (<[t := st]> m) + (if in_scope p sc t f then 1 else 0)
    = total (in_scope p sc) m)%nat) by (intros; by apply total_pop).
  assert (Hmine : in_scope t.1 (scope f) t f = true) by (unfold in_scope; by rewrite !bool_decide_eq_true_2).
  assert (Hother : ∀ p sc, p ≠ t.1 ∨ sc ≠ scope f → in_scope p sc t f = false).
  { intros p sc [Hp|Hsc]; unfold in_scope; apply andb_false_iff; [left|right]; by apply bool_decide_eq_false_2. }
  assert (Hu : users = total (in_scope t.1 (scope f)) m) by apply (i_users _ _ Hinv).
  pose proof (Hpop t.1 (scope f)) as Hpop1. rewrite Hmine in Hpop1.
  assert (Hlocks : ∀ p sc l, _GLOBAL_LOCKS (registry_of p w') !! sc = Some l →
    _GLOBAL_LOCKS (registry_of p w) !! sc = Some l ∧ (0 < total (in_scope p sc) (<[t := st]> m))%nat).
  { intros p sc l E. rewrite Hreg in E. pose proof (Hpop p sc) as Hp. case_decide as Ep.
    - subst p. destruct (Nat.ltb_spec 0 (users - 1)).
      + cbn in E. split; [done|]. pose proof (i_lock_used _ _ Hinv _ _ _ E) as [Hl _]. cbn in Hl.
        destruct (decide (sc = scope f)) as [->|Hsc]; [lia|]. rewrite Hother in Hp by by right. lia.
      + cbn in E. apply lookup_delete_Some in E as [Hsc E]. split; [done|].
        pose proof (i_lock_used _ _ Hinv _ _ _ E) as [Hl _]. cbn in Hl. rewrite Hother in Hp by (by right). lia.
    - split; [done|]. pose proof (i_lock_used _ _ Hinv _ _ _ E) as [Hl _]. cbn in Hl.
      rewrite Hother in Hp by (left; congruence). lia. }
  split; cbn [c_world c_stacks c_log]; intros *.
  - rewrite Hreg. pose proof (i_users _ _ Hinv p sc) as Hi. cbn in Hi. pose proof (Hpop p sc) as Hp. case_decide as Ep.
    + subst p. destruct (decide (sc = scope f)) as [->|Hsc].
      * destruct (Nat.ltb_spec 0 (users - 1)); cbn; [rewrite lookup_insert_eq|rewrite lookup_delete_eq]; cbn; lia.
      * rewrite Hother in Hp by by right. destruct (Nat.ltb_spec 0 (users - 1)); cbn;
          [rewrite lookup_insert_ne by done|rewrite lookup_delete_ne by done]; lia.
    + rewrite Hother in Hp by (left; congruence). lia.
  - rewrite Hreg. case_decide as Ep; [|apply (i_users_pos _ _ Hinv)]. subst p.
    destruct (Nat.ltb_spec 0 (users - 1)); cbn.
    + intros [[_ <-]|[_ E]]%lookup_insert_Some; [lia|]. by eapply (i_users_pos _ _ Hinv).
    + intros [_ E]%lookup_delete_Some. by eapply (i_users_pos _ _ Hinv).
  - intros Hx. pose proof (i_lock _ _ Hinv _ _ (Hsub _ _ Hx)) as E. cbn [c_world] in E. rewrite Hreg.
    case_decide as Ep; [|done]. rewrite <- Ep in E. destruct (Nat.ltb_spec 0 (users - 1)); [done|]. cbn.
    rewrite lookup_delete_ne; [done|]. intros Esc.
    assert (Hpos : (0 < total (in_scope t.1 (scope f)) (<[t := st]> m))%nat).
    { eapply total_pos; [exact Hx|]. unfold in_scope. rewrite !bool_decide_eq_true_2; done. }
    lia.
  - intros E. destruct (Hlocks _ _ _ E) as [E1 Hpos]. split; [done|]. rewrite Hrl. apply (i_lock_used _ _ Hinv _ _ _ E1).
  - intros E1 E2. apply Hlocks in E1 as [E1 _]. apply Hlocks in E2 as [E2 _]. by apply (i_lock_inj _ _ Hinv _ _ _ _ _ E1).
  - rewrite Hrl. intros Hk. destruct (i_rlock _ _ Hinv _ _ Hk) as (Hd & Hz & Ho).
    pose proof (total_pop (holding l) _ _ _ _ Hs) as E. unfold holding in E at 2. rewrite Hst, andb_false_r in E.
    cbn in Hd. split_and!; [lia|done|]. intros u x Hx. apply Ho. by apply Hsub.
  - rewrite Hfl. intros Hx. apply (i_flock _ _ Hinv). by apply Hsub.
  - rewrite Hfl. intros E. destruct (i_flock_used _ _ Hinv _ _ E) as (x & b & Hx & Hb & El). exists x, b. split; [|done].
    cbn in Hx. apply Hback in Hx as [Hx|[-> ->]]; [done|congruence].
  - rewrite Hheld. pose proof (i_stack _ _ Hinv t0) as Hok. cbn in Hok. rewrite stack_insert.
    case_decide; [subst t0|done]. rewrite Hs in Hok. destruct Hok as [_ Hok]. by rewrite Hst in Hok.
  - rewrite stack_insert. case_decide; [subst t0|apply (i_start _ _ Hinv)]. intros _. apply (i_start _ _ Hinv). cbn. by rewrite Hs.
  - rewrite Hdisk. intros Hx. apply (i_job _ _ Hinv t0). by apply Hsub.
  - intros Hx Hy. apply (i_staged _ _ Hinv); by apply Hsub.
  - rewrite Hdisk. apply (i_log _ _ Hinv).
Qed.

(** *** Every step *)

Lemma inv_initial d0 : inv d0 (initial d0).
Proof.
  assert (Hreg : ∀ p, registry_of p (World ∅ [] ∅ ∅ d0) = empty_registry).
  { intros p. unfold registry_of. cbn. by rewrite lookup_empty. }
  assert (Hstk : ∀ t, stack (∅ : stacks) t = []) by (intros; unfold stack; by rewrite lookup_empty).
  split; cbn [c_world c_stacks c_log initial]; intros *; rewrite ?Hreg, ?Hstk; cbn; rewrite ?lookup_empty; try done;
    try (by intros ?%elem_of_nil); try (by intros ?%not_elem_of_nil).
  - exists d0. done.
Qed.

Lemma locks_inv_step d0 c c' : inv d0 c → step c c' → inv d0 c'.
Proof.
  intros Hinv Hstep.
  destruct Hstep as [t key j w m g l w' Hstart Hcall Hj Hw|t f st w m g w' Hs Hst Hmay Hw
    |t f st w m g saved w' Hs Hst Hfree Hw|t f st w m g Hs Hst|t f st w m g saved e p Hs Hst Hj Hv
    |t f st w m g saved e p Hs Hst Hj Hv|t f st w m g saved e p Hs Hst Hj
    |t f st w m g saved e p suffix d Hs Hst Hj Hfree Hp|t f st w m g saved e p suffix left Hs Hst Hj Hfree
    |t f st w m g saved e p tmp d Hs Hst Hj Hmv|t f st w m g saved e p tmp left Hs Hst Hj
    |t f st w m g saved w' Hs Hst Hj Hw|t f st w m g w' Hs Hst Hw|t f st w m g w' Hs Hst Hw|key w m g].
  - by eapply inv_begin.
  - injection Hw as <-. by apply inv_acquire.
  - by eapply inv_flock.
  - by apply inv_flock_fail.
  - eapply inv_job_same; [done|done| |done|apply (i_log _ _ Hinv)]. unfold job_ok. cbn. eauto.
  - eapply inv_job_same; [done|done|done|done|]. eapply log_snoc; [done|]. intros r Hr. cbn. by rewrite Hr, Hv.
  - eapply inv_job_same; [done|done|done|done|apply (i_log _ _ Hinv)].
  - injection Hp as <-. by eapply inv_stage.
  - eapply inv_abort; [done|done|by exists suffix|]. intros u x _ Hx E.
    pose proof (i_job _ _ Hinv _ _ Hx) as Hok. unfold job_ok, staged_at in *. destruct (f_job x); try done.
    injection E as ->. cbn in Hok. destruct Hok as (_ & _ & _ & E). congruence.
  - by eapply inv_commit.
  - assert (Hin : f ∈ stack m t) by (rewrite Hs; left).
    pose proof (i_job _ _ Hinv _ _ Hin) as Hok. unfold job_ok in Hok. rewrite Hj in Hok.
    eapply inv_abort; [done|done|apply Hok|]. intros u x Hne Hx E.
    apply (i_staged _ _ Hinv u t x f tmp Hx Hin Hne E). unfold staged_at. by rewrite Hj.
  - by eapply inv_exit.
  - injection Hw as <-. by apply inv_release.
  - by eapply inv_leave.
  - destruct Hinv as [H1 H2 H3 H4 H5 H6 H7 H8 H9 H10 H11 H12 H13] eqn:E. split; try done.
    eapply log_snoc; [exact Hinv|]. intros r Hr. cbn. by rewrite Hr, bool_decide_eq_true_2.
Qed.

Lemma inv_reachable d0 c : reachable d0 c → inv d0 c.
Proof. induction 1 as [|c c' _ IH Hs]; [apply inv_initial|by eapply locks_inv_step]. Qed.

(** ** A scheduler *)

(** What to run next: a new call, the next step of a thread's top call, or a
    read; the scheduler refuses a step that is not enabled. *)
Inductive action := ABegin (t : thread) (key : string) (j : job) | ANext (t : thread) (suffix : string) | ARead (key : string).

Definition can_call (st : list frame) : bool :=
  match st with
  | [] => true
  | f :: _ => match f_job f, f_stage f with Hold, Entered _ => true | _, _ => false end
  end.

Definition advance_frame (t : thread) (suffix : string) (f : frame) (st : list frame) (c : config) : option config :=
  let '(Config w m g) := c in
  let staged s w' := Some (Config w' (<[t := at_stage s f :: st]> m) g) in
  let worked j w' g' := Some (Config w' (<[t := at_job j f :: st]> m) g') in
  match f_stage f with
  | Registered => if may_acquire t (f_lock f) w then staged Locked (acquire t (f_lock f) w).2 else None
  | Locked =>
      if flock_free t (f_key f) w then
        match file_lock_enter self t (f_key f) w with
        | (Ok saved, w') => staged (Entered saved) w'
        | (Raise _, _) => None
        end
      else None
  | Entered saved =>
      match f_job f with
      | CasRead e p =>
          if same_version e (disk w !! path (f_key f)) then worked (CasChecked e p) w g
          else worked CasDone w (g ++ [Conflict (path (f_key f)) e])
      | CasChecked e p =>
          let tmp := _temporary_path self p suffix in
          match disk w !! tmp with
          | None => worked (CasStaged e p tmp) (set_disk (<[tmp := p]> (disk w)) w) g
          | Some _ => None
          end
      | CasStaged e p tmp =>
          match mv tmp (path (f_key f)) (disk w) with
          | (Ok _, d) => worked CasDone (set_disk d w) (g ++ [Commit (path (f_key f)) e p])
          | (Raise _, _) => None
          end
      | Hold | CasDone => staged Unlocking (file_lock_exit self t (f_key f) saved w).2
      end
  | Unlocking => staged Leaving (release (f_lock f) w).2
  | Leaving => Some (Config (leave_registry t (scope f) w).2 (<[t := st]> m) g)
  end.

Definition schedule (a : action) (c : config) : option config :=
  let '(Config w m g) := c in
  match a with
  | ABegin t key j =>
      if (is_local self || (t.1 =? 0)%nat) && can_call (stack m t) &&
         match j with Hold | CasRead _ _ => true | _ => false end
      then match enter_registry t (_lock_scope self key) w with
           | (Ok l, w') => Some (Config w' (<[t := Frame key l Registered j :: stack m t]> m) g)
           | (Raise _, _) => None
           end
      else None
  | ANext t suffix => match stack m t with [] => None | f :: st => advance_frame t suffix f st c end
  | ARead key => Some (Config w m (g ++ [ReadVersion (path key) (disk w !! path key)]))
  end.

Lemma schedule_step a c c' : schedule a c = Some c' → step c c'.
Proof.
  destruct c as [w m g], a as [t key j|t suffix|key]; cbn.
  - destruct (_ && _ && _) eqn:E; [|done]. apply andb_true_iff in E as [[Ht Hc]%andb_true_iff Hj].
    destruct (enter_registry t (_lock_scope self key) w) as [[l|] w'] eqn:Ew; [|done]. intros [= <-].
    eapply StBegin; [|..|exact Ew].
    + unfold may_start. apply orb_true_iff in Ht as [?|?%Nat.eqb_eq]; [by left|by right].
    + unfold can_call, may_call in *. destruct (stack m t) as [|f ?]; [done|]. by destruct (f_job f), (f_stage f).
    + destruct j; try done; [by left|right; eauto].
  - destruct (stack m t) as [|f st] eqn:Hs; [done|]. unfold advance_frame. destruct (f_stage f) as [| |saved| |] eqn:Hst.
    + destruct (may_acquire t (f_lock f) w) eqn:Hm; [|done]. intros [= <-]. by eapply StAcquire.
    + destruct (flock_free t (f_key f) w) eqn:Hf; [|done].
      destruct (file_lock_enter self t (f_key f) w) as [[saved|] w'] eqn:Ew; [|done]. intros [= <-]. by eapply StFlock.
    + destruct (f_job f) as [|e p|e p|e p tmp|] eqn:Hj.
      * intros [= <-]. eapply StExit; [done..|by left|]. by destruct saved.
      * destruct (same_version e (disk w !! path (f_key f))) eqn:Hv; intros [= <-]; [by eapply StCheck|by eapply StConflict].
      * destruct (disk w !! _temporary_path self p suffix) eqn:Hd; [done|]. intros [= <-]. by eapply StStage.
      * cbn. destruct (disk w !! tmp) as [x|] eqn:Hd; [|done]. intros [= <-]. eapply StCommit; [done..|]. cbn. by rewrite Hd.
      * intros [= <-]. eapply StExit; [done..|by right|]. by destruct saved.
    + intros [= <-]. by eapply StRelease.
    + intros [= <-]. by eapply StLeave.
  - intros [= <-]. constructor.
Qed.

Definition run_schedule (d : files) (l : list action) : option config :=
  foldl (λ c a, c ≫= schedule a) (Some (initial d)) l.

Lemma run_schedule_reachable d l c : run_schedule d l = Some c → reachable d c.
Proof.
  unfold run_schedule. revert c. induction l as [|a l IH] using rev_ind; intros c Hc; [injection Hc as <-; constructor|].
  rewrite foldl_app in Hc. cbn in Hc. destruct (foldl _ _ l) as [c0|]; [|done].
  eapply ReachStep; [by apply IH|by apply (schedule_step a)].
Qed.

(** ** Properties *)

(** C21: concurrent writers of the store behave as one atomic compare-and-swap
    register per key: however threads of any number of processes interleave
    their [conditional_put] calls, key locks and reads, and wherever a
    filesystem call fails, the versions read, the writes refused and the writes
    committed, in the order of their effect, are a run of the register from the
    first contents of the disk, and the versions on disk are its state.  So a
    write is committed only over the version its caller expected, and no
    committed write is lost. *)
Theorem state_store_linearizable d c : reachable d c →
  ∃ r, register_run d (c_log c) = Some r ∧ ∀ key, r !! path key = disk (c_world c) !! path key.
Proof. intros Hc. exact (i_log _ _ (inv_reachable _ _ Hc)). Qed.
End machine.

Section exclusion.
Context `{Sha256}.
Variable self : FileStateStore.
Hypothesis digest_hex : ∀ x, is_sha256 (PyStr (sha256 x)) = true.

(** The section of a key is exclusive - two threads inside it are the same
    thread, also across processes - and the lock registry is exact: in every
    process the user count of a scope is the number of calls in progress there,
    with no entry and no lock object for a scope without calls, and once no
    call is in progress every lock is free, whatever failed on the way. *)
Theorem key_section_exclusive d c : reachable self d c →
  (∀ t t' f f' s s', f ∈ stack (c_stacks c) t → f' ∈ stack (c_stacks c) t' →
     f_stage f = Entered s → f_stage f' = Entered s' → f_key f = f_key f' → t = t') ∧
  (∀ p sc, default 0%nat (_GLOBAL_LOCKS_USERS (registry_of p (c_world c)) !! sc) = total (in_scope self p sc) (c_stacks c)) ∧
  (∀ p sc, is_Some (_GLOBAL_LOCKS (registry_of p (c_world c)) !! sc) ↔ (0 < total (in_scope self p sc) (c_stacks c))%nat) ∧
  ((∀ t, stack (c_stacks c) t = []) →
     file_locks (c_world c) = ∅ ∧ Forall (λ k, lock_owner k = None ∧ lock_depth k = 0%nat) (rlocks (c_world c)) ∧
     ∀ p, registry_of p (c_world c) = empty_registry).
Proof.
  intros Hc. pose proof (inv_reachable self digest_hex _ _ Hc) as Hinv.
  assert (Hused : ∀ p sc, is_Some (_GLOBAL_LOCKS (registry_of p (c_world c)) !! sc) ↔
    (0 < total (in_scope self p sc) (c_stacks c))%nat).
  { intros p sc. split; [intros [l Hl]; by apply (i_lock_used _ _ _ Hinv _ _ _ Hl)|].
    intros (t & f & Hf & Hin)%total_pos_inv. unfold in_scope in Hin. apply andb_true_iff in Hin as [Hp Hsc].
    apply bool_decide_eq_true in Hp, Hsc. subst. exists (f_lock f). exact (i_lock _ _ _ Hinv _ _ Hf). }
  split_and!; [|apply (i_users _ _ _ Hinv)|exact Hused|].
  - intros t t' f f' s s' Hf Hf' Hs Hs' Hk. eapply (inv_exclusive self); [exact Hinv|exact Hf|exact Hf'|exact Hs|exact Hs'|].
    by rewrite Hk.
  - intros Hidle.
    assert (Hzero : ∀ p, total p (c_stacks c) = 0%nat).
    { intros p. destruct (total p (c_stacks c)) eqn:E; [done|].
      destruct (total_pos_inv p (c_stacks c)) as (t & f & Hf & _); [lia|]. rewrite Hidle in Hf. by apply elem_of_nil in Hf. }
    split_and!.
    + apply map_empty. intros p. destruct (file_locks (c_world c) !! p) as [t|] eqn:E; [|done].
      destruct (i_flock_used _ _ _ Hinv _ _ E) as (f & s & Hf & _). rewrite Hidle in Hf. by apply elem_of_nil in Hf.
    + apply Forall_lookup_2. intros l k Hk. destruct (i_rlock _ _ _ Hinv _ _ Hk) as (Hd & Hz & _).
      rewrite Hzero in Hd. auto.
    + intros p. destruct (registry_of p (c_world c)) as [locks users] eqn:E. f_equal; apply map_empty; intros sc.
      * pose proof (Hused p sc) as Hu. rewrite E, Hzero in Hu. cbn in Hu.
        destruct (locks !! sc); [|done]. assert (0 < 0)%nat by (apply Hu; eauto). lia.
      * pose proof (i_users _ _ _ Hinv p sc) as Hu. pose proof (i_users_pos _ _ _ Hinv p sc) as Hp.
        rewrite E, Hzero in Hu. rewrite E in Hp. cbn in Hu, Hp. destruct (users !! sc) as [n|]; [|done].
        specialize (Hp n eq_refl). cbn in Hu. lia.
Qed.
End exclusion.

(** Two processes that both expect no version: one writes, one is refused. *)
#[local] Instance sample_sha256 : Sha256 := λ s,
  String.concat "" (repeat (if bool_decide (s = "one") then "1" else if bool_decide (s = "two") then "2" else "0") 64).
Definition sample_store : FileStateStore := {| store_base := "/state"; store_protocols := ["file"; "local"] |}.

Lemma sample_digest_hex x : is_sha256 (PyStr (sha256 x)) = true.
Proof. unfold sha256, sample_sha256. by repeat case_bool_decide. Qed.

Definition race : list action :=
  let one := (0%nat, 1%nat) in let two := (1%nat, 1%nat) in
  [ABegin one "air" (CasRead None "one"); ABegin two "air" (CasRead None "two")] ++
  repeat (ANext one "1.a") 2 ++ repeat (ANext two "2.a") 1 ++ repeat (ANext one "1.a") 5 ++
  repeat (ANext two "2.a") 3 ++ [ARead "air"] ++ repeat (ANext one "1.a") 1 ++ repeat (ANext two "2.a") 2.

Definition race_end : config := default (initial ∅) (run_schedule sample_store ∅ race).

Lemma race_reachable : reachable sample_store ∅ race_end.
Proof.
  apply (run_schedule_reachable sample_store _ race). unfold race_end.
  assert (is_Some (run_schedule sample_store ∅ race)) as [c ->]; [|done].
  apply (bool_decide_eq_true_1 (is_Some _)). vm_compute. reflexivity.
Qed.

Lemma state_store_linearizable_witness :
  c_log race_end = [Commit (_state_path sample_store "air") None "one"; Conflict (_state_path sample_store "air") None;
                    ReadVersion (_state_path sample_store "air") (Some "one")] ∧
  ∃ r, register_run ∅ (c_log race_end) = Some r ∧
    r !! _state_path sample_store "air" = disk (c_world race_end) !! _state_path sample_store "air".
Proof.
  split; [vm_compute; reflexivity|].
  destruct (state_store_linearizable sample_store sample_digest_hex ∅ race_end race_reachable) as (r & Hr & Hd).
  exists r. split; [exact Hr|exact (Hd "air")].
Defined.

Lemma race_idle t : stack (c_stacks race_end) t = [].
Proof.
  assert (H : map_Forall (λ _ st, st = []) (c_stacks race_end)) by (apply (bool_decide_eq_true_1 _); vm_compute; reflexivity).
  unfold stack. destruct (c_stacks race_end !! t) as [st|] eqn:E; [|done]. by apply (H t).
Qed.

Lemma key_section_exclusive_witness :
  (∀ t, stack (c_stacks race_end) t = []) ∧ file_locks (c_world race_end) = ∅ ∧
  registry_of 0 (c_world race_end) = empty_registry.
Proof.
  split; [exact race_idle|].
  destruct (key_section_exclusive sample_store sample_digest_hex ∅ race_end race_reachable) as (_ & _ & _ & Hidle).
  destruct (Hidle race_idle) as (Hf & _ & Hr). split; [exact Hf|exact (Hr 0%nat)].
Defined.
