(* ===== verification/StateProofs.v ===== *)
(** * The durable envelope, and one writer on its own

    What a write puts in the envelope is what the next read finds, whatever
    the order in which [json.dumps] sorts the keys; and a call that runs
    without competitors succeeds exactly when the version is the expected one
    and gives every lock back on every way out. *)
From Stdlib Require Import ZArith Lia Ascii.
From stdpp Require Import strings gmap.
From S2P Require Import Prelude PyVal Regex Urls Json JsonText Uris Artifact StateStore StateLocks.
Local Open Scope Z_scope.
Local Open Scope py_scope.

(** ** Dictionaries up to the order of their keys *)

(** What sorted keys make of a dictionary *)
Definition resort (d : pydict) : pydict := prod_map id (reread true) <$> sort_items fst d.

Lemma reread_str_dict d : reread true (str_dict d) = str_dict (resort d).
Proof. apply reread_dict. Qed.

Lemma resort_perm d : resort d ≡ₚ prod_map id (reread true) <$> d.
Proof. unfold resort. apply fmap_Permutation, sort_items_perm. Qed.

Lemma resort_keys d : (resort d).*1 ≡ₚ d.*1.
Proof.
  rewrite resort_perm, <- list_fmap_compose. erewrite list_fmap_ext; [reflexivity|]. by intros ? [].
Qed.

Lemma dict_get_perm {V} k (d d' : list (string * V)) : NoDup d.*1 → d ≡ₚ d' → dict_get k d = dict_get k d'.
Proof.
  intros Hnd Hp. assert (Hnd' : NoDup d'.*1) by by rewrite <- Hp.
  assert (Hone : ∀ (l l' : list (string * V)) v, NoDup l'.*1 → l ≡ₚ l' → dict_get k l = Some v → dict_get k l' = Some v).
  { clear. intros l l' v Hnd Hp Hv%dict_get_elem. rewrite Hp in Hv. clear Hp l.
    induction l' as [|[k' v'] l' IH]; [by apply elem_of_nil in Hv|]. cbn in *. inversion_clear Hnd as [|? ? Hk Hnd'].
    apply elem_of_cons in Hv as [[= -> ->]|Hv]; [by rewrite bool_decide_eq_true_2|].
    rewrite bool_decide_eq_false_2; [by apply IH|]. intros ->. apply Hk. apply list_elem_of_fmap. by exists (k', v). }
  destruct (dict_get k d) as [v|] eqn:E; [symmetry; by eapply Hone|].
  destruct (dict_get k d') as [v|] eqn:E'; [|done]. by rewrite (Hone d' d v) in E.
Qed.

Lemma dict_get_map {V W} (f : V → W) k (d : list (string * V)) : dict_get k (prod_map id f <$> d) = f <$> dict_get k d.
Proof. induction d as [|[k' v] d IH]; [done|]. cbn. by case_bool_decide. Qed.

Lemma dict_get_resort k d : NoDup d.*1 → dict_get k (resort d) = reread true <$> dict_get k d.
Proof.
  intros Hnd. unfold resort. rewrite dict_get_map. f_equal. symmetry. apply dict_get_perm; [done|].
  symmetry. apply sort_items_perm.
Qed.

Lemma field_resort k d v : NoDup d.*1 → field d k = Ok v → field (resort d) k = Ok (reread true v).
Proof. intros Hnd. unfold field. rewrite dict_get_resort by done. destruct (dict_get k d); [|done]. by intros [= ->]. Qed.

Lemma keys_are_resort d keys : keys_are (resort d) keys = keys_are d keys.
Proof.
  unfold keys_are. f_equal; apply eq_iff_eq_true; rewrite !forallb_Forall.
  - by rewrite (resort_keys d).
  - rewrite !Forall_forall. split; intros Hk k Hin; specialize (Hk k Hin); apply bool_decide_eq_true in Hk;
      apply bool_decide_eq_true; [rewrite <- (resort_keys d)|rewrite (resort_keys d)]; done.
Qed.

(** ** Plain values keep their order-independent readings *)

Definition plain_items (d : pydict) : Prop := NoDup d.*1 ∧ Forall (λ kv, plain kv.2 = true) d.

Lemma plain_str_dict d : plain (str_dict d) = true ↔ plain_items d.
Proof.
  unfold plain. split.
  - intros Hp. cbn in Hp. apply json_items_inv in Hp as (d' & E & Hnd & Hd).
    assert (d = d') as ->; [|done]. clear -E. unfold items_of in E. revert d' E.
    induction d as [|[k v] d IH]; intros [|[k' v'] d'] E; try done. cbn in E. injection E as -> -> E. f_equal. by apply IH.
  - intros [Hnd Hd]. cbn. by apply json_items.
Qed.

Lemma plain_reread v : plain v = true → plain (reread true v) = true.
Proof.
  unfold plain. induction v as [| | |[]| |s t|l IH|l IH|kvs IH|kvs IH|r] using pyval_nested_ind; intros Hp; try done.
  - cbn in *. apply forallb_Forall in Hp. apply forallb_Forall. induction l as [|x l IHl]; [constructor|].
    inversion_clear IH. inversion_clear Hp. constructor; auto.
  - assert (∃ d, kvs = items_of d ∧ plain_items d) as (d & -> & Hnd & Hd).
    { cbn in Hp. apply json_items_inv in Hp as (d & -> & Hnd & Hd). by exists d. }
    change (PyDict (items_of d)) with (str_dict d). rewrite reread_str_dict. apply plain_str_dict. split.
    + by rewrite resort_keys.
    + rewrite resort_perm. clear -IH Hd. induction d as [|[k x] d IHd]; [constructor|].
      inversion_clear IH. inversion_clear Hd. constructor; [|by apply IHd]. cbn in *. auto.
Qed.

Lemma object_dict_plain error v path d :
  plain v = true → object_dict v path error = Ok d → v = str_dict d ∧ plain_items d.
Proof.
  intros Hp. destruct v as [| | | | | | | |kvs| |]; try done.
  assert (∃ d', kvs = items_of d' ∧ plain_items d') as (d' & -> & Hd).
  { unfold plain in Hp. cbn in Hp. apply json_items_inv in Hp as (d' & -> & Hnd & Hd). by exists d'. }
  change (PyDict (items_of d')) with (str_dict d'). rewrite object_dict_literal by apply Hd. intros [= ->]. done.
Qed.

Lemma resort_plain d : plain_items d → plain_items (resort d).
Proof. intros Hd. apply plain_str_dict. rewrite <- reread_str_dict. apply plain_reread. by apply plain_str_dict. Qed.

Lemma field_plain d k v : plain_items d → field d k = Ok v → plain v = true.
Proof.
  intros [_ Hd]. unfold field. destruct (dict_get k d) eqn:E; [|done]. intros [= ->].
  apply dict_get_elem in E. rewrite Forall_forall in Hd. by apply (Hd (k, v)).
Qed.

Lemma keyed_resort error path keys v d : plain v = true → keyed_dict error path keys v = Ok d →
  v = str_dict d ∧ plain_items d ∧ keyed_dict error path keys (reread true v) = Ok (resort d).
Proof.
  intros Hp. unfold keyed_dict. intros Hk. inv_ok.
  match goal with H : object_dict _ _ _ = Ok _ |- _ => apply (object_dict_plain _ _ _ _ Hp) in H as [-> Hd] end.
  split_and!; [done..|]. rewrite reread_str_dict, object_dict_literal by apply (resort_plain _ Hd). cbn.
  rewrite keys_are_resort. match goal with H : negb _ = false |- _ => by rewrite H end.
Qed.

Lemma tagged_resort error path kind keys v d : plain v = true → tagged_dict error path kind keys v = Ok d →
  v = str_dict d ∧ plain_items d ∧ tagged_dict error path kind keys (reread true v) = Ok (resort d).
Proof.
  intros Hp. unfold tagged_dict. intros Hk. inv_ok.
  match goal with H : keyed_dict _ _ _ _ = Ok _ |- _ => apply (keyed_resort _ _ _ _ _ Hp) in H as (-> & Hd & ->) end.
  split_and!; [done..|]. cbn.
  repeat match goal with H : field _ _ = Ok _ |- _ => apply (field_resort _ _ _ (proj1 Hd)) in H; rewrite H; clear H; cbn end.
  match goal with H : _ || _ = false |- _ => rename H into Hc end.
  destruct x0, x1; cbn in *; try done; by rewrite Hc.
Qed.

Lemma as_str_reread e v s : as_str e v = Ok s → as_str e (reread true v) = Ok s.
Proof. by destruct v. Qed.
Lemma as_int_reread e v z : as_int e v = Ok z → as_int e (reread true v) = Ok z.
Proof. by destruct v. Qed.
Lemma as_opt_str_reread e v o : as_opt_str e v = Ok o → as_opt_str e (reread true v) = Ok o.
Proof. by destruct v. Qed.
Lemma as_list_reread e v l : as_list e v = Ok l → as_list e (reread true v) = Ok (reread true <$> l).
Proof. destruct v; try done. cbn. by intros [= ->]. Qed.
Lemma map_str_reread e l r : map_res (as_str e) l = Ok r → map_res (as_str e) (reread true <$> l) = Ok r.
Proof.
  rewrite !map_res_ok. induction 1 as [|x y l r Hx _ IH]; [constructor|]. constructor; [by apply as_str_reread|exact IH].
Qed.

Lemma object_dict_reread error v path d : plain v = true → object_dict v path error = Ok d →
  plain_items d ∧ object_dict (reread true v) path error = Ok (resort d).
Proof.
  intros Hp Hd. destruct (object_dict_plain _ _ _ _ Hp Hd) as [-> Hi]. split; [done|].
  rewrite reread_str_dict. apply object_dict_literal. apply (resort_plain _ Hi).
Qed.

(** [carry] replays a decoder on the resorted dictionary [d]. *)
Ltac carry_step Hd :=
  match goal with
  | H : field ?d ?k = Ok ?v |- context [field (resort ?d) ?k] =>
      pose proof (field_plain _ _ _ Hd H); apply (field_resort _ _ _ (proj1 Hd)) in H; rewrite H; clear H
  | H : as_str ?e ?v = Ok _ |- context [as_str ?e (reread true ?v)] => apply as_str_reread in H; rewrite H; clear H
  | H : as_int ?e ?v = Ok _ |- context [as_int ?e (reread true ?v)] => apply as_int_reread in H; rewrite H; clear H
  | H : as_opt_str ?e ?v = Ok _ |- context [as_opt_str ?e (reread true ?v)] =>
      apply as_opt_str_reread in H; rewrite H; clear H
  | H : as_list ?e ?v = Ok _ |- context [as_list ?e (reread true ?v)] => apply as_list_reread in H; rewrite H; clear H
  | H : map_res (as_str ?e) ?l = Ok _ |- context [map_res (as_str ?e) (reread true <$> ?l)] =>
      apply map_str_reread in H; rewrite H; clear H
  | H : ?m = Ok _ |- context [?m] => rewrite H; clear H
  | H : ?m = Some _ |- context [?m] => rewrite H; clear H
  | H : ?b = false |- context [raise_if ?b _] => rewrite H; clear H
  end; cbn [mbind result_bind raise_if].

(** What [object_dict] gives is plain when its argument is. *)
Lemma raise_if_tt b e (u : unit) : raise_if b e = Ok u → b = false.
Proof. destruct b; [done|]. done. Qed.

Lemma freeze_ext_resort e d x : plain_items d → _freeze_extensions e (str_dict d) = Ok x →
  ∃ y, _freeze_extensions e (str_dict (resort d)) = Ok y.
Proof.
  intros Hd Hx. pose proof (resort_plain _ Hd) as [Hnd' Hp'].
  assert (Hn : Forall (λ kv, valid_namespace kv.1 = true) d).
  { unfold str_dict, _freeze_extensions in Hx. change (prod_map PyStr id <$> d) with (items_of d) in Hx.
    apply copy_entries_ok in Hx as (src & E & out & Hout & _).
    assert (src = d) as ->.
    { clear -E. revert src E. induction d as [|[k v] d IH]; intros [|[k' v'] src] E; try done.
      cbn in E. injection E as -> -> E. f_equal. by apply IH. }
    clear -Hout. induction Hout as [|[k v] y src out [_ Hf] _ IH]; [constructor|]. constructor; [|done]. inv_ok.
    by apply negb_false_iff. }
  assert (Hn' : Forall (λ kv, valid_namespace kv.1 = true) (resort d)).
  { rewrite resort_perm. clear -Hn. induction Hn as [|[] ? ? ? IH]; [constructor|]. by constructor. }
  assert (Hm : ∃ out, Forall2 (λ a b : string * pyval, a.1 = b.1 ∧
      (raise_if (negb (valid_namespace a.1)) (e "extensions");;
       _freeze_json e a.2 ("extensions." +:+ a.1)) = Ok b.2) (resort d) out).
  { clear -Hn' Hp'. induction Hn' as [|[k v] l Hk _ IH]; [by exists []|]. inversion_clear Hp'.
    destruct IH as [out Hout]; [done|]. cbn in *. destruct (thaw_freeze e v H ("extensions." +:+ k)) as (f & Hf & _).
    exists ((k, f) :: out). constructor; [|done]. split; [done|]. cbn in Hk |- *. rewrite Hk. cbn. exact Hf. }
  destruct Hm as [out Hout]. eexists. unfold str_dict, _freeze_extensions.
  change (prod_map PyStr id <$> resort d) with (items_of (resort d)).
  apply (copy_entries_total _ (λ namespace extension,
      raise_if (negb (valid_namespace namespace)) (e "extensions");;
      _freeze_json e extension ("extensions." +:+ namespace))). exact Hout.
Qed.

Lemma freeze_mapping_plain e d path : plain_items d → ∃ y, freeze_mapping e (str_dict d) path = Ok y.
Proof.
  intros Hd. unfold freeze_mapping.
  destruct (thaw_freeze e (str_dict d) (proj2 (plain_str_dict d) Hd) path) as (f & Hf & _).
  rewrite Hf. cbn. pose proof (freeze_json_frozen _ _ _ _ Hf) as Hz.
  cbn in Hf. inv_ok. unfold frozen in Hz. cbn in Hz. apply json_items_inv in Hz as (d' & -> & Hnd & _).
  rewrite copy_entries_id by done. by eexists.
Qed.

Section artifact_reread.
Context `{IpLiterals, QueryText, DateTimes}.

Lemma digest_reread v d : plain v = true → digest_from_dict v = Ok d → digest_from_dict (reread true v) = Ok d.
Proof.
  intros Hp Hd. unfold digest_from_dict in *. inv_ok.
  match goal with H : keyed_dict _ _ _ _ = Ok _ |- _ => apply (keyed_resort _ _ _ _ _ Hp) in H as (-> & Hi & ->) end.
  cbn [mbind result_bind]. repeat carry_step Hi. done.
Qed.

Lemma locator_reread d l : plain_items d → resource_locator_from_dict (str_dict d) = Ok l →
  ∃ l', resource_locator_from_dict (str_dict (resort d)) = Ok l'.
Proof.
  intros Hi Hl. pose proof (resort_plain _ Hi) as Hi'. unfold resource_locator_from_dict in *.
  rewrite object_dict_literal in Hl |- * by first [apply Hi | apply Hi'].
  cbn [mbind result_bind] in Hl |- *. rewrite dict_get_resort by apply Hi.
  destruct (dict_get "kind" d) as [k|] eqn:Ek; [|discriminate Hl]. cbn [default] in Hl.
  destruct k; try discriminate Hl. cbn [fmap option_fmap option_map reread default]. case_match eqn:Es; [|discriminate Hl].
  rewrite <- reread_str_dict. unfold locator_from_dict in *. inv_ok.
  match goal with H : tagged_dict _ _ _ _ _ = Ok _ |- _ =>
    apply (tagged_resort _ _ _ _ _ _ (proj2 (plain_str_dict d) Hi)) in H as (_ & Hj & ->) end.
  cbn [mbind result_bind]. repeat carry_step Hj.
  match goal with H : object_dict ?v _ _ = Ok ?e, Hv : plain ?v = true |- _ =>
    destruct (object_dict_reread _ _ _ _ Hv H) as [Hk ->] end.
  cbn [mbind result_bind]. unfold make_locator in *. inv_ok.
  match goal with H : _freeze_extensions _ (str_dict _) = Ok _ |- _ => destruct (freeze_ext_resort _ _ _ Hk H) as [y Hy] end.
  match goal with H : _validate_uri _ _ = Ok _ |- _ => rewrite H end. cbn [mbind result_bind]. rewrite Hy. by eexists.
Qed.

Lemma provenance_reread v p : plain v = true → provenance_from_dict v = Ok p →
  ∃ p', provenance_from_dict (reread true v) = Ok p'.
Proof.
  intros Hp Hd. unfold provenance_from_dict in *. inv_ok.
  match goal with H : keyed_dict _ _ _ _ = Ok _ |- _ => apply (keyed_resort _ _ _ _ _ Hp) in H as (-> & Hi & ->) end.
  cbn [mbind result_bind]. repeat carry_step Hi.
  match goal with H : object_dict ?v _ _ = Ok _, Hv : plain ?v = true |- _ =>
    destruct (object_dict_reread _ _ _ _ Hv H) as [Hk ->] end.
  cbn [mbind result_bind].
  match goal with H : resource_locator_from_dict _ = Ok _ |- _ => destruct (locator_reread _ _ Hk H) as [l' ->] end.
  cbn [mbind result_bind]. unfold make_provenance in *. inv_ok. cbn in *. repeat carry_step Hi. by eexists.
Qed.

Lemma artifact_reread v a : plain v = true → artifact_from_dict v = Ok a →
  ∃ a', artifact_from_dict (reread true v) = Ok a'.
Proof.
  intros Hp Hd. unfold artifact_from_dict in *. inv_ok.
  match goal with H : tagged_dict _ _ _ _ _ = Ok _ |- _ => apply (tagged_resort _ _ _ _ _ _ Hp) in H as (-> & Hi & ->) end.
  cbn [mbind result_bind]. repeat carry_step Hi.
  repeat match goal with
  | H : digest_from_dict ?v = Ok _, Hv : plain ?v = true |- context [digest_from_dict (reread true ?v)] =>
      apply (digest_reread _ _ Hv) in H; rewrite H; cbn [mbind result_bind]
  | H : provenance_from_dict ?v = Ok _, Hv : plain ?v = true |- context [provenance_from_dict (reread true ?v)] =>
      destruct (provenance_reread _ _ Hv H) as [p ->]; cbn [mbind result_bind]
  | H : object_dict ?v _ _ = Ok _, Hv : plain ?v = true |- context [object_dict (reread true ?v)] =>
      let Hk := fresh "Hk" in destruct (object_dict_reread _ _ _ _ Hv H) as [Hk ->]; cbn [mbind result_bind]; clear Hv
  end.
  unfold make_artifact in *. inv_ok. repeat carry_step Hi.
  destruct (freeze_mapping_plain artifact_contract_error _ "metadata" (resort_plain _ Hk0)) as [y ->].
  match goal with H : _freeze_extensions _ (str_dict _) = Ok _ |- _ =>
    destruct (freeze_ext_resort _ _ _ Hk H) as [z Hz] end.
  cbn [mbind result_bind]. rewrite Hz. by eexists.
Qed.
End artifact_reread.

(** ** The envelope *)

Section envelope.
Context `{IpLiterals, QueryText, DateTimes, HttpDates, FloatText, Sha256}.

Lemma decode_ascii t : isascii t = true → decode_utf8 t = Some t.
Proof.
  induction t as [|c t IH]; [done|]. cbn. intros [Hc Ht]%andb_true_iff.
  rewrite IH by done. by rewrite Hc.
Qed.

Lemma str_items_of d : str_items (items_of d) = Some d.
Proof. induction d as [|[k v] d IH]; [done|]. cbn. unfold items_of in IH. by rewrite IH. Qed.

Lemma get_resort k d : NoDup d.*1 → get k (resort d) = reread true (get k d).
Proof. intros Hnd. unfold get. rewrite dict_get_resort by done. by destruct (dict_get k d). Qed.

Lemma get_plain k d : plain_items d → plain (get k d) = true.
Proof.
  intros [_ Hd]. unfold get. destruct (dict_get k d) eqn:E; [|done].
  apply dict_get_elem in E. rewrite Forall_forall in Hd. by apply (Hd (k, _)).
Qed.

(** The scalar tests do not see the order of keys. *)
Lemma is_sha256_reread v : is_sha256 (reread true v) = is_sha256 v.
Proof. by destruct v. Qed.
Lemma source_version_reread v : _is_source_version (reread true v) = _is_source_version v.
Proof. by destruct v. Qed.
Lemma is_index_reread v : is_index (reread true v) = is_index v.
Proof. by destruct v. Qed.
Lemma py_eq_str_reread v s : py_eq_str (reread true v) s = py_eq_str v s.
Proof. by destruct v. Qed.
Lemma py_eq_int_reread v z : py_eq_int (reread true v) z = py_eq_int v z.
Proof. by destruct v. Qed.

Lemma plain_dict_inv kvs : plain (PyDict kvs) = true → ∃ d, kvs = items_of d ∧ plain_items d.
Proof. intros (d & -> & Hd)%json_items_inv. by exists d. Qed.

Lemma reread_items d : reread true (PyDict (items_of d)) = PyDict (items_of (resort d)).
Proof. apply reread_dict. Qed.

Lemma checkpoint_reread d : plain_items d → _validate_checkpoint_v3 (Some d) = Ok tt →
  _validate_checkpoint_v3 (Some (resort d)) = Ok tt.
Proof.
  intros Hi Hv. unfold _validate_checkpoint_v3 in *. rewrite keys_are_resort.
  rewrite !get_resort by apply Hi.
  apply bind_ok in Hv as ([] & Hk & Hv). rewrite Hk. cbn [mbind result_bind].
  apply bind_ok in Hv as (pos & Hpos & Hv).
  destruct (get "position" d) as [| | | | | | | |kvs| |] eqn:Ep; try discriminate Hpos.
  pose proof (get_plain "position" _ Hi) as Hp. rewrite Ep in Hp.
  apply plain_dict_inv in Hp as (p & -> & Hp). rewrite reread_items. rewrite str_items_of in *.
  rewrite keys_are_resort. apply bind_ok in Hpos as ([] & Hq & [= <-]). rewrite Hq. cbn [mbind result_bind].
  rewrite !get_resort by apply Hp.
  by rewrite !is_sha256_reread, !source_version_reread, !is_index_reread, !py_eq_str_reread.
Qed.

Lemma extra_reread v : plain v = true → _validate_extra v = Ok tt → _validate_extra (reread true v) = Ok tt.
Proof.
  intros Hp Hv. destruct v as [| | | | | | | |kvs| |]; try discriminate Hv.
  apply plain_dict_inv in Hp as (d & -> & Hi). rewrite reread_items.
  destruct d as [|kv d]; [done|]. set (d0 := kv :: d) in *.
  assert (Hne : ∀ e, (match items_of e with [] => Ok tt | kvs => _validate_extra (PyDict kvs) end) = _validate_extra (PyDict (items_of e))).
  { by intros []. }
  assert (Hd : items_of (resort d0) ≠ []).
  { intros E. assert (El : length (items_of (resort d0)) = length d0); [|rewrite E in El; discriminate El].
    unfold items_of. rewrite length_fmap. rewrite (Permutation_length (resort_perm d0)). apply length_fmap. }
  unfold _validate_extra in *.
  destruct (items_of (resort d0)) as [|y ys] eqn:Ey; [done|]. rewrite <- Ey.
  destruct (items_of d0) as [|x xs] eqn:Ex; [done|]. rewrite <- Ex in Hv.
  rewrite str_items_of in *.
  assert (Hin : ∀ k, bool_decide (k ∈ (resort d0).*1) = bool_decide (k ∈ d0.*1)).
  { intros k. apply bool_decide_ext. by rewrite (resort_keys d0). }
  assert (Hall : ∀ f, forallb f (resort d0).*1 = forallb f d0.*1).
  { intros f. apply eq_iff_eq_true. rewrite !forallb_Forall. by rewrite (resort_keys d0). }
  rewrite Hin, Hall, keys_are_resort, !get_resort by apply Hi.
  case_match.
  - apply bind_ok in Hv as ([] & Ha & Hv). unfold _validate_completed_artifact in *.
    pose proof (get_plain "datasluice_completed_artifact" _ Hi) as Hpl.
    destruct (artifact_from_dict (get "datasluice_completed_artifact" d0)) as [a|] eqn:E; [|discriminate Ha].
    destruct (artifact_reread _ _ Hpl E) as [a' ->]. cbn [mbind result_bind].
    by rewrite source_version_reread.
  - apply bind_ok in Hv as ([] & Hk & Hv). rewrite Hk. cbn [mbind result_bind].
    pose proof (get_plain "datasluice_checkpoint" _ Hi) as Hpl.
    destruct (get "datasluice_checkpoint" d0) as [| | | | | | | |ckvs| |]; try discriminate Hv.
    apply plain_dict_inv in Hpl as (c & -> & Hc). rewrite reread_items. rewrite str_items_of in *.
    apply bind_ok in Hv as ([] & Hver & Hv). rewrite checkpoint_reread by done.
    assert (existsb (λ kv, py_eq_str kv.1 "version" && py_eq_int kv.2 3) (items_of (resort c)) =
            existsb (λ kv, py_eq_str kv.1 "version" && py_eq_int kv.2 3) (items_of c)) as ->; [|by rewrite Hver].
    apply eq_iff_eq_true. rewrite !existsb_exists. setoid_rewrite <- list_elem_of_In. unfold items_of.
    setoid_rewrite list_elem_of_fmap. setoid_rewrite (resort_perm c). setoid_rewrite list_elem_of_fmap.
    split.
    + intros ([k v] & ([k' v'] & [= -> ->] & [k'' v''] & [= -> ->] & Hin') & Ht). cbn in Ht.
      rewrite py_eq_int_reread in Ht. exists (PyStr k'', v''). split; [|done]. by exists (k'', v'').
    + intros ([k v] & ([k' v'] & [= -> ->] & Hin') & Ht). cbn in Ht.
      exists (PyStr k', reread true v'). split; [|cbn; by rewrite py_eq_int_reread].
      exists (k', reread true v'). split; [done|]. by exists (k', v').
Qed.

Lemma cursor_cases key c : _validate_cursor key c = Ok tt →
  c = PyDict [] ∨ ∃ w, c = str_dict [(key, PyStr w)].
Proof.
  intros Hc. destruct c as [| | | | | | | |kvs| |]; try discriminate Hc.
  destruct kvs as [|[k w] [|]]; try discriminate Hc; [by left|]. right. cbn in Hc.
  apply raise_if_ok, orb_false_iff in Hc as [Hk Hw]. apply negb_false_iff in Hk.
  destruct k; try discriminate Hk. apply bool_decide_eq_true in Hk as ->.
  destruct w as [| | | |w| | | | | |]; try discriminate Hw. by exists w.
Qed.

Lemma last_synced_plain v : _validate_last_synced_at v = Ok tt → plain v = true ∧ reread true v = v ∧ floats v = [].
Proof. by destruct v. Qed.

(** The fields of the envelope's state *)
Definition state_fields (s : SyncState) : pydict :=
  [("cursor", match cursor s with
              | PyDict ((_, watermark) :: _) =>
                  str_dict [("schema", PyStr _COMPLETED_WATERMARK_SCHEMA); ("watermark", watermark)]
              | _ => PyDict []
              end);
   ("partitions", PyDict []); ("last_synced_at", last_synced_at s); ("extra", extra s)].
Definition envelope_of (s : SyncState) : pydict := [("schema_version", PyInt 1); ("state", _encode_state s)].

Lemma envelope_plain key s : _validate_state_for_write key s = Ok tt → plain (extra s) = true →
  plain_items (envelope_of s) ∧ plain (_encode_state s) = true ∧ floats (str_dict (envelope_of s)) = floats (extra s).
Proof.
  intros Hv Hp. unfold _validate_state_for_write in Hv. inv_ok.
  match goal with H : _validate_last_synced_at _ = _ |- _ =>
    destruct x1; destruct (last_synced_plain _ H) as (Hl & _ & Hlf) end.
  assert (Henc : plain (_encode_state s) = true).
  { unfold _encode_state. apply plain_str_dict. split; [literal_keys|].
    repeat constructor; cbn; [|done|done]. destruct x. by apply cursor_cases in H5 as [->|[w ->]]. }
  split_and!; [split; [literal_keys|by repeat constructor]|done|].
  cbn. rewrite Hlf, !app_nil_r. cbn. destruct x. by apply cursor_cases in H5 as [->|[w ->]].
Qed.

(** The state as its envelope shows it: a checkpoint or an artifact with its
    keys sorted *)
Definition reread_state (s : SyncState) : SyncState :=
  {| cursor := cursor s; partitions := partitions s; last_synced_at := last_synced_at s; extra := reread true (extra s) |}.

Lemma validate_reread key s : _validate_state_for_write key s = Ok tt → plain (extra s) = true →
  _validate_state_for_write key (reread_state s) = Ok tt.
Proof.
  unfold _validate_state_for_write. intros Hv Hp. cbn [cursor partitions last_synced_at extra reread_state].
  apply bind_ok in Hv as ([] & -> & Hv). apply bind_ok in Hv as ([] & -> & Hv). apply bind_ok in Hv as ([] & -> & Hv).
  cbn [mbind result_bind]. by apply extra_reread.
Qed.

Lemma decode_cursor key c : _validate_cursor key c = Ok tt →
  _decode_completed_cursor key (reread true match c with
    | PyDict ((_, watermark) :: _) => str_dict [("schema", PyStr _COMPLETED_WATERMARK_SCHEMA); ("watermark", watermark)]
    | _ => PyDict []
    end) = Ok c.
Proof. intros [->|[w ->]]%cursor_cases; reflexivity. Qed.

Lemma validated_fields key s : _validate_state_for_write key s = Ok tt →
  _validate_cursor key (cursor s) = Ok tt ∧ partitions s = PyDict [] ∧
  reread true (last_synced_at s) = last_synced_at s ∧ ∃ kvs, extra s = PyDict kvs.
Proof.
  unfold _validate_state_for_write. intros Hv. apply bind_ok in Hv as ([] & Hc & Hv).
  apply bind_ok in Hv as ([] & Hp & Hv). apply bind_ok in Hv as ([] & Hl & Hv). split_and!; [done| | |].
  - by destruct (partitions s) as [| | | | | | | |[]| |].
  - by apply last_synced_plain.
  - destruct (extra s); try discriminate Hv. by eexists.
Qed.

Lemma state_envelope key s :
  _validate_state_for_write key s = Ok tt → plain (extra s) = true → Forall float_text_ok (floats (extra s)) →
  ∃ payload, _serialize_state s = Ok payload ∧ isascii payload = true ∧
             _decode_envelope key payload = Ok (reread_state s).
Proof.
  intros Hv Hp Hf. destruct (envelope_plain _ _ Hv Hp) as (He & Henc & Hfl).
  destruct (dumps_loads true (str_dict (envelope_of s))) as (t & Ht & Ha & Hl).
  { by apply plain_str_dict. } { by rewrite Hfl. }
  exists t. split_and!; [done..|]. unfold _decode_envelope. rewrite decode_ascii by done.
  cbn [mbind option_bind]. rewrite Hl. cbn [mbind result_bind].
  rewrite reread_str_dict. unfold str_dict. change (prod_map PyStr id <$> ?d) with (items_of d).
  rewrite str_items_of, !get_resort, keys_are_resort by apply He.
  assert (plain_items (state_fields s)) as Hs by by apply plain_str_dict.
  change (get "state" (envelope_of s)) with (PyDict (items_of (state_fields s))). rewrite reread_items, str_items_of.
  change (raise_if (negb (py_eq_int _ 1)) _) with (Ok tt). change (keys_are (envelope_of s) _) with true.
  cbn [mbind result_bind raise_if negb]. unfold _mapping_field.
  rewrite !dict_get_resort, get_resort by apply Hs.
  change (dict_get "partitions" (state_fields s)) with (Some (PyDict [])).
  change (dict_get "extra" (state_fields s)) with (Some (extra s)).
  change (get "last_synced_at" (state_fields s)) with (last_synced_at s).
  pose proof (validate_reread _ _ Hv Hp) as Hr. destruct (validated_fields _ _ Hv) as (Hc & Hpa & Hla & kvs & Hx).
  unfold state_fields. cbn [dict_get]. rewrite bool_decide_eq_true_2 by done. cbn [fmap option_fmap option_map default].
  cbn [mbind result_bind]. unfold id. rewrite (decode_cursor key (cursor s)) by done. rewrite Hla. unfold reread_state in *. rewrite Hx, Hpa in *.
  change (reread true (PyDict [])) with (PyDict []).
  destruct (reread true (PyDict kvs)) as [| | | | | | | |kvs'| |] eqn:Ek; try discriminate Ek.
  cbn [mbind result_bind]. by rewrite Hr.
Qed.
(** C22: what is written is what is read: the envelope of a state that passed
    the validation for [key] - a completed watermark with its artifact or a
    checkpoint in progress - can be serialized whenever its extra data is plain
    JSON, is ASCII, and decodes for the same key to the same state, with the
    keys of the extra data in sorted order; nothing it holds is lost or
    refused. *)
Theorem state_envelope_roundtrip key s :
  _validate_state_for_write key s = Ok tt → plain (extra s) = true → Forall float_text_ok (floats (extra s)) →
  ∃ payload, _serialize_state s = Ok payload ∧ isascii payload = true ∧
             _decode_envelope key payload = Ok (reread_state s).
Proof. intros. by apply state_envelope. Qed.
End envelope.

(** ** One writer on its own *)

Section quiet.
Context `{IpLiterals, QueryText, DateTimes, HttpDates, FloatText, Sha256} {W : Type} `{!Filesystem W}.
Variable self : FileStateStore.

(** Nothing holds or uses the lock of [key], and thread [t] is in no section. *)
Record quiet (t : thread) (key : string) (w : world W) : Prop := {
  q_lock : _GLOBAL_LOCKS (registry_of t.1 w) !! _lock_scope self key = None;
  q_users : _GLOBAL_LOCKS_USERS (registry_of t.1 w) !! _lock_scope self key = None;
  q_file : file_locks w !! lock_path self key = None;
  q_held : _lock_scope self key ∉ held t w
}.

(** The same locks: nothing is registered, held or owned that was not before. *)
Definition same_locks (w w' : world W) : Prop :=
  (∀ p, registry_of p w' = registry_of p w) ∧ file_locks w' = file_locks w ∧ (∀ t, held t w' = held t w) ∧
  ∃ free, rlocks w' = rlocks w ++ free ∧ Forall (λ k, lock_owner k = None ∧ lock_depth k = 0%nat) free.

(** The world after an update of one component *)
Lemma world_registry p f (R : gmap nat registry) L F Hd (D : W) :
  set_registry p f (World R L F Hd D) = World (<[p := f (default empty_registry (R !! p))]> R) L F Hd D.
Proof. reflexivity. Qed.
Lemma world_rlocks f (R : gmap nat registry) L F Hd (D : W) :
  set_rlocks f (World R L F Hd D) = World R (f L) F Hd D.
Proof. reflexivity. Qed.
Lemma world_files f (R : gmap nat registry) L F Hd (D : W) :
  set_file_locks f (World R L F Hd D) = World R L (f F) Hd D.
Proof. reflexivity. Qed.
Lemma world_held t s (R : gmap nat registry) L F Hd (D : W) :
  set_held t s (World R L F Hd D) = World R L F (<[t := s]> Hd) D.
Proof. reflexivity. Qed.
Lemma world_disk d (R : gmap nat registry) L F Hd (D : W) :
  set_disk d (World R L F Hd D) = World R L F Hd d.
Proof. reflexivity. Qed.

(** [locks_back Hrel Hl Hu Hf] compares the world after a section with the one before. *)
Ltac locks_back Hrel Hl Hu Hf :=
  eexists; split; [reflexivity|]; split; [reflexivity|];
  unfold same_locks; repeat first [rewrite world_registry|rewrite world_rlocks|rewrite world_files|rewrite world_held|rewrite world_disk]; unfold registry_of, held;
  cbn [registries rlocks file_locks _HELD_FILE_LOCKS disk];
  refine (conj _ (conj _ (conj _ _)));
  [intros p; match type of Hl with context [default _ (_ !! ?q)] => destruct (decide (q = p)) as [<-|Hne] end;
     [rewrite !lookup_insert_eq; cbn; rewrite !lookup_insert_eq, ?Hu; cbn;
      rewrite !delete_insert_eq, (delete_id _ _ Hl), (delete_id _ _ Hu);
      match goal with |- context [default empty_registry ?o] => destruct (default empty_registry o); reflexivity end
     |rewrite !lookup_insert_ne by assumption; reflexivity]
  |first [rewrite delete_insert_eq; exact (delete_id _ _ Hf)|reflexivity]
  |intros t'; lazymatch goal with
   | |- context [<[?t := _]> _ !! t'] =>
       destruct (decide (t = t')) as [<-|Hne];
       [rewrite lookup_insert_eq; reflexivity|rewrite !lookup_insert_ne by assumption; reflexivity]
   | |- _ => reflexivity
   end
  |eexists; split; [exact Hrel|by repeat constructor]].

Lemma quiet_section {A} t key (body : M (world W) A) (m : M W A) w :
  quiet t key w → (∀ w, body w = on_disk m w) →
  ∃ w', _key_lock_held self t key body w =
    ((((if is_local self then open_lock_file (lock_path self key) else mret tt);; m) (disk w)).1, w') ∧
    disk w' = (((if is_local self then open_lock_file (lock_path self key) else mret tt);; m) (disk w)).2 ∧
    same_locks w w'.
Proof.
  intros [Hl Hu Hf Hh] Hb. unfold _key_lock_held, enter_registry, leave_registry, file_lock_enter, file_lock_exit, acquire, release.
  revert Hl Hu Hf Hh. generalize (_lock_scope self key) as sc, (lock_path self key) as lp. intros lp sc Hl Hu Hf Hh.
  destruct w as [R L F Hd D]. unfold registry_of, held in *. cbn in *.
  unfold mbind, M_bind, read, try_finally, on_disk, modify, mret, M_ret, registry_of, held. cbn. rewrite Hl. cbn.
  assert (bool_decide (lp ∈ default ∅ (Hd !! t)) = false) as -> by by apply bool_decide_eq_false_2.
  assert (Hrel : alter (λ k : RLock, {| lock_owner := if (lock_depth k =? 1)%nat then None else lock_owner k;
        lock_depth := lock_depth k - 1 |}) (length L)
     (alter (λ k : RLock, {| lock_owner := Some t; lock_depth := S (lock_depth k) |}) (length L)
        (L ++ [{| lock_owner := None; lock_depth := 0 |}])) = L ++ [{| lock_owner := None; lock_depth := 0 |}]).
  { rewrite (alter_app_r_alt _ L _ (length L)), Nat.sub_diag by done. cbn.
    rewrite (alter_app_r_alt _ L _ (length L)), Nat.sub_diag by done. done. }
  destruct (is_local self); cbn.
  - destruct (open_lock_file sc D) as [[u|e] D1]; cbn.
    + rewrite Hb. unfold on_disk. cbn. destruct (m D1) as [r D2]. cbn. locks_back Hrel Hl Hu Hf.
    + locks_back Hrel Hl Hu Hf.
  - rewrite Hb. unfold on_disk. cbn. destruct (m D) as [r D2]. cbn. locks_back Hrel Hl Hu Hf.
Qed.

(** The section of [conditional_put] works on the disk only. *)
Definition cas_body (key payload : string) (expected : option string) : M W unit :=
  actual_prior ← read_raw self key;
  (if negb (same_version expected actual_prior) then throw conflict_error else mret tt);;
  _publish self key payload.

Lemma cas_body_section t key s expected payload w : quiet t key w →
  _validate_state_for_write key s = Ok tt → _serialize_state s = Ok payload →
  ∃ r w', conditional_put self t key s expected w = (r, w') ∧ same_locks w w' ∧
    (((if is_local self then open_lock_file (lock_path self key) else mret tt);; cas_body key payload expected;; mret payload)
       (disk w)) = (r, disk w').
Proof.
  intros Hq Hv Hs. unfold conditional_put. unfold mbind, M_bind, lift_res. rewrite Hv, Hs.
  match goal with |- context [_key_lock_held self t key ?b] =>
    destruct (quiet_section t key b (cas_body key payload expected) w Hq) as (w' & -> & Hd & Hl) end.
  - clear. intros w. unfold on_disk, cas_body, mbind, M_bind. destruct (read_raw self key (disk w)) as [[a|e] d]; [|done].
    destruct (negb (same_version expected a)); cbn; [done|]. by destruct w.
  - revert Hd. unfold mbind, M_bind.
    destruct ((if is_local self then open_lock_file (lock_path self key) else mret tt) (disk w)) as [[u|e] d]; cbn.
    + destruct (cas_body key payload expected d) as [[v|e] d'] eqn:E; cbn; intros <-; by eexists _, _.
    + intros <-. by eexists _, _.
Qed.

Lemma same_locks_refl w : same_locks w w.
Proof. split_and!; [done..|]. exists []. by rewrite app_nil_r. Qed.

(** Whatever the filesystem does - whether it opens the lock file, reads,
    writes and renames, or raises in any of these calls - a [conditional_put]
    that no other thread competes with gives back everything it took: the
    registry of its process, the lock files and the thread's scopes are as
    before, and the lock it made is left free. *)
Theorem conditional_put_locks t key s expected w :
  quiet t key w → same_locks w (conditional_put self t key s expected w).2.
Proof.
  intros Hq. unfold conditional_put.
  destruct (_validate_state_for_write key s) as [[]|e] eqn:Ev; [|apply same_locks_refl].
  destruct (_serialize_state s) as [payload|e] eqn:Es; [|apply same_locks_refl].
  destruct (cas_body_section t key s expected payload w Hq) as (r & w' & E & Hs & _); [by rewrite Ev|done|].
  unfold conditional_put in E. rewrite Ev, Es in E. unfold mbind, M_bind, lift_res in E |- *. by rewrite E.
Qed.
End quiet.

(** ** Compare-and-swap on a disk *)

Section cas.
Context `{IpLiterals, QueryText, DateTimes, HttpDates, FloatText, Sha256}.
Variable self : FileStateStore.

Lemma publish_plain key payload (d : files) : d !! _temporary_path self payload "1.0" = None →
  _publish self key payload d = (Ok tt, <[_state_path self key := payload]> d).
Proof.
  intros Ht. unfold _publish. cbn -[_temporary_path _state_path]. unfold try_except, mbind, M_bind.
  cbn -[_temporary_path _state_path]. rewrite lookup_insert_eq. rewrite delete_insert_eq, delete_id by exact Ht. done.
Qed.

Lemma read_raw_plain key (d : files) : read_raw self key d = (Ok (d !! _state_path self key), d).
Proof.
  unfold read_raw, try_except, mbind, M_bind. cbn -[_state_path].
  destruct (d !! _state_path self key) as [s|]; done.
Qed.

Lemma cas_body_plain key payload expected (d : files) : d !! _temporary_path self payload "1.0" = None →
  cas_body self key payload expected d =
  if same_version expected (d !! _state_path self key) then (Ok tt, <[_state_path self key := payload]> d)
  else (Raise conflict_error, d).
Proof.
  intros Ht. unfold cas_body, mbind, M_bind. rewrite read_raw_plain. destruct (same_version _ _); cbn; [|done].
  by apply publish_plain.
Qed.

(** Compare-and-swap, then read: on a disk, a [conditional_put] without
    competitors of a state that passes the validation succeeds exactly when the
    version it expects has the digest of the one stored under the key, and then
    changes that file only; [get_with_version] gives back the state and, as
    its version, the payload the put returned.  Otherwise it raises the
    conflict error and the disk is untouched. *)
Theorem compare_and_swap t key s expected payload (w : world files) :
  quiet self t key w → _validate_state_for_write key s = Ok tt → plain (extra s) = true →
  Forall float_text_ok (floats (extra s)) → _serialize_state s = Ok payload →
  disk w !! _temporary_path self payload "1.0" = None →
  ∃ w', same_locks w w' ∧
    if same_version expected (disk w !! _state_path self key) then
      conditional_put self t key s expected w = (Ok payload, w') ∧
      disk w' = <[_state_path self key := payload]> (disk w) ∧
      get_with_version self key (disk w') = (Ok (Some (reread_state s), Some payload), disk w')
    else conditional_put self t key s expected w = (Raise conflict_error, w') ∧ disk w' = disk w.
Proof.
  intros Hq Hv Hp Hf Hs Ht. destruct (cas_body_section self t key s expected payload w Hq Hv Hs) as (r & w' & E & Hl & Hd).
  exists w'. split; [done|]. rewrite E. clear E.
  assert (Hb : (cas_body self key payload expected;; mret payload) (disk w) = (r, disk w')).
  { revert Hd. unfold mbind, M_bind. by destruct (is_local self). }
  unfold mbind, M_bind in Hb. rewrite cas_body_plain in Hb by done.
  destruct (same_version _ _); cbn in Hb; injection Hb as <- Hd'; [|done].
  split_and!; [done..|]. unfold get_with_version, mbind, M_bind. rewrite read_raw_plain, <- Hd', lookup_insert_eq.
  destruct (state_envelope key s Hv Hp Hf) as (p & Hs' & _ & Hdec). rewrite Hs in Hs'. injection Hs' as <-.
  unfold lift_res. by rewrite Hdec.
Qed.
End cas.

(** ** Witnesses *)

#[local] Existing Instances sample_ips sample_query sample_dates whole_text.
#[local] Instance sample_http : HttpDates := λ _, false.
#[local] Instance sample_hash : Sha256 := λ _, sample_sha.

Definition sample_disk_store : FileStateStore := {| store_base := "/state"; store_protocols := ["file"; "local"] |}.

Definition completed_state : SyncState :=
  {| cursor := str_dict [("air", PyStr sample_sha)]; partitions := PyDict []; last_synced_at := PyNone;
     extra := str_dict [("datasluice_source_version", PyNone);
                        ("datasluice_completed_artifact", artifact_to_dict sample_artifact)] |}.
Definition completed_payload : string := match _serialize_state completed_state with Ok p => p | Raise _ => "" end.

Definition idle_world : world files := World ∅ [] ∅ ∅ ∅.

Lemma idle_quiet : quiet sample_disk_store (0, 1)%nat "air" idle_world.
Proof. split; try reflexivity. by apply not_elem_of_empty. Defined.

Lemma state_envelope_roundtrip_witness :
  _validate_state_for_write "air" completed_state = Ok tt ∧
  ∃ payload, _serialize_state completed_state = Ok payload ∧ isascii payload = true ∧
             _decode_envelope "air" payload = Ok (reread_state completed_state).
Proof.
  assert (Hv : _validate_state_for_write "air" completed_state = Ok tt) by (vm_compute; reflexivity).
  split; [exact Hv|]. apply state_envelope_roundtrip; [exact Hv|vm_compute; reflexivity|].
  change (floats (extra completed_state)) with (@nil QArith_base.Q). constructor.
Defined.

Lemma conditional_put_locks_witness :
  same_locks idle_world (conditional_put sample_disk_store (0, 1)%nat "air" completed_state None idle_world).2.
Proof. apply conditional_put_locks, idle_quiet. Defined.

Lemma compare_and_swap_witness :
  ∃ w', same_locks idle_world w' ∧
    conditional_put sample_disk_store (0, 1)%nat "air" completed_state None idle_world = (Ok completed_payload, w') ∧
    get_with_version sample_disk_store "air" (disk w') =
      (Ok (Some (reread_state completed_state), Some completed_payload), disk w').
Proof.
  destruct (compare_and_swap sample_disk_store (0, 1)%nat "air" completed_state None completed_payload idle_world)
    as (w' & Hl & Hb).
  - apply idle_quiet.
  - vm_compute; reflexivity.
  - vm_compute; reflexivity.
  - change (floats (extra completed_state)) with (@nil QArith_base.Q). constructor.
  - vm_compute; reflexivity.
  - apply lookup_empty.
  - exists w'. split; [exact Hl|]. change (disk idle_world !! _) with (@None string) in Hb.
    destruct Hb as (Hp & _ & Hg). split; [exact Hp|exact Hg].
Defined.
