(* ===== verification/Ids.v ===== *)
(** * Catalog identifiers and operation identifiers

    [domain/catalog/ids.py] and [domain/catalog/operations.py]. *)
From S2P Require Import Prelude PyVal Regex Json.
From Stdlib Require Import QArith ZArith Ascii.
Local Close Scope Q_scope.
Local Open Scope Z_scope.

(** ** ids.py *)

Definition value_head (c : ascii) : bool := is_lower_az c || is_digit c.
Definition value_tail (c : ascii) : bool :=
  is_lower_az c || is_digit c || bool_decide (c ∈ ["."; "_"; "/"; "-"]%char).
(** A lower-case letter or digit, then letters, digits, dots, underscores,
    slashes or dashes. *)
Definition _VALUE_RE : re := RSeq (RSet value_head) (RStar (RSet value_tail)).

Record CatalogPlatform := { platform_value : string }.
Definition make_platform (value : string) : result CatalogPlatform :=
  raise_if (negb (fullmatch _VALUE_RE value)) (_contract_error "platform");;
  Ok {| platform_value := value |}.

Record ResourceKind := { kind_value : string }.
Definition make_resource_kind (value : string) : result ResourceKind :=
  raise_if (negb (fullmatch _VALUE_RE value)) (_contract_error "resource_kind");;
  Ok {| kind_value := value |}.

Record CatalogId := { id_platform : CatalogPlatform; id_resource_kind : ResourceKind; id_value : string }.
Definition make_catalog_id (p : CatalogPlatform) (k : ResourceKind) (value : string) : result CatalogId :=
  raise_if (negb (str_nonempty value)) (_contract_error "catalog_id.value");;
  Ok {| id_platform := p; id_resource_kind := k; id_value := value |}.

Definition _ID_KEYS : list string := ["schema_version"; "kind"; "platform"; "resource_kind"; "value"].

Definition catalog_id_to_dict (i : CatalogId) : pyval :=
  str_dict [("schema_version", PyInt 1); ("kind", PyStr "catalog_id");
            ("platform", PyStr (platform_value (id_platform i)));
            ("resource_kind", PyStr (kind_value (id_resource_kind i)));
            ("value", PyStr (id_value i))].

Definition catalog_id_from_dict (value : pyval) : result CatalogId :=
  data ← open_envelope "catalog_id" _ID_KEYS value;
  platform ← field data "platform";
  resource_kind ← field data "resource_kind";
  native_value ← field data "value";
  platform ← as_str (_contract_error "catalog_id") platform;
  resource_kind ← as_str (_contract_error "catalog_id") resource_kind;
  native_value ← as_str (_contract_error "catalog_id") native_value;
  p ← make_platform platform;
  k ← make_resource_kind resource_kind;
  make_catalog_id p k native_value.

(** What the three constructors establish. *)
Definition catalog_id_wf (i : CatalogId) : Prop :=
  fullmatch _VALUE_RE (platform_value (id_platform i)) = true ∧
  fullmatch _VALUE_RE (kind_value (id_resource_kind i)) = true ∧ id_value i ≠ "".

#[global] Instance CatalogId_eq_dec : EqDecision CatalogId.
Proof.
  assert (EqDecision CatalogPlatform) by solve_decision.
  assert (EqDecision ResourceKind) by solve_decision. solve_decision.
Defined.

(** ** operations.py *)

Definition operation_tail (c : ascii) : bool :=
  is_lower_az c || is_digit c || bool_decide (c ∈ ["_"; "-"]%char).
Definition _OPERATION_PART : re := RSeq (RSet is_lower_az) (RStar (RSet operation_tail)).

Record OperationId := { op_platform : string; op_service : string; op_method : string }.
Definition make_operation_id (platform service method : string) : result OperationId :=
  let check name value :=
    raise_if (negb (fullmatch _OPERATION_PART value))
      (err ValueError ("Operation " +:+ name +:+ " must be a lowercase vendor identifier.")) in
  check "platform" platform;;
  check "service" service;;
  check "method" method;;
  Ok {| op_platform := platform; op_service := service; op_method := method |}.

Definition operation_str (o : OperationId) : string :=
  op_platform o +:+ "/" +:+ op_service o +:+ "." +:+ op_method o.

#[global] Instance OperationId_eq_dec : EqDecision OperationId.
Proof. solve_decision. Defined.
#[global] Instance OperationId_countable : Countable OperationId.
Proof.
  refine (inj_countable' (λ o, (op_platform o, op_service o, op_method o))
            (λ p, {| op_platform := p.1.1; op_service := p.1.2; op_method := p.2 |}) _).
  by intros [].
Defined.

Inductive MutationClass := ClassRead | ClassCreate | ClassUpdate | ClassDelete | ClassAdmin.
Inductive AuthClass := AuthPublic | AuthAuthenticated | AuthPrivileged.
Inductive OpAtomicity := AtomNone | AtomSingleResource | AtomBatch.
Inductive CapabilityClass := CapCore | CapOptional | CapAuthenticated | CapAdmin.
Inductive OperationTier := Normalized | Native.
Inductive Idempotency := IdemSafe | IdemIdempotent | IdemConditional | IdemNonIdempotent.
Inductive ConcurrencyRequirement := ConcNone | ConcOptional | ConcRequired.

Record OperationSpec := {
  spec_id : OperationId; tier : OperationTier; request_type : string; response_type : string;
  auth_class : AuthClass; mutation_class : MutationClass; idempotency_class : Idempotency;
  concurrency_requirement : ConcurrencyRequirement; op_atomicity : OpAtomicity; capability_class : CapabilityClass
}.

(** [OperationSpec.__post_init__] *)
Definition make_operation_spec (s : OperationSpec) : result OperationSpec :=
  raise_if (negb (str_nonempty (request_type s)) || negb (str_nonempty (response_type s)))
    (err ValueError "Operation request and response types are required.");;
  raise_if (match mutation_class s, op_atomicity s with ClassRead, AtomBatch => true | _, _ => false end)
    (err ValueError "Read operations cannot declare batch atomicity.");;
  raise_if (match auth_class s, capability_class s with AuthPublic, CapAdmin => true | _, _ => false end)
    (err ValueError "Admin capability operations cannot be public.");;
  Ok s.

(** ** Lemmas *)

Lemma make_catalog_id_wf platform kind value p k i :
  make_platform platform = Ok p → make_resource_kind kind = Ok k → make_catalog_id p k value = Ok i →
  catalog_id_wf i.
Proof.
  unfold make_platform, make_resource_kind, make_catalog_id. intros. inv_ok. qbool.
  unfold catalog_id_wf. cbn. split_and!; try done. by apply str_nonempty_true.
Qed.

Lemma catalog_id_roundtrip i : catalog_id_wf i → catalog_id_from_dict (catalog_id_to_dict i) = Ok i.
Proof.
  destruct i as [[p] [k] v]. intros (Hp & Hk & Hv%str_nonempty_true). cbn in Hp, Hk, Hv.
  unfold catalog_id_from_dict, catalog_id_to_dict. envelope.
  literal_fields. cbn [as_str mbind result_bind].
  unfold make_platform, make_resource_kind, make_catalog_id. cbn. by rewrite Hp, Hk; cbn; rewrite Hv.
Qed.

Lemma catalog_id_sound v i : catalog_id_from_dict v = Ok i → catalog_id_wf i.
Proof. unfold catalog_id_from_dict. intros. inv_ok. by eapply make_catalog_id_wf. Qed.

#[global] Instance catalog_id_wire : Wire CatalogId := {|
  wire_roundtrip := catalog_id_roundtrip;
  wire_sound := catalog_id_sound
|}.

(** The printed identifier determines the operation: no part contains the
    separators of the others. *)
Definition operation_wf (o : OperationId) : Prop :=
  fullmatch _OPERATION_PART (op_platform o) = true ∧ fullmatch _OPERATION_PART (op_service o) = true ∧
  fullmatch _OPERATION_PART (op_method o) = true.

Lemma make_operation_id_ok p s m o : make_operation_id p s m = Ok o → operation_wf o.
Proof. unfold make_operation_id. intros. inv_ok. qbool. done. Qed.

Fixpoint string_all (p : ascii → Prop) (s : string) : Prop :=
  match s with EmptyString => True | String c s' => p c ∧ string_all p s' end.

(** A separator that occurs in neither prefix splits a string in one way. *)
Lemma split_unique c a b a' b' :
  string_all (λ x, x ≠ c) a → string_all (λ x, x ≠ c) a' →
  a +:+ String c b = a' +:+ String c b' → a = a' ∧ b = b'.
Proof.
  revert a'. induction a as [|x a IH]; intros [|x' a']; cbn; intros Ha Ha' E.
  - by injection E as <-.
  - injection E as E1 _. destruct Ha' as [Hx _]. by subst.
  - injection E as E1 _. destruct Ha as [Hx _]. by subst.
  - injection E as <- E. destruct (IH a') as [-> ->]; [apply Ha|apply Ha'|done|done].
Qed.

Lemma operation_part_all s c :
  fullmatch _OPERATION_PART s = true → is_lower_az c = false → operation_tail c = false →
  string_all (λ x, x ≠ c) s.
Proof.
  unfold _OPERATION_PART. rewrite fullmatch_head_tail. intros H Hh Ht. destruct s as [|x s]; [done|].
  cbn in H. apply andb_true_iff in H as [Hx Hs]. cbn. split; [congruence|]. clear Hx.
  induction s as [|y s IH]; cbn in *; [done|]. apply andb_true_iff in Hs as [? ?]. split; [congruence|auto].
Qed.

Lemma operation_str_inj o o' : operation_wf o → operation_wf o' → operation_str o = operation_str o' → o = o'.
Proof.
  destruct o as [p s m], o' as [p' s' m']. intros (Hp & Hs & Hm) (Hp' & Hs' & Hm'). cbn in *.
  unfold operation_str; cbn. intros E.
  apply split_unique in E as [-> E]; [|by apply operation_part_all..].
  apply split_unique in E as [-> ->]; [done|by apply operation_part_all..].
Qed.
