(* ===== verification/Profiles.v ===== *)
(** * Capability profiles

    [domain/catalog/profiles.py]: what a connector declares, the evidence a
    probe leaves, and the effective profile and its guard. *)
From Stdlib Require Import ZArith Ascii.
From stdpp Require Import gmap strings.
From S2P Require Import Prelude PyVal Regex Urls Ids.
Local Open Scope py_scope.

Inductive CredentialClassification := CredAnonymous | CredAuthenticated | CredPrivileged.
Inductive RoleClassification := RoleAnonymous | RoleUser | RoleAdmin | RoleUnknown.
Inductive ProbeResponseClass :=
| RespSuccess | RespUnsupported | RespUnauthorized | RespForbidden | RespUnavailable | RespDeploymentDisabled.
Inductive EffectiveCapabilityState :=
| StCore | StOptional | StAuthenticated | StAdmin | StUnsupported | StUnauthorized | StForbidden | StUnavailable
| StDeploymentDisabled.
Inductive EvidenceProvenance := VerifiedLine | Unverified.

#[global] Instance CredentialClassification_eq_dec : EqDecision CredentialClassification.
Proof. solve_decision. Defined.
#[global] Instance RoleClassification_eq_dec : EqDecision RoleClassification.
Proof. solve_decision. Defined.
#[global] Instance ProbeResponseClass_eq_dec : EqDecision ProbeResponseClass.
Proof. solve_decision. Defined.
#[global] Instance EffectiveCapabilityState_eq_dec : EqDecision EffectiveCapabilityState.
Proof. solve_decision. Defined.

Definition state_value (s : EffectiveCapabilityState) : string :=
  match s with
  | StCore => "core" | StOptional => "optional" | StAuthenticated => "authenticated" | StAdmin => "admin"
  | StUnsupported => "unsupported" | StUnauthorized => "unauthorized" | StForbidden => "forbidden"
  | StUnavailable => "unavailable" | StDeploymentDisabled => "deployment-disabled"
  end.

(** [EffectiveCapabilityState(operation.capability_class.value)] *)
Definition class_state (c : CapabilityClass) : EffectiveCapabilityState :=
  match c with CapCore => StCore | CapOptional => StOptional | CapAuthenticated => StAuthenticated | CapAdmin => StAdmin end.

(** ** Evidence *)

Record ProbeEvidence := {
  pe_operation_id : OperationId;
  pe_deployment_url : string;
  pe_credential : CredentialClassification;
  pe_role : RoleClassification;
  pe_response : ProbeResponseClass;
  pe_provenance : EvidenceProvenance;
  pe_credential_scope : option string
}.

Definition opt_truthy (o : option string) : bool := match o with Some s => str_nonempty s | None => false end.

Definition _sanitize_deployment_url `{IpLiterals} (value : string) : result string :=
  parsed ← urlsplit value;
  raise_if (negb (bool_decide (scheme parsed = "https")) || negb (str_nonempty (netloc parsed)) ||
            opt_truthy (username parsed) || opt_truthy (password parsed))
    (err ValueError "Deployment URL must be a sanitized HTTPS URI.");;
  Ok (urlunsplit_origin (scheme parsed) (netloc parsed) (url_path parsed)).

Definition make_probe_evidence `{IpLiterals} (e : ProbeEvidence) : result ProbeEvidence :=
  url ← _sanitize_deployment_url (pe_deployment_url e);
  raise_if (match pe_credential_scope e with Some s => negb (str_nonempty s) | None => false end)
    (err ValueError "Credential scope must be a non-empty string when supplied.");;
  Ok {| pe_operation_id := pe_operation_id e; pe_deployment_url := url; pe_credential := pe_credential e;
        pe_role := pe_role e; pe_response := pe_response e; pe_provenance := pe_provenance e;
        pe_credential_scope := pe_credential_scope e |}.

(** ** Declared profiles *)

Record DeclaredCapabilityProfile := {
  profile_version : string; profile_schema_version : string; platform_api_version : string;
  official_source_uri : string; source_accessed_at : Z * Z * Z; fixture_fingerprint : string;
  operations : gmap OperationId OperationSpec
}.

(** [name.capitalize()] *)
Definition upper_char (c : ascii) : ascii := if is_lower_az c then ascii_of_N (N_of_ascii c - 32) else c.
Definition capitalize (s : string) : string :=
  match s with EmptyString => EmptyString | String c s' => String (upper_char c) (str_lower s') end.

Definition _require_text (name value : string) : result unit :=
  raise_if (string_forallb is_space value) (err ValueError (capitalize name +:+ " is required.")).

(** [dict(self.operations)] is the argument here. *)
Definition make_declared_profile `{IpLiterals} (p : DeclaredCapabilityProfile) : result DeclaredCapabilityProfile :=
  _require_text "profile version" (profile_version p);;
  _require_text "schema version" (profile_schema_version p);;
  _require_text "platform API version" (platform_api_version p);;
  _require_text "fixture fingerprint" (fixture_fingerprint p);;
  source ← urlsplit (official_source_uri p);
  raise_if (negb (bool_decide (scheme source = "https")) || negb (str_nonempty (netloc source)) ||
            opt_truthy (username source) || opt_truthy (password source))
    (err ValueError "Official source URI must be a sanitized HTTPS URI.");;
  raise_if (bool_decide (operations p = ∅)) (err ValueError "Declared profiles cannot have missing operation IDs.");;
  raise_if (negb (bool_decide (map_Forall (λ i o, i = spec_id o) (operations p))))
    (err ValueError "Declared profiles cannot contain duplicate operation IDs or mismatched operation keys.");;
  Ok p.

(** ** Effective profiles *)

Record EffectiveOperationCapability := {
  cap_operation : OperationSpec; cap_state : EffectiveCapabilityState; cap_evidence : option ProbeEvidence
}.

Record GuardDecision := {
  gd_operation_id : OperationId; gd_state : EffectiveCapabilityState; gd_allowed : bool; gd_remedy : option string
}.

Record EffectiveCapabilityProfile := {
  declared_profile : DeclaredCapabilityProfile;
  capabilities : gmap OperationId EffectiveOperationCapability
}.

Definition make_effective_profile (declared : DeclaredCapabilityProfile)
    (caps : gmap OperationId EffectiveOperationCapability) : result EffectiveCapabilityProfile :=
  raise_if (negb (bool_decide (dom caps = dom (operations declared))))
    (err ValueError "Effective profiles must contain exactly the declared operation IDs.");;
  raise_if (negb (bool_decide (map_Forall (λ i c, spec_id (cap_operation c) = i) caps)))
    (err ValueError "Effective capability operation IDs must match their map keys.");;
  Ok {| declared_profile := declared; capabilities := caps |}.

Definition _effective_state (operation : OperationSpec) (evidence : option ProbeEvidence) : EffectiveCapabilityState :=
  match evidence with
  | None => StUnavailable
  | Some e =>
      match pe_response e with
      | RespUnsupported => StUnsupported
      | RespUnauthorized => StUnauthorized
      | RespForbidden => StForbidden
      | RespUnavailable => StUnavailable
      | RespDeploymentDisabled => StDeploymentDisabled
      | RespSuccess => class_state (capability_class operation)
      end
  end.

(** The evidence by operation; undeclared and duplicate records are refused. *)
Fixpoint evidence_by_operation (declared : DeclaredCapabilityProfile) (records : list ProbeEvidence)
    (acc : gmap OperationId ProbeEvidence) : result (gmap OperationId ProbeEvidence) :=
  match records with
  | [] => Ok acc
  | e :: records' =>
      raise_if (bool_decide (operations declared !! pe_operation_id e = None))
        (err ValueError ("Probe evidence references undeclared operation " +:+ operation_str (pe_operation_id e) +:+ "."));;
      raise_if (bool_decide (is_Some (acc !! pe_operation_id e)))
        (err ValueError ("Duplicate probe evidence for operation " +:+ operation_str (pe_operation_id e) +:+ "."));;
      evidence_by_operation declared records' (<[pe_operation_id e := e]> acc)
  end.

Definition derive (declared : DeclaredCapabilityProfile) (records : list ProbeEvidence)
  : result EffectiveCapabilityProfile :=
  by_operation ← evidence_by_operation declared records ∅;
  make_effective_profile declared
    (map_imap (λ i operation, Some {| cap_operation := operation;
                                      cap_state := _effective_state operation (by_operation !! i);
                                      cap_evidence := by_operation !! i |}) (operations declared)).

Definition for_operation (p : EffectiveCapabilityProfile) (i : OperationId) : result EffectiveOperationCapability :=
  match capabilities p !! i with Some c => Ok c | None => Raise (err KeyError (operation_str i)) end.

Definition remedies (s : EffectiveCapabilityState) : option string :=
  match s with
  | StUnsupported => Some "Use a connector profile that declares the operation."
  | StUnauthorized => Some "Provide credentials with access to the operation."
  | StForbidden => Some "Use credentials with the required role for the operation."
  | StUnavailable => Some "Retry after the target deployment is available."
  | StDeploymentDisabled => Some "Enable the capability on the target deployment."
  | _ => None
  end.

Definition guard_operation (p : EffectiveCapabilityProfile) (i : OperationId) : GuardDecision :=
  match capabilities p !! i with
  | None => {| gd_operation_id := i; gd_state := StUnsupported; gd_allowed := false;
               gd_remedy := Some "Use a connector profile that declares the operation." |}
  | Some c => {| gd_operation_id := i; gd_state := cap_state c; gd_allowed := bool_decide (remedies (cap_state c) = None);
                 gd_remedy := remedies (cap_state c) |}
  end.

(** ** Lemmas *)

Definition declared_wf (d : DeclaredCapabilityProfile) : Prop := map_Forall (λ i o, i = spec_id o) (operations d).
Definition profile_wf (p : EffectiveCapabilityProfile) : Prop :=
  dom (capabilities p) = dom (operations (declared_profile p)) ∧
  map_Forall (λ i c, spec_id (cap_operation c) = i) (capabilities p).

Lemma make_effective_iff d caps p :
  make_effective_profile d caps = Ok p ↔ p = {| declared_profile := d; capabilities := caps |} ∧ profile_wf p.
Proof.
  unfold make_effective_profile, profile_wf. rewrite bind_ok. setoid_rewrite bind_ok. split.
  - intros ([] & H1 & [] & H2 & [= <-]). apply raise_if_ok, negb_false_iff, bool_decide_eq_true in H1, H2. done.
  - intros [-> [H1 H2]]. exists tt. split; [by apply raise_if_ok, negb_false_iff, bool_decide_eq_true|].
    exists tt. split; [|done]. by apply raise_if_ok, negb_false_iff, bool_decide_eq_true.
Qed.

(** What [evidence_by_operation] accepts, and what it collects. *)
Definition records_ok (d : DeclaredCapabilityProfile) (acc : gmap OperationId ProbeEvidence) (rs : list ProbeEvidence) : Prop :=
  NoDup (pe_operation_id <$> rs) ∧
  Forall (λ e, is_Some (operations d !! pe_operation_id e) ∧ acc !! pe_operation_id e = None) rs.

Lemma records_ok_cons d acc e rs :
  records_ok d acc (e :: rs) ↔
  is_Some (operations d !! pe_operation_id e) ∧ acc !! pe_operation_id e = None ∧
  records_ok d (<[pe_operation_id e := e]> acc) rs.
Proof.
  unfold records_ok. rewrite fmap_cons, NoDup_cons, Forall_cons, !Forall_forall, list_elem_of_fmap. split.
  - intros ([Hni Hnd] & [Hd Ha] & Hall). split_and!; try done. intros x Hx.
    destruct (Hall x Hx) as [? ?]. split; [done|]. rewrite lookup_insert_ne; [done|]. intros E. apply Hni. by exists x.
  - intros (Hd & Ha & Hnd & Hall). split_and!; try done.
    + intros (x & E & Hx). destruct (Hall x Hx) as [_ Hx']. rewrite E, lookup_insert_eq in Hx'. done.
    + intros x Hx. destruct (Hall x Hx) as [? Hx']. split; [done|].
      apply lookup_insert_None in Hx' as [? _]. done.
Qed.

Lemma evidence_spec d rs : ∀ acc,
  match evidence_by_operation d rs acc with
  | Ok m => records_ok d acc rs ∧ ∀ i e, m !! i = Some e ↔ e ∈ rs ∧ pe_operation_id e = i ∨ acc !! i = Some e
  | Raise x => exn_kind x = ValueError ∧ ¬ records_ok d acc rs
  end.
Proof.
  induction rs as [|e rs IH]; intros acc; cbn [evidence_by_operation].
  - split; [split; [constructor|done]|]. intros i e. rewrite elem_of_nil. tauto.
  - pose proof (records_ok_cons d acc e rs) as Hcons. destruct (operations d !! pe_operation_id e) as [op|] eqn:Ed.
    2:{ rewrite guard_raise by by apply bool_decide_eq_true. split; [done|]. intros [[? ?] _]%Hcons. congruence. }
    rewrite guard_bind by by apply bool_decide_eq_false. destruct (acc !! pe_operation_id e) as [x|] eqn:Ea.
    { rewrite guard_raise by by apply bool_decide_eq_true. split; [done|]. intros (_ & ? & _)%Hcons. congruence. }
    rewrite guard_bind by by (apply bool_decide_eq_false; intros []). specialize (IH (<[pe_operation_id e := e]> acc)).
    destruct (evidence_by_operation d rs _) as [m|x].
    + destruct IH as [Hok Hm]. split; [apply Hcons; split_and!; [by eexists|done..]|]. intros i e'. rewrite Hm, elem_of_cons.
      destruct (decide (pe_operation_id e = i)) as [<-|Hne].
      * rewrite lookup_insert_eq. split; [intros [[? ?]|[= <-]]; auto|]. intros [[[-> |?] ?]|?]; [auto..|congruence].
      * rewrite lookup_insert_ne by done. split; [tauto|]. intros [[[-> |?] ?]|?]; [done|auto..].
    + split; [apply IH|]. intros (_ & _ & H)%Hcons. by apply IH.
Qed.

Lemma class_state_allowed c : remedies (class_state c) = None.
Proof. by destruct c. Qed.

Lemma effective_state_allowed op e :
  remedies (_effective_state op e) = None ↔ ∃ x, e = Some x ∧ pe_response x = RespSuccess.
Proof.
  destruct e as [x|]; cbn; [|naive_solver].
  destruct (pe_response x) eqn:Er; cbn; rewrite ?class_state_allowed; naive_solver congruence.
Qed.

(** The capability [derive] gives an operation. *)
Definition derived_capability (m : gmap OperationId ProbeEvidence) (i : OperationId) (op : OperationSpec)
  : EffectiveOperationCapability :=
  {| cap_operation := op; cap_state := _effective_state op (m !! i); cap_evidence := m !! i |}.

Lemma derive_eq d rs m :
  declared_wf d → evidence_by_operation d rs ∅ = Ok m →
  ∃ p, derive d rs = Ok p ∧ declared_profile p = d ∧ profile_wf p ∧
    ∀ i, capabilities p !! i = derived_capability m i <$> operations d !! i.
Proof.
  intros Hd Hm. unfold derive. rewrite Hm. cbn [mbind result_bind]. set (caps := map_imap _ _).
  assert (Hlook : ∀ i, caps !! i = derived_capability m i <$> operations d !! i).
  { intros i. unfold caps. rewrite map_lookup_imap. by destruct (operations d !! i). }
  exists {| declared_profile := d; capabilities := caps |}.
  assert (Hwf : profile_wf {| declared_profile := d; capabilities := caps |}).
  { split.
    - apply set_eq. intros i. cbn. by rewrite !elem_of_dom, Hlook, fmap_is_Some.
    - intros i c Hc. cbn in Hc. rewrite Hlook in Hc. apply fmap_Some in Hc as (op & Hop & ->). symmetry. by apply (Hd i op). }
  split; [by apply make_effective_iff|]. by split_and!.
Qed.

(** [EffectiveCapabilityProfile.derive] accepts exactly the evidence whose
    operations are declared and distinct, and raises a [ValueError] otherwise; in
    the profile it derives, the guard allows exactly the declared operations for
    which there is evidence of success, every other operation is refused with a
    remedy, and the profile covers exactly the declared operations. *)
Theorem derive_guard d rs :
  declared_wf d →
  match derive d rs with
  | Ok p => records_ok d ∅ rs ∧ declared_profile p = d ∧ profile_wf p ∧
      ∀ i, let decision := guard_operation p i in
        (gd_allowed decision = true ↔
           is_Some (operations d !! i) ∧ ∃ e, e ∈ rs ∧ pe_operation_id e = i ∧ pe_response e = RespSuccess) ∧
        (gd_allowed decision = false ↔ is_Some (gd_remedy decision))
  | Raise x => exn_kind x = ValueError ∧ ¬ records_ok d ∅ rs
  end.
Proof.
  intros Hd. pose proof (evidence_spec d rs ∅) as He. destruct (evidence_by_operation d rs ∅) as [m|x] eqn:Em.
  2:{ unfold derive. rewrite Em. exact He. }
  destruct He as [Hok Hm]. destruct (derive_eq d rs m Hd Em) as (p & -> & Hdecl & Hwf & Hlook).
  split_and!; try done. intros i. cbn zeta. unfold guard_operation. rewrite Hlook.
  destruct (operations d !! i) as [op|] eqn:Eo; cbn.
  - rewrite bool_decide_eq_true, bool_decide_eq_false. split; [rewrite effective_state_allowed|].
    + setoid_rewrite Hm. setoid_rewrite lookup_empty. naive_solver.
    + apply not_eq_None_Some.
  - split; [|naive_solver]. split; [done|]. by intros [[? ?] _].
Qed.

(** ** Witness *)

Definition probe_operation : OperationId := {| op_platform := "ckan"; op_service := "datasets"; op_method := "update" |}.
Definition probe_spec : OperationSpec :=
  {| spec_id := probe_operation; tier := Normalized; request_type := "DatasetUpdate"; response_type := "Dataset";
     auth_class := AuthAuthenticated; mutation_class := ClassUpdate; idempotency_class := IdemIdempotent;
     concurrency_requirement := ConcOptional; op_atomicity := AtomSingleResource; capability_class := CapAuthenticated |}.
Definition probe_profile : DeclaredCapabilityProfile :=
  {| profile_version := "1"; profile_schema_version := "1"; platform_api_version := "2.10";
     official_source_uri := "https://docs.ckan.org/en/2.10/api/"; source_accessed_at := (2025, 6, 1)%Z;
     fixture_fingerprint := "f0"; operations := {[probe_operation := probe_spec]} |}.
Definition probe_evidence (r : ProbeResponseClass) : ProbeEvidence :=
  {| pe_operation_id := probe_operation; pe_deployment_url := "https://data.example.org/"; pe_credential := CredAuthenticated;
     pe_role := RoleUser; pe_response := r; pe_provenance := VerifiedLine; pe_credential_scope := Some "key-1" |}.

Lemma probe_profile_wf : declared_wf probe_profile.
Proof. by apply map_Forall_singleton. Qed.

Lemma derive_guard_witness :
  match derive probe_profile [probe_evidence RespForbidden] with
  | Ok p => gd_allowed (guard_operation p probe_operation) = false ∧
            is_Some (gd_remedy (guard_operation p probe_operation))
  | Raise _ => False
  end.
Proof.
  pose proof (derive_guard probe_profile [probe_evidence RespForbidden] probe_profile_wf) as H.
  destruct (derive probe_profile [probe_evidence RespForbidden]) as [p|e] eqn:E.
  - destruct H as (_ & _ & _ & H). destruct (H probe_operation) as [_ Hr].
    assert (Ha : gd_allowed (guard_operation p probe_operation) = false).
    { vm_compute in E. injection E as <-. vm_compute. reflexivity. }
    split; [exact Ha|]. apply Hr. exact Ha.
  - vm_compute in E. discriminate E.
Defined.
