(* ===== verification/Capability.v ===== *)
(** * The capability cache

    [runtime/capability.py]: effective profiles are cached per namespace,
    origin, credential scope and operation; a probe is shared by the callers that
    wait for it; invalidation cancels the probes in flight.  Each section that
    holds [self._lock] is one step; flights are shared objects and live in a heap. *)
From Stdlib Require Import QArith ZArith Ascii.
From stdpp Require Import gmap list strings.
From S2P Require Import Prelude PyVal Policies Errors Transport Resilience Urls Ids Profiles.
Import Deadline.
Local Close Scope Q_scope.
Local Open Scope py_scope.

Abbreviation cache_key := (string * string * string * OperationId)%type.

Record _CacheEntry := { ce_profile : EffectiveCapabilityProfile; ce_timestamp : Q }.
Definition _MAX_CACHE_ENTRIES : nat := 1024.

Record _SyncFlight := {
  sf_event : bool; sf_profile : option EffectiveCapabilityProfile; sf_error : option exn; sf_cancelled : bool
}.
Definition new_sync_flight : _SyncFlight :=
  {| sf_event := false; sf_profile := None; sf_error := None; sf_cancelled := false |}.

(** [af_future] is what the future has been given; [af_callback] what
    [call_soon_threadsafe] will give it if it has nothing by then. *)
Record _AsyncFlight := {
  af_future : option (result EffectiveCapabilityProfile); af_cancelled : bool; af_callback : option exn
}.
Definition new_async_flight : _AsyncFlight := {| af_future := None; af_cancelled := false; af_callback := None |}.

(** ** Origins *)

Definition sanitized_origin `{IpLiterals} (message : string) (parsed : SplitResult) : result string :=
  raise_if (negb (bool_decide (scheme parsed = "https")) || negb (str_nonempty (netloc parsed)) ||
            bool_decide (is_Some (username parsed)) || bool_decide (is_Some (password parsed)) ||
            str_nonempty (url_query parsed) || str_nonempty (url_fragment parsed)) (err ValueError message);;
  Ok (urlunsplit_origin (str_lower (scheme parsed)) (str_lower (netloc parsed)) "").

Definition _normalize_deployment_origin `{IpLiterals} (value : string) : result string :=
  parsed ← urlsplit value;
  sanitized_origin "Capability cache deployment origins must be sanitized HTTPS origins." parsed.

Definition _origin_from_evidence `{IpLiterals} (deployment_url : string) : result string :=
  parsed ← match urlsplit deployment_url with
           | Raise e => if is_subclass (exn_kind e) ValueError
                        then Raise (err ValueError "Capability probe evidence must contain a valid deployment URL.")
                        else Raise e
           | Ok p => Ok p
           end;
  sanitized_origin "Capability probe evidence must contain a sanitized HTTPS deployment URL." parsed.

(** ** Configuration *)

Inductive any_profile := Declared (d : DeclaredCapabilityProfile) | Effective (p : EffectiveCapabilityProfile).

Definition _baseline_profile (p : any_profile) : result EffectiveCapabilityProfile :=
  match p with
  | Effective p => Ok p
  | Declared d => make_effective_profile d
      ((λ o, {| cap_operation := o; cap_state := class_state (capability_class o); cap_evidence := None |})
         <$> operations d)
  end.

Record EffectiveCapabilityCache := {
  _declared_profile : DeclaredCapabilityProfile; _baseline : EffectiveCapabilityProfile;
  has_probe_runner : bool; has_async_probe_runner : bool;
  _namespace : string; _deployment_origin : option string; _ttl_seconds : Q
}.

Definition make_capability_cache `{IpLiterals} (profile : any_profile) (has_runner has_async_runner : bool)
    (namespace : string) (deployment_origin : option string) (ttl : pyfloat) : result EffectiveCapabilityCache :=
  ttl ← (match ttl with
         | FFin q => if Qltb q 0%Q then Raise (err ValueError "Capability cache TTL must be a finite non-negative number.")
                     else Ok q
         | _ => Raise (err ValueError "Capability cache TTL must be a finite non-negative number.")
         end);
  baseline ← _baseline_profile profile;
  raise_if (negb (str_nonempty namespace)) (err ValueError "Capability cache namespaces must be non-empty strings.");;
  origin ← (match deployment_origin with
            | Some o => o ← _normalize_deployment_origin o; Ok (Some o)
            | None => Ok None
            end);
  Ok {| _declared_profile := match profile with Declared d => d | Effective p => declared_profile p end;
        _baseline := baseline; has_probe_runner := has_runner; has_async_probe_runner := has_async_runner;
        _namespace := namespace; _deployment_origin := origin; _ttl_seconds := ttl |}.

(** ** Errors *)

Definition probe_error (kind : exc_kind) (message state action : string) (o : OperationId) : exn :=
  match catalog_error kind message (operation_str o) (op_platform o) (Some state) action None with
  | Ok e => e
  | Raise e => e
  end.
Definition _invalidation_error : OperationId → exn :=
  probe_error CatalogUnavailableError "Capability evidence was invalidated before the probe completed." "unavailable"
    "Retry the operation to obtain fresh deployment and credential evidence.".
Definition _invalid_evidence_error : OperationId → exn :=
  probe_error CatalogValidationError "Capability probe returned invalid evidence." "invalid-probe-evidence"
    "Fix the probe runner to return sanitized HTTPS evidence before retrying.".
Definition cancelled_error : OperationId → exn :=
  probe_error CatalogUnavailableError "The capability probe was cancelled before it completed." "unavailable"
    "Retry the operation once the catalog deployment is reachable.".
Definition _follower_failure (o : OperationId) (e : exn) : exn :=
  if bool_decide (exn_kind e = CancelledError) then cancelled_error o else e.
Definition _async_follower_failure (o : OperationId) (e : exn) : exn :=
  if bool_decide (exn_kind e = CancelledError) then cancelled_error o
  else probe_error CatalogUnavailableError "The capability probe failed before it completed." "unavailable"
         "Retry the operation once the catalog deployment is reachable." o.

(** ** State *)

(** What a probe runner hands back: an awaitable, something else, or evidence. *)
Inductive probe_answer := Awaitable | NotEvidence | Evidence (e : ProbeEvidence).

Class ProbeEnv (W : Type) := {
  #[global] probe_clock :: Clocked W;
  env_probe : OperationId → W → result probe_answer * W;
  (** [flight.loop.is_closed()], by flight *)
  env_loop_closed : nat → W → bool
}.

(** What the cache did: a probe started, its profile was stored, evidence was
    discarded. *)
Inductive cap_event := Started (id : nat) (k : cache_key) | Stored (id : nat) (k : cache_key) | Invalidated (o : option OperationId).

Record cap (W : Type) := Cap {
  cap_world : W;
  _entries : list (cache_key * _CacheEntry);
  sync_heap : list _SyncFlight; _sync_flights : gmap cache_key nat;
  async_heap : list _AsyncFlight; _async_flights : gmap cache_key nat;
  cap_log : list cap_event
}.
Arguments Cap {W}.
Arguments cap_world {W}.
Arguments _entries {W}.
Arguments sync_heap {W}.
Arguments _sync_flights {W}.
Arguments async_heap {W}.
Arguments _async_flights {W}.
Arguments cap_log {W}.

Definition key_operation (k : cache_key) : OperationId := k.2.

(** [dict.get], [dict.pop(key, None)] on an insertion-ordered dict. *)
Definition entry_at (k : cache_key) (es : list (cache_key * _CacheEntry)) : option _CacheEntry :=
  snd <$> List.find (λ e, bool_decide (e.1 = k)) es.
Definition remove_entry (k : cache_key) (es : list (cache_key * _CacheEntry)) : list (cache_key * _CacheEntry) :=
  filter (λ e, e.1 ≠ k) es.

(** [_store_entry] on the entries *)
Definition store_entry (ttl : Q) (k : cache_key) (p : EffectiveCapabilityProfile) (timestamp : Q)
    (es : list (cache_key * _CacheEntry)) : list (cache_key * _CacheEntry) :=
  let es := remove_entry k es in
  let es :=
    if (_MAX_CACHE_ENTRIES <=? length es)%nat then
      let es := filter (λ e, Is_true (Qle_bool (timestamp - ce_timestamp e.2)%Q (2 * ttl)%Q)) es in
      if (_MAX_CACHE_ENTRIES <=? length es)%nat then tail es else es
    else es in
  es ++ [(k, {| ce_profile := p; ce_timestamp := timestamp |})].

Section cache.
Context {W : Type} `{!ProbeEnv W} {ips : IpLiterals}.
Variable self : EffectiveCapabilityCache.
Abbreviation C := (M (cap W)).

#[global] Instance cap_clocked : Clocked (cap W) := λ s,
  let '(t, w) := clock (cap_world s) in
  (t, Cap w (_entries s) (sync_heap s) (_sync_flights s) (async_heap s) (_async_flights s) (cap_log s)).

Definition on_probe {A} (m : W → result A * W) : C A := λ s,
  let '(r, w) := m (cap_world s) in
  (r, Cap w (_entries s) (sync_heap s) (_sync_flights s) (async_heap s) (_async_flights s) (cap_log s)).
Definition set_entries (f : list (cache_key * _CacheEntry) → list (cache_key * _CacheEntry)) : C unit := modify (λ s,
  Cap (cap_world s) (f (_entries s)) (sync_heap s) (_sync_flights s) (async_heap s) (_async_flights s) (cap_log s)).
Definition set_sync (h : list _SyncFlight → list _SyncFlight) (f : gmap cache_key nat → gmap cache_key nat) : C unit :=
  modify (λ s, Cap (cap_world s) (_entries s) (h (sync_heap s)) (f (_sync_flights s)) (async_heap s)
                   (_async_flights s) (cap_log s)).
Definition set_async (h : list _AsyncFlight → list _AsyncFlight) (f : gmap cache_key nat → gmap cache_key nat) : C unit :=
  modify (λ s, Cap (cap_world s) (_entries s) (sync_heap s) (_sync_flights s) (h (async_heap s))
                   (f (_async_flights s)) (cap_log s)).
Definition note_cap (e : cap_event) : C unit := modify (λ s,
  Cap (cap_world s) (_entries s) (sync_heap s) (_sync_flights s) (async_heap s) (_async_flights s) (cap_log s ++ [e])).

(** ** Keys and evidence *)

Definition _validate_scope (scope : string) : result unit :=
  raise_if (negb (str_nonempty scope)) (err ValueError "Capability cache credential scopes must be non-empty strings.").

Definition _cache_key (o : OperationId) (scope : string) : cache_key :=
  (_namespace self, match _deployment_origin self with Some u => u | None => "" end, scope, o).

Definition _validate_credential_evidence (e : ProbeEvidence) (scope : string) : result unit :=
  let anonymous := bool_decide (scope = "anonymous") in
  raise_if (negb anonymous && negb (bool_decide (pe_credential_scope e = Some scope)))
    (err ValueError "Capability probe evidence must match the resolved credential scope.");;
  raise_if (anonymous && negb (bool_decide (pe_credential_scope e ∈ [None; Some "anonymous"])))
    (err ValueError "Anonymous capability probes cannot carry authenticated credential evidence.");;
  raise_if (anonymous && negb (bool_decide (pe_credential e = CredAnonymous)))
    (err ValueError "Anonymous capability probes must carry anonymous credential evidence.");;
  raise_if (negb anonymous && bool_decide (pe_credential e = CredAnonymous))
    (err ValueError "Authenticated capability probes must carry authenticated credential evidence.");;
  raise_if (negb anonymous && bool_decide (pe_role e = RoleAnonymous))
    (err ValueError "Authenticated capability probes cannot carry anonymous role evidence.").

Definition _validate_evidence (o : OperationId) (answer : probe_answer) (scope : string) : result ProbeEvidence :=
  match answer with
  | Evidence e =>
      raise_if (negb (bool_decide (pe_operation_id e = o)))
        (err ValueError "Capability probe evidence must match the requested operation.");;
      _validate_credential_evidence e scope;;
      origin ← _origin_from_evidence (pe_deployment_url e);
      raise_if (match _deployment_origin self with Some u => negb (bool_decide (origin = u)) | None => false end)
        (err ValueError "Capability probe evidence must match the configured deployment origin.");;
      Ok e
  | _ => Raise (err TypeError "Capability probe runners must return ProbeEvidence.")
  end.

Definition _profile_from_evidence (o : OperationId) (e : ProbeEvidence) : result EffectiveCapabilityProfile :=
  derived ← derive (_declared_profile self) [e];
  c ← for_operation derived o;
  make_effective_profile (_declared_profile self) (<[o := c]> (capabilities (_baseline self))).

Definition _declared_state (o : OperationId) : EffectiveCapabilityState :=
  match operations (_declared_profile self) !! o with
  | None => StUnsupported
  | Some op => class_state (capability_class op)
  end.

Definition _profile_with_state (o : OperationId) (state : EffectiveCapabilityState) : result EffectiveCapabilityProfile :=
  match operations (_declared_profile self) !! o with
  | None => Ok (_baseline self)
  | Some op => make_effective_profile (_declared_profile self)
      (<[o := {| cap_operation := op; cap_state := state; cap_evidence := None |}]> (capabilities (_baseline self)))
  end.

(** ** Entries *)

Definition _fresh_entry (k : cache_key) : C (option _CacheEntry) :=
  es ← read _entries;
  match entry_at k es with
  | None => mret None
  | Some e =>
      now ← clock_now;
      if Qle_bool (_ttl_seconds self) (now - ce_timestamp e)%Q
      then set_entries (remove_entry k);; mret None
      else mret (Some e)
  end.

Definition _store_entry (k : cache_key) (p : EffectiveCapabilityProfile) (timestamp : Q) : C unit :=
  set_entries (store_entry (_ttl_seconds self) k p timestamp).

Definition peek (o : OperationId) (scope : string) : C EffectiveCapabilityProfile :=
  lift_res (_validate_scope scope);;
  cached ← _fresh_entry (_cache_key o scope);
  mret (match cached with Some e => ce_profile e | None => _baseline self end).

Definition record_response (o : OperationId) (response : ProbeResponseClass) (scope : string)
  : C EffectiveCapabilityProfile :=
  lift_res (_validate_scope scope);;
  let state := match response with
               | RespSuccess => _declared_state o
               | RespUnsupported => StUnsupported
               | RespUnauthorized => StUnauthorized
               | RespForbidden => StForbidden
               | RespUnavailable => StUnavailable
               | RespDeploymentDisabled => StDeploymentDisabled
               end in
  effective ← lift_res (_profile_with_state o state);
  now ← clock_now;
  _store_entry (_cache_key o scope) effective now;;
  mret effective.

Definition record_evidence (e : ProbeEvidence) (scope : string) : C EffectiveCapabilityProfile :=
  lift_res (_validate_scope scope);;
  lift_res (_validate_evidence (pe_operation_id e) (Evidence e) scope);;
  effective ← lift_res (_profile_from_evidence (pe_operation_id e) e);
  now ← clock_now;
  _store_entry (_cache_key (pe_operation_id e) scope) effective now;;
  mret effective.

(** ** Probing *)

(** [runner.probe] with its validation, for a runner that may return an
    awaitable ([is_async]) or may not. *)
Definition probe_runner (is_async : bool) (o : OperationId) (scope : string) : C EffectiveCapabilityProfile :=
  evidence ← try_except
    (answer ← on_probe (env_probe o);
     (if match answer with Awaitable => negb is_async | _ => false end
      then throw (err TypeError "Synchronous capability runners cannot return awaitables.") else mret tt);;
     lift_res (_validate_evidence o answer scope))
    (λ e, if is_subclass (exn_kind e) CatalogValidationError then None
          else if is_subclass (exn_kind e) TypeError || is_subclass (exn_kind e) ValueError
          then Some (throw (_invalid_evidence_error o)) else None);
  lift_res (_profile_from_evidence o evidence).

Definition _resolve_from_runner (o : OperationId) (scope : string) : C EffectiveCapabilityProfile :=
  if has_probe_runner self then probe_runner false o scope else mret (_baseline self).
Definition _resolve_from_async_runner (o : OperationId) (scope : string) : C EffectiveCapabilityProfile :=
  if has_async_probe_runner self then probe_runner true o scope else mret (_baseline self).

(** ** Synchronous flights *)

Definition _sync_flight (k : cache_key) : C (nat * bool) :=
  flights ← read _sync_flights;
  match flights !! k with
  | Some id => mret (id, false)
  | None =>
      heap ← read sync_heap;
      let id := length heap in
      set_sync (λ h, h ++ [new_sync_flight]) (<[k := id]>);;
      note_cap (Started id k);;
      mret (id, true)
  end.

Definition update_sync (id : nat) (f : _SyncFlight → _SyncFlight) : C unit := set_sync (alter f id) (λ m, m).

(** [_discard_sync_flight]: only while [id] still owns the key. *)
Definition _discard_sync_flight (k : cache_key) (id : nat) : C unit :=
  set_sync (λ h, h) (λ m, if bool_decide (m !! k = Some id) then delete k m else m).

Definition fail_flight (e : exn) (f : _SyncFlight) : _SyncFlight :=
  {| sf_event := sf_event f; sf_profile := sf_profile f; sf_error := Some e; sf_cancelled := sf_cancelled f |}.
Definition set_event (f : _SyncFlight) : _SyncFlight :=
  {| sf_event := true; sf_profile := sf_profile f; sf_error := sf_error f; sf_cancelled := sf_cancelled f |}.
Definition finish_flight (p : EffectiveCapabilityProfile) (f : _SyncFlight) : _SyncFlight :=
  {| sf_event := sf_event f; sf_profile := Some p; sf_error := sf_error f; sf_cancelled := sf_cancelled f |}.
Definition cancel_flight (e : exn) (f : _SyncFlight) : _SyncFlight :=
  {| sf_event := true; sf_profile := sf_profile f; sf_error := Some e; sf_cancelled := true |}.

Definition _fail_sync_leader (k : cache_key) (id : nat) (o : OperationId) (e : exn) : C unit :=
  update_sync id (fail_flight (_follower_failure o e));;
  _discard_sync_flight k id;;
  update_sync id set_event.

(** [flight] is an object the leader holds: it is in the heap. *)
Definition _complete_sync_leader (k : cache_key) (id : nat) (o : OperationId) (effective : EffectiveCapabilityProfile)
    (completed_at : Q) : C unit :=
  heap ← read sync_heap;
  match heap !! id with
  | None => throw (err OtherException "unreachable")
  | Some flight =>
      if sf_cancelled flight then
        let error := match sf_error flight with Some e => e | None => _invalidation_error o end in
        _discard_sync_flight k id;;
        update_sync id (fail_flight error);;
        update_sync id set_event;;
        throw error
      else
        _store_entry k effective completed_at;;
        note_cap (Stored id k);;
        update_sync id (finish_flight effective);;
        _discard_sync_flight k id;;
        update_sync id set_event
  end.

(** [_wait_sync_flight], once the event is set. *)
Definition _wait_sync_flight (id : nat) : C EffectiveCapabilityProfile :=
  heap ← read sync_heap;
  match heap !! id with
  | None => throw (err OtherException "unreachable")
  | Some flight =>
      match sf_error flight, sf_profile flight with
      | Some e, _ => throw e
      | None, Some p => mret p
      | None, None => throw (err RuntimeError "Capability probe completed without an effective profile.")
      end
  end.

(** The probe of a leader: the profile and when it was complete. *)
Definition lead (o : OperationId) (scope : string) : C (EffectiveCapabilityProfile * Q) :=
  effective ← _resolve_from_runner o scope;
  completed_at ← clock_now;
  mret (effective, completed_at).

Definition _resolve_sync_leader (o : OperationId) (scope : string) (k : cache_key) (id : nat)
  : C EffectiveCapabilityProfile :=
  '(effective, completed_at) ← try_except (lead o scope)
    (λ e, Some (_fail_sync_leader k id o e;; throw e));
  _complete_sync_leader k id o effective completed_at;;
  mret effective.

(** The cached profile, or the baseline of what cannot be probed; [None] when a
    probe is needed. *)
Definition look_up (has_runner : bool) (o : OperationId) (scope : string) : C (option EffectiveCapabilityProfile) :=
  lift_res (_validate_scope scope);;
  cached ← _fresh_entry (_cache_key o scope);
  mret (match cached with
        | Some e => Some (ce_profile e)
        | None => if bool_decide (operations (_declared_profile self) !! o = None) || negb has_runner
                  then Some (_baseline self) else None
        end).

(** [resolve] run without interruption; a follower's flight is complete. *)
Definition resolve (o : OperationId) (scope : string) : C EffectiveCapabilityProfile :=
  found ← look_up (has_probe_runner self) o scope;
  match found with
  | Some p => mret p
  | None =>
      '(id, leader) ← _sync_flight (_cache_key o scope);
      if (leader : bool) then _resolve_sync_leader o scope (_cache_key o scope) id else _wait_sync_flight id
  end.

(** ** Asynchronous flights *)

Definition _async_flight (k : cache_key) : C (nat * bool) :=
  flights ← read _async_flights;
  match flights !! k with
  | Some id => mret (id, false)
  | None =>
      heap ← read async_heap;
      let id := length heap in
      set_async (λ h, h ++ [new_async_flight]) (<[k := id]>);;
      mret (id, true)
  end.

Definition _discard_async_flight (k : cache_key) (id : nat) : C unit :=
  set_async (λ h, h) (λ m, if bool_decide (m !! k = Some id) then delete k m else m).

(** [future.set_result], [future.set_exception], unless it is done. *)
Definition settle_future (r : result EffectiveCapabilityProfile) (f : _AsyncFlight) : _AsyncFlight :=
  match af_future f with
  | Some _ => f
  | None => {| af_future := Some r; af_cancelled := af_cancelled f; af_callback := af_callback f |}
  end.

Definition _fail_async_leader (k : cache_key) (id : nat) (o : OperationId) (e : exn) : C unit :=
  _discard_async_flight k id;;
  set_async (alter (settle_future (Raise (_async_follower_failure o e))) id) (λ m, m).

Definition _complete_async_leader (k : cache_key) (id : nat) (o : OperationId) (effective : EffectiveCapabilityProfile)
    (completed_at : Q) : C unit :=
  heap ← read async_heap;
  match heap !! id with
  | None => throw (err OtherException "unreachable")
  | Some flight =>
      if af_cancelled flight then _discard_async_flight k id;; throw (_invalidation_error o)
      else
        _store_entry k effective completed_at;;
        _discard_async_flight k id;;
        set_async (alter (settle_future (Ok effective)) id) (λ m, m)
  end.

(** [_cancel_async_flight]: the error is delivered on the flight's own loop. *)
Definition cancel_async (closed : bool) (e : exn) (f : _AsyncFlight) : _AsyncFlight :=
  {| af_future := af_future f; af_cancelled := true; af_callback := if closed then af_callback f else Some e |}.
Definition run_callback (f : _AsyncFlight) : _AsyncFlight :=
  match af_callback f with
  | Some e => settle_future (Raise e) {| af_future := af_future f; af_cancelled := af_cancelled f; af_callback := None |}
  | None => f
  end.

Definition lead_async (o : OperationId) (scope : string) : C (EffectiveCapabilityProfile * Q) :=
  effective ← _resolve_from_async_runner o scope;
  completed_at ← clock_now;
  mret (effective, completed_at).

(** [resolve_async] run without interruption; a follower's future is done. *)
Definition resolve_async (o : OperationId) (scope : string) : C EffectiveCapabilityProfile :=
  found ← look_up (has_async_probe_runner self) o scope;
  match found with
  | Some p => mret p
  | None =>
      let k := _cache_key o scope in
      '(id, leader) ← _async_flight k;
      if (leader : bool) then
        '(effective, completed_at) ← try_except (lead_async o scope)
          (λ e, Some (_fail_async_leader k id o e;; throw e));
        _complete_async_leader k id o effective completed_at;;
        mret effective
      else
        heap ← read async_heap;
        match heap !! id ≫= af_future with
        | Some r => lift_res r
        | None => throw (err OtherException "the future is pending")
        end
  end.

(** ** Invalidation *)

(** The flights under the keys of [p], each changed by [f]. *)
Definition cancel_all {F} (p : cache_key → bool) (f : cache_key → nat → F → F) (flights : gmap cache_key nat)
    (heap : list F) : list F :=
  foldr (λ (ki : cache_key * nat) h, alter (f ki.1 ki.2) ki.2 h) heap
    (filter (λ ki : cache_key * nat, Is_true (p ki.1)) (map_to_list flights)).

Definition discard_keys (p : cache_key → bool) : C unit :=
  set_entries (filter (λ e, ¬ Is_true (p e.1)));;
  flights ← read _sync_flights;
  set_sync (cancel_all p (λ k _, cancel_flight (_invalidation_error (key_operation k))) flights)
           (filter (λ ki, ¬ Is_true (p ki.1)));;
  async ← read _async_flights;
  w ← read cap_world;
  set_async (cancel_all p (λ k id, cancel_async (env_loop_closed id w) (_invalidation_error (key_operation k))) async)
            (filter (λ ki, ¬ Is_true (p ki.1))).

Definition _invalidate_all : C unit := discard_keys (λ _, true).
Definition _invalidate_operation (o : OperationId) : C unit := discard_keys (λ k, bool_decide (key_operation k = o)).

Definition invalidate (o : option OperationId) : C unit :=
  match o with None => _invalidate_all | Some o => _invalidate_operation o end;;
  note_cap (Invalidated o).
End cache.

(** ** Guards *)

Record EffectivePermissions := {
  ep_platform : CatalogPlatform; ep_scopes : gset string; ep_roles : gset string; ep_authenticated : bool;
  ep_operation_scopes : gmap string (gset string); ep_credential_scope : option string
}.

(** [EffectivePermissions.__post_init__], for the types the fields declare *)
Definition make_effective_permissions (p : EffectivePermissions) : result EffectivePermissions :=
  let checked (values : gset string) (name : string) :=
    raise_if (negb (bool_decide (set_Forall (λ v, str_nonempty v = true) values)))
      (err ValueError ("Effective permission " +:+ name +:+ "s must be immutable non-empty strings.")) in
  checked (ep_scopes p) "scope";;
  checked (ep_roles p) "role";;
  raise_if (bool_decide (ep_credential_scope p = Some ""))
    (err ValueError "Effective permission credential scope must be a non-empty string when supplied.");;
  raise_if (negb (bool_decide (set_Forall (λ v, str_nonempty v = true) (dom (ep_operation_scopes p)))))
    (err ValueError "Operation permission requirements must use non-empty operation names.");;
  Ok p.

(** [EffectivePermissions.require] *)
Definition require (p : EffectivePermissions) (operation : string) (scopes roles : gset string) : result unit :=
  raise_if (negb (str_nonempty operation)) (err ValueError "Permission guards require a non-empty operation name.");;
  let required_scopes := scopes ∪ default ∅ (ep_operation_scopes p !! operation) in
  if negb (ep_authenticated p) && bool_decide (ep_scopes p = ∅) && bool_decide (ep_roles p = ∅)
  then raise_new (catalog_error UnauthenticatedError "Credentials are required for this catalog operation." operation
         (platform_value (ep_platform p)) (Some "unauthorized") "Provide valid credentials and retry the operation." None)
  else if negb (bool_decide (required_scopes ⊆ ep_scopes p) && bool_decide (roles ⊆ ep_roles p))
  then raise_new (catalog_error ForbiddenError "Known credentials do not include the required catalog permission."
         operation (platform_value (ep_platform p)) (Some "forbidden")
         "Use credentials with the required scope or role." None)
  else Ok tt.

Definition guard_error_type (s : EffectiveCapabilityState) : exc_kind :=
  match s with
  | StUnauthorized => UnauthenticatedError
  | StForbidden => ForbiddenError
  | _ => UnsupportedCapabilityError
  end.

(** [_EffectiveCapabilityGuard.require_allowed] *)
Definition require_allowed (o : OperationId) (profile : option EffectiveCapabilityProfile)
    (permissions : option EffectivePermissions) : result unit :=
  (match profile with
   | None => Ok tt
   | Some p =>
       let decision := guard_operation p o in
       if gd_allowed decision then Ok tt
       else raise_new (catalog_error (guard_error_type (gd_state decision))
         ("The catalog operation is " +:+ state_value (gd_state decision) +:+ ".") (operation_str o) (op_platform o)
         (Some (state_value (gd_state decision)))
         (or_default (gd_remedy decision) "Inspect the deployment capability profile before retrying.") None)
   end);;
  match permissions with None => Ok tt | Some p => require p (operation_str o) ∅ ∅ end.
