(* ===== verification/CapabilityProofs.v ===== *)
(** * Correctness of the capability cache

    The threads that call [resolve], the other operations of the cache and their
    interleavings as a step relation, its invariant, and the theorems. *)
From Stdlib Require Import QArith ZArith Ascii.
From stdpp Require Import gmap list.
From S2P Require Import Prelude PyVal Policies Errors Transport Resilience Urls Ids Profiles Capability.
Import Deadline.
Local Close Scope Q_scope.

(** ** Threads *)

(** Where a caller of [resolve] is. *)
Inductive phase :=
| Entered (o : OperationId) (scope : string)
| Missed (o : OperationId) (scope : string)
| Leading (o : OperationId) (scope : string) (id : nat)
| Probed (o : OperationId) (scope : string) (id : nat) (p : EffectiveCapabilityProfile) (completed_at : Q)
| Broken (o : OperationId) (scope : string) (id : nat) (e : exn)
| Waiting (id : nat)
| Finished (r : result EffectiveCapabilityProfile).

Section machine.
Context {W : Type} `{!ProbeEnv W} {ips : IpLiterals}.
Variable self : EffectiveCapabilityCache.
Abbreviation C := (M (cap W)).

Definition attempt {A} (m : C A) (k : A → phase) : C phase :=
  try_except (a ← m; mret (k a)) (λ e, Some (mret (Finished (Raise e)))).

(** The next atomic step of a caller: the code between two lock sections. *)
Definition advance_thread (ph : phase) : C phase :=
  match ph with
  | Entered o scope =>
      attempt (look_up self (has_probe_runner self) o scope)
        (λ r, match r with Some p => Finished (Ok p) | None => Missed o scope end)
  | Missed o scope =>
      attempt (_sync_flight (_cache_key self o scope))
        (λ r, if r.2 then Leading o scope r.1 else Waiting r.1)
  | Leading o scope id =>
      try_except (r ← lead self o scope; mret (Probed o scope id r.1 r.2)) (λ e, Some (mret (Broken o scope id e)))
  | Probed o scope id p t =>
      attempt (_complete_sync_leader self (_cache_key self o scope) id o p t) (λ _, Finished (Ok p))
  | Broken o scope id e =>
      attempt (_fail_sync_leader (_cache_key self o scope) id o e;; throw e) (λ _ : unit, Finished (Raise e))
  | Waiting id => attempt (_wait_sync_flight id) (λ p, Finished (Ok p))
  | Finished r => mret (Finished r)
  end.

(** [flight.event.wait()] blocks until the event is set. *)
Definition can_advance (s : cap W) (ph : phase) : Prop :=
  match ph with
  | Waiting id => ∃ f, sync_heap s !! id = Some f ∧ sf_event f = true
  | Finished _ => False
  | _ => True
  end.

Definition silent {A} (m : C A) : C unit := m;; mret tt.

(** What other callers do to the cache in one step. *)
Inductive other_step : C unit → Prop :=
| other_peek o scope : other_step (silent (peek self o scope))
| other_response o r scope : other_step (silent (record_response self o r scope))
| other_evidence e scope : other_step (silent (record_evidence self e scope))
| other_lookup b o scope : other_step (silent (look_up self b o scope))
| other_flight k : other_step (silent (_async_flight k))
| other_fail k id o e : other_step (_fail_async_leader k id o e)
| other_lead o scope : other_step (silent (lead_async self o scope))
| other_complete k id o p t : other_step (_complete_async_leader self k id o p t)
| other_callback id : other_step (set_async (alter run_callback id) (λ m, m)).

Inductive cap_step : list phase * cap W → list phase * cap W → Prop :=
| step_call ts s o scope : cap_step (ts, s) (ts ++ [Entered o scope], s)
| step_thread ts s i ph ph' s' :
    ts !! i = Some ph → can_advance s ph → advance_thread ph s = (Ok ph', s') →
    cap_step (ts, s) (<[i := ph']> ts, s')
| step_invalidate ts s o : cap_step (ts, s) (ts, (invalidate (W := W) o s).2)
| step_other ts s m : other_step m → cap_step (ts, s) (ts, (m s).2).

(** ** Roles *)

Inductive role := RLead (k : cache_key) (id : nat) | RWait (id : nat) | RNone.
Definition role_of (ph : phase) : role :=
  match ph with
  | Leading o scope id | Probed o scope id _ _ | Broken o scope id _ => RLead (_cache_key self o scope) id
  | Waiting id => RWait id
  | _ => RNone
  end.

Definition invalidates (e : cap_event) (k : cache_key) : Prop :=
  match e with
  | Invalidated None => True
  | Invalidated (Some o) => key_operation k = o
  | _ => False
  end.

(** The probe [id] of [k] has started and nothing has invalidated [k] since. *)
Definition live (log : list cap_event) (id : nat) (k : cache_key) : Prop :=
  ∃ l1 l2, log = l1 ++ Started id k :: l2 ∧ Forall (λ e, ¬ invalidates e k) l2.

Definition log_valid (log : list cap_event) : Prop :=
  ∀ l1 id k l2, log = l1 ++ Stored id k :: l2 → live l1 id k.

Definition entries_ok (es : list (cache_key * _CacheEntry)) : Prop :=
  NoDup es.*1 ∧ (length es <= _MAX_CACHE_ENTRIES)%nat.

(** A flight nobody has settled, and one that was cancelled. *)
Definition pending_flight (f : _SyncFlight) : Prop := f = new_sync_flight.
Definition cancelled_flight (f : _SyncFlight) : Prop :=
  sf_cancelled f = true ∧ sf_event f = true ∧ is_Some (sf_error f).

Record cap_inv (rs : list role) (h : list _SyncFlight) (fl : gmap cache_key nat) (log : list cap_event) : Prop := {
  i_flight k id : fl !! k = Some id → h !! id = Some new_sync_flight ∧ RLead k id ∈ rs ∧ live log id k;
  i_leader i j k k' id : rs !! i = Some (RLead k id) → rs !! j = Some (RLead k' id) → i = j;
  i_owner k id : RLead k id ∈ rs → fl !! k = Some id ∨ ∃ f, h !! id = Some f ∧ cancelled_flight f;
  i_event id f : h !! id = Some f → sf_event f = true → is_Some (sf_error f) ∨ is_Some (sf_profile f);
  i_wait id : RWait id ∈ rs → ∃ f, h !! id = Some f ∧ (sf_event f = true ∨ ∃ k, fl !! k = Some id);
  i_log : log_valid log
}.

(** ** Transitions of the invariant *)

Lemma elem_of_insert (rs : list role) i r x :
  x ∈ <[i := r]> rs → x = r ∨ ∃ j, j ≠ i ∧ rs !! j = Some x.
Proof.
  intros [j Hj]%list_elem_of_lookup. destruct (decide (j = i)) as [->|Hne].
  - apply list_lookup_insert_Some in Hj as [(_ & <- & _)|[? _]]; [by left|done].
  - rewrite list_lookup_insert_ne in Hj by done. eauto.
Qed.

Lemma elem_of_keep (rs : list role) i r r' x :
  rs !! i = Some r → x ∈ rs → x ≠ r → x ∈ <[i := r']> rs.
Proof.
  intros Hi [j Hj]%list_elem_of_lookup Hne. assert (j ≠ i) by congruence.
  apply list_elem_of_lookup. exists j. by rewrite list_lookup_insert_ne.
Qed.

(** A thread that neither leads nor is going to. *)
Definition follower (r : role) : Prop := match r with RLead _ _ => False | _ => True end.

Lemma inv_follow rs h fl log i r r' :
  cap_inv rs h fl log → rs !! i = Some r → follower r → follower r' →
  (∀ id, r' = RWait id → ∃ f, h !! id = Some f ∧ (sf_event f = true ∨ ∃ k, fl !! k = Some id)) →
  cap_inv (<[i := r']> rs) h fl log.
Proof.
  intros [] Hi Hr Hr' Hw. split; try done.
  - intros k id Hk. destruct (i_flight0 k id Hk) as (? & Hin & ?). split_and!; [done| |done].
    eapply elem_of_keep; [done..|]. intros E. by rewrite <- E in Hr.
  - intros j j' k k' id Hj Hj'. apply list_lookup_insert_Some in Hj as [(_ & -> & _)|[? Hj]]; [done|].
    apply list_lookup_insert_Some in Hj' as [(_ & -> & _)|[? Hj']]; [done|]. eauto.
  - intros k id Hin. apply i_owner0. apply elem_of_insert in Hin as [E|(j & _ & Hj)]; [by rewrite <- E in Hr'|].
    by eapply list_elem_of_lookup_2.
  - intros id Hin. apply elem_of_insert in Hin as [<-|(j & _ & Hj)]; [by apply Hw|].
    by eapply i_wait0, list_elem_of_lookup_2.
Qed.

Lemma inv_spawn rs h fl log : cap_inv rs h fl log → cap_inv (rs ++ [RNone]) h fl log.
Proof.
  intros []. split; try done.
  - intros k id Hk. destruct (i_flight0 k id Hk) as (? & ? & ?). split_and!; [done|set_solver|done].
  - intros i j k k' id Hi Hj. apply lookup_app_Some in Hi as [Hi|[_ Hi]].
    2:{ by apply list_lookup_singleton_Some in Hi as [_ [=]]. }
    apply lookup_app_Some in Hj as [Hj|[_ Hj]]; [eauto|]. by apply list_lookup_singleton_Some in Hj as [_ [=]].
  - intros k id [Hin|Hin%list_elem_of_singleton]%elem_of_app; [auto|done].
  - intros id [Hin|Hin%list_elem_of_singleton]%elem_of_app; [auto|done].
Qed.

Lemma live_app log id k e : live log id k → ¬ invalidates e k → live (log ++ [e]) id k.
Proof.
  intros (l1 & l2 & -> & Hl) He. exists l1, (l2 ++ [e]). split; [by rewrite <- app_assoc|].
  apply Forall_app. split; [done|by constructor].
Qed.

Lemma log_valid_app log e :
  log_valid log → (∀ id k, e = Stored id k → live log id k) → log_valid (log ++ [e]).
Proof.
  intros Hl He l1 id k l2. destruct l2 as [|x l2' _] using rev_ind; intros E.
  - apply app_inj_tail in E as [-> ->]. by apply He.
  - rewrite app_comm_cons, app_assoc in E. apply app_inj_tail in E as [-> _]. by eapply Hl.
Qed.

Lemma inv_start rs h fl log i k :
  cap_inv rs h fl log → rs !! i = Some RNone → fl !! k = None →
  cap_inv (<[i := RLead k (length h)]> rs) (h ++ [new_sync_flight]) (<[k := length h]> fl) (log ++ [Started (length h) k]).
Proof.
  intros [] Hi Hk.
  assert (Hlead : ∀ k' id, RLead k' id ∈ rs → (id < length h)%nat).
  { intros k' id Hin. destruct (i_owner0 _ _ Hin) as [Hf|(f & Hf & _)]; [|by eapply lookup_lt_Some].
    by eapply lookup_lt_Some, i_flight0. }
  assert (Hlen : (i < length rs)%nat) by by eapply lookup_lt_Some.
  assert (Hold : ∀ id f, h !! id = Some f → (h ++ [new_sync_flight]) !! id = Some f).
  { intros. by apply lookup_app_l_Some. }
  split.
  - intros k' id. destruct (decide (k' = k)) as [->|Hne].
    + rewrite lookup_insert_eq. intros [= <-]. split_and!.
      * by rewrite lookup_app_r, Nat.sub_diag by lia.
      * apply list_elem_of_lookup. exists i. by rewrite list_lookup_insert_eq.
      * exists log, []. by split.
    + rewrite lookup_insert_ne by done. intros Hf. destruct (i_flight0 _ _ Hf) as (Hh & Hin & Hl). split_and!.
      * by apply Hold.
      * by eapply elem_of_keep.
      * apply live_app; [done|]. by intros [].
  - intros j j' k1 k2 id Hj Hj'.
    apply list_lookup_insert_Some in Hj as [(<- & [= <- <-] & _)|[? Hj]];
      apply list_lookup_insert_Some in Hj' as [(<- & Hj' & _)|[? Hj']]; [done| | |by eauto].
    + apply list_elem_of_lookup_2, Hlead in Hj'. lia.
    + injection Hj' as <- <-. apply list_elem_of_lookup_2, Hlead in Hj. lia.
  - intros k' id Hin. apply elem_of_insert in Hin as [[= -> ->]|(j & _ & Hj)].
    + left. apply lookup_insert_eq.
    + apply list_elem_of_lookup_2 in Hj as Hin. destruct (i_owner0 _ _ Hin) as [Hf|(f & Hf & Hc)].
      * left. rewrite lookup_insert_ne; [done|]. intros ->. congruence.
      * right. exists f. split; [by apply Hold|done].
  - intros id f Hf He. apply lookup_app_Some in Hf as [Hf|[_ Hf]]; [eauto|].
    apply list_lookup_singleton_Some in Hf as [_ <-]. done.
  - intros id Hin. apply elem_of_insert in Hin as [[=]|(j & _ & Hj)].
    apply list_elem_of_lookup_2 in Hj. destruct (i_wait0 _ Hj) as (f & Hf & He). exists f. split; [by apply Hold|].
    destruct He as [?|[k' Hk']]; [by left|]. right. exists k'. rewrite lookup_insert_ne; [done|]. intros ->. congruence.
  - apply log_valid_app; done.
Qed.

(** The leader of [id] settles its flight. *)
Lemma inv_settle rs h fl log i k id f f' stored :
  cap_inv rs h fl log → rs !! i = Some (RLead k id) → h !! id = Some f →
  sf_event f' = true → is_Some (sf_error f') ∨ is_Some (sf_profile f') →
  (stored = true → fl !! k = Some id) →
  cap_inv (<[i := RNone]> rs) (<[id := f']> h) (if bool_decide (fl !! k = Some id) then delete k fl else fl)
    (if stored then log ++ [Stored id k] else log).
Proof.
  intros [] Hi Hf He Ho Hst.
  assert (Hlen : (i < length rs)%nat) by by eapply lookup_lt_Some.
  assert (Hidlen : (id < length h)%nat) by by eapply lookup_lt_Some.
  set (fl' := if bool_decide (fl !! k = Some id) then delete k fl else fl).
  assert (Hfl : ∀ k' id', fl' !! k' = Some id' ↔ fl !! k' = Some id' ∧ id' ≠ id).
  { intros k' id'. assert (Hinj : fl !! k' = Some id → k' = k ∧ fl !! k = Some id).
    { intros Hk'. destruct (i_flight0 _ _ Hk') as (_ & [j Hj]%list_elem_of_lookup & _).
      assert (j = i) as -> by eauto. assert (k' = k) as -> by congruence. done. }
    unfold fl'. case_bool_decide as Hk.
    - rewrite lookup_delete_Some. split; [intros [Hne Hk']|intros [Hk' Hne]].
      + split; [done|]. intros ->. by destruct (Hinj Hk').
      + split; [|done]. intros ->. congruence.
    - split; [|tauto]. intros Hk'. split; [done|]. intros ->. by destruct (Hinj Hk'). }
  assert (Hlive : ∀ id' k', live log id' k' → live (if stored then log ++ [Stored id k] else log) id' k').
  { intros id' k' Hl. destruct stored; [|done]. apply live_app; [done|]. by intros []. }
  clearbody fl'. split.
  - intros k' id' [Hk' Hne]%Hfl. destruct (i_flight0 _ _ Hk') as (Hh & Hin & Hl). split_and!; [|eapply elem_of_keep; [done..|congruence]|auto].
    by rewrite list_lookup_insert_ne by done.
  - intros j j' k1 k2 id' Hj Hj'. apply list_lookup_insert_Some in Hj as [(_ & [=] & _)|[? Hj]].
    apply list_lookup_insert_Some in Hj' as [(_ & [=] & _)|[? Hj']]. eauto.
  - intros k' id' Hin. apply elem_of_insert in Hin as [[=]|(j & Hne & Hj)].
    assert (Hid : id' ≠ id) by (intros ->; apply Hne; eauto).
    apply list_elem_of_lookup_2 in Hj as Hin. destruct (i_owner0 _ _ Hin) as [Hk'|(g & Hg & Hc)].
    + left. by apply Hfl.
    + right. exists g. by rewrite list_lookup_insert_ne.
  - intros id' g Hg. destruct (decide (id' = id)) as [->|Hne].
    + rewrite list_lookup_insert_eq in Hg by done. injection Hg as <-. done.
    + rewrite list_lookup_insert_ne in Hg by done. eauto.
  - intros id' Hin. apply elem_of_insert in Hin as [[=]|(j & _ & Hj)]. apply list_elem_of_lookup_2 in Hj.
    destruct (i_wait0 _ Hj) as (g & Hg & Hev). destruct (decide (id' = id)) as [->|Hne].
    + exists f'. rewrite list_lookup_insert_eq by done. auto.
    + exists g. rewrite list_lookup_insert_ne by done. split; [done|]. destruct Hev as [?|[k' ?]]; [by left|right].
      exists k'. by apply Hfl.
  - destruct stored; [|done]. apply log_valid_app; [done|]. intros ? ? [= <- <-]. by apply i_flight0, Hst.
Qed.

(** ** Invalidation *)

Lemma foldr_alter_ne {F} (f : cache_key → nat → F → F) (l : list (cache_key * nat)) (h : list F) id :
  id ∉ l.*2 → foldr (λ ki h, alter (f ki.1 ki.2) ki.2 h) h l !! id = h !! id.
Proof.
  induction l as [|[k j] l IH]; intros Hni; [done|]. cbn in *. apply not_elem_of_cons in Hni as [Hne Hni].
  rewrite list_lookup_alter_ne by done. auto.
Qed.

Lemma foldr_alter_eq {F} (f : cache_key → nat → F → F) (l : list (cache_key * nat)) (h : list F) k id :
  NoDup l.*2 → (k, id) ∈ l → foldr (λ ki h, alter (f ki.1 ki.2) ki.2 h) h l !! id = f k id <$> h !! id.
Proof.
  induction l as [|[k' j] l IH]; intros Hnd Hin; [by apply elem_of_nil in Hin|]. cbn in *.
  apply NoDup_cons in Hnd as [Hni Hnd]. apply elem_of_cons in Hin as [[= <- <-]|Hin].
  - rewrite list_lookup_alter_eq. f_equal. by apply foldr_alter_ne.
  - rewrite list_lookup_alter_ne; [by apply IH|]. intros ->. apply Hni, list_elem_of_fmap. by exists (k, id).
Qed.

Section cancel.
Context {F : Type} (p : cache_key → bool) (f : cache_key → nat → F → F) (fl : gmap cache_key nat) (h : list F).
Hypothesis fl_inj : ∀ k k' id, fl !! k = Some id → fl !! k' = Some id → k = k'.

Lemma cancel_all_other id : (∀ k, fl !! k = Some id → p k = false) → cancel_all p f fl h !! id = h !! id.
Proof.
  intros H. apply foldr_alter_ne. intros ([k j] & -> & [Hp Hk%elem_of_map_to_list]%list_elem_of_filter)%list_elem_of_fmap.
  cbn in *. rewrite (H k Hk) in Hp. done.
Qed.

Lemma cancel_all_hit k id : fl !! k = Some id → p k = true → cancel_all p f fl h !! id = f k id <$> h !! id.
Proof.
  intros Hk Hp. apply foldr_alter_eq.
  - apply NoDup_fmap_2_strong; [|apply NoDup_filter, NoDup_map_to_list].
    intros [k1 i1] [k2 i2] [_ H1%elem_of_map_to_list]%list_elem_of_filter [_ H2%elem_of_map_to_list]%list_elem_of_filter.
    cbn. intros ->. f_equal. by eapply fl_inj.
  - apply list_elem_of_filter. cbn. split; [by rewrite Hp|by apply elem_of_map_to_list].
Qed.
End cancel.

(** The keys an invalidation discards. *)
Definition covers (o : option OperationId) (k : cache_key) : bool :=
  match o with None => true | Some o => bool_decide (key_operation k = o) end.

Lemma covers_spec o k : covers o k = true ↔ invalidates (Invalidated o) k.
Proof. destruct o; cbn; [apply bool_decide_eq_true|done]. Qed.

Lemma flights_inj rs h fl log k k' id :
  cap_inv rs h fl log → fl !! k = Some id → fl !! k' = Some id → k = k'.
Proof.
  intros H Hk Hk'. destruct (i_flight _ _ _ _ H _ _ Hk) as (_ & [i Hi]%list_elem_of_lookup & _).
  destruct (i_flight _ _ _ _ H _ _ Hk') as (_ & [j Hj]%list_elem_of_lookup & _).
  assert (i = j) as -> by by eapply i_leader. congruence.
Qed.

Lemma inv_invalidate rs h fl log o (err : cache_key → exn) :
  cap_inv rs h fl log →
  cap_inv rs (cancel_all (covers o) (λ k _, cancel_flight (err k)) fl h)
    (filter (λ ki, ¬ Is_true (covers o ki.1)) fl) (log ++ [Invalidated o]).
Proof.
  intros H. pose proof H as []. set (f := λ k (_ : nat), cancel_flight (err k)). set (h' := cancel_all _ _ _ _).
  assert (Hinj : ∀ k k' id, fl !! k = Some id → fl !! k' = Some id → k = k') by (intros; by eapply flights_inj).
  assert (Hother : ∀ id, (∀ k, fl !! k = Some id → covers o k = false) → h' !! id = h !! id)
    by (intros; by apply cancel_all_other).
  assert (Hhit : ∀ k id, fl !! k = Some id → covers o k = true → h' !! id = Some (cancel_flight (err k) new_sync_flight)).
  { intros k id Hk Hp. unfold h'. erewrite cancel_all_hit by done. by rewrite (proj1 (i_flight0 _ _ Hk)). }
  (* every flight of the new heap is one of the old, or a cancelled one *)
  assert (Hcase : ∀ id, h' !! id = h !! id ∨ ∃ k, fl !! k = Some id ∧ covers o k = true).
  { intros id. destruct (decide (id ∈ (map_to_list fl).*2)) as [([k j] & -> & Hk%elem_of_map_to_list)%list_elem_of_fmap|Hni].
    - destruct (covers o k) eqn:Hp; [right; by exists k|left]. apply Hother. intros k' Hk'. cbn in *.
      by rewrite (Hinj _ _ _ Hk' Hk).
    - left. apply Hother. intros k Hk. destruct Hni. apply list_elem_of_fmap. exists (k, id). split; [done|].
      by apply elem_of_map_to_list. }
  assert (Hfl : ∀ k id, filter (λ ki, ¬ Is_true (covers o ki.1)) fl !! k = Some id ↔ fl !! k = Some id ∧ covers o k = false).
  { intros k id. rewrite map_lookup_filter_Some. cbn. by destruct (covers o k); cbn; naive_solver. }
  clearbody h'. split.
  - intros k id [Hk Hp]%Hfl. destruct (i_flight0 _ _ Hk) as (Hh & Hin & Hl). split_and!; [|done|].
    + rewrite Hother; [done|]. intros k' Hk'. by rewrite (Hinj _ _ _ Hk' Hk).
    + apply live_app; [done|]. intros Hc%covers_spec. congruence.
  - done.
  - intros k id Hin. destruct (i_owner0 _ _ Hin) as [Hk|(g & Hg & Hc)].
    + destruct (covers o k) eqn:Hp; [|left; by apply Hfl]. right. eexists. split; [by eapply Hhit|]. by repeat split.
    + right. destruct (Hcase id) as [E|(k' & Hk' & Hp)]; [exists g; by rewrite E|].
      eexists. split; [by eapply Hhit|]. by repeat split.
  - intros id g Hg He. destruct (Hcase id) as [E|(k' & Hk' & Hp)]; [rewrite E in Hg; eauto|].
    rewrite (Hhit _ _ Hk' Hp) in Hg. injection Hg as <-. left. by eexists.
  - intros id Hin. destruct (i_wait0 _ Hin) as (g & Hg & Hev). destruct (Hcase id) as [E|(k' & Hk' & Hp)].
    + exists g. rewrite E. split; [done|]. destruct Hev as [?|[k Hk]]; [by left|].
      destruct (covers o k) eqn:Hp; [|right; exists k; by apply Hfl].
      rewrite (Hhit _ _ Hk Hp) in E. rewrite Hg in E. injection E as <-. by left.
    + eexists. split; [by eapply Hhit|]. by left.
  - by apply log_valid_app.
Qed.

(** ** Entries *)

Lemma remove_entry_ok k es : entries_ok es → entries_ok (remove_entry k es) ∧ k ∉ (remove_entry k es).*1.
Proof.
  intros [Hnd Hlen]. unfold remove_entry. split; [split|].
  - eapply sublist_NoDup; [exact Hnd|]. apply fmap_sublist, sublist_filter.
  - etransitivity; [apply length_filter|done].
  - intros ([k' e] & -> & [Hne _]%list_elem_of_filter)%list_elem_of_fmap. done.
Qed.

Lemma filter_entries_ok (P : cache_key * _CacheEntry → Prop) `{!∀ x, Decision (P x)} es :
  entries_ok es → entries_ok (filter P es).
Proof.
  intros [Hnd Hlen]. split.
  - eapply sublist_NoDup; [exact Hnd|]. apply fmap_sublist, sublist_filter.
  - etransitivity; [apply length_filter|done].
Qed.

Lemma store_entry_ok ttl k p t es : entries_ok es → entries_ok (store_entry ttl k p t es).
Proof.
  intros Hes. destruct (remove_entry_ok k es Hes) as [Hok Hni]. unfold store_entry.
  set (es1 := remove_entry k es) in *.
  set (es2 := if (_MAX_CACHE_ENTRIES <=? length es1)%nat then _ else es1).
  assert (H : entries_ok es2 ∧ k ∉ es2.*1 ∧ (length es2 < _MAX_CACHE_ENTRIES)%nat).
  { unfold es2. destruct (Nat.leb_spec _MAX_CACHE_ENTRIES (length es1)) as [_|Hlt]; [|done].
    set (es3 := filter _ es1). assert (Hok3 : entries_ok es3) by by apply filter_entries_ok.
    assert (Hni3 : k ∉ es3.*1).
    { intros Hin. apply Hni. eapply elem_of_sublist; [exact Hin|]. apply fmap_sublist, sublist_filter. }
    destruct (Nat.leb_spec _MAX_CACHE_ENTRIES (length es3)) as [_|Hlt]; [|done].
    destruct es3 as [|[k3 e3] es3]; [by split_and!; [| |unfold _MAX_CACHE_ENTRIES; cbn; lia]|].
    destruct Hok3 as [[_ Hnd]%NoDup_cons Hlen]. cbn in *. apply not_elem_of_cons in Hni3 as [_ Hni3].
    split_and!; [split; [done|lia]|done|lia]. }
  clearbody es2. destruct H as ([Hnd Hlen] & Hk & Hlt). split.
  - rewrite fmap_app. apply NoDup_app. split_and!; [done| |apply NoDup_singleton].
    intros x Hx ->%list_elem_of_singleton. done.
  - rewrite length_app. cbn. lia.
Qed.

(** ** What leaves the flights and the log alone *)

Definition view (h : list _SyncFlight) (fl : gmap cache_key nat) (l : list cap_event) (s : cap W) : Prop :=
  sync_heap s = h ∧ _sync_flights s = fl ∧ cap_log s = l ∧ entries_ok (_entries s).

Section view.
Context (h : list _SyncFlight) (fl : gmap cache_key nat) (l : list cap_event).
Abbreviation V := (view h fl l).

Lemma view_clock : preserves V (clock_now (S := cap W)).
Proof.
  apply clock_now_keeps. intros s Hs. unfold clock, cap_clocked. by destruct (clock (cap_world s)).
Qed.
Lemma view_probe {A} (m : W → result A * W) : preserves V (on_probe m).
Proof. intros s Hs. unfold on_probe. by destruct (m (cap_world s)). Qed.
Lemma view_entries f : (∀ es, entries_ok es → entries_ok (f es)) → preserves V (set_entries f).
Proof. intros Hf. apply preserves_modify. intros s (?&?&?&He). split_and!; try done. by apply Hf. Qed.
Lemma view_async f g : preserves V (set_async f g).
Proof. apply preserves_modify. by intros s. Qed.
End view.

Ltac view :=
  repeat match goal with
  | |- preserves _ (_ ≫= _) => apply preserves_bind
  | |- preserves _ (mret _) => apply preserves_ret
  | |- preserves _ (throw _) => apply preserves_throw
  | |- preserves _ (lift_res _) => apply preserves_lift
  | |- preserves _ (read _) => apply preserves_read
  | |- preserves _ clock_now => apply view_clock
  | |- preserves _ (on_probe _) => apply view_probe
  | |- preserves _ (set_entries _) => apply view_entries; intros ? ?; (by apply remove_entry_ok) || (by apply store_entry_ok)
  | |- preserves _ (set_async _ _) => apply view_async
  | |- preserves _ (try_except _ _) => apply preserves_try
  | |- preserves _ (if ?b then _ else _) => destruct b
  | |- preserves _ (match ?x with _ => _ end) => destruct x
  | |- ∀ _, _ => intros ?
  | H : (if ?b then _ else _) = Some _ |- _ => destruct b
  | H : _ = Some _ |- _ => first [discriminate H | injection H as <-]
  | |- preserves _ _ => progress unfold silent, peek, record_response, record_evidence, look_up, _fresh_entry, _store_entry,
      lead, lead_async, _resolve_from_runner, _resolve_from_async_runner, probe_runner, _async_flight,
      _fail_async_leader, _complete_async_leader, _discard_async_flight
  end.

Lemma view_look_up h fl l b o scope : preserves (view h fl l) (look_up self b o scope).
Proof. view. Qed.
Lemma view_other h fl l m : other_step m → preserves (view h fl l) m.
Proof. destruct 1; view. Qed.

(** ** Reachable states *)

Definition sys_inv (x : list phase * cap W) : Prop :=
  cap_inv (role_of <$> x.1) (sync_heap x.2) (_sync_flights x.2) (cap_log x.2) ∧ entries_ok (_entries x.2).

Lemma attempt_view {A} h fl l (m : C A) k : preserves (view h fl l) m → preserves (view h fl l) (attempt m k).
Proof. intros Hm. unfold attempt. view. done. Qed.

(** What the phase after an [attempt] is. *)
Lemma attempt_ok {A} (m : C A) (k : A → phase) s ph s' :
  attempt m k s = (Ok ph, s') →
  (∃ a, m s = (Ok a, s') ∧ ph = k a) ∨ (∃ e, m s = (Raise e, s') ∧ ph = Finished (Raise e)).
Proof.
  unfold attempt, try_except, mbind, M_bind. destruct (m s) as [[a|e] s1].
  - intros [= <- <-]. left. eauto.
  - intros [= <- <-]. right. eauto.
Qed.

Lemma insert_same_role (ts : list phase) i ph r : ts !! i = Some ph → role_of ph = r → <[i := r]> (role_of <$> ts) = role_of <$> ts.
Proof. intros Hi <-. apply list_insert_id. by rewrite list_lookup_fmap, Hi. Qed.

(** A thread that keeps its role and leaves the flights alone. *)
Lemma inv_view (ts : list phase) s i ph ph' s' :
  sys_inv (ts, s) → ts !! i = Some ph → role_of ph' = role_of ph →
  view (sync_heap s) (_sync_flights s) (cap_log s) s' → sys_inv (<[i := ph']> ts, s').
Proof.
  intros [Hinv _] Hi Hr (E1 & E2 & E3 & Hes). split; [|done]. cbn in *. rewrite E1, E2, E3, list_fmap_insert.
  by erewrite insert_same_role.
Qed.

Lemma sync_flight_eq k (s : cap W) :
  _sync_flight k s =
    match _sync_flights s !! k with
    | Some id => (Ok (id, false), s)
    | None => (Ok (length (sync_heap s), true),
        Cap (cap_world s) (_entries s) (sync_heap s ++ [new_sync_flight]) (<[k := length (sync_heap s)]> (_sync_flights s))
            (async_heap s) (_async_flights s) (cap_log s ++ [Started (length (sync_heap s)) k]))
    end.
Proof. unfold _sync_flight, mbind, M_bind, read. by destruct (_sync_flights s !! k). Qed.

Lemma inv_missed (ts : list phase) s i o scope ph' s' :
  sys_inv (ts, s) → ts !! i = Some (Missed o scope) → advance_thread (Missed o scope) s = (Ok ph', s') →
  sys_inv (<[i := ph']> ts, s').
Proof.
  intros [Hinv Hes] Hi Ha. cbn in *.
  assert (Hr : (role_of <$> ts) !! i = Some RNone) by by rewrite list_lookup_fmap, Hi.
  apply attempt_ok in Ha as [(r & Hr' & ->)|(e & Hr' & ->)]; rewrite sync_flight_eq in Hr';
    destruct (_sync_flights s !! _) as [id|] eqn:Ek; try discriminate Hr'; injection Hr' as <- <-;
    (split; [|exact Hes]); cbn; rewrite list_fmap_insert; cbn [role_of].
  - apply inv_follow with RNone; try done. intros id' [= <-]. exists new_sync_flight.
    split; [by eapply i_flight|]. right. eauto.
  - by apply inv_start.
Qed.

Lemma alter_insert (f : _SyncFlight → _SyncFlight) id (h : list _SyncFlight) x : h !! id = Some x → alter f id h = <[id := f x]> h.
Proof.
  intros Hx. assert (id < length h)%nat by by eapply lookup_lt_Some. apply list_eq. intros j.
  destruct (decide (j = id)) as [->|Hne].
  - rewrite list_lookup_alter_eq, Hx. by rewrite list_lookup_insert_eq.
  - by rewrite list_lookup_alter_ne, list_lookup_insert_ne by done.
Qed.

Lemma alter_twice (f g : _SyncFlight → _SyncFlight) id (h : list _SyncFlight) x :
  h !! id = Some x → alter f id (alter g id h) = <[id := f (g x)]> h.
Proof.
  intros Hx. assert (id < length h)%nat by by eapply lookup_lt_Some.
  rewrite (alter_insert g _ _ x) by done. rewrite (alter_insert f _ _ (g x)) by by rewrite list_lookup_insert_eq.
  by rewrite list_insert_insert_eq.
Qed.

Definition owned_removed (k : cache_key) (id : nat) (fl : gmap cache_key nat) : gmap cache_key nat :=
  if bool_decide (fl !! k = Some id) then delete k fl else fl.

Lemma complete_eq k id o p t f (s : cap W) :
  sync_heap s !! id = Some f →
  let error := match sf_error f with Some e => e | None => _invalidation_error o end in
  _complete_sync_leader self k id o p t s =
    if sf_cancelled f
    then (Raise error, Cap (cap_world s) (_entries s) (<[id := set_event (fail_flight error f)]> (sync_heap s))
            (owned_removed k id (_sync_flights s)) (async_heap s) (_async_flights s) (cap_log s))
    else (Ok tt, Cap (cap_world s) (store_entry (_ttl_seconds self) k p t (_entries s))
            (<[id := set_event (finish_flight p f)]> (sync_heap s))
            (owned_removed k id (_sync_flights s)) (async_heap s) (_async_flights s) (cap_log s ++ [Stored id k])).
Proof.
  intros Hf. cbn zeta. unfold _complete_sync_leader, mbind, M_bind, read. rewrite Hf.
  destruct (sf_cancelled f) eqn:Ec; cbn -[store_entry alter]; unfold update_sync, set_sync, modify;
    cbn -[store_entry alter]; by rewrite (alter_twice set_event _ id (sync_heap s) f).
Qed.

Lemma fail_eq k id o e f (s : cap W) :
  sync_heap s !! id = Some f →
  (_fail_sync_leader k id o e;; throw e : C unit) s =
    (Raise e, Cap (cap_world s) (_entries s) (<[id := set_event (fail_flight (_follower_failure o e) f)]> (sync_heap s))
            (owned_removed k id (_sync_flights s)) (async_heap s) (_async_flights s) (cap_log s)).
Proof. intros Hf. unfold _fail_sync_leader, mbind, M_bind. cbn -[alter].
  unfold update_sync, set_sync, modify. cbn -[alter]. by rewrite (alter_twice set_event _ id (sync_heap s) f). Qed.

Lemma leader_flight (ts : list phase) (s : cap W) i ph k id :
  sys_inv (ts, s) → ts !! i = Some ph → role_of ph = RLead k id →
  (role_of <$> ts) !! i = Some (RLead k id) ∧
  ∃ f, sync_heap s !! id = Some f ∧
    (_sync_flights s !! k = Some id ∧ f = new_sync_flight ∨ cancelled_flight f).
Proof.
  intros [Hinv _] Hi Hr. assert (Hri : (role_of <$> ts) !! i = Some (RLead k id)).
  { by rewrite list_lookup_fmap, Hi, <- Hr. }
  split; [done|]. apply list_elem_of_lookup_2 in Hri. destruct (i_owner _ _ _ _ Hinv _ _ Hri) as [Hk|(f & Hf & Hc)].
  - exists new_sync_flight. split; [by eapply i_flight|]. by left.
  - exists f. auto.
Qed.

Lemma inv_probed (ts : list phase) s i o scope id p t ph' s' :
  sys_inv (ts, s) → ts !! i = Some (Probed o scope id p t) → advance_thread (Probed o scope id p t) s = (Ok ph', s') →
  sys_inv (<[i := ph']> ts, s').
Proof.
  intros Hsys Hi Ha. destruct (leader_flight _ _ _ _ _ _ Hsys Hi eq_refl) as (Hri & f & Hf & Hcase).
  destruct Hsys as [Hinv Hes]. cbn in *.
  apply attempt_ok in Ha as [(u & Hr & ->)|(e & Hr & ->)]; rewrite (complete_eq _ _ _ _ _ f) in Hr by done;
    destruct (sf_cancelled f) eqn:Ec; try discriminate Hr; injection Hr as <- <-; split; cbn.
  - rewrite list_fmap_insert. destruct Hcase as [[Hk ->]|[Hc _]]; [|congruence].
    apply (inv_settle _ _ _ _ i _ id new_sync_flight _ true); try done. right. by eexists.
  - by apply store_entry_ok.
  - rewrite list_fmap_insert. apply (inv_settle _ _ _ _ i _ id f _ false); try done. left. by eexists.
  - done.
Qed.

Lemma inv_broken (ts : list phase) s i o scope id e ph' s' :
  sys_inv (ts, s) → ts !! i = Some (Broken o scope id e) → advance_thread (Broken o scope id e) s = (Ok ph', s') →
  sys_inv (<[i := ph']> ts, s').
Proof.
  intros Hsys Hi Ha. destruct (leader_flight _ _ _ _ _ _ Hsys Hi eq_refl) as (Hri & f & Hf & _).
  destruct Hsys as [Hinv Hes]. cbn in *.
  apply attempt_ok in Ha as [(u & Hr & ->)|(e' & Hr & ->)]; rewrite (fail_eq _ _ _ _ f) in Hr by done; [done|].
  injection Hr as <- <-. split; cbn; [|done]. rewrite list_fmap_insert.
  apply (inv_settle _ _ _ _ i _ id f _ false); try done. left. by eexists.
Qed.

Lemma view_self s : entries_ok (_entries s) → view (sync_heap s) (_sync_flights s) (cap_log s) s.
Proof. by intros ?. Qed.

Lemma inv_advance (ts : list phase) s i ph ph' s' :
  sys_inv (ts, s) → ts !! i = Some ph → advance_thread ph s = (Ok ph', s') → sys_inv (<[i := ph']> ts, s').
Proof.
  intros Hsys Hi Ha. pose proof (view_self s (proj2 Hsys)) as Hv.
  assert (Hkeep : ∀ m : C phase, (∀ s1 p s2, m s1 = (Ok p, s2) → role_of p = role_of ph) →
    (∀ h fl l, preserves (view h fl l) m) → m s = (Ok ph', s') → sys_inv (<[i := ph']> ts, s')).
  { intros m Hrole Hm E. eapply inv_view; [done..|by eapply Hrole|].
    pose proof (Hm _ _ _ s Hv) as H. by rewrite E in H. }
  destruct ph as [o scope|o scope|o scope id|o scope id p t|o scope id e|id|r]; cbn [advance_thread] in Ha.
  - revert Ha. apply Hkeep.
    + intros s1 p s2 [(r & _ & ->)|(e & _ & ->)]%attempt_ok; [by destruct r|done].
    + intros h fl l. apply attempt_view, view_look_up.
  - by eapply inv_missed.
  - revert Ha. apply Hkeep; [|view].
    intros s1 p s2. unfold try_except, mbind, M_bind. destruct (lead self o scope s1) as [[r|e] s3]; by intros [= <- <-].
  - by eapply inv_probed.
  - by eapply inv_broken.
  - destruct Hsys as [Hinv Hes]. cbn in *.
    assert (s' = s ∧ role_of ph' = RNone) as [E Hr].
    { apply attempt_ok in Ha as [(p & Hr & ->)|(e & Hr & ->)]; (split; [|done]); revert Hr;
        unfold _wait_sync_flight, mbind, M_bind, read, mret, M_ret, throw; repeat case_match; congruence. }
    rewrite E. split; [|done]. cbn. rewrite list_fmap_insert, Hr. eapply inv_follow; [done|by rewrite list_lookup_fmap, Hi|done..].
  - injection Ha as <- <-. by rewrite list_insert_id.
Qed.

Lemma inv_invalidate_step (ts : list phase) (s : cap W) o : sys_inv (ts, s) → sys_inv (ts, (invalidate o s).2).
Proof.
  intros [Hinv Hes]. cbn in *. split.
  - pose proof (inv_invalidate _ _ _ _ o (λ k, _invalidation_error (key_operation k)) Hinv) as H. by destruct o.
  - destruct o; by apply filter_entries_ok.
Qed.

Lemma inv_step x y : cap_step x y → sys_inv x → sys_inv y.
Proof.
  destruct 1 as [ts s o scope|ts s i ph ph' s' Hi _ Ha|ts s o|ts s m Hm]; intros Hsys.
  - destruct Hsys as [Hinv Hes]. split; [|done]. cbn in *. rewrite fmap_app. by apply inv_spawn.
  - by eapply inv_advance.
  - by apply inv_invalidate_step.
  - destruct Hsys as [Hinv Hes]. cbn in *.
    destruct (view_other _ _ _ m Hm s (view_self s Hes)) as (E1 & E2 & E3 & Hes').
    split; cbn; [by rewrite E1, E2, E3|done].
Qed.

(** A cache as its constructor leaves it. *)
Definition fresh_cache (w : W) : cap W := Cap w [] [] ∅ [] ∅ [].
Definition cap_reachable (x : list phase * cap W) : Prop := ∃ w, rtc cap_step ([], fresh_cache w) x.

Lemma reachable_inv x : cap_reachable x → sys_inv x.
Proof.
  intros [w Hx]. assert (H0 : sys_inv ([], fresh_cache w)).
  { split; [|split; [constructor|cbn; lia]]. split; cbn; try done.
    - by intros k id ?%elem_of_nil.
    - by intros id ?%elem_of_nil.
    - intros l1 id k l2 E. by destruct l1. }
  revert H0. induction Hx as [x|x y z Hxy _ IH]; [done|]. intros Hx. eapply IH, inv_step; done.
Qed.
End machine.

(** ** The theorems *)
Section theorems.
Context {W : Type} `{!ProbeEnv W} {ips : IpLiterals}.
Variable self : EffectiveCapabilityCache.
Implicit Types (ts : list phase) (s : cap W).

(** C38: however the steps of concurrent synchronous callers of [resolve]
    interleave, with each other and with the steps of asynchronous callers and
    the calls of [record_response], [record_evidence], [peek] and [invalidate],
    at most one synchronous caller at a time leads a given key with a flight
    that has not been invalidated: any other synchronous caller of that key that
    leads too holds a flight that was invalidated.  Asynchronous callers share
    flights of their own, so one of them may probe the key at the same time. *)
Theorem capability_single_flight ts s i j ph ph' k id id' f f' :
  cap_reachable self (ts, s) → ts !! i = Some ph → ts !! j = Some ph' →
  role_of self ph = RLead k id → role_of self ph' = RLead k id' →
  sync_heap s !! id = Some f → sf_cancelled f = false →
  sync_heap s !! id' = Some f' → sf_cancelled f' = false →
  i = j ∧ id = id'.
Proof.
  intros Hsys%reachable_inv Hi Hj Hr Hr' Hf Hc Hf' Hc'.
  destruct (leader_flight _ _ _ _ _ _ _ Hsys Hi Hr) as (Hri & g & Hg & Hcase).
  destruct (leader_flight _ _ _ _ _ _ _ Hsys Hj Hr') as (Hrj & g' & Hg' & Hcase').
  assert (g = f) as -> by congruence. assert (g' = f') as -> by congruence.
  destruct Hcase as [[Hk _]|[? _]]; [|congruence]. destruct Hcase' as [[Hk' _]|[? _]]; [|congruence].
  cbn in Hk, Hk'. assert (id = id') as -> by congruence. split; [|done]. destruct Hsys as [Hinv _]. cbn in Hinv.
  by eapply (i_leader _ _ _ _ Hinv).
Qed.

(** the caller that waits for another caller's probe is never stranded:
    either the probe's event is set, and the caller goes on with the profile or
    the error of the flight (never with the error of a probe without outcome), or
    some caller is leading that probe and can go on. *)
Theorem capability_waiters_served ts s i id :
  cap_reachable self (ts, s) → ts !! i = Some (Waiting id) →
  (∃ f, sync_heap s !! id = Some f ∧ sf_event f = true ∧
     advance_thread self (Waiting id) s =
       (Ok (Finished (match sf_error f with
                      | Some e => Raise e
                      | None => match sf_profile f with Some p => Ok p | None => Raise (err RuntimeError "") end
                      end)), s) ∧
     (is_Some (sf_error f) ∨ is_Some (sf_profile f))) ∨
  ∃ j ph k, ts !! j = Some ph ∧ role_of self ph = RLead k id ∧ can_advance s ph.
Proof.
  intros [Hinv _]%reachable_inv Hi. cbn in Hinv.
  assert (Hw : RWait id ∈ role_of self <$> ts) by (apply list_elem_of_lookup; exists i; by rewrite list_lookup_fmap, Hi).
  destruct (i_wait _ _ _ _ Hinv id Hw) as (f & Hf & [He|[k Hk]]).
  - left. exists f. split_and!; [done..| |by eapply i_event].
    cbn [advance_thread]. unfold attempt, try_except, _wait_sync_flight, mbind, M_bind, read. rewrite Hf.
    destruct (i_event _ _ _ _ Hinv id f Hf He) as [[e ->]|[p Hp]]; [done|].
    destruct (sf_error f); [done|]. by rewrite Hp.
  - right. destruct (i_flight _ _ _ _ Hinv k id Hk) as (_ & [j Hj]%list_elem_of_lookup & _).
    rewrite list_lookup_fmap in Hj. apply fmap_Some in Hj as (ph & Hj & Hr). exists j, ph, k. split_and!; [done..|].
    by destruct ph.
Qed.

(** the cache never holds more than 1024 entries, nor two of one key; and
    a profile a probe stores was obtained by a probe that no [invalidate] of its
    operation has overtaken: between the start of the probe and the store there is
    no invalidation that covers the key. *)
Theorem capability_cache_bounded ts s :
  cap_reachable self (ts, s) →
  NoDup (_entries s).*1 ∧ (length (_entries s) <= 1024)%nat ∧ log_valid (cap_log s).
Proof.
  intros [Hinv [Hnd Hlen]]%reachable_inv. split_and!; [done|exact Hlen|apply Hinv].
Qed.

(** A cache whose profiles their constructors built. *)
Definition cache_wf : Prop :=
  declared_wf (_declared_profile self) ∧ profile_wf (_baseline self) ∧
  declared_profile (_baseline self) = _declared_profile self.

Lemma profile_from_evidence_ok o e :
  cache_wf → is_Some (operations (_declared_profile self) !! o) → pe_operation_id e = o →
  ∃ p, _profile_from_evidence self o e = Ok p ∧ profile_wf p ∧
    (gd_allowed (guard_operation p o) = true ↔ pe_response e = RespSuccess) ∧
    ∀ i, i ≠ o → guard_operation p i = guard_operation (_baseline self) i.
Proof.
  intros (Hd & [Hdom Hids] & Hb) [op Hop] He.
  assert (Hm : evidence_by_operation (_declared_profile self) [e] ∅ = Ok {[o := e]}).
  { cbn. rewrite He, Hop. by rewrite lookup_empty. }
  destruct (derive_eq _ _ _ Hd Hm) as (d & Hderive & _ & _ & Hlook).
  set (c := derived_capability {[o := e]} o op). set (caps := <[o := c]> (capabilities (_baseline self))).
  set (p := {| declared_profile := _declared_profile self; capabilities := caps |}).
  assert (Hwf : profile_wf p).
  { split.
    - cbn. unfold caps. rewrite dom_insert_L, Hdom, Hb. assert (o ∈ dom (operations (_declared_profile self)))
        by (apply elem_of_dom; by eexists). set_solver.
    - cbn. apply map_Forall_insert_2; [|done]. symmetry. by apply (Hd o op). }
  exists p. split_and!; [|done| |].
  - unfold _profile_from_evidence, for_operation. rewrite Hderive. cbn [mbind result_bind]. rewrite Hlook, Hop. cbn [fmap option_fmap].
    by apply make_effective_iff.
  - unfold guard_operation. cbn. unfold caps. rewrite lookup_insert_eq. cbn [gd_allowed]. rewrite bool_decide_eq_true.
    unfold c, derived_capability. cbn [cap_state]. rewrite effective_state_allowed, lookup_singleton_eq. naive_solver.
  - intros i Hi. unfold guard_operation. cbn. unfold caps. by rewrite lookup_insert_ne.
Qed.

Lemma origin_from_evidence_raises url : raises (λ x, exn_kind x = ValueError) (_origin_from_evidence url).
Proof.
  unfold _origin_from_evidence, sanitized_origin. apply raises_bind.
  - pose proof (urlsplit_raises url) as H. destruct (urlsplit url) as [p|x]; [apply raises_ok|].
    rewrite (H x eq_refl). by apply raises_raise.
  - intros parsed _. apply raises_bind; [by apply raises_if|]. intros; apply raises_ok.
Qed.

(** probe evidence is accepted only for the operation that was asked, with
    the credential scope of the caller (anonymous evidence for anonymous callers
    and no other) and the origin the cache is configured for; what is refused
    raises a [ValueError].  The profile recorded from accepted evidence of a
    declared operation allows it exactly when the probe succeeded, and says of every
    other operation what the declared baseline says. *)
Theorem capability_evidence o scope e :
  cache_wf → is_Some (operations (_declared_profile self) !! o) →
  match _validate_evidence self o (Evidence e) scope with
  | Ok e' =>
      e' = e ∧ pe_operation_id e = o ∧
      (scope = "anonymous" ↔ pe_credential e = CredAnonymous) ∧
      (scope ≠ "anonymous" → pe_credential_scope e = Some scope ∧ pe_role e ≠ RoleAnonymous) ∧
      (∀ u, _deployment_origin self = Some u → _origin_from_evidence (pe_deployment_url e) = Ok u) ∧
      ∃ p, _profile_from_evidence self o e = Ok p ∧ profile_wf p ∧
        (gd_allowed (guard_operation p o) = true ↔ pe_response e = RespSuccess) ∧
        ∀ i, i ≠ o → guard_operation p i = guard_operation (_baseline self) i
  | Raise x => exn_kind x = ValueError
  end.
Proof.
  intros Hwf Ho. destruct (_validate_evidence self o (Evidence e) scope) as [e'|x] eqn:E.
  - unfold _validate_evidence, _validate_credential_evidence in E. inv_ok.
    repeat match goal with
    | H : negb _ = false |- _ => apply negb_false_iff in H
    | H : bool_decide _ = true |- _ => apply bool_decide_eq_true in H
    end.
    assert (Hid : pe_operation_id e' = o) by done. split_and!; try done.
    + destruct (decide (scope = "anonymous")) as [->|Hne].
      * split; [intros _|done]. match goal with H : _ && negb (bool_decide (pe_credential _ = _)) = false |- _ =>
          rewrite bool_decide_eq_true_2 in H by done; cbn in H; by apply negb_false_iff, bool_decide_eq_true in H end.
      * split; [done|]. intros Hc. match goal with H : _ && bool_decide (pe_credential _ = _) = false |- _ =>
          rewrite bool_decide_eq_false_2 in H by done; cbn in H; by apply bool_decide_eq_false in H end.
    + intros Hne. rewrite !(bool_decide_eq_false_2 (scope = "anonymous")) in * by done. cbn in *.
      repeat match goal with
      | H : negb _ = false |- _ => apply negb_false_iff in H
      | H : bool_decide _ = true |- _ => apply bool_decide_eq_true in H
      | H : bool_decide _ = false |- _ => apply bool_decide_eq_false in H
      end. done.
    + intros u Hu. rewrite Hu in *. match goal with H : negb (bool_decide (_ = u)) = false |- _ =>
        apply negb_false_iff, bool_decide_eq_true in H end. congruence.
    + by apply profile_from_evidence_ok.
  - enough (H : raises (λ x, exn_kind x = ValueError) (_validate_evidence self o (Evidence e) scope)) by exact (H x E).
    unfold _validate_evidence, _validate_credential_evidence.
    repeat first [ apply raises_ok | by apply raises_if | apply origin_from_evidence_raises
                 | apply raises_bind; [|intros ? _] ].
Qed.
End theorems.

(** ** Origins *)

(** A deployment origin is normalised to [https://] and a lower-case
    netloc without user information; normalising it again changes nothing (given
    that [ipaddress] does not look at the case of an address). *)
Theorem normalize_origin_idempotent {ips : IpLiterals} value u :
  (∀ n, bracketed_ok (str_lower n) = bracketed_ok n) →
  _normalize_deployment_origin value = Ok u →
  ∃ net, u = ("https://" +:+ net)%string ∧ net ≠ ""%string ∧ str_lower net = net ∧ has_char "@"%char net = false ∧
    _normalize_deployment_origin u = Ok u.
Proof.
  intros Hips Hu. unfold _normalize_deployment_origin in Hu. apply bind_ok in Hu as (p & Hp & Hu).
  destruct (urlsplit_netloc _ _ Hp) as (Hsafe & Hends & Hb & Hok).
  unfold sanitized_origin in Hu. apply bind_ok in Hu as ([] & Hc%raise_if_ok & Hu).
  rewrite !orb_false_iff, !negb_false_iff, !bool_decide_eq_true, !bool_decide_eq_false in Hc.
  destruct Hc as [[[[[Hs Hn] Huser] _] _] _]. apply str_nonempty_true in Hn. rewrite Hs in Hu.
  set (net := str_lower (netloc p)) in *. assert (Hnet : u = ("https://" +:+ net)%string).
  { injection Hu as <-. unfold urlunsplit_origin. cbn. by rewrite string_app_empty_r. }
  assert (Hlow : str_lower net = net) by apply lower_idem.
  assert (Hat : has_char "@"%char net = false).
  { unfold net. rewrite has_char_lower by (vm_compute; reflexivity). apply rpartition_None.
    unfold username in Huser. destruct (rpartition "@"%char (netloc p)) as [[a|] b]; [|done]. destruct Huser. by eexists. }
  assert (Hne : net ≠ ""%string) by (unfold net; destruct (netloc p); [done|by cbn]).
  exists net. split_and!; [done..|]. rewrite Hnet. unfold _normalize_deployment_origin.
  rewrite (urlsplit_origin net).
  - cbn [mbind result_bind]. unfold sanitized_origin, username, password. cbn [netloc].
    destruct (rpartition "@"%char net) as [o b] eqn:Er. assert (o = None) as -> by by apply rpartition_None in Hat; rewrite Er in Hat.
    rewrite guard_bind; [|cbn; rewrite !orb_false_r; by destruct net].
    cbn [scheme netloc]. rewrite Hlow. unfold urlunsplit_origin. cbn. by rewrite string_app_empty_r.
  - unfold net. by rewrite (lower_keeps is_unsafe) by (vm_compute; reflexivity).
  - unfold net. by rewrite (lower_keeps ends_netloc) by (vm_compute; reflexivity).
  - unfold net. by rewrite !has_char_lower by (vm_compute; reflexivity).
  - unfold net. rewrite has_char_lower by (vm_compute; reflexivity). intros H. unfold bracketed_ok in *. rewrite Hips. auto.
Qed.

(** ** Schedules and witnesses *)

Inductive choice := CCall (o : OperationId) (scope : string) | CThread (i : nat) | CInvalidate (o : option OperationId).

Section schedule.
Context {W : Type} `{!ProbeEnv W} {ips : IpLiterals}.
Variable self : EffectiveCapabilityCache.

Definition ready_thread (s : cap W) (ph : phase) : bool :=
  match ph with
  | Waiting id => match sync_heap s !! id with Some f => sf_event f | None => false end
  | Finished _ => false
  | _ => true
  end.

Definition run_choice (c : choice) (x : list phase * cap W) : option (list phase * cap W) :=
  let '(ts, s) := x in
  match c with
  | CCall o scope => Some (ts ++ [Entered o scope], s)
  | CThread i =>
      ph ← ts !! i;
      if ready_thread s ph then
        match advance_thread self ph s with (Ok ph', s') => Some (<[i := ph']> ts, s') | _ => None end
      else None
  | CInvalidate o => Some (ts, (invalidate o s).2)
  end.
Definition run_schedule (cs : list choice) (x : list phase * cap W) : option (list phase * cap W) :=
  foldl (λ o c, o ≫= run_choice c) (Some x) cs.

Lemma run_choice_sound c x y : run_choice c x = Some y → cap_step self x y.
Proof.
  destruct x as [ts s], c as [o scope|i|o]; cbn.
  - intros [= <-]. constructor.
  - destruct (ts !! i) as [ph|] eqn:Ei; [|done]. cbn. destruct (ready_thread s ph) eqn:Er; [|done].
    destruct (advance_thread self ph s) as [[ph'|e] s'] eqn:Ea; [|done]. intros [= <-].
    econstructor; [done| |done]. destruct ph; cbn in *; try done. destruct (sync_heap s !! id) as [f|]; [|done]. by exists f.
  - intros [= <-]. constructor.
Qed.

Lemma run_schedule_sound cs w x : run_schedule cs ([], fresh_cache w) = Some x → cap_reachable self x.
Proof.
  intros H. exists w. unfold run_schedule in H. revert H. generalize (([], fresh_cache w) : list phase * cap W).
  induction cs as [|c cs IH]; intros y; cbn; [intros [= <-]; apply rtc_refl|].
  destruct (run_choice c y) as [z|] eqn:Ez.
  - intros H. eapply rtc_l; [by eapply run_choice_sound|by apply IH].
  - intros H. exfalso. clear -H. induction cs as [|c' cs IH]; [done|]. by apply IH.
Qed.
End schedule.

#[local] Instance sample_literals : IpLiterals := λ _, false.
#[local] Instance sample_probe_clock : Clocked nat := λ t, (Z.of_nat t # 1, S t)%Q.
#[local] Instance sample_probe_env : ProbeEnv nat := {|
  env_probe o w := (Ok (Evidence (probe_evidence RespSuccess)), w); env_loop_closed i w := false
|}.
Definition sample_baseline : EffectiveCapabilityProfile :=
  {| declared_profile := probe_profile;
     capabilities := {[probe_operation := {| cap_operation := probe_spec; cap_state := StAuthenticated; cap_evidence := None |}]} |}.
Definition sample_cache : EffectiveCapabilityCache :=
  {| _declared_profile := probe_profile; _baseline := sample_baseline; has_probe_runner := true;
     has_async_probe_runner := false; _namespace := "default"; _deployment_origin := Some "https://data.example.org";
     _ttl_seconds := 300 |}.

(** Two callers share a probe, which is invalidated; a third starts another. *)
Definition sample_schedule : list choice :=
  [CCall probe_operation "key-1"; CCall probe_operation "key-1"; CCall probe_operation "key-1";
   CThread 0; CThread 0; CThread 1; CThread 1; CInvalidate (Some probe_operation); CThread 2; CThread 2; CThread 0].
Definition sample_run := run_schedule sample_cache sample_schedule ([], fresh_cache 0%nat).
Definition sample_system : list phase * cap nat :=
  match sample_run with Some x => x | None => ([], fresh_cache 0%nat) end.
Definition sample_key : cache_key := _cache_key sample_cache probe_operation "key-1".

Lemma sample_reachable : cap_reachable sample_cache (sample_system.1, sample_system.2).
Proof.
  rewrite <- surjective_pairing. apply (run_schedule_sound sample_cache sample_schedule 0%nat). unfold sample_system.
  change (run_schedule sample_cache sample_schedule ([], fresh_cache 0%nat)) with sample_run.
  assert (H : (match sample_run with Some _ => true | None => false end) = true) by (vm_compute; reflexivity).
  destruct sample_run; [done|discriminate H].
Qed.
Lemma sample_roles : role_of sample_cache <$> sample_system.1 = [RLead sample_key 0; RWait 0; RLead sample_key 1].
Proof. vm_compute. reflexivity. Qed.
Lemma sample_cancelled : sf_cancelled <$> sync_heap sample_system.2 = [true; false].
Proof. vm_compute. reflexivity. Qed.

Lemma capability_single_flight_witness :
  length sample_system.1 = 3%nat ∧
  ∀ i ph id, sample_system.1 !! i = Some ph → role_of sample_cache ph = RLead sample_key id →
    (sf_cancelled <$> sync_heap sample_system.2 !! id) = Some false → i = 2%nat.
Proof.
  split; [rewrite <- (length_fmap (role_of sample_cache)), sample_roles; reflexivity|].
  intros i ph id Hi Hr Hc. apply fmap_Some in Hc as (f & Hf & Hc).
  assert (H2 : (role_of sample_cache <$> sample_system.1) !! 2%nat = Some (RLead sample_key 1)) by (rewrite sample_roles; reflexivity).
  assert (H3 : (sf_cancelled <$> sync_heap sample_system.2) !! 1%nat = Some false) by (rewrite sample_cancelled; reflexivity).
  rewrite list_lookup_fmap in H2. rewrite list_lookup_fmap in H3. apply fmap_Some in H2 as (ph2 & Ht2 & Hr2). apply fmap_Some in H3 as (f2 & Hf2 & Hc2).
  exact (proj1 (capability_single_flight sample_cache _ _ i 2 ph ph2 sample_key id 1 f f2 sample_reachable Hi Ht2 Hr
    (eq_sym Hr2) Hf (eq_sym Hc) Hf2 (eq_sym Hc2))).
Defined.

Lemma capability_waiters_served_witness :
  ∃ id, sample_system.1 !! 1%nat = Some (Waiting id) ∧
    ((∃ f, sync_heap sample_system.2 !! id = Some f ∧ sf_event f = true) ∨
     ∃ j ph k, sample_system.1 !! j = Some ph ∧ role_of sample_cache ph = RLead k id).
Proof.
  assert (Hw : sample_system.1 !! 1%nat = Some (Waiting 0)) by (vm_compute; reflexivity).
  exists 0%nat. split; [exact Hw|].
  destruct (capability_waiters_served sample_cache _ _ 1 0 sample_reachable Hw) as [(f & Hf & He & _)|(j & ph & k & Hj & Hr & _)].
  - left. exists f. split; [exact Hf|exact He].
  - right. exists j, ph, k. split; [exact Hj|exact Hr].
Defined.

Lemma capability_cache_bounded_witness :
  length (cap_log sample_system.2) = 3%nat ∧ (length (_entries sample_system.2) <= 1024)%nat ∧ log_valid (cap_log sample_system.2).
Proof.
  split; [vm_compute; reflexivity|]. exact (proj2 (capability_cache_bounded sample_cache _ _ sample_reachable)).
Defined.

Lemma capability_evidence_witness :
  ∃ p, _profile_from_evidence sample_cache probe_operation (probe_evidence RespSuccess) = Ok p ∧
    gd_allowed (guard_operation p probe_operation) = true.
Proof.
  assert (Hwf : cache_wf sample_cache).
  { split; [exact probe_profile_wf|]. split; [|reflexivity]. split; [reflexivity|]. apply map_Forall_singleton. reflexivity. }
  assert (Ho : is_Some (operations (_declared_profile sample_cache) !! probe_operation)) by (eexists; reflexivity).
  pose proof (capability_evidence sample_cache probe_operation "key-1" (probe_evidence RespSuccess) Hwf Ho) as H.
  assert (Ev : _validate_evidence sample_cache probe_operation (Evidence (probe_evidence RespSuccess)) "key-1" =
    Ok (probe_evidence RespSuccess)) by (vm_compute; reflexivity).
  rewrite Ev in H. destruct H as (_ & _ & _ & _ & _ & p & Hp & _ & Ha & _). exists p. split; [exact Hp|]. apply Ha. reflexivity.
Defined.

Lemma normalize_origin_idempotent_witness :
  _normalize_deployment_origin "https://Data.Example.org/catalog" = Ok "https://data.example.org" ∧
  _normalize_deployment_origin "https://data.example.org" = Ok "https://data.example.org".
Proof.
  assert (E : _normalize_deployment_origin "https://Data.Example.org/catalog" = Ok "https://data.example.org")
    by (vm_compute; reflexivity).
  assert (Hips : ∀ n, bracketed_ok (str_lower n) = bracketed_ok n) by (intros n; reflexivity).
  split; [exact E|]. destruct (normalize_origin_idempotent _ _ Hips E) as (net & _ & _ & _ & _ & H). exact H.
Defined.
