(* ===== verification/Receipts.v ===== *)
(** * Mutation receipts, bulk plans and checkpoints

    [domain/catalog/receipts.py]: the records a mutation or a bulk run leaves,
    their validation and their strict envelopes. *)
From S2P Require Import Prelude PyVal Regex Redaction Json Ids.
From Stdlib Require Import QArith ZArith.
From stdpp Require Import sorting.
Local Close Scope Q_scope.
Local Open Scope Z_scope.

Definition AUDIT_METADATA_PATH : string := "mutation_receipt.audit_metadata".
Definition ATOMICITY_PATH : string := "mutation_receipt.atomicity".

Definition _ATOMICITIES : list string := ["atomic"; "independent"].
Definition _OUTCOMES : list string := ["succeeded"; "rejected"; "failed"; "cancelled"; "ambiguous"; "skipped"].

(** ** Audit metadata *)

Definition _contains_credential_value (value : string) : bool := contains_credential_content (PyStr value).

Definition _require_unaudited_key (key : pyval) (path : string) : result string :=
  k ← as_str (_contract_error path) key;
  raise_if (is_sensitive_record_key k) (_contract_error path);;
  Ok k.

(** A text that redaction would change. *)
Definition leaks (value : pyval) : bool :=
  match value with
  | PyStr s => _contains_credential_value s && negb (bool_decide (redact_string s = s))
  | _ => false
  end.

Section validate.
Variables (path : string) (validate : pyval → string → result pyval).

Fixpoint validate_entries (kvs : list (pyval * pyval)) : result unit :=
  match kvs with
  | [] => Ok tt
  | (key, nested) :: kvs' =>
      k ← _require_unaudited_key key path;
      validate nested (path +:+ "." +:+ k);;
      validate_entries kvs'
  end.
Fixpoint validate_items (l : list pyval) : result unit :=
  match l with
  | [] => Ok tt
  | nested :: l' => validate nested path;; validate_items l'
  end.
End validate.

Fixpoint _validate_redacted_metadata (value : pyval) (path : string) {struct value} : result pyval :=
  raise_if (leaks value) (_contract_error path);;
  match value with
  | PyDict kvs | PyProxy kvs => validate_entries path _validate_redacted_metadata kvs
  | PyList l | PyTuple l => validate_items path _validate_redacted_metadata l
  | _ => Ok tt
  end;;
  _freeze_json _contract_error value path.

Definition _freeze_audit_metadata (value : pyval) : result pydict :=
  raise_if (negb (is_mapping value)) (_contract_error AUDIT_METADATA_PATH);;
  v ← _validate_redacted_metadata value AUDIT_METADATA_PATH;
  match v with
  | PyProxy kvs => copy_entries (_contract_error AUDIT_METADATA_PATH) (λ _ v, Ok v) kvs []
  | _ => Raise (_contract_error AUDIT_METADATA_PATH)
  end.

(** ** MutationReceipt *)

Record MutationReceipt := {
  mr_operation : string; mr_outcome : string; mr_target : CatalogId;
  mr_version_token : option string; mr_request_id : option string;
  mr_atomicity : string; mr_operation_atomicity : string; mr_audit_metadata : pydict
}.

Definition make_mutation_receipt (operation outcome : string) (target : CatalogId)
    (version_token request_id : option string) (atom op_atom : string) (audit : pyval) : result MutationReceipt :=
  _required_text (PyStr operation) "mutation_receipt.operation";;
  raise_if (negb (bool_decide (outcome ∈ _OUTCOMES))) (_contract_error "mutation_receipt.outcome");;
  raise_if (negb (bool_decide (atom ∈ _ATOMICITIES)) || negb (bool_decide (op_atom ∈ _ATOMICITIES)))
    (_contract_error ATOMICITY_PATH);;
  raise_if (bool_decide (atom = "atomic") && negb (bool_decide (op_atom = "atomic")))
    (_contract_error ATOMICITY_PATH);;
  frozen ← _freeze_audit_metadata audit;
  Ok {| mr_operation := operation; mr_outcome := outcome; mr_target := target;
        mr_version_token := version_token; mr_request_id := request_id;
        mr_atomicity := atom; mr_operation_atomicity := op_atom; mr_audit_metadata := frozen |}.

Definition _RECEIPT_KEYS : list string :=
  ["schema_version"; "kind"; "operation"; "outcome"; "target"; "version_token"; "request_id";
   "atomicity"; "operation_atomicity"; "audit_metadata"].

Definition receipt_to_dict (r : MutationReceipt) : pyval :=
  str_dict [("schema_version", PyInt 1); ("kind", PyStr "mutation_receipt");
            ("operation", PyStr (mr_operation r)); ("outcome", PyStr (mr_outcome r));
            ("target", to_wire (mr_target r));
            ("version_token", opt_str (mr_version_token r)); ("request_id", opt_str (mr_request_id r));
            ("atomicity", PyStr (mr_atomicity r)); ("operation_atomicity", PyStr (mr_operation_atomicity r));
            ("audit_metadata", _thaw_json (PyProxy (items_of (mr_audit_metadata r))))].

Definition receipt_from_dict (value : pyval) : result MutationReceipt :=
  data ← open_envelope "mutation_receipt" _RECEIPT_KEYS value;
  v ← field data "operation"; operation ← _required_text v "mutation_receipt.operation";
  v ← field data "outcome"; outcome ← _required_text v "mutation_receipt.outcome";
  v ← field data "target"; target ← from_wire v;
  v ← field data "version_token"; version_token ← _optional_text v "mutation_receipt.version_token";
  v ← field data "request_id"; request_id ← _optional_text v "mutation_receipt.request_id";
  v ← field data "atomicity"; atom ← _required_text v ATOMICITY_PATH;
  v ← field data "operation_atomicity"; op_atom ← _required_text v "mutation_receipt.operation_atomicity";
  v ← field data "audit_metadata"; audit ← _object_dict v AUDIT_METADATA_PATH;
  make_mutation_receipt operation outcome target version_token request_id atom op_atom (str_dict audit).

(** ** BulkPlan *)

Record BulkPlan := {
  bp_operation : string; bp_items : list CatalogId; bp_preview : bool; bp_atomicity : string;
  bp_cancellation_requested : bool; bp_resumption_cursor : option string
}.

Definition make_bulk_plan (operation : string) (items : list CatalogId) (preview : bool) (atom : string)
    (cancel : bool) (cursor : option string) : result BulkPlan :=
  _required_text (PyStr operation) "bulk_plan.operation";;
  raise_if (negb (bool_decide (atom ∈ _ATOMICITIES))) (_contract_error "bulk_plan.atomicity");;
  Ok {| bp_operation := operation; bp_items := items; bp_preview := preview; bp_atomicity := atom;
        bp_cancellation_requested := cancel; bp_resumption_cursor := cursor |}.

Definition _PLAN_KEYS : list string :=
  ["schema_version"; "kind"; "operation"; "items"; "preview"; "atomicity"; "cancellation_requested";
   "resumption_cursor"].

Definition plan_to_dict (p : BulkPlan) : pyval :=
  str_dict [("schema_version", PyInt 1); ("kind", PyStr "bulk_plan");
            ("operation", PyStr (bp_operation p)); ("items", PyList (to_wire <$> bp_items p));
            ("preview", PyBool (bp_preview p)); ("atomicity", PyStr (bp_atomicity p));
            ("cancellation_requested", PyBool (bp_cancellation_requested p));
            ("resumption_cursor", opt_str (bp_resumption_cursor p))].

Definition plan_from_dict (value : pyval) : result BulkPlan :=
  data ← open_envelope "bulk_plan" _PLAN_KEYS value;
  v ← field data "items"; items ← as_list (_contract_error "bulk_plan") v;
  v ← field data "preview"; preview ← as_bool (_contract_error "bulk_plan") v;
  v ← field data "cancellation_requested"; cancel ← as_bool (_contract_error "bulk_plan") v;
  v ← field data "operation"; operation ← _required_text v "bulk_plan.operation";
  ids ← map_res from_wire items;
  v ← field data "atomicity"; atom ← _required_text v "bulk_plan.atomicity";
  v ← field data "resumption_cursor"; cursor ← _optional_text v "bulk_plan.resumption_cursor";
  make_bulk_plan operation ids preview atom cancel cursor.

(** ** BulkItemReceipt *)

Record BulkItemReceipt := { bir_index : Z; bir_receipt : MutationReceipt }.

Definition make_item_receipt (index : Z) (receipt : MutationReceipt) : result BulkItemReceipt :=
  raise_if (index <? 0) (_contract_error "bulk_item_receipt");;
  Ok {| bir_index := index; bir_receipt := receipt |}.

Definition item_receipt_to_dict (r : BulkItemReceipt) : pyval :=
  str_dict [("schema_version", PyInt 1); ("kind", PyStr "bulk_item_receipt");
            ("index", PyInt (bir_index r)); ("receipt", receipt_to_dict (bir_receipt r))].

Definition item_receipt_from_dict (value : pyval) : result BulkItemReceipt :=
  data ← open_envelope "bulk_item_receipt" ["schema_version"; "kind"; "index"; "receipt"] value;
  v ← field data "index"; index ← as_int (_contract_error "bulk_item_receipt.index") v;
  v ← field data "receipt"; receipt ← receipt_from_dict v;
  make_item_receipt index receipt.

(** ** BulkCheckpoint *)

Record BulkCheckpoint := {
  bc_plan : BulkPlan; bc_item_receipts : list BulkItemReceipt;
  bc_cancellation_requested : bool; bc_resumption_cursor : option string
}.

Definition make_checkpoint (plan : BulkPlan) (receipts : list BulkItemReceipt) (cancel : bool)
    (cursor : option string) : result BulkCheckpoint :=
  let indices := bir_index <$> receipts in
  raise_if (negb (bool_decide (indices = merge_sort Z.le indices)) ||
            negb (bool_decide (NoDup indices)) ||
            existsb (λ i, Z.of_nat (length (bp_items plan)) <=? i) indices)
    (_contract_error "bulk_checkpoint.item_receipts");;
  Ok {| bc_plan := plan; bc_item_receipts := receipts; bc_cancellation_requested := cancel;
        bc_resumption_cursor := cursor |}.

Definition _CHECKPOINT_KEYS : list string :=
  ["schema_version"; "kind"; "plan"; "item_receipts"; "cancellation_requested"; "resumption_cursor"].

Definition checkpoint_to_dict (c : BulkCheckpoint) : pyval :=
  str_dict [("schema_version", PyInt 1); ("kind", PyStr "bulk_checkpoint");
            ("plan", plan_to_dict (bc_plan c));
            ("item_receipts", PyList (item_receipt_to_dict <$> bc_item_receipts c));
            ("cancellation_requested", PyBool (bc_cancellation_requested c));
            ("resumption_cursor", opt_str (bc_resumption_cursor c))].

Definition checkpoint_from_dict (value : pyval) : result BulkCheckpoint :=
  data ← open_envelope "bulk_checkpoint" _CHECKPOINT_KEYS value;
  v ← field data "item_receipts"; receipts ← as_list (_contract_error "bulk_checkpoint") v;
  v ← field data "cancellation_requested"; cancel ← as_bool (_contract_error "bulk_checkpoint") v;
  v ← field data "plan"; plan ← plan_from_dict v;
  items ← map_res item_receipt_from_dict receipts;
  v ← field data "resumption_cursor"; cursor ← _optional_text v "bulk_checkpoint.resumption_cursor";
  make_checkpoint plan items cancel cursor.

(** ** What the constructors establish *)

(** No text that redaction would change and no sensitive key, at any depth. *)
Definition key_audited (k : pyval) : bool :=
  match k with PyStr s => negb (is_sensitive_record_key s) | _ => false end.
Fixpoint audited (v : pyval) : bool :=
  negb (leaks v) &&
  match v with
  | PyDict kvs | PyProxy kvs => forallb (λ kv, key_audited kv.1 && audited kv.2) kvs
  | PyList l | PyTuple l => forallb audited l
  | _ => true
  end.

Definition audit_wf (d : pydict) : Prop :=
  frozen_dict d ∧ Forall (λ kv, is_sensitive_record_key kv.1 = false ∧ audited kv.2 = true) d.

Definition receipt_wf (r : MutationReceipt) : Prop :=
  mr_operation r ≠ "" ∧ mr_outcome r ∈ _OUTCOMES ∧ wire_wf (mr_target r) ∧
  mr_atomicity r ∈ _ATOMICITIES ∧ mr_operation_atomicity r ∈ _ATOMICITIES ∧
  (mr_atomicity r = "atomic" → mr_operation_atomicity r = "atomic") ∧ audit_wf (mr_audit_metadata r).

Definition plan_wf (p : BulkPlan) : Prop :=
  bp_operation p ≠ "" ∧ Forall wire_wf (bp_items p) ∧ bp_atomicity p ∈ _ATOMICITIES.

Definition item_receipt_wf (r : BulkItemReceipt) : Prop := 0 <= bir_index r ∧ receipt_wf (bir_receipt r).

(** The receipts are in strictly increasing order of the items of the plan. *)
Definition checkpoint_wf (c : BulkCheckpoint) : Prop :=
  plan_wf (bc_plan c) ∧ Forall item_receipt_wf (bc_item_receipts c) ∧
  StronglySorted Z.lt (bir_index <$> bc_item_receipts c) ∧
  Forall (λ r, bir_index r < Z.of_nat (length (bp_items (bc_plan c)))) (bc_item_receipts c).

(** ** Audit metadata *)

Lemma audited_items (d : pydict) :
  forallb (λ kv, key_audited kv.1 && audited kv.2) (items_of d) = true ↔
  Forall (λ kv, is_sensitive_record_key kv.1 = false ∧ audited kv.2 = true) d.
Proof.
  induction d as [|[k v] d IH]; cbn; [by split|].
  rewrite !andb_true_iff, negb_true_iff, IH, Forall_cons. done.
Qed.

Lemma validate_entries_ok path validate kvs :
  validate_entries path validate kvs = Ok tt ↔
  ∃ d : pydict, kvs = items_of d ∧
    Forall (λ kv, is_sensitive_record_key kv.1 = false ∧ ∃ v', validate kv.2 (path +:+ "." +:+ kv.1) = Ok v') d.
Proof.
  induction kvs as [|[k v] kvs IH]; cbn.
  - split; [by exists []|done].
  - split.
    + intros H. inv_ok. unfold _require_unaudited_key, as_str in *. destruct k; inv_ok.
      match goal with H : validate_entries _ _ _ = Ok ?u |- _ => destruct u; apply IH in H as (d & -> & Hd) end.
      eexists ((_, _) :: d). split; [done|]. constructor; [|done]. eauto.
    + intros (d & E & Hd). destruct d as [|[k' v'] d]; [done|]. injection E as -> -> ->.
      inversion_clear Hd as [|? ? [Hk (y & Hy)] Hd']. cbn in *. rewrite Hk. cbn. rewrite Hy. cbn. apply IH. eauto.
Qed.

Lemma validate_items_ok path validate l :
  validate_items path validate l = Ok tt ↔ Forall (λ v, ∃ v', validate v path = Ok v') l.
Proof.
  induction l as [|x l IH]; cbn; [split; [constructor|done]|]. rewrite Forall_cons, <- IH. split.
  - intros H. inv_ok. match goal with H : validate_items _ _ _ = Ok ?u |- _ => destruct u end. eauto.
  - intros [(y & ->) H]. exact H.
Qed.

#[global] Arguments leaks : simpl never.

Definition validate_children (v : pyval) (path : string) : result unit :=
  match v with
  | PyDict kvs | PyProxy kvs => validate_entries path _validate_redacted_metadata kvs
  | PyList l | PyTuple l => validate_items path _validate_redacted_metadata l
  | _ => Ok tt
  end.
Definition audited_children (v : pyval) : bool :=
  match v with
  | PyDict kvs | PyProxy kvs => forallb (λ kv, key_audited kv.1 && audited kv.2) kvs
  | PyList l | PyTuple l => forallb audited l
  | _ => true
  end.

Lemma audited_eq v : audited v = negb (leaks v) && audited_children v.
Proof. by destruct v. Qed.

Lemma validate_ok_iff v path v' :
  _validate_redacted_metadata v path = Ok v' ↔
  leaks v = false ∧ validate_children v path = Ok tt ∧ _freeze_json _contract_error v path = Ok v'.
Proof.
  assert (_validate_redacted_metadata v path =
    (raise_if (leaks v) (_contract_error path);; validate_children v path;;
     _freeze_json _contract_error v path)) as -> by by destruct v.
  rewrite bind_ok. setoid_rewrite bind_ok. split.
  - intros ([] & ?%raise_if_ok & [] & ? & ?). done.
  - intros (? & ? & ?). exists tt. rewrite raise_if_ok. eauto.
Qed.

(** Validation accepts what freezing accepts and no audit rule forbids. *)
Lemma validate_ok : ∀ v path v',
  _validate_redacted_metadata v path = Ok v' ↔ audited v = true ∧ _freeze_json _contract_error v path = Ok v'.
Proof.
  assert (Hdict : ∀ kvs path d,
    Forall (λ kv : pyval * pyval, ∀ path v', _validate_redacted_metadata kv.2 path = Ok v' ↔
              audited kv.2 = true ∧ _freeze_json _contract_error kv.2 path = Ok v') kvs →
    copy_entries (_contract_error path) (λ k v, _freeze_json _contract_error v (path +:+ "." +:+ k)) kvs [] = Ok d →
    validate_entries path _validate_redacted_metadata kvs = Ok tt ↔
    forallb (λ kv, key_audited kv.1 && audited kv.2) kvs = true).
  { intros kvs path d IH (src & -> & out & Hout & _)%copy_entries_ok. rewrite validate_entries_ok, audited_items.
    split.
    - intros (d' & E & Hd). assert (d' = src) as ->.
      { clear -E. revert d' E. induction src as [|[] src IH]; intros [|[] d'] E; try done. cbn in E.
        injection E as -> -> E. f_equal. by apply IH. }
      clear E Hout. induction Hd as [|[k v] d' [Hk (y & Hy)] _ IHd]; [constructor|].
      cbn in IH. inversion_clear IH as [|? ? Hv IH']. constructor; [|by apply IHd].
      split; [done|]. by apply Hv in Hy as [? _].
    - intros Hd. exists src. split; [done|].
      induction Hout as [|[k v] [k' v'] src out [Hk Hv] _ IHo]; [constructor|].
      cbn in IH. inversion_clear IH as [|? ? Hval IH']. inversion_clear Hd as [|? ? [Hs Ha] Hd'].
      constructor; [|by apply IHo]. split; [done|]. exists v'. by apply Hval. }
  assert (Hlist : ∀ l path ys,
    Forall (λ v, ∀ path v', _validate_redacted_metadata v path = Ok v' ↔
              audited v = true ∧ _freeze_json _contract_error v path = Ok v') l →
    map_res (λ v, _freeze_json _contract_error v path) l = Ok ys →
    validate_items path _validate_redacted_metadata l = Ok tt ↔ forallb audited l = true).
  { intros l path ys IH Hys%map_res_ok. rewrite validate_items_ok, forallb_Forall.
    induction Hys as [|x y l ys Hx _ IHl]; [by split; constructor|]. inversion_clear IH as [|? ? Hval IH'].
    rewrite !Forall_cons, IHl by done. split; intros [H1 H2]; (split; [|done]).
    - destruct H1 as [y' Hy]. by apply Hval in Hy as [? _].
    - exists y. by apply Hval. }
  intros v. induction v as [| | |f| |s t|l IH|l IH|kvs IH|kvs IH|r] using pyval_nested_ind; intros path v';
    rewrite validate_ok_iff, audited_eq, andb_true_iff, negb_true_iff; cbn [validate_children audited_children].
  1-6, 11: by split; [intros (? & _ & ?)|intros ((? & _) & ?)].
  all: match goal with |- _ ∧ ?c ∧ ?f ↔ (_ ∧ ?c') ∧ _ => assert (f → (c ↔ c')) end; [|tauto].
  all: intros Hf; cbn in Hf; apply bind_ok in Hf as (d & Hd & _).
  - exact (Hlist l path d IH Hd).
  - exact (Hlist l path d IH Hd).
  - exact (Hdict kvs path d IH Hd).
  - exact (Hdict kvs path d IH Hd).
Qed.

Lemma audited_freeze error : ∀ v path v',
  _freeze_json error v path = Ok v' → audited v = true → audited v' = true.
Proof.
  assert (Hdict : ∀ kvs path d,
    Forall (λ kv : pyval * pyval, ∀ path v', _freeze_json error kv.2 path = Ok v' →
              audited kv.2 = true → audited v' = true) kvs →
    copy_entries (error path) (λ k v, _freeze_json error v (path +:+ "." +:+ k)) kvs [] = Ok d →
    forallb (λ kv, key_audited kv.1 && audited kv.2) kvs = true →
    forallb (λ kv, key_audited kv.1 && audited kv.2) (items_of d) = true).
  { intros kvs path d IH (src & -> & out & Hout & ->)%copy_entries_ok. rewrite !audited_items. intros Hs.
    apply (dict_merge_Forall_kv (λ k v, is_sensitive_record_key k = false ∧ audited v = true)); [constructor|].
    induction Hout as [|[k v] [k' v'] src out [Hk Hv] _ IHo]; [constructor|].
    cbn in IH. inversion_clear IH as [|? ? Hf IH']. inversion_clear Hs as [|? ? [Hk' Ha] Hs'].
    constructor; [|by apply IHo]. cbn in *. subst k'. split; [done|]. by eapply Hf. }
  assert (Hlist : ∀ l path ys,
    Forall (λ v, ∀ path v', _freeze_json error v path = Ok v' → audited v = true → audited v' = true) l →
    map_res (λ v, _freeze_json error v path) l = Ok ys →
    forallb audited l = true → forallb audited ys = true).
  { intros l path ys IH Hys%map_res_ok. rewrite !forallb_Forall. intros Ha.
    induction Hys as [|x y l ys Hx _ IHl]; [constructor|]. inversion_clear IH as [|? ? Hf IH'].
    inversion_clear Ha. constructor; [by eapply Hf|by apply IHl]. }
  intros v.
  induction v as [| | |[]| |s t|l IH|l IH|kvs IH|kvs IH|r] using pyval_nested_ind; intros path v' Hf;
    cbn [_freeze_json] in Hf; inv_ok; try done; cbn [audited];
    try (intros Ha; apply andb_true_iff in Ha as [_ Ha]; apply andb_true_iff; split; [done|]).
  - by eapply Hlist.
  - by eapply Hlist.
  - by eapply Hdict.
  - by eapply Hdict.
Qed.

Lemma forallb_fmap {A B} (f : A → B) (p : B → bool) l : forallb p (f <$> l) = forallb (p ∘ f) l.
Proof. induction l as [|x l IH]; [done|]. cbn. by rewrite IH. Qed.

Lemma forallb_ext_Forall {A} (p q : A → bool) l : Forall (λ x, p x = q x) l → forallb p l = forallb q l.
Proof. induction 1 as [|x l Hx _ IH]; [done|]. cbn. by rewrite Hx, IH. Qed.

Lemma audited_thaw v : audited (_thaw_json v) = audited v.
Proof.
  induction v as [| | |f| |s t|l IH|l IH|kvs IH|kvs IH|r] using pyval_nested_ind; try done; cbn [_thaw_json audited].
  - f_equal. rewrite forallb_fmap. by apply forallb_ext_Forall.
  - f_equal. rewrite forallb_fmap. apply forallb_ext_Forall.
    eapply Forall_impl; [exact IH|]. intros [k v] E. cbn in *. by rewrite E.
  - f_equal. rewrite forallb_fmap. apply forallb_ext_Forall.
    eapply Forall_impl; [exact IH|]. intros [k v] E. cbn in *. by rewrite E.
Qed.

Lemma freeze_audit_ok v d : _freeze_audit_metadata v = Ok d → audit_wf d.
Proof.
  unfold _freeze_audit_metadata. intros H. apply bind_ok in H as ([] & Hm%raise_if_ok%negb_false_iff & H).
  apply bind_ok in H as (fv & [Ha Hf]%validate_ok & Hd).
  pose proof (freeze_json_frozen _ _ _ _ Hf) as Hfr. pose proof (audited_freeze _ _ _ _ Hf Ha) as Hau.
  destruct v; try done; cbn in Hf; apply bind_ok in Hf as (d0 & Hd0 & Hx); injection Hx as <-;
    unfold frozen in Hfr; cbn in Hfr; apply json_items_inv in Hfr as (d1 & E & Hnd & Hd1);
    rewrite E, copy_entries_id in Hd by done; injection Hd as <-; rewrite E in Hau;
    cbn [audited] in Hau; apply andb_true_iff in Hau as [_ Hau]; apply audited_items in Hau; done.
Qed.

Lemma freeze_audit_audited v d : _freeze_audit_metadata v = Ok d → audited v = true.
Proof.
  unfold _freeze_audit_metadata. intros H. apply bind_ok in H as (u & _ & H).
  by apply bind_ok in H as (f & [Ha _]%validate_ok & _).
Qed.

Lemma freeze_audit_thaw d : audit_wf d → _freeze_audit_metadata (PyDict (items_of (thaw_dict d))) = Ok d.
Proof.
  intros [Hf Ha]. unfold _freeze_audit_metadata. cbn [is_mapping negb raise_if mbind result_bind].
  assert (PyDict (items_of (thaw_dict d)) = _thaw_json (PyProxy (items_of d))) as ->.
  { cbn. by rewrite thaw_items. }
  rewrite (ok_bind _ (PyProxy (items_of d))).
  - apply copy_entries_id. apply Hf.
  - apply validate_ok. rewrite audited_thaw. split; [|by apply freeze_thaw, frozen_proxy].
    cbn [audited]. apply andb_true_iff. split; [done|]. by apply audited_items.
Qed.

(** ** Constructors *)

(** Every failure of the validation is a [DataSluiceError]. *)
Definition is_contract_error (e : exn) : Prop := exn_kind e = DataSluiceError.

Lemma validate_raises v : ∀ path, raises is_contract_error (_validate_redacted_metadata v path).
Proof.
  induction v as [| | |f| |s t|l IH|l IH|kvs IH|kvs IH|r] using pyval_nested_ind; intros path;
    cbn [_validate_redacted_metadata]; (apply raises_bind; [by apply raises_if|intros _ _]);
    (apply raises_bind; [|intros _ _; by apply freeze_json_raises]); try apply raises_ok.
  1-2: induction IH as [|x l Hx _ IHl]; [apply raises_ok|]; cbn; apply raises_bind; auto.
  all: induction IH as [|[k v] kvs Hx _ IHl]; [apply raises_ok|]; cbn; apply raises_bind;
    [|intros; apply raises_bind; auto].
  all: unfold _require_unaudited_key; apply raises_bind;
    [destruct k; first [apply raises_ok | by apply raises_raise]|].
  all: intros; apply raises_bind; [by apply raises_if|intros; apply raises_ok].
Qed.

Lemma make_receipt_raises op out target vt rid a oa audit :
  raises is_contract_error (make_mutation_receipt op out target vt rid a oa audit).
Proof.
  unfold make_mutation_receipt, _required_text, _freeze_audit_metadata.
  repeat first [by apply raises_if | apply raises_ok | by apply raises_raise | apply validate_raises
    | apply raises_bind; [|intros ? _]
    | apply copy_entries_raises; [done|apply Forall_true; intros; apply raises_ok] | case_match ].
Qed.

Lemma make_receipt_ok op out target vt rid a oa audit r :
  make_mutation_receipt op out target vt rid a oa audit = Ok r → wire_wf target →
  receipt_wf r ∧ mr_operation r = op ∧ mr_outcome r = out ∧ mr_target r = target ∧
  mr_version_token r = vt ∧ mr_atomicity r = a ∧ mr_operation_atomicity r = oa.
Proof.
  unfold make_mutation_receipt. intros H Ht.
  apply bind_ok in H as (op' & [[= <-] Hop]%required_text_ok & H).
  apply bind_ok in H as ([] & Hout%raise_if_ok%negb_false_iff%bool_decide_eq_true & H).
  apply bind_ok in H as ([] & Ha%raise_if_ok & H). apply bind_ok in H as ([] & Hoa%raise_if_ok & H).
  apply bind_ok in H as (d & Hd%freeze_audit_ok & [= <-]).
  apply orb_false_iff in Ha as [Ha1%negb_false_iff%bool_decide_eq_true Ha2%negb_false_iff%bool_decide_eq_true].
  unfold receipt_wf; cbn. split_and!; try done.
  intros ->. rewrite bool_decide_eq_true_2 in Hoa by done. by apply negb_false_iff, bool_decide_eq_true in Hoa.
Qed.

Lemma make_receipt_total op out target vt rid a oa audit d :
  op ≠ "" → out ∈ _OUTCOMES → a ∈ _ATOMICITIES → oa ∈ _ATOMICITIES → (a = "atomic" → oa = "atomic") →
  _freeze_audit_metadata audit = Ok d →
  make_mutation_receipt op out target vt rid a oa audit =
  Ok {| mr_operation := op; mr_outcome := out; mr_target := target; mr_version_token := vt; mr_request_id := rid;
        mr_atomicity := a; mr_operation_atomicity := oa; mr_audit_metadata := d |}.
Proof.
  intros Hop Hout Ha Hoa Hatom Hd. unfold make_mutation_receipt.
  rewrite (ok_bind _ op) by by apply required_text_str.
  rewrite guard_bind by by rewrite bool_decide_eq_true_2.
  rewrite guard_bind by by rewrite !bool_decide_eq_true_2.
  rewrite guard_bind.
  2:{ case_bool_decide; [|done]. by rewrite bool_decide_eq_true_2 by auto. }
  by rewrite Hd.
Qed.

Lemma literals_nonempty o : o ∈ _OUTCOMES ∨ o ∈ _ATOMICITIES → o ≠ "".
Proof.
  assert ("" ∉ _OUTCOMES ∧ "" ∉ _ATOMICITIES) as [? ?] by (split; apply (bool_decide_unpack _); reflexivity).
  by intros [?|?] ->.
Qed.

(** [decode] runs the next decoding step of a round trip. *)
Ltac decode :=
  cbn beta; erewrite ok_bind by first
    [ apply optional_text_opt
    | apply required_text_str; first [done | apply literals_nonempty; by auto]
    | by apply wire_roundtrip
    | by apply map_wire
    | reflexivity ].

Lemma receipt_roundtrip r : receipt_wf r → receipt_from_dict (receipt_to_dict r) = Ok r.
Proof.
  intros (Hop & Hout & Ht & Ha & Hoa & Hatom & Hd).
  unfold receipt_from_dict, receipt_to_dict. envelope. literal_fields. do 7 decode.
  cbn [_thaw_json]. rewrite thaw_items.
  erewrite ok_bind; [|apply object_dict_str_dict; rewrite thaw_dict_keys; apply Hd].
  erewrite make_receipt_total; [|done..|by apply freeze_audit_thaw]. by destruct r.
Qed.

Lemma receipt_sound v r : receipt_from_dict v = Ok r → receipt_wf r.
Proof.
  unfold receipt_from_dict. intros. inv_ok.
  match goal with H : from_wire _ = Ok _ |- _ => apply wire_sound in H end.
  match goal with H : make_mutation_receipt _ _ _ _ _ _ _ _ = Ok _ |- _ => by apply make_receipt_ok in H as [? _] end.
Qed.

#[global] Instance receipt_wire : Wire MutationReceipt := {|
  wire_roundtrip := receipt_roundtrip;
  wire_sound := receipt_sound
|}.

Lemma make_plan_total op items preview a cancel cursor :
  op ≠ "" → a ∈ _ATOMICITIES →
  make_bulk_plan op items preview a cancel cursor =
  Ok {| bp_operation := op; bp_items := items; bp_preview := preview; bp_atomicity := a;
        bp_cancellation_requested := cancel; bp_resumption_cursor := cursor |}.
Proof.
  intros. unfold make_bulk_plan. rewrite (ok_bind _ op) by by apply required_text_str.
  by rewrite guard_bind by by rewrite bool_decide_eq_true_2.
Qed.

Lemma plan_roundtrip p : plan_wf p → plan_from_dict (plan_to_dict p) = Ok p.
Proof.
  intros (Hop & Hitems & Ha). unfold plan_from_dict, plan_to_dict. envelope. literal_fields.
  cbn [as_list as_bool mbind result_bind]. do 4 decode. rewrite make_plan_total by done. by destruct p.
Qed.

Lemma plan_sound v p : plan_from_dict v = Ok p → plan_wf p.
Proof.
  unfold plan_from_dict. intros. inv_ok.
  match goal with H : map_res from_wire _ = Ok _ |- _ => apply map_wire_sound in H end.
  unfold make_bulk_plan in *. inv_ok.
  match goal with H : _required_text (PyStr ?s) _ = Ok _ |- _ => apply required_text_ok in H as [[= ->] ?] end.
  match goal with H : negb _ = false |- _ => apply negb_false_iff, bool_decide_eq_true in H end. done.
Qed.

#[global] Instance plan_wire : Wire BulkPlan := {|
  wire_roundtrip := plan_roundtrip;
  wire_sound := plan_sound
|}.

Lemma item_receipt_roundtrip r : item_receipt_wf r → item_receipt_from_dict (item_receipt_to_dict r) = Ok r.
Proof.
  intros (Hi & Hr). unfold item_receipt_from_dict, item_receipt_to_dict. envelope. literal_fields.
  cbn [as_int mbind result_bind]. rewrite receipt_roundtrip by done. cbn. unfold make_item_receipt.
  rewrite guard_bind by by apply Z.ltb_ge. by destruct r.
Qed.

Lemma make_item_receipt_ok i r x : make_item_receipt i r = Ok x → 0 <= i ∧ bir_index x = i ∧ bir_receipt x = r.
Proof. unfold make_item_receipt. intros. inv_ok. by qbool. Qed.

Lemma item_receipt_sound v r : item_receipt_from_dict v = Ok r → item_receipt_wf r.
Proof.
  unfold item_receipt_from_dict. intros. inv_ok.
  match goal with H : receipt_from_dict _ = Ok _ |- _ => apply receipt_sound in H end.
  match goal with H : make_item_receipt _ _ = Ok _ |- _ => apply make_item_receipt_ok in H as (? & ? & ?) end.
  subst. split; congruence.
Qed.

#[global] Instance item_receipt_wire : Wire BulkItemReceipt := {|
  wire_roundtrip := item_receipt_roundtrip;
  wire_sound := item_receipt_sound
|}.

(** [indices == tuple(sorted(indices))] without duplicates: strictly increasing. *)
Lemma strictly_sorted_iff (l : list Z) :
  l = merge_sort Z.le l ∧ NoDup l ↔ StronglySorted Z.lt l.
Proof.
  split.
  - intros [E Hnd]. assert (Hs : StronglySorted Z.le l).
    { rewrite E. apply (StronglySorted_merge_sort Z.le). }
    clear E. induction Hs as [|x l Hs IH Hx]; [constructor|]. apply NoDup_cons in Hnd as [Hni Hnd].
    constructor; [by apply IH|]. apply Forall_forall. intros y Hy. rewrite Forall_forall in Hx.
    specialize (Hx y Hy). assert (x ≠ y) by (by intros ->). lia.
  - intros Hs. split.
    + assert (Hle : StronglySorted Z.le l).
      { induction Hs as [|x l Hs IH Hx]; constructor; [done|]. eapply Forall_impl; [done|]. cbn. lia. }
      apply (StronglySorted_unique Z.le); [done|apply (StronglySorted_merge_sort Z.le)|].
      symmetry. apply merge_sort_Permutation.
    + induction Hs as [|x l Hs IH Hx]; [constructor|]. constructor; [|done]. intros Hin.
      rewrite Forall_forall in Hx. specialize (Hx x Hin). lia.
Qed.

Lemma make_checkpoint_iff plan items cancel cursor c :
  make_checkpoint plan items cancel cursor = Ok c ↔
  c = {| bc_plan := plan; bc_item_receipts := items; bc_cancellation_requested := cancel;
         bc_resumption_cursor := cursor |} ∧
  StronglySorted Z.lt (bir_index <$> items) ∧
  Forall (λ r, bir_index r < Z.of_nat (length (bp_items plan))) items.
Proof.
  unfold make_checkpoint. rewrite bind_ok. split.
  - intros ([] & [Hs He]%raise_if_ok%orb_false_iff & [= <-]). split; [done|]. split.
    + apply strictly_sorted_iff. apply orb_false_iff in Hs as [Hs Hnd].
      by split; apply (bool_decide_unpack _), Is_true_true, negb_false_iff.
    + apply Forall_forall. intros r Hr. apply Z.lt_nge. intros Hle.
      apply (not_true_iff_false _) in He. apply He, existsb_exists. exists (bir_index r).
      split; [|by apply Z.leb_le]. apply list_elem_of_In. by apply list_elem_of_fmap_2.
  - intros (-> & [Es Hnd]%strictly_sorted_iff & Hlt). exists tt. split; [|done].
    apply raise_if_ok. rewrite <- Es. rewrite !bool_decide_eq_true_2 by done. cbn.
    apply not_true_iff_false. intros (i & Hi & Hle)%existsb_exists.
    apply list_elem_of_In, list_elem_of_fmap in Hi as (r & -> & Hr). rewrite Forall_forall in Hlt.
    specialize (Hlt r Hr). apply Z.leb_le in Hle. lia.
Qed.

Lemma checkpoint_roundtrip c : checkpoint_wf c → checkpoint_from_dict (checkpoint_to_dict c) = Ok c.
Proof.
  intros (Hp & Hr & Hs & Hlt). unfold checkpoint_from_dict, checkpoint_to_dict. envelope. literal_fields.
  cbn [as_list as_bool mbind result_bind]. rewrite plan_roundtrip by done. cbn [mbind result_bind].
  change item_receipt_from_dict with (@from_wire BulkItemReceipt _).
  change item_receipt_to_dict with (@to_wire BulkItemReceipt _). do 2 decode.
  apply make_checkpoint_iff. by destruct c.
Qed.

Lemma checkpoint_sound v c : checkpoint_from_dict v = Ok c → checkpoint_wf c.
Proof.
  unfold checkpoint_from_dict. intros. inv_ok.
  match goal with H : make_checkpoint _ _ _ _ = Ok _ |- _ => apply make_checkpoint_iff in H as (-> & ? & ?) end.
  match goal with H : plan_from_dict _ = Ok _ |- _ => apply plan_sound in H end.
  change item_receipt_from_dict with (@from_wire BulkItemReceipt _) in *.
  match goal with H : map_res _ _ = Ok _ |- _ => apply (map_wire_sound (A := BulkItemReceipt)) in H end.
  done.
Qed.

#[global] Instance checkpoint_wire : Wire BulkCheckpoint := {|
  wire_roundtrip := checkpoint_roundtrip;
  wire_sound := checkpoint_sound
|}.

(** ** Properties *)

(** checkpoints survive their envelope: decoding the envelope of a
    well-formed checkpoint, with its plan, its item receipts and their audit
    metadata, gives the checkpoint back, and the strict decoder accepts no
    envelope whose checkpoint would not be well formed (identifiers, outcomes
    and atomicities valid, receipts strictly ordered and inside the plan). *)
Theorem checkpoint_envelope (c : BulkCheckpoint) (v : pyval) :
  (checkpoint_wf c → checkpoint_from_dict (checkpoint_to_dict c) = Ok c) ∧
  (checkpoint_from_dict v = Ok c → checkpoint_wf c).
Proof. split; [apply checkpoint_roundtrip|apply checkpoint_sound]. Qed.

(** whatever metadata a caller supplies, a receipt that is built at all
    holds only frozen JSON without a sensitive key or a text redaction would
    change, at any depth. *)
Theorem receipt_metadata_audited op out target vt rid a oa audit r :
  make_mutation_receipt op out target vt rid a oa audit = Ok r →
  frozen_dict (mr_audit_metadata r) ∧ audited (PyDict (items_of (mr_audit_metadata r))) = true.
Proof.
  unfold make_mutation_receipt. intros. inv_ok.
  match goal with H : _freeze_audit_metadata _ = Ok _ |- _ => apply freeze_audit_ok in H as [Hf Ha] end.
  split; [done|]. cbn [mr_audit_metadata audited]. apply andb_true_iff. split; [done|]. by apply audited_items.
Qed.

(** ** Witnesses *)

Definition sample_target : CatalogId :=
  {| id_platform := {| platform_value := "ckan" |}; id_resource_kind := {| kind_value := "dataset" |};
     id_value := "Air 2024" |}.
Definition sample_receipt : MutationReceipt :=
  {| mr_operation := "ckan/datasets.update"; mr_outcome := "succeeded"; mr_target := sample_target;
     mr_version_token := Some "v1"; mr_request_id := None; mr_atomicity := "independent";
     mr_operation_atomicity := "independent";
     mr_audit_metadata := [("attempt", PyInt 1); ("tags", PyTuple [PyStr "air"; PyNone])] |}.
Definition sample_plan : BulkPlan :=
  {| bp_operation := "ckan/datasets.update"; bp_items := [sample_target; sample_target; sample_target];
     bp_preview := false; bp_atomicity := "independent"; bp_cancellation_requested := false;
     bp_resumption_cursor := None |}.
Definition sample_checkpoint : BulkCheckpoint :=
  {| bc_plan := sample_plan;
     bc_item_receipts := [{| bir_index := 0; bir_receipt := sample_receipt |};
                          {| bir_index := 2; bir_receipt := sample_receipt |}];
     bc_cancellation_requested := true; bc_resumption_cursor := Some "1" |}.

Lemma checkpoint_envelope_witness :
  checkpoint_from_dict (checkpoint_to_dict sample_checkpoint) = Ok sample_checkpoint ∧ checkpoint_wf sample_checkpoint.
Proof.
  assert (E : checkpoint_from_dict (checkpoint_to_dict sample_checkpoint) = Ok sample_checkpoint)
    by (vm_compute; reflexivity).
  assert (Hwf : checkpoint_wf sample_checkpoint)
    by exact (proj2 (checkpoint_envelope sample_checkpoint (checkpoint_to_dict sample_checkpoint)) E).
  split; [|exact Hwf]. exact (proj1 (checkpoint_envelope sample_checkpoint PyNone) Hwf).
Defined.

Lemma receipt_metadata_audited_witness :
  make_mutation_receipt "ckan/datasets.update" "succeeded" sample_target (Some "v1") None "independent" "independent"
    (str_dict [("attempt", PyInt 1); ("tags", PyList [PyStr "air"; PyNone])]) = Ok sample_receipt ∧
  audited (PyDict (items_of (mr_audit_metadata sample_receipt))) = true.
Proof.
  assert (E : make_mutation_receipt "ckan/datasets.update" "succeeded" sample_target (Some "v1") None
    "independent" "independent" (str_dict [("attempt", PyInt 1); ("tags", PyList [PyStr "air"; PyNone])])
    = Ok sample_receipt) by (vm_compute; reflexivity).
  split; [exact E|]. exact (proj2 (receipt_metadata_audited _ _ _ _ _ _ _ _ _ E)).
Defined.
