(* ===== verification/Projection.v ===== *)
(** * Projections of platform records

    The two ways [domain/catalog/models.py] shows a record: the redacted copy of
    its runtime fields ([redact_record_payload]) and the bounded projection
    ([_record_projection]), whose structural form is the evidence that may be
    retained.  The node budget the projections share is a one-element list of
    the caller; here it is the state. *)
From Stdlib Require Import ZArith Lia Ascii.
From stdpp Require Import strings.
From S2P Require Import Prelude PyVal Regex Redaction Json.
Local Open Scope Z_scope.
Local Open Scope py_scope.

Definition _MAX_RECORD_NODES : nat := 256.
Definition _PRIVATE_RECORD_PARTS : list string :=
  ["private"; "internal"; "email"; "e_mail"; "phone"; "address"; "contact"; "origin"].

(** ** The redacted copy *)

(** The loop over the items: keys that are no strings are dropped. *)
Definition redact_fields (f : pyval → result pyval) : list (pyval * pyval) → pydict → result pydict :=
  fix go kvs acc {struct kvs} :=
    match kvs with
    | [] => Ok acc
    | (PyStr key, nested) :: kvs' =>
        v ← (if is_sensitive_record_key key then Ok (PyStr REDACTED) else f nested);
        go kvs' (dict_set key v acc)
    | _ :: kvs' => go kvs' acc
    end.

(** [repr] of an object may raise. *)
Fixpoint _redacted_record_value (depth : nat) (value : pyval) : result pyval :=
  let payload kvs :=
    d ← redact_fields (_redacted_record_value (S depth)) kvs [];
    Ok (str_dict d) in
  let items l := ys ← map_res (_redacted_record_value (S depth)) l; Ok (PyList ys) in
  match value with
  | PyStr s => Ok (PyStr (redact_string s))
  | PyBytes _ text => Ok (PyStr (redact_string text))
  | PyNone | PyBool _ | PyInt _ | PyFloat _ => Ok value
  | _ =>
      if (MAX_METADATA_DEPTH <=? depth)%nat then Ok (PyStr TRUNCATED)
      else match value with
           | PyDict kvs | PyProxy kvs => payload kvs
           | PyList l | PyTuple l => items l
           | PyObject (Some r) => Ok (PyStr (redact_string r))
           | _ => Raise (err OtherException "repr")
           end
  end.

Definition redact_record_payload (value : list (pyval * pyval)) : result pydict :=
  redact_fields (_redacted_record_value 1) value [].

(** ** The bounded projection *)

Definition _structural_scalar (value : pyval) : string :=
  match value with
  | PyNone => "null"
  | PyStr _ => "string"
  | PyBool _ => "boolean"
  | PyInt _ => "integer"
  | PyFloat _ => "number"
  | _ => "unknown"
  end.

(** [value.bit_length()] *)
Definition bit_length (z : Z) : Z := if z =? 0 then 0 else Z.log2 (Z.abs z) + 1.

Definition private_name (name : string) : bool :=
  let normalized := replace_char "-"%char "_"%char (str_lower name) in
  is_sensitive_record_key name || existsb (λ part, str_contains part normalized) _PRIVATE_RECORD_PARTS.

(** [_mark_truncation] on a list and on a dictionary *)
Definition mark_list (source_size : nat) (output : list pyval) : list pyval :=
  if (source_size <=? length output)%nat then output
  else (if (length output =? MAX_METADATA_ENTRIES)%nat then removelast output else output) ++ [PyStr TRUNCATED].
Definition mark_dict (source_size : nat) (output : pydict) : pydict :=
  if (source_size <=? length output)%nat then output
  else dict_set TRUNCATED (PyStr TRUNCATED)
         (if (length output =? MAX_METADATA_ENTRIES)%nat then removelast output else output).

(** [_record_projection] of a value that is no container, once it was paid for *)
Definition scalar_projection (structural : bool) (value : pyval) : pyval :=
  if structural then PyStr (_structural_scalar value)
  else match value with
       | PyStr s => PyStr (redact_string s)
       | PyInt z => if Z.of_nat MAX_TEXT_LENGTH * 3 <? bit_length z then PyStr TRUNCATED else value
       | _ => value
       end.

(** The entry check: no budget or too deep, else one node is paid. *)
Definition spend (depth : nat) (k : M nat pyval) : M nat pyval :=
  budget ← read (λ b, b);
  if (budget =? 0)%nat || (MAX_METADATA_DEPTH <=? depth)%nat then mret (PyStr TRUNCATED)
  else modify pred;; k.

(** The loops of [_container_projection] over the first [n] entries, which stop
    when the budget is used up. *)
Definition project_items {A} (project : A → M nat pyval) : nat → list A → M nat (list pyval) :=
  fix go n l {struct l} :=
    match l, n with
    | nested :: l', S n' =>
        budget ← read (λ b, b);
        if (budget =? 0)%nat then mret []
        else x ← project nested; xs ← go n' l'; mret (x :: xs)
    | _, _ => mret []
    end.
Definition project_fields (project : pyval → M nat pyval) (masked : M nat pyval)
  : nat → list (pyval * pyval) → pydict → M nat pydict :=
  fix go n kvs fields {struct kvs} :=
    match kvs, n with
    | (key, nested) :: kvs', S n' =>
        budget ← read (λ b, b);
        if (budget =? 0)%nat then mret fields
        else match key with
             | PyStr name =>
                 x ← (if private_name name then masked else project nested);
                 go n' kvs' (dict_set (redact_string name) x fields)
             | _ => throw (err OtherException "AttributeError: lower")
             end
    | _, _ => mret fields
    end.

Fixpoint _record_projection (structural : bool) (depth : nat) (value : pyval) {struct value} : M nat pyval :=
  let described type size entries :=
    str_dict [("type", PyStr type); ("size", PyInt (Z.of_nat size)); ("entries", PyList (mark_list size entries))] in
  let sequence l :=
    entries ← project_items (_record_projection structural (S depth)) MAX_METADATA_ENTRIES l;
    mret (if structural then described "array" (length l) entries else PyList (mark_list (length l) entries)) in
  let mapping (kvs : list (pyval * pyval)) :=
    if structural then
      entries ← project_items (λ kv, _record_projection structural (S depth) kv.2) MAX_METADATA_ENTRIES kvs;
      mret (described "object" (length kvs) entries)
    else
      fields ← project_fields (_record_projection structural (S depth))
                 (spend (S depth) (mret (scalar_projection structural (PyStr REDACTED)))) MAX_METADATA_ENTRIES kvs [];
      mret (str_dict (mark_dict (length kvs) fields)) in
  spend depth
    match value with
    | PyDict kvs | PyProxy kvs => mapping kvs
    | PyTuple l | PyList l => sequence l
    | _ => mret (scalar_projection structural value)
    end.

Definition _serialized_record_payload (value : list (pyval * pyval)) : result pyval :=
  (_record_projection false 0 (PyDict value) _MAX_RECORD_NODES).1.

Definition _record_evidence (kind : string) (value : pyval) : result pyval :=
  v ← (_record_projection true 0 value _MAX_RECORD_NODES).1;
  Ok (str_dict [("schema_version", PyInt 1); ("kind", PyStr (kind +:+ "_evidence")); ("value", v)]).

(** ** What a projection depends on *)

(** The shape of a value: the types of its scalars and the sizes of its
    containers, without keys and values. *)
Fixpoint skeleton (v : pyval) : pyval :=
  match v with
  | PyNone => PyNone
  | PyStr _ => PyStr ""
  | PyBool _ => PyBool false
  | PyInt _ => PyInt 0
  | PyFloat _ => PyFloat FNan
  | PyBytes _ _ | PyObject _ => PyObject None
  | PyList l | PyTuple l => PyList (skeleton <$> l)
  | PyDict kvs | PyProxy kvs => PyDict ((λ kv, (PyNone, skeleton kv.2)) <$> kvs)
  end.

(** A value without what its private fields hold. *)
Definition mask_field (mask : pyval → pyval) (kv : pyval * pyval) : pyval * pyval :=
  (kv.1, if match kv.1 with PyStr name => private_name name | _ => false end then PyNone else mask kv.2).
Fixpoint mask (v : pyval) : pyval :=
  match v with
  | PyList l | PyTuple l => PyList (mask <$> l)
  | PyDict kvs | PyProxy kvs => PyDict (mask_field mask <$> kvs)
  | _ => v
  end.

Lemma project_items_map {A B} (f : A → M nat pyval) (g : B → M nat pyval) (h : A → B) l :
  Forall (λ x, ∀ b, f x b = g (h x) b) l → ∀ n b, project_items f n l b = project_items g n (h <$> l) b.
Proof.
  induction 1 as [|x l Hx _ IH]; intros n b; [by destruct n|]. destruct n as [|n]; [done|].
  cbn. unfold mbind, M_bind, read. cbn. destruct (b =? 0)%nat; [done|]. rewrite Hx.
  destruct (g (h x) b) as [[y|e] b']; [|done]. by rewrite IH.
Qed.

Lemma project_fields_map f g m (h : pyval * pyval → pyval * pyval) kvs :
  Forall (λ kv, (h kv).1 = kv.1 ∧
     ∀ name, kv.1 = PyStr name → private_name name = false → ∀ b, f kv.2 b = g (h kv).2 b) kvs →
  ∀ n acc b, project_fields f m n kvs acc b = project_fields g m n (h <$> kvs) acc b.
Proof.
  induction 1 as [|[k v] kvs [Hk Hv] _ IH]; intros n acc b; [by destruct n|].
  cbn [fmap list_fmap]. destruct (h (k, v)) as [k' v'] eqn:E. cbn in Hk, Hv. subst k'. destruct n as [|n]; [done|].
  cbn. unfold mbind, M_bind, read. cbn. destruct (b =? 0)%nat; [done|].
  destruct k as [| | | |s| | | | | |]; try done. destruct (private_name s) eqn:Es.
  - destruct (m b) as [[y|e] b']; [|done]. by rewrite IH.
  - rewrite (Hv s) by done. destruct (g v' b) as [[y|e] b']; [|done]. by rewrite IH.
Qed.

Lemma spend_ext depth k k' : (∀ b, k b = k' b) → ∀ b, spend depth k b = spend depth k' b.
Proof.
  intros Hk b. unfold spend, mbind, M_bind, read, modify. destruct ((b =? 0)%nat || _); [done|]. apply Hk.
Qed.

Lemma bind_ext {S A B} (m m' : M S A) (k : A → M S B) : (∀ b, m b = m' b) → ∀ b, (m ≫= k) b = (m' ≫= k) b.
Proof. intros Hm b. unfold mbind, M_bind. by rewrite Hm. Qed.

Lemma projection_skeleton v : ∀ depth b, _record_projection true depth v b = _record_projection true depth (skeleton v) b.
Proof.
  induction v as [|bb|zz|f|ss|s t|l IH|l IH|kvs IH|kvs IH|r] using pyval_nested_ind; intros depth b;
    cbn [_record_projection skeleton]; try done; apply spend_ext; intros b'.
  - rewrite length_fmap. apply bind_ext, project_items_map. eapply Forall_impl; [exact IH|]. cbn. auto.
  - rewrite length_fmap. apply bind_ext, project_items_map. eapply Forall_impl; [exact IH|]. cbn. auto.
  - rewrite length_fmap. apply bind_ext.
    apply (project_items_map _ (λ kv, _record_projection true (S depth) kv.2)).
    eapply Forall_impl; [exact IH|]. cbn. auto.
  - rewrite length_fmap. apply bind_ext.
    apply (project_items_map _ (λ kv, _record_projection true (S depth) kv.2)).
    eapply Forall_impl; [exact IH|]. cbn. auto.
Qed.

Lemma mask_field_ok (f g : pyval → M nat pyval) kvs :
  Forall (λ kv, ∀ b, f kv.2 b = g (mask kv.2) b) kvs →
  Forall (λ kv, (mask_field mask kv).1 = kv.1 ∧
     ∀ name, kv.1 = PyStr name → private_name name = false → ∀ b, f kv.2 b = g (mask_field mask kv).2 b) kvs.
Proof.
  intros H. eapply Forall_impl; [exact H|]. intros [k v] Hv. split; [done|]. cbn. intros name -> -> b. apply Hv.
Qed.

Lemma projection_mask v : ∀ depth b, _record_projection false depth v b = _record_projection false depth (mask v) b.
Proof.
  induction v as [|bb|zz|f|ss|s t|l IH|l IH|kvs IH|kvs IH|r] using pyval_nested_ind; intros depth b;
    cbn [_record_projection mask]; try done; apply spend_ext; intros b'; rewrite length_fmap; apply bind_ext.
  - apply project_items_map. eapply Forall_impl; [exact IH|]. cbn. auto.
  - apply project_items_map. eapply Forall_impl; [exact IH|]. cbn. auto.
  - apply project_fields_map, mask_field_ok. eapply Forall_impl; [exact IH|]. cbn. auto.
  - apply project_fields_map, mask_field_ok. eapply Forall_impl; [exact IH|]. cbn. auto.
Qed.

(** ** What a projection may hold *)

Fixpoint nodes (v : pyval) : nat :=
  match v with
  | PyList l | PyTuple l => S (sum_list_with nodes l)
  | PyDict kvs | PyProxy kvs => S (sum_list_with (λ kv, nodes kv.2) kvs)
  | _ => 1
  end.

(** Every text, keys included, has at most [MAX_TEXT_LENGTH] characters. *)
Fixpoint short (v : pyval) : bool :=
  match v with
  | PyStr s => (String.length s <=? MAX_TEXT_LENGTH)%nat
  | PyList l | PyTuple l => forallb short l
  | PyDict kvs | PyProxy kvs =>
      forallb (λ kv, match kv.1 with PyStr k => (String.length k <=? MAX_TEXT_LENGTH)%nat | _ => false end && short kv.2) kvs
  | _ => true
  end.

(** Nodes a visited entry can cost at most: itself, its 32 children and the
    marker, and the three fields of a description. *)
Definition per_node : nat := 37.
Definition fits (d : nat) (v : pyval) : Prop := (py_depth v ≤ d)%nat ∧ short v = true ∧ plain v = true.
Definition paid (d : nat) (v : pyval) (b b' : nat) : Prop :=
  (b' ≤ b)%nat ∧ (nodes v ≤ per_node * (b - b') + 1)%nat ∧ fits d v.
Definition pays (d : nat) (m : M nat pyval) : Prop := ∀ b, ∃ v b', m b = (Ok v, b') ∧ paid d v b b'.

Lemma fits_mono d d' v : (d ≤ d')%nat → fits d v → fits d' v.
Proof. intros Hd (? & ? & ?). split_and!; [lia|done..]. Qed.

Lemma paid_scalar d v b : nodes v = 1%nat → fits d v → paid d v b b.
Proof. intros Hn Hf. split_and!; [lia| |done]. lia. Qed.

Lemma project_items_pays {A} d (f : A → M nat pyval) l : Forall (λ x, pays d (f x)) l → ∀ n b,
  ∃ ys b', project_items f n l b = (Ok ys, b') ∧ (b' ≤ b)%nat ∧ (length ys ≤ n)%nat ∧ (length ys ≤ length l)%nat ∧
    (sum_list_with nodes ys ≤ per_node * (b - b') + length ys)%nat ∧ Forall (fits d) ys.
Proof.
  induction 1 as [|x l Hx _ IH]; intros n b.
  { exists [], b. destruct n; cbn; split_and!; (done || lia). }
  destruct n as [|n]; [exists [], b; cbn; split_and!; (done || lia)|].
  cbn [project_items]. unfold mbind, M_bind, read. destruct (Nat.eqb_spec b 0) as [E|E].
  { exists [], b. cbn. split_and!; (done || lia). }
  destruct (Hx b) as (y & b1 & -> & Hb1 & Hn1 & Hf1). destruct (IH n b1) as (ys & b2 & -> & ? & ? & ? & Hs & Hfs).
  exists (y :: ys), b2. cbn. split_and!; [done|lia..| |by constructor]. unfold per_node in *. lia.
Qed.

Definition weight (d : pydict) : nat := sum_list_with (λ kv, nodes kv.2) d.

Lemma nodes_dict d : nodes (str_dict d) = S (weight d).
Proof. unfold weight, str_dict. cbn. f_equal. induction d as [|[k v] d IH]; [done|]. cbn in *. by rewrite IH. Qed.

Lemma weight_set k v d : (weight (dict_set k v d) ≤ weight d + nodes v)%nat.
Proof. unfold weight. induction d as [|[k' v'] d IH]; cbn; [lia|]. case_bool_decide; cbn; lia. Qed.

Definition field_fits (d : nat) (kv : string * pyval) : Prop :=
  (String.length kv.1 ≤ MAX_TEXT_LENGTH)%nat ∧ fits d kv.2.
Definition dict_fits (d : nat) (fields : pydict) : Prop := NoDup fields.*1 ∧ Forall (field_fits d) fields.

Lemma dict_set_NoDup {V} k (v : V) d : NoDup d.*1 → NoDup (dict_set k v d).*1.
Proof.
  intros Hd. rewrite dict_set_keys. case_bool_decide; [done|]. apply NoDup_app. split_and!; [done| |apply NoDup_singleton].
  set_solver.
Qed.

Lemma dict_fits_set d k v fields : (String.length k ≤ MAX_TEXT_LENGTH)%nat → fits d v → dict_fits d fields →
  dict_fits d (dict_set k v fields).
Proof. intros Hk Hv [Hnd Hf]. split; [by apply dict_set_NoDup|]. by apply dict_set_Forall. Qed.

Lemma project_fields_pays d f m kvs : Forall (λ kv, (∃ s, kv.1 = PyStr s) ∧ pays d (f kv.2)) kvs → pays d m →
  ∀ n acc b, dict_fits d acc →
  ∃ fields b', project_fields f m n kvs acc b = (Ok fields, b') ∧ (b' ≤ b)%nat ∧ (length fields ≤ length acc + n)%nat ∧
    (weight fields ≤ weight acc + per_node * (b - b') + n)%nat ∧ dict_fits d fields.
Proof.
  intros Hk Hm. induction Hk as [|[k v] kvs [[s Hs] Hv] _ IH]; intros n acc b Hacc; cbn in *.
  { exists acc, b. destruct n; cbn; split_and!; (done || lia). }
  subst k. destruct n as [|n]; [exists acc, b; cbn; split_and!; (done || lia)|].
  unfold mbind, M_bind, read. destruct (Nat.eqb_spec b 0) as [E|E].
  { exists acc, b. cbn. split_and!; (done || lia). }
  assert (H : pays d (if private_name s then m else f v)) by by destruct (private_name s).
  destruct (H b) as (y & b1 & -> & Hb1 & Hn1 & Hf1).
  destruct (IH n (dict_set (redact_string s) y acc) b1) as (fields & b2 & E2 & ? & ? & ? & ?).
  { apply dict_fits_set; [apply redact_string_bounded|done|done]. }
  exists fields, b2. split; [exact E2|].
  pose proof (weight_set (redact_string s) y acc). pose proof (dict_set_length (redact_string s) y acc).
  split_and!; [lia|lia| |done]. unfold per_node in *. lia.
Qed.

Lemma spend_pays depth d k :
  (depth < MAX_METADATA_DEPTH → ∀ b, ∃ v b', k b = (Ok v, b') ∧ (b' ≤ b)%nat ∧
     (nodes v ≤ per_node * (b - b') + per_node + 1)%nat ∧ fits d v)%nat → pays d (spend depth k).
Proof.
  intros Hk b. unfold spend, mbind, M_bind, read, modify.
  destruct (Nat.eqb_spec b 0); cbn [orb]; [|destruct (Nat.leb_spec MAX_METADATA_DEPTH depth)].
  - exists (PyStr TRUNCATED), b. split; [done|]. apply paid_scalar; [done|]. split_and!; [cbn; lia|done..].
  - exists (PyStr TRUNCATED), b. split; [done|]. apply paid_scalar; [done|]. split_and!; [cbn; lia|done..].
  - destruct (Hk ltac:(lia) (pred b)) as (v & b' & -> & Hb & Hn & Hf). exists v, b'. split; [done|].
    split_and!; [lia| |done]. unfold per_node in *. lia.
Qed.

Lemma depth_items d l : Forall (fits d) l → (foldr (λ x n, py_depth x `max` n)%nat 0%nat l ≤ d)%nat.
Proof. intros H. apply foldr_max_le. eapply Forall_impl; [exact H|]. by intros x (? & _). Qed.

Lemma fits_list d l : Forall (fits d) l → fits (S d) (PyList l).
Proof.
  intros Hl. split_and!.
  - cbn. pose proof (depth_items d l Hl). lia.
  - cbn. apply forallb_Forall. eapply Forall_impl; [exact Hl|]. by intros x (_ & ? & _).
  - unfold plain. cbn. apply forallb_Forall. eapply Forall_impl; [exact Hl|]. by intros x (_ & _ & ?).
Qed.

Lemma fits_dict d fields : dict_fits d fields → fits (S d) (str_dict fields).
Proof.
  intros [Hnd Hf]. split_and!.
  - cbn. apply le_n_S, foldr_max_le. unfold items_of. apply Forall_fmap. eapply Forall_impl; [exact Hf|].
    by intros [] [_ (? & _)].
  - cbn. apply forallb_Forall, Forall_fmap. eapply Forall_impl; [exact Hf|]. intros [k v] [Hk (_ & Hv & _)].
    cbn. apply andb_true_iff. split; [by apply Nat.leb_le|done].
  - unfold plain. cbn. apply json_items; [done|]. eapply Forall_impl; [exact Hf|]. by intros [] [_ (_ & _ & ?)].
Qed.

Lemma marker_fits d : fits d (PyStr TRUNCATED).
Proof. split_and!; [cbn; lia|done..]. Qed.

Lemma sum_app l l' : sum_list_with nodes (l ++ l') = (sum_list_with nodes l + sum_list_with nodes l')%nat.
Proof. induction l; cbn; lia. Qed.
Lemma sum_removelast l : (sum_list_with nodes (removelast l) ≤ sum_list_with nodes l)%nat.
Proof. induction l as [|x [|y l] IH]; cbn in *; lia. Qed.

Lemma mark_list_ok d n l : Forall (fits d) l →
  Forall (fits d) (mark_list n l) ∧ (sum_list_with nodes (mark_list n l) ≤ sum_list_with nodes l + 1)%nat.
Proof.
  intros Hl. unfold mark_list. case_match; [split; [done|lia]|].
  set (l' := if (length l =? MAX_METADATA_ENTRIES)%nat then removelast l else l).
  assert (Forall (fits d) l' ∧ (sum_list_with nodes l' ≤ sum_list_with nodes l)%nat) as [H1 H2].
  { unfold l'. case_match; [split; [by apply removelast_Forall|apply sum_removelast]|split; [done|lia]]. }
  split; [apply Forall_app; split; [done|]; repeat constructor; apply marker_fits|]. rewrite sum_app. cbn. lia.
Qed.

Lemma weight_removelast d : (weight (removelast d) ≤ weight d)%nat.
Proof. unfold weight. induction d as [|x [|y l] IH]; cbn in *; lia. Qed.

Lemma removelast_NoDup {V} (d : list (string * V)) : NoDup d.*1 → NoDup (removelast d).*1.
Proof.
  intros Hnd. destruct d as [|x d]; [done|].
  rewrite (app_removelast_last (l := x :: d) x) in Hnd by done. rewrite fmap_app in Hnd.
  by apply NoDup_app in Hnd as (? & _ & _).
Qed.

Lemma mark_dict_ok d n fields : dict_fits d fields →
  dict_fits d (mark_dict n fields) ∧ (weight (mark_dict n fields) ≤ weight fields + 1)%nat.
Proof.
  intros [Hnd Hf]. unfold mark_dict. case_match; [split; [done|lia]|].
  set (f' := if (length fields =? MAX_METADATA_ENTRIES)%nat then removelast fields else fields).
  assert (dict_fits d f' ∧ (weight f' ≤ weight fields)%nat) as [H1 H2].
  { unfold f'. case_match; [|split; [done|lia]]. split; [|apply weight_removelast].
    split; [by apply removelast_NoDup|by apply removelast_Forall]. }
  split; [apply dict_fits_set; [cbn; unfold MAX_TEXT_LENGTH; lia|apply marker_fits|done]|].
  pose proof (weight_set TRUNCATED (PyStr TRUNCATED) f'). cbn [nodes] in *. lia.
Qed.

(** The description of a container in the structural projection. *)
Lemma described_fits d type size entries : (String.length type ≤ MAX_TEXT_LENGTH)%nat → Forall (fits d) entries →
  let v := str_dict [("type", PyStr type); ("size", PyInt (Z.of_nat size)); ("entries", PyList entries)] in
  fits (S (S d)) v ∧ nodes v = (4 + sum_list_with nodes entries)%nat.
Proof.
  intros Ht He v. split; [|cbn; lia]. apply fits_dict. split; [literal_keys|].
  assert (Hs : ∀ k v, (String.length k ≤ MAX_TEXT_LENGTH)%nat → fits (S d) v → field_fits (S d) (k, v)) by by split.
  repeat (constructor; [apply Hs; [cbn; unfold MAX_TEXT_LENGTH; lia|]|]); [| |by apply fits_list|constructor].
  - split_and!; [cbn; lia|by apply Nat.leb_le|done].
  - split_and!; [cbn; lia|done..].
Qed.

Definition level (depth : nat) : nat := 2 * (MAX_METADATA_DEPTH - depth).

Lemma level_S depth : (depth < MAX_METADATA_DEPTH)%nat → level depth = S (S (level (S depth))).
Proof. unfold level. lia. Qed.

Lemma scalar_fits structural fz d v : structural = true ∨ json fz v = true →
  match v with PyDict _ | PyProxy _ | PyTuple _ | PyList _ => False | _ => True end →
  nodes (scalar_projection structural v) = 1%nat ∧ fits d (scalar_projection structural v).
Proof.
  intros Hs Hv. unfold scalar_projection. destruct structural.
  - split; [done|]. split_and!; [cbn; lia|by destruct v|done].
  - destruct Hs as [?|Hs]; [done|]. destruct v; try done; try (case_match);
      (split; [done|]; split_and!; [cbn; lia| |]; try done).
    cbn. apply Nat.leb_le, redact_string_bounded.
Qed.

Lemma sequence_pays structural depth l :
  (depth < MAX_METADATA_DEPTH)%nat → Forall (λ x, pays (level (S depth)) (_record_projection structural (S depth) x)) l →
  ∀ b, ∃ v b', _record_projection structural depth (PyList l) (S b) = (Ok v, b') ∧ (b' ≤ b)%nat ∧
     (nodes v ≤ per_node * (b - b') + per_node + 1)%nat ∧ fits (level depth) v.
Proof.
  intros Hd Hl b. cbn [_record_projection]. unfold spend, mbind, M_bind, read, modify. cbn [Nat.eqb orb].
  assert ((MAX_METADATA_DEPTH <=? depth)%nat = false) as -> by by apply Nat.leb_gt. cbv beta iota. change (Init.Nat.pred (S b)) with b.
  destruct (project_items_pays _ _ l Hl MAX_METADATA_ENTRIES b) as (ys & b' & -> & Hb & Hn & _ & Hs & Hf).
  destruct (mark_list_ok _ (length l) ys Hf) as [Hf' Hs']. rewrite level_S by done. unfold mret, M_ret.
  destruct structural; eexists _, b'; (split; [done|]; split; [lia|]).
  - destruct (described_fits (level (S depth)) "array" (length l) (mark_list (length l) ys)) as [H1 H2];
      [cbn; unfold MAX_TEXT_LENGTH; lia|done|].
    split; [|exact H1]. rewrite H2. unfold per_node, MAX_METADATA_ENTRIES in *. lia.
  - split; [cbn [nodes]; unfold per_node, MAX_METADATA_ENTRIES in *; lia|].
    apply (fits_mono (S (level (S depth)))); [lia|]. by apply fits_list.
Qed.

Lemma mapping_pays structural depth kvs :
  (depth < MAX_METADATA_DEPTH)%nat → structural = true ∨ Forall (λ kv, ∃ s, kv.1 = PyStr s) kvs →
  Forall (λ kv, pays (level (S depth)) (_record_projection structural (S depth) kv.2)) kvs →
  ∀ b, ∃ v b', _record_projection structural depth (PyDict kvs) (S b) = (Ok v, b') ∧ (b' ≤ b)%nat ∧
     (nodes v ≤ per_node * (b - b') + per_node + 1)%nat ∧ fits (level depth) v.
Proof.
  intros Hd Hk Hl b. cbn [_record_projection]. unfold spend at 1. unfold mbind at 1. unfold M_bind at 1, read. cbn [Nat.eqb orb].
  assert ((MAX_METADATA_DEPTH <=? depth)%nat = false) as -> by by apply Nat.leb_gt.
  unfold mbind at 1. unfold M_bind at 1, modify. cbv beta iota. change (Init.Nat.pred (S b)) with b. rewrite level_S by done. destruct structural.
  - unfold mbind, M_bind.
    destruct (project_items_pays _ _ kvs Hl MAX_METADATA_ENTRIES b) as (ys & b' & -> & Hb & Hn & _ & Hs & Hf).
    destruct (mark_list_ok _ (length kvs) ys Hf) as [Hf' Hs']. eexists _, b'. split; [done|]. split; [lia|].
    destruct (described_fits (level (S depth)) "object" (length kvs) (mark_list (length kvs) ys)) as [H1 H2];
      [cbn; unfold MAX_TEXT_LENGTH; lia|done|].
    split; [|exact H1]. rewrite H2. unfold per_node, MAX_METADATA_ENTRIES in *. lia.
  - destruct Hk as [?|Hk]; [done|].
    destruct (project_fields_pays (level (S depth)) (_record_projection false (S depth))
      (spend (S depth) (mret (scalar_projection false (PyStr REDACTED)))) kvs) with (n := MAX_METADATA_ENTRIES) (acc := @nil (string * pyval)) (b := b)
      as (fields & b' & E & Hb & Hn & Hs & Hf).
    + clear -Hk Hl. induction Hk; [constructor|]. inversion_clear Hl. constructor; [done|auto].
    + apply spend_pays. intros _ b0. eexists _, b0. split; [done|]. split; [lia|].
      split; [cbn; lia|]. split_and!; [cbn; lia|done..].
    + split; [constructor|constructor].
    + unfold mbind, M_bind. rewrite E. destruct (mark_dict_ok _ (length kvs) fields Hf) as [Hf' Hs'].
      eexists _, b'. split; [done|]. split; [lia|]. split.
      * rewrite nodes_dict. change (weight []) with 0%nat in Hs. unfold per_node, MAX_METADATA_ENTRIES in *. lia.
      * apply (fits_mono (S (level (S depth)))); [lia|]. by apply fits_dict.
Qed.

(** Outside the budget and the depth a projection is the marker. *)
Lemma spend_twice depth d k :
  (depth < MAX_METADATA_DEPTH → ∀ b, ∃ v b', spend depth k (S b) = (Ok v, b') ∧ (b' ≤ b)%nat ∧
     (nodes v ≤ per_node * (b - b') + per_node + 1)%nat ∧ fits d v)%nat → pays d (spend depth k).
Proof.
  intros Hk. apply spend_pays. intros Hd b. destruct (Hk Hd b) as (v & b' & E & H). exists v, b'. split; [|exact H].
  rewrite <- E. unfold spend, mbind, M_bind, read, modify. cbn [Nat.eqb orb].
  by assert ((MAX_METADATA_DEPTH <=? depth)%nat = false) as -> by by apply Nat.leb_gt.
Qed.

Lemma children_pays {A} structural fz (f : A → pyval) depth l :
  Forall (λ x, structural = true ∨ json fz (f x) = true →
            ∀ depth, pays (level depth) (_record_projection structural depth (f x))) l →
  structural = true ∨ Forall (λ x, json fz (f x) = true) l →
  Forall (λ x, pays (level (S depth)) (_record_projection structural (S depth) (f x))) l.
Proof.
  intros IH Hj. rewrite !Forall_forall in *. intros x Hx. apply IH; [done|].
  destruct Hj as [?|Hj]; [by left|right]. by apply Hj.
Qed.

Lemma json_keys fz kvs : dict_items kvs && forallb (λ kv, json fz kv.2) kvs = true →
  Forall (λ kv : pyval * pyval, ∃ s, kv.1 = PyStr s) kvs.
Proof.
  intros (d & -> & _)%json_items_inv. unfold items_of. apply Forall_fmap, Forall_forall. intros [k v] _. by exists k.
Qed.

(** A projection of a JSON value always ends: it spends its budget, and its
    output is bounded by what it spent. *)
Lemma projection_pays structural fz v : structural = true ∨ json fz v = true →
  ∀ depth, pays (level depth) (_record_projection structural depth v).
Proof.
  induction v as [|bb|zz|f|ss|s t|l IH|l IH|kvs IH|kvs IH|r] using pyval_nested_ind; intros Hj depth;
    try (cbn [_record_projection]; apply spend_pays; intros _ b;
         destruct (scalar_fits structural fz (level depth) _ Hj I) as [H1 H2];
         eexists _, b; split; [reflexivity|]; split; [lia|]; split; [lia|exact H2]).
  - apply (spend_twice depth). intros Hd. apply sequence_pays; [done|].
    apply (children_pays structural fz (λ x, x) depth l IH). destruct Hj as [?|Hj]; [by left|right].
    by apply andb_true_iff in Hj as [_ ?%forallb_Forall].
  - apply (spend_twice depth). intros Hd. apply (sequence_pays structural); [done|].
    apply (children_pays structural fz (λ x, x) depth l IH). destruct Hj as [?|Hj]; [by left|right].
    by apply andb_true_iff in Hj as [_ ?%forallb_Forall].
  - apply (spend_twice depth). intros Hd. apply mapping_pays; [done|..].
    + destruct Hj as [?|Hj]; [by left|right]. cbn in Hj. rewrite <- andb_assoc in Hj.
      apply andb_true_iff in Hj as [_ Hj]. by eapply json_keys.
    + apply (children_pays structural fz snd depth kvs IH). destruct Hj as [?|Hj]; [by left|right].
      by apply andb_true_iff in Hj as [_ ?%forallb_Forall].
  - apply (spend_twice depth). intros Hd. apply (mapping_pays structural); [done|..].
    + destruct Hj as [?|Hj]; [by left|right]. cbn in Hj. rewrite <- andb_assoc in Hj.
      apply andb_true_iff in Hj as [_ Hj]. by eapply json_keys.
    + apply (children_pays structural fz snd depth kvs IH). destruct Hj as [?|Hj]; [by left|right].
      by apply andb_true_iff in Hj as [_ ?%forallb_Forall].
Qed.

(** ** The redacted copy keeps the fields *)

(** A value without what its sensitive fields hold *)
Definition hide_field (hide : pyval → pyval) (kv : pyval * pyval) : pyval * pyval :=
  (kv.1, if match kv.1 with PyStr name => is_sensitive_record_key name | _ => false end then PyNone else hide kv.2).
Fixpoint hide (v : pyval) : pyval :=
  match v with
  | PyList l | PyTuple l => PyList (hide <$> l)
  | PyDict kvs | PyProxy kvs => PyDict (hide_field hide <$> kvs)
  | _ => v
  end.

Lemma redact_fields_hide f kvs :
  Forall (λ kv, f kv.2 = f (hide kv.2)) kvs → ∀ acc, redact_fields f kvs acc = redact_fields f (hide_field hide <$> kvs) acc.
Proof.
  induction 1 as [|[k v] kvs Hk _ IH]; intros acc; [done|]. cbn in *. destruct k; try apply IH. cbn.
  destruct (is_sensitive_record_key s); cbn; [apply IH|]. rewrite Hk. destruct (f (hide v)); cbn; [apply IH|done].
Qed.

Lemma map_res_hide {B} (f : pyval → result B) l : Forall (λ v, f v = f (hide v)) l → map_res f l = map_res f (hide <$> l).
Proof. induction 1 as [|x l Hx _ IH]; [done|]. cbn. by rewrite Hx, IH. Qed.

Lemma redacted_hide v : ∀ depth, _redacted_record_value depth v = _redacted_record_value depth (hide v).
Proof.
  induction v as [|bb|zz|f|ss|s t|l IH|l IH|kvs IH|kvs IH|r] using pyval_nested_ind; intros depth; try done;
    cbn [_redacted_record_value hide]; (case_match; [done|]).
  - rewrite (map_res_hide _ l); [done|]. eapply Forall_impl; [exact IH|]. cbn. auto.
  - rewrite (map_res_hide _ l); [done|]. eapply Forall_impl; [exact IH|]. cbn. auto.
  - rewrite (redact_fields_hide _ kvs); [done|]. eapply Forall_impl; [exact IH|]. cbn. auto.
  - rewrite (redact_fields_hide _ kvs); [done|]. eapply Forall_impl; [exact IH|]. cbn. auto.
Qed.

(** What the copy of one field is *)
Definition copied (f : pyval → result pyval) (kv kv' : string * pyval) : Prop :=
  kv'.1 = kv.1 ∧ if is_sensitive_record_key kv.1 then kv'.2 = PyStr REDACTED else f kv.2 = Ok kv'.2.

Lemma redact_fields_total f (d acc : pydict) : NoDup (acc.*1 ++ d.*1) →
  Forall (λ kv, ∃ v, f kv.2 = Ok v) d →
  ∃ out, redact_fields f (items_of d) acc = Ok (acc ++ out) ∧ Forall2 (copied f) d out.
Proof.
  intros Hnd Hf. revert acc Hnd. induction Hf as [|[k v] d [w Hw] _ IH]; intros acc Hnd.
  { exists []. cbn. by rewrite app_nil_r. }
  cbn in *. set (x := if is_sensitive_record_key k then PyStr REDACTED else w).
  assert (Hk : k ∉ acc.*1).
  { apply NoDup_app in Hnd as (_ & Hd & _). intros Hin. apply (Hd k Hin). left. }
  destruct (IH (acc ++ [(k, x)])) as (out & E & Hout).
  { rewrite fmap_app, <- app_assoc. exact Hnd. }
  exists ((k, x) :: out). split.
  - assert ((if is_sensitive_record_key k then Ok (PyStr REDACTED) else f v) = Ok x) as ->
      by (unfold x; by destruct (is_sensitive_record_key k)).
    cbn. rewrite dict_set_fresh by done. unfold items_of in E. rewrite E. by rewrite <- app_assoc.
  - constructor; [|done]. split; [done|]. unfold x. cbn. by destruct (is_sensitive_record_key k).
Qed.

Lemma map_res_total {A B} (f : A → result B) l : Forall (λ x, ∃ y, f x = Ok y) l → ∃ ys, map_res f l = Ok ys.
Proof.
  induction 1 as [|x l [y Hy] _ [ys IH]]; [by exists []|]. exists (y :: ys). cbn. rewrite Hy. cbn. by rewrite IH.
Qed.

Lemma redacted_total fz v : json fz v = true → ∀ depth, ∃ w, _redacted_record_value depth v = Ok w.
Proof.
  induction v as [|bb|zz|f|ss|s t|l IH|l IH|kvs IH|kvs IH|r] using pyval_nested_ind; intros Hj depth; try discriminate Hj;
    try (by eexists); cbn [_redacted_record_value]; (case_match; [by eexists|]).
  - apply andb_true_iff in Hj as [_ Hj%forallb_Forall].
    destruct (map_res_total (_redacted_record_value (S depth)) l) as [ys ->]; [|by eexists].
    rewrite Forall_forall in *. intros x Hin. apply IH; [done|by apply Hj].
  - apply andb_true_iff in Hj as [_ Hj%forallb_Forall].
    destruct (map_res_total (_redacted_record_value (S depth)) l) as [ys ->]; [|by eexists].
    rewrite Forall_forall in *. intros x Hin. apply IH; [done|by apply Hj].
  - cbn in Hj. rewrite <- andb_assoc in Hj. apply andb_true_iff in Hj as [_ (d & -> & Hnd & Hd)%json_items_inv].
    destruct (redact_fields_total (_redacted_record_value (S depth)) d []) as (out & -> & _); [done| |by eexists].
    unfold items_of in IH. rewrite Forall_fmap in IH. rewrite Forall_forall in *. intros [k x] Hin.
    apply (IH _ Hin), (Hd _ Hin).
  - cbn in Hj. rewrite <- andb_assoc in Hj. apply andb_true_iff in Hj as [_ (d & -> & Hnd & Hd)%json_items_inv].
    destruct (redact_fields_total (_redacted_record_value (S depth)) d []) as (out & -> & _); [done| |by eexists].
    unfold items_of in IH. rewrite Forall_fmap in IH. rewrite Forall_forall in *. intros [k x] Hin.
    apply (IH _ Hin), (Hd _ Hin).
Qed.

Lemma redact_payload_total fz (d : pydict) : NoDup d.*1 → Forall (λ kv, json fz kv.2 = true) d →
  ∃ out, redact_record_payload (items_of d) = Ok out ∧ Forall2 (copied (_redacted_record_value 1)) d out.
Proof.
  intros Hnd Hd. destruct (redact_fields_total (_redacted_record_value 1) d []) as (out & E & H); [done| |by exists out].
  eapply Forall_impl; [exact Hd|]. intros kv Hkv. by apply (redacted_total fz).
Qed.

(** ** Properties *)

(** retained evidence holds the structure of a record and nothing else:
    it is built for every value, it depends only on the types of the scalars
    and on the sizes of the containers - no key, no text and no number of the
    record shows in it - and its value is a JSON value of at most
    [37 * 256 + 1] nodes and 16 levels with texts of at most 256 characters. *)
Theorem evidence_structure_only kind v v' :
  skeleton v = skeleton v' →
  _record_evidence kind v = _record_evidence kind v' ∧
  ∃ e, _record_evidence kind v =
         Ok (str_dict [("schema_version", PyInt 1); ("kind", PyStr (kind +:+ "_evidence")); ("value", e)]) ∧
       (nodes e ≤ per_node * _MAX_RECORD_NODES + 1)%nat ∧ (py_depth e ≤ 2 * MAX_METADATA_DEPTH)%nat ∧
       short e = true ∧ plain e = true.
Proof.
  intros Hs. unfold _record_evidence. rewrite (projection_skeleton v), (projection_skeleton v'), Hs. split; [done|].
  destruct (projection_pays true true (skeleton v') (or_introl eq_refl) 0 _MAX_RECORD_NODES) as (e & b & -> & Hb & Hn & Hd & Hsh & Hp).
  exists e. split; [done|]. split; [unfold per_node in *; lia|]. split; [exact Hd|done].
Qed.

(** the serialized payload of a native or mapping record is bounded and
    shows no private field: for a JSON object it is always built, it does not
    depend on what the sensitive or private fields hold, at any depth, and it
    is a JSON value of at most [37 * 256 + 1] nodes, 16 levels and texts of 256
    characters. *)
Theorem projection_bounded_private fz (kvs kvs' : list (pyval * pyval)) :
  json fz (if fz then PyProxy kvs else PyDict kvs) = true → mask (PyDict kvs) = mask (PyDict kvs') →
  ∃ out, _serialized_record_payload kvs = Ok out ∧ _serialized_record_payload kvs' = Ok out ∧
         (nodes out ≤ per_node * _MAX_RECORD_NODES + 1)%nat ∧ (py_depth out ≤ 2 * MAX_METADATA_DEPTH)%nat ∧
         short out = true ∧ plain out = true.
Proof.
  intros Hj Hm. unfold _serialized_record_payload.
  rewrite (projection_mask (PyDict kvs')), <- Hm, <- (projection_mask (PyDict kvs)).
  change (PyDict kvs) with (PyDict kvs).
  assert (E : _record_projection false 0 (PyDict kvs) =
              _record_projection false 0 (if fz then PyProxy kvs else PyDict kvs)) by by destruct fz.
  rewrite E. destruct (projection_pays false fz _ (or_intror Hj) 0 _MAX_RECORD_NODES) as (e & b & -> & Hb & Hn & Hd & Hsh & Hp).
  exists e. split; [done|]. split; [done|]. split; [unfold per_node in *; lia|]. split; [exact Hd|done].
Qed.

(** The redacted copy of runtime fields is complete and hides
    credentials: for every JSON object it is built, has exactly the same keys in
    the same order, each sensitive one with the marker for its value, and does
    not depend on what any sensitive field holds, at any depth. *)
Theorem redacted_copy_complete fz (d d' : pydict) :
  NoDup d.*1 → Forall (λ kv, json fz kv.2 = true) d →
  hide (str_dict d) = hide (str_dict d') →
  ∃ out, redact_record_payload (items_of d) = Ok out ∧ redact_record_payload (items_of d') = Ok out ∧ out.*1 = d.*1 ∧
         Forall (λ kv, is_sensitive_record_key kv.1 = true → kv.2 = PyStr REDACTED) out.
Proof.
  intros Hnd Hd Hh. destruct (redact_payload_total fz d Hnd Hd) as (out & E & Hout). exists out. split; [done|].
  assert (Hq : ∀ x : pydict, redact_record_payload (items_of x) = redact_fields (_redacted_record_value 1) (hide_field hide <$> items_of x) []).
  { intros x. unfold redact_record_payload. apply redact_fields_hide, Forall_forall. intros kv _. apply redacted_hide. }
  split; [|split].
  - assert (Hi : hide_field hide <$> items_of d = hide_field hide <$> items_of d') by by injection Hh.
    by rewrite <- E, !Hq, Hi.
  - clear -Hout. induction Hout as [|x y d out [H _] _ IH]; [done|]. cbn. by rewrite H, IH.
  - clear -Hout. induction Hout as [|x y d out [H1 H2] _ IH]; [constructor|]. constructor; [|done]. rewrite H1.
    intros Hs. by rewrite Hs in H2.
Qed.

Definition sample_record (email : string) (rows : Z) : pydict :=
  [("title", PyStr "Air quality"); ("contact_email", PyStr email); ("rows", PyInt rows);
   ("nested", PyProxy [(PyStr "api_key", PyStr email); (PyStr "tags", PyTuple [PyStr "air"])])].

Lemma evidence_structure_only_witness :
  _record_evidence "mapping_record" (str_dict (sample_record "a@example.org" 42)) =
  _record_evidence "mapping_record" (str_dict (sample_record "someone.else@example.org" 7)).
Proof. apply evidence_structure_only. reflexivity. Defined.

Lemma projection_bounded_private_witness :
  ∃ out, _serialized_record_payload (items_of (sample_record "a@example.org" 42)) = Ok out ∧
         _serialized_record_payload (items_of (sample_record "b@example.org" 42)) = Ok out ∧ plain out = true.
Proof.
  destruct (projection_bounded_private true (items_of (sample_record "a@example.org" 42))
              (items_of (sample_record "b@example.org" 42))) as (out & E & E' & _ & _ & _ & Hp); [vm_compute; reflexivity..|].
  exists out. split; [exact E|]. split; [exact E'|exact Hp].
Defined.

Lemma redacted_copy_complete_witness :
  ∃ out, redact_record_payload (items_of [("api_key", PyStr "k"); ("n", PyInt 1)]) = Ok out ∧
         redact_record_payload (items_of [("api_key", PyStr "other"); ("n", PyInt 1)]) = Ok out ∧
         out.*1 = ["api_key"; "n"].
Proof.
  destruct (redacted_copy_complete false [("api_key", PyStr "k"); ("n", PyInt 1)] [("api_key", PyStr "other"); ("n", PyInt 1)])
    as (out & E & E' & Hk & _).
  - apply (bool_decide_unpack _). vm_compute. exact I.
  - repeat constructor.
  - reflexivity.
  - exists out. split; [exact E|]. split; [exact E'|exact Hk].
Defined.
