(* ===== verification/Records.v ===== *)
(** * Catalog records and result envelopes

    The normalized and native records of [domain/catalog/models.py] and the
    [ResultEnvelope] a catalog call returns.  [DatasetRecord],
    [OrganizationRecord] and [UserRecord] have one shape - an identifier of
    their own kind, a name, an optional text and extensions - and are one
    record here, indexed by [named]. *)
From Stdlib Require Import ZArith Lia.
From stdpp Require Import strings.
From S2P Require Import Prelude PyVal Regex Redaction Json Ids Artifact Projection.
Local Open Scope Z_scope.
Local Open Scope py_scope.

(** ** Envelopes *)

(** [hash(value)] is defined: containers that may change have none. *)
Fixpoint hashable (v : pyval) : bool :=
  match v with
  | PyList _ | PyDict _ | PyProxy _ => false
  | PyTuple l => forallb hashable l
  | _ => true
  end.

Definition unhashable : exn := err TypeError "unhashable type".

(** [set(data) != keys or data["schema_version"] not in versions or ...]:
    looking an unhashable version up in a frozen set raises [TypeError]. *)
Definition _strict_envelope (value : pyval) (path kind : string) (keys : list string) (versions : list Z)
  : result pydict :=
  data ← _object_dict value path;
  raise_if (negb (keys_are data keys)) (_contract_error path);;
  version ← field data "schema_version";
  raise_if (negb (hashable version)) unhashable;;
  raise_if (negb (existsb (py_eq_int version) versions) || negb (type_is_int version)) (_contract_error path);;
  k ← field data "kind";
  raise_if (negb (py_eq_str k kind)) (_contract_error path);;
  Ok data.

Definition _optional_string (value : pyval) (path : string) : result (option string) :=
  match value with PyNone => Ok None | PyStr s => Ok (Some s) | _ => Raise (_contract_error path) end.

(** ** Dataset, organization and user records *)

Inductive named := Dataset | Organization | User.
Definition named_kind (n : named) : string :=
  match n with Dataset => "dataset" | Organization => "organization" | User => "user" end.
Definition name_key (n : named) : string := match n with User => "username" | _ => "name" end.
Definition text_key (n : named) : string := match n with User => "display_name" | _ => "description" end.

Record NamedRecord := {
  nr_id : CatalogId; nr_name : string; nr_text : option string; nr_extensions : pydict
}.

Definition is_kind (i : CatalogId) (kind : string) : bool := bool_decide (kind_value (id_resource_kind i) = kind).

Definition make_named (n : named) (id : CatalogId) (name : string) (text : option string) (extensions : pyval)
  : result NamedRecord :=
  raise_if (negb (is_kind id (named_kind n))) (_contract_error (named_kind n +:+ ".id"));;
  raise_if (negb (str_nonempty name)) (_contract_error (named_kind n +:+ "." +:+ name_key n));;
  exts ← _freeze_extensions _contract_error extensions;
  Ok {| nr_id := id; nr_name := name; nr_text := text; nr_extensions := exts |}.

Definition named_keys (n : named) : list string :=
  ["schema_version"; "kind"; "id"; name_key n; text_key n; "extensions"].

Definition thawed (extensions : pydict) : pyval := _thaw_json (PyProxy (items_of extensions)).

Definition named_to_dict (n : named) (r : NamedRecord) : pyval :=
  str_dict [("schema_version", PyInt 1); ("kind", PyStr (named_kind n)); ("id", catalog_id_to_dict (nr_id r));
            (name_key n, PyStr (nr_name r)); (text_key n, opt_str (nr_text r)); ("extensions", thawed (nr_extensions r))].

Definition named_from_dict (n : named) (value : pyval) : result NamedRecord :=
  data ← _strict_envelope value (named_kind n) (named_kind n) (named_keys n) [1];
  v ← field data (name_key n); name ← as_str (_contract_error (named_kind n +:+ "." +:+ name_key n)) v;
  v ← field data "id"; id ← catalog_id_from_dict v;
  v ← field data (text_key n); text ← _optional_string v (named_kind n +:+ "." +:+ text_key n);
  v ← field data "extensions"; exts ← _object_dict v (named_kind n +:+ ".extensions");
  make_named n id name text (str_dict exts).

Definition named_evidence (n : named) (r : NamedRecord) : result pyval :=
  _record_evidence (named_kind n) (PyTuple [PyStr (nr_name r); opt_str (nr_text r); PyProxy (items_of (nr_extensions r))]).

(** ** ResourceRecord *)

Record ResourceRecord := {
  rr_id : CatalogId; rr_dataset_id : CatalogId; rr_name : string; rr_url : option string; rr_extensions : pydict
}.

Definition same_platform (i j : CatalogId) : bool :=
  bool_decide (platform_value (id_platform i) = platform_value (id_platform j)).

Definition make_resource (id dataset_id : CatalogId) (name : string) (url : option string) (extensions : pyval)
  : result ResourceRecord :=
  raise_if (negb (is_kind id "resource")) (_contract_error "resource.id");;
  raise_if (negb (is_kind dataset_id "dataset")) (_contract_error "resource.dataset_id");;
  raise_if (negb (same_platform id dataset_id)) (_contract_error "resource.dataset_id");;
  raise_if (negb (str_nonempty name)) (_contract_error "resource.name");;
  exts ← _freeze_extensions _contract_error extensions;
  Ok {| rr_id := id; rr_dataset_id := dataset_id; rr_name := name; rr_url := url; rr_extensions := exts |}.

Definition resource_keys : list string :=
  ["schema_version"; "kind"; "id"; "dataset_id"; "name"; "url"; "extensions"].

Definition resource_to_dict (r : ResourceRecord) : pyval :=
  str_dict [("schema_version", PyInt 1); ("kind", PyStr "resource"); ("id", catalog_id_to_dict (rr_id r));
            ("dataset_id", catalog_id_to_dict (rr_dataset_id r)); ("name", PyStr (rr_name r));
            ("url", opt_str (rr_url r)); ("extensions", thawed (rr_extensions r))].

Definition resource_from_dict (value : pyval) : result ResourceRecord :=
  data ← _strict_envelope value "resource" "resource" resource_keys [1];
  v ← field data "name"; name ← as_str (_contract_error "resource.name") v;
  v ← field data "id"; id ← catalog_id_from_dict v;
  v ← field data "dataset_id"; dataset_id ← catalog_id_from_dict v;
  v ← field data "url"; url ← _optional_string v "resource.url";
  v ← field data "extensions"; exts ← _object_dict v "resource.extensions";
  make_resource id dataset_id name url (str_dict exts).

Definition resource_evidence (r : ResourceRecord) : result pyval :=
  _record_evidence "resource" (PyTuple [PyStr (rr_name r); opt_str (rr_url r); PyProxy (items_of (rr_extensions r))]).

(** ** NativeRecord and MappingRecord *)

Record NativeRecord := {
  nat_platform : CatalogPlatform; nat_resource_kind : ResourceKind; nat_id : CatalogId;
  nat_payload : pydict; nat_extensions : pydict
}.

Definition _NATIVE_RECORD_PAYLOAD_PATH : string := "native_record.payload".
Definition _MAPPING_RECORD_PAYLOAD_PATH : string := "mapping_record.payload".

Definition make_native (platform : CatalogPlatform) (kind : ResourceKind) (id : CatalogId) (payload extensions : pyval)
  : result NativeRecord :=
  raise_if (negb (bool_decide (platform_value (id_platform id) = platform_value platform)) ||
            negb (bool_decide (kind_value (id_resource_kind id) = kind_value kind))) (_contract_error "native_record.id");;
  frozen ← freeze_mapping _contract_error payload _NATIVE_RECORD_PAYLOAD_PATH;
  exts ← _freeze_extensions _contract_error extensions;
  Ok {| nat_platform := platform; nat_resource_kind := kind; nat_id := id; nat_payload := frozen; nat_extensions := exts |}.

Definition native_to_dict (r : NativeRecord) : result pyval :=
  id ← _serialized_record_payload (match catalog_id_to_dict (nat_id r) with PyDict kvs => kvs | _ => [] end);
  payload ← _serialized_record_payload (items_of (nat_payload r));
  exts ← _serialized_record_payload (items_of (nat_extensions r));
  Ok (str_dict [("schema_version", PyInt 2); ("kind", PyStr "native_record");
                ("platform", PyStr (redact_string (platform_value (nat_platform r))));
                ("resource_kind", PyStr (redact_string (kind_value (nat_resource_kind r)))); ("id", id);
                ("payload", payload); ("extensions", exts)]).

Definition native_evidence (r : NativeRecord) : result pyval :=
  _record_evidence "native_record" (PyTuple [PyProxy (items_of (nat_payload r)); PyProxy (items_of (nat_extensions r))]).

Definition native_keys : list string :=
  ["schema_version"; "kind"; "platform"; "resource_kind"; "id"; "payload"; "extensions"].

Definition native_from_dict (value : pyval) : result NativeRecord :=
  data ← _strict_envelope value "native_record" "native_record" native_keys [1; 2];
  vp ← field data "platform"; vk ← field data "resource_kind";
  platform ← as_str (_contract_error "native_record.identity") vp;
  kind ← as_str (_contract_error "native_record.identity") vk;
  p ← make_platform platform;
  k ← make_resource_kind kind;
  v ← field data "id"; id ← catalog_id_from_dict v;
  v ← field data "payload"; payload ← _object_dict v _NATIVE_RECORD_PAYLOAD_PATH;
  v ← field data "extensions"; exts ← _object_dict v "native_record.extensions";
  make_native p k id (str_dict payload) (str_dict exts).

Record MappingRecord := { map_payload : pydict }.

Definition make_mapping (payload : pyval) : result MappingRecord :=
  frozen ← freeze_mapping _contract_error payload _MAPPING_RECORD_PAYLOAD_PATH;
  Ok {| map_payload := frozen |}.
Definition mapping_to_dict (r : MappingRecord) : result pyval :=
  payload ← _serialized_record_payload (items_of (map_payload r));
  Ok (str_dict [("schema_version", PyInt 2); ("kind", PyStr "mapping_record"); ("payload", payload)]).
Definition mapping_evidence (r : MappingRecord) : result pyval :=
  _record_evidence "mapping_record" (PyProxy (items_of (map_payload r))).
Definition mapping_from_dict (value : pyval) : result MappingRecord :=
  data ← _strict_envelope value "mapping_record" "mapping_record" ["schema_version"; "kind"; "payload"] [1; 2];
  v ← field data "payload"; payload ← _object_dict v _MAPPING_RECORD_PAYLOAD_PATH;
  make_mapping (str_dict payload).

(** ** ValueRecord *)

Definition _VALUE_RECORD_VALUE_PATH : string := "value_record.value".
Record ValueRecord := { vr_value : pyval }.

Definition scalar_value (v : pyval) : bool :=
  match v with PyNone | PyStr _ | PyBool _ | PyInt _ | PyFloat (FFin _) => true | _ => false end.
Definition make_value_record (v : pyval) : result ValueRecord :=
  raise_if (negb (scalar_value v)) (_contract_error _VALUE_RECORD_VALUE_PATH);; Ok {| vr_value := v |}.
Definition value_to_dict (r : ValueRecord) : pyval :=
  str_dict [("schema_version", PyInt 1); ("kind", PyStr "value_record"); ("value", vr_value r)].
Definition value_evidence (r : ValueRecord) : result pyval := _record_evidence "value_record" (vr_value r).
Definition value_from_dict (value : pyval) : result ValueRecord :=
  data ← _strict_envelope value "value_record" "value_record" ["schema_version"; "kind"; "value"] [1];
  v ← field data "value";
  raise_if (match v with PyNone | PyStr _ | PyBool _ | PyInt _ | PyFloat _ => false | _ => true end)
    (_contract_error _VALUE_RECORD_VALUE_PATH);;
  make_value_record v.

(** ** Pages, warnings and deployment metadata *)

Record PageInfo := { page_cursor : option string; next_cursor : option string; total_items : option Z }.

Definition make_page (cursor next : option string) (total : option Z) : result PageInfo :=
  raise_if (match total with Some n => n <? 0 | None => false end) (_contract_error "page_info.total_items");;
  Ok {| page_cursor := cursor; next_cursor := next; total_items := total |}.

Definition opt_int (o : option Z) : pyval := match o with Some z => PyInt z | None => PyNone end.
Definition page_to_dict (p : PageInfo) : pyval :=
  str_dict [("schema_version", PyInt 1); ("kind", PyStr "page_info"); ("cursor", opt_str (page_cursor p));
            ("next_cursor", opt_str (next_cursor p)); ("total_items", opt_int (total_items p))].

Definition page_from_dict (value : pyval) : result PageInfo :=
  data ← _strict_envelope value "page_info" "page_info"
           ["schema_version"; "kind"; "cursor"; "next_cursor"; "total_items"] [1];
  v ← field data "total_items";
  total ← (match v with PyNone => Ok None | PyInt z => Ok (Some z) | _ => Raise (_contract_error "page_info.total_items") end);
  v ← field data "cursor"; cursor ← _optional_string v "page_info.cursor";
  v ← field data "next_cursor"; next ← _optional_string v "page_info.next_cursor";
  make_page cursor next total.

Record WarningRecord := { warning_code : string; warning_message : string }.

Definition make_warning (code message : string) : result WarningRecord :=
  raise_if (negb (str_nonempty code) || negb (str_nonempty message)) (_contract_error "warning");;
  Ok {| warning_code := code; warning_message := message |}.
Definition warning_to_dict (w : WarningRecord) : pyval :=
  str_dict [("schema_version", PyInt 1); ("kind", PyStr "warning"); ("code", PyStr (warning_code w));
            ("message", PyStr (warning_message w))].
Definition warning_from_dict (value : pyval) : result WarningRecord :=
  data ← _strict_envelope value "warning" "warning" ["schema_version"; "kind"; "code"; "message"] [1];
  vc ← field data "code"; vm ← field data "message";
  code ← as_str (_contract_error "warning") vc;
  message ← as_str (_contract_error "warning") vm;
  make_warning code message.

Record PlatformMetadata := {
  pm_platform : CatalogPlatform; api_version : option string; deployment : option string; pm_extensions : pydict
}.

Definition make_platform_metadata (platform : CatalogPlatform) (version deployment : option string) (extensions : pyval)
  : result PlatformMetadata :=
  exts ← _freeze_extensions _contract_error extensions;
  Ok {| pm_platform := platform; api_version := version; deployment := deployment; pm_extensions := exts |}.

Definition platform_metadata_to_dict (m : PlatformMetadata) : result pyval :=
  exts ← redact_record_payload (items_of (thaw_dict (pm_extensions m)));
  Ok (str_dict [("schema_version", PyInt 1); ("kind", PyStr "platform_metadata");
                ("platform", PyStr (platform_value (pm_platform m))); ("api_version", opt_str (api_version m));
                ("deployment", opt_str (deployment m)); ("extensions", str_dict exts)]).

Definition platform_metadata_from_dict (value : pyval) : result PlatformMetadata :=
  data ← _strict_envelope value "platform_metadata" "platform_metadata"
           ["schema_version"; "kind"; "platform"; "api_version"; "deployment"; "extensions"] [1];
  v ← field data "platform"; platform ← as_str (_contract_error "platform_metadata.platform") v;
  p ← make_platform platform;
  v ← field data "api_version"; version ← _optional_string v "platform_metadata.api_version";
  v ← field data "deployment"; deployment ← _optional_string v "platform_metadata.deployment";
  v ← field data "extensions"; exts ← _object_dict v "platform_metadata.extensions";
  make_platform_metadata p version deployment (str_dict exts).

(** ** ResultEnvelope *)

(** [decode(value) if value is not None else None] *)
Definition unless_none {A} (decode : pyval → result A) (value : pyval) : result (option A) :=
  match value with PyNone => Ok None | _ => a ← decode value; Ok (Some a) end.

Section envelope.
Context {T : Type}.
Variables (item_to_dict item_evidence : T → result pyval) (item_decoder : pyval → result T).

Record ResultEnvelope := {
  items : list T; page : option PageInfo; warnings : list WarningRecord; platform : option PlatformMetadata
}.

Definition result_keys : list string := ["schema_version"; "kind"; "items"; "page"; "warnings"; "platform"].

Definition result_to_dict (e : ResultEnvelope) : result pyval :=
  its ← map_res item_to_dict (items e);
  p ← (match platform e with Some m => platform_metadata_to_dict m | None => Ok PyNone end);
  Ok (str_dict [("schema_version", PyInt 1); ("kind", PyStr "result_envelope"); ("items", PyList its);
                ("page", match page e with Some p => page_to_dict p | None => PyNone end);
                ("warnings", PyList (warning_to_dict <$> warnings e)); ("platform", p)]).

Definition result_evidence (e : ResultEnvelope) : result pyval :=
  its ← map_res item_evidence (firstn MAX_METADATA_ENTRIES (items e));
  Ok (str_dict [("schema_version", PyInt 1); ("kind", PyStr "result_envelope_evidence"); ("items", PyList its);
                ("item_count", PyInt (Z.of_nat (length (items e))));
                ("truncated", PyBool (MAX_METADATA_ENTRIES <? length (items e))%nat)]).

Definition result_from_dict (value : pyval) : result ResultEnvelope :=
  data ← _strict_envelope value "result_envelope" "result_envelope" result_keys [1];
  vi ← field data "items"; vw ← field data "warnings"; vp ← field data "page"; vm ← field data "platform";
  li ← as_list (_contract_error "result_envelope") vi;
  lw ← as_list (_contract_error "result_envelope") vw;
  its ← map_res item_decoder li;
  p ← unless_none page_from_dict vp;
  ws ← map_res warning_from_dict lw;
  m ← unless_none platform_metadata_from_dict vm;
  Ok {| items := its; page := p; warnings := ws; platform := m |}.
End envelope.
Arguments ResultEnvelope T : clear implicits.

(** ** Lemmas *)

Lemma strict_literal path kind keys versions d z :
  NoDup d.*1 → keys_are d keys = true →
  dict_get "schema_version" d = Some (PyInt z) → existsb (py_eq_int (PyInt z)) versions = true →
  dict_get "kind" d = Some (PyStr kind) →
  _strict_envelope (str_dict d) path kind keys versions = Ok d.
Proof.
  intros Hnd Hk Hv Hz Hkind. unfold _strict_envelope. rewrite object_dict_str_dict by done. cbn [mbind result_bind].
  rewrite Hk. cbn [negb raise_if mbind result_bind]. unfold field. rewrite Hv. cbn [mbind result_bind hashable negb raise_if].
  rewrite Hz. cbn [negb orb type_is_int raise_if mbind result_bind]. rewrite Hkind. cbn. by rewrite bool_decide_eq_true_2.
Qed.

(** [strict] opens the envelope literal a [to_dict] wrote. *)
Ltac strict := erewrite strict_literal by first [literal_keys | reflexivity]; literal_fields.

Lemma optional_string_opt o path : _optional_string (opt_str o) path = Ok o.
Proof. by destruct o. Qed.

Lemma object_dict_thawed d path : ext_wf d → _object_dict (thawed d) path = Ok (thaw_dict d).
Proof. intros Hd. unfold thawed. rewrite thaw_proxy. by apply object_dict_str_dict, thaw_ext_NoDup. Qed.

Definition kind_id (i : CatalogId) (kind : string) : Prop := catalog_id_wf i ∧ is_kind i kind = true.

Definition named_wf (n : named) (r : NamedRecord) : Prop :=
  kind_id (nr_id r) (named_kind n) ∧ nr_name r ≠ "" ∧ ext_wf (nr_extensions r).

Lemma named_roundtrip n r : named_wf n r → named_from_dict n (named_to_dict n r) = Ok r.
Proof.
  destruct r as [i name text ext]. intros ([Hi Hk] & Hn & He). cbn in Hi, Hk, Hn, He.
  assert (Hmake : make_named n i name text (str_dict (thaw_dict ext)) =
                  Ok {| nr_id := i; nr_name := name; nr_text := text; nr_extensions := ext |}).
  { unfold make_named. rewrite Hk. apply str_nonempty_true in Hn. rewrite Hn. cbn [negb raise_if mbind result_bind].
    by rewrite freeze_ext_thaw. }
  unfold named_from_dict, named_to_dict. cbn [nr_id nr_name nr_text nr_extensions].
  destruct n; cbn [named_kind name_key text_key] in *; strict; cbn [as_str mbind result_bind];
    rewrite catalog_id_roundtrip by done; cbn [mbind result_bind]; rewrite optional_string_opt; cbn [mbind result_bind];
    rewrite object_dict_thawed by done; exact Hmake.
Qed.

Lemma make_named_wf n i name text e r :
  catalog_id_wf i → make_named n i name text e = Ok r → named_wf n r.
Proof.
  unfold make_named. intros Hi Hr. inv_ok. qbool. split_and!; cbn.
  - by split.
  - by apply str_nonempty_true.
  - by eapply freeze_ext_ok.
Qed.

Lemma named_sound n v r : named_from_dict n v = Ok r → named_wf n r.
Proof.
  unfold named_from_dict. intros Hr. inv_ok. eapply make_named_wf; [|exact Hr]. by eapply catalog_id_sound.
Qed.

#[global] Instance named_wire (n : named) : Wire NamedRecord :=
  {| to_wire := named_to_dict n; from_wire := named_from_dict n; wire_wf := named_wf n;
     wire_roundtrip := named_roundtrip n; wire_sound := named_sound n |}.

Definition resource_wf (r : ResourceRecord) : Prop :=
  kind_id (rr_id r) "resource" ∧ kind_id (rr_dataset_id r) "dataset" ∧ same_platform (rr_id r) (rr_dataset_id r) = true ∧
  rr_name r ≠ "" ∧ ext_wf (rr_extensions r).

Lemma resource_roundtrip r : resource_wf r → resource_from_dict (resource_to_dict r) = Ok r.
Proof.
  destruct r as [i j name url ext]. intros ([Hi Hk] & [Hj Hl] & Hs & Hn & He).
  cbn [rr_id rr_dataset_id rr_name rr_extensions] in Hi, Hk, Hj, Hl, Hs, Hn, He.
  unfold resource_from_dict, resource_to_dict. cbn [rr_id rr_dataset_id rr_name rr_url rr_extensions]. strict. cbn [as_str mbind result_bind].
  rewrite !catalog_id_roundtrip by done. cbn [mbind result_bind]. rewrite optional_string_opt. cbn [mbind result_bind].
  rewrite object_dict_thawed by done. cbn [mbind result_bind]. unfold make_resource. rewrite Hk, Hl, Hs.
  apply str_nonempty_true in Hn. rewrite Hn. cbn [negb raise_if mbind result_bind]. by rewrite freeze_ext_thaw.
Qed.

Lemma resource_sound v r : resource_from_dict v = Ok r → resource_wf r.
Proof.
  unfold resource_from_dict, make_resource. intros Hr. inv_ok. qbool.
  assert (∀ v i, catalog_id_from_dict v = Ok i → catalog_id_wf i) as Hid by apply catalog_id_sound.
  split_and!; cbn; [split; [by eapply Hid|done]|split; [by eapply Hid|done]|done|by apply str_nonempty_true|].
  by eapply freeze_ext_ok.
Qed.

#[global] Instance resource_wire : Wire ResourceRecord :=
  {| to_wire := resource_to_dict; from_wire := resource_from_dict; wire_wf := resource_wf;
     wire_roundtrip := resource_roundtrip; wire_sound := resource_sound |}.

Definition page_wf (p : PageInfo) : Prop := match total_items p with Some n => 0 <= n | None => True end.

Lemma page_roundtrip p : page_wf p → page_from_dict (page_to_dict p) = Ok p.
Proof.
  destruct p as [c n t]. intros Ht. cbn in Ht. unfold page_from_dict, page_to_dict. cbn [page_cursor next_cursor total_items]. strict.
  assert ((match opt_int t with PyNone => Ok None | PyInt z => Ok (Some z) | _ => Raise (_contract_error "page_info.total_items") end)
          = Ok t) as -> by by destruct t.
  cbn [mbind result_bind]. rewrite !optional_string_opt. cbn [mbind result_bind]. unfold make_page.
  destruct t as [t|]; [|done]. apply Z.ltb_ge in Ht. by rewrite Ht.
Qed.

Lemma page_sound v p : page_from_dict v = Ok p → page_wf p.
Proof.
  unfold page_from_dict, make_page. intros Hp. inv_ok. unfold page_wf. cbn.
  match goal with H : match ?o with Some _ => _ | None => _ end = false |- _ => destruct o; [by apply Z.ltb_ge in H|done] end.
Qed.

#[global] Instance page_wire : Wire PageInfo :=
  {| to_wire := page_to_dict; from_wire := page_from_dict; wire_wf := page_wf;
     wire_roundtrip := page_roundtrip; wire_sound := page_sound |}.

Definition warning_wf (w : WarningRecord) : Prop := warning_code w ≠ "" ∧ warning_message w ≠ "".

Lemma warning_roundtrip w : warning_wf w → warning_from_dict (warning_to_dict w) = Ok w.
Proof.
  destruct w as [c m]. intros [Hc%str_nonempty_true Hm%str_nonempty_true]. cbn in Hc, Hm.
  unfold warning_from_dict, warning_to_dict. cbn [warning_code warning_message]. strict. cbn [as_str mbind result_bind]. unfold make_warning. by rewrite Hc, Hm.
Qed.

Lemma warning_sound v w : warning_from_dict v = Ok w → warning_wf w.
Proof.
  unfold warning_from_dict, make_warning. intros Hw. inv_ok. qbool. split; by apply str_nonempty_true.
Qed.

#[global] Instance warning_wire : Wire WarningRecord :=
  {| to_wire := warning_to_dict; from_wire := warning_from_dict; wire_wf := warning_wf;
     wire_roundtrip := warning_roundtrip; wire_sound := warning_sound |}.

Definition value_wf (r : ValueRecord) : Prop := scalar_value (vr_value r) = true.

Lemma value_roundtrip r : value_wf r → value_from_dict (value_to_dict r) = Ok r.
Proof.
  destruct r as [v]. intros Hv. cbn in Hv. unfold value_from_dict, value_to_dict. cbn [vr_value]. strict. unfold make_value_record.
  by destruct v as [| | |[]| | | | | | |].
Qed.

Lemma value_sound v r : value_from_dict v = Ok r → value_wf r.
Proof. unfold value_from_dict, make_value_record. intros Hr. inv_ok. by qbool. Qed.

#[global] Instance value_wire : Wire ValueRecord :=
  {| to_wire := value_to_dict; from_wire := value_from_dict; wire_wf := value_wf;
     wire_roundtrip := value_roundtrip; wire_sound := value_sound |}.

(** *** Deployment metadata whose extensions redaction leaves alone *)

Definition metadata_wf (m : PlatformMetadata) : Prop :=
  fullmatch _VALUE_RE (platform_value (pm_platform m)) = true ∧ ext_wf (pm_extensions m) ∧
  redact_record_payload (items_of (thaw_dict (pm_extensions m))) = Ok (thaw_dict (pm_extensions m)).

Lemma metadata_roundtrip m : metadata_wf m →
  ∃ d, platform_metadata_to_dict m = Ok (str_dict d) ∧ platform_metadata_from_dict (str_dict d) = Ok m.
Proof.
  destruct m as [[p] v dep ext]. intros (Hp & He & Hr). cbn [pm_platform pm_extensions platform_value] in Hp, He, Hr. unfold platform_metadata_to_dict.
  cbn [pm_extensions pm_platform api_version deployment]. rewrite Hr. eexists. split; [reflexivity|].
  unfold platform_metadata_from_dict. strict. cbn [as_str mbind result_bind platform_value].
  unfold make_platform. rewrite Hp. cbn [negb raise_if mbind result_bind]. rewrite !optional_string_opt. cbn [mbind result_bind].
  rewrite object_dict_str_dict by by apply thaw_ext_NoDup. cbn [mbind result_bind]. unfold make_platform_metadata.
  by rewrite freeze_ext_thaw.
Qed.

(** *** Result envelopes *)

Section envelope_roundtrip.
Context {T : Type} `{!Wire T}.

Definition result_wf (e : ResultEnvelope T) : Prop :=
  Forall wire_wf (items e) ∧ Forall warning_wf (warnings e) ∧
  match page e with Some p => page_wf p | None => True end ∧
  match platform e with Some m => metadata_wf m | None => True end.

Lemma result_roundtrip e : result_wf e →
  ∃ v, result_to_dict (λ x, Ok (to_wire x)) e = Ok v ∧ result_from_dict from_wire v = Ok e.
Proof.
  destruct e as [xs p ws m]. intros (Hx & Hw & Hp & Hm). cbn in Hx, Hw, Hp, Hm.
  assert (∃ d, (match m with Some m => platform_metadata_to_dict m | None => Ok PyNone end) = Ok d ∧
               unless_none platform_metadata_from_dict d = Ok m) as (d & Ed & Hd).
  { destruct m as [m|]; [|by exists PyNone]. destruct (metadata_roundtrip m Hm) as (d & E1 & E2).
    exists (str_dict d). split; [done|].
    transitivity (m ← platform_metadata_from_dict (str_dict d); Ok (Some m)); [reflexivity|by rewrite E2]. }
  assert (Hpage : unless_none page_from_dict (match p with Some p => page_to_dict p | None => PyNone end) = Ok p).
  { destruct p as [p|]; [|done].
    transitivity (p ← page_from_dict (page_to_dict p); Ok (Some p)); [reflexivity|by rewrite page_roundtrip]. }
  unfold result_to_dict. cbn [items platform page warnings].
  assert (map_res (λ x, Ok (to_wire x)) xs = Ok (to_wire <$> xs)) as ->.
  { apply map_res_ok. clear. induction xs; by constructor. }
  cbn [mbind result_bind]. rewrite Ed. eexists. split; [reflexivity|].
  unfold result_from_dict. strict. cbn [as_list mbind result_bind]. rewrite map_wire by done. cbn [mbind result_bind].
  rewrite Hpage. cbn [mbind result_bind].
  pose proof (map_wire (A := WarningRecord) ws Hw) as Hws.
  change (map_res warning_from_dict (warning_to_dict <$> ws) = Ok ws) in Hws. rewrite Hws. cbn [mbind result_bind]. rewrite Hd. done.
Qed.

Lemma result_items_sound v e : result_from_dict from_wire v = Ok e →
  Forall wire_wf (items e) ∧ Forall warning_wf (warnings e) ∧ match page e with Some p => page_wf p | None => True end.
Proof.
  unfold result_from_dict. intros He. inv_ok. split_and!; cbn.
  - by eapply map_wire_sound.
  - match goal with H : map_res warning_from_dict _ = Ok _ |- _ => exact (map_wire_sound (A := WarningRecord) _ _ H) end.
  - match goal with H : unless_none page_from_dict ?v = Ok _ |- _ =>
      unfold unless_none in H; destruct v; inv_ok; try done; by eapply page_sound end.
Qed.
End envelope_roundtrip.

(** *** What the decoders raise *)

Definition decoder_error (e : exn) : Prop := exn_kind e = DataSluiceError ∨ e = unhashable.

Lemma contract_decoder_error path : decoder_error (_contract_error path).
Proof. by left. Qed.
#[local] Hint Resolve contract_decoder_error : datasluice.

Lemma strict_keys value path kind keys versions data :
  _strict_envelope value path kind keys versions = Ok data → keys_are data keys = true.
Proof. unfold _strict_envelope. intros Hv. inv_ok. by qbool. Qed.

(** [decoder_raises] goes through the steps of a decoder. *)
Ltac decoder_raises :=
  repeat first
    [ apply raises_ok | apply raises_if; solve [auto with datasluice] | apply raises_raise; solve [auto with datasluice]
    | eapply field_present; [eassumption|vm_compute; reflexivity]
    | solve [auto with datasluice]
    | match goal with |- raises _ (as_str _ ?v) => unfold as_str; destruct v end
    | match goal with |- raises _ (as_list _ ?v) => unfold as_list; destruct v end
    | match goal with |- raises _ (_optional_string ?v _) => unfold _optional_string; destruct v end
    | match goal with |- raises _ (match ?v with _ => _ end) => destruct v end
    | apply raises_bind;
        [|let a := fresh "a" in let H := fresh "H" in intros a H;
          first [apply strict_keys in H | match type of H with keys_are _ _ = true => idtac end
                |match type of H with raise_if _ _ = Ok _ => destruct a; apply raise_if_ok in H end | clear H]] ].

Lemma object_dict_decoder value path : raises decoder_error (_object_dict value path).
Proof.
  unfold _object_dict, object_dict. destruct value; try (apply raises_raise; auto with datasluice).
  apply copy_entries_raises; [auto with datasluice|]. apply Forall_true. intros. apply raises_ok.
Qed.
#[local] Hint Resolve object_dict_decoder : datasluice.

Lemma strict_decoder value path kind keys versions :
  bool_decide ("schema_version" ∈ keys) = true → bool_decide ("kind" ∈ keys) = true →
  raises decoder_error (_strict_envelope value path kind keys versions).
Proof.
  intros Hv Hk. unfold _strict_envelope. apply raises_bind; [auto with datasluice|]. intros d _.
  apply raises_bind; [apply raises_if; auto with datasluice|]. intros [] Hkeys%raise_if_ok%negb_false_iff.
  apply raises_bind; [by eapply field_present|]. intros v _.
  apply raises_bind; [apply raises_if; by right|]. intros _ _.
  apply raises_bind; [apply raises_if; auto with datasluice|]. intros _ _.
  apply raises_bind; [by eapply field_present|]. intros k _.
  apply raises_bind; [apply raises_if; auto with datasluice|]. intros _ _. apply raises_ok.
Qed.

Lemma freeze_json_decoder v path : raises decoder_error (_freeze_json _contract_error v path).
Proof. apply freeze_json_raises. intros. by left. Qed.
#[local] Hint Resolve freeze_json_decoder : datasluice.

Lemma freeze_ext_decoder v : raises decoder_error (_freeze_extensions _contract_error v).
Proof.
  unfold _freeze_extensions. destruct v; try (apply raises_raise; auto with datasluice);
    (apply copy_entries_raises; [auto with datasluice|]; apply Forall_true; intros; decoder_raises).
Qed.
#[local] Hint Resolve freeze_ext_decoder : datasluice.

Lemma freeze_mapping_decoder v path : raises decoder_error (freeze_mapping _contract_error v path).
Proof.
  unfold freeze_mapping. apply raises_bind; [auto with datasluice|]. intros f _. destruct f; decoder_raises.
  apply copy_entries_raises; [auto with datasluice|]. apply Forall_true. intros. apply raises_ok.
Qed.
#[local] Hint Resolve freeze_mapping_decoder : datasluice.

Lemma catalog_id_decoder v : raises decoder_error (catalog_id_from_dict v).
Proof.
  unfold catalog_id_from_dict. apply raises_bind.
  - unfold open_envelope. apply raises_bind; [auto with datasluice|]. intros d _.
    apply raises_bind; [apply raises_if; auto with datasluice|]. intros [] Hkeys%raise_if_ok%negb_false_iff. decoder_raises.
  - intros d Hd. assert (Hkeys : keys_are d _ID_KEYS = true) by (unfold open_envelope in Hd; inv_ok; by qbool).
    clear Hd. unfold make_platform, make_resource_kind, make_catalog_id. decoder_raises.
Qed.
#[local] Hint Resolve catalog_id_decoder : datasluice.

(** Every decoder of the records, over its strict envelope *)
Ltac record_decoder :=
  apply raises_bind; [by apply strict_decoder|]; let d := fresh "d" in intros d ?%strict_keys; decoder_raises.

Lemma named_decoder n v : raises decoder_error (named_from_dict n v).
Proof. unfold named_from_dict, make_named. destruct n; record_decoder. Qed.
Lemma resource_decoder v : raises decoder_error (resource_from_dict v).
Proof. unfold resource_from_dict, make_resource. record_decoder. Qed.
Lemma page_decoder v : raises decoder_error (page_from_dict v).
Proof. unfold page_from_dict, make_page. record_decoder. Qed.
Lemma warning_decoder v : raises decoder_error (warning_from_dict v).
Proof. unfold warning_from_dict, make_warning. record_decoder. Qed.
Lemma value_decoder v : raises decoder_error (value_from_dict v).
Proof. unfold value_from_dict, make_value_record. record_decoder. Qed.
Lemma mapping_decoder v : raises decoder_error (mapping_from_dict v).
Proof. unfold mapping_from_dict, make_mapping. record_decoder. Qed.
Lemma native_decoder v : raises decoder_error (native_from_dict v).
Proof. unfold native_from_dict, make_native, make_platform, make_resource_kind. record_decoder. Qed.
Lemma metadata_decoder v : raises decoder_error (platform_metadata_from_dict v).
Proof. unfold platform_metadata_from_dict, make_platform_metadata, make_platform. record_decoder. Qed.

Lemma unless_none_decoder {A} (decode : pyval → result A) v :
  (∀ x, raises decoder_error (decode x)) → raises decoder_error (unless_none decode v).
Proof.
  intros Hd. unfold unless_none.
  destruct v; try apply raises_ok; (apply raises_bind; [apply Hd|intros; apply raises_ok]).
Qed.

Lemma result_decoder {T} (decode : pyval → result T) v :
  (∀ x, raises decoder_error (decode x)) → raises decoder_error (result_from_dict decode v).
Proof.
  intros Hd. unfold result_from_dict. apply raises_bind; [by apply strict_decoder|]. intros d ?%strict_keys.
  do 4 (apply raises_bind; [by eapply field_present|]; intros ? _).
  do 2 (apply raises_bind; [decoder_raises|]; intros ? _).
  apply raises_bind; [apply raises_map_res, Forall_true; auto|]. intros ? _.
  apply raises_bind; [apply unless_none_decoder, page_decoder|]. intros ? _.
  apply raises_bind; [apply raises_map_res, Forall_true; intros; apply warning_decoder|]. intros ? _.
  apply raises_bind; [apply unless_none_decoder, metadata_decoder|]. intros ? _. apply raises_ok.
Qed.

(** The projection of an object is an object. *)
Lemma serialized_dict fz (d : pydict) : NoDup d.*1 → Forall (λ kv, json fz kv.2 = true) d →
  ∃ out, _serialized_record_payload (items_of d) = Ok (str_dict out) ∧ plain_dict out.
Proof.
  intros Hnd Hd.
  assert (Hj : json fz (if fz then PyProxy (items_of d) else PyDict (items_of d)) = true).
  { destruct fz; cbn; by apply json_items. }
  assert (E : _record_projection false 0 (PyDict (items_of d)) =
              _record_projection false 0 (if fz then PyProxy (items_of d) else PyDict (items_of d))) by by destruct fz.
  destruct (projection_pays false fz _ (or_intror Hj) 0 _MAX_RECORD_NODES) as (v & b & Hv & _ & _ & _ & _ & Hp).
  unfold _serialized_record_payload. rewrite E, Hv. rewrite <- E in Hv.
  assert (∃ out, v = str_dict out) as [out ->].
  { cbn [_record_projection] in Hv. unfold spend at 1, mbind at 1, M_bind at 1, read, mbind at 1, M_bind at 1, modify in Hv.
    cbn [Nat.eqb orb Nat.leb MAX_METADATA_DEPTH _MAX_RECORD_NODES] in Hv. unfold mbind, M_bind in Hv.
    destruct (project_fields _ _ _ _ _ _) as [[fields|e] b'] in Hv; [|discriminate Hv].
    injection Hv as <- _. by eexists. }
  exists out. split; [done|]. unfold plain in Hp.
  apply json_items_inv in Hp as (d' & Ed & Hnd' & Hd').
  assert (out = d') as ->; [|done]. clear -Ed. unfold items_of in Ed. revert d' Ed.
  induction out as [|[k v] out IH]; intros [|[k' v'] d'] Ed; try done. cbn in Ed. injection Ed as -> -> Ed. f_equal. by apply IH.
Qed.

Lemma freeze_plain_mapping (d : pydict) path : plain_dict d → ∃ f, freeze_mapping _contract_error (str_dict d) path = Ok f.
Proof.
  intros [Hnd Hd]. unfold freeze_mapping.
  destruct (thaw_freeze _contract_error (str_dict d)) with (path := path) as (f & Hf & _).
  { unfold plain. cbn. by apply json_items. }
  rewrite Hf. cbn. pose proof (freeze_json_frozen _ _ _ _ Hf) as Hz.
  cbn in Hf. inv_ok. unfold frozen in Hz. cbn in Hz. apply json_items_inv in Hz as (d' & -> & Hnd' & _).
  rewrite copy_entries_id by done. by eexists.
Qed.

(** ** Properties *)

(** A result envelope round-trips: for records with a strict envelope of
    their own, the decoder reads back every envelope that is well formed -
    pages with a total that is not negative, warnings with texts, deployment
    metadata that redaction leaves alone - and whatever it accepts has
    well-formed items, warnings and page. *)
Theorem result_envelope_roundtrip {T} `{!Wire T} :
  (∀ e, result_wf e → ∃ v, result_to_dict (λ x, Ok (to_wire x)) e = Ok v ∧ result_from_dict from_wire v = Ok e) ∧
  (∀ v e, result_from_dict from_wire v = Ok e →
     Forall wire_wf (items e) ∧ Forall warning_wf (warnings e) ∧ match page e with Some p => page_wf p | None => True end).
Proof. split; [apply result_roundtrip|apply result_items_sound]. Qed.

(** a decoder raises the contract error [DataSluiceError] on every value
    that is no envelope, whatever its shape; the one other exception that
    leaves it is the [TypeError] of a schema version that cannot be hashed. *)
Theorem decoders_raise_contract_errors v e :
  (∀ n r, result_from_dict (named_from_dict n) v = r → r = Raise e → exn_kind e = DataSluiceError ∨ e = unhashable) ∧
  (result_from_dict resource_from_dict v = Raise e → exn_kind e = DataSluiceError ∨ e = unhashable) ∧
  (native_from_dict v = Raise e → exn_kind e = DataSluiceError ∨ e = unhashable) ∧
  (mapping_from_dict v = Raise e → exn_kind e = DataSluiceError ∨ e = unhashable) ∧
  (value_from_dict v = Raise e → exn_kind e = DataSluiceError ∨ e = unhashable).
Proof.
  split_and!.
  - intros n r <-. apply (result_decoder (named_from_dict n)), named_decoder.
  - apply (result_decoder resource_from_dict), resource_decoder.
  - apply native_decoder.
  - apply mapping_decoder.
  - apply value_decoder.
Qed.

(** A payload whose schema version is a list makes the dataset decoder
    raise a [TypeError] that is no [DataSluiceError]. *)
Theorem unhashable_version_escapes :
  named_from_dict Dataset (str_dict [("schema_version", PyList []); ("kind", PyStr "dataset"); ("id", PyNone);
    ("name", PyStr "air"); ("description", PyNone); ("extensions", PyDict [])]) = Raise unhashable ∧
  is_subclass (exn_kind unhashable) DataSluiceError = false.
Proof. split; reflexivity. Qed.

(** What a mapping record serializes is a mapping record again: its
    bounded, redacted copy is always built and is accepted by the decoder. *)
Theorem mapping_record_reread r :
  frozen_dict (map_payload r) → ∃ v r', mapping_to_dict r = Ok v ∧ mapping_from_dict v = Ok r' ∧ frozen_dict (map_payload r').
Proof.
  intros [Hnd Hd]. destruct (serialized_dict true _ Hnd Hd) as (out & E & Hp).
  unfold mapping_to_dict. rewrite E. eexists. destruct (freeze_plain_mapping out _MAPPING_RECORD_PAYLOAD_PATH Hp) as [f Hf].
  exists {| map_payload := f |}. split; [reflexivity|]. split; [|by eapply freeze_mapping_ok].
  unfold mapping_from_dict. strict. rewrite object_dict_str_dict by apply Hp. cbn [mbind result_bind].
  unfold make_mapping. by rewrite Hf.
Qed.

Definition sample_dataset : NamedRecord :=
  {| nr_id := {| id_platform := {| platform_value := "ckan" |}; id_resource_kind := {| kind_value := "dataset" |}; id_value := "air" |};
     nr_name := "Air quality"; nr_text := None; nr_extensions := [("org.example", PyTuple [PyInt 1])] |}.
Definition sample_result : ResultEnvelope NamedRecord :=
  {| items := [sample_dataset]; page := Some {| page_cursor := None; next_cursor := Some "2"; total_items := Some 12 |};
     warnings := [{| warning_code := "slow"; warning_message := "The deployment is slow." |}];
     platform := Some {| pm_platform := {| platform_value := "ckan" |}; api_version := Some "3"; deployment := None;
                         pm_extensions := [] |} |}.

Lemma sample_result_wf : @result_wf NamedRecord (named_wire Dataset) sample_result.
Proof.
  split; [|split; [|split]].
  - constructor; [|constructor]. split; [split; [split; [vm_compute; reflexivity|split; [vm_compute; reflexivity|discriminate]]|]|split].
    + vm_compute; reflexivity.
    + discriminate.
    + split; [split; [apply NoDup_singleton|repeat constructor]|repeat constructor].
  - constructor; [split; discriminate|constructor].
  - discriminate.
  - split; [vm_compute; reflexivity|]. split; [split; [split|]; constructor|reflexivity].
Defined.

Lemma result_envelope_roundtrip_witness :
  ∃ v, result_to_dict (λ x, Ok (named_to_dict Dataset x)) sample_result = Ok v ∧
       result_from_dict (named_from_dict Dataset) v = Ok sample_result.
Proof.
  destruct (@result_envelope_roundtrip NamedRecord (named_wire Dataset)) as [H _].
  exact (H sample_result sample_result_wf).
Defined.

Lemma decoders_raise_contract_errors_witness :
  exn_kind (_contract_error "value_record") = DataSluiceError ∨ _contract_error "value_record" = unhashable.
Proof. apply (decoders_raise_contract_errors (PyInt 3) (_contract_error "value_record")). reflexivity. Defined.

Lemma mapping_record_reread_witness :
  ∃ v r', mapping_to_dict {| map_payload := [("title", PyStr "Air"); ("rows", PyInt 3)] |} = Ok v ∧
          mapping_from_dict v = Ok r' ∧ frozen_dict (map_payload r').
Proof.
  apply mapping_record_reread. split; [apply (bool_decide_unpack _); vm_compute; exact I|repeat constructor].
Defined.
