(* ===== verification/Events.v ===== *)
(** * Runtime events

    [runtime/events.py]: the versioned event envelope, the bounded in-process
    sink and the emitter that redacts metadata once and fans the envelope out.
    Sinks and the provider of correlation identifiers are callables of the
    caller: computations on a state [W] that may raise.  The OpenTelemetry
    bridge only calls its SDK and is not modelled. *)
From Stdlib Require Import ZArith Lia.
From stdpp Require Import strings.
From S2P Require Import Prelude PyVal Redaction Json Artifact.
Local Open Scope Z_scope.
Local Open Scope py_scope.

Definition _INVALID_RUNTIME_EVENT_ENVELOPE : exn := err ValueError "Invalid schema-v1 runtime event envelope.".
Definition _EVENT_KEYS : list string :=
  ["schema_version"; "kind"; "operation_id"; "platform"; "outcome"; "correlation_ids"; "metadata"].

(** ** EventEnvelope *)

Definition text_error (path : string) : exn :=
  err ValueError ("Runtime event " +:+ path +:+ " must be a non-empty string.").
Definition _required_event_text (value : pyval) (path : string) : result string :=
  match value with
  | PyStr s => raise_if (negb (str_nonempty s)) (text_error path);; Ok s
  | _ => Raise (text_error path)
  end.

(** A frozen mapping is a mapping. *)
Definition _frozen_mapping (value : pyval) (path : string) : result pydict :=
  raise_if (negb (is_mapping value)) (err ValueError ("Runtime event " +:+ path +:+ " must be a mapping."));;
  freeze_mapping _contract_error value ("runtime_event." +:+ path).

Record EventEnvelope := {
  ev_operation_id : string; ev_platform : string; ev_outcome : string;
  correlation_ids : pydict; ev_metadata : pydict
}.

Definition make_event (operation_id platform outcome : string) (correlation metadata : pyval) : result EventEnvelope :=
  _required_event_text (PyStr operation_id) "operation_id";;
  _required_event_text (PyStr platform) "platform";;
  _required_event_text (PyStr outcome) "outcome";;
  c ← _frozen_mapping correlation "correlation_ids";
  m ← _frozen_mapping metadata "metadata";
  Ok {| ev_operation_id := operation_id; ev_platform := platform; ev_outcome := outcome;
        correlation_ids := c; ev_metadata := m |}.

Definition event_to_dict (e : EventEnvelope) : pyval :=
  str_dict [("schema_version", PyInt 1); ("kind", PyStr "runtime_event"); ("operation_id", PyStr (ev_operation_id e));
            ("platform", PyStr (ev_platform e)); ("outcome", PyStr (ev_outcome e));
            ("correlation_ids", _thaw_json (PyProxy (items_of (correlation_ids e))));
            ("metadata", _thaw_json (PyProxy (items_of (ev_metadata e))))].

(** The body of the [try] of [from_dict] *)
Definition event_decode (value : pyval) : result EventEnvelope :=
  data ← _object_dict value "runtime_event";
  raise_if (negb (keys_are data _EVENT_KEYS)) _INVALID_RUNTIME_EVENT_ENVELOPE;;
  version ← field data "schema_version";
  raise_if (negb (py_eq_int version 1) || negb (type_is_int version)) _INVALID_RUNTIME_EVENT_ENVELOPE;;
  kind ← field data "kind";
  raise_if (negb (py_eq_str kind "runtime_event")) _INVALID_RUNTIME_EVENT_ENVELOPE;;
  v ← field data "operation_id"; operation_id ← _required_event_text v "operation_id";
  v ← field data "platform"; platform ← _required_event_text v "platform";
  v ← field data "outcome"; outcome ← _required_event_text v "outcome";
  v ← field data "correlation_ids"; correlation ← _object_dict v "runtime_event.correlation_ids";
  v ← field data "metadata"; metadata ← _object_dict v "runtime_event.metadata";
  make_event operation_id platform outcome (str_dict correlation) (str_dict metadata).

Definition event_from_dict (value : pyval) : result EventEnvelope :=
  match event_decode value with
  | Raise e => if is_subclass (exn_kind e) DataSluiceError then Raise _INVALID_RUNTIME_EVENT_ENVELOPE else Raise e
  | Ok e => Ok e
  end.

(** ** ListSink *)

(** The bound and the events of the deque, the oldest first *)
Record ListSink := { max_events : Z; sink_events : list EventEnvelope }.

Definition make_list_sink (bound : Z) : result ListSink :=
  raise_if (bound <? 1) (err ValueError "List sinks require a positive event bound.");;
  Ok {| max_events := bound; sink_events := [] |}.

(** [deque.append] of a deque with a [maxlen] *)
Definition list_sink_record (event : EventEnvelope) (s : ListSink) : ListSink :=
  let l := sink_events s ++ [event] in
  {| max_events := max_events s;
     sink_events := if max_events s <? Z.of_nat (length l) then tail l else l |}.

(** ** EventEmitter *)

Record EventEmitter (W : Type) := {
  em_sinks : list (EventEnvelope → M W unit);
  em_provider : option (M W pydict);
  em_no_redact : bool
}.
Arguments em_sinks {W}.
Arguments em_provider {W}.
Arguments em_no_redact {W}.

(** [except Exception]: log and continue. *)
Definition swallow {W A} (default : A) (m : M W A) : M W A :=
  try_except m (λ e, if is_Exception (exn_kind e) then Some (mret default) else None).

Definition fan_out {W} (envelope : EventEnvelope) : list (EventEnvelope → M W unit) → M W unit :=
  fix go sinks := match sinks with [] => mret tt | sink :: sinks' => swallow tt (sink envelope);; go sinks' end.

Definition emitter_record {W} (self : EventEmitter W) (operation_id platform outcome : string)
    (metadata correlation : option pydict) : M W EventEnvelope :=
  active ← match em_provider self with None => mret [] | Some provider => swallow [] provider end;
  let merged := dict_merge active (default [] correlation) in
  envelope ← lift_res (make_event operation_id platform outcome
    (PyProxy (items_of (redact_event_metadata (em_no_redact self) merged)))
    (str_dict (redact_event_metadata (em_no_redact self) (default [] metadata))));
  fan_out envelope (em_sinks self);;
  mret envelope.

(** ** Lemmas *)

(** What [_freeze_json] accepts: JSON values in any container, finite numbers. *)
Fixpoint freezable (v : pyval) : bool :=
  match v with
  | PyNone | PyStr _ | PyBool _ | PyInt _ | PyFloat (FFin _) => true
  | PyList l | PyTuple l => forallb freezable l
  | PyDict kvs | PyProxy kvs =>
      forallb (λ kv, match kv.1 with PyStr _ => true | _ => false end && freezable kv.2) kvs
  | _ => false
  end.
Definition freezable_dict (d : pydict) : Prop := Forall (λ kv, freezable kv.2 = true) d.

Lemma freezable_items d : freezable_dict d ↔ freezable (str_dict d) = true.
Proof.
  unfold freezable_dict, str_dict. cbn. rewrite forallb_Forall, Forall_fmap.
  split; intros H; (eapply Forall_impl; [exact H|]); by intros [k v].
Qed.

Lemma freezable_keys kvs :
  forallb (λ kv, match kv.1 with PyStr _ => true | _ => false end && freezable kv.2) kvs = true →
  ∃ d, kvs = items_of d ∧ freezable_dict d.
Proof.
  intros H. induction kvs as [|[k v] kvs IH]; [exists []; split; [done|constructor]|].
  cbn in H. apply andb_true_iff in H as [[Hk Hv]%andb_true_iff H]. destruct (IH H) as (d & -> & Hd).
  destruct k; try done. exists ((s, v) :: d). split; [done|]. by constructor.
Qed.

Lemma freezable_ok error v : freezable v = true → ∀ path, ∃ f, _freeze_json error v path = Ok f.
Proof.
  assert (Hdict : ∀ kvs, Forall (λ kv, freezable kv.2 = true → ∀ path, ∃ f, _freeze_json error kv.2 path = Ok f) kvs →
    forallb (λ kv, match kv.1 with PyStr _ => true | _ => false end && freezable kv.2) kvs = true → ∀ path,
    ∃ d, copy_entries (error path) (λ k v, _freeze_json error v (path +:+ "." +:+ k)) kvs [] = Ok d).
  { intros kvs IH H path. apply freezable_keys in H as (d & -> & Hd).
    assert (∃ out, Forall2 (λ a b, a.1 = b.1 ∧ _freeze_json error a.2 (path +:+ "." +:+ a.1) = Ok b.2) d out) as [out Hout].
    { unfold items_of in IH. rewrite Forall_fmap in IH. clear -IH Hd. induction Hd as [|[k x] d Hx _ IHd]; [by exists []|].
      inversion_clear IH as [|? ? H1 H2]. destruct IHd as [out Hout]; [done|].
      destruct (H1 Hx (path +:+ "." +:+ k)) as [f Hf]. exists ((k, f) :: out). by constructor. }
    eexists. by apply (copy_entries_total _ (λ k v, _freeze_json error v (path +:+ "." +:+ k)) d out). }
  assert (Hlist : ∀ l, Forall (λ v, freezable v = true → ∀ path, ∃ f, _freeze_json error v path = Ok f) l →
    forallb freezable l = true → ∀ path, ∃ ys, map_res (λ v, _freeze_json error v path) l = Ok ys).
  { intros l IH Hl%forallb_Forall path. clear Hdict. induction Hl as [|x l Hx _ IHl]; [by exists []|].
    inversion_clear IH as [|? ? H1 H2]. destruct IHl as [ys Hys]; [done|]. destruct (H1 Hx path) as [y Hy].
    exists (y :: ys). cbn. rewrite Hy. cbn. by rewrite Hys. }
  induction v as [|bb|zz|f|ss|s t|l IH|l IH|kvs IH|kvs IH|r] using pyval_nested_ind; intros Hv path; try discriminate Hv;
    try (by eexists).
  - destruct f; try discriminate Hv. by eexists.
  - cbn. destruct (Hlist l IH Hv path) as [ys ->]. by eexists.
  - cbn. destruct (Hlist l IH Hv path) as [ys ->]. by eexists.
  - cbn. destruct (Hdict kvs IH Hv path) as [d ->]. by eexists.
  - cbn. destruct (Hdict kvs IH Hv path) as [d ->]. by eexists.
Qed.

Lemma freezable_mapping error d path : freezable_dict d →
  (∃ f, freeze_mapping error (str_dict d) path = Ok f) ∧
  freeze_mapping error (PyProxy (items_of d)) path = freeze_mapping error (str_dict d) path.
Proof.
  intros Hd. split; [|done]. unfold freeze_mapping. apply freezable_items in Hd.
  destruct (freezable_ok error (str_dict d) Hd path) as [f Hf]. rewrite Hf. cbn.
  pose proof (freeze_json_frozen _ _ _ _ Hf) as Hz. cbn in Hf. inv_ok. unfold frozen in Hz. cbn in Hz.
  apply json_items_inv in Hz as (d' & -> & Hnd & _). rewrite copy_entries_id by done. by eexists.
Qed.

Lemma bounded_freezable v : freezable v = true → freezable (bounded v) = true.
Proof. by destruct v. Qed.

Lemma redact_items_freezable f kvs n :
  Forall (λ kv, freezable (f kv.2) = true) kvs → freezable_dict (mark_cut n (redact_entries f MAX_METADATA_ENTRIES kvs [])).
Proof.
  intros Hf. apply (mark_cut_Forall (λ v, freezable v = true)); [done|].
  by apply (redact_entries_Forall f (λ v, freezable v = true)).
Qed.

Lemma redact_value_freezable v : freezable v = true → ∀ depth, freezable (redact_value depth v) = true.
Proof.
  induction v as [|bb|zz|f|ss|s t|l IH|l IH|kvs IH|kvs IH|r] using pyval_nested_ind; intros Hv depth; try done;
    cbn [redact_value]; (case_match; [done|]); cbn [freezable] in Hv.
  1-2: cbn [freezable]; apply forallb_Forall, (cut_items_Forall (λ v, freezable v = true)); [done|];
    apply (redact_items_Forall _ (λ v, freezable v = true)); apply forallb_Forall in Hv;
    rewrite Forall_forall in *; intros x Hx; apply IH; [done|by apply Hv].
  all: apply freezable_items, redact_items_freezable; apply forallb_Forall in Hv; rewrite Forall_forall in *;
    intros kv Hkv; apply bounded_freezable, IH; [done|]; specialize (Hv kv Hkv); by apply andb_true_iff in Hv as [_ ?].
Qed.

Lemma redact_metadata_freezable nr d : freezable_dict d → freezable_dict (redact_event_metadata nr d).
Proof.
  intros Hd. unfold redact_event_metadata. destruct nr; [done|]. unfold redact_mapping.
  change ((MAX_METADATA_DEPTH <=? 0)%nat) with false. cbv iota. apply redact_items_freezable.
  unfold items_of. apply Forall_fmap. eapply Forall_impl; [exact Hd|]. intros [k v] Hv.
  by apply bounded_freezable, redact_value_freezable.
Qed.

(** Freezing keeps the texts of a clean mapping. *)
Lemma freeze_mapping_Forall error (d : pydict) path f :
  freeze_mapping error (str_dict d) path = Ok f → NoDup d.*1 →
  Forall2 (λ a b, a.1 = b.1 ∧ _freeze_json error a.2 (path +:+ "." +:+ a.1) = Ok b.2) d f.
Proof.
  unfold freeze_mapping. intros Hf Hnd. inv_ok. cbn in H. inv_ok.
  apply copy_entries_ok in H0 as (src & E & out & Hout & ->).
  assert (src = d) as ->.
  { clear -E. revert src E. induction d as [|[k v] d IH]; intros [|[k' v'] src] E; try done.
    cbn in E. injection E as -> -> E. f_equal. by apply IH. }
  assert (Hk : out.*1 = d.*1).
  { clear -Hout. induction Hout as [|x y d out [H _] _ IH]; [done|]. cbn. by rewrite H, IH. }
  rewrite dict_merge_nil in Hf by by rewrite Hk. rewrite copy_entries_id in Hf by by rewrite Hk.
  injection Hf as <-. done.
Qed.

Lemma redacted_keys nr d : NoDup d.*1 → NoDup (redact_event_metadata nr d).*1.
Proof.
  intros Hd. unfold redact_event_metadata. destruct nr; [done|]. unfold redact_mapping.
  change ((MAX_METADATA_DEPTH <=? 0)%nat) with false. cbv iota. clear Hd.
  assert (H : ∀ f n kvs acc, NoDup acc.*1 → NoDup (redact_entries f n kvs acc).*1).
  { intros f n kvs. revert n. induction kvs as [|[k v] kvs IH]; intros [|n] acc Hacc; try done. cbn. apply IH.
    destruct k; try done. destruct (str_nonempty s); [|done]. rewrite dict_set_keys.
    case_bool_decide; [done|]. apply NoDup_app. split_and!; [done|set_solver|apply NoDup_singleton]. }
  assert (Hr : ∀ l : pydict, NoDup l.*1 → NoDup (removelast l).*1).
  { intros [|x l] Hl; [done|]. rewrite (app_removelast_last (l := x :: l) x) in Hl by done. rewrite fmap_app in Hl.
    by apply NoDup_app in Hl as (? & _ & _). }
  unfold mark_cut. case_match; [|apply H; constructor]. rewrite dict_set_keys.
  assert (Hn := Hr _ (H (_bounded_entry 1) MAX_METADATA_ENTRIES (items_of d) [] (NoDup_nil_2))).
  case_bool_decide; [done|]. apply NoDup_app. split_and!; [done|set_solver|apply NoDup_singleton].
Qed.

Definition event_wf (e : EventEnvelope) : Prop :=
  ev_operation_id e ≠ "" ∧ ev_platform e ≠ "" ∧ ev_outcome e ≠ "" ∧
  frozen_dict (correlation_ids e) ∧ frozen_dict (ev_metadata e).

Lemma event_text s path : s ≠ "" → _required_event_text (PyStr s) path = Ok s.
Proof. intros Hs%str_nonempty_true. unfold _required_event_text. by rewrite Hs. Qed.

Lemma event_text_ok v path s : _required_event_text v path = Ok s → v = PyStr s ∧ s ≠ "".
Proof.
  destruct v; try done. cbn. intros H. inv_ok. qbool. split; [done|]. by apply str_nonempty_true.
Qed.

Lemma frozen_thaw d path : frozen_dict d → _frozen_mapping (str_dict (thaw_dict d)) path = Ok d.
Proof. intros Hd. unfold _frozen_mapping. cbn [is_mapping str_dict negb raise_if mbind result_bind]. by apply freeze_mapping_thaw. Qed.

Lemma make_event_wf op pl out c m e : make_event op pl out c m = Ok e →
  event_wf e ∧ ev_operation_id e = op ∧ ev_platform e = pl ∧ ev_outcome e = out.
Proof.
  unfold make_event, _frozen_mapping. intros He. inv_ok.
  repeat match goal with H : _required_event_text (PyStr _) _ = Ok _ |- _ => apply event_text_ok in H as [[= <-] H] end.
  split; [|done]. split_and!; cbn; try assumption; by eapply freeze_mapping_ok.
Qed.

Lemma event_roundtrip_lemma e : event_wf e → event_from_dict (event_to_dict e) = Ok e.
Proof.
  destruct e as [op pl out c m]. intros (Ho & Hp & Hu & Hc & Hm). cbn in *.
  unfold event_from_dict, event_decode, event_to_dict. cbn [ev_operation_id ev_platform ev_outcome correlation_ids ev_metadata].
  rewrite !thaw_proxy. rewrite object_dict_str_dict by literal_keys. cbn [mbind result_bind].
  change (raise_if (negb (keys_are _ _EVENT_KEYS)) _) with (Ok tt). literal_fields.
  change (raise_if (negb (py_eq_int (PyInt 1) 1) || negb (type_is_int (PyInt 1))) _) with (Ok tt).
  change (raise_if (negb (py_eq_str (PyStr "runtime_event") "runtime_event")) _) with (Ok tt). cbn [mbind result_bind].
  rewrite !event_text by done. cbn [mbind result_bind].
  rewrite !object_dict_str_dict by (rewrite thaw_dict_keys; first [apply Hc|apply Hm]). cbn [mbind result_bind].
  unfold make_event. rewrite !event_text by done. cbn [mbind result_bind]. by rewrite !frozen_thaw.
Qed.

(** Every sink is called once, in order, whatever the others raise. *)
Lemma fan_out_all {W} (e : EventEnvelope) (sinks : list (EventEnvelope → M W unit)) s :
  Forall (λ sink, ∀ s x s', sink e s = (Raise x, s') → is_Exception (exn_kind x) = true) sinks →
  fan_out e sinks s = (Ok tt, foldl (λ s sink, (sink e s).2) s sinks).
Proof.
  intros Hs. revert s. induction Hs as [|sink sinks Hk _ IH]; intros s; [done|].
  cbn. unfold mbind, M_bind, swallow, try_except. destruct (sink e s) as [[[]|x] s'] eqn:E; [apply IH|].
  rewrite (Hk s x s' E). apply IH.
Qed.

(** The body of the decoder raises a contract error or a [ValueError]. *)
Definition event_error (e : exn) : Prop := exn_kind e = DataSluiceError ∨ exn_kind e = ValueError.

Lemma event_text_raises v path : raises event_error (_required_event_text v path).
Proof. destruct v; try (apply raises_raise; by right). cbn. apply raises_bind; [apply raises_if; by right|]. intros. apply raises_ok. Qed.

Lemma event_object_raises v path : raises event_error (_object_dict v path).
Proof.
  unfold _object_dict, object_dict. destruct v; try (apply raises_raise; by left).
  apply copy_entries_raises; [by left|]. apply Forall_true. intros. apply raises_ok.
Qed.

Lemma frozen_mapping_raises v path : raises event_error (_frozen_mapping v path).
Proof.
  unfold _frozen_mapping, freeze_mapping. apply raises_bind; [apply raises_if; by right|]. intros _ _.
  apply raises_bind; [apply freeze_json_raises; intros; by left|]. intros f _.
  destruct f; try (apply raises_raise; by left). apply copy_entries_raises; [by left|]. apply Forall_true. intros. apply raises_ok.
Qed.

Lemma event_decode_raises v : raises event_error (event_decode v).
Proof.
  unfold event_decode, make_event. apply raises_bind; [apply event_object_raises|]. intros d _.
  apply raises_bind; [apply raises_if; by right|]. intros [] Hk%raise_if_ok%negb_false_iff.
  repeat (apply raises_bind; [first [by eapply field_present|apply raises_if; by right|apply event_text_raises
    |apply event_object_raises|apply frozen_mapping_raises]|intros ? _]).
  apply raises_ok.
Qed.

Lemma emitter_ok {W} (self : EventEmitter W) op pl out md corr s :
  op ≠ "" → pl ≠ "" → out ≠ "" →
  NoDup (default [] md).*1 → freezable_dict (default [] md) → NoDup (default [] corr).*1 → freezable_dict (default [] corr) →
  (∀ m, em_provider self = Some m → ∀ s,
     match m s with (Ok d, _) => freezable_dict d | (Raise x, _) => is_Exception (exn_kind x) = true end) →
  (∀ e, Forall (λ sink : EventEnvelope → M W unit, ∀ s x s', sink e s = (Raise x, s') → is_Exception (exn_kind x) = true) (em_sinks self)) →
  ∃ e, emitter_record self op pl out md corr s =
         (Ok e, foldl (λ s sink, (sink e s).2) (match em_provider self with None => s | Some m => (m s).2 end) (em_sinks self)) ∧
       event_wf e ∧ ev_operation_id e = op ∧ ev_platform e = pl ∧ ev_outcome e = out ∧
       freeze_mapping _contract_error (str_dict (redact_event_metadata (em_no_redact self) (default [] md)))
         "runtime_event.metadata" = Ok (ev_metadata e) ∧
       (em_no_redact self = false →
        Forall (λ kv, is_sensitive_record_key kv.1 = true → kv.2 = PyStr REDACTED) (ev_metadata e)).
Proof.
  intros Hop Hpl Hout Hmd Hfm Hcd Hfc Hprov Hsinks. unfold emitter_record.
  set (s1 := match em_provider self with None => s | Some m => (m s).2 end).
  assert (∃ active, (match em_provider self with None => mret [] | Some provider => swallow [] provider end) s = (Ok active, s1) ∧
            freezable_dict active) as (active & Ea & Hfa).
  { unfold s1. destruct (em_provider self) as [m|]; [|exists []; split; [done|constructor]]. specialize (Hprov m eq_refl s).
    unfold swallow, try_except. destruct (m s) as [[d|x] s']; [by exists d|]. rewrite Hprov. exists []. split; [done|constructor]. }
  unfold mbind at 1, M_bind at 1. rewrite Ea.
  set (merged := dict_merge active (default [] corr)).
  assert (Hmerged : freezable_dict merged) by by apply (dict_merge_Forall (λ v, freezable v = true)).
  set (nr := em_no_redact self).
  destruct (freezable_mapping _contract_error (redact_event_metadata nr merged) "runtime_event.correlation_ids")
    as [[c Hc] Hproxy]; [by apply redact_metadata_freezable|].
  destruct (freezable_mapping _contract_error (redact_event_metadata nr (default [] md)) "runtime_event.metadata")
    as [[m Hm] _]; [by apply redact_metadata_freezable|].
  set (e := {| ev_operation_id := op; ev_platform := pl; ev_outcome := out; correlation_ids := c; ev_metadata := m |}).
  assert (Hmake : make_event op pl out (PyProxy (items_of (redact_event_metadata nr merged)))
                    (str_dict (redact_event_metadata nr (default [] md))) = Ok e).
  { unfold make_event, _frozen_mapping. rewrite !event_text by done.
    cbn [mbind result_bind is_mapping negb raise_if str_dict].
    change ("runtime_event." +:+ "correlation_ids") with "runtime_event.correlation_ids".
    change ("runtime_event." +:+ "metadata") with "runtime_event.metadata".
    rewrite Hproxy, Hc. cbn [mbind result_bind].
    change (PyDict (prod_map PyStr id <$> redact_event_metadata nr (default [] md))) with
      (str_dict (redact_event_metadata nr (default [] md))).
    rewrite Hm. done. }
  exists e. unfold mbind, M_bind, lift_res. rewrite Hmake. rewrite fan_out_all by apply Hsinks. split; [done|].
  apply make_event_wf in Hmake as (Hwf & _). split_and!; try done.
  intros Hn. apply freeze_mapping_Forall in Hm; [|by apply redacted_keys]. subst nr. rewrite Hn in Hm.
  pose proof (redact_mapping_clean 0 (items_of (default [] md))) as [_ Hclean].
  cbn [ev_metadata e]. unfold redact_event_metadata in Hm. revert Hclean Hm.
  generalize (redact_mapping 0 (items_of (default [] md))) as d. clear. intros d Hclean Hm.
  induction Hm as [|a b d m [Hk Hv] _ IH]; [constructor|]. inversion_clear Hclean as [|? ? (_ & Hs & _) Hrest].
  constructor; [|by apply IH]. rewrite <- Hk. intros Hsens. rewrite (Hs Hsens) in Hv. by injection Hv as <-.
Qed.

(** ** Properties *)

(** the event envelope is strict: every well-formed event reads back from
    what it writes; whatever the decoder accepts is well formed; and what it
    refuses, whatever its shape, raises a [ValueError]. *)
Theorem event_envelope_roundtrip :
  (∀ e, event_wf e → event_from_dict (event_to_dict e) = Ok e) ∧
  (∀ v e, event_from_dict v = Ok e → event_wf e) ∧
  (∀ v x, event_from_dict v = Raise x → exn_kind x = ValueError).
Proof.
  split; [apply event_roundtrip_lemma|]. split.
  - intros v e He. unfold event_from_dict in He. destruct (event_decode v) as [e'|] eqn:E; [|by case_match].
    injection He as ->. unfold event_decode in E. inv_ok. by eapply make_event_wf in E as [? _].
  - intros v x Hx. unfold event_from_dict in Hx. destruct (event_decode v) as [|y] eqn:E; [done|].
    destruct (is_subclass (exn_kind y) DataSluiceError) eqn:Es; injection Hx as <-; [done|].
    by destruct (event_decode_raises v y E) as [H|H]; [rewrite H in Es|].
Qed.

(** emitting is total, redacted and fault-isolated: with texts that are
    not empty and JSON metadata, and whatever the provider and the sinks raise
    short of a cancellation, [record] builds the envelope - its metadata the
    frozen redaction of what was given, with the marker under every sensitive
    key unless redaction is disabled - and hands that one envelope to every
    sink, once and in registration order. *)
Theorem emitter_delivers {W} (self : EventEmitter W) op pl out md corr s :
  op ≠ "" → pl ≠ "" → out ≠ "" →
  NoDup (default [] md).*1 → freezable_dict (default [] md) → NoDup (default [] corr).*1 → freezable_dict (default [] corr) →
  (∀ m, em_provider self = Some m → ∀ s,
     match m s with (Ok d, _) => freezable_dict d | (Raise x, _) => is_Exception (exn_kind x) = true end) →
  (∀ e, Forall (λ sink : EventEnvelope → M W unit, ∀ s x s', sink e s = (Raise x, s') → is_Exception (exn_kind x) = true) (em_sinks self)) →
  ∃ e, emitter_record self op pl out md corr s =
         (Ok e, foldl (λ s sink, (sink e s).2) (match em_provider self with None => s | Some m => (m s).2 end) (em_sinks self)) ∧
       event_wf e ∧ ev_operation_id e = op ∧ ev_platform e = pl ∧ ev_outcome e = out ∧
       freeze_mapping _contract_error (str_dict (redact_event_metadata (em_no_redact self) (default [] md)))
         "runtime_event.metadata" = Ok (ev_metadata e) ∧
       (em_no_redact self = false →
        Forall (λ kv, is_sensitive_record_key kv.1 = true → kv.2 = PyStr REDACTED) (ev_metadata e)).
Proof. apply emitter_ok. Qed.

(** The in-process sink is bounded: after any sequence of events it holds
    the last [max_events] of them, in order, and never more. *)
Theorem list_sink_keeps_latest bound s0 (events : list EventEnvelope) :
  make_list_sink bound = Ok s0 →
  let s := foldl (λ s e, list_sink_record e s) s0 events in
  sink_events s = drop (length events - Z.to_nat bound) events ∧
  Z.of_nat (length (sink_events s)) <= bound.
Proof.
  intros Hs0. unfold make_list_sink in Hs0. inv_ok. apply Z.ltb_ge in H. cbn zeta.
  assert (Hr : ∀ k e, list_sink_record e {| max_events := bound; sink_events := k |} =
    {| max_events := bound; sink_events := if bound <? Z.of_nat (length k + 1) then tail (k ++ [e]) else k ++ [e] |}).
  { intros k e. unfold list_sink_record. cbn [max_events sink_events]. by rewrite length_app. }
  assert (Hk : ∀ l k, (length k ≤ Z.to_nat bound)%nat →
    foldl (λ s e, list_sink_record e s) {| max_events := bound; sink_events := k |} l =
    {| max_events := bound; sink_events := drop (length k + length l - Z.to_nat bound) (k ++ l) |}).
  { induction l as [|e l IH]; intros k Hk; cbn [foldl].
    - f_equal. rewrite app_nil_r. cbn. rewrite Nat.add_0_r. replace (length k - Z.to_nat bound)%nat with 0%nat by lia. done.
    - rewrite Hr.
      destruct (Z.ltb_spec bound (Z.of_nat (length k + 1))) as [Hlt|Hge].
      + destruct k as [|x k]; [cbn in Hlt; lia|]. cbn [app tail]. cbn [length] in Hlt, Hk.
        rewrite IH by (rewrite length_app; cbn; lia). rewrite <- app_assoc, length_app. cbn [app length].
        replace (S (length k) + S (length l) - Z.to_nat bound)%nat
          with (S (length k + 1 + length l - Z.to_nat bound)) by lia. done.
      + rewrite IH by (rewrite length_app; cbn; lia). rewrite <- app_assoc, length_app. cbn [app length].
        replace (length k + 1 + length l)%nat with (length k + S (length l))%nat by lia. done. }
  rewrite Hk by (cbn; lia). cbn [sink_events length app]. split; [done|]. rewrite length_drop. lia.
Qed.

(** A provider that fails and two sinks, the first of which fails too. *)
Definition sample_emitter : EventEmitter (list EventEnvelope) :=
  {| em_sinks := [λ e s, (Raise (err OSError "full"), s); λ e s, (Ok tt, s ++ [e])];
     em_provider := Some (λ s, (Raise (err RuntimeError "no span"), s)); em_no_redact := false |}.

Lemma event_envelope_roundtrip_witness :
  event_from_dict (event_to_dict {| ev_operation_id := "ckan/datasets.list"; ev_platform := "ckan"; ev_outcome := "failed";
     correlation_ids := []; ev_metadata := [("retry_count", PyInt 2)] |}) =
  Ok {| ev_operation_id := "ckan/datasets.list"; ev_platform := "ckan"; ev_outcome := "failed";
        correlation_ids := []; ev_metadata := [("retry_count", PyInt 2)] |}.
Proof.
  apply (proj1 event_envelope_roundtrip). split_and!; try discriminate; (split; [|repeat constructor]);
    [apply NoDup_nil_2|apply NoDup_singleton].
Defined.

Lemma emitter_delivers_witness :
  ∃ e, emitter_record sample_emitter "ckan/datasets.list" "ckan" "failed" (Some [("api_token", PyStr "s3cr3t")]) None [] =
         (Ok e, [e]) ∧
       Forall (λ kv, is_sensitive_record_key kv.1 = true → kv.2 = PyStr REDACTED) (ev_metadata e).
Proof.
  destruct (emitter_delivers sample_emitter "ckan/datasets.list" "ckan" "failed" (Some [("api_token", PyStr "s3cr3t")]) None [])
    as (e & E & _ & _ & _ & _ & _ & Hs).
  - discriminate.
  - discriminate.
  - discriminate.
  - apply NoDup_singleton.
  - by repeat constructor.
  - apply NoDup_nil_2.
  - constructor.
  - intros m [= <-] s. reflexivity.
  - intros e. repeat constructor; intros s x s' [= <- <-]; reflexivity.
  - exists e. split; [exact E|]. by apply Hs.
Defined.

Lemma list_sink_keeps_latest_witness :
  ∃ s0, make_list_sink 1 = Ok s0 ∧
  sink_events (foldl (λ s e, list_sink_record e s) s0
    [{| ev_operation_id := "a"; ev_platform := "p"; ev_outcome := "x"; correlation_ids := []; ev_metadata := [] |};
     {| ev_operation_id := "b"; ev_platform := "p"; ev_outcome := "x"; correlation_ids := []; ev_metadata := [] |}]) =
    [{| ev_operation_id := "b"; ev_platform := "p"; ev_outcome := "x"; correlation_ids := []; ev_metadata := [] |}].
Proof. eexists. split; [reflexivity|]. exact (proj1 (list_sink_keeps_latest 1 _ _ eq_refl)). Defined.
