(* ===== verification/Mutation.v ===== *)
(** * Policy-enforced mutations

    [runtime/mutation.py]: a mutation is validated, dispatched through the retry
    loop, and leaves a redacted receipt.  The dispatch callable, the clock and
    the sleep are the caller's; the state they act on is a parameter. *)
From S2P Require Import Prelude PyVal Regex Redaction Policies Errors Transport Resilience Json Ids Receipts.
Import Deadline.
From Stdlib Require Import QArith Lqa ZArith.
Local Close Scope Q_scope.
Local Open Scope Z_scope.
Local Open Scope py_scope.

(** [str(operation_id)] and the platform are what errors are built with. *)
Definition build_mutation_receipt (no_redact : bool) (operation_id : OperationId) (target : CatalogId)
    (policy : MutationPolicy) (outcome : string) (metadata : pydict) : result MutationReceipt :=
  let redacted := redact_event_metadata no_redact metadata in
  make_mutation_receipt (operation_str operation_id) outcome target
    (match concurrency policy with Some c => token c | None => None end) None
    "independent" "independent" (str_dict redacted).

Record MutationDispatchRequest := {
  mdr_operation_id : OperationId; mdr_target : CatalogId; mdr_concurrency_token : option string;
  mdr_overwrite : bool; mdr_idempotency_key : option string
}.

(** The state an enforcer assigns to: [self.last_receipt = receipt]. *)
Class LastReceipt (S : Type) := put_receipt : MutationReceipt → S → S.

Record MutationEnforcer := { me_budget : TimeBudget; me_max_attempts : Z; me_no_redact : bool }.

(** [MutationEnforcer.__init__]; the default budget is that of the constants. *)
Definition make_enforcer (no_redact : bool) (budget : option TimeBudget) (max_attempts : Z) : result MutationEnforcer :=
  b ← (match budget with Some b => Ok b | None => _default_budget end);
  Ok {| me_budget := b; me_max_attempts := max_attempts; me_no_redact := no_redact |}.

Definition policy_allows (policy : option MutationPolicy) : bool :=
  match policy with
  | None => false
  | Some p => allows_execution p true &&
              match concurrency p with Some c => concurrency_allows c | None => false end
  end.

Definition _validate (operation_id : OperationId) (policy : option MutationPolicy) : result unit :=
  if policy_allows policy then Ok tt
  else raise_new (catalog_error CatalogValidationError
    "Catalog mutations require a confirmed policy and concurrency instruction before dispatch."
    (operation_str operation_id) (op_platform operation_id) None
    "Provide a confirmed mutation policy with a version token or explicit overwrite." None).

(** The error of a response outside 200..299. *)
Definition status_error (message : string) (operation_id : OperationId) (response : RuntimeResponse) : result exn :=
  native ← native_catalog_error message (operation_str operation_id) (op_platform operation_id)
             (Some (status_code response)) None (retry_after response) None None None;
  map_catalog_error native.

Section execute.
Context {S : Type} `{!Clocked S} `{!LastReceipt S}.
Variables (sleep : Q → M S unit) (send : MutationDispatchRequest → M S RuntimeResponse) (self : MutationEnforcer).

Definition _receipt (operation_id : OperationId) (target : CatalogId) (policy : MutationPolicy)
    (outcome : string) (metadata : pydict) : M S MutationReceipt :=
  receipt ← lift_res (build_mutation_receipt (me_no_redact self) operation_id target policy outcome metadata);
  modify (put_receipt receipt);;
  mret receipt.

Definition dispatch_request (operation_id : OperationId) (target : CatalogId) (policy : MutationPolicy)
  : MutationDispatchRequest := {|
  mdr_operation_id := operation_id; mdr_target := target;
  mdr_concurrency_token := match concurrency policy with Some c => token c | None => None end;
  mdr_overwrite := match concurrency policy with Some c => overwrite c | None => false end;
  mdr_idempotency_key := idem_key (idempotency policy) |}.

(** The body of the first [try]: the retry loop and the check of the status. *)
Definition dispatch (operation_id : OperationId) (target : CatalogId) (policy : MutationPolicy)
    (deadline : DeadlineMonitor) : M S unit :=
  loop ← lift_res (make_retry_loop (me_budget self) (idempotency policy) deadline (me_max_attempts self));
  response ← run sleep (send (dispatch_request operation_id target policy)) loop;
  if (200 <=? status_code response) && (status_code response <? 300) then mret tt
  else lift_res (raise_new (status_error "Catalog mutation returned an unsuccessful HTTP status." operation_id response)).

(** [except Exception]: run [h], then raise again. *)
Definition on_exception {A} (m : M S A) (h : M S unit) : M S A :=
  try_except m (λ e, if is_Exception (exn_kind e) then Some (h;; throw e) else None).
(** [try: m except Exception: pass] *)
Definition suppress {A} (m : M S A) : M S unit :=
  try_except (m;; mret tt) (λ e, if is_Exception (exn_kind e) then Some (mret tt) else None).

Definition execute (operation_id : OperationId) (target : CatalogId) (policy : option MutationPolicy)
    (audit_metadata : option pydict) : M S MutationReceipt :=
  lift_res (_validate operation_id policy);;
  match policy with
  | None => throw (err AssertionError "")
  | Some policy =>
      let metadata := default [] audit_metadata in
      if requested (dry_run policy) then
        _receipt operation_id target policy "skipped" (dict_set "dry_run" (PyBool true) metadata)
      else
        deadline ← make_monitor (me_budget self);
        deadline ← assert_dispatchable (Some (operation_str operation_id)) (Some (op_platform operation_id)) deadline;
        on_exception (dispatch operation_id target policy deadline)
          (suppress (_receipt operation_id target policy "failed" metadata));;
        _receipt operation_id target policy "succeeded" metadata
  end.
End execute.

(** ** States with a log *)

Record enforced (W : Type) := Enforced { world : W; last_receipt : option MutationReceipt }.
Arguments Enforced {W} world last_receipt.
Arguments world {W} e.
Arguments last_receipt {W} e.

#[global] Instance enforced_clocked {W} `{!Clocked W} : Clocked (enforced W) := λ s,
  let '(t, w) := clock (world s) in (t, Enforced w (last_receipt s)).
#[global] Instance enforced_receipt {W} : LastReceipt (enforced W) := λ r s, Enforced (world s) (Some r).
#[global] Instance logged_receipt {S} `{!LastReceipt S} : LastReceipt (logged S) := λ r s,
  Logged (put_receipt r (base s)) (log s).

(** A computation on the world leaves the receipt alone. *)
Definition on_world {W A} (m : M W A) : M (enforced W) A := λ s,
  let '(r, w) := m (world s) in (r, Enforced w (last_receipt s)).

(** The enforcer over a world [W], its sends and sleeps logged. *)
Definition logged_execute {W} `{!Clocked W} (sleep : Q → M W unit)
    (send : MutationDispatchRequest → M W RuntimeResponse) (self : MutationEnforcer) :=
  execute (S := logged (enforced W)) (λ d, log_sleep (λ d, on_world (sleep d)) d)
    (λ r, log_send (on_world (send r))) self.

#[global] Arguments status_error : simpl never.
#[global] Arguments build_mutation_receipt : simpl never.
#[global] Arguments _validate : simpl never.

(** ** Lemmas *)

Lemma operation_part_nonempty s : fullmatch _OPERATION_PART s = true → s ≠ "".
Proof. unfold _OPERATION_PART. rewrite fullmatch_head_tail. by intros H ->. Qed.

Lemma operation_str_nonempty o : operation_str o ≠ "".
Proof.
  unfold operation_str. destruct (op_platform o); [done|]. done.
Qed.

Lemma operation_platform_nonempty o : operation_wf o → op_platform o ≠ "".
Proof. intros [H _]. by apply operation_part_nonempty. Qed.

Lemma validate_denied o policy :
  operation_wf o → policy_allows policy = false →
  ∃ e, _validate o policy = Raise e ∧ exn_kind e = CatalogValidationError.
Proof.
  intros Ho Hp. unfold _validate. rewrite Hp.
  edestruct (catalog_error_total CatalogValidationError
    "Catalog mutations require a confirmed policy and concurrency instruction before dispatch."
    (operation_str o) (op_platform o) None
    "Provide a confirmed mutation policy with a version token or explicit overwrite." None) as [e He];
    [done|apply operation_str_nonempty|by apply operation_platform_nonempty|done|].
  exists e. rewrite He. split; [done|]. by apply catalog_error_ok in He as [? _].
Qed.

Lemma build_receipt_ok nr o t p out md r :
  build_mutation_receipt nr o t p out md = Ok r →
  mr_operation r = operation_str o ∧ mr_outcome r = out ∧ mr_target r = t ∧
  mr_version_token r = match concurrency p with Some c => token c | None => None end.
Proof.
  unfold build_mutation_receipt, make_mutation_receipt. intros. inv_ok. cbn.
  match goal with H : _required_text (PyStr _) _ = Ok _ |- _ => apply required_text_ok in H as [[= ->] _] end. done.
Qed.

Section logs.
Context {W : Type} `{!Clocked W}.
Variables (sleep : Q → M W unit) (send : MutationDispatchRequest → M W RuntimeResponse) (self : MutationEnforcer).
Hypothesis send_wf : ∀ q w resp w', send q w = (Ok resp, w') → response_wf resp.
Hypothesis budget_ok : budget_wf (me_budget self).

Implicit Types s : logged (enforced W).

Lemma clock_keeps_receipt lr s : last_receipt (base s) = lr → last_receipt (base (clock s).2) = lr.
Proof.
  intros <-. unfold clock at 1, logged_clocked, clock at 1, enforced_clocked.
  by destruct (clock (world (base s))).
Qed.

Lemma dispatch_keeps_receipt o t p dl lr :
  preserves (λ s, last_receipt (base s) = lr)
    (dispatch (S := logged (enforced W)) (λ d, log_sleep (λ d, on_world (sleep d)) d)
       (λ r, log_send (on_world (send r))) self o t p dl).
Proof.
  unfold dispatch. apply preserves_bind; [auto with datasluice|]. intros l. apply preserves_bind.
  - apply run_keeps.
    + intros s. apply clock_keeps_receipt.
    + intros d s <-. unfold log_sleep, on_world. by destruct (sleep d _).
    + intros s <-. unfold log_send, on_world. by destruct (send _ _).
  - intros r. case_match; auto with datasluice.
Qed.

(** What a dispatch does, read off the log. *)
Lemma dispatch_log o t p dl s r s' :
  dm_budget dl = me_budget self →
  dispatch (S := logged (enforced W)) (λ d, log_sleep (λ d, on_world (sleep d)) d)
    (λ r, log_send (on_world (send r))) self o t p dl s = (r, s') →
  ∃ es, log s' = log s ++ es ∧
    Z.of_nat (length (sends es)) <= Z.max 0 (me_max_attempts self) ∧
    (allows_retry (idempotency p) = false → (length (sends es) ≤ 1)%nat) ∧
    (r = Ok tt → ∃ resp, last_send es = Some (Ok resp) ∧ 200 <= status_code resp < 300).
Proof.
  intros Hdl. unfold dispatch, mbind, M_bind, lift_res, make_retry_loop.
  destruct (me_max_attempts self <? 1) eqn:Em; cbn.
  { intros [= <- <-]. exists []. rewrite app_nil_r. cbn. split_and!; [done|lia|lia|done]. }
  qbool. set (l := Build_RetryLoop _ _ _ _).
  destruct (run _ _ l s) as [rr s1] eqn:Er. intros E.
  assert (Hl : loop_wf l) by (unfold loop_wf; cbn; by rewrite Hdl).
  destruct (run_log (λ d, on_world (sleep d)) (on_world (send (dispatch_request o t p))) l s rr s1)
    as (es & Hes & Hlog); [|done|done|].
  { intros w resp w' Hs. unfold on_world in Hs. destruct (send _ _) as [x y] eqn:Ex. injection Hs as -> _.
    by eapply send_wf. }
  exists es. assert (s' = s1) as ->.
  { apply (f_equal snd) in E. destruct rr; [destruct ((200 <=? _) && _)|]; symmetry; exact E. }
  split; [done|]. split.
  { apply loop_log_sends in Hlog. change (rl_max_attempts l) with (me_max_attempts self) in Hlog. lia. }
  split.
  { apply (loop_log_once l 1 (Z.to_nat (rl_max_attempts l)) es rr); [done|lia| |done].
    change (rl_max_attempts l) with (me_max_attempts self). lia. }
  intros ->. destruct rr as [resp|e]; [|done]. exists resp. split; [by apply loop_log_outcome in Hlog|].
  destruct ((200 <=? _) && _) eqn:Est; qbool; [lia|].
  apply (f_equal fst) in E. destruct (status_error _ _ _); discriminate E.
Qed.

Lemma receipt_step o t p out md s :
  _receipt self o t p out md s =
  match build_mutation_receipt (me_no_redact self) o t p out md with
  | Ok r => (Ok r, put_receipt r s)
  | Raise e => (Raise e, s)
  end.
Proof. unfold _receipt, mbind, M_bind, lift_res. by destruct (build_mutation_receipt _ _ _ _ _ _). Qed.

(** A receipt that cannot be built never masks what was being raised. *)
Lemma suppress_receipt o t p out md s :
  suppress (_receipt self o t p out md) s =
  (Ok tt, match build_mutation_receipt (me_no_redact self) o t p out md with
          | Ok rec => put_receipt rec s
          | Raise _ => s
          end).
Proof.
  unfold suppress, try_except, mbind, M_bind. rewrite receipt_step.
  destruct (build_mutation_receipt _ _ _ _ _ _) as [rec|e] eqn:E; [done|].
  apply make_receipt_raises in E. unfold is_contract_error in E. cbn. by rewrite E.
Qed.

(** What is left of an enforcement after the dispatch: the receipt of a
    success, or the failure receipt and the failure. *)
Definition settle (o : OperationId) (t : CatalogId) (p : MutationPolicy) (md : pydict) (r : result unit)
    (s : logged (enforced W)) : result MutationReceipt * logged (enforced W) :=
  match r with
  | Ok _ => _receipt self o t p "succeeded" md s
  | Raise e =>
      (Raise e, if is_Exception (exn_kind e) then (suppress (_receipt self o t p "failed" md) s).2 else s)
  end.

Lemma settle_eq o t p md (m : M (logged (enforced W)) unit) s :
  (on_exception m (suppress (_receipt self o t p "failed" md));; _receipt self o t p "succeeded" md) s =
  settle o t p md (m s).1 (m s).2.
Proof.
  unfold on_exception, try_except. unfold mbind at 1, M_bind at 1.
  destruct (m s) as [[[]|e] s1]; [done|]. cbn [fst snd settle].
  destruct (is_Exception (exn_kind e)); [|done]. unfold mbind, M_bind. by rewrite suppress_receipt.
Qed.

(** The runs of [execute], case by case. *)
Lemma execute_cases o t policy audit s res :
  let md := default [] audit in
  logged_execute sleep send self o t policy audit s = res →
  (policy_allows policy = false ∧ ∃ e, _validate o policy = Raise e ∧ res = (Raise e, s)) ∨
  ∃ p, policy = Some p ∧ policy_allows policy = true ∧
    (requested (dry_run p) = true ∧
       res = _receipt self o t p "skipped" (dict_set "dry_run" (PyBool true) md) s ∨
     requested (dry_run p) = false ∧
       ((∃ es e b, res = (Raise e, Logged b (log s ++ es)) ∧ sends es = [] ∧
           last_receipt b = last_receipt (base s) ∧ exn_kind e = BudgetExhaustedError) ∨
        ∃ dl s1 es, dm_budget dl = me_budget self ∧ last_receipt (base s1) = last_receipt (base s) ∧
          log s1 = log s ++ es ∧ sends es = [] ∧
          let d := dispatch (S := logged (enforced W)) (λ d, log_sleep (λ d, on_world (sleep d)) d)
                     (λ r, log_send (on_world (send r))) self o t p dl s1 in
          res = settle o t p md d.1 d.2)).
Proof.
  cbn zeta. unfold logged_execute, execute. unfold mbind at 1, M_bind at 1, lift_res at 1. unfold _validate.
  destruct (policy_allows policy) eqn:Ep.
  2:{ intros <-. left. split; [done|]. unfold raise_new.
      destruct (catalog_error _ _ _ _ _ _ _) as [e|e]; by exists e. }
  destruct policy as [p|]; [|done]. intros Hres. right. exists p. split; [done|]. split; [done|]. revert Hres.
  destruct (requested (dry_run p)); intros Hres; [by left|right]. split; [done|]. revert Hres.
  unfold mbind at 1, M_bind at 1, make_monitor. unfold mbind at 1, M_bind at 1, clock_now at 1.
  destruct (clock s) as [t0 s0] eqn:E0.
  assert (Hs0 : last_receipt (base s0) = last_receipt (base s) ∧ log s0 = log s ++ [EvClock t0]).
  { change s0 with (t0, s0).2. rewrite <- E0. split; [by apply clock_keeps_receipt|].
    change t0 with (t0, s0).1 at 1. rewrite <- E0. unfold clock at 1 2, logged_clocked.
    by destruct (clock (base s)). }
  destruct Hs0 as [Hr0 Hl0]. unfold mret at 1, M_ret at 1. cbn beta iota.
  set (dl0 := {| dm_budget := me_budget self; dm_started_at := t0; dm_operation := None; dm_platform := None |}).
  unfold mbind at 1, M_bind at 1.
  assert (Hkeep : last_receipt (base (assert_dispatchable (Some (operation_str o)) (Some (op_platform o)) dl0 s0).2)
                  = last_receipt (base s)).
  { apply (assert_dispatchable_keeps (λ s1, last_receipt (base s1) = last_receipt (base s))); [|done].
    intros s1. apply clock_keeps_receipt. }
  destruct (assert_dispatchable_logged (Some (operation_str o)) (Some (op_platform o)) dl0 s0)
    as (t1 & b & _ & [[_ E1]|[_ (e & t' & b' & He & _ & E1)]]); [done| |]; rewrite E1 in Hkeep |- *; intros <-.
  - right. exists (set_identity (Some (operation_str o)) (Some (op_platform o)) dl0), (Logged b (log s0 ++ [EvClock t1])),
      [EvClock t0; EvClock t1].
    split_and!; [done|done| |done|apply settle_eq]. cbn. by rewrite Hl0, <- app_assoc.
  - left. exists [EvClock t0; EvClock t1; EvClock t'], e, b'. cbn in *. by rewrite Hl0, <- app_assoc.
Qed.

(** A request is sent, and the world changes, only for a policy that
    confirms a destructive mutation, carries a version token or an explicit
    overwrite, and is not a dry run; a missing, unconfirmed or uninstructed
    policy raises a validation error and changes nothing at all. *)
Theorem mutation_requires_policy o t policy audit s r s' :
  operation_wf o → logged_execute sleep send self o t policy audit s = (r, s') →
  (policy_allows policy = false → s' = s ∧ ∃ e, r = Raise e ∧ exn_kind e = CatalogValidationError) ∧
  (log s' = log s ∧ world (base s') = world (base s) ∨
   ∃ p c, policy = Some p ∧ concurrency p = Some c ∧ requested (dry_run p) = false ∧
     (destructive p = true → ∃ cf, confirmation p = Some cf ∧ confirmed cf = true) ∧
     (is_Some (token c) ∨ overwrite c = true)).
Proof.
  intros Ho E. apply execute_cases in E as [(Hp & e & He & [= -> ->])|(p & -> & Hp & Hcase)].
  - split; [|by left]. intros _. split; [done|]. exists e. split; [done|].
    destruct (validate_denied o policy Ho Hp) as (e' & He' & ?). rewrite He in He'. by injection He' as ->.
  - split; [by rewrite Hp|].
    destruct Hcase as [[_ Hres]|[Hdry _]]; [left|right].
    + rewrite receipt_step in Hres. destruct (build_mutation_receipt _ _ _ _ _ _); by injection Hres as _ ->.
    + unfold policy_allows, allows_execution, concurrency_allows in Hp.
      apply andb_true_iff in Hp as [Hex Hc]. destruct (concurrency p) as [c|] eqn:Ec; [|done].
      exists p, c. split_and!; try done.
      * intros Hd. rewrite Hd in Hex. cbn in Hex. apply andb_true_iff in Hex as [Hcf _].
        destruct (confirmation p) as [cf|]; [by exists cf|done].
      * apply orb_true_iff in Hc as [Hc|Hc]; [left; by apply bool_decide_eq_true in Hc|by right].
Qed.

(** an enforcement sends at most [max_attempts] requests, at most one
    when the policy does not allow a retry, and returns a receipt only when a
    dry run was skipped or the last answer had a status of 200 to 299. *)
Theorem mutation_dispatch_bounded o t policy audit s r s' :
  logged_execute sleep send self o t policy audit s = (r, s') →
  ∃ es, log s' = log s ++ es ∧
    Z.of_nat (length (sends es)) <= Z.max 0 (me_max_attempts self) ∧
    (∀ p, policy = Some p → allows_retry (idempotency p) = false → (length (sends es) ≤ 1)%nat) ∧
    (∀ rec, r = Ok rec →
       mr_outcome rec = "skipped" ∧ es = [] ∨
       mr_outcome rec = "succeeded" ∧ ∃ resp, last_send es = Some (Ok resp) ∧ 200 <= status_code resp < 300).
Proof.
  intros E. apply execute_cases in E as [(Hp & e & He & [= -> ->])|(p & -> & Hp & Hcase)].
  { exists []. rewrite app_nil_r. cbn. split_and!; [done|lia|lia|done]. }
  destruct Hcase as [[_ Hres]|[_ [(es & e & b & [= -> ->] & Hes & _)|(dl & s1 & es & Hdl & _ & Hlog & Hes & Hres)]]].
  - exists []. rewrite app_nil_r. rewrite receipt_step in Hres.
    destruct (build_mutation_receipt _ _ _ _ _ _) as [rec|e] eqn:Eb; injection Hres as -> ->;
      cbn; split_and!; try done; try lia.
    intros ? [= <-]. apply build_receipt_ok in Eb as (_ & Eb & _). by left.
  - exists es. cbn. rewrite Hes. cbn. split_and!; [done|lia|lia|done].
  - cbn zeta in Hres. destruct (dispatch _ _ self o t p dl s1) as [rd sd] eqn:Ed.
    destruct (dispatch_log o t p dl s1 rd sd Hdl Ed) as (es' & Hes' & Hn & Honce & Hok).
    assert (Hsends : sends (es ++ es') = sends es').
    { unfold sends in *. rewrite omap_app, Hes. done. }
    exists (es ++ es'). rewrite Hsends.
    assert (log s' = log sd ∧ ∀ rec, r = Ok rec → mr_outcome rec = "succeeded" ∧ rd = Ok tt) as [Hls Hr].
    { cbn [fst snd] in Hres. destruct rd as [[]|e]; cbn [settle] in Hres.
      - rewrite receipt_step in Hres. destruct (build_mutation_receipt _ _ _ _ _ _) as [rec|e] eqn:Eb;
          injection Hres as -> ->; split; try done. intros ? [= <-]. by apply build_receipt_ok in Eb as (_ & Eb & _).
      - injection Hres as -> ->. split; [|done]. case_match; [|done]. rewrite suppress_receipt. cbn.
        by destruct (build_mutation_receipt _ _ _ _ _ _). }
    split_and!; [by rewrite Hls, Hes', Hlog, app_assoc|done|naive_solver|].
    intros rec Hrec. right. destruct (Hr rec Hrec) as [? Hrd]. split; [done|].
    unfold last_send. rewrite Hsends. by apply Hok.
Qed.

(** the receipt an enforcement returns names the operation, the target
    and the policy's version token, and is the enforcer's last receipt; when it
    raises, its last receipt is the one it had or a failure receipt for the
    same operation and target. *)
Theorem mutation_receipt o t p audit s r s' :
  logged_execute sleep send self o t (Some p) audit s = (r, s') →
  let describes rec := mr_operation rec = operation_str o ∧ mr_target rec = t ∧
    mr_version_token rec = match concurrency p with Some c => token c | None => None end in
  match r with
  | Ok rec => last_receipt (base s') = Some rec ∧ describes rec
  | Raise e =>
      last_receipt (base s') = last_receipt (base s) ∨
      ∃ rec, last_receipt (base s') = Some rec ∧ describes rec ∧ mr_outcome rec = "failed"
  end.
Proof.
  intros E. cbn zeta. apply execute_cases in E as [(Hp & e & He & [= -> ->])|(p' & [= <-] & Hp & Hcase)]; [by left|].
  destruct Hcase as [[_ Hres]|[_ [(es & e & b & [= -> ->] & Hes & Hb & _)|(dl & s1 & es & Hdl & Hr1 & _ & _ & Hres)]]].
  - rewrite receipt_step in Hres. destruct (build_mutation_receipt _ _ _ _ _ _) as [rec|e] eqn:Eb;
      injection Hres as -> ->; [|by left]. split; [done|]. by apply build_receipt_ok in Eb as (? & _ & ? & ?).
  - by left.
  - cbn zeta in Hres. pose proof (dispatch_keeps_receipt o t p dl (last_receipt (base s)) s1 Hr1) as Hkeep.
    destruct (dispatch _ _ self o t p dl s1) as [rd sd]. cbn [fst snd] in Hres, Hkeep.
    destruct rd as [[]|e]; cbn [settle] in Hres.
    + rewrite receipt_step in Hres. destruct (build_mutation_receipt _ _ _ _ _ _) as [rec|e] eqn:Eb;
        injection Hres as -> ->; [|by left]. split; [done|]. by apply build_receipt_ok in Eb as (? & _ & ? & ?).
    + injection Hres as -> ->. case_match; [|by left]. rewrite suppress_receipt. cbn.
      destruct (build_mutation_receipt _ _ _ _ _ _) as [rec|e'] eqn:Eb; [right|by left].
      exists rec. split; [done|]. apply build_receipt_ok in Eb. naive_solver.
Qed.
End logs.

(** A sensitive audit key survives redaction (its value does not), and the
    receipt rejects it. *)
Lemma build_receipt_sensitive o t p out (d : pydict) k v :
  NoDup d.*1 → (length d ≤ MAX_METADATA_ENTRIES)%nat → Forall (λ kv, str_nonempty kv.1 = true) d →
  (k, v) ∈ d → is_sensitive_record_key k = true →
  ∃ e, build_mutation_receipt false o t p out d = Raise e ∧ exn_kind e = DataSluiceError.
Proof.
  intros Hnd Hl Hne Hin Hk. destruct (build_mutation_receipt false o t p out d) as [r|e] eqn:E.
  2:{ exists e. split; [done|]. by apply make_receipt_raises in E. }
  exfalso. unfold build_mutation_receipt, make_mutation_receipt in E. inv_ok.
  match goal with H : _freeze_audit_metadata _ = Ok _ |- _ => apply freeze_audit_audited in H as Ha end.
  unfold redact_event_metadata, str_dict in Ha. rewrite redact_mapping_small in Ha by (done || vm_compute; lia).
  cbn [audited] in Ha. apply andb_true_iff in Ha as [_ Ha]. apply (audited_items _) in Ha.
  rewrite Forall_forall in Ha. destruct (Ha (k, PyStr REDACTED)) as [Hf _]; [|cbn [fst] in Hf; congruence].
  apply list_elem_of_fmap. exists (k, v). cbn. by rewrite Hk.
Qed.

(** Audit metadata with a sensitive key makes every enforcement raise:
    also when the request was sent and answered with success, because the
    receipt refuses the key whose value redaction already replaced. *)
Theorem sensitive_audit_key_raises {W} `{!Clocked W} (sleep : Q → M W unit)
    (send : MutationDispatchRequest → M W RuntimeResponse) self o t policy (d : pydict) k v s r s' :
  me_no_redact self = false → budget_wf (me_budget self) →
  NoDup d.*1 → (length d < MAX_METADATA_ENTRIES)%nat → Forall (λ kv, str_nonempty kv.1 = true) d →
  (k, v) ∈ d → is_sensitive_record_key k = true → k ≠ "dry_run" →
  logged_execute sleep send self o t policy (Some d) s = (r, s') → ∃ e, r = Raise e.
Proof.
  intros Hnr Hb Hnd Hl Hne Hin Hk Hkd E.
  apply execute_cases in E as [(_ & e & _ & [= -> _])|(p & -> & _ & Hcase)]; [by eexists| |done].
  cbn [default from_option] in Hcase. unfold id in Hcase.
  destruct Hcase as [[_ Hres]|[_ [(es & e & b & [= -> _] & _)|(dl & s1 & es & _ & _ & _ & _ & Hres)]]];
    [|by eexists|].
  - destruct (build_receipt_sensitive o t p "skipped" (dict_set "dry_run" (PyBool true) d) k v) as (e & He & _);
      [..|done|].
    + rewrite dict_set_keys. case_bool_decide; [done|]. apply NoDup_app.
      split_and!; [done|set_solver|apply NoDup_singleton].
    + pose proof (dict_set_length "dry_run" (PyBool true) d). lia.
    + by apply (dict_set_Forall (λ kv, str_nonempty kv.1 = true)).
    + apply dict_get_elem. rewrite dict_get_set, bool_decide_eq_false_2 by done.
      clear -Hin Hnd. induction d as [|[k' v'] d IH]; [by apply not_elem_of_nil in Hin|]. cbn.
      apply NoDup_cons in Hnd as [Hni Hnd]. apply elem_of_cons in Hin as [[= -> ->]|Hin];
        [by rewrite bool_decide_eq_true_2|].
      rewrite bool_decide_eq_false_2; [by apply IH|]. intros ->. apply Hni, list_elem_of_fmap. by eexists (_, v).
    + rewrite receipt_step, Hnr, He in Hres. injection Hres as -> _. by eexists.
  - cbn zeta in Hres. destruct (dispatch _ _ self o t p dl s1) as [[[]|e] sd]; cbn [fst snd settle] in Hres.
    + destruct (build_receipt_sensitive o t p "succeeded" d k v) as (e & He & _); [done|lia|done..|].
      rewrite receipt_step, Hnr, He in Hres. injection Hres as -> _. by eexists.
    + injection Hres as -> _. by eexists.
Qed.

(** ** Witnesses *)

(** A clock that does not move and a sender that fails with 503 once. *)
#[local] Instance still_clock : Clocked nat := λ n, (0%Q, n).
Definition sample_sender : MutationDispatchRequest → M nat RuntimeResponse := λ _ n,
  (Ok (answer (if (n =? 0)%nat then 503 else 200)), S n).
Definition sample_waiter : Q → M nat unit := λ _ n, (Ok tt, n).
Definition sample_operation : OperationId :=
  {| op_platform := "ckan"; op_service := "datasets"; op_method := "update" |}.
Definition sample_policy : MutationPolicy :=
  {| destructive := true; confirmation := Some {| confirmed := true; conf_operation := None; conf_target := None |};
     concurrency := Some {| token := Some "v1"; overwrite := false |};
     idempotency := {| safe := true; idem_key := None; explicit_retry_opt_in := false |};
     dry_run := {| requested := false |} |}.
Definition sample_enforcer : MutationEnforcer :=
  {| me_budget := sample_budget; me_max_attempts := 3; me_no_redact := false |}.
Definition sample_state : logged (enforced nat) := Logged (Enforced 0%nat None) [].
Definition sample_execution (audit : pydict) :=
  logged_execute sample_waiter sample_sender sample_enforcer sample_operation sample_target (Some sample_policy)
    (Some audit) sample_state.

Lemma sample_sender_wf q w resp w' : sample_sender q w = (Ok resp, w') → response_wf resp.
Proof. intros [= <- _]. destruct (w =? 0)%nat; split; done. Qed.
Lemma sample_budget_wf : budget_wf (me_budget sample_enforcer).
Proof. apply sample_loop_wf. Qed.
Lemma sample_operation_wf : operation_wf sample_operation.
Proof. by vm_compute. Qed.

Definition sample_audit : pydict := [("attempt", PyInt 1); ("tags", PyList [PyStr "air"; PyNone])].
Definition leaky_audit : pydict := [("auth_header", PyStr "Bearer aBcDeFgH1234")].

Lemma mutation_requires_policy_witness :
  length (sends (log (sample_execution sample_audit).2)) = 2%nat ∧
  ∃ p c, Some sample_policy = Some p ∧ concurrency p = Some c ∧ (is_Some (token c) ∨ overwrite c = true).
Proof.
  split; [vm_compute; reflexivity|].
  destruct (mutation_requires_policy sample_waiter sample_sender sample_enforcer sample_budget_wf sample_operation
    sample_target (Some sample_policy) (Some sample_audit) sample_state _ _ sample_operation_wf
    (surjective_pairing (sample_execution sample_audit))) as [_ [[Hlog _]|(p & c & Hp & Hc & _ & _ & Htok)]].
  - vm_compute in Hlog. discriminate Hlog.
  - exists p, c. split; [exact Hp|]. split; [exact Hc|exact Htok].
Defined.

Lemma mutation_dispatch_bounded_witness :
  (sample_execution sample_audit).1 = Ok sample_receipt ∧
  ∃ es, log (sample_execution sample_audit).2 = es ∧ Z.of_nat (length (sends es)) <= 3.
Proof.
  split; [vm_compute; reflexivity|].
  destruct (mutation_dispatch_bounded sample_waiter sample_sender sample_enforcer sample_sender_wf sample_budget_wf
    sample_operation sample_target (Some sample_policy) (Some sample_audit) sample_state _ _
    (surjective_pairing (sample_execution sample_audit))) as (es & Hes & Hn & _).
  exists es. split; [exact Hes|exact Hn].
Defined.

Lemma mutation_receipt_witness :
  match (sample_execution sample_audit).1 with
  | Ok rec => last_receipt (base (sample_execution sample_audit).2) = Some rec ∧ mr_target rec = sample_target
  | Raise _ => False
  end.
Proof.
  pose proof (mutation_receipt sample_waiter sample_sender sample_enforcer sample_budget_wf sample_operation
    sample_target sample_policy (Some sample_audit) sample_state _ _
    (surjective_pairing (sample_execution sample_audit))) as H.
  assert (E : (sample_execution sample_audit).1 = Ok sample_receipt) by (vm_compute; reflexivity).
  rewrite E in H |- *. cbn zeta in H. destruct H as (H & _ & Ht & _). split; [exact H|exact Ht].
Defined.

Lemma sensitive_audit_key_raises_witness :
  last_send (log (sample_execution leaky_audit).2) = Some (Ok (answer 200)) ∧
  ∃ e, (sample_execution leaky_audit).1 = Raise e.
Proof.
  split; [vm_compute; reflexivity|].
  apply (sensitive_audit_key_raises sample_waiter sample_sender sample_enforcer sample_operation sample_target
    (Some sample_policy) leaky_audit "auth_header" (PyStr "Bearer aBcDeFgH1234") sample_state _
    (sample_execution leaky_audit).2).
  - reflexivity.
  - apply sample_budget_wf.
  - apply (bool_decide_unpack _). reflexivity.
  - apply Nat.ltb_lt. reflexivity.
  - repeat constructor.
  - left.
  - reflexivity.
  - discriminate.
  - apply surjective_pairing.
Defined.
