(* ===== verification/Clients.v ===== *)
(** * The catalog client

    [runtime/clients.py]: one dispatch of a normalized catalog call - guards,
    capability evidence, credentials, the request, the circuit breaker, the
    retry loop, the decoded result - and the life cycle of the client.  The
    asynchronous client runs the same steps with awaited calls; a cancellation
    is an exception an awaited call raises.  The transport, the credential
    provider, the caller's guard and the sinks are the environment [W]. *)
From Stdlib Require Import QArith ZArith Ascii.
From stdpp Require Import strings gmap.
From S2P Require Import Prelude PyVal Regex Redaction Policies Errors Transport Resilience Breaker Urls Json JsonText Ids Profiles Capability Receipts Projection Records Mutation Events.
Import Deadline.
Local Close Scope Q_scope.
Local Open Scope Z_scope.
Local Open Scope py_scope.

(** ** Credentials *)

(** The credentials of [domain/catalog/auth.py], with their revealed secrets;
    any other object, with the name of its type, the names and texts of its
    fields when it is a dataclass, and its [access_token] when it has one. *)
Inductive credential :=
| CKANCredential (api_token : string)
| UDataCredential (api_key : string)
| SocrataCredential (app_token : string) (account : option (string * string))
| ObjectCredential (type_name : string) (fields : list (string * string)) (access_token : option string).

(** What a client is given: nothing, a [CredentialResolver], an object with a
    [resolve] method and the name of its type, or a credential. *)
Inductive credentials :=
| NoCredentials
| Resolver (explicit : option credential)
| Provider (type_name : string)
| Plain (c : credential).

(** [hmac.new(_CREDENTIAL_SCOPE_KEY, digestmod=sha256)], updated with the parts *)
Class Hmac := hmac_hex : list string → string.

Definition _auth_headers (c : option credential) : headers :=
  match c with
  | Some (CKANCredential t) => [("Authorization", t)]
  | Some (UDataCredential k) => [("X-API-KEY", k)]
  | Some (SocrataCredential t _) => [("X-App-Token", t)]
  | Some (ObjectCredential _ _ (Some t)) => [("Authorization", "Bearer " +:+ t)]
  | _ => []
  end.

(** The type name and the fields of a credential; [str(None)] is the text None. *)
Definition credential_fields (c : credential) : string * list (string * string) :=
  match c with
  | CKANCredential t => ("CKANCredential", [("api_token", t)])
  | UDataCredential k => ("UDataCredential", [("api_key", k)])
  | SocrataCredential t account =>
      ("SocrataCredential", [("app_token", t); ("username", match account with Some a => a.1 | None => "None" end);
                             ("password", match account with Some a => a.2 | None => "None" end)])
  | ObjectCredential name fields _ => (name, fields)
  end.

Definition credential_scope_of `{Hmac} (c : credential) : string :=
  let '(name, fields) := credential_fields c in
  match fields with
  | [] => str_lower name +:+ "-unrecognized"
  | _ => str_lower name +:+ "-" +:+ str_take 16 (hmac_hex (mjoin ((λ f, [f.1; f.2]) <$> fields)))
  end.
Definition _credential_scope `{Hmac} (cs : credentials) : string :=
  match cs with
  | NoCredentials | Resolver None => "anonymous"
  | Resolver (Some c) | Plain c => credential_scope_of c
  | Provider name => str_lower name +:+ "-unrecognized"
  end.

(** ** Requests *)

Record CatalogOperationRequest := {
  cor_operation_id : OperationId; cor_payload : pydict; cor_mutation_policy : option MutationPolicy
}.

(** [operation.payload.get(key, default)] *)
Definition payload_get (key : string) (fallback : pyval) (r : CatalogOperationRequest) : pyval :=
  default fallback (dict_get key (cor_payload r)).

Definition _request_method (r : CatalogOperationRequest) : result string :=
  as_str (err ValueError "Catalog runtime request methods must be strings.") (payload_get "method" (PyStr "GET") r).

(** Header mappings while they are merged: the keys and values of the payload
    need not be strings yet. *)
Definition merge_header (kvs : list (pyval * pyval)) (kv : pyval * pyval) : list (pyval * pyval) :=
  if existsb (λ x, match x.1, kv.1 with PyStr a, PyStr b => bool_decide (a = b) | _, _ => false end) kvs
  then (λ x, match x.1, kv.1 with PyStr a, PyStr b => if bool_decide (a = b) then (x.1, kv.2) else x | _, _ => x end) <$> kvs
  else kvs ++ [kv].
Definition text_headers (kvs : list (pyval * pyval)) : option headers :=
  mapM (λ kv, match kv with (PyStr k, PyStr v) => Some (k, v) | _ => None end) kvs.

Definition bad_headers : exn :=
  err ValueError "Runtime request headers must contain non-empty string names and string values.".

Definition _request_for (user_agent : string) (r : CatalogOperationRequest) (c : option credential)
  : result RuntimeRequest :=
  let no_url := err ValueError "Catalog runtime requests require a non-empty payload URL." in
  url ← as_str no_url (payload_get "url" PyNone r);
  raise_if (negb (str_nonempty url)) no_url;;
  body ← match payload_get "body" PyNone r with
         | PyNone => Ok None
         | PyBytes raw _ => Ok (Some raw)
         | _ => Raise (err ValueError "Catalog runtime request bodies must be bytes.")
         end;
  method ← _request_method r;
  given ← match payload_get "headers" (PyDict []) r with
          | PyDict kvs | PyProxy kvs => Ok kvs
          | _ => Raise (err ValueError "Catalog runtime request headers must be a mapping.")
          end;
  let merged := foldl merge_header []
    ((prod_map PyStr PyStr <$> ("User-Agent", user_agent) :: _auth_headers c) ++ given) in
  let merged := match cor_mutation_policy r ≫= λ p, idem_key (idempotency p) with
                | Some key => merge_header
                    (List.filter (λ kv, match kv.1 with
                                        | PyStr name => negb (bool_decide (str_lower name = "idempotency-key"))
                                        | _ => true
                                        end) merged) (PyStr "Idempotency-Key", PyStr key)
                | None => merged
                end in
  match text_headers merged with
  | Some hs => make_runtime_request method url hs body [] FOLLOW None None
  | None => make_runtime_request method url [] body [] FOLLOW None None;; Raise bad_headers
  end.

(** [CircuitKey.__post_init__] of [domain/catalog/resilience.py] *)
Definition make_circuit_key `{IpLiterals} (origin scope : string) : result CircuitKey :=
  parsed ← urlsplit origin;
  raise_if (negb (bool_decide (scheme parsed ∈ ["http"; "https"])) || negb (str_nonempty (netloc parsed)) ||
            opt_truthy (username parsed) || opt_truthy (password parsed))
    (err ValueError "Circuit origins must be sanitized HTTP(S) origins.");;
  raise_if (negb (str_nonempty scope)) (err ValueError "Circuit credential scopes must be non-empty identifiers.");;
  Ok {| Policies.origin := urlunsplit_origin (scheme parsed) (netloc parsed) ""; credential_scope := scope |}.

Definition _circuit_key `{IpLiterals, Hmac} (request : RuntimeRequest) (cs : credentials) : result CircuitKey :=
  parsed ← urlsplit (url request);
  make_circuit_key (scheme parsed +:+ "://" +:+ netloc parsed) (_credential_scope cs).

(** ** The environment *)

(** What the client asks of its capability cache. *)
Class CapabilityService (W : Type) := {
  service_resolve : OperationId → M W EffectiveCapabilityProfile;
  service_resolve_async : OperationId → M W EffectiveCapabilityProfile;
  service_record : OperationId → ProbeResponseClass → M W unit;
  service_peek : OperationId → M W EffectiveCapabilityProfile;
  service_invalidate : option OperationId → M W unit
}.

(** The cache of [Capability] gives that service, for the anonymous scope. *)
#[global] Instance cache_service {W} `{!ProbeEnv W, IpLiterals} (self : EffectiveCapabilityCache)
  : CapabilityService (cap W) := {|
  service_resolve o := resolve self o "anonymous";
  service_resolve_async o := resolve_async self o "anonymous";
  service_record o c := record_response self o c "anonymous";; mret tt;
  service_peek o := peek self o "anonymous";
  service_invalidate o := invalidate o |}.

(** [json.loads] of bytes; [None] is a [ValueError]. *)
Class JsonBytes := json_loads : string → option pyval.

(** The transport, [resolve()] and [resolve_async()] of a credential provider,
    and the sleep *)
Class CatalogEnv (W : Type) := {
  #[global] env_clock :: Clocked W;
  transport_send : RuntimeRequest → M W RuntimeResponse;
  transport_close : M W unit;
  provider_resolve : M W (option credential);
  provider_resolve_async : M W (option credential);
  retry_sleep : Q → M W unit
}.

Record CatalogOperationGuard (W : Type) := { cg_operation_id : OperationId; cg_require_allowed : M W unit }.
Arguments cg_operation_id {W}.
Arguments cg_require_allowed {W}.

Record CatalogClient (W : Type) := {
  cc_profile : EffectiveCapabilityProfile;
  cc_credentials : credentials; cc_budget : TimeBudget; cc_max_attempts : Z; cc_emitter : EventEmitter W;
  cc_owns_transport : bool; cc_user_agent : string; cc_closed_message : string
}.
Arguments cc_profile {W}.
Arguments cc_credentials {W}.
Arguments cc_budget {W}.
Arguments cc_max_attempts {W}.
Arguments cc_emitter {W}.
Arguments cc_owns_transport {W}.
Arguments cc_user_agent {W}.
Arguments cc_closed_message {W}.

(** What a client did, in order: a request it sent, an event it emitted. *)
Inductive client_event := Sent (r : RuntimeRequest) | Emitted (e : EventEnvelope).

(** The mutable state: [_closed], the breaker registry, the counters of the
    [_DispatchState] of the running dispatch, and the log. *)
Record client (W : Type) := ClientState {
  cl_closed : bool; cl_breakers : BreakerRegistry; ds_attempts : Z; ds_recorded : bool;
  cl_log : list client_event; cl_world : W
}.
Arguments ClientState {W}.
Arguments cl_closed {W}.
Arguments cl_breakers {W}.
Arguments ds_attempts {W}.
Arguments ds_recorded {W}.
Arguments cl_log {W}.
Arguments cl_world {W}.

#[global] Instance client_clocked {W} `{!Clocked W} : Clocked (client W) := λ s,
  let '(t, w) := clock (cl_world s) in
  (t, ClientState (cl_closed s) (cl_breakers s) (ds_attempts s) (ds_recorded s) (cl_log s) w).

Section client.
Context {W : Type} `{!CatalogEnv W, !CapabilityService W, IpLiterals, Hmac, JsonBytes}.
Variable self : CatalogClient W.
Abbreviation D := (M (client W)).

Definition on_world {A} (m : M W A) : D A := λ s,
  let '(r, w) := m (cl_world s) in
  (r, ClientState (cl_closed s) (cl_breakers s) (ds_attempts s) (ds_recorded s) (cl_log s) w).
Definition on_breakers {A} (m : M (BreakerRegistry * W) A) : D A := λ s,
  let '(r, (b, w)) := m (cl_breakers s, cl_world s) in
  (r, ClientState (cl_closed s) b (ds_attempts s) (ds_recorded s) (cl_log s) w).
Definition set_dispatch (attempts : Z → Z) (recorded : bool) : D unit := modify (λ s,
  ClientState (cl_closed s) (cl_breakers s) (attempts (ds_attempts s)) recorded (cl_log s) (cl_world s)).
Definition note (e : client_event) : D unit := modify (λ s,
  ClientState (cl_closed s) (cl_breakers s) (ds_attempts s) (ds_recorded s) (cl_log s ++ [e]) (cl_world s)).
Definition set_client_closed : D unit := modify (λ s,
  ClientState true (cl_breakers s) (ds_attempts s) (ds_recorded s) (cl_log s) (cl_world s)).

Definition retry_count : D Z := read (λ s, Z.max 0 (ds_attempts s - 1)).

Definition emit_event (emitter : EventEmitter W) (operation platform outcome : string) (metadata : pydict) : D unit :=
  e ← on_world (emitter_record emitter operation platform outcome (Some metadata) None);
  note (Emitted e).
Definition _emit (o : CatalogOperationRequest) (outcome : string) (metadata : pydict) : D unit :=
  emit_event (cc_emitter self) (operation_str (cor_operation_id o)) (op_platform (cor_operation_id o)) outcome metadata.

Definition _emit_breaker_change (o : CatalogOperationRequest) (before after : bool) : D unit :=
  if Bool.eqb before after then mret tt
  else _emit o "breaker_state_change" [("breaker_open", PyBool after)].

Definition _assert_open : D unit :=
  closed ← read cl_closed;
  if (closed : bool) then throw (err RuntimeError (cc_closed_message self)) else mret tt.

Definition _circuit_open_error (o : CatalogOperationRequest) : result exn :=
  catalog_error CatalogUnavailableError "The catalog origin circuit is open after consecutive transport failures."
    (operation_str (cor_operation_id o)) (op_platform (cor_operation_id o)) (Some "unavailable")
    "Wait for the circuit cool-down or explicitly reset the circuit before retrying." None.

(** [_admit]: the monitor as [assert_dispatchable] leaves it, and the key *)
Definition _admit (o : CatalogOperationRequest) (request : RuntimeRequest) (deadline : DeadlineMonitor)
  : D (DeadlineMonitor * CircuitKey) :=
  deadline ← assert_dispatchable (Some (operation_str (cor_operation_id o))) (Some (op_platform (cor_operation_id o))) deadline;
  key ← lift_res (_circuit_key request (cc_credentials self));
  admitted ← on_breakers (breaker_admit key);
  if (admitted : bool) then mret (deadline, key)
  else _emit o "breaker_open" [];; lift_res (raise_new (_circuit_open_error o)).

Definition _record_transport_failure (o : CatalogOperationRequest) (key : CircuitKey) (before : CircuitState) : D unit :=
  after ← on_breakers (record_transport_failure key);
  set_dispatch id true;;
  _emit_breaker_change o (is_open before) (is_open after).

Definition _record_response (o : CatalogOperationRequest) (key : CircuitKey) (before : CircuitState)
    (response : RuntimeResponse) : D RuntimeResponse :=
  after ← on_breakers (Breaker.record_response key (status_code response));
  set_dispatch id true;;
  _emit_breaker_change o (is_open before) (is_open after);;
  mret response.

(** [max(0.0, self._budget.total - deadline.remaining())] *)
Definition usage_of (budget : TimeBudget) (deadline : DeadlineMonitor) : D pyval :=
  left ← remaining deadline;
  mret (PyFloat (FFin (qmax 0%Q (total budget - left)%Q))).
Definition budget_usage (deadline : DeadlineMonitor) : D pyval := usage_of (cc_budget self) deadline.

Definition _emit_success (o : CatalogOperationRequest) (deadline : DeadlineMonitor) : D unit :=
  n ← retry_count;
  usage ← budget_usage deadline;
  _emit o "succeeded" [("retry_count", PyInt n); ("budget_usage", usage)].

Definition _release_abandoned_trial (key : CircuitKey) : D unit :=
  recorded ← read ds_recorded;
  if (recorded : bool) then mret tt else on_breakers (release_trial key).

(** [with self._dispatch_guard(...): body] *)
Definition _dispatch_guard {A} (o : CatalogOperationRequest) (deadline : DeadlineMonitor) (key : CircuitKey) (body : D A)
  : D A :=
  try_finally
    (try_except body (λ e,
       if is_subclass (exn_kind e) BudgetExhaustedError then
         Some (usage ← budget_usage deadline; _emit o "budget_exhausted" [("budget_usage", usage)];; throw e)
       else if is_Exception (exn_kind e) then
         Some (n ← retry_count; _emit o "failed" [("retry_count", PyInt n)];; throw e)
       else None))
    (_release_abandoned_trial key).

(** [send] of a dispatch: one attempt *)
Definition send_once (o : CatalogOperationRequest) (request : RuntimeRequest) (key : CircuitKey) : D RuntimeResponse :=
  set_dispatch (λ n, n + 1) false;;
  before ← on_breakers (inspect key);
  response ← try_except (note (Sent request);; on_world (transport_send request))
    (λ e, if is_subclass (exn_kind e) TransportError
          then Some (_record_transport_failure o key before;; throw e) else None);
  _record_response o key before response.

Definition _enforce_guards (o : CatalogOperationRequest) (guard : CatalogOperationGuard W)
    (effective : option EffectiveCapabilityProfile) (caller_checked : bool) : D unit :=
  (if bool_decide (cg_operation_id guard = cor_operation_id o) then mret tt
   else throw (err ValueError ("Catalog operation guard operation_id " +:+ operation_str (cg_operation_id guard) +:+
                               " does not match request operation_id " +:+ operation_str (cor_operation_id o) +:+ ".")));;
  (if caller_checked then mret tt else on_world (cg_require_allowed guard));;
  match effective with
  | None => mret tt
  | Some profile => lift_res (require_allowed (cor_operation_id o) (Some profile) None)
  end.

Definition _idempotency_for (o : CatalogOperationRequest) : result IdempotencyPolicy :=
  match cor_mutation_policy o with
  | Some p => Ok (idempotency p)
  | None => m ← _request_method o;
            make_idempotency (bool_decide (string_map Transport.upper_char m = "GET")) None false
  end.

Section dispatch.
Context {T : Type}.
Variable decoder : pyval → result T.

Definition _result (o : CatalogOperationRequest) (response : RuntimeResponse) : D (ResultEnvelope T) :=
  let status := status_code response in
  if negb ((200 <=? status) && (status <? 300)) then
    (if status =? 401 then on_world (service_record (cor_operation_id o) RespUnauthorized)
     else if status =? 403 then on_world (service_record (cor_operation_id o) RespForbidden) else mret tt);;
    lift_res (raise_new (status_error "Catalog operation returned an unsuccessful HTTP status." (cor_operation_id o) response))
  else
    match json_loads (body response) with
    | None => lift_res (raise_new (native_catalog_error "Catalog operation returned an invalid JSON result."
                (operation_str (cor_operation_id o)) (op_platform (cor_operation_id o)) None None None None None None))
    | Some payload => lift_res (result_from_dict decoder payload)
    end.

(** The body of the guarded section *)
Definition attempt (o : CatalogOperationRequest) (request : RuntimeRequest) (deadline : DeadlineMonitor) (key : CircuitKey)
  : D (ResultEnvelope T) :=
  idem ← lift_res (_idempotency_for o);
  loop ← lift_res (make_retry_loop (cc_budget self) idem deadline (cc_max_attempts self));
  response ← run (λ d, on_world (retry_sleep d)) (send_once o request key) loop;
  _result o response.

(** [_dispatch]; the asynchronous client resolves capabilities and credentials
    with the asynchronous methods. *)
Definition dispatch_with (resolve : OperationId → M W EffectiveCapabilityProfile) (provider : M W (option credential))
    (o : CatalogOperationRequest) (guard : CatalogOperationGuard W) : D (ResultEnvelope T) :=
  _assert_open;;
  _enforce_guards o guard None false;;
  effective ← on_world (resolve (cor_operation_id o));
  _enforce_guards o guard (Some effective) true;;
  c ← match cc_credentials self with
      | NoCredentials => mret None
      | Resolver explicit => mret explicit
      | Plain c => mret (Some c)
      | Provider _ => on_world provider
      end;
  request ← lift_res (_request_for (cc_user_agent self) o c);
  deadline ← make_monitor (cc_budget self);
  '(deadline, key) ← _admit o request deadline;
  set_dispatch (λ _, 0) false;;
  result ← _dispatch_guard o deadline key (attempt o request deadline key);
  _emit_success o deadline;;
  mret result.

Definition _dispatch := dispatch_with service_resolve provider_resolve.
Definition _dispatch_async := dispatch_with service_resolve_async provider_resolve_async.
End dispatch.

(** ** The life cycle and the other methods *)

Definition close : D unit :=
  closed ← read cl_closed;
  if (closed : bool) then mret tt
  else set_client_closed;; if cc_owns_transport self then on_world transport_close else mret tt.

Definition _operation_id (value : string) (profile : EffectiveCapabilityProfile) : OperationId :=
  match List.find (λ i, bool_decide (operation_str i = value)) (fst <$> map_to_list (capabilities profile)) with
  | Some i => i
  | None => {| op_platform := "unknown"; op_service := "unknown"; op_method := "unknown" |}
  end.

Definition _capability_value (s : EffectiveCapabilityState) : string :=
  match s with StCore | StOptional | StAuthenticated | StAdmin => "available" | _ => state_value s end.

Definition capability (operation_id : string) : D string :=
  let o := _operation_id operation_id (cc_profile self) in
  profile ← on_world (service_peek o);
  mret (_capability_value (gd_state (guard_operation profile o))).

(** [invalidate] of everything, or of the operation a text names *)
Definition invalidate_text (operation_id : option string) : D unit :=
  on_world (service_invalidate ((λ v, _operation_id v (cc_profile self)) <$> operation_id)).
End client.
