(* ===== verification/ClientProofs.v ===== *)
(** * What a dispatch does

    The theorems about [Clients]: nothing is sent past a guard that refuses, the
    number of requests is bounded, a half-open trial is always given back, and
    every dispatch that reached the transport leaves exactly one terminal event. *)
From Stdlib Require Import QArith ZArith Lia.
From stdpp Require Import strings gmap.
From S2P Require Import Prelude PyVal Regex Redaction Policies Errors Transport Resilience Breaker Urls Json JsonText Ids Profiles Capability Receipts Projection Records Mutation Events Clients.
Import Deadline.
Local Close Scope Q_scope.
Local Open Scope Z_scope.
Local Open Scope py_scope.

(** ** The registry *)

(** [m] leaves at most the trials [U] plus, on a return, what [Q] allows. *)
Section registry.
Context {W : Type} `{!Clocked W}.
Abbreviation trials s := (_trial_in_flight (fst s)).

Lemma clock_trials U : preserves (λ s : BreakerRegistry * W, trials s ⊆ U) clock_now.
Proof. intros [r w] Hs. unfold clock_now, clock, registry_clocked. cbn. by destruct (clock w). Qed.

Lemma state_for_trials U k : preserves (λ s : BreakerRegistry * W, trials s ⊆ U) (_state_for k).
Proof. intros [r w] Hs. exact Hs. Qed.

Lemma admit_trials T0 k (s : BreakerRegistry * W) :
  trials s = T0 → match breaker_admit k s with
                  | (Ok b, s') => if b then trials s' ⊆ {[k]} ∪ T0 else trials s' ⊆ T0
                  | (Raise _, s') => trials s' ⊆ T0
                  end.
Proof.
  destruct s as [r w]. intros <-. unfold breaker_admit, mbind, M_bind. rewrite state_for_eq.
  destruct (negb (is_open (circuit r k))); cbn; [set_solver|].
  unfold clock_now, clock, registry_clocked, read. cbn. destruct (clock w) as [t w1]. cbn.
  destruct (clock w1) as [t2 w2]. cbn. match goal with |- context [if ?b then _ else _] => destruct b end; cbn; set_solver.
Qed.

Lemma discard_after U k (s : BreakerRegistry * W) (m : M (BreakerRegistry * W) CircuitState) :
  (m = record_success k ∨ m = record_transport_failure k) →
  trials s ⊆ {[k]} ∪ U →
  match m s with (Ok _, s') => trials s' ⊆ U | (Raise _, s') => trials s' ⊆ trials s end.
Proof.
  destruct s as [r w]. intros Hm Hs. destruct Hm as [->| ->].
  - unfold record_success, mbind, M_bind. rewrite state_for_eq. unfold lift_res.
    destruct (circuit_reset (circuit r k)); cbn in *; set_solver.
  - unfold record_transport_failure, mbind, M_bind. rewrite state_for_eq. unfold lift_res.
    destruct (record_failure (circuit r k)) as [c|e]; cbn in *; [|set_solver].
    destruct (is_open c); cbn; [|set_solver].
    unfold clock_now, clock, registry_clocked. cbn. destruct (clock w). cbn. set_solver.
Qed.

Lemma response_trials U k status (s : BreakerRegistry * W) :
  trials s ⊆ {[k]} ∪ U →
  match Breaker.record_response k status s with (Ok _, s') => trials s' ⊆ U | (Raise _, s') => trials s' ⊆ trials s end.
Proof.
  intros Hs. unfold Breaker.record_response. destruct (negb _); [cbn; set_solver|].
  destruct (500 <=? status); [apply (discard_after U k); [by right|done]|].
  destruct (_ && _); [apply (discard_after U k); [by left|done]|].
  destruct s as [r w]. cbn in *. set_solver.
Qed.

Lemma release_trials U k (s : BreakerRegistry * W) :
  trials s ⊆ {[k]} ∪ U → ∃ s', release_trial k s = (Ok tt, s') ∧ trials s' ⊆ U.
Proof. destruct s as [r w]. intros Hs. eexists. split; [reflexivity|]. cbn in *. set_solver. Qed.
End registry.

(** ** The retry loop, counted *)

Lemma retry_allowed l k c ra d :
  for_response k (rl_max_attempts l) c ra (rl_idempotency l) (rl_budget l) = Ok d →
  retry d = true → allows_retry (rl_idempotency l) = true.
Proof.
  unfold for_response. intros H Hr. inv_ok. destruct (allows_retry _); [done|]. cbn in H. inv_ok. discriminate Hr.
Qed.

(** A measure that the clock and the sleep keep and each send moves by [step]
    is moved once per attempt. *)
Section counted.
Context {S B : Type} `{!Clocked S} (f : S → B) (step : B → B → Prop).
Variables (sleep : Q → M S unit) (send : M S RuntimeResponse).
Hypothesis clock_same : ∀ s, f (clock s).2 = f s.
Hypothesis sleep_same : ∀ d s, f (sleep d s).2 = f s.
Hypothesis send_steps : ∀ s, step (f s) (f (send s).2).

Lemma same_as v : ∀ s, f s = v → f (clock s).2 = v.
Proof. intros s <-. apply clock_same. Qed.

Lemma settle_allowed l k response failure s :
  f (_settle_attempt l k response failure s).2 = f s ∧
  ∀ d, (_settle_attempt l k response failure s).1 = Ok (inr d) → allows_retry (rl_idempotency l) = true.
Proof.
  split.
  - apply (preserves_bind (λ s', f s' = f s)); [auto with datasluice| |done]. intros d. case_match.
    + repeat case_match; auto with datasluice.
    + apply preserves_bind; [apply check_wait_keeps; exact (same_as _)|auto with datasluice].
  - intros d. unfold _settle_attempt, lift_res, mbind at 1, M_bind at 1.
    destruct (for_response _ _ _ _ _ _) as [dec|e] eqn:E; [|done].
    destruct (retry dec) eqn:Er; cbn [negb]; [intros _; by eapply retry_allowed|].
    by destruct response, failure.
Qed.

Lemma run_from_counted l todo : ∀ k s, ∃ n, (n ≤ todo)%nat ∧ nsteps step n (f s) (f (run_from sleep send l todo k s).2) ∧
  (allows_retry (rl_idempotency l) = false → (n ≤ 1)%nat).
Proof.
  assert (Hz : ∀ s s' n, f s' = f s → ∃ m, (m ≤ n)%nat ∧ nsteps step m (f s) (f s') ∧ (allows_retry (rl_idempotency l) = false → (m ≤ 1)%nat)).
  { intros s s' n E. exists 0%nat. rewrite E. split_and!; [lia|constructor|lia]. }
  induction todo as [|todo IH]; intros k s; [by apply Hz|]. cbn [run_from]. unfold mbind at 1, M_bind at 1.
  pose proof (assert_dispatchable_keeps _ (same_as (f s)) None None (rl_deadline l) s eq_refl) as H1.
  destruct (assert_dispatchable _ _ _ s) as [[m|e] s1]; cbn in H1; [|by apply Hz].
  unfold mbind at 1, M_bind at 1.
  assert (H2 : step (f s) (f (send_attempt send s1).2)).
  { unfold send_attempt, try_except, mbind, M_bind. rewrite <- H1. specialize (send_steps s1).
    destruct (send s1) as [[r|e] s2]; [done|]. by destruct (is_subclass _ _). }
  destruct (send_attempt send s1) as [[[response failure]|e] s2]; cbn in H2; [|exists 1%nat; split_and!; [lia|by apply nsteps_once|lia]].
  unfold mbind at 1, M_bind at 1. destruct (settle_allowed l k response failure s2) as [H3 Ha].
  destruct (_settle_attempt l k response failure s2) as [[[r|d]|e] s3]; cbn in H3, Ha.
  1,3: exists 1%nat; (split_and!; [lia|cbn; apply nsteps_once; congruence|lia]).
  specialize (Ha d eq_refl). unfold mbind, M_bind. specialize (sleep_same d s3).
  destruct (sleep d s3) as [[[]|e] s4]; cbn in *.
  - destruct (IH (k + 1) s4) as (n & Hn & Hf & _). exists (Datatypes.S n). split_and!; [lia| |congruence].
    econstructor; [exact H2|]. congruence.
  - exists 1%nat. split_and!; [lia|cbn; apply nsteps_once; congruence|lia].
Qed.
End counted.

(** ** What a dispatch leaves in the log *)

Definition sent (l : list client_event) : list RuntimeRequest :=
  omap (λ e, match e with Sent r => Some r | _ => None end) l.
Definition is_terminal (outcome : string) : bool := bool_decide (outcome ∈ ["succeeded"; "failed"; "budget_exhausted"]).
Definition terminal (l : list client_event) : list string :=
  omap (λ e, match e with Emitted e => if is_terminal (ev_outcome e) then Some (ev_outcome e) else None | _ => None end) l.

Section dispatch.
Context {W : Type} `{!CatalogEnv W, !CapabilityService W, IpLiterals, Hmac, JsonBytes}.
Variable self : CatalogClient W.
Implicit Types (s : client W) (o : CatalogOperationRequest).

(** Closed or not, the requests sent, the terminal events *)
Definition summary s : bool * list RuntimeRequest * list string := (cl_closed s, sent (cl_log s), terminal (cl_log s)).

Lemma world_summary x {A} (m : M W A) : preserves (λ s, summary s = x) (on_world m).
Proof. intros s Hs. unfold on_world. by destruct (m _). Qed.
Lemma breakers_summary x {A} (m : M (BreakerRegistry * W) A) : preserves (λ s, summary s = x) (on_breakers m).
Proof. intros s Hs. unfold on_breakers. by destruct (m _) as [? [? ?]]. Qed.
Lemma set_summary x f b : preserves (λ s, summary s = x) (set_dispatch (W:=W) f b).
Proof. by apply preserves_modify. Qed.
Lemma clock_summary x : ∀ s, summary s = x → summary (clock s).2 = x.
Proof. intros s Hs. unfold clock, client_clocked. by destruct (clock _). Qed.

(** An emission that succeeds is logged; one that fails is not. *)
Lemma event_log emitter operation platform outcome md x : hoare (λ s, summary s = x) (emit_event emitter operation platform outcome md)
  (λ _ s, summary s = (x.1, x.2 ++ if is_terminal outcome then [outcome] else [])) (λ _ s, summary s = x).
Proof.
  intros s Hs. unfold emit_event, on_world, note, modify, mbind, M_bind.
  destruct (emitter_record _ _ _ _ _ _ _) as [[e|e] w'] eqn:E; [|exact Hs].
  assert (ev_outcome e = outcome) as Ho.
  { revert E. unfold emitter_record. unfold mbind at 1, M_bind at 1.
    match goal with |- match ?m with _ => _ end = _ → _ => destruct m as [[active|x1] w1]; [|done] end.
    unfold mbind, M_bind, lift_res, mret, M_ret. destruct (make_event _ _ _ _ _) as [e'|x2] eqn:Em; [|done].
    destruct (fan_out _ _ _) as [[[]|x3] w2]; [|done].
    intros [= <- _]. by apply make_event_wf in Em as (_ & _ & _ & ?). }
  unfold summary in *. cbn. rewrite <- Hs. unfold sent, terminal. rewrite !omap_app. cbn. rewrite Ho, app_nil_r.
  by destruct (is_terminal outcome).
Qed.

Lemma event_quiet emitter operation platform outcome md x :
  is_terminal outcome = false → preserves (λ s, summary s = x) (emit_event emitter operation platform outcome md).
Proof.
  intros Ht. apply preserves_hoare. eapply hoare_conseq; [apply (event_log emitter operation platform outcome md x)|done| |done].
  cbn. intros _ s. rewrite Ht, app_nil_r. intros ->. by destruct x as [[]].
Qed.
Lemma emit_log o outcome md x : hoare (λ s, summary s = x) (_emit self o outcome md)
  (λ _ s, summary s = (x.1, x.2 ++ if is_terminal outcome then [outcome] else [])) (λ _ s, summary s = x).
Proof. apply event_log. Qed.
Lemma emit_quiet o outcome md x : is_terminal outcome = false → preserves (λ s, summary s = x) (_emit self o outcome md).
Proof. apply event_quiet. Qed.

#[local] Hint Resolve world_summary breakers_summary set_summary : datasluice.

Lemma breaker_change_summary o b a x : preserves (λ s, summary s = x) (_emit_breaker_change self o b a).
Proof. unfold _emit_breaker_change. case_match; [auto with datasluice|by apply emit_quiet]. Qed.
#[local] Hint Resolve breaker_change_summary : datasluice.

(** One attempt sends its request once. *)
Definition and_send (r : RuntimeRequest) (x : bool * list RuntimeRequest * list string) :=
  (x.1.1, x.1.2 ++ [r], x.2).

Lemma send_once_summary o r key s : summary (send_once self o r key s).2 = and_send r (summary s).
Proof.
  unfold send_once. unfold mbind at 1, M_bind at 1, set_dispatch at 1, modify at 1. unfold mbind at 1, M_bind at 1.
  set (s1 := ClientState _ _ _ _ _ _). assert (Hs1 : summary s1 = summary s) by done. clearbody s1.
  assert (Hs2 := breakers_summary (summary s) (inspect key) s1 Hs1).
  assert (∃ c, (on_breakers (inspect key) s1).1 = Ok c) as [c Hc] by by eexists.
  destruct (on_breakers (inspect key) s1) as [rc s2]; cbn in Hs2, Hc. subst rc.
  set (s3 := ClientState (cl_closed s2) (cl_breakers s2) (ds_attempts s2) (ds_recorded s2) (cl_log s2 ++ [Sent r]) (cl_world s2)).
  assert (Hs3 : summary s3 = and_send r (summary s)).
  { rewrite <- Hs2. unfold summary, and_send. cbn. unfold sent, terminal. rewrite !omap_app. cbn. by rewrite app_nil_r. }
  change (summary ((try_except (on_world (transport_send r)) (λ e, if is_subclass (exn_kind e) TransportError
     then Some (_record_transport_failure self o key c;; throw e) else None) ≫= _record_response self o key c) s3).2 =
     and_send r (summary s)).
  revert Hs3. generalize (and_send r (summary s)). intros x Hs3. revert s3 Hs3.
  apply (preserves_bind (λ s, summary s = x)).
  - apply preserves_try; [auto with datasluice|]. intros e k Hk. case_match; [|done]. injection Hk as <-.
    unfold _record_transport_failure. auto 10 with datasluice.
  - intros response. unfold _record_response. auto 10 with datasluice.
Qed.

(** Steps of a function *)
Lemma nsteps_iter {A} (g : A → A) n x y : nsteps (λ a b, b = g a) n x y → y = Nat.iter n g x.
Proof. intros Hn. induction Hn as [|n x y z Hxy Hn IH]; [done|]. rewrite IH, Hxy. symmetry. apply Nat.iter_succ_r. Qed.

Lemma iter_and_send r n x : Nat.iter n (and_send r) x = (x.1.1, x.1.2 ++ replicate n r, x.2).
Proof.
  induction n as [|n IH]; [cbn; rewrite app_nil_r; by destruct x as [[]]|]. rewrite Nat.iter_succ, IH.
  unfold and_send. cbn [fst snd]. by rewrite <- app_assoc, <- replicate_cons_app.
Qed.

(** What may have been sent: [n] copies of one request. *)
Definition sends_bound o : nat → Prop := λ n,
  Z.of_nat n <= Z.max 0 (cc_max_attempts self) ∧
  ((∀ p, _idempotency_for o = Ok p → allows_retry p = false) → (n ≤ 1)%nat).

Definition extended o r (x y : bool * list RuntimeRequest * list string) : Prop :=
  ∃ n, sends_bound o n ∧ y = (x.1.1, x.1.2 ++ replicate n r, x.2).

Section result.
Context {T : Type} (decoder : pyval → result T).

Lemma result_summary o response x : preserves (λ s, summary s = x) (_result decoder o response).
Proof.
  unfold _result. case_match.
  - apply preserves_bind; [repeat case_match; auto with datasluice|auto with datasluice].
  - case_match; auto with datasluice.
Qed.

Lemma attempt_summary o r deadline key s : extended o r (summary s) (summary (attempt self decoder o r deadline key s).2).
Proof.
  unfold attempt, lift_res. unfold mbind at 1, M_bind at 1.
  assert (Hz : extended o r (summary s) (summary s)).
  { exists 0%nat. split; [split; [lia|intros _; lia]|]. cbn. rewrite app_nil_r. done. }
  destruct (_idempotency_for o) as [idem|e] eqn:Ei; [|done]. unfold mbind at 1, M_bind at 1.
  destruct (make_retry_loop _ _ _ _) as [l|e] eqn:El; [|done].
  unfold make_retry_loop in El. inv_ok. qbool. unfold mbind, M_bind.
  destruct (run_from_counted summary (λ a b, b = and_send r a) (λ d, on_world (retry_sleep d)) (send_once self o r key)
    (λ s, clock_summary _ s eq_refl) (λ d s, world_summary _ _ s eq_refl) (send_once_summary o r key)
    {| rl_budget := cc_budget self; rl_idempotency := idem; rl_deadline := deadline; rl_max_attempts := cc_max_attempts self |}
    (Z.to_nat (cc_max_attempts self)) 1 s) as (n & Hn & Hs & Hone).
  unfold run. cbn [rl_max_attempts] in *. apply nsteps_iter in Hs. rewrite iter_and_send in Hs.
  assert (Hx : extended o r (summary s) (summary (run_from (λ d, on_world (retry_sleep d)) (send_once self o r key)
    {| rl_budget := cc_budget self; rl_idempotency := idem; rl_deadline := deadline; rl_max_attempts := cc_max_attempts self |}
    (Z.to_nat (cc_max_attempts self)) 1 s).2)).
  { exists n. split; [split; [lia|]|exact Hs]. intros Hall. by apply Hone, Hall. }
  destruct (run_from _ _ _ _ _ s) as [[response|e] s1]; [|exact Hx].
  by rewrite (result_summary o response _ s1 eq_refl).
Qed.
End result.

(** ** The guards in front of a dispatch *)

(** The credential a dispatch uses, from the world [w] it is resolved in *)
Definition credential_from (provider : M W (option credential)) (w : W) (c : option credential) : Prop :=
  match cc_credentials self with
  | NoCredentials => c = None
  | Resolver explicit => c = explicit
  | Plain c' => c = Some c'
  | Provider _ => (provider w).1 = Ok c
  end.

(** What was checked before [r] may be sent for [o] *)
Definition granted (resolve : OperationId → M W EffectiveCapabilityProfile) (provider : M W (option credential))
    o (guard : CatalogOperationGuard W) s (r : RuntimeRequest) (key : CircuitKey) : Prop :=
  cl_closed s = false ∧ cg_operation_id guard = cor_operation_id o ∧
  ∃ w1 w2 effective c,
    cg_require_allowed guard (cl_world s) = (Ok tt, w1) ∧
    resolve (cor_operation_id o) w1 = (Ok effective, w2) ∧
    gd_allowed (guard_operation effective (cor_operation_id o)) = true ∧
    credential_from provider w2 c ∧ _request_for (cc_user_agent self) o c = Ok r ∧
    _circuit_key r (cc_credentials self) = Ok key.

Abbreviation in_flight s := (_trial_in_flight (cl_breakers s)).

(** What a step that is no send, no terminal event and no breaker operation keeps *)
Definition frame s s' : Prop := summary s' = summary s ∧ cl_breakers s' = cl_breakers s.

Lemma world_frame {A} (m : M W A) s r s' : on_world m s = (r, s') → frame s s' ∧ (r, cl_world s') = m (cl_world s).
Proof. unfold on_world, frame. destruct (m _). by intros [= <- <-]. Qed.

Lemma emit_frame o outcome md s r s' : is_terminal outcome = false → _emit self o outcome md s = (r, s') → frame s s'.
Proof.
  intros Ht E. split.
  - assert (H' := emit_quiet o outcome md _ Ht s eq_refl). by rewrite E in H'.
  - revert E. unfold _emit, emit_event, note, modify. rewrite bind_step. destruct (on_world _ s) as [[e|e] s1] eqn:Ew;
      apply world_frame in Ew as [[_ Hb] _]; by intros [= _ <-].
Qed.

Lemma clock_frame s t s' : clock s = (t, s') → frame s s'.
Proof. unfold clock, client_clocked, frame. destruct (clock _). by intros [= _ <-]. Qed.

Lemma dispatchable_frame op pl m s r s' : assert_dispatchable op pl m s = (r, s') → frame s s'.
Proof.
  intros E. assert (H' : frame s (assert_dispatchable op pl m s).2).
  { apply (assert_dispatchable_keeps (frame s)); [|done]. intros s1 [Hs1 Hs2]. destruct (clock s1) as [t s2] eqn:Ec.
    apply clock_frame in Ec as [Hc1 Hc2]. split; cbn; congruence. }
  by rewrite E in H'.
Qed.

Lemma frame_trans s1 s2 s3 : frame s1 s2 → frame s2 s3 → frame s1 s3.
Proof. unfold frame. intros [? ?] [? ?]. split; congruence. Qed.

Lemma admit_frame o r deadline s res s' : _admit self o r deadline s = (res, s') →
  summary s' = summary s ∧
  match res with
  | Ok (_, key) => _circuit_key r (cc_credentials self) = Ok key ∧ in_flight s' ⊆ {[key]} ∪ in_flight s
  | Raise _ => in_flight s' ⊆ in_flight s
  end.
Proof.
  unfold _admit. rewrite bind_step. destruct (assert_dispatchable _ _ _ s) as [[m|e] s1] eqn:Ed;
    apply dispatchable_frame in Ed as [Hd Hb]; [|intros [= <- <-]; by rewrite Hb].
  rewrite bind_step. unfold lift_res at 1. destruct (_circuit_key _ _) as [key|e]; [|intros [= <- <-]; by rewrite Hb].
  rewrite bind_step. unfold on_breakers.
  pose proof (admit_trials (in_flight s) key (cl_breakers s1, cl_world s1) ltac:(cbn; by rewrite Hb)) as Ht.
  destruct (breaker_admit _ _) as [[[]|e] [b w]]; cbn [fst] in Ht.
  - intros [= <- <-]. split_and!; try done.
  - rewrite bind_step. destruct (_emit _ _ _ _ _) as [[e|e] s2] eqn:Ee; apply emit_frame in Ee as [Hs Hb2]; try done.
    + unfold lift_res. intros E. assert (s' = s2) as -> by (by injection E). destruct res as [[? ?]|x].
      * injection E as E. by apply raise_new_ok in E.
      * split; [by rewrite Hs|]. by rewrite Hb2.
    + intros [= <- <-]. split; [by rewrite Hs|]. by rewrite Hb2.
  - by intros [= <- <-].
Qed.

Lemma guards_caller o guard s r s' : _enforce_guards o guard None false s = (r, s') → frame s s' ∧
  ∀ u, r = Ok u → cg_operation_id guard = cor_operation_id o ∧ cg_require_allowed guard (cl_world s) = (Ok tt, cl_world s').
Proof.
  unfold _enforce_guards. rewrite bind_step. case_bool_decide as Hid; [|by intros [= <- <-]].
  cbn [mret M_ret]. rewrite bind_step.
  destruct (on_world _ s) as [[[]|e] s1] eqn:Eg; apply world_frame in Eg as [F1 W1]; intros [= <- <-]; by split.
Qed.

Lemma guards_profile o guard effective s r s' : _enforce_guards o guard (Some effective) true s = (r, s') → s' = s ∧
  ∀ u, r = Ok u → gd_allowed (guard_operation effective (cor_operation_id o)) = true.
Proof.
  unfold _enforce_guards. rewrite bind_step. case_bool_decide as Hid; [|by intros [= <- <-]].
  intros [= <- <-]. split; [done|]. intros u Ea. unfold require_allowed in Ea. inv_ok.
  destruct (gd_allowed _); [done|]. by match goal with Hr : raise_new _ = Ok _ |- _ => apply raise_new_ok in Hr end.
Qed.

Section dispatches.
Context {T : Type} (decoder : pyval → result T).
Variables (resolve : OperationId → M W EffectiveCapabilityProfile) (provider : M W (option credential)).

(** The guarded part of a dispatch *)
Definition guarded o r deadline key : M (client W) (ResultEnvelope T) :=
  result ← _dispatch_guard self o deadline key (attempt self decoder o r deadline key);
  _emit_success self o deadline;;
  mret result.

(** Where a dispatch enters its guarded section, or that it never does *)
Lemma dispatch_enters o guard s :
  let out := dispatch_with self decoder resolve provider o guard s in
  (∃ e, out.1 = Raise e ∧ summary out.2 = summary s ∧ in_flight out.2 ⊆ in_flight s) ∨
  ∃ r deadline key s1, granted resolve provider o guard s r key ∧ summary s1 = summary s ∧
    in_flight s1 ⊆ {[key]} ∪ in_flight s ∧ ds_recorded s1 = false ∧ ds_attempts s1 = 0 ∧ out = guarded o r deadline key s1.
Proof.
  cbn zeta. unfold dispatch_with, _assert_open.
  assert (Hout : ∀ e s', frame s s' → ∃ e', (@Raise (ResultEnvelope T) e, s').1 = Raise e' ∧
    summary (@Raise (ResultEnvelope T) e, s').2 = summary s ∧ in_flight (@Raise (ResultEnvelope T) e, s').2 ⊆ in_flight s).
  { intros e s' [? Hb]. exists e. cbn. by rewrite Hb. }
  assert (Hrefl : frame s s) by done.
  rewrite bind_step. rewrite (bind_step (read cl_closed)). cbn [read]. destruct (cl_closed s) eqn:Eclosed; [left; by apply Hout|].
  cbn [mret M_ret]. rewrite bind_step.
  destruct (_enforce_guards o guard None false s) as [[[]|e] s1] eqn:Eg; apply guards_caller in Eg as [F1 Hg]; [|left; by apply Hout].
  destruct (Hg tt eq_refl) as [Hid W1]. rewrite bind_step.
  destruct (on_world (resolve _) s1) as [[effective|e] s2] eqn:Er; apply world_frame in Er as [F2 W2];
    (eapply frame_trans in F2; [|exact F1]); [|left; by apply Hout].
  rewrite bind_step. destruct (_enforce_guards o guard (Some effective) true s2) as [[[]|e] s3] eqn:Ep;
    apply guards_profile in Ep as [-> Hp]; [|left; by apply Hout]. specialize (Hp tt eq_refl). rewrite bind_step.
  set (cred := match cc_credentials self with NoCredentials => _ | _ => _ end).
  destruct (cred s2) as [[c|e] s3] eqn:Ec.
  2:{ left. apply Hout. subst cred. destruct (cc_credentials self); try discriminate Ec.
      apply world_frame in Ec as [F3 _]. by eapply frame_trans. }
  assert (F3 : frame s s3 ∧ credential_from provider (cl_world s2) c).
  { unfold credential_from. subst cred. destruct (cc_credentials self); try by (injection Ec as <- <-).
    apply world_frame in Ec as [F3 W3]. rewrite <- W3. split; [by eapply frame_trans|done]. }
  destruct F3 as [F3 Hcred]. rewrite bind_step. cbn [lift_res].
  destruct (_request_for _ _ _) as [r|e] eqn:Erq; [|left; by apply Hout].
  rewrite bind_step. unfold make_monitor. rewrite (bind_step clock_now). unfold clock_now.
  destruct (clock s3) as [t s4] eqn:Eclk. apply clock_frame in Eclk as F4.
  eapply frame_trans in F4; [|exact F3]. cbn [mret M_ret]. rewrite bind_step.
  destruct (_admit self o r _ s4) as [[[deadline key]|e] s5] eqn:Ead; apply admit_frame in Ead as [Hs5 Ht5]; destruct F4 as [F4 B4];
    rewrite B4 in Ht5.
  2:{ left. exists e. cbn. split_and!; [done|congruence|done]. }
  right. destruct Ht5 as [Hkey Ht5].
  exists r, deadline, key, (ClientState (cl_closed s5) (cl_breakers s5) 0 false (cl_log s5) (cl_world s5)).
  split_and!; try done; [|by rewrite <- F4, <- Hs5].
  split_and!; [done|done|]. exists (cl_world s1), (cl_world s2), effective, c. by split_and!.
Qed.
Definition terminal_kinds : list (list string) := [[]; ["failed"]; ["budget_exhausted"]].

Lemma usage_of_summary budget deadline x : preserves (λ s, summary s = x) (usage_of budget deadline).
Proof.
  unfold usage_of, remaining. apply preserves_bind; [|auto with datasluice].
  apply preserves_bind; [|auto with datasluice]. apply clock_now_keeps. exact (clock_summary x).
Qed.

Lemma usage_summary deadline x : preserves (λ s, summary s = x) (budget_usage self deadline).
Proof. apply usage_of_summary. Qed.

Lemma emit_success_summary o deadline x :
  hoare (λ s, summary s = x) (_emit_success self o deadline) (λ _ s, summary s = (x.1, x.2 ++ ["succeeded"])) (λ _ s, summary s = x).
Proof.
  unfold _emit_success. eapply hoare_bind; [apply preserves_hoare, preserves_read|]. intros n.
  eapply hoare_bind; [apply preserves_hoare, usage_summary|]. intros usage. apply (emit_log o "succeeded").
Qed.

(** The handlers of the guard: at most one event, and the exception again *)
Lemma event_raise {A} emitter operation platform outcome md e x : outcome ∈ ["failed"; "budget_exhausted"] →
  hoare (λ s, summary s = x) (emit_event (W:=W) emitter operation platform outcome md;; @throw _ A e)
    (λ _ _, False) (λ _ s, ∃ es, es ∈ terminal_kinds ∧ summary s = (x.1, x.2 ++ es)).
Proof.
  intros Ho. eapply hoare_bind with (R := λ _ s, summary s = (x.1, x.2 ++ [outcome])).
  - eapply hoare_conseq; [apply (event_log emitter operation platform outcome md x)|done|..]; cbn.
    + intros _ s ->. unfold is_terminal. rewrite bool_decide_true by set_solver. done.
    + intros _ s ->. exists []. split; [set_solver|]. rewrite app_nil_r. by destruct x as [[]].
  - intros _. apply hoare_throw. intros s ->. exists [outcome]. split; [|done].
    unfold terminal_kinds. set_solver.
Qed.
Lemma emit_raise o outcome md e x : outcome ∈ ["failed"; "budget_exhausted"] →
  hoare (λ s, summary s = x) (_emit self o outcome md;; @throw _ (ResultEnvelope T) e)
    (λ _ _, False) (λ _ s, ∃ es, es ∈ terminal_kinds ∧ summary s = (x.1, x.2 ++ es)).
Proof. apply event_raise. Qed.

Lemma release_summary key x : preserves (λ s, summary s = x) (_release_abandoned_trial (W:=W) key).
Proof.
  unfold _release_abandoned_trial. apply preserves_bind; [auto with datasluice|]. intros b. case_match; auto with datasluice.
Qed.

Lemma guard_summary o deadline key (body : M (client W) (ResultEnvelope T)) s y : summary (body s).2 = y →
  match _dispatch_guard self o deadline key body s with
  | (Ok _, s') => summary s' = y
  | (Raise _, s') => ∃ es, es ∈ terminal_kinds ∧ summary s' = (y.1, y.2 ++ es)
  end.
Proof.
  intros Hb.
  assert (Hnone : ∀ s, summary s = y → ∃ es, es ∈ terminal_kinds ∧ summary s = (y.1, y.2 ++ es)).
  { intros s1 ->. exists []. split; [set_solver|]. rewrite app_nil_r. by destruct y as [[]]. }
  assert (Hg : hoare (λ s1, s1 = s) (_dispatch_guard self o deadline key body) (λ _ s', summary s' = y)
    (λ _ s', ∃ es, es ∈ terminal_kinds ∧ summary s' = (y.1, y.2 ++ es))).
  { unfold _dispatch_guard. apply hoare_finally.
    - eapply hoare_try with (E' := λ _ s, summary s = y).
      + intros s1 ->. destruct (body s) as [[]]; by cbn in Hb.
      + intros e k Hk. case_match; [|case_match; [|done]]; injection Hk as <-.
        * apply hoare_bind with (R := λ _ s, summary s = y).
          { eapply hoare_conseq; [apply preserves_hoare, (usage_summary deadline y)|done|done|auto]. }
          intros usage. eapply hoare_conseq; [apply (emit_raise o "budget_exhausted" _ _ y); set_solver|done..].
        * apply hoare_bind with (R := λ _ s, summary s = y); [by apply hoare_read|]. intros n.
          eapply hoare_conseq; [apply (emit_raise o "failed" _ _ y); set_solver|done..].
      + auto.
    - intros a. eapply hoare_conseq; [apply preserves_hoare, (release_summary key y)|done|done|auto].
    - intros e s1 (es & Hes & Hs). assert (Hr := release_summary key _ s1 Hs).
      destruct (_release_abandoned_trial key s1) as [[] s2]; by exists es. }
  specialize (Hg s eq_refl). by destruct (_dispatch_guard _ _ _ _ _ _) as [[]].
Qed.

(** The events a guarded section leaves, given what its body sends *)
Lemma guarded_summary o r deadline key s :
  let out := guarded o r deadline key s in
  ∃ n es, sends_bound o n ∧ summary out.2 = ((summary s).1.1, (summary s).1.2 ++ replicate n r, (summary s).2 ++ es) ∧
    match out.1 with Ok _ => es = ["succeeded"] | Raise _ => es ∈ terminal_kinds end.
Proof.
  cbn zeta. unfold guarded. rewrite bind_step.
  destruct (attempt_summary decoder o r deadline key s) as (n & Hn & Hs). exists n.
  pose proof (guard_summary o deadline key _ s _ Hs) as Hg.
  destruct (_dispatch_guard _ _ _ _ _ s) as [[result|e] s1].
  - rewrite bind_step. assert (He := emit_success_summary o deadline _ s1 Hg).
    destruct (_emit_success _ _ _ s1) as [[[]|e] s2]; [by exists ["succeeded"]|].
    exists []. split; [done|]. cbn in *. rewrite app_nil_r. split; [done|]. set_solver.
  - destruct Hg as (es & Hes & Hg). by exists es.
Qed.

(** The half-open trial of [key]: taken at most by this dispatch, and given back
    once an outcome is recorded *)
Definition trial_inv (T0 : gset CircuitKey) key s : Prop :=
  in_flight s ⊆ {[key]} ∪ T0 ∧ (ds_recorded s = true → in_flight s ⊆ T0).

Section trials.
Variables (T0 : gset CircuitKey) (key : CircuitKey).

Lemma world_trial {A} (m : M W A) : preserves (trial_inv T0 key) (on_world m).
Proof. intros s Hs. unfold on_world. by destruct (m _). Qed.
#[local] Hint Resolve world_trial : datasluice.

Lemma event_trial emitter operation platform outcome md : preserves (trial_inv T0 key) (emit_event emitter operation platform outcome md).
Proof. unfold emit_event. apply preserves_bind; [auto with datasluice|]. intros e. by apply preserves_modify. Qed.
Lemma emit_trial o outcome md : preserves (trial_inv T0 key) (_emit self o outcome md).
Proof. apply event_trial. Qed.
#[local] Hint Resolve emit_trial : datasluice.

Lemma change_trial o b a : preserves (trial_inv T0 key) (_emit_breaker_change self o b a).
Proof. unfold _emit_breaker_change. case_match; auto with datasluice. Qed.
#[local] Hint Resolve change_trial : datasluice.

Lemma clock_trial s : trial_inv T0 key s → trial_inv T0 key (clock s).2.
Proof. intros Hs. unfold clock, client_clocked. by destruct (clock _). Qed.

Lemma inspect_trial : preserves (trial_inv T0 key) (on_breakers (inspect key)).
Proof. by intros s Hs. Qed.

(** An operation that gives the trial back when it returns and takes none *)
Lemma recorded_trial {A} (m : M (BreakerRegistry * W) A) :
  (∀ s : BreakerRegistry * W, _trial_in_flight s.1 ⊆ {[key]} ∪ T0 →
     match m s with (Ok _, s') => _trial_in_flight s'.1 ⊆ T0 | (Raise _, s') => _trial_in_flight s'.1 ⊆ _trial_in_flight s.1 end) →
  preserves (trial_inv T0 key) (x ← on_breakers m; set_dispatch id true;; mret x).
Proof.
  intros Hm s [Hin Hrec]. rewrite bind_step. unfold on_breakers. specialize (Hm (cl_breakers s, cl_world s) Hin).
  destruct (m _) as [[x|e] [b w]]; cbn in *; (split; cbn; [set_solver|]).
  - by intros _.
  - intros Hr. specialize (Hrec Hr). set_solver.
Qed.

(** The same, followed by a step that keeps the invariant *)
Lemma recorded_then {A B} (m : M (BreakerRegistry * W) A) (k : A → M (client W) B) :
  (∀ s : BreakerRegistry * W, _trial_in_flight s.1 ⊆ {[key]} ∪ T0 →
     match m s with (Ok _, s') => _trial_in_flight s'.1 ⊆ T0 | (Raise _, s') => _trial_in_flight s'.1 ⊆ _trial_in_flight s.1 end) →
  (∀ a, preserves (trial_inv T0 key) (k a)) →
  preserves (trial_inv T0 key) (x ← on_breakers m; set_dispatch id true;; k x).
Proof.
  intros Hm Hk s Hs. assert (H2 := recorded_trial m Hm s Hs). revert H2. rewrite !bind_step.
  destruct (on_breakers m s) as [[x|e] s1]; [|done]. intros H2. apply Hk. exact H2.
Qed.

Lemma send_trial o r : preserves (trial_inv T0 key) (send_once self o r key).
Proof.
  unfold send_once. apply preserves_bind; [by apply preserves_modify; intros s [? ?]; split|]. intros _.
  apply preserves_bind; [apply inspect_trial|]. intros before. apply preserves_bind.
  - apply preserves_try; [apply preserves_bind; [by apply preserves_modify|auto with datasluice]|].
    intros e k Hk. case_match; [|done]. injection Hk as <-. apply preserves_bind; [|auto with datasluice].
    apply recorded_then; [|auto with datasluice]. intros s. apply (discard_after T0 key). by right.
  - intros response. apply recorded_then; [intros s; apply response_trials|]. intros after. auto with datasluice.
Qed.

Lemma attempt_trial o r deadline : preserves (trial_inv T0 key) (attempt self decoder o r deadline key).
Proof.
  unfold attempt. apply preserves_bind; [auto with datasluice|]. intros idem.
  apply preserves_bind; [auto with datasluice|]. intros l. apply preserves_bind.
  - apply run_keeps; [exact clock_trial|auto with datasluice|apply send_trial].
  - intros response. unfold _result. case_match; [|case_match; auto with datasluice].
    apply preserves_bind; [repeat case_match; auto with datasluice|auto with datasluice].
Qed.

Lemma usage_of_trial budget deadline : preserves (trial_inv T0 key) (usage_of budget deadline).
Proof.
  unfold usage_of, remaining. apply preserves_bind; [|auto with datasluice].
  apply preserves_bind; [|auto with datasluice]. apply clock_now_keeps. exact clock_trial.
Qed.

Lemma usage_trial deadline : preserves (trial_inv T0 key) (budget_usage self deadline).
Proof. apply usage_of_trial. Qed.

(** Leaving the guard gives the trial back. *)
Lemma release_frees s : trial_inv T0 key s → in_flight (_release_abandoned_trial key s).2 ⊆ T0.
Proof.
  intros [Hin Hrec]. unfold _release_abandoned_trial. rewrite bind_step. cbn [read]. destruct (ds_recorded s); [by apply Hrec|].
  unfold on_breakers. destruct (release_trials T0 key (cl_breakers s, cl_world s) Hin) as ([b w] & -> & Ht). exact Ht.
Qed.

Lemma guard_frees o r deadline s :
  trial_inv T0 key s → in_flight (_dispatch_guard self o deadline key (attempt self decoder o r deadline key) s).2 ⊆ T0.
Proof.
  intros Hs. unfold _dispatch_guard, try_finally.
  assert (Hb : preserves (trial_inv T0 key) (try_except (attempt self decoder o r deadline key) (λ e,
       if is_subclass (exn_kind e) BudgetExhaustedError then
         Some (usage ← budget_usage self deadline; _emit self o "budget_exhausted" [("budget_usage", usage)];; throw e)
       else if is_Exception (exn_kind e) then
         Some (n ← retry_count; _emit self o "failed" [("retry_count", PyInt n)];; throw e)
       else None))).
  { apply preserves_try; [apply attempt_trial|]. intros e k Hk.
    case_match; [|case_match; [|done]]; injection Hk as <-; apply preserves_bind; try apply usage_trial;
      try apply preserves_read; intros x; apply preserves_bind; auto with datasluice. }
  specialize (Hb s Hs). destruct (try_except _ _ s) as [res s1]. cbn in Hb. pose proof (release_frees s1 Hb) as Hr.
  by destruct (_release_abandoned_trial key s1) as [[] s2].
Qed.
End trials.

Lemma success_frees T0 o deadline : preserves (λ s, in_flight s ⊆ T0) (_emit_success self o deadline).
Proof.
  unfold _emit_success. apply preserves_bind; [apply preserves_read|]. intros n. apply preserves_bind.
  - unfold budget_usage, usage_of, remaining. apply preserves_bind; [|auto with datasluice].
    apply preserves_bind; [|auto with datasluice]. apply clock_now_keeps. intros s Hs. unfold clock, client_clocked. by destruct (clock _).
  - intros usage. unfold _emit, emit_event. apply preserves_bind; [|by intros e s Hs].
    intros s Hs. unfold on_world. by destruct (emitter_record _ _ _ _ _ _ _).
Qed.

Lemma dispatch_frees o guard s : in_flight (dispatch_with self decoder resolve provider o guard s).2 ⊆ in_flight s.
Proof.
  destruct (dispatch_enters o guard s) as [(e & _ & _ & Ht)|(r & deadline & key & s1 & _ & _ & Ht & Hrec & _ & ->)]; [done|].
  unfold guarded. rewrite bind_step. pose proof (guard_frees (in_flight s) key o r deadline s1) as Hg.
  assert (trial_inv (in_flight s) key s1) as Hi by (split; [done|congruence]). specialize (Hg Hi).
  destruct (_dispatch_guard _ _ _ _ _ s1) as [[result|e] s2]; [|done].
  rewrite bind_step. pose proof (success_frees _ o deadline s2 Hg) as He.
  by destruct (_emit_success _ _ _ s2) as [[[]|e] s3].
Qed.

Lemma dispatch_summary o guard s :
  let out := dispatch_with self decoder resolve provider o guard s in
  (∃ e, out.1 = Raise e ∧ summary out.2 = summary s) ∨
  ∃ r key n es, granted resolve provider o guard s r key ∧ sends_bound o n ∧
    summary out.2 = ((summary s).1.1, (summary s).1.2 ++ replicate n r, (summary s).2 ++ es) ∧
    match out.1 with Ok _ => es = ["succeeded"] | Raise _ => es ∈ terminal_kinds end.
Proof.
  cbn zeta. destruct (dispatch_enters o guard s) as [(e & He & Hs & _)|(r & deadline & key & s1 & Hg & Hs & _ & _ & _ & ->)];
    [left; by exists e|right].
  destruct (guarded_summary o r deadline key s1) as (n & es & Hn & Hsum & Hes). exists r, key, n, es.
  split_and!; [done|done| |done]. by rewrite Hsum, Hs.
Qed.
End dispatches.

Section theorems.
Context {T : Type} (decoder : pyval → result T).

(** C5: whatever the caller's guard, the capability service, the credential
    provider, the transport, the clock, the sleep and the sinks do, the
    requests a dispatch sends are copies of one request, at most
    [max_attempts] of them and at most one when the idempotency of the call
    does not allow a retry; and it sends none unless the client is open, the
    guard is for the operation and passed, the capability profile resolved
    after it allows the operation, and the request is the one built from the
    call and the client's credential. *)
Theorem client_sends_guarded o guard s :
  let out := _dispatch self decoder o guard s in
  ∃ r n, sent (cl_log out.2) = sent (cl_log s) ++ replicate n r ∧
    Z.of_nat n <= Z.max 0 (cc_max_attempts self) ∧
    ((∀ p, _idempotency_for o = Ok p → allows_retry p = false) → (n ≤ 1)%nat) ∧
    (n ≠ 0%nat → ∃ key, granted service_resolve provider_resolve o guard s r key).
Proof.
  cbn zeta. destruct (dispatch_summary decoder service_resolve provider_resolve o guard s)
    as [(e & _ & [= _ Hs _])|(r & key & n & es & Hg & [Hn Hone] & [= _ Hs _] & _)].
  - exists {| method := ""; url := ""; req_headers := []; req_body := None; files := []; redirect_policy := FOLLOW;
      max_response_bytes := None; deadline := None |}, 0%nat. rewrite app_nil_r. split_and!; try done; lia.
  - exists r, n. split_and!; try done. intros _. by exists key.
Qed.

(** C7: a dispatch leaves at most one terminal event: the event [succeeded]
    exactly when it returns, and when it raises at most one of [failed] and
    [budget_exhausted]; both clients do. *)
Theorem client_terminal_event o guard s :
  let ok out := ∃ es, terminal (cl_log out.2) = terminal (cl_log s) ++ es ∧ cl_closed out.2 = cl_closed s ∧
    match out.1 with Ok _ => es = ["succeeded"] | Raise _ => es ∈ terminal_kinds end in
  ok (_dispatch self decoder o guard s) ∧ ok (_dispatch_async self decoder o guard s).
Proof.
  cbn zeta.
  assert (H2 : ∀ resolve provider, let out := dispatch_with self decoder resolve provider o guard s in
    ∃ es, terminal (cl_log out.2) = terminal (cl_log s) ++ es ∧ cl_closed out.2 = cl_closed s ∧
      match out.1 with Ok _ => es = ["succeeded"] | Raise _ => es ∈ terminal_kinds end).
  { intros resolve provider. cbn zeta. destruct (dispatch_summary decoder resolve provider o guard s)
      as [(e & -> & [= Hc _ Hs])|(r & key & n & es & _ & _ & [= Hc _ Hs] & Hes)].
    - exists []. rewrite app_nil_r. split_and!; try done. unfold terminal_kinds. set_solver.
    - by exists es. }
  split; apply H2.
Qed.

(** C6: no dispatch leaks a half-open trial: whatever it returns or raises -
    a cancellation included - the circuits with a trial in flight afterwards
    had one before. *)
Theorem client_returns_trials o guard s :
  _trial_in_flight (cl_breakers (_dispatch self decoder o guard s).2) ⊆ _trial_in_flight (cl_breakers s) ∧
  _trial_in_flight (cl_breakers (_dispatch_async self decoder o guard s).2) ⊆ _trial_in_flight (cl_breakers s).
Proof. split; apply dispatch_frees. Qed.

(** Closing is final: afterwards the client is closed even when closing
    the transport raised, closing it again does nothing (the transport is
    closed once), and every dispatch raises the closed error and does nothing
    else. *)
Theorem client_close_final o guard s :
  let s' := (close self s).2 in
  cl_closed s' = true ∧ close self s' = (Ok tt, s') ∧
  _dispatch self decoder o guard s' = (Raise (err RuntimeError (cc_closed_message self)), s') ∧
  _dispatch_async self decoder o guard s' = (Raise (err RuntimeError (cc_closed_message self)), s').
Proof.
  cbn zeta. assert (Hc : cl_closed (close self s).2 = true).
  { unfold close. rewrite bind_step. cbn [read]. destruct (cl_closed s) eqn:E; [done|].
    rewrite bind_step. cbn [set_client_closed modify]. case_match; [|done]. unfold on_world. by destruct (transport_close _). }
  revert Hc. generalize (close self s).2. intros s1 Hc. split; [done|].
  unfold close, _dispatch, _dispatch_async, dispatch_with, _assert_open. rewrite !bind_step. cbn [read]. by rewrite Hc.
Qed.
End theorems.
End dispatch.

(** ** The idempotency header *)

Definition is_idempotency (name : string) : bool := bool_decide (str_lower name = "idempotency-key").

Lemma text_headers_app a b hs : text_headers (a ++ b) = Some hs →
  ∃ x y, text_headers a = Some x ∧ text_headers b = Some y ∧ hs = x ++ y.
Proof.
  unfold text_headers. revert hs. induction a as [|[k v] a IH]; intros hs H; [by exists [], hs|].
  cbn in H |- *. destruct k, v; try discriminate H. cbn in H |- *.
  destruct (mapM _ (a ++ b)) as [l|]; [|discriminate H]. injection H as <-.
  destruct (IH l eq_refl) as (x & y & -> & -> & ->). by eexists _, _.
Qed.

Lemma text_headers_dropped (l : list (pyval * pyval)) hs :
  Forall (λ kv, match kv.1 with PyStr name => is_idempotency name = false | _ => True end) l →
  text_headers l = Some hs → List.filter (λ kv, is_idempotency kv.1) hs = [].
Proof.
  unfold text_headers. intros Hl. revert hs. induction Hl as [|[k v] l Hk _ IH]; intros hs H; [by injection H as <-|].
  cbn in H. destruct k as [| | | |name| | | | | |]; try discriminate H. destruct v; try discriminate H. cbn in H, Hk.
  destruct (mapM _ l) as [l'|]; [|discriminate H]. injection H as <-. cbn. by rewrite Hk, (IH l' eq_refl).
Qed.

Lemma make_request_headers m u h b fs rp lim dl r : make_runtime_request m u h b fs rp lim dl = Ok r →
  req_headers r = h ∧ url r = u ∧ method r = m ∧ req_body r = b.
Proof. unfold make_runtime_request, _freeze_request_headers. intros H. by inv_ok. Qed.

(** a call whose mutation policy carries an idempotency key is sent to the
    URL of its payload with exactly one header named, in any case,
    [Idempotency-Key], whose value is that key, whatever headers the caller
    put in the payload. *)
Theorem client_idempotency_header user_agent o c r p key :
  cor_mutation_policy o = Some p → idem_key (idempotency p) = Some key → _request_for user_agent o c = Ok r →
  List.filter (λ kv, is_idempotency kv.1) (req_headers r) = [("Idempotency-Key", key)] ∧
  payload_get "url" PyNone o = PyStr (url r) ∧ url r ≠ "".
Proof.
  intros Hp Hk H. unfold _request_for in H. rewrite Hp in H. cbn [mbind option_bind] in H. rewrite Hk in H. inv_ok.
  match type of H with match text_headers (merge_header (List.filter ?f ?l) ?kv) with _ => _ end = _ =>
    set (L := List.filter f l) in H end.
  assert (HL : Forall (λ kv, match kv.1 with PyStr name => is_idempotency name = false | _ => True end) L).
  { apply List.Forall_forall. intros kv [_ Hkv]%List.filter_In. destruct kv.1; try done. by apply negb_true_iff in Hkv. }
  unfold merge_header in H. destruct (existsb _ L) eqn:Ex.
  { apply List.existsb_exists in Ex as (kv & Hin & Heq). rewrite List.Forall_forall in HL. specialize (HL kv Hin).
    destruct kv.1; try done. cbn in Heq. apply bool_decide_eq_true in Heq as ->. by vm_compute in HL. }
  destruct (text_headers _) as [hs|] eqn:Et; [|inv_ok].
  apply make_request_headers in H as (-> & -> & _ & _). apply text_headers_app in Et as (x' & y & Hx & [= <-] & ->).
  rewrite List.filter_app, (text_headers_dropped _ _ HL Hx). split; [reflexivity|].
  destruct (payload_get "url" PyNone o) eqn:Eu; cbn in *; try discriminate. inv_ok. split; [done|].
  apply str_nonempty_true. by qbool.
Qed.

(** ** Witnesses *)

#[local] Instance sample_literals : IpLiterals := λ _, false.
#[local] Instance sample_hmac : Hmac := λ parts, default "" (last parts).
#[local] Instance sample_json : JsonBytes := λ _, Some (str_dict
  [("schema_version", PyInt 1); ("kind", PyStr "result_envelope"); ("items", PyList [PyStr "created"]); ("page", PyNone);
   ("warnings", PyList []); ("platform", PyNone)]).

(** A transport that answers 503 and then 200; the world counts the answers. *)
#[local] Instance sample_env : CatalogEnv nat := {|
  env_clock := λ n, (1%Q, n);
  transport_send _ := λ n, (Ok {| status_code := if (n <? 1)%nat then 503 else 200; resp_headers := []; body := "";
                                 retry_after := None |}, S n);
  transport_close := mret tt; provider_resolve := mret None; provider_resolve_async := mret None; retry_sleep _ := mret tt |}.
Definition open_profile : EffectiveCapabilityProfile :=
  {| declared_profile := probe_profile;
     capabilities := {[probe_operation := {| cap_operation := probe_spec; cap_state := StCore; cap_evidence := None |}]} |}.
#[local] Instance sample_service : CapabilityService nat := {|
  service_resolve _ := mret open_profile; service_resolve_async _ := mret open_profile; service_record _ _ := mret tt;
  service_peek _ := mret open_profile; service_invalidate _ := mret tt |}.

Definition sample_client : CatalogClient nat :=
  {| cc_profile := open_profile; cc_credentials := Plain (CKANCredential "t0"); cc_budget := sample_budget; cc_max_attempts := 3;
     cc_emitter := {| em_sinks := []; em_provider := None; em_no_redact := false |}; cc_owns_transport := true;
     cc_user_agent := "datasluice"; cc_closed_message := "closed" |}.
Definition sample_policy : MutationPolicy :=
  {| destructive := false; confirmation := None; concurrency := None;
     idempotency := {| safe := false; idem_key := Some "k-1"; explicit_retry_opt_in := true |}; dry_run := {| requested := false |} |}.
Definition sample_call : CatalogOperationRequest :=
  {| cor_operation_id := probe_operation;
     cor_payload := [("url", PyStr "https://data.example.org/api"); ("method", PyStr "POST");
                     ("headers", PyDict [(PyStr "idempotency-KEY", PyStr "other")])];
     cor_mutation_policy := Some sample_policy |}.
Definition sample_guard : CatalogOperationGuard nat :=
  {| cg_operation_id := probe_operation; cg_require_allowed := mret tt |}.
Definition sample_registry : BreakerRegistry :=
  {| _initial_state := {| failure_count := 0; failure_threshold := 5; cooldown := 30%Q; is_open := false |};
     _states := ∅; _opened_at := ∅; _trial_in_flight := ∅ |}.
Definition sample_state : client nat := ClientState false sample_registry 0 false [] 0%nat.
Definition sample_dispatch := _dispatch sample_client (λ v, Ok v) sample_call sample_guard sample_state.

(** The sample dispatch is sent twice, retried after the 503. *)
Example sample_dispatch_sends : length (sent (cl_log sample_dispatch.2)) = 2%nat ∧ is_ok sample_dispatch.1 = true.
Proof. vm_compute. by split. Qed.

Lemma client_sends_guarded_witness :
  length (sent (cl_log sample_dispatch.2)) = 2%nat ∧
  ∃ r key, granted sample_client service_resolve provider_resolve sample_call sample_guard sample_state r key.
Proof.
  split; [vm_compute; reflexivity|].
  destruct (client_sends_guarded sample_client (λ v, Ok v) sample_call sample_guard sample_state) as (r & n & Hs & _ & _ & Hg).
  fold sample_dispatch in Hs. destruct n as [|n].
  - exfalso. apply (f_equal length) in Hs. vm_compute in Hs. discriminate Hs.
  - exists r. apply Hg. discriminate.
Defined.

Lemma client_idempotency_header_witness :
  ∃ r, _request_for "datasluice" sample_call (Some (CKANCredential "t0")) = Ok r ∧
    List.filter (λ kv, is_idempotency kv.1) (req_headers r) = [("Idempotency-Key", "k-1")].
Proof.
  destruct (_request_for "datasluice" sample_call (Some (CKANCredential "t0"))) as [r|e] eqn:E; [|vm_compute in E; discriminate E].
  exists r. split; [reflexivity|].
  exact (proj1 (client_idempotency_header "datasluice" sample_call (Some (CKANCredential "t0")) r sample_policy "k-1" eq_refl eq_refl E)).
Defined.
