(* ===== verification/Cache.v ===== *)
(** * The content cache

    [io/content_cache.py]: payloads in files named by their digest, and a
    SQLite table that says which payload a key has.  The SQL statements are
    functions on the table; a transaction is one atomic step; the filesystem,
    the database and the clock are the environment, in which other threads and
    processes use the same directory at any moment. *)
From Stdlib Require Import QArith Lqa ZArith Lia Ascii.
From stdpp Require Import strings gmap relations.
From S2P Require Import Prelude PyVal Policies Resilience JsonText StateStore.
Local Close Scope Q_scope.
Local Open Scope Z_scope.
Local Open Scope py_scope.

(** ** The table *)

Record cache_row := {
  row_url : string; row_etag : option string; row_last_modified : option string; fetched_at : Q;
  row_content_length : Z; row_status : string; row_content_sha : option string
}.

(** The table [cache], by its primary key [sha256] *)
Abbreviation table := (gmap string cache_row).

Definition STALE_WRITING_THRESHOLD_SECONDS : Q := 300%Q.
Definition SWEEP_INTERVAL_SECONDS : Q := 60%Q.

(** [SELECT 1 FROM cache WHERE content_sha=? LIMIT 1] *)
Definition is_referenced (name : string) (t : table) : bool :=
  existsb (λ kr, bool_decide (row_content_sha kr.2 = Some name)) (map_to_list t).

(** The [DELETE] of a sweep: what it removes *)
Definition is_stale (ttl : Z) (now now' : Q) (r : cache_row) : bool :=
  bool_decide (row_status r = "writing") && (fetched_at r + STALE_WRITING_THRESHOLD_SECONDS <?q now)%Q ||
  bool_decide (row_status r = "ready") && (fetched_at r + inject_Z ttl <?q now')%Q.

(** The names of the files the rows refer to *)
Definition known_names (t : table) : gset string :=
  list_to_set ((λ kr, match row_content_sha kr.2 with Some c => c | None => kr.1 end) <$> map_to_list t).

Definition sweep_rows (ttl : Z) (now now' : Q) (t : table) : gset string * table :=
  let t' := filter (λ kr, is_stale ttl now now' kr.2 = false) t in (known_names t', t').

(** ** The environment *)

(** The filesystem, [ls], the clock, and a transaction of the database: it runs
    as one step or raises and changes nothing. *)
Class CacheEnv (W : Type) := {
  #[global] cache_fs :: Filesystem W;
  #[global] cache_clock :: Clocked W;
  fs_ls : string → M W (list string);
  sqlite : ∀ A, (table → A * table) → M W A
}.
Arguments sqlite {W _ A}.

(** The attributes that do not change *)
Record ContentCache := { cache_dir : string; ttl : Z }.
Definition make_content_cache (dir : string) (ttl : Z) : ContentCache := {| cache_dir := rstrip_slash dir; ttl := ttl |}.

(** The attributes that do, and the environment *)
Record cache_state (W : Type) := CacheState { _last_sweep : Q; _orphan_candidates : gset string; cache_world : W }.
Arguments CacheState {W}.
Arguments _last_sweep {W}.
Arguments _orphan_candidates {W}.
Arguments cache_world {W}.
Definition fresh_state {W} (w : W) : cache_state W := CacheState 0%Q ∅ w.

(** [entry.rsplit("/", 1)[-1]] *)
Fixpoint basename (s : string) : string :=
  match s with
  | EmptyString => ""
  | String c r => if bool_decide (c = "/"%char) then basename r
                  else if str_contains "/" r then basename r else s
  end.

Definition is_hex_char (c : ascii) : bool :=
  existsb (λ d, bool_decide (c = d)) (String.list_ascii_of_string "0123456789abcdef").
(** Sixty-four hexadecimal digits: the name of a content file *)
Definition is_digest (name : string) : bool :=
  (String.length name =? 64)%nat && forallb is_hex_char (String.list_ascii_of_string name).

Definition is_file_error (e : exn) : bool := is_subclass (exn_kind e) FileNotFoundError.
Definition download_error (key : string) : exn := err DownloadError ("Failed to publish cache content for key " +:+ key).

Section cache.
Context {W : Type} `{!CacheEnv W, Sha256}.
Variable self : ContentCache.
Abbreviation C := (M (cache_state W)).

Definition on_env {A} (m : M W A) : C A := λ s,
  let '(r, w) := m (cache_world s) in (r, CacheState (_last_sweep s) (_orphan_candidates s) w).
Definition set_sweep (t : Q) : C unit := modify (λ s, CacheState t (_orphan_candidates s) (cache_world s)).
Definition set_candidates (c : gset string) : C unit := modify (λ s, CacheState (_last_sweep s) c (cache_world s)).

Definition _sha (key : string) : string := sha256 key.
Definition _content_path (sha : string) : string := cache_dir self +:+ "/" +:+ sha.

(** [os.getpid()] and [secrets.token_hex(8)] *)
Definition temporary_name (sha suffix : string) : string := cache_dir self +:+ "/." +:+ sha +:+ ".tmp." +:+ suffix.

Fixpoint remove_all (names : list string) : M W unit :=
  match names with [] => mret tt | n :: names => safe_remove (_content_path n);; remove_all names end.

(** The body of the [try] of a sweep *)
Definition sweep : C unit :=
  entries ← on_env (fs_ls (cache_dir self));
  now ← on_env clock_now;
  now' ← on_env clock_now;
  known ← on_env (sqlite (sweep_rows (ttl self) now now'));
  let candidates := list_to_set (List.filter (λ n, is_digest n && negb (bool_decide (n ∈ known))) (basename <$> entries)) in
  stale ← read (λ s, candidates ∩ _orphan_candidates s);
  set_candidates candidates;;
  on_env (remove_all (sort_items (λ n, n) (elements stale))).

Definition _maybe_sweep : C unit :=
  now ← on_env clock_now;
  last ← read _last_sweep;
  if (now - last <?q SWEEP_INTERVAL_SECONDS)%Q then mret tt
  else
    set_sweep now;;
    try_except sweep (λ e, if is_Exception (exn_kind e) then Some (mret tt) else None).

Definition get (key : string) : C (option string) :=
  let sha := _sha key in
  _maybe_sweep;;
  row ← on_env (sqlite (λ t, (t !! sha, t)));
  match row with
  | None => mret None
  | Some row =>
      if bool_decide (row_status row = "writing") then mret None
      else
        now ← on_env clock_now;
        if (fetched_at row + inject_Z (ttl self) <?q now)%Q then mret None
        else
          let content_path := _content_path (Deadline.or_default (row_content_sha row) sha) in
          try_except (data ← on_env (cat_file content_path); mret (Some data))
            (λ e, if is_file_error e then Some (mret None) else None)
  end.

Definition _put_internal (key data : string) (etag last_modified : option string) : C unit :=
  let sha := _sha key in
  let payload_sha := sha256 data in
  let content_path := _content_path payload_sha in
  suffix ← on_env temporary_suffix;
  let tmp_path := temporary_name sha suffix in
  now ← on_env clock_now;
  try_except (on_env (pipe_file tmp_path data);; on_env (mv tmp_path content_path))
    (λ e, if is_Exception (exn_kind e) then Some (on_env (safe_remove tmp_path);; throw (download_error key)) else None);;
  try_except (on_env (sqlite (λ t, (tt, <[sha := {| row_url := key; row_etag := etag; row_last_modified := last_modified;
                                            fetched_at := now; row_content_length := Z.of_nat (String.length data);
                                            row_status := "ready"; row_content_sha := Some payload_sha |}]> t))))
    (λ e, if is_Exception (exn_kind e) then Some (throw (download_error key)) else None);;
  _maybe_sweep.

Definition put (key data : string) : C unit := _put_internal key data None None.
Definition put_with_metadata (key data : string) (etag last_modified : option string) : C unit :=
  _put_internal key data etag last_modified.

Definition delete (key : string) : C unit :=
  let sha := _sha key in
  row ← on_env (sqlite (λ t, (row_content_sha <$> t !! sha, base.delete sha t)));
  let name := match row with Some (Some c) => c | _ => sha end in
  let content_path := _content_path name in
  referenced ← on_env (sqlite (λ t, (is_referenced (basename content_path) t, t)));
  if (referenced : bool) then mret tt
  else
    present ← on_env (exists_file content_path);
    if (present : bool) then on_env (rm content_path) else mret tt.

Definition get_metadata (key : string) : C (option pydict) :=
  row ← on_env (sqlite (λ t, (t !! _sha key, t)));
  match row with
  | None => mret None
  | Some row =>
      expired ← (if bool_decide (row_status row = "writing") then mret true
                 else now ← on_env clock_now; mret (fetched_at row + inject_Z (ttl self) <?q now)%Q);
      if (expired : bool) then mret None
      else
        let text o := match o with Some s => PyStr s | None => PyNone end in
        mret (Some [("etag", text (row_etag row)); ("last_modified", text (row_last_modified row));
                    ("fetched_at", PyFloat (FFin (fetched_at row))); ("content_length", PyInt (row_content_length row))])
  end.
End cache.
