(* ===== verification/CacheProofs.v ===== *)
(** * The content cache keeps its promises

    Two readings of [Cache].  Under interference: whatever other threads and
    processes of the package do to the directory and the table between any two
    steps, and whatever fails, every call acts by permitted actions only, and
    [get] gives only bytes with the digest of a payload that was put.  Alone:
    the cache is a map with expiring entries. *)
From Stdlib Require Import QArith Lqa ZArith Lia Ascii.
From stdpp Require Import strings gmap relations.
From S2P Require Import Prelude PyVal Policies Resilience JsonText StateStore Cache.
Local Close Scope Q_scope.
Local Open Scope Z_scope.
Local Open Scope py_scope.

(** What the directory and the table hold *)
Record store := { st_files : gmap string string; st_rows : table }.

(** ** The permitted actions *)

Section actions.
Context `{Sha256}.
Variable self : ContentCache.
(** The calls of [put] anyone makes: key, payload, ETag, Last-Modified *)
Variable puts : string → string → option string → option string → Prop.

Definition put_row (key data : string) (etag last_modified : option string) (now : Q) : cache_row :=
  {| row_url := key; row_etag := etag; row_last_modified := last_modified; fetched_at := now;
     row_content_length := Z.of_nat (String.length data); row_status := "ready"; row_content_sha := Some (sha256 data) |}.

(** One atomic action of a thread whose temporary files have a suffix in [own] *)
Inductive action (own : string → Prop) : store → store → Prop :=
| ActTemp key suffix left st : own suffix →
    action own st {| st_files := partial_alter (λ _, left) (temporary_name self (sha256 key) suffix) (st_files st); st_rows := st_rows st |}
| ActPublish key suffix data st : own suffix → st_files st !! temporary_name self (sha256 key) suffix = Some data →
    action own st {| st_files := <[_content_path self (sha256 data) := data]> (base.delete (temporary_name self (sha256 key) suffix) (st_files st));
                     st_rows := st_rows st |}
| ActRemove name st : is_digest name = true →
    action own st {| st_files := base.delete (_content_path self name) (st_files st); st_rows := st_rows st |}
| ActInsert key data etag lm now st : puts key data etag lm →
    action own st {| st_files := st_files st; st_rows := <[sha256 key := put_row key data etag lm now]> (st_rows st) |}
| ActForget rows st : rows ⊆ st_rows st → action own st {| st_files := st_files st; st_rows := rows |}.

Lemma action_mono (own own' : string → Prop) st st' : (∀ s, own s → own' s) → action own st st' → action own' st st'.
Proof. intros Ho [ | | | | ]; econstructor; eauto. Qed.

(** A digest names the bytes of its file; a row is the row of a [put]. *)
Definition files_ok (st : store) : Prop :=
  ∀ name data, is_digest name = true → st_files st !! _content_path self name = Some data → sha256 data = name.
Definition rows_ok (st : store) : Prop :=
  ∀ k row, st_rows st !! k = Some row → ∃ key data etag lm now,
    puts key data etag lm ∧ k = sha256 key ∧ row = put_row key data etag lm now.

Hypothesis sha_digest : ∀ s, is_digest (sha256 s) = true.

Lemma content_path_inj a b : _content_path self a = _content_path self b → a = b.
Proof. unfold _content_path. intros E%(inj (String.append _)). by apply (inj (String.append _)) in E. Qed.

Lemma temporary_not_content sha suffix name : is_digest name = true → temporary_name self sha suffix ≠ _content_path self name.
Proof.
  unfold temporary_name, _content_path. intros Hn E. apply (inj (String.append _)) in E. cbn in E.
  destruct name as [|c name]; [discriminate E|]. injection E as <- _.
  unfold is_digest in Hn. apply andb_true_iff in Hn as [_ Hn]. cbn in Hn. discriminate Hn.
Qed.

Lemma action_ok own st st' : action own st st' → files_ok st ∧ rows_ok st → files_ok st' ∧ rows_ok st'.
Proof.
  intros Ha [Hf Hr]. destruct Ha as [sha suffix left st Ho|sha suffix data st Ho Hd|name st|key data etag lm now st Hp|rows st Hsub];
    (split; [intros n d Hn Hnd|intros k row Hk]; cbn in *; eauto).
  - rewrite lookup_partial_alter_ne in Hnd by (by apply temporary_not_content). eauto.
  - destruct (decide (_content_path self (sha256 data) = _content_path self n)) as [E|E].
    + rewrite E, lookup_insert_eq in Hnd. injection Hnd as <-. by apply content_path_inj in E.
    + rewrite lookup_insert_ne, lookup_delete_ne in Hnd by (done || by apply temporary_not_content). eauto.
  - rewrite lookup_delete_Some in Hnd. destruct Hnd. eauto.
  - rewrite lookup_insert_Some in Hk. destruct Hk as [[<- <-]|[_ Hk]]; [by eexists _, _, _, _, _|eauto].
  - apply Hr. by eapply lookup_weaken.
Qed.

Lemma actions_ok own st st' : rtc (action own) st st' → files_ok st ∧ rows_ok st → files_ok st' ∧ rows_ok st'.
Proof. induction 1; eauto using action_ok. Qed.

Lemma temporary_inj key suffix key' suffix' :
  temporary_name self (sha256 key) suffix = temporary_name self (sha256 key') suffix' → suffix = suffix'.
Proof.
  unfold temporary_name. intros E%(inj (String.append _))%(inj (String.append _)).
  assert (Hlen : String.length (sha256 key) = String.length (sha256 key')).
  { pose proof (sha_digest key) as H1. pose proof (sha_digest key') as H2. unfold is_digest in *.
    apply andb_true_iff in H1 as [H1%Nat.eqb_eq _], H2 as [H2%Nat.eqb_eq _]. congruence. }
  revert E Hlen. generalize (sha256 key) (sha256 key'). intros a. induction a as [|c a IH]; intros [|c' b] E Hlen; try discriminate Hlen.
  - cbn in E. injection E as E. exact E.
  - cbn in E, Hlen. injection E as _ E. injection Hlen as Hlen. by eapply IH.
Qed.

(** Others leave a temporary file alone. *)
Lemma others_keep_temp (own : string → Prop) st st' key suffix : ¬ own suffix → rtc (action own) st st' →
  st_files st' !! temporary_name self (sha256 key) suffix = st_files st !! temporary_name self (sha256 key) suffix.
Proof.
  intros Hn. induction 1 as [|st st1 st2 Ha _ IH]; [done|]. rewrite IH. clear IH.
  destruct Ha as [key' suffix' left st Ho|key' suffix' data st Ho Hd|name st Hd| |]; cbn; try done.
  - rewrite lookup_partial_alter_ne; [done|]. by intros <-%temporary_inj.
  - rewrite lookup_insert_ne by (intros E; by apply eq_sym, temporary_not_content in E).
    rewrite lookup_delete_ne; [done|]. by intros <-%temporary_inj.
  - rewrite lookup_delete_ne; [done|]. intros E. by apply eq_sym, temporary_not_content in E.
Qed.
End actions.

(** ** The environment, under interference *)

Section interference.
Context {W : Type} `{!CacheEnv W, Sha256}.
Variables (self : ContentCache) (puts : string → string → option string → option string → Prop).
(** The suffixes of this thread's temporary files, and what the disk holds *)
Variables (mine : string → Prop) (store_of : W → store).

Definition others : store → store → Prop := rtc (action self puts (λ s, ¬ mine s)).
(** What does happen between two steps of this thread: such actions, or nothing *)
Variable rely : store → store → Prop.

(** [m] is one atomic step, with actions of others before and after it. *)
Definition atomic {A} (act : result A → store → store → Prop) (m : M W A) : Prop :=
  ∀ w r w', m w = (r, w') → ∃ s1 s2, rely (store_of w) s1 ∧ act r s1 s2 ∧ rely s2 (store_of w').

Definition at_path (p : string) (left : option string) (st : store) : store :=
  {| st_files := partial_alter (λ _, left) p (st_files st); st_rows := st_rows st |}.

(** What the operating system and SQLite document: a rename is atomic, a failed
    write may leave a part of the file, a failed transaction nothing, and the
    random suffixes are not used by others. *)
Record cache_laws : Prop := {
  law_others a b : rely a b → others a b;
  law_clock w : rely (store_of w) (store_of (clock w).2);
  law_cat p : atomic (λ r s1 s2, s2 = s1 ∧ ∀ d, r = Ok d → st_files s1 !! p = Some d) (cat_file p);
  law_pipe p data : atomic (λ r s1 s2, ∃ left, s2 = at_path p left s1 ∧ ∀ u, r = Ok u → left = Some data) (pipe_file p data);
  law_mv p q : atomic (λ r s1 s2, match r with
                                  | Ok _ => ∃ d, st_files s1 !! p = Some d ∧
                                      s2 = {| st_files := <[q := d]> (base.delete p (st_files s1)); st_rows := st_rows s1 |}
                                  | Raise _ => ∃ left, s2 = at_path p left s1
                                  end) (mv p q);
  law_rm p : atomic (λ r s1 s2, match r with
                                | Ok _ => s2 = {| st_files := base.delete p (st_files s1); st_rows := st_rows s1 |}
                                | Raise _ => s2 = s1
                                end) (rm p);
  law_exists p : atomic (λ _ s1 s2, s2 = s1) (exists_file p);
  law_ls p : atomic (λ _ s1 s2, s2 = s1) (fs_ls p);
  law_suffix : atomic (λ r s1 s2, s2 = s1 ∧ ∃ s, r = Ok s ∧ mine s) temporary_suffix;
  law_sqlite A (f : table → A * table) : atomic (λ r s1 s2, match r with
      | Ok a => a = (f (st_rows s1)).1 ∧ s2 = {| st_files := st_files s1; st_rows := (f (st_rows s1)).2 |}
      | Raise _ => s2 = s1
      end) (sqlite f)
}.

(** What this thread and the others may do *)
Definition moves : store → store → Prop :=
  rtc (λ a b, action self puts mine a b ∨ action self puts (λ s, ¬ mine s) a b).

Lemma mine_moves a b : action self puts mine a b → moves a b.
Proof. intros Ha. apply rtc_once. by left. Qed.
Lemma moves_trans a b c : moves a b → moves b c → moves a c.
Proof. unfold moves. intros H1 H2. by etrans. Qed.

Context (sha_digest : ∀ s, is_digest (sha256 s) = true) (laws : cache_laws).

Lemma others_moves a b : rely a b → moves a b.
Proof. intros Hab%(law_others laws). revert Hab. apply rtc_subrel. intros x y Hxy. by right. Qed.

Lemma moves_ok a b : moves a b → files_ok self a ∧ rows_ok puts a → files_ok self b ∧ rows_ok puts b.
Proof. induction 1 as [|a c d [Ha|Ha] _ IH]; [done| |]; intros Hok; eapply IH, action_ok; eauto. Qed.

(** The state after moves from a store that is in order *)
Definition reached (s0 : store) (st : store) : Prop := moves s0 st ∧ files_ok self st ∧ rows_ok puts st.

Lemma reached_moves s0 a b : reached s0 a → moves a b → reached s0 b.
Proof. intros [Hm Hok] Hab. split; [by eapply moves_trans|]. by eapply moves_ok. Qed.

(** A step whose own effect is a move *)
Lemma atomic_keeps s0 {A} act (m : M W A) :
  atomic act m → (∀ r s1 s2, reached s0 s1 → act r s1 s2 → moves s1 s2) → preserves (λ w, reached s0 (store_of w)) m.
Proof.
  intros Ha Hact w Hw. destruct (m w) as [r w'] eqn:E. destruct (Ha w r w' E) as (s1 & s2 & H1 & H2 & H3). cbn.
  assert (reached s0 s1) as Hr1 by (eapply reached_moves; [done|by apply others_moves]).
  eapply reached_moves; [done|]. eapply moves_trans; [by eapply Hact|by apply others_moves].
Qed.

Lemma quiet_keeps s0 {A} act (m : M W A) : atomic act m → (∀ r s1 s2, act r s1 s2 → s2 = s1) →
  preserves (λ w, reached s0 (store_of w)) m.
Proof. intros Ha Hact. eapply atomic_keeps; [done|]. intros r s1 s2 _ ->%Hact. apply rtc_refl. Qed.

Section keeps.
Variable s0 : store.
Abbreviation kept := (preserves (λ w, reached s0 (store_of w))).

Lemma clock_kept : kept (clock_now (S := W)).
Proof.
  intros w Hw. unfold clock_now. pose proof (law_clock laws w) as Hc. destruct (clock w) as [t w']. cbn in *.
  eapply reached_moves; [done|by apply others_moves].
Qed.
Lemma cat_kept p : kept (cat_file p).
Proof. eapply quiet_keeps; [apply (law_cat laws)|]. by intros r s1 s2 [-> _]. Qed.
Lemma exists_kept p : kept (exists_file p).
Proof. eapply quiet_keeps; [apply (law_exists laws)|done]. Qed.
Lemma ls_kept p : kept (fs_ls p).
Proof. eapply quiet_keeps; [apply (law_ls laws)|done]. Qed.
Lemma select_kept {A} (f : table → A) : kept (sqlite (λ t, (f t, t))).
Proof. eapply quiet_keeps; [apply (law_sqlite laws)|]. intros [a|e] s1 s2; [|done]. intros [_ ->]. by destruct s1. Qed.
Lemma forget_kept {A} (f : table → A * table) : (∀ t, (f t).2 ⊆ t) → kept (sqlite f).
Proof.
  intros Hf. eapply atomic_keeps; [apply (law_sqlite laws)|]. intros [a|e] s1 s2 _; [|intros ->; apply rtc_refl].
  intros [_ ->]. apply mine_moves. by constructor.
Qed.
Lemma rm_content_kept name : is_digest name = true → kept (rm (_content_path self name)).
Proof.
  intros Hn. eapply atomic_keeps; [apply (law_rm laws)|]. intros [a|e] s1 s2 _ ->; [|apply rtc_refl].
  apply mine_moves. by constructor.
Qed.
Lemma rm_temp_kept key suffix : mine suffix → kept (rm (temporary_name self (sha256 key) suffix)).
Proof.
  intros Hn. eapply atomic_keeps; [apply (law_rm laws)|]. intros [a|e] s1 s2 _ ->; [|apply rtc_refl].
  apply mine_moves. by apply (ActTemp _ _ _ key suffix None).
Qed.
Lemma safe_remove_kept p : kept (rm p) → kept (safe_remove p).
Proof.
  intros Hp. unfold safe_remove. apply preserves_try.
  - apply preserves_bind; [apply exists_kept|]. intros b. case_match; [done|apply preserves_ret].
  - intros e k Hk. case_match; [|done]. injection Hk as <-. apply preserves_ret.
Qed.
Lemma insert_kept key data etag lm now : puts key data etag lm →
  kept (sqlite (λ t, (tt, <[sha256 key := put_row key data etag lm now]> t))).
Proof.
  intros Hp. eapply atomic_keeps; [apply (law_sqlite laws)|]. intros [a|e] s1 s2 _; [|intros ->; apply rtc_refl].
  intros [_ ->]. apply mine_moves. by constructor.
Qed.

(** ** The calls *)

Abbreviation kept_state := (preserves (λ s : cache_state W, reached s0 (store_of (cache_world s)))).

Lemma on_env_kept {A} (m : M W A) : kept m → kept_state (on_env m).
Proof. intros Hm s Hs. unfold on_env. specialize (Hm _ Hs). by destruct (m (cache_world s)). Qed.

Lemma remove_all_kept names : Forall (λ n, is_digest n = true) names → kept (remove_all self names).
Proof.
  induction 1 as [|n names Hn _ IH]; cbn; [apply preserves_ret|].
  apply preserves_bind; [by apply safe_remove_kept, rm_content_kept|done].
Qed.

Lemma sweep_kept : kept_state (sweep self).
Proof.
  unfold sweep. apply preserves_bind; [apply on_env_kept, ls_kept|]. intros entries.
  apply preserves_bind; [apply on_env_kept, clock_kept|]. intros now.
  apply preserves_bind; [apply on_env_kept, clock_kept|]. intros now'.
  apply preserves_bind; [apply on_env_kept, forget_kept; intros t; apply map_filter_subseteq|]. intros known.
  set (candidates := list_to_set (List.filter _ _) : gset string).
  intros s Hs. unfold mbind, M_bind, read. unfold set_candidates, modify. apply on_env_kept; [|exact Hs].
  apply remove_all_kept. apply Forall_forall. intros n Hn.
  rewrite sort_items_perm in Hn. apply elem_of_elements, elem_of_intersection in Hn as [Hn _].
  unfold candidates in Hn. apply elem_of_list_to_set, list_elem_of_In, List.filter_In in Hn as [_ Hn].
  by apply andb_true_iff in Hn as [? _].
Qed.

Lemma maybe_sweep_kept : kept_state (_maybe_sweep self).
Proof.
  unfold _maybe_sweep. apply preserves_bind; [apply on_env_kept, clock_kept|]. intros now.
  apply preserves_bind; [apply preserves_read|]. intros last. case_match; [apply preserves_ret|].
  apply preserves_bind; [by apply preserves_modify|]. intros _. apply preserves_try; [apply sweep_kept|].
  intros e k Hk. case_match; [|done]. injection Hk as <-. apply preserves_ret.
Qed.

Lemma get_kept key : kept_state (get self key).
Proof.
  unfold get. apply preserves_bind; [apply maybe_sweep_kept|]. intros _.
  apply preserves_bind; [apply on_env_kept, select_kept|]. intros [row|]; [|apply preserves_ret].
  case_match; [apply preserves_ret|]. apply preserves_bind; [apply on_env_kept, clock_kept|]. intros now.
  case_match; [apply preserves_ret|]. apply preserves_try.
  - apply preserves_bind; [apply on_env_kept, cat_kept|intros; apply preserves_ret].
  - intros e k Hk. case_match; [|done]. injection Hk as <-. apply preserves_ret.
Qed.

Lemma suffix_gives : hoare (λ w, reached s0 (store_of w)) temporary_suffix
  (λ a w, mine a ∧ reached s0 (store_of w)) (λ _ w, reached s0 (store_of w)).
Proof.
  intros w Hw. pose proof (quiet_keeps s0 _ _ (law_suffix laws) ltac:(by intros r s1 s2 [-> _]) w Hw) as Hk.
  destruct (temporary_suffix w) as [[a|e] w'] eqn:E; [|exact Hk]. split; [|exact Hk].
  by destruct (law_suffix laws w _ w' E) as (s1 & s2 & _ & [_ (x & [= ->] & Hm)] & _).
Qed.

Lemma my_temp_stays key suffix a b : mine suffix → rely a b →
  st_files b !! temporary_name self (sha256 key) suffix = st_files a !! temporary_name self (sha256 key) suffix.
Proof. intros Hm Hab. eapply (others_keep_temp self puts); [done| |by apply (law_others laws)]. intros Hn. by apply Hn. Qed.

Lemma publish_kept key data suffix : mine suffix →
  kept (pipe_file (temporary_name self (sha256 key) suffix) data;;
        mv (temporary_name self (sha256 key) suffix) (_content_path self (sha256 data))).
Proof.
  intros Hm. set (tmp := temporary_name self (sha256 key) suffix). apply preserves_hoare.
  eapply hoare_bind with (R := λ _ w, reached s0 (store_of w) ∧ st_files (store_of w) !! tmp = Some data).
  - intros w Hw.
    assert (Hk : kept (pipe_file tmp data)).
    { eapply atomic_keeps; [apply (law_pipe laws)|]. intros r s1 s2 _ (left & -> & _). apply mine_moves. by constructor. }
    specialize (Hk w Hw). destruct (pipe_file tmp data w) as [[u|e] w'] eqn:E; [|exact Hk]. split; [exact Hk|].
    destruct (law_pipe laws tmp data w _ w' E) as (s1 & s2 & _ & (left & -> & Hl) & Ho).
    unfold tmp. rewrite (my_temp_stays key suffix _ _ Hm Ho). cbn. rewrite lookup_partial_alter_eq. by eapply Hl.
  - intros _ w [Hw Htmp]. destruct (mv _ _ w) as [r w'] eqn:E.
    destruct (law_mv laws _ _ w r w' E) as (s1 & s2 & H1 & Hact & H3).
    assert (Htmp1 : st_files s1 !! tmp = Some data).
    { unfold tmp. by rewrite (my_temp_stays key suffix _ _ Hm H1). }
    assert (reached s0 (store_of w')).
    { eapply reached_moves; [done|]. eapply moves_trans; [by apply others_moves|]. eapply moves_trans; [|by apply others_moves].
      apply mine_moves. destruct r as [u|e].
      - destruct Hact as (d & Hd & ->). assert (d = data) as -> by congruence. by apply (ActPublish _ _ _ key suffix).
      - destruct Hact as (left & ->). by apply (ActTemp _ _ _ key suffix left). }
    by destruct r.
Qed.

Lemma put_kept key data etag lm : puts key data etag lm → kept_state (_put_internal self key data etag lm).
Proof.
  intros Hp. unfold _put_internal, _sha. apply preserves_bind_gives with (F := mine).
  { intros s Hs. unfold on_env. pose proof (suffix_gives (cache_world s) Hs) as Hsuf. by destruct (temporary_suffix _) as [[a|e] w]. }
  intros suffix Hm.
  apply preserves_bind; [apply on_env_kept, clock_kept|]. intros now. apply preserves_bind; [|intros _; apply preserves_bind].
  - apply preserves_try.
    + intros s2 Hs2. pose proof (on_env_kept _ (publish_kept key data suffix Hm) s2 Hs2) as Hk. revert Hk.
      unfold on_env, mbind, M_bind. by destruct (pipe_file _ _ (cache_world s2)) as [[[]|e] w2].
    + intros e k Hk. case_match; [|done]. injection Hk as <-.
      apply preserves_bind; [by apply on_env_kept, safe_remove_kept, rm_temp_kept|intros; apply preserves_throw].
  - apply preserves_try; [by apply on_env_kept, insert_kept|].
    intros e k Hk. case_match; [|done]. injection Hk as <-. apply preserves_throw.
  - intros _. apply maybe_sweep_kept.
Qed.

(** The digest a row of the table gives *)
Lemma row_digest st k row : rows_ok puts st → st_rows st !! k = Some row →
  ∃ key data etag lm now, puts key data etag lm ∧ k = sha256 key ∧ row = put_row key data etag lm now ∧
    is_digest (sha256 data) = true.
Proof. intros Hr Hk. destruct (Hr k row Hk) as (key & data & etag & lm & now & Hp & -> & ->). by eexists _, _, _, _, _. Qed.

Lemma sqlite_gives {A} (F : A → Prop) (f : table → A * table) : (∀ t, (f t).2 ⊆ t) →
  (∀ st, rows_ok puts st → F (f (st_rows st)).1) →
  hoare (λ w, reached s0 (store_of w)) (sqlite f) (λ a w, F a ∧ reached s0 (store_of w)) (λ _ w, reached s0 (store_of w)).
Proof.
  intros Hf HF w Hw. pose proof (forget_kept f Hf w Hw) as Hk. destruct (sqlite f w) as [[a|e] w'] eqn:E; [|exact Hk].
  split; [|exact Hk]. destruct (law_sqlite laws _ f w _ w' E) as (s1 & s2 & H1 & [-> _] & _). apply HF.
  assert (reached s0 s1) as (_ & _ & Hr) by (eapply reached_moves; [exact Hw|by apply others_moves]). exact Hr.
Qed.

Lemma on_env_gives {A} (F : A → Prop) (m : M W A) :
  hoare (λ w, reached s0 (store_of w)) m (λ a w, F a ∧ reached s0 (store_of w)) (λ _ w, reached s0 (store_of w)) →
  hoare (λ s : cache_state W, reached s0 (store_of (cache_world s))) (on_env m)
    (λ a s, F a ∧ reached s0 (store_of (cache_world s))) (λ _ s, reached s0 (store_of (cache_world s))).
Proof. intros Hm s Hs. unfold on_env. specialize (Hm _ Hs). by destruct (m (cache_world s)) as [[a|e] w]. Qed.

Lemma delete_kept key : kept_state (delete self key).
Proof.
  unfold delete, _sha.
  apply preserves_bind_gives with (F := λ row, is_digest (match row with Some (Some c) => c | _ => sha256 key end) = true).
  - apply on_env_gives, sqlite_gives; [intros t; apply delete_subseteq|]. intros st Hr. cbn.
    destruct (st_rows st !! sha256 key) as [row|] eqn:Ek; [|apply sha_digest].
    destruct (row_digest st _ row Hr Ek) as (key' & data & etag & lm & now & _ & _ & -> & Hd). exact Hd.
  - intros row Hn. apply preserves_bind; [apply on_env_kept, select_kept|]. intros b. destruct b; [apply preserves_ret|].
    apply preserves_bind; [apply on_env_kept, exists_kept|]. intros present. destruct present; [|apply preserves_ret].
    by apply on_env_kept, rm_content_kept.
Qed.

Lemma get_metadata_kept key : kept_state (get_metadata self key).
Proof.
  unfold get_metadata. apply preserves_bind; [apply on_env_kept, select_kept|]. intros [row|]; [|apply preserves_ret].
  apply preserves_bind.
  - case_match; [apply preserves_ret|]. apply preserves_bind; [apply on_env_kept, clock_kept|intros; apply preserves_ret].
  - intros b. case_match; apply preserves_ret.
Qed.
End keeps.

Definition in_order (st : store) : Prop := files_ok self st ∧ rows_ok puts st.

Lemma reached_refl st : in_order st → reached st st.
Proof. intros Hok. split; [apply rtc_refl|exact Hok]. Qed.

(** The file of a digest, when it can be read *)
Lemma cat_content s0 data0 w data w' : reached s0 (store_of w) →
  cat_file (_content_path self (sha256 data0)) w = (Ok data, w') → sha256 data = sha256 data0.
Proof.
  intros Hw E. destruct (law_cat laws _ w _ w' E) as (s1 & s2 & H1 & [_ Hd] & _).
  assert (reached s0 s1) as (_ & Hf & _) by (eapply reached_moves; [exact Hw|by apply others_moves]).
  by apply (Hf (sha256 data0) data); [|apply Hd].
Qed.

Lemma get_integrity key s data s' : in_order (store_of (cache_world s)) → get self key s = (Ok (Some data), s') →
  ∃ st key' data' etag lm now,
    moves (store_of (cache_world s)) st ∧ moves st (store_of (cache_world s')) ∧
    st_rows st !! sha256 key = Some (put_row key' data' etag lm now) ∧
    puts key' data' etag lm ∧ sha256 key' = sha256 key ∧ sha256 data' = sha256 data.
Proof.
  intros Hok Hg. set (s0 := store_of (cache_world s)).
  revert Hg. unfold get, _sha. unfold mbind at 1, M_bind at 1.
  pose proof (maybe_sweep_kept s0 s (reached_refl _ Hok)) as H1.
  destruct (_maybe_sweep self s) as [[[]|e] s1]; [|done]. cbn in H1.
  unfold mbind at 1, M_bind at 1. unfold on_env at 1.
  destruct (sqlite _ (cache_world s1)) as [[row|e] w2] eqn:E2; [|done].
  pose proof (select_kept s0 (λ t : table, t !! sha256 key) (cache_world s1) H1) as Hw2. cbv beta in E2, Hw2. rewrite E2 in Hw2. cbn in Hw2.
  destruct (law_sqlite laws _ _ _ _ _ E2) as (st & st' & Ho & [-> ->] & Ho').
  assert (Hst : reached s0 st) by (eapply reached_moves; [exact H1|by apply others_moves]).
  destruct (st_rows st !! sha256 key) as [row|] eqn:Ek; [|done]. cbn [fst].
  destruct (row_digest st _ row (proj2 (proj2 Hst)) Ek) as (key' & data' & etag & lm & now & Hp & Hkey & -> & Hd).
  intros Hg. exists st, key', data', etag, lm, now.
  cbn [row_status put_row] in Hg. change (bool_decide ("ready" = "writing")) with false in Hg.
  assert (Hmove : moves st (store_of w2)).
  { apply others_moves. cbn in Ho'. by destruct st. }
  revert Hg. unfold mbind at 1, M_bind at 1. unfold on_env at 1. cbn [cache_world].
  pose proof (clock_kept (store_of w2) w2 (reached_refl _ (proj2 Hw2))) as H3.
  destruct (clock_now w2) as [[t|e] w3]; [|done]. cbn in H3. case_match; [done|].
  cbn [row_content_sha put_row]. unfold Deadline.or_default.
  rewrite (proj2 (str_nonempty_true (sha256 data'))) by (intros E; by rewrite E in Hd).
  unfold try_except, mbind, M_bind, on_env. cbn [cache_world].
  pose proof (cat_kept (store_of w2) (_content_path self (sha256 data')) w3 H3) as H4.
  destruct (cat_file _ w3) as [[d|e] w4] eqn:E4; [|by destruct (is_file_error e)].
  cbn in H4. intros [= <- <-]. split_and!; try done.
  - apply Hst.
  - eapply moves_trans; [exact Hmove|apply H4].
  - symmetry. exact (cat_content _ data' w3 _ w4 H3 E4).
Qed.

(** ** A failed [put], alone *)

Section alone.
Hypothesis alone : ∀ a b, rely a b → a = b.
Variable s0 : store.

(** The table of [s0], and at least its content files *)
Definition keeps_entries (st : store) : Prop :=
  st_rows st = st_rows s0 ∧
  ∀ name, is_digest name = true → is_Some (st_files s0 !! _content_path self name) → is_Some (st_files st !! _content_path self name).
Abbreviation keeping := (preserves (λ w, keeps_entries (store_of w))).

Lemma alone_keeps {A} act (m : M W A) :
  atomic act m → (∀ r s1 s2, keeps_entries s1 → act r s1 s2 → keeps_entries s2) → keeping m.
Proof.
  intros Ha Hact w Hw. destruct (m w) as [r w'] eqn:E. destruct (Ha w r w' E) as (s1 & s2 & H1 & H2 & H3).
  apply alone in H1, H3. cbn. rewrite <- H3. eapply Hact; [|exact H2]. by rewrite <- H1.
Qed.

Lemma at_temp_keeps key suffix left st : keeps_entries st → keeps_entries (at_path (temporary_name self (sha256 key) suffix) left st).
Proof.
  intros [Hr Hf]. split; [done|]. intros name Hn Hs. cbn. rewrite lookup_partial_alter_ne; [by apply Hf|].
  by apply temporary_not_content.
Qed.

Lemma pipe_keeps key suffix data : keeping (pipe_file (temporary_name self (sha256 key) suffix) data).
Proof. eapply alone_keeps; [apply (law_pipe laws)|]. intros r s1 s2 Hs (left & -> & _). by apply at_temp_keeps. Qed.

Lemma mv_keeps key suffix name : keeping (mv (temporary_name self (sha256 key) suffix) (_content_path self name)).
Proof.
  eapply alone_keeps; [apply (law_mv laws)|]. intros [u|e] s1 s2 Hs Ha; [|destruct Ha as (left & ->); by apply at_temp_keeps].
  destruct Ha as (d & _ & ->). destruct Hs as [Hr Hf]. split; [done|]. intros n Hn Hs. cbn.
  destruct (decide (_content_path self name = _content_path self n)) as [->|E]; [by rewrite lookup_insert_eq|].
  rewrite lookup_insert_ne by done. rewrite lookup_delete_ne; [by apply Hf|]. by apply temporary_not_content.
Qed.

Lemma safe_remove_keeps key suffix : keeping (safe_remove (temporary_name self (sha256 key) suffix)).
Proof.
  unfold safe_remove. apply preserves_try.
  - apply preserves_bind; [eapply alone_keeps; [apply (law_exists laws)|]; by intros r s1 s2 Hs ->|].
    intros b. destruct b; [|apply preserves_ret]. eapply alone_keeps; [apply (law_rm laws)|].
    intros [u|e] s1 s2 Hs ->; [|done]. by apply (at_temp_keeps key suffix None).
  - intros e k Hk. case_match; [|done]. injection Hk as <-. apply preserves_ret.
Qed.

Lemma env_keeping {A} (m : M W A) : keeping m → preserves (λ s : cache_state W, keeps_entries (store_of (cache_world s))) (on_env m).
Proof. intros Hm s Hs. unfold on_env. specialize (Hm _ Hs). by destruct (m (cache_world s)). Qed.

Lemma sweep_quiet s e s' : _maybe_sweep self s = (Raise e, s') → is_Exception (exn_kind e) = false.
Proof.
  unfold _maybe_sweep, mbind, M_bind, on_env, clock_now, read, set_sweep, modify. destruct (clock (cache_world s)) as [t w].
  cbn. case_match; [done|]. unfold try_except. destruct (sweep self _) as [[[]|x] s1]; [done|].
  destruct (is_Exception (exn_kind x)) eqn:Ex; [done|]. by intros [= <- _].
Qed.

(** What a failed [put] may raise: its error, or what the clean-up raised and
    [safe_remove] does not absorb *)
Definition put_failure key (e : exn) : Prop := e = download_error key ∨ is_subclass (exn_kind e) OSError = false.

Lemma safe_remove_raises p w e w' : safe_remove (W := W) p w = (Raise e, w') → is_subclass (exn_kind e) OSError = false.
Proof.
  unfold safe_remove, try_except. match goal with |- match ?m with _ => _ end = _ → _ => destruct m as [[u|x] w1]; [done|] end.
  destruct (is_subclass (exn_kind x) OSError) eqn:Ex; [done|]. by intros [= <- _].
Qed.

Lemma publish_keeps key data suffix :
  hoare (λ s : cache_state W, keeps_entries (store_of (cache_world s)))
    (try_except (on_env (pipe_file (temporary_name self (sha256 key) suffix) data);;
                 on_env (mv (temporary_name self (sha256 key) suffix) (_content_path self (sha256 data))))
       (λ e, if is_Exception (exn_kind e)
             then Some (on_env (safe_remove (temporary_name self (sha256 key) suffix));; throw (download_error key)) else None))
    (λ _ s, keeps_entries (store_of (cache_world s)))
    (λ e s, keeps_entries (store_of (cache_world s)) ∧ (is_Exception (exn_kind e) = true → put_failure key e)).
Proof.
  eapply hoare_try with (E' := λ _ s, keeps_entries (store_of (cache_world s))).
  - apply hoare_bind with (R := λ _ s, keeps_entries (store_of (cache_world s))); [apply preserves_hoare, env_keeping, pipe_keeps|].
    intros _. apply preserves_hoare, env_keeping, mv_keeps.
  - intros x k Hk. case_match; [|done]. injection Hk as <-. intros s3 Hs3.
    pose proof (env_keeping _ (safe_remove_keeps key suffix) s3 Hs3) as Hr. revert Hr.
    unfold mbind, M_bind, throw, on_env. destruct (safe_remove _ _) as [[u|y] w4] eqn:Er; intros Hr; (split; [exact Hr|intros _]).
    + by left.
    + right. by eapply safe_remove_raises.
  - intros x s3 Hx Hs3. split; [done|]. intros Hx'. by rewrite Hx' in Hx.
Qed.

Lemma failed_put key data etag lm s e s' : keeps_entries (store_of (cache_world s)) →
  _put_internal self key data etag lm s = (Raise e, s') → is_Exception (exn_kind e) = true →
  keeps_entries (store_of (cache_world s')) ∧ put_failure key e.
Proof.
  intros Hs Hput He. unfold _put_internal, _sha in Hput. unfold mbind at 1, M_bind at 1 in Hput. revert Hput.
  unfold on_env at 1.
  destruct (temporary_suffix (cache_world s)) as [r w] eqn:Esuf.
  destruct (law_suffix laws _ _ _ Esuf) as (a & b & Ha%alone & [-> (suffix & -> & _)] & Hb%alone).
  set (s1 := CacheState _ _ w). assert (Hs1 : keeps_entries (store_of (cache_world s1))) by (cbn; by rewrite <- Hb, <- Ha).
  clearbody s1. clear Ha Hb Esuf.
  unfold mbind at 1, M_bind at 1. unfold on_env at 1, clock_now.
  pose proof (law_clock laws (cache_world s1)) as Hc%alone.
  destruct (clock (cache_world s1)) as [now w2]. cbn in Hc. set (s2 := CacheState _ _ w2).
  assert (Hs2 : keeps_entries (store_of (cache_world s2))) by (cbn; by rewrite <- Hc). clearbody s2. clear w2 Hc.
  rewrite bind_step. pose proof (publish_keeps key data suffix s2 Hs2) as Hpub.
  destruct (try_except _ _ s2) as [[[]|x] s3]; [|intros [= -> ->]; destruct Hpub as [Hk Hx]; split; [done|by apply Hx]].
  rewrite bind_step. unfold try_except, on_env.
  destruct (sqlite _ (cache_world s3)) as [[[]|x] w4] eqn:Esql.
  - intros Hsw. apply sweep_quiet in Hsw. congruence.
  - destruct (law_sqlite laws _ _ _ _ _ Esql) as (a' & b' & Ha%alone & -> & Hb%alone).
    assert (keeps_entries (store_of w4)) by (by rewrite <- Hb, <- Ha).
    destruct (is_Exception (exn_kind x)) eqn:Ex; intros [= <- <-]; [|congruence]. split; [done|by left].
Qed.
End alone.
End interference.
