(* ===== verification/CacheMap.v ===== *)
(** * The content cache is a map

    A directory and a table that nobody else uses, without failures and with a
    clock that stands still during a call: there the cache of [Cache] is a
    map from keys to payloads whose entries expire, and sweeping is invisible. *)
From Stdlib Require Import QArith Lqa ZArith Lia Ascii.
From stdpp Require Import strings gmap.
From S2P Require Import Prelude PyVal Policies Resilience JsonText StateStore StateLocks Cache CacheProofs.
Local Close Scope Q_scope.
Local Open Scope Z_scope.
Local Open Scope py_scope.

(** ** The environment *)

(** A store and the time *)
Abbreviation disk_world := (store * Q)%type.

Definition with_files (st : store) (d : gmap string string) : store := {| st_files := d; st_rows := st_rows st |}.
Definition on_files {A} (m : M (gmap string string) A) : M disk_world A := λ w,
  let '(r, d) := m (st_files w.1) in (r, (with_files w.1 d, w.2)).

Definition disk_files : Filesystem disk_world := {|
  cat_file p := on_files (cat_file p);
  pipe_file p s := on_files (pipe_file p s);
  mv p q := on_files (mv p q);
  rm p := on_files (rm p);
  exists_file p := on_files (exists_file p);
  open_lock_file p := mret tt;
  temporary_suffix := mret "1.0";
  strip_protocol p := p
|}.

Definition disk_clock : Clocked disk_world := λ w, (w.2, w).

#[global] Instance disk_cache : CacheEnv disk_world := {|
  cache_fs := disk_files; cache_clock := disk_clock;
  fs_ls dir := λ w, (Ok (List.filter (starts_with (dir +:+ "/")) (map_to_list (st_files w.1)).*1), w);
  sqlite A f := λ w, let '(a, t) := f (st_rows w.1) in (Ok a, ({| st_files := st_files w.1; st_rows := t |}, w.2))
|}.

(** ** The map *)

Section map.
Context `{Sha256}.
Variable self : ContentCache.
Hypothesis sha_digest : ∀ s, is_digest (sha256 s) = true.

Abbreviation state := (cache_state disk_world).
Abbreviation files s := (st_files (cache_world s).1).
Abbreviation rows s := (st_rows (cache_world s).1).
Abbreviation time s := ((cache_world s).2).

Definition row_name (k : string) (row : cache_row) : string := Deadline.or_default (row_content_sha row) k.
Definition is_expired (now : Q) (row : cache_row) : bool := (fetched_at row + inject_Z (ttl self) <?q now)%Q.

(** What the cache has for the digest [k] of a key *)
Definition live (s : state) (k : string) : option (cache_row * string) :=
  row ← rows s !! k;
  if is_expired (time s) row then None
  else data ← files s !! _content_path self (row_name k row); Some (row, data).

(** Rows are rows of a [put], digests name the bytes of their file, and the
    file of every row exists. *)
Definition disk_ok (s : state) : Prop :=
  in_order self (λ _ _ _ _, True) (cache_world s).1 ∧
  ∀ k row, rows s !! k = Some row → is_Some (files s !! _content_path self (row_name k row)).

Lemma put_row_name k key data etag lm now : row_name k (put_row key data etag lm now) = sha256 data.
Proof.
  unfold row_name, Deadline.or_default. cbn. rewrite (proj2 (str_nonempty_true (sha256 data))); [done|].
  intros E. pose proof (sha_digest data) as Hd. by rewrite E in Hd.
Qed.

Lemma ok_row s k row : disk_ok s → rows s !! k = Some row →
  ∃ key data etag lm now, k = sha256 key ∧ row = put_row key data etag lm now ∧ row_name k row = sha256 data.
Proof.
  intros [[_ Hr] _] Hk. destruct (Hr k row Hk) as (key & data & etag & lm & now & _ & Hkey & ->).
  eexists _, _, _, _, _. split_and!; [done..|]. apply put_row_name.
Qed.

(** The steps of the environment *)
Definition set_store (st : store) (s : state) : state := CacheState (_last_sweep s) (_orphan_candidates s) (st, time s).

Lemma on_env_step {A B} (m : M disk_world A) (k : A → M state B) s a st :
  m (cache_world s) = (Ok a, (st, time s)) → (on_env m ≫= k) s = k a (set_store st s).
Proof. intros E. rewrite bind_step. unfold on_env. by rewrite E. Qed.

Lemma set_store_id s : set_store (cache_world s).1 s = s.
Proof. by destruct s as [? ? []]. Qed.

Lemma clock_step {B} (k : Q → M state B) s : (on_env clock_now ≫= k) s = k (time s) s.
Proof. rewrite (on_env_step _ _ s (time s) (cache_world s).1); [by rewrite set_store_id|]. by destruct s as [? ? []]. Qed.

Lemma sqlite_step {A B} (f : table → A * table) (k : A → M state B) s :
  (on_env (sqlite f) ≫= k) s = k (f (rows s)).1 (set_store {| st_files := files s; st_rows := (f (rows s)).2 |} s).
Proof. apply on_env_step. unfold sqlite, disk_cache. cbn. by destruct (f (rows s)). Qed.

(** ** Sweeping *)

(** [s'] is [s] after files no row refers to and expired rows went *)
Definition swept (s s' : state) : Prop :=
  time s' = time s ∧
  (∀ k, rows s' !! k = rows s !! k ∨ rows s' !! k = None ∧ ∀ row, rows s !! k = Some row → is_expired (time s) row = true) ∧
  (∀ p data, files s' !! p = Some data → files s !! p = Some data) ∧
  (∀ k row, rows s' !! k = Some row → files s' !! _content_path self (row_name k row) = files s !! _content_path self (row_name k row)).

Lemma swept_refl s : swept s s.
Proof. split_and!; auto. Qed.

Lemma swept_ok s s' : disk_ok s → swept s s' → disk_ok s' ∧ ∀ k, live s' k = live s k.
Proof.
  intros [[Hf Hr] Hfull] (Ht & Hrows & Hfiles & Hkeep).
  assert (Hsub : ∀ k row, rows s' !! k = Some row → rows s !! k = Some row).
  { intros k row Hk. destruct (Hrows k) as [E|[E _]]; [by rewrite <- E|by rewrite E in Hk]. }
  split; [split; [split|]|].
  - intros name data Hn Hd. eauto.
  - intros k row Hk. eauto.
  - intros k row Hk. rewrite Hkeep by done. eauto.
  - intros k. unfold live. rewrite Ht. destruct (Hrows k) as [E|[E Hexp]].
    + rewrite E. destruct (rows s !! k) as [row|] eqn:Ek; [|done]. cbn. case_match; [done|]. by rewrite Hkeep by by rewrite E.
    + rewrite E. destruct (rows s !! k) as [row|]; [|done]. cbn. by rewrite (Hexp row).
Qed.

(** Removing content files *)
Lemma remove_all_disk names (w : disk_world) :
  ∃ d, remove_all self names w = (Ok tt, (with_files w.1 d, w.2)) ∧
    (∀ p data, d !! p = Some data → st_files w.1 !! p = Some data) ∧
    ∀ name, name ∉ names → d !! _content_path self name = st_files w.1 !! _content_path self name.
Proof.
  revert w. induction names as [|n names IH]; intros [st now].
  - exists (st_files st). split; [by destruct st|]. by split.
  - assert (∃ d, safe_remove (_content_path self n) (st, now) = (Ok tt, (with_files st d, now)) ∧
      d = base.delete (_content_path self n) (st_files st)) as (d & E & ->).
    { eexists. split; [|reflexivity]. unfold safe_remove, try_except. rewrite bind_step. cbn -[_content_path]. unfold on_files. cbn -[_content_path].
      destruct (st_files st !! _content_path self n) eqn:En; cbn -[_content_path]; rewrite ?En.
      - by destruct st.
      - rewrite delete_id by done. by destruct st. }
    cbn [remove_all]. rewrite bind_step, E.
    destruct (IH (with_files st (base.delete (_content_path self n) (st_files st)), now)) as (d & -> & Hd & Hn).
    exists d. split; [done|]. cbn in Hd, Hn. split.
    + intros p data Hp. apply Hd in Hp. by apply lookup_delete_Some in Hp as [_ ?].
    + intros name Hname. apply not_elem_of_cons in Hname as [Hne Hname]. rewrite Hn by done.
      apply lookup_delete_ne. by intros E'%(content_path_inj self).
Qed.

Lemma stale_expired now row : row_status row = "ready" → is_stale (ttl self) now now row = is_expired now row.
Proof. intros Hs. unfold is_stale. by rewrite Hs. Qed.

Lemma known_row t k row : t !! k = Some row → row_content_sha row ≠ Some "" → row_name k row ∈ known_names t.
Proof.
  intros Hk Hne. unfold known_names. apply elem_of_list_to_set, list_elem_of_fmap. exists (k, row).
  split; [|by apply elem_of_map_to_list]. unfold row_name, Deadline.or_default. cbn.
  destruct (row_content_sha row) as [[|]|]; done.
Qed.

Lemma sweep_disk s : disk_ok s → ∃ s', sweep self s = (Ok tt, s') ∧ swept s s'.
Proof.
  intros Hok. unfold sweep.
  rewrite (on_env_step _ _ s (List.filter (starts_with (cache_dir self +:+ "/")) (map_to_list (files s)).*1) (cache_world s).1)
    by by destruct s as [? ? []].
  rewrite set_store_id, !clock_step, sqlite_step.
  set (t := (sweep_rows (ttl self) (time s) (time s) (rows s)).2).
  set (s1 := set_store {| st_files := files s; st_rows := t |} s).
  change (sweep_rows (ttl self) (time s) (time s) (rows s)).1 with (known_names t).
  set (candidates := list_to_set _). rewrite bind_step. cbn [read]. rewrite bind_step. cbn [set_candidates modify].
  set (names := sort_items _ _).
  assert (Hnames : ∀ name, name ∈ names → name ∉ known_names t).
  { intros name Hn. unfold names in Hn. rewrite sort_items_perm in Hn. apply elem_of_elements, elem_of_intersection in Hn as [Hn _].
    unfold candidates in Hn. apply elem_of_list_to_set, list_elem_of_In, List.filter_In in Hn as [_ Hn].
    apply andb_true_iff in Hn as [_ Hn]. apply negb_true_iff in Hn. by apply bool_decide_eq_false in Hn. }
  destruct (remove_all_disk names (cache_world s1)) as (d & E & Hd & Hkeep).
  unfold on_env. cbn [cache_world]. change ({| st_files := files s; st_rows := t |}, time s) with (cache_world s1).
  rewrite E. eexists. split; [reflexivity|].
  assert (Ht : ∀ k row, t !! k = Some row ↔ rows s !! k = Some row ∧ is_expired (time s) row = false).
  { intros k row. unfold t, sweep_rows. cbn. rewrite map_lookup_filter_Some. cbn. split; intros [Hk Hs]; (split; [done|]);
      destruct (ok_row s k row Hok Hk) as (? & ? & ? & ? & ? & _ & Hrow & _); rewrite <- Hs; [symmetry|];
      apply stale_expired; by rewrite Hrow. }
  clearbody t. unfold swept. cbn. split_and!; [done| |exact Hd|].
  - intros k. destruct (t !! k) as [row|] eqn:Ek.
    + left. apply Ht in Ek as [-> _]. done.
    + right. split; [done|]. intros row Hk. apply not_false_iff_true. intros He.
      assert (t !! k = Some row) by by apply Ht. congruence.
  - intros k row Hk. apply Hkeep. intros Hin. apply (Hnames _ Hin). apply known_row; [done|].
    apply Ht in Hk as [Hk _]. destruct (ok_row s k row Hok Hk) as (? & data & ? & ? & ? & _ & -> & _). cbn.
    intros [= E']. pose proof (sha_digest data) as Hdig. by rewrite E' in Hdig.
Qed.

Lemma maybe_sweep_disk s : disk_ok s → ∃ s', _maybe_sweep self s = (Ok tt, s') ∧ swept s s'.
Proof.
  intros Hok. unfold _maybe_sweep. rewrite clock_step, bind_step. cbn [read]. case_match.
  - exists s. split; [done|apply swept_refl].
  - rewrite bind_step. cbn [set_sweep modify]. unfold try_except.
    destruct (sweep_disk (CacheState (time s) (_orphan_candidates s) (cache_world s)) Hok) as (s' & -> & Hs).
    by exists s'.
Qed.

(** ** Names and paths *)

Definition no_slash (s : string) : bool := string_forallb (λ c, negb (bool_decide (c = "/"%char))) s.

Lemma contains_slash a n : str_contains "/" (a +:+ "/" +:+ n) = true.
Proof. induction a as [|c a IH]; [cbn; unfold starts_with; cbn; by destruct n|]. change (starts_with "/" (String c (a +:+ "/" +:+ n)) || str_contains "/" (a +:+ "/" +:+ n) = true). rewrite IH. apply orb_true_r. Qed.

Lemma no_slash_contains n : no_slash n = true → str_contains "/" n = false.
Proof.
  induction n as [|c n IH]; [done|]. intros [Hc Hn]%andb_true_iff.
  change (starts_with "/" (String c n) || str_contains "/" n = false). rewrite (IH Hn), orb_false_r.
  change ((if ascii_dec "/" c then String.prefix "" n else false) = false).
  destruct (ascii_dec "/" c) as [<-|]; [by rewrite bool_decide_true in Hc|done].
Qed.

Lemma basename_last a n : no_slash n = true → basename (a +:+ "/" +:+ n) = n.
Proof.
  intros Hn. assert (Hb : basename n = n).
  { destruct n as [|c n]; [done|]. cbn in *. apply andb_true_iff in Hn as [Hc Hn]. apply negb_true_iff in Hc. rewrite Hc.
    by rewrite no_slash_contains. }
  induction a as [|c a IH].
  - cbn. exact Hb.
  - change (basename (String c a +:+ "/" +:+ n)) with
      (if bool_decide (c = "/"%char) then basename (a +:+ "/" +:+ n)
       else if str_contains "/" (a +:+ "/" +:+ n) then basename (a +:+ "/" +:+ n) else String c (a +:+ "/" +:+ n)).
    rewrite contains_slash. by case_bool_decide.
Qed.

Lemma digest_no_slash n : is_digest n = true → no_slash n = true.
Proof.
  unfold is_digest, no_slash. intros [_ Hn]%andb_true_iff. induction n as [|c n IH]; [done|]. cbn in *.
  apply andb_true_iff in Hn as [Hc Hn]. rewrite IH by done. rewrite andb_true_r. apply negb_true_iff, bool_decide_eq_false.
  intros ->. by vm_compute in Hc.
Qed.

Lemma basename_content name : is_digest name = true → basename (_content_path self name) = name.
Proof. intros Hn. by apply basename_last, digest_no_slash. Qed.

Lemma referenced_row t k key data etag lm now : t !! k = Some (put_row key data etag lm now) → is_referenced (sha256 data) t = true.
Proof.
  intros Hk. unfold is_referenced. apply existsb_exists. exists (k, put_row key data etag lm now). split.
  - by apply list_elem_of_In, elem_of_map_to_list.
  - by apply bool_decide_eq_true.
Qed.

(** ** The calls *)

Lemma set_rows_id s : set_store {| st_files := files s; st_rows := rows s |} s = s.
Proof. by destruct s as [? ? [[] ?]]. Qed.

Lemma get_disk key s : disk_ok s → ∃ s', get self key s = (Ok (snd <$> live s (sha256 key)), s') ∧ swept s s'.
Proof.
  intros Hok. unfold get, _sha. rewrite bind_step.
  destruct (maybe_sweep_disk s Hok) as (s1 & -> & Hs). exists s1.
  destruct (swept_ok s s1 Hok Hs) as [Hok1 Hlive]. rewrite <- Hlive. clear Hlive.
  cut (∀ r, r = Ok (snd <$> live s1 (sha256 key)) → (r, s1) = (Ok (snd <$> live s1 (sha256 key)), s1) ∧ swept s s1);
    [|by intros r ->].
  intros Hr. rewrite sqlite_step. cbn [fst snd]. rewrite set_rows_id. revert Hr. unfold live.
  destruct (rows s1 !! sha256 key) as [row|] eqn:Ek; cbn [mbind option_bind]; intros Hr; [|by apply Hr].
  destruct (ok_row s1 _ row Hok1 Ek) as (key' & data & etag & lm & now & _ & Hrow & Hname).
  rewrite bool_decide_false by by rewrite Hrow. rewrite clock_step.
  change (fetched_at row + inject_Z (ttl self) <?q time s1)%Q with (is_expired (time s1) row).
  destruct (is_expired (time s1) row); [by apply Hr|].
  fold (row_name (sha256 key) row). destruct (proj2 Hok1 _ row Ek) as [bytes Hb]. rewrite Hb in *. cbn in Hr.
  unfold try_except. rewrite (on_env_step _ _ s1 bytes (cache_world s1).1).
  - rewrite set_store_id. by apply Hr.
  - destruct s1 as [? ? [st t]]. cbn -[_content_path] in *. unfold on_files. cbn -[_content_path]. rewrite Hb. by destruct st.
Qed.

(** Entries with equal rows and payloads of equal digests *)
Definition same_entry (a b : option (cache_row * string)) : Prop :=
  option_Forall2 (λ x y, x.1 = y.1 ∧ sha256 x.2 = sha256 y.2) a b.

Lemma delete_disk key s : disk_ok s →
  ∃ s', delete self key s = (Ok tt, s') ∧ disk_ok s' ∧ live s' (sha256 key) = None ∧
    ∀ k, k ≠ sha256 key → live s' k = live s k.
Proof.
  intros Hok. unfold delete, _sha. rewrite sqlite_step. cbn [fst snd].
  set (s1 := set_store _ s). set (name := match row_content_sha <$> rows s !! sha256 key with Some (Some c) => c | _ => sha256 key end).
  assert (Hrows : rows s1 = base.delete (sha256 key) (rows s)) by done.
  rewrite sqlite_step. cbn [fst snd]. rewrite set_rows_id.
  assert (Hdig : is_digest name = true).
  { unfold name. destruct (rows s !! sha256 key) as [row|] eqn:Ek; [|apply sha_digest].
    destruct (ok_row s _ row Hok Ek) as (? & data & ? & ? & ? & _ & -> & _). apply sha_digest. }
  rewrite (basename_content name Hdig).
  assert (Hok1 : disk_ok s1 ∧ live s1 (sha256 key) = None ∧ ∀ k, k ≠ sha256 key → live s1 k = live s k).
  { destruct Hok as [[Hf Hr] Hfull]. split_and!.
    - split; [split; [exact Hf|]|]; intros k row Hk; rewrite Hrows in Hk; apply lookup_delete_Some in Hk as [_ Hk]; [by eapply Hr|by apply Hfull].
    - unfold live. by rewrite Hrows, lookup_delete_eq.
    - intros k Hk. unfold live. by rewrite Hrows, lookup_delete_ne. }
  destruct Hok1 as (Hok1 & Hnone & Hlive). destruct (is_referenced name (rows s1)) eqn:Eref; [by exists s1|].
  set (s2 := set_store {| st_files := base.delete (_content_path self name) (files s1); st_rows := rows s1 |} s1).
  assert (Hother : ∀ k row, rows s1 !! k = Some row → files s2 !! _content_path self (row_name k row) = files s1 !! _content_path self (row_name k row)).
  { intros k row Hk. cbn. apply lookup_delete_ne. intros E%(content_path_inj self).
    destruct (ok_row s1 k row Hok1 Hk) as (? & data & ? & ? & ? & _ & -> & Hname). rewrite Hname in E. subst name.
    by rewrite E, (referenced_row _ _ _ _ _ _ _ Hk) in Eref. }
  assert (Hrun : (present ← on_env (exists_file (_content_path self name));
                  if (present : bool) then on_env (rm (_content_path self name)) else mret tt) s1 = (Ok tt, s2)).
  { rewrite (on_env_step _ _ s1 (bool_decide (is_Some (files s1 !! _content_path self name))) (cache_world s1).1).
    - rewrite set_store_id. unfold s2. destruct s1 as [? ? [st now]]. cbn -[_content_path]. unfold on_env, on_files.
      cbn -[_content_path]. destruct (st_files st !! _content_path self name) eqn:Ef; cbn -[_content_path]; rewrite ?Ef; [done|].
      rewrite delete_id by done. by destruct st.
    - destruct s1 as [? ? [st now]]. cbn -[_content_path]. unfold on_files. cbn -[_content_path]. by destruct st. }
  rewrite Hrun. exists s2. split; [done|]. destruct Hok1 as [[Hf1 Hr1] Hfull1]. split_and!.
  - split; [split; [|exact Hr1]|].
    + intros n data Hn Hd. cbn in Hd. apply lookup_delete_Some in Hd as [_ Hd]. by eapply Hf1.
    + intros k row Hk. rewrite Hother by done. by apply Hfull1.
  - unfold live. change (rows s2) with (rows s1). by rewrite Hrows, lookup_delete_eq.
  - intros k Hk. rewrite <- Hlive by done. unfold live. change (rows s2) with (rows s1). change (time s2) with (time s1).
    destruct (rows s1 !! k) as [row|] eqn:Ek; [|done]. cbn [mbind option_bind]. case_match; [done|]. by rewrite Hother.
Qed.

Lemma put_disk key data etag lm s : 0 <= ttl self → disk_ok s →
  ∃ s', put_with_metadata self key data etag lm s = (Ok tt, s') ∧ disk_ok s' ∧
    live s' (sha256 key) = Some (put_row key data etag lm (time s), data) ∧
    ∀ k, k ≠ sha256 key → same_entry (live s k) (live s' k).
Proof.
  intros Httl Hok. unfold put_with_metadata, _put_internal, _sha.
  rewrite (on_env_step _ _ s "1.0" (cache_world s).1) by by destruct s as [? ? []]. rewrite set_store_id, clock_step, bind_step.
  set (tmp := temporary_name self (sha256 key) "1.0"). set (cp := _content_path self (sha256 data)).
  set (s1 := set_store {| st_files := <[cp := data]> (base.delete tmp (files s)); st_rows := rows s |} s).
  assert (Hpub : (on_env (pipe_file tmp data);; on_env (mv tmp cp)) s = (Ok tt, s1)).
  { rewrite (on_env_step _ _ s tt (with_files (cache_world s).1 (<[tmp := data]> (files s)))).
    - unfold on_env, s1. destruct s as [? ? [st now]]. cbn -[tmp cp]. unfold on_files. cbn -[tmp cp].
      rewrite lookup_insert_eq. by rewrite delete_insert_eq.
    - by destruct s as [? ? [st now]]. }
  unfold try_except at 1. rewrite Hpub. rewrite bind_step. unfold try_except. clear Hpub.
  set (row := put_row key data etag lm (time s)).
  set (s2 := set_store {| st_files := files s1; st_rows := <[sha256 key := row]> (rows s) |} s1).
  change (on_env (sqlite _) s1) with (@Ok unit tt, s2).
  assert (Hfile : ∀ name, is_digest name = true → name ≠ sha256 data → files s2 !! _content_path self name = files s !! _content_path self name).
  { intros name Hn Hne. cbn. rewrite lookup_insert_ne by (by intros E%(content_path_inj self)).
    apply lookup_delete_ne. by apply temporary_not_content. }
  assert (Hnew : files s2 !! cp = Some data) by by (cbn; rewrite lookup_insert_eq).
  destruct Hok as [[Hf Hr] Hfull].
  assert (Hok2 : disk_ok s2).
  { split; [split|].
    - intros name d Hn Hd. destruct (decide (name = sha256 data)) as [->|Hne]; [|by rewrite Hfile in Hd; [apply (Hf name)|..]].
      fold cp in Hd. rewrite Hnew in Hd. by injection Hd as <-.
    - intros k r Hk. cbn in Hk. apply lookup_insert_Some in Hk as [[<- <-]|[_ Hk]]; [by eexists _, _, _, _, _|by apply Hr].
    - intros k r Hk. cbn in Hk. apply lookup_insert_Some in Hk as [[<- <-]|[_ Hk]].
      + unfold row. rewrite put_row_name. fold cp. by rewrite Hnew.
      + destruct (Hr k r Hk) as (key' & d & e & l & n & _ & _ & ->). rewrite put_row_name.
        destruct (decide (sha256 d = sha256 data)) as [->|Hne]; [fold cp; by rewrite Hnew|].
        rewrite Hfile by done. specialize (Hfull k _ Hk). by rewrite put_row_name in Hfull. }
  destruct (maybe_sweep_disk s2 Hok2) as (s' & -> & Hsw). destruct (swept_ok s2 s' Hok2 Hsw) as [Hok' Hlive].
  exists s'. split; [done|]. split; [done|]. setoid_rewrite Hlive. clear Hsw Hlive Hok' s'.
  split.
  - assert (He : is_expired (time s) row = false).
    { unfold is_expired. apply Qltb_false. assert (0 <= inject_Z (ttl self))%Q by (change 0%Q with (inject_Z 0); by rewrite <- Zle_Qle).
      cbn. lra. }
    unfold live. change (rows s2) with (<[sha256 key := row]> (rows s)). rewrite lookup_insert_eq. cbn [mbind option_bind].
    change (time s2) with (time s). rewrite He. rewrite (put_row_name (sha256 key) key data etag lm (time s) : row_name (sha256 key) row = sha256 data). fold cp. by rewrite Hnew.
  - intros k Hk. unfold live. change (rows s2) with (<[sha256 key := row]> (rows s)). rewrite lookup_insert_ne by done.
    change (time s2) with (time s). destruct (rows s !! k) as [r|] eqn:Er; [|constructor]. cbn [mbind option_bind].
    case_match; [constructor|].
    destruct (Hr k r Er) as (key' & d & e & l & n & _ & _ & ->). rewrite put_row_name.
    pose proof (Hfull k _ Er) as [d0 Hd0]. rewrite put_row_name in Hd0. rewrite Hd0.
    destruct (decide (sha256 d = sha256 data)) as [E|Hne].
    + rewrite E. fold cp. rewrite Hnew. cbn. constructor. split; [done|]. cbn. rewrite <- E. by apply (Hf (sha256 d) d0).
    + rewrite Hfile by done. rewrite Hd0. by constructor.
Qed.

Definition row_metadata (row : cache_row) : pydict :=
  let text o := match o with Some s => PyStr s | None => PyNone end in
  [("etag", text (row_etag row)); ("last_modified", text (row_last_modified row));
   ("fetched_at", PyFloat (FFin (fetched_at row))); ("content_length", PyInt (row_content_length row))].

Lemma get_metadata_disk key s : disk_ok s →
  get_metadata self key s = (Ok (row_metadata ∘ fst <$> live s (sha256 key)), s).
Proof.
  intros Hok. unfold get_metadata, _sha. rewrite sqlite_step. cbn [fst snd]. rewrite set_rows_id. unfold live.
  destruct (rows s !! sha256 key) as [row|] eqn:Ek; [|done]. cbn [mbind option_bind].
  destruct (ok_row s _ row Hok Ek) as (? & data & ? & ? & ? & _ & Hrow & _).
  rewrite bool_decide_false by by rewrite Hrow. rewrite bind_step, clock_step. cbn [mret M_ret].
  change (fetched_at row + inject_Z (ttl self) <?q time s)%Q with (is_expired (time s) row).
  destruct (is_expired (time s) row); [done|]. destruct (proj2 Hok _ row Ek) as [bytes ->]. done.
Qed.
End map.

(** ** Properties *)

(** under interference.  Whatever other threads and processes that use
    the cache do between two steps of a call, and whichever filesystem or
    database operation fails, every call changes the directory and the table
    by permitted actions only - writing and renaming its own temporary files
    onto the name of their digest, removing content files, committing the row
    of a [put], forgetting rows - so a directory whose files have the digests
    they are named by and whose rows are rows of a [put] stays one. *)
Theorem cache_calls_permitted {W} `{!CacheEnv W, Sha256} self puts mine store_of rely (s : cache_state W) :
  (∀ x, is_digest (sha256 x) = true) → cache_laws self puts mine store_of rely →
  in_order self puts (store_of (cache_world s)) →
  let permitted {A} (m : M (cache_state W) A) :=
    moves self puts mine (store_of (cache_world s)) (store_of (cache_world (m s).2)) ∧
    in_order self puts (store_of (cache_world (m s).2)) in
  (∀ key, permitted (get self key)) ∧ (∀ key, permitted (get_metadata self key)) ∧ (∀ key, permitted (delete self key)) ∧
  (∀ key data etag lm, puts key data etag lm → permitted (put_with_metadata self key data etag lm)).
Proof.
  intros Hd Hl Hok permitted. pose proof (reached_refl self puts mine _ Hok) as Hr.
  split_and!; intros key; [|..|intros data etag lm Hp].
  - by eapply get_kept.
  - by eapply get_metadata_kept.
  - by eapply delete_kept.
  - by eapply put_kept.
Qed.

(** Integrity.  Under the same interference and failures, the bytes
    [get] gives for a key have the digest of a payload that was put under a
    key of the same digest, and at some moment of the call the row of that
    [put] was the row of the key: a torn, foreign or half-written payload is
    never returned. *)
Theorem cache_get_integrity {W} `{!CacheEnv W, Sha256} self puts mine store_of rely (s s' : cache_state W) key data :
  (∀ x, is_digest (sha256 x) = true) → cache_laws self puts mine store_of rely →
  in_order self puts (store_of (cache_world s)) → get self key s = (Ok (Some data), s') →
  ∃ st key' data' etag lm now,
    moves self puts mine (store_of (cache_world s)) st ∧ moves self puts mine st (store_of (cache_world s')) ∧
    st_rows st !! sha256 key = Some (put_row key' data' etag lm now) ∧
    puts key' data' etag lm ∧ sha256 key' = sha256 key ∧ sha256 data' = sha256 data.
Proof. intros Hd Hl Hok Hg. exact (get_integrity self puts mine store_of rely Hd Hl key s data s' Hok Hg). Qed.

(** a [put] that fails - in the staging, the rename, the clean-up or the
    commit - and that nobody interferes with leaves the table as it was and
    every content file in place, with bytes of its digest, so the entries of
    all keys survive; and it raises [DownloadError] unless the clean-up raised
    something that is not an [OSError]. *)
Theorem cache_failed_put {W} `{!CacheEnv W, Sha256} self puts mine store_of rely (s s' : cache_state W) key data etag lm e :
  (∀ x, is_digest (sha256 x) = true) → cache_laws self puts mine store_of rely → (∀ a b, rely a b → a = b) →
  in_order self puts (store_of (cache_world s)) → puts key data etag lm →
  put_with_metadata self key data etag lm s = (Raise e, s') → is_Exception (exn_kind e) = true →
  st_rows (store_of (cache_world s')) = st_rows (store_of (cache_world s)) ∧
  (∀ name, is_digest name = true → is_Some (st_files (store_of (cache_world s)) !! _content_path self name) →
     ∃ bytes, st_files (store_of (cache_world s')) !! _content_path self name = Some bytes ∧ sha256 bytes = name) ∧
  (e = download_error key ∨ is_subclass (exn_kind e) OSError = false).
Proof.
  intros Hd Hl Ha Hok Hp Hput He.
  pose proof (put_kept self puts mine store_of rely Hd Hl _ key data etag lm Hp s (reached_refl self puts mine _ Hok)) as (_ & Hf & _).
  unfold put_with_metadata in Hput. rewrite Hput in Hf.
  assert (Hkeep : keeps_entries self (store_of (cache_world s)) (store_of (cache_world s'))
    ∧ put_failure key e) by (eapply failed_put; eauto; by split).
  destruct Hkeep as [[Hr Hfiles] Hk]. split_and!; [done| |exact Hk].
  intros name Hn Hs. destruct (Hfiles name Hn Hs) as [bytes Hb]. exists bytes. split; [done|]. by apply (Hf name).
Qed.

(** C27: alone and without failures the cache is a map with expiring entries:
    [put] makes the payload the entry of its key and keeps the other entries
    (a payload of the same digest may replace their bytes), [delete] removes
    the entry of its key and no other, although entries may share a file,
    [get] and [get_metadata] give the entry of the key when it has not
    expired, and sweeping changes no entry. *)
Theorem cache_is_map `{Sha256} self (s : cache_state disk_world) key :
  (∀ x, is_digest (sha256 x) = true) → 0 <= ttl self → disk_ok self s →
  (∃ s', get self key s = (Ok (snd <$> live self s (sha256 key)), s') ∧ disk_ok self s' ∧ ∀ k, live self s' k = live self s k) ∧
  get_metadata self key s = (Ok (row_metadata ∘ fst <$> live self s (sha256 key)), s) ∧
  (∃ s', delete self key s = (Ok tt, s') ∧ disk_ok self s' ∧ live self s' (sha256 key) = None ∧
     ∀ k, k ≠ sha256 key → live self s' k = live self s k) ∧
  (∀ data etag lm, ∃ s', put_with_metadata self key data etag lm s = (Ok tt, s') ∧ disk_ok self s' ∧
     live self s' (sha256 key) = Some (put_row key data etag lm (cache_world s).2, data) ∧
     ∀ k, k ≠ sha256 key → same_entry (live self s k) (live self s' k)).
Proof.
  intros Hd Httl Hok. split_and!.
  - destruct (get_disk self Hd key s Hok) as (s' & Hg & Hs). exists s'. split; [exact Hg|]. by apply swept_ok.
  - by apply get_metadata_disk.
  - by apply delete_disk.
  - intros data etag lm. by apply put_disk.
Qed.

(** ** Witnesses *)

(** A toy digest: the length of the text, modulo sixteen *)
#[local] Instance toy_sha : Sha256 := λ s,
  "000000000000000000000000000000000000000000000000000000000000000" +:+
  String (default "0"%char (List.nth_error (String.list_ascii_of_string "0123456789abcdef") (String.length s mod 16))) "".

Lemma toy_digest s : is_digest (sha256 s) = true.
Proof.
  unfold sha256, toy_sha. assert (H : (String.length s mod 16 < 16)%nat) by (apply Nat.mod_upper_bound; done).
  revert H. generalize (String.length s mod 16)%nat. intros n Hn. do 16 (destruct n as [|n]; [by vm_compute|]). lia.
Qed.

(** The disk obeys the laws, alone. *)
Lemma disk_atomic {A} (act : result A → store → store → Prop) (m : M disk_world A) :
  (∀ st now, act (m (st, now)).1 st (m (st, now)).2.1) → atomic (fst : disk_world → store) eq act m.
Proof.
  intros Ha [st now] r w' E. specialize (Ha st now). rewrite E in Ha. by exists st, w'.1.
Qed.

Lemma disk_laws self puts mine : mine "1.0" → cache_laws self puts mine (fst : disk_world → store) eq.
Proof.
  intros Hm. split; intros *; try apply disk_atomic.
  - intros ->. apply rtc_refl.
  - done.
  - intros st now. cbn. unfold on_files. cbn. destruct (st_files st !! p) eqn:E; (split; [by destruct st|]); [|done].
    by intros d [= <-].
  - intros st now. exists (Some data). split; [|done]. by destruct st.
  - intros st now. cbn. unfold on_files. cbn. destruct (st_files st !! p) as [d|] eqn:E; cbn.
    + by exists d.
    + exists None. unfold at_path, with_files. f_equal. exact (eq_sym (delete_id _ _ E)).
  - intros st now. cbn. unfold on_files. cbn. destruct (st_files st !! p) as [d|] eqn:E; cbn; [done|by destruct st].
  - intros st now. by destruct st.
  - intros st now. done.
  - intros st now. split; [done|]. by exists "1.0".
  - intros st now. cbn. by destruct (f (st_rows st)).
Qed.

Definition sample_cache : ContentCache := make_content_cache "/cache/" 3600.
Definition empty_disk : cache_state disk_world := fresh_state ({| st_files := ∅; st_rows := ∅ |}, 100%Q).
Definition anyone : string → string → option string → option string → Prop := λ _ _ _ _, True.
Definition one_put : cache_state disk_world := (put_with_metadata sample_cache "https://a" "bytes" (Some "v1") None empty_disk).2.

Lemma empty_ok : in_order sample_cache anyone (cache_world empty_disk).1 ∧ disk_ok sample_cache empty_disk.
Proof. assert (in_order sample_cache anyone (cache_world empty_disk).1) as H by (by split). split; [done|]. by split. Qed.

Lemma sample_laws : cache_laws sample_cache anyone (λ s, s = "1.0") (fst : disk_world → store) eq.
Proof. by apply disk_laws. Qed.

Lemma one_put_order : in_order sample_cache anyone (cache_world one_put).1.
Proof.
  pose proof (reached_refl sample_cache anyone (λ s, s = "1.0") _ (proj1 empty_ok)) as Hr.
  assert (H : reached sample_cache anyone (λ s, s = "1.0") (cache_world empty_disk).1 (cache_world one_put).1)
    by (eapply (put_kept sample_cache anyone (λ s, s = "1.0") fst eq); eauto using toy_digest, sample_laws; exact I).
  apply H.
Qed.

Lemma cache_calls_permitted_witness :
  moves sample_cache anyone (λ s, s = "1.0") (cache_world empty_disk).1 (cache_world one_put).1.
Proof.
  exact (proj1 (proj2 (proj2 (proj2 (cache_calls_permitted sample_cache anyone (λ s, s = "1.0") fst eq empty_disk
    toy_digest sample_laws (proj1 empty_ok)))) "https://a" "bytes" (Some "v1") None I)).
Defined.

Lemma cache_get_integrity_witness : ∃ st key' data' etag lm now,
  st_rows st !! sha256 "https://a" = Some (put_row key' data' etag lm now) ∧ sha256 data' = sha256 "bytes".
Proof.
  destruct (cache_get_integrity sample_cache anyone (λ s, s = "1.0") fst eq one_put (get sample_cache "https://a" one_put).2
    "https://a" "bytes" toy_digest sample_laws one_put_order) as (st & key' & data' & etag & lm & now & _ & _ & Hr & _ & _ & Hd).
  - vm_compute. reflexivity.
  - exact (ex_intro _ st (ex_intro _ key' (ex_intro _ data' (ex_intro _ etag (ex_intro _ lm (ex_intro _ now (conj Hr Hd))))))).
Defined.

Lemma cache_is_map_witness :
  ∃ s', put_with_metadata sample_cache "https://a" "bytes" None None empty_disk = (Ok tt, s') ∧ disk_ok sample_cache s'.
Proof.
  destruct (cache_is_map sample_cache empty_disk "https://a" toy_digest) as (_ & _ & _ & Hput).
  - vm_compute. discriminate.
  - apply empty_ok.
  - destruct (Hput "bytes" None None) as (s' & E & Hok & _). exact (ex_intro _ s' (conj E Hok)).
Defined.

(** A disk whose renames fail *)
Definition broken_files : Filesystem disk_world := {|
  cat_file p := on_files (cat_file p); pipe_file p s := on_files (pipe_file p s);
  mv p q := throw (err OSError q); rm p := on_files (rm p); exists_file p := on_files (exists_file p);
  open_lock_file p := mret tt; temporary_suffix := mret "1.0"; strip_protocol p := p
|}.
Definition broken_cache : CacheEnv disk_world := {|
  cache_fs := broken_files; cache_clock := disk_clock; fs_ls := @fs_ls _ disk_cache; sqlite := @sqlite _ disk_cache
|}.

Lemma broken_laws : @cache_laws disk_world broken_cache toy_sha sample_cache anyone (λ s, s = "1.0") fst eq.
Proof.
  destruct sample_laws as [H1 H2 H3 H4 H5 H6 H7 H8 H9 H10]. split; try assumption.
  intros p q [st now] r w' [= <- <-]. exists st, st. split_and!; try done.
  exists (st_files st !! p). unfold at_path. destruct st as [d t]. cbn. f_equal. symmetry. by apply partial_alter_id.
Qed.

Lemma cache_failed_put_witness :
  ∃ e, (@put_with_metadata _ broken_cache _ sample_cache "https://a" "new" None None one_put).1 = Raise e ∧
    e = download_error "https://a" ∧
    st_rows (cache_world (@put_with_metadata _ broken_cache _ sample_cache "https://a" "new" None None one_put).2).1 =
    st_rows (cache_world one_put).1.
Proof.
  destruct (@put_with_metadata _ broken_cache _ sample_cache "https://a" "new" None None one_put) as [r s'] eqn:E.
  assert (Hr : r = Raise (download_error "https://a")).
  { change r with (r, s').1. rewrite <- E. vm_compute. reflexivity. }
  subst r. exists (download_error "https://a"). split; [reflexivity|]. split; [reflexivity|].
  exact (proj1 (@cache_failed_put _ broken_cache toy_sha sample_cache anyone (λ s, s = "1.0") fst eq one_put s' "https://a" "new"
    None None (download_error "https://a") toy_digest broken_laws (λ a b H, H) one_put_order I E eq_refl)).
Defined.
