(* ===== verification/Targets.v ===== *)
(** * Outgoing HTTP targets

    [validate_http_target] of [_uri.py], which refuses the addresses a
    data-plane request must not reach, and [follow_redirects] of
    [io/_redirects.py], which validates every hop before it is sent.  The
    syntax of IP addresses, [urljoin] and name resolution belong to the
    standard library and the network and are parameters. *)
From Stdlib Require Import Ascii ZArith Lia.
From stdpp Require Import strings.
From S2P Require Import Prelude PyVal Urls JsonText Uris Transport.
Local Open Scope Z_scope.
Local Open Scope py_scope.

(** What [ipaddress] says of an address *)
Record ip_facts := { is_global : bool; is_multicast : bool }.

(** [ipaddress.ip_address(text)], which raises [ValueError], and
    [IPv4Address(inet_aton(text))], which raises [OSError] *)
Class IpAddresses := { ip_address : string → option ip_facts; inet_aton : string → option ip_facts }.

(** [urljoin(base, url)], which may raise [ValueError] *)
Class UrlJoin := urljoin : string → string → result string.

(** [socket.getaddrinfo(host, None, type=SOCK_STREAM)]: the addresses *)
Class Resolver (W : Type) := getaddrinfo : string → M W (list string).

(** ** validate_http_target *)

(** [character.isspace()] *)
Definition is_space (c : ascii) : bool :=
  ((9 <=? code c) && (code c <=? 13)) || ((28 <=? code c) && (code c <=? 32)) ||
  bool_decide (code c ∈ [133; 160]).
Definition is_refused_char (c : ascii) : bool := is_space c || (code c <? 32) || (code c =? 127).

(** [host.rstrip(".")] *)
Fixpoint rstrip_dots (s : string) : string :=
  match s with
  | EmptyString => ""
  | String c r => match rstrip_dots r with
                  | EmptyString => if bool_decide (c = "."%char) then "" else String c ""
                  | r' => String c r'
                  end
  end.

(** [s.endswith(suffix)] *)
Fixpoint ends_with (suffix s : string) : bool :=
  bool_decide (s = suffix) || match s with EmptyString => false | String _ s' => ends_with suffix s' end.

Definition local_names : list string := ["localhost"; "ip6-localhost"; "ip6-loopback"].
Definition local_suffixes : list string :=
  [".localhost"; ".local"; ".lan"; ".internal"; ".intranet"; ".corp"; ".localdomain"; ".home.arpa"; ".onion"].

Section targets.
Context {W : Type} `{IpLiterals, IpAddresses, !Resolver W}.

Definition is_public (a : ip_facts) : bool := is_global a && negb (is_multicast a).

Definition _private_http_host (host : string) : bool :=
  let host := rstrip_dots (str_lower host) in
  match ip_address host with
  | Some a => negb (is_public a)
  | None =>
      match inet_aton host with
      | Some a => negb (is_public a)
      | None => bool_decide (host ∈ local_names) || negb (has_char "." host) || existsb (λ s, ends_with s host) local_suffixes
      end
  end.

Definition _resolves_to_private_address (host : string) : M W bool :=
  try_except
    (answers ← getaddrinfo host;
     mret (existsb (λ answer, match ip_address answer with Some a => negb (is_public a) | None => true end) answers))
    (λ e, if is_subclass (exn_kind e) OSError || is_subclass (exn_kind e) UnicodeError then Some (mret false) else None).

(** [try: m except ValueError: raise ValueError(text)] *)
Definition value_error {A} (text : string) (m : result A) : result A :=
  match m with
  | Raise e => if is_subclass (exn_kind e) ValueError then Raise (err ValueError text) else Raise e
  | Ok a => Ok a
  end.

Definition _http_target_host (value : string) : result string :=
  parsed ← value_error "host" (urlsplit value);
  port ← value_error "port" (port parsed);
  raise_if (negb (bool_decide (str_lower (scheme parsed) ∈ ["http"; "https"]))) (err ValueError "scheme");;
  raise_if (has_char "@" (netloc parsed)) (err ValueError "userinfo");;
  raise_if (match port with Some n => n <? 1 | None => false end) (err ValueError "port");;
  match hostname parsed with
  | None => Raise (err ValueError "host")
  | Some host => raise_if (negb (str_nonempty host) || has_char "\" host || has_char "%" host) (err ValueError "host");; Ok host
  end.

Definition validate_http_target (value : pyval) (allow_private resolve : bool) : M W string :=
  match value with
  | PyStr value =>
      lift_res (raise_if (negb (str_nonempty value)) (err ValueError "missing"));;
      lift_res (raise_if (2048 <? Z.of_nat (String.length value)) (err ValueError "length"));;
      lift_res (raise_if (negb (string_forallb (λ c, negb (is_refused_char c)) value)) (err ValueError "format"));;
      host ← lift_res (_http_target_host value);
      private ← (if allow_private then mret false
                 else if _private_http_host host then mret true
                 else if resolve then _resolves_to_private_address host else mret false);
      if (private : bool) then throw (err ValueError "locality") else mret value
  | _ => throw (err ValueError "missing")
  end.

(** ** follow_redirects *)

Definition _REDIRECT_STATUSES : list Z := [301; 302; 303; 307; 308].
Definition _MAX_HOPS : nat := 10.

Section follow.
Context `{QueryText, UrlJoin} {T : Type}.
(** A response: its status and its headers *)
Variables (status_of : T → Z) (headers_of : T → headers).
Variables (allow_private : bool) (label : string) (error : exc_kind).
Variables (send : string → M W T) (on_discard : option (T → M W unit)).

(** [{key.lower(): value for ...}.get("location")]: the last one counts *)
Definition location_of (h : headers) : option string :=
  snd <$> last (List.filter (λ kv, bool_decide (str_lower kv.1 = "location")) h).

Definition unreachable : exn := err AssertionError "unreachable".

(** [if on_discard is not None: on_discard(response)] *)
Definition discard_response (response : T) : M W unit :=
  match on_discard with Some discard => discard response | None => mret tt end.

(** The body of the loop: [inr] for the next URL's turn *)
Definition follow_hop (hop : nat) (url : string) : M W (T + string) :=
  try_except (validate_http_target (PyStr url) allow_private true)
    (λ e, if is_subclass (exn_kind e) ValueError
          then Some (throw (err error (label +:+ " target is invalid (" +:+ exn_msg e +:+ ")"))) else None);;
  response ← send url;
  let status := status_of response in
  if (200 <=? status) && (status <? 300) then mret (inl response)
  else
    discard_response response;;
    match location_of (headers_of response) with
    | Some location =>
        if negb (bool_decide (status ∈ _REDIRECT_STATUSES)) then
          throw (err error (label +:+ " for " +:+ sanitize_uri url +:+ " returned HTTP " +:+ int_repr status))
        else if (hop =? _MAX_HOPS)%nat then
          throw (err error (label +:+ " for " +:+ sanitize_uri url +:+ " exceeded its redirect limit"))
        else
          match urljoin url location with
          | Ok next => mret (inr next)
          | Raise e => if is_subclass (exn_kind e) ValueError
                       then throw (err error (label +:+ " for " +:+ sanitize_uri url +:+
                                              " returned an unusable redirect Location (" +:+ exn_msg e +:+ ")"))
                       else throw e
          end
    | None => throw (err error (label +:+ " for " +:+ sanitize_uri url +:+ " returned HTTP " +:+ int_repr status))
    end.

(** [for hop in range(...)]: [todo] turns of the range remain. *)
Fixpoint follow_from (todo hop : nat) (url : string) : M W T :=
  match todo with
  | O => throw unreachable
  | S todo =>
      outcome ← follow_hop hop url;
      match outcome with inl response => mret response | inr next => follow_from todo (S hop) next end
  end.

Definition follow_redirects (url : string) : M W T := follow_from (S _MAX_HOPS) 0 url.
End follow.
End targets.

(** ** What a validated target is *)

Section validated.
Context {W : Type} `{IpLiterals, IpAddresses, !Resolver W}.

(** The syntax a target must have, and its host *)
Definition target_syntax (value host : string) : Prop :=
  value ≠ "" ∧ (String.length value ≤ 2048)%nat ∧ string_forallb (λ c, negb (is_refused_char c)) value = true ∧
  ∃ parsed p, urlsplit value = Ok parsed ∧ port parsed = Ok p ∧ hostname parsed = Some host ∧
    str_lower (scheme parsed) ∈ ["http"; "https"] ∧ has_char "@" (netloc parsed) = false ∧
    (∀ n, p = Some n → 1 <= n) ∧ host ≠ "" ∧ has_char "\" host = false ∧ has_char "%" host = false.

(** Addresses a name server gave that are all public; [None] when it gave none *)
Definition public_answers (answers : option (list string)) : Prop :=
  ∀ l, answers = Some l → Forall (λ a, ∃ facts, ip_address a = Some facts ∧ is_public facts = true) l.

Lemma value_error_ok {A} text (m : result A) a : value_error text m = Ok a ↔ m = Ok a.
Proof. destruct m as [b|e]; cbn; [done|]. split; [|done]. by case_match. Qed.
Lemma value_error_raises {A} text (m : result A) :
  raises (λ e, exn_kind e = ValueError) m → raises (λ e, exn_kind e = ValueError) (value_error text m).
Proof. intros Hm. destruct m as [b|e]; cbn; [done|]. case_match; [by apply raises_raise|done]. Qed.

Lemma target_host_ok value host : value ≠ "" → (String.length value ≤ 2048)%nat →
  string_forallb (λ c, negb (is_refused_char c)) value = true →
  _http_target_host value = Ok host ↔ target_syntax value host.
Proof.
  intros Hne Hlen Hchars. unfold _http_target_host, target_syntax. split.
  - intros E. inv_ok. apply value_error_ok in H1, H2. destruct (hostname x) as [h|] eqn:Eh; [|done]. inv_ok.
    split_and!; try done. exists x, x0. qbool. split_and!; try done.
    + by apply bool_decide_eq_true in H3.
    + intros n ->. by apply Z.ltb_ge in H5.
    + by apply str_nonempty_true.
  - intros (_ & _ & _ & parsed & p & Es & Ep & Eh & Hsch & Hat & Hp & Hh & Hb & Hpc). rewrite Es. cbn. rewrite Ep. cbn.
    rewrite Hat, Eh, Hb, Hpc. rewrite bool_decide_eq_true_2 by done. apply str_nonempty_true in Hh. rewrite Hh. cbn.
    destruct p as [n|]; [|done]. rewrite (proj2 (Z.ltb_ge n 1)); [done|]. by apply Hp.
Qed.

(** The hypothesis-free reading of the three checks before the host's *)
Lemma validate_target_ok value allow_private resolve (w w' : W) v :
  validate_http_target (PyStr value) allow_private resolve w = (Ok v, w') →
  v = value ∧ ∃ host, target_syntax value host ∧
    (if allow_private then w' = w
     else _private_http_host host = false ∧ (if resolve then _resolves_to_private_address host w = (Ok false, w') else w' = w)).
Proof.
  unfold validate_http_target. rewrite !bind_step. unfold lift_res at 1. destruct (negb (str_nonempty value)) eqn:E1; [done|]. cbn [raise_if].
  rewrite bind_step. unfold lift_res at 1. destruct (2048 <? Z.of_nat (String.length value)) eqn:E2; [done|]. cbn [raise_if].
  rewrite bind_step. unfold lift_res at 1. destruct (negb (string_forallb (λ c, negb (is_refused_char c)) value)) eqn:E3; [done|]. cbn [raise_if].
  qbool. rewrite bind_step. unfold lift_res at 1. destruct (_http_target_host value) as [host|e] eqn:E4; [|done].
  apply target_host_ok in E4; [|by apply str_nonempty_true|lia|done].
  rewrite bind_step. destruct allow_private; cbn match.
  - intros [= <- <-]. eauto.
  - destruct (_private_http_host host) eqn:E5; [done|]. destruct resolve; cbn match.
    + destruct (_resolves_to_private_address host w) as [[[]|e] w1] eqn:E6; [done| |done]. intros [= <- <-]. eauto 6.
    + intros [= <- <-]. eauto 6.
Qed.
End validated.

(** ** What a redirect chain sends *)

(** What the network sees: the answers of a name server, and the requests with
    the status and headers that came back; [None] where there was no answer *)
Inductive net_event :=
| Resolved (host : string) (answers : option (list string))
| Sent (url : string) (answer : option (Z * headers)).

Section trace.
Context {W : Type} `{IpLiterals, IpAddresses, !Resolver W, QueryText, UrlJoin} {T : Type}.
Variables (status_of : T → Z) (headers_of : T → headers).
Variables (allow_private : bool) (label : string) (error : exc_kind).
Variables (send : string → M W T) (on_discard : option (T → M W unit)).
Variable trace : W → list net_event.

Definition answer_of (r : result T) : option (Z * headers) :=
  match r with Ok response => Some (status_of response, headers_of response) | Raise _ => None end.
(** The environment records what it is asked to do. *)
Record net_laws := {
  resolve_recorded : ∀ host w r w', getaddrinfo host w = (r, w') →
    trace w' = trace w ++ [Resolved host (match r with Ok l => Some l | Raise _ => None end)];
  send_recorded : ∀ url w, trace (send url w).2 = trace w ++ [Sent url (answer_of (send url w).1)];
  discard_silent : ∀ discard r w, on_discard = Some discard → trace (discard r w).2 = trace w
}.

Hypothesis laws : net_laws.

(** A request was checked: its URL is one of a target, and unless private
    targets are allowed its host names no private address and the name server
    was asked for it just before and gave only public ones, or none. *)
Definition request_checked (before : list net_event) (url : string) : Prop :=
  ∃ host, target_syntax url host ∧
    (allow_private = false → _private_http_host host = false ∧
      ∃ before' answers, before = before' ++ [Resolved host answers] ∧ public_answers answers).

Definition is_sent (e : net_event) : option (string * option (Z * headers)) :=
  match e with Sent url answer => Some (url, answer) | Resolved _ _ => None end.
Definition exchanges (es : list net_event) : list (string * option (Z * headers)) := omap is_sent es.

Definition requests_checked (es : list net_event) : Prop :=
  ∀ before url answer after, es = before ++ Sent url answer :: after → request_checked before url.

(** [location] is the value of the last header whose name is [Location] in any
    case. *)
Definition location_header (h : headers) (location : string) : Prop :=
  ∃ before name after, h = before ++ (name, location) :: after ∧ str_lower name = "location" ∧
    ∀ kv, kv ∈ after → str_lower kv.1 ≠ "location".

(** The requests of a chain: each one after the first goes where the [Location]
    header of the answer before it leads, which is a redirect. *)
Inductive linked : list (string * option (Z * headers)) → Prop :=
| linked_one url answer : linked [(url, answer)]
| linked_next url status h location next answer rest :
    status ∈ [301; 302; 303; 307; 308] → location_header h location → urljoin url location = Ok next →
    linked ((next, answer) :: rest) → linked ((url, Some (status, h)) :: (next, answer) :: rest).

Lemma location_of_header h location : location_of h = Some location → location_header h location.
Proof.
  unfold location_of. induction h as [|[k v] h IH] using rev_ind; [done|]. rewrite List.filter_app. cbn.
  case_bool_decide as Hk.
  - rewrite last_snoc. intros [= <-]. exists h, k, []. split; [done|]. split; [done|]. intros kv Hin. by apply not_elem_of_nil in Hin.
  - rewrite app_nil_r. intros (before & name & after & -> & Hname & Hafter)%IH. exists before, name, (after ++ [(k, v)]).
    split; [by rewrite <- app_assoc|]. split; [done|]. intros kv [Hin| ->%list_elem_of_singleton]%elem_of_app; [by apply Hafter|done].
Qed.

Lemma sent_app es es' : exchanges (es ++ es') = exchanges es ++ exchanges es'.
Proof. apply omap_app. Qed.

Lemma checked_snoc es e : requests_checked es →
  (∀ url answer, e = Sent url answer → request_checked es url) → requests_checked (es ++ [e]).
Proof.
  intros Hes He before url answer after. destruct after as [|e' after _] using rev_ind.
  - intros [<- [= ->]]%app_inj_tail. by eapply He.
  - intros E. rewrite app_comm_cons, app_assoc in E.
    apply app_inj_tail in E as [E _]. by eapply Hes.
Qed.

Lemma checked_resolved es host answers : requests_checked es → requests_checked (es ++ [Resolved host answers]).
Proof. intros Hes. by apply checked_snoc. Qed.

Lemma resolve_trace host w r w' : _resolves_to_private_address host w = (r, w') →
  ∃ l, trace w' = trace w ++ [Resolved host l] ∧ (r = Ok false → public_answers l).
Proof.
  unfold _resolves_to_private_address, try_except. rewrite bind_step.
  destruct (getaddrinfo host w) as [a w1] eqn:E. pose proof (resolve_recorded laws _ _ _ _ E) as Ht.
  destruct a as [l|e].
  - intros [= <- <-]. exists (Some l). split; [done|]. intros [= Hex] l' [= <-]. apply Forall_forall. intros a Ha.
    destruct (ip_address a) as [facts|] eqn:Ea.
    + exists facts. split; [done|]. destruct (is_public facts) eqn:Ep; [done|]. exfalso.
      enough (existsb (λ answer, match ip_address answer with Some a => negb (is_public a) | None => true end) l = true) by congruence.
      apply existsb_exists. exists a. split; [by apply list_elem_of_In|]. by rewrite Ea, Ep.
    + exfalso. enough (existsb (λ answer, match ip_address answer with Some a => negb (is_public a) | None => true end) l = true) by congruence.
      apply existsb_exists. exists a. split; [by apply list_elem_of_In|]. by rewrite Ea.
  - intros E'. exists None. split; [|by intros _ l]. destruct (_ || _); by injection E' as _ <-.
Qed.

Lemma validate_trace url (w w' : W) r : validate_http_target (PyStr url) allow_private true w = (r, w') →
  (trace w' = trace w ∨ ∃ host l, trace w' = trace w ++ [Resolved host l]) ∧
  (is_ok r = true → request_checked (trace w') url).
Proof.
  intros E. destruct r as [v|e].
  - apply validate_target_ok in E as (-> & host & Hsyn & Hpriv). destruct allow_private eqn:Hap.
    + subst w'. split; [by left|]. intros _. exists host. split; [done|]. by rewrite Hap.
    + destruct Hpriv as [Hpriv Hres]. apply resolve_trace in Hres as (l & Ht & Hl). split; [eauto|]. intros _.
      exists host. split; [done|]. intros _. split; [done|]. exists (trace w), l. auto.
  - split; [|done]. revert E. unfold validate_http_target. rewrite !bind_step. unfold lift_res. cbn match beta.
    repeat first [rewrite bind_step | destruct (raise_if _ _) as [[]|?]; [|intros [= _ <-]; by left]].
    destruct (_http_target_host url) as [host|?]; [|intros [= _ <-]; by left].
    rewrite bind_step. destruct allow_private; [done|]. destruct (_private_http_host host); [intros [= _ <-]; by left|].
    destruct (_resolves_to_private_address host w) as [b w1] eqn:Er. apply resolve_trace in Er as (l & Ht & _).
    destruct b as [[]|e']; intros [= _ <-]; right; eauto.
Qed.

Abbreviation hop_of := (follow_hop status_of headers_of allow_private label error send on_discard).
Abbreviation chain_of := (follow_from status_of headers_of allow_private label error send on_discard).

(** Discarding and what follows leave the trace alone. *)
Lemma discard_trace response w : trace (discard_response on_discard response w).2 = trace w.
Proof. unfold discard_response. destruct on_discard eqn:E; [|done]. by apply (discard_silent laws). Qed.

(** One hop checks its URL and sends it at most once. *)
Lemma hop_trace hop url (w w' : W) r : requests_checked (trace w) → hop_of hop url w = (r, w') →
  requests_checked (trace w') ∧
  match r with
  | Ok (inl response) => exchanges (trace w') = exchanges (trace w) ++ [(url, Some (status_of response, headers_of response))] ∧
                         200 <= status_of response < 300
  | Ok (inr next) => (hop ≠ _MAX_HOPS)%nat ∧ ∃ status h location,
      exchanges (trace w') = exchanges (trace w) ++ [(url, Some (status, h))] ∧
      status ∈ _REDIRECT_STATUSES ∧ location_of h = Some location ∧ urljoin url location = Ok next
  | Raise _ => exchanges (trace w') = exchanges (trace w) ∨ ∃ answer, exchanges (trace w') = exchanges (trace w) ++ [(url, answer)]
  end.
Proof.
  intros Hw. unfold follow_hop. rewrite bind_step. unfold try_except.
  destruct (validate_http_target (PyStr url) allow_private true w) as [v w1] eqn:Ev.
  apply validate_trace in Ev as [Ht Hv].
  assert (Hw1 : requests_checked (trace w1) ∧ exchanges (trace w1) = exchanges (trace w)).
  { destruct Ht as [->|(host & l & ->)]; [done|]. split; [by apply checked_resolved|]. by rewrite sent_app, app_nil_r. }
  destruct Hw1 as [Hw1 Hs1]. destruct v as [v|e].
  2:{ destruct (is_subclass _ _); intros [= <- <-]; (split; [done|]); by left. }
  rewrite bind_step. pose proof (send_recorded laws url w1) as Hsend. destruct (send url w1) as [response w2] eqn:Esend. cbn [fst snd] in Hsend.
  assert (Hw2 : requests_checked (trace w2)).
  { rewrite Hsend. apply checked_snoc; [done|]. intros url' answer [= <- _]. by apply Hv. }
  assert (Hs2 : exchanges (trace w2) = exchanges (trace w) ++ [(url, answer_of response)]) by by rewrite Hsend, sent_app, Hs1.
  destruct response as [response|e]; [|intros [= <- <-]; eauto]. cbn [answer_of] in Hs2.
  destruct ((200 <=? status_of response) && (status_of response <? 300)) eqn:Eok.
  { intros [= <- <-]. qbool. auto. }
  rewrite bind_step. pose proof (discard_trace response w2) as Hd. destruct (discard_response on_discard response w2) as [d w3]. cbn in Hd.
  destruct d as [[]|e]; [|intros [= <- <-]; rewrite Hd; eauto].
  destruct (location_of _) as [location|] eqn:El; [|intros [= <- <-]; rewrite Hd; eauto].
  destruct (negb _) eqn:Er; [intros [= <- <-]; rewrite Hd; eauto|]. apply negb_false_iff, bool_decide_eq_true in Er.
  destruct (hop =? _MAX_HOPS)%nat eqn:Emax; [intros [= <- <-]; rewrite Hd; eauto|]. apply Nat.eqb_neq in Emax.
  destruct (urljoin url location) as [next|e] eqn:Ej; [intros [= <- <-]; rewrite Hd; split; [done|split; [done|]]; by repeat eexists|].
  destruct (is_subclass _ _); intros [= <- <-]; rewrite Hd; eauto.
Qed.

(** A chain of hops; the response returned is the answer of its last request. *)
Lemma chain_trace todo hop url (w w' : W) r : requests_checked (trace w) → chain_of todo hop url w = (r, w') →
  requests_checked (trace w') ∧
  ∃ requests, exchanges (trace w') = exchanges (trace w) ++ requests ∧ (length requests ≤ todo)%nat ∧
    (requests = [] ∨ fst <$> head requests = Some url ∧ linked requests) ∧
    (∀ response, r = Ok response → 200 <= status_of response < 300 ∧
       snd <$> last requests = Some (Some (status_of response, headers_of response))).
Proof.
  revert hop url w. induction todo as [|todo IH]; intros hop url w Hw.
  { intros [= <- <-]. split; [done|]. exists []. rewrite app_nil_r. split_and!; [done|cbn; lia|by left|done]. }
  cbn [follow_from]. rewrite bind_step. destruct (hop_of hop url w) as [out w1] eqn:Eh.
  destruct (hop_trace _ _ _ _ _ Hw Eh) as [Hw1 Hout]. destruct out as [[response|next]|e].
  - intros [= <- <-]. split; [done|]. destruct Hout as [Hs Hok]. eexists. split; [exact Hs|].
    split_and!; [cbn; lia|right; by split; [|constructor]|]. by intros ? [= <-].
  - intros E. destruct Hout as (_ & status & h & location & Hs & Hst & Hl & Hj). destruct (IH _ _ _ Hw1 E) as (Hw' & rest & Hs' & Hlen & Hr & Hok).
    split; [done|]. exists ((url, Some (status, h)) :: rest). rewrite Hs', Hs. split_and!; [by rewrite <- app_assoc|cbn; lia| |].
    + right. split; [done|]. destruct Hr as [->|[Hh Hr]]; [constructor|]. destruct rest as [|[u answer] rest]; [done|].
      injection Hh as ->. by eapply linked_next; [|apply location_of_header| |].
    + intros response Hr'. destruct (Hok _ Hr') as [Hst' Hlast]. split; [done|]. by destruct rest.
  - intros [= <- <-]. split; [done|]. destruct Hout as [Hs|[answer Hs]]; [exists []|exists [(url, answer)]]; rewrite ?app_nil_r; split_and!; try done; cbn;
      try lia; [by left|right; by split; [|constructor]].
Qed.
End trace.

(** The limit ends the chain: no hop past the tenth is followed. *)
Section limit.
Context {W : Type} `{IpLiterals, IpAddresses, !Resolver W, QueryText, UrlJoin} {T : Type}.
Variables (status_of : T → Z) (headers_of : T → headers).
Variables (allow_private : bool) (label : string) (error : exc_kind).
Variables (send : string → M W T) (on_discard : option (T → M W unit)).
Abbreviation hop_of := (follow_hop status_of headers_of allow_private label error send on_discard).
Abbreviation chain_of := (follow_from status_of headers_of allow_private label error send on_discard).

Lemma last_hop url (w w' : W) next : hop_of _MAX_HOPS url w ≠ (Ok (inr next), w').
Proof.
  unfold follow_hop. rewrite bind_step. destruct (try_except _ _ w) as [[v|e] w1]; [|done].
  rewrite bind_step. destruct (send url w1) as [[response|e] w2]; [|done].
  destruct ((200 <=? status_of response) && (status_of response <? 300)); [done|].
  rewrite bind_step. destruct (discard_response on_discard response w2) as [[[]|e] w3]; [|done]. destruct (location_of _) as [location|]; [|done].
  destruct (negb _); [done|]. by rewrite Nat.eqb_refl.
Qed.

Lemma more_turns extra todo hop url (w : W) : (todo + hop = S _MAX_HOPS)%nat → (0 < todo)%nat →
  chain_of (extra + todo) hop url w = chain_of todo hop url w.
Proof.
  revert hop url w. induction todo as [|todo IH]; intros hop url w Hsum Hpos; [lia|].
  rewrite Nat.add_succ_r. cbn [follow_from]. rewrite !bind_step.
  destruct (hop_of hop url w) as [[[response|next]|e] w1] eqn:E; [done| |done].
  destruct todo as [|todo]; [|apply IH; lia].
  exfalso. assert (hop = _MAX_HOPS) as -> by lia. by eapply last_hop.
Qed.
End limit.

(** ** Theorems *)

(** C35: A chain of redirects requests only checked targets.  Whatever the
    servers answer, and whether the call returns or raises: every request has
    the URL of an [http(s)] target without user information, and unless private
    targets are allowed its host is no private name or address and was resolved
    just before, to public addresses only - or could not be resolved, which the
    check lets pass.  The requests are at most eleven, start with the given URL,
    and each further one goes to the [Location] header of the answer before it,
    joined to its URL, which is an answer with a redirect status; the response
    returned is the answer of the last one and has a 2xx status. *)
Theorem follow_redirects_checked {W} `{IpLiterals, IpAddresses, !Resolver W, QueryText, UrlJoin} {T}
    (status_of : T → Z) headers_of allow_private label error send on_discard (trace : W → list net_event) url (w w' : W) r :
  net_laws status_of headers_of send on_discard trace → requests_checked allow_private (trace w) →
  follow_redirects status_of headers_of allow_private label error send on_discard url w = (r, w') →
  requests_checked allow_private (trace w') ∧
  ∃ requests, exchanges (trace w') = exchanges (trace w) ++ requests ∧ (length requests ≤ 11)%nat ∧
    (requests = [] ∨ fst <$> head requests = Some url ∧ linked requests) ∧
    (∀ response, r = Ok response → 200 <= status_of response < 300 ∧
       snd <$> last requests = Some (Some (status_of response, headers_of response))).
Proof. intros Hlaws Hw E. by eapply chain_trace. Qed.

(** C36: The loop over redirects ends by itself: were its range any longer, it
    would do and return the same, so neither the end of the range nor the
    assertion after the loop is reached. *)
Theorem follow_redirects_ends {W} `{IpLiterals, IpAddresses, !Resolver W, QueryText, UrlJoin} {T}
    (status_of : T → Z) headers_of allow_private label error send on_discard url (w : W) extra :
  follow_from status_of headers_of allow_private label error send on_discard (extra + S _MAX_HOPS) 0 url w =
  follow_redirects status_of headers_of allow_private label error send on_discard url w.
Proof. apply more_turns; unfold _MAX_HOPS; lia. Qed.

(** A network of one host, which redirects once. *)
Definition toy_addresses : IpAddresses := {|
  ip_address a := if bool_decide (a = "93.184.216.34") then Some {| is_global := true; is_multicast := false |} else None;
  inet_aton a := None
|}.
Definition toy_query : QueryText := {| unquote_plus s := s; quote_plus s := s |}.
Definition toy_resolver : Resolver (list net_event) := λ host w,
  (Ok ["93.184.216.34"], w ++ [Resolved host (Some ["93.184.216.34"])]).
Definition toy_join : UrlJoin := λ base location, Ok ("https://data.example.org" +:+ location).
Definition toy_answer (url : string) : Z * headers :=
  if bool_decide (url = "https://data.example.org/a") then (302, [("Location", "/b")]) else (200, []).
Definition toy_send (url : string) : M (list net_event) (Z * headers) := λ w, (Ok (toy_answer url), w ++ [Sent url (Some (toy_answer url))]).

Lemma follow_redirects_checked_witness :
  let w' := [Resolved "data.example.org" (Some ["93.184.216.34"]); Sent "https://data.example.org/a" (Some (302, [("Location", "/b")]));
             Resolved "data.example.org" (Some ["93.184.216.34"]); Sent "https://data.example.org/b" (Some (200, []))] in
  @requests_checked (λ _, false) toy_addresses false w' ∧
  ∃ requests, exchanges w' = [] ++ requests ∧ (length requests ≤ 11)%nat ∧
    (requests = [] ∨ fst <$> head requests = Some "https://data.example.org/a" ∧ @linked toy_join requests) ∧
    (∀ response, Ok (200, []) = Ok response → 200 <= (fst : Z * headers → Z) response < 300 ∧
       snd <$> last requests = Some (Some ((fst : Z * headers → Z) response, (snd : Z * headers → headers) response))).
Proof.
  cbv zeta. apply (@follow_redirects_checked _ (λ _, false) toy_addresses toy_resolver toy_query toy_join _ fst snd false "Download" DownloadError
    toy_send None (λ w, w) "https://data.example.org/a" [] _ (Ok (200, []))).
  - split; [|intros url w; cbn; by destruct (toy_answer url)|done]. by intros host w r w' [= <- <-].
  - intros before url answer after E. by destruct before.
  - vm_compute. reflexivity.
Defined.
