(* ===== verification/Redirects.v ===== *)
(** * Redirects of a catalog transport

    [runtime/transport/_shared.py] and [CredentialScope] of
    [domain/credentials.py]: which request follows a redirect response, with
    which headers, method and body; and what both transports share of reading
    a response.  The text of an HTTP date and of a number, the percent coding
    of a query and [urljoin] are parameters. *)
From Stdlib Require Import Ascii QArith Lqa ZArith Lia.
From stdpp Require Import strings.
From S2P Require Import Prelude PyVal Policies Urls JsonText Uris Transport Resilience Targets.
Local Close Scope Q_scope.
Local Open Scope Z_scope.
Local Open Scope py_scope.

(** [quote_plus(text)], which [urlencode] applies by default *)
Class PlainQuery := quote_plain : string → string.

(** [float(value)], [parsedate_to_datetime(value)] as a timestamp of UTC, and
    [datetime.now(UTC)]; [None] where the text is refused *)
Class RetryText (W : Type) := {
  parse_float : string → option pyfloat; parse_http_date : string → option Q; utc_now : M W Q
}.

(** [CredentialScope] *)
Record CredentialScope := {
  allowed_hosts : list string; allowed_schemes : list string; send_on_redirect : bool
}.

Definition ALLOWED_REDIRECT_SCHEMES : list string := ["http"; "https"].
Definition _CREDENTIAL_PARTS : list string :=
  ["api_key"; "apikey"; "token"; "secret"; "password"; "passwd"; "credential"; "authorization"; "signature"].

Definition _retry_after {W} `{!RetryText W} (value : option string) : M W (option pyfloat) :=
  match value with
  | None => mret None
  | Some text =>
      match parse_float text with
      | Some (FFin seconds) => mret (Some (FFin (qmax 0%Q seconds)))
      | Some _ => mret None
      | None =>
          match parse_http_date text with
          | None => mret None
          | Some parsed => now ← utc_now; mret (Some (FFin (qmax 0%Q (parsed - now)%Q)))
          end
      end
  end.

Section shared.
Context `{IpLiterals, QueryText, PlainQuery}.

Definition origin : Type := string * string * option Z.

(** [port or fallback]: port zero counts as absent. *)
Definition _origin (url : string) : origin :=
  match (parsed ← urlsplit url; p ← port parsed; Ok (parsed, p)) with
  | Raise _ => ("", "", None)
  | Ok (parsed, p) =>
      let fallback := if bool_decide (scheme parsed = "https") then 443 else 80 in
      let p := match p with Some n => if n =? 0 then fallback else n | None => fallback end in
      (str_lower (scheme parsed), default "" (hostname parsed), Some p)
  end.

Definition has_credential_part (key : string) : bool :=
  existsb (λ part, str_contains part (str_lower key)) _CREDENTIAL_PARTS.
Definition plain_query (query : string) : string :=
  String.concat "&" ((λ kv, quote_plain kv.1 +:+ "=" +:+ quote_plain kv.2) <$>
                     List.filter (λ kv, negb (has_credential_part kv.1)) (parse_qsl query)).
Definition _redacted_redirect_url (url : string) : string :=
  match urlsplit url with
  | Raise _ => "<unparseable-redirect-target>"
  | Ok parsed => urlunsplit (scheme parsed) (rpartition "@" (netloc parsed)).2 (url_path parsed) (plain_query (url_query parsed)) ""
  end.

Definition _retains_credentials (scope : option CredentialScope) (current_url next_url : string) : bool :=
  match scope with
  | None => bool_decide (_origin current_url = _origin next_url)
  | Some scope =>
      let '(scheme, host, _) := _origin next_url in
      send_on_redirect scope && bool_decide (scheme ∈ allowed_schemes scope) && bool_decide (host ∈ allowed_hosts scope)
  end.

(** [body is not None or files] *)
Definition has_payload (body : option string) (parts : list UploadPart) : bool :=
  bool_decide (is_Some body) || nonempty_list parts.

Definition relay_error (label next_url : string) : exn :=
  err TransportError (label +:+ " refused to relay a request body to a different redirect origin " +:+ _redacted_redirect_url next_url).

Definition _next_redirect_request (request : RuntimeRequest) (status : Z) (next_url : string)
    (scope : option CredentialScope) (label : string) : result RuntimeRequest :=
  parsed ← urlsplit next_url;
  raise_if (has_char "@" (netloc parsed))
    (err TransportError (label +:+ " refused a redirect target with embedded credentials."));;
  let hs := req_headers request in
  let hs := if _retains_credentials scope (url request) next_url then hs else strip_sensitive_redirect_headers hs in
  let '(m, b, parts) := redirect_method_and_body (method request) status (req_body request) (files request) in
  raise_if (has_payload b parts && negb (bool_decide (_origin (url request) = _origin next_url))) (relay_error label next_url);;
  let hs := if has_payload b parts then hs else drop_body_transfer_headers hs in
  make_runtime_request m next_url hs b parts (redirect_policy request) (Transport.max_response_bytes request) (deadline request).
End shared.

(** ** What both transports share

    The body of a response as the successive reads of it, each an action of
    the environment; past the last one a read gives [b""]. *)
Section reading.
Context {W : Type} `{!Clocked W}.

(** [request.deadline.assert_dispatchable()], when there is a deadline *)
Definition check_deadline (dl : option DeadlineMonitor) : M W unit :=
  match dl with Some m => Deadline.assert_dispatchable None None m;; mret tt | None => mret tt end.
(** [_enforce_body_limit], when there is a limit *)
Definition check_limit (limit : option Z) (size : Z) : M W unit :=
  match limit with Some n => lift_res (_enforce_body_limit size n) | None => mret tt end.

(** [try: m except kind: raise TransportError(text)] *)
Definition wrap_error {A} (kind : exc_kind) (text : string) (m : M W A) : M W A :=
  try_except m (λ e, if is_subclass (exn_kind e) kind then Some (throw (err TransportError text)) else None).

(** [for _ in range(n)] over the hops of a request *)
Fixpoint redirect_loop {R} (hop : RuntimeRequest → M W (R + RuntimeRequest)) (n : nat) (current : RuntimeRequest) : M W R :=
  match n with
  | O => throw (err TransportError "Catalog redirect limit exceeded.")
  | S n =>
      outcome ← hop current;
      match outcome with inl response => mret response | inr next => redirect_loop hop n next end
  end.
End reading.
