(* ===== verification/RedirectProofs.v ===== *)
(** * What a redirect may carry, and to whom

    The request that follows a redirect against the request it follows, the
    loop over the hops of a request, and the redaction of redirect targets. *)
From Stdlib Require Import Ascii QArith Lqa ZArith Lia.
From stdpp Require Import strings.
From S2P Require Import Prelude PyVal Policies Urls JsonText Uris Transport Resilience Targets Redirects.
Local Close Scope Q_scope.
Local Open Scope Z_scope.
Local Open Scope py_scope.

(** ** One redirect *)

Section redirected.
Context `{IpLiterals, QueryText, PlainQuery}.
Variable scope : option CredentialScope.

(** An [http(s)] URL without user information *)
Definition plain_target (url : string) : Prop :=
  ∃ parsed, urlsplit url = Ok parsed ∧ str_lower (scheme parsed) ∈ ["http"; "https"] ∧ has_char "@" (netloc parsed) = false.

(** Who may be sent the credentials given for [first] *)
Definition credentials_allowed (first url : string) : Prop :=
  match scope with
  | None => _origin url = _origin first
  | Some s => send_on_redirect s = true ∧ (_origin url).1.1 ∈ allowed_schemes s ∧ (_origin url).1.2 ∈ allowed_hosts s
  end.

(** [r] may be sent on behalf of [first]: its target is a plain one, a body goes
    unchanged to the same origin only, and every header is one of [first] and
    either safe or allowed to go there. *)
Record redirected (first r : RuntimeRequest) : Prop := {
  rd_target : plain_target (url r);
  rd_body : has_payload (req_body r) (files r) = true →
    method r = method first ∧ req_body r = req_body first ∧ files r = files first ∧ _origin (url r) = _origin (url first);
  rd_bodyless : has_payload (req_body r) (files r) = false →
    ∀ kv, kv ∈ req_headers r → str_lower kv.1 ∉ _HOP_BODYLESS_HEADERS;
  rd_headers : ∀ kv, kv ∈ req_headers r → kv ∈ req_headers first ∧
    (str_lower kv.1 ∈ _SAFE_REDIRECT_HEADERS ∨ credentials_allowed (url first) (url r));
  rd_options : redirect_policy r = redirect_policy first ∧ max_response_bytes r = max_response_bytes first ∧
    deadline r = deadline first
}.

Lemma allowed_trans a b c : credentials_allowed a b → credentials_allowed b c → credentials_allowed a c.
Proof. unfold credentials_allowed. destruct scope; [done|congruence]. Qed.

Lemma redirected_trans a b c : redirected a b → redirected b c → redirected a c.
Proof.
  intros [_ Bb _ Hb Ob] [Tc Bc Nc Hc Oc]. split; [done| |done| |].
  - intros Hp. destruct (Bc Hp) as (Em & Eb & Ef & Eo). rewrite Eb, Ef in Hp. destruct (Bb Hp) as (Em' & Eb' & Ef' & Eo').
    split_and!; congruence.
  - intros kv Hkv. destruct (Hc kv Hkv) as [Hkv' Hs]. destruct (Hb kv Hkv') as [Hkv'' Hs']. split; [done|].
    destruct Hs as [Hs|Hs]; [by left|]. destruct Hs' as [Hs'|Hs']; [by left|]. right. by eapply allowed_trans.
  - destruct Ob as (? & ? & ?), Oc as (? & ? & ?). split_and!; congruence.
Qed.

Lemma retains_allowed u v : _retains_credentials scope u v = true → credentials_allowed u v.
Proof.
  unfold _retains_credentials, credentials_allowed. destruct scope as [s|].
  - destruct (_origin v) as [[sch host] p]. cbn. intros Hs. apply andb_true_iff in Hs as [[Hr Hs]%andb_true_iff Hh].
    by apply bool_decide_eq_true in Hs, Hh.
  - intros E%bool_decide_eq_true. congruence.
Qed.

Lemma make_request_fields m u h b parts policy limit dl r :
  make_runtime_request m u h b parts policy limit dl = Ok r →
  r = {| method := m; url := u; req_headers := h; req_body := b; files := parts; redirect_policy := policy;
         max_response_bytes := limit; deadline := dl |}.
Proof. unfold make_runtime_request, _freeze_request_headers. intros E. inv_ok. done. Qed.

Lemma rewritten_payload m status b parts m' b' parts' :
  redirect_method_and_body m status b parts = (m', b', parts') → has_payload b' parts' = true →
  m' = m ∧ b' = b ∧ parts' = parts.
Proof. unfold redirect_method_and_body. intros E Hp. repeat case_match; simplify_eq; done. Qed.

Lemma stripped_kept h kv : kv ∈ strip_sensitive_redirect_headers h → kv ∈ h ∧ str_lower kv.1 ∈ _SAFE_REDIRECT_HEADERS.
Proof.
  unfold strip_sensitive_redirect_headers. intros [Hin Hs]%list_elem_of_In%filter_In.
  split; [by apply list_elem_of_In|]. by apply bool_decide_eq_true in Hs.
Qed.
Lemma dropped_kept h kv : kv ∈ drop_body_transfer_headers h → kv ∈ h ∧ str_lower kv.1 ∉ _HOP_BODYLESS_HEADERS.
Proof.
  unfold drop_body_transfer_headers. intros [Hin Hs]%list_elem_of_In%filter_In.
  split; [by apply list_elem_of_In|]. apply negb_true_iff in Hs. by apply bool_decide_eq_false in Hs.
Qed.

(** The next request of a chain, for a target whose scheme was checked *)
Lemma next_redirected request status next_url label next :
  _next_redirect_request request status next_url scope label = Ok next →
  (∀ parsed, urlsplit next_url = Ok parsed → str_lower (scheme parsed) ∈ ["http"; "https"]) →
  url next = next_url ∧ redirected request next.
Proof.
  unfold _next_redirect_request. intros E Hsch. apply bind_ok in E as (parsed & Hp & E).
  apply bind_ok in E as ([] & Hat%raise_if_ok & E).
  destruct (redirect_method_and_body _ _ _ _) as [[m b] parts] eqn:Er.
  apply bind_ok in E as ([] & Hb%raise_if_ok & E). apply make_request_fields in E as ->.
  assert (Hh : ∀ h kv, kv ∈ (if has_payload b parts then h else drop_body_transfer_headers h) → kv ∈ h).
  { intros h kv. destruct (has_payload b parts); [done|]. by intros [? _]%dropped_kept. }
  split; [done|]. split; cbn.
  - exists parsed. auto.
  - intros Hpay. destruct (rewritten_payload _ _ _ _ _ _ _ Er Hpay) as (-> & -> & ->). rewrite Hpay in Hb.
    apply negb_false_iff, bool_decide_eq_true in Hb. done.
  - intros Hpay. rewrite Hpay. intros kv Hkv. by apply dropped_kept in Hkv as [_ ?].
  - intros kv Hkv%Hh. destruct (_retains_credentials scope (url request) next_url) eqn:Ek.
    + split; [done|]. right. by apply retains_allowed.
    + apply stripped_kept in Hkv as [??]. auto.
  - done.
Qed.
End redirected.

(** ** The hops of a request *)

(** What the network sees: a request, and the end of the response to it. *)
Inductive exchange (Q : Type) := Opened (q : Q) | Closed.
Arguments Opened {Q} q.
Arguments Closed {Q}.

Definition exchanges {Q} (qs : list Q) : list (exchange Q) := mjoin ((λ q, [Opened q; Closed]) <$> qs).

Section loop.
Context `{IpLiterals, QueryText, PlainQuery} {W Q : Type}.
Variables (scope : option CredentialScope) (sent_as : RuntimeRequest → Q → Prop) (trace : W → list (exchange Q)).

(** [m] leaves the trace alone. *)
Definition silent {A} (m : M W A) : Prop := ∀ w, trace (m w).2 = trace w.

(** What a transport does for a request: nothing yet, or a request that failed,
    or a complete exchange. *)
Definition complete (r : RuntimeRequest) (es : list (exchange Q)) : Prop := ∃ q, sent_as r q ∧ es = [Opened q; Closed].
Definition hop_events (r : RuntimeRequest) (es : list (exchange Q)) : Prop :=
  es = [] ∨ (∃ q, sent_as r q ∧ es = [Opened q]) ∨ complete r es.

Definition hop_lawful {R} (hop : RuntimeRequest → M W (R + RuntimeRequest)) : Prop := ∀ r w out w',
  hop r w = (out, w') → ∃ es, trace w' = trace w ++ es ∧
    match out with
    | Ok (inl _) => complete r es
    | Ok (inr next) => complete r es ∧ redirect_policy r = FOLLOW ∧ redirected scope r next
    | Raise _ => hop_events r es
    end.

(** The requests [rs] made for the first one: itself, then redirected ones *)
Definition request_chain (first : RuntimeRequest) (rs : list RuntimeRequest) : Prop :=
  ∀ i r, rs !! i = Some r →
    match i with O => r = first | S _ => redirect_policy first = FOLLOW ∧ redirected scope first r end.

(** What was sent for them, every response ended before the next request; the
    last one may have got no response. *)
Definition transport_log (first : RuntimeRequest) (limit : nat) (returned : bool) (es : list (exchange Q)) : Prop :=
  ∃ rs answered lost, request_chain first rs ∧ Forall2 sent_as rs (answered ++ lost) ∧
    es = exchanges answered ++ (Opened <$> lost) ∧ (length lost ≤ 1)%nat ∧ (length rs ≤ limit)%nat ∧
    (returned = true → lost = [] ∧ answered ≠ []).

Lemma log_none first limit e : transport_log first limit (is_ok (@Raise RuntimeResponse e)) [].
Proof. exists [], [], []. by split_and!; try (cbn; lia). Qed.

Lemma chain_one first : request_chain first [first].
Proof. intros [|i] r; cbn; [by intros [= <-]|done]. Qed.

Lemma chain_next first next rs : redirect_policy first = FOLLOW → redirected scope first next →
  request_chain next rs → request_chain first (first :: rs).
Proof.
  intros Hf Hr Hrs [|i] r; cbn; [by intros [= <-]|]. intros Hi. split; [done|]. specialize (Hrs _ _ Hi). destruct i as [|i].
  - by subst r.
  - by eapply redirected_trans, Hrs.
Qed.

Lemma loop_log {R} (hop : RuntimeRequest → M W (R + RuntimeRequest)) n r w out w' : hop_lawful hop →
  redirect_loop hop n r w = (out, w') → ∃ es, trace w' = trace w ++ es ∧ transport_log r n (is_ok out) es.
Proof.
  intros Hhop. revert r w. induction n as [|n IH]; intros r w.
  { intros [= <- <-]. exists []. rewrite app_nil_r. split; [done|]. exists [], [], []. by split_and!; try (cbn; lia). }
  cbn [redirect_loop]. rewrite bind_step. destruct (hop r w) as [o w1] eqn:Eh.
  destruct (Hhop _ _ _ _ Eh) as (es & Ht & Ho). destruct o as [[response|next]|e].
  - intros [= <- <-]. exists es. split; [done|]. destruct Ho as (q & Hq & ->). exists [r], [q], [].
    split_and!; [apply chain_one|by repeat constructor|done|cbn; lia..|done].
  - destruct Ho as ((q & Hq & ->) & Hf & Hr). intros E.
    destruct (IH _ _ E) as (es' & Ht' & rs & qs & lost & Hrs & Hall & -> & Hl & Hn & Hc).
    exists ([Opened q; Closed] ++ exchanges qs ++ (Opened <$> lost)). split; [by rewrite Ht', Ht, <- app_assoc|].
    exists (r :: rs), (q :: qs), lost. split_and!; [by eapply chain_next|by constructor|done|done|cbn; lia|].
    intros Hok. by destruct (Hc Hok) as [-> _].
  - intros [= <- <-]. exists es. split; [done|]. destruct Ho as [-> | [(q & Hq & ->) | (q & Hq & ->)]].
    + exists [], [], []. by split_and!; try (cbn; lia).
    + exists [r], [], [q]. split_and!; [apply chain_one|by repeat constructor|done|cbn; lia..|done].
    + exists [r], [q], []. split_and!; [apply chain_one|by repeat constructor|done|cbn; lia..|done].
Qed.

(** ** Silence *)

Lemma silent_ret {A} (a : A) : silent (mret a).
Proof. done. Qed.
Lemma silent_lift {A} (m : result A) : silent (lift_res m).
Proof. done. Qed.
Lemma silent_throw {A} e : silent (@throw W A e).
Proof. done. Qed.
Lemma silent_bind {A B} (m : M W A) (k : A → M W B) : silent m → (∀ a, silent (k a)) → silent (m ≫= k).
Proof. intros Hm Hk w. rewrite bind_step. specialize (Hm w). destruct (m w) as [[a|e] w1]; [|done]. by rewrite Hk. Qed.
Lemma silent_wrap {A} kind text (m : M W A) : silent m → silent (wrap_error kind text m).
Proof. intros Hm w. unfold wrap_error, try_except. specialize (Hm w). destruct (m w) as [[a|e] w1]; [done|]. by destruct (is_subclass _ _). Qed.

(** [wrap_error] only changes what is raised. *)
Lemma wrap_log {A} kind text (m : M W A) w : trace (wrap_error kind text m w).2 = trace (m w).2.
Proof. unfold wrap_error, try_except. destruct (m w) as [[a|e] w1]; [done|]. by destruct (is_subclass _ _). Qed.
Lemma wrap_ok {A} kind text (m : M W A) w a w' : wrap_error kind text m w = (Ok a, w') ↔ m w = (Ok a, w').
Proof.
  unfold wrap_error, try_except. destruct (m w) as [[b|e] w1]; [done|]. split; [|done]. by destruct (is_subclass _ _).
Qed.


Context `{!Clocked W}.
Hypothesis clock_silent : silent clock_now.

Lemma silent_check dl : silent (check_deadline dl).
Proof.
  destruct dl as [m|]; [|done]. apply silent_bind; [|done]. unfold Deadline.assert_dispatchable, Deadline.remaining.
  apply silent_bind; [by apply silent_bind|]. intros q. case_match; [|done]. unfold Deadline._raise_exhausted.
  by apply silent_bind.
Qed.
Lemma silent_limit limit size : silent (check_limit limit size).
Proof. by destruct limit. Qed.
Lemma silent_retry_after `{!RetryText W} value : silent utc_now → silent (_retry_after value).
Proof. intros Hu. unfold _retry_after. repeat case_match; try done. by apply silent_bind. Qed.
Lemma silent_remaining m : silent (Deadline.remaining m).
Proof. by apply silent_bind. Qed.
End loop.
