(* ===== verification/Urllib.v ===== *)
(** * The urllib transport

    [UrllibCatalogTransport] of [runtime/transport/urllib_transport.py], over
    what [urllib.request] does: the opener is the environment, and an
    [HTTPError], which is both an exception and a response, is one of the two
    ways it answers.  TLS contexts and the assembly of the opener are left out. *)
From Stdlib Require Import Ascii QArith Lqa ZArith Lia.
From stdpp Require Import strings.
From S2P Require Import Prelude PyVal Policies Urls JsonText Uris Transport Resilience Targets Redirects.
Local Close Scope Q_scope.
Local Open Scope Z_scope.
Local Open Scope py_scope.

Module Urllib.

(** A response of [urllib]: [read()] of the whole body, the successive
    [read(64 * 1024)] before the body ends, and [close()] *)
Record http_response (W : Type) := {
  status : Z; response_headers : headers; read_all : M W pyval; reads : list (M W pyval); close_response : M W unit
}.
Arguments status {W}. Arguments response_headers {W}. Arguments read_all {W}. Arguments reads {W}. Arguments close_response {W}.

(** How [opener.open(...)] answers *)
Inductive opened (W : Type) :=
| Returned (response : http_response W)
| RaisedHTTPError (exc : http_response W).
Arguments Returned {W} response. Arguments RaisedHTTPError {W} exc.

(** [self._opener.open(Request(url, data, headers, method), timeout=timeout)] *)
Class Opener (W : Type) := opener_open : RuntimeRequest → Q → M W (opened W).

Record UrllibCatalogTransport := {
  budget : TimeBudget; max_redirects : Z; credential_scope : option CredentialScope
}.

(** [_closed] and the environment *)
Record transport_state (W : Type) := TransportState { closed : bool; world : W }.
Arguments TransportState {W}. Arguments closed {W}. Arguments world {W}.

Definition _REDIRECT_CODES : list Z := [301; 302; 303; 307; 308].

(** ** Headers and bodies *)

(** [next(name for name in result if name.lower() == key.lower())] and the
    update of that entry *)
Fixpoint join_header (key value : string) (result : headers) : headers :=
  match result with
  | [] => [(key, value)]
  | (name, v) :: r => if bool_decide (str_lower name = str_lower key) then (name, v +:+ "," +:+ value) :: r
                      else (name, v) :: join_header key value r
  end.
Definition _header_map (h : headers) : headers := fold_left (λ result kv, join_header kv.1 kv.2 result) h [].

Definition _header (h : headers) (name : string) : option string :=
  snd <$> head (List.filter (λ kv, bool_decide (str_lower kv.1 = name)) h).

Section urllib.
Context {W : Type} `{IpLiterals, QueryText, PlainQuery, UrlJoin, !Clocked W, !RetryText W, !Opener W}.

Definition _checked_read (chunk : M W pyval) (request : RuntimeRequest) : M W pyval :=
  check_deadline (deadline request);;
  chunk ← chunk;
  check_deadline (deadline request);;
  mret chunk.

(** The [while True] of [_read_response_body]: [parts] read so far *)
Fixpoint read_parts (request : RuntimeRequest) (parts : string) (rest : list (M W pyval)) : M W string :=
  match rest with
  | [] => _checked_read (mret (PyBytes "" "")) request;; mret parts
  | chunk :: rest =>
      chunk ← _checked_read chunk request;
      match chunk with
      | PyBytes raw _ =>
          if negb (str_nonempty raw) then mret parts
          else
            check_limit (max_response_bytes request) (Z.of_nat (String.length (parts +:+ raw)));;
            read_parts request (parts +:+ raw) rest
      | _ => throw (err TransportError "urllib yielded a non-byte catalog response chunk.")
      end
  end.

Definition _read_response_body (response : http_response W) (request : RuntimeRequest) : M W string :=
  if bool_decide (max_response_bytes request = None) && bool_decide (deadline request = None) then
    body ← read_all response;
    match body with
    | PyBytes raw _ => mret raw
    | _ => throw (err TransportError "urllib returned a non-byte catalog response body.")
    end
  else read_parts request "" (reads response).

(** What [_read_current] and [_open_stream] compute first *)
Definition request_timeout (self : UrllibCatalogTransport) (request : RuntimeRequest) : M W Q :=
  let timeout := qmin (read_budget (budget self)) (total (budget self)) in
  match deadline request with
  | None => mret timeout
  | Some m => Deadline.assert_dispatchable None None m;; left ← Deadline.remaining m; mret (qmin timeout left)
  end.

(** [try: return (status, headers, body) finally: response.close()] *)
Definition read_closing (response : http_response W) (request : RuntimeRequest) : M W (Z * headers * string) :=
  try_finally
    (body ← _read_response_body response request;
     mret (status response, _header_map (response_headers response), body))
    (close_response response).

(** The exceptions of the [try] are those of opening and of a response that was
    returned; what reading an [HTTPError] raises, its own handler lets through. *)
Definition _read_current (self : UrllibCatalogTransport) (request : RuntimeRequest) : M W (Z * headers * string) :=
  timeout ← request_timeout self request;
  outcome ← wrap_error OSError "urllib could not complete the catalog request."
    (wrap_error HTTPException "urllib lost the catalog connection mid-response."
      (answer ← opener_open request timeout;
       match answer with
       | Returned response => r ← read_closing response request; mret (inl r)
       | RaisedHTTPError exc => mret (inr exc)
       end));
  match outcome with
  | inl r => mret r
  | inr exc => read_closing exc request
  end.

Definition _redirect_request (self : UrllibCatalogTransport) (request : RuntimeRequest) (status : Z) (h : headers)
    : result (option RuntimeRequest) :=
  match _header h "location" with
  | Some location =>
      if negb (bool_decide (status ∈ _REDIRECT_CODES)) then Ok None
      else
        next_url ← (match urljoin (url request) location with
                    | Raise e => if is_subclass (exn_kind e) ValueError
                                 then Raise (err TransportError ("urllib received an unusable redirect target " +:+ _redacted_redirect_url location))
                                 else Raise e
                    | Ok next_url => Ok next_url
                    end);
        parsed ← urlsplit next_url;
        raise_if (negb (bool_decide (str_lower (scheme parsed) ∈ ALLOWED_REDIRECT_SCHEMES)))
          (err TransportError ("Refusing to follow non-HTTP redirect to " +:+ _redacted_redirect_url next_url));;
        Some <$> _next_redirect_request request status next_url (credential_scope self) "urllib"
  | None => Ok None
  end.

Definition _runtime_response (status : Z) (h : headers) (body : string) : M W RuntimeResponse :=
  ra ← _retry_after (_header h "retry-after");
  lift_res (make_runtime_response status h body ra).

(** The body of the loop of [send]: a response, or the next request *)
Definition hop (self : UrllibCatalogTransport) (current : RuntimeRequest) : M W (RuntimeResponse + RuntimeRequest) :=
  '(status, h, body) ← _read_current self current;
  match redirect_policy current with
  | NO_FOLLOW => r ← _runtime_response status h body; mret (inl r)
  | FOLLOW =>
      next ← lift_res (_redirect_request self current status h);
      match next with
      | None => r ← _runtime_response status h body; mret (inl r)
      | Some next => mret (inr next)
      end
  end.

Definition multipart_error : exn :=
  err TransportError "Multipart requests require the httpx transport; install datasluice[http] or inject an httpx transport.".

Definition on_world {A} (m : M W A) : M (transport_state W) A :=
  zoom world (λ w s, TransportState (closed s) w) m.

(** The two guards [send] and [_open_stream] start with *)
Definition assert_usable (request : RuntimeRequest) : M (transport_state W) unit :=
  is_closed ← read closed;
  lift_res (raise_if is_closed (err TransportError "The urllib catalog transport is closed."));;
  lift_res (raise_if (nonempty_list (files request)) multipart_error).

Definition send (self : UrllibCatalogTransport) (request : RuntimeRequest) : M (transport_state W) RuntimeResponse :=
  assert_usable request;;
  on_world (redirect_loop (hop self) (Z.to_nat (max_redirects self + 1)) request).

Definition close : M (transport_state W) unit := modify (λ s, TransportState true (world s)).

(** ** Streams *)

Definition _open_stream (self : UrllibCatalogTransport) (request : RuntimeRequest)
    : M (transport_state W) (Z * headers * http_response W) :=
  assert_usable request;;
  lift_res (raise_if (match redirect_policy request with NO_FOLLOW => false | FOLLOW => true end)
              (err ValueError "Streaming catalog requests must explicitly disable redirect following."));;
  on_world
    (timeout ← request_timeout self request;
     answer ← wrap_error OSError "urllib could not open the catalog response stream."
       (wrap_error HTTPException "urllib lost the catalog connection before streaming its response."
         (opener_open request timeout));
     let response := match answer with Returned response => response | RaisedHTTPError exc => exc end in
     mret (status response, _header_map (response_headers response), response)).

(** The chunks a consumer gets of [_stream_chunks], and how the generator ends:
    [take] is how many it asks for.  The type of a chunk is not checked here:
    anything but bytes fails at [len]. *)
Fixpoint stream_from (request : RuntimeRequest) (size : Z) (take : nat) (rest : list (M W pyval))
    : M W (list string * option exn) := λ w,
  match take with
  | O => (Ok ([], None), w)
  | S take =>
      let chunk := match rest with [] => mret (PyBytes "" "") | chunk :: _ => chunk end in
      let step : M W (option string) :=
        wrap_error OSError "urllib lost the catalog connection mid-response."
          (wrap_error HTTPException "urllib lost the catalog connection mid-response."
            (chunk ← _checked_read chunk request;
             match chunk with
             | PyBytes raw _ =>
                 if negb (str_nonempty raw) then mret None
                 else check_limit (max_response_bytes request) (size + Z.of_nat (String.length raw));; mret (Some raw)
             | _ => throw (err TypeError "object has no len()")
             end)) in
      match step w with
      | (Raise e, w') => (Ok ([], Some e), w')
      | (Ok None, w') => (Ok ([], None), w')
      | (Ok (Some raw), w') =>
          match stream_from request (size + Z.of_nat (String.length raw)) take (tail rest) w' with
          | (Ok (chunks, e), w'') => (Ok (raw :: chunks, e), w'')
          | (Raise e, w'') => (Raise e, w'')
          end
      end
  end.
Definition _stream_chunks (response : http_response W) (request : RuntimeRequest) (take : nat)
    : M W (list string * option exn) := stream_from request 0 take (reads response).
End urllib.
End Urllib.
