(* ===== verification/Httpx.v ===== *)
(** * The httpx transports

    [HttpxCatalogTransport] and [AsyncHttpxCatalogTransport] of
    [runtime/transport/httpx_transport.py], over what an [httpx] client does:
    the client and its responses are the environment.  The asynchronous
    definitions await what the synchronous ones call. *)
From Stdlib Require Import Ascii QArith Lqa ZArith Lia.
From stdpp Require Import strings.
From S2P Require Import Prelude PyVal Policies Urls JsonText Uris Transport Resilience Targets Redirects.
Local Close Scope Q_scope.
Local Open Scope Z_scope.
Local Open Scope py_scope.

Module Httpx.

(** A response of [httpx]: [is_redirect], [headers.get(name)],
    [dict(headers)], [content] (or [await aread()]), the successive chunks of
    [iter_bytes()] (or [aiter_bytes()]) and the step that ends them, and
    [close()] (or [await aclose()]) *)
Record http_response (W : Type) := {
  status_of : Z; is_redirect : bool; header_of : string → option string; header_dict : headers;
  content : M W string; chunks_of : list (M W string); end_of_chunks : M W unit; close_response : M W unit
}.
Arguments status_of {W}. Arguments is_redirect {W}. Arguments header_of {W}. Arguments header_dict {W}.
Arguments content {W}. Arguments chunks_of {W}. Arguments end_of_chunks {W}. Arguments close_response {W}.

(** The arguments of [client.build_request(...)] *)
Record httpx_request := {
  hq_method : string; hq_url : string; hq_headers : headers; hq_content : option string;
  hq_files : list UploadPart; hq_timeout : option (list (string * Q))
}.

(** [client.timeout.as_dict()], [client.send(...)] and [client.close()] *)
Class HttpxClient (W : Type) := {
  client_timeout : list (string * option Q);
  client_send : httpx_request → bool → M W (http_response W);
  client_close : M W unit
}.

(** The attributes that do not change; [label] is that of [_assert_open] *)
Record _HttpxTransportBase := {
  _label : string; _max_redirects : Z; _credential_scope : option CredentialScope
}.
Definition make_httpx_transport (max_redirects : Z) (scope : option CredentialScope) : _HttpxTransportBase :=
  {| _label := "httpx"; _max_redirects := max_redirects; _credential_scope := scope |}.
Definition make_async_httpx_transport (max_redirects : Z) (scope : option CredentialScope) : _HttpxTransportBase :=
  {| _label := "async httpx"; _max_redirects := max_redirects; _credential_scope := scope |}.

Record transport_state (W : Type) := TransportState { closed : bool; world : W }.
Arguments TransportState {W}. Arguments closed {W}. Arguments world {W}.

Section httpx.
Context {W : Type} `{IpLiterals, QueryText, PlainQuery, UrlJoin, !Clocked W, !RetryText W, !HttpxClient W}.

(** ** Requests *)

Definition _require_plain_http_target (url : string) : result unit :=
  parsed ← urlsplit url;
  raise_if (negb (bool_decide (str_lower (scheme parsed) ∈ ALLOWED_REDIRECT_SCHEMES)))
    (err ValueError ("non-HTTP redirect target scheme " +:+ scheme parsed));;
  _ ← port parsed;
  Ok tt.

Definition _build_request (request : RuntimeRequest) : M W httpx_request :=
  options ← match deadline request with
            | None => mret None
            | Some m =>
                Deadline.assert_dispatchable None None m;;
                remaining ← Deadline.remaining m;
                mret (Some ((λ kv, (kv.1, match kv.2 with Some v => qmin v remaining | None => remaining end)) <$> client_timeout))
            end;
  if nonempty_list (files request) then
    mret {| hq_method := method request; hq_url := url request; hq_headers := drop_body_transfer_headers (req_headers request);
            hq_content := None; hq_files := files request; hq_timeout := options |}
  else
    mret {| hq_method := method request; hq_url := url request; hq_headers := req_headers request;
            hq_content := req_body request; hq_files := []; hq_timeout := options |}.

(** [try: next_url = urljoin(...); _require_plain_http_target(next_url) except ValueError] *)
Definition _redirect_request (request : RuntimeRequest) (status : Z) (location : string) (scope : option CredentialScope)
    : result RuntimeRequest :=
  next_url ← (match (next_url ← urljoin (url request) location; _require_plain_http_target next_url;; Ok next_url) with
              | Raise e => if is_subclass (exn_kind e) ValueError
                           then Raise (err TransportError ("httpx received an unusable redirect target " +:+ _redacted_redirect_url location))
                           else Raise e
              | Ok next_url => Ok next_url
              end);
  _next_redirect_request request status next_url scope "httpx".

(** [_follow_location] of [_shared.py] *)
Definition _follow_location (request : RuntimeRequest) (response : http_response W) : option string :=
  match redirect_policy request with
  | NO_FOLLOW => None
  | FOLLOW => if is_redirect response then header_of response "location" else None
  end.

(** ** Bodies *)

Definition _check_read_bounds (request : RuntimeRequest) (size : Z) : M W unit :=
  check_deadline (deadline request);;
  check_limit (max_response_bytes request) size.

Fixpoint read_chunks (request : RuntimeRequest) (body : string) (chunks : list (M W string)) : M W string :=
  match chunks with
  | [] => mret body
  | chunk :: chunks =>
      chunk ← chunk;
      _check_read_bounds request (Z.of_nat (String.length body) + Z.of_nat (String.length chunk));;
      read_chunks request (body +:+ chunk) chunks
  end.

Definition unbounded (request : RuntimeRequest) : bool :=
  bool_decide (max_response_bytes request = None) && bool_decide (deadline request = None).

Definition _read_body (response : http_response W) (request : RuntimeRequest) : M W string :=
  if unbounded request then content response
  else
    body ← read_chunks request "" (chunks_of response);
    end_of_chunks response;;
    check_deadline (deadline request);;
    mret body.
Definition _read_body_async : http_response W → RuntimeRequest → M W string := _read_body.

Definition _runtime_response (response : http_response W) (request : RuntimeRequest) : M W RuntimeResponse :=
  try_finally
    (wrap_error HttpxError "httpx could not read the catalog response."
      (body ← _read_body response request;
       ra ← _retry_after (header_of response "retry-after");
       lift_res (make_runtime_response (status_of response) (header_dict response) body ra)))
    (close_response response).

Definition _runtime_response_async (response : http_response W) (request : RuntimeRequest) : M W RuntimeResponse :=
  try_finally
    (body ← wrap_error HttpxError "httpx could not read the catalog response." (_read_body_async response request);
     ra ← _retry_after (header_of response "retry-after");
     lift_res (make_runtime_response (status_of response) (header_dict response) body ra))
    (close_response response).

(** ** Sending *)

(** The body of the loops of [send], up to the reading of the response *)
Definition hop_with (runtime_response : http_response W → RuntimeRequest → M W RuntimeResponse) (self : _HttpxTransportBase)
    (current : RuntimeRequest) : M W (RuntimeResponse + RuntimeRequest) :=
  response ← wrap_error HttpxError "httpx could not complete the catalog request."
    (q ← _build_request current; client_send q (negb (unbounded current)));
  match _follow_location current response with
  | None => r ← runtime_response response current; mret (inl r)
  | Some location =>
      next ← try_finally (lift_res (_redirect_request current (status_of response) location (_credential_scope self)))
               (close_response response);
      mret (inr next)
  end.
Definition hop : _HttpxTransportBase → RuntimeRequest → M W (RuntimeResponse + RuntimeRequest) := hop_with _runtime_response.
Definition hop_async : _HttpxTransportBase → RuntimeRequest → M W (RuntimeResponse + RuntimeRequest) := hop_with _runtime_response_async.

Definition on_world {A} (m : M W A) : M (transport_state W) A :=
  zoom world (λ w s, TransportState (closed s) w) m.

Definition _assert_open (self : _HttpxTransportBase) : M (transport_state W) unit :=
  is_closed ← read closed;
  lift_res (raise_if is_closed (err TransportError ("The " +:+ _label self +:+ " catalog transport is closed."))).

Definition send (self : _HttpxTransportBase) (request : RuntimeRequest) : M (transport_state W) RuntimeResponse :=
  _assert_open self;;
  on_world (redirect_loop (hop self) (Z.to_nat (_max_redirects self + 1)) request).
Definition send_async (self : _HttpxTransportBase) (request : RuntimeRequest) : M (transport_state W) RuntimeResponse :=
  _assert_open self;;
  on_world (redirect_loop (hop_async self) (Z.to_nat (_max_redirects self + 1)) request).

(** [close], and [aclose] of the asynchronous transport *)
Definition close : M (transport_state W) unit :=
  is_closed ← read closed;
  if (is_closed : bool) then mret tt
  else modify (λ s, TransportState true (world s));; on_world client_close.

(** ** Streams *)

Definition _assert_streamable (self : _HttpxTransportBase) (request : RuntimeRequest) : M (transport_state W) unit :=
  _assert_open self;;
  lift_res (raise_if (match redirect_policy request with NO_FOLLOW => false | FOLLOW => true end)
              (err ValueError "Streaming catalog requests must explicitly disable redirect following.")).

Definition _stream_metadata (response : http_response W) : M W (Z * headers * option pyfloat) :=
  ra ← _retry_after (header_of response "retry-after");
  mret (status_of response, header_dict response, ra).

(** [send_stream], of both transports: the metadata and the open response *)
Definition send_stream (self : _HttpxTransportBase) (request : RuntimeRequest)
    : M (transport_state W) (Z * headers * option pyfloat * http_response W) :=
  _assert_streamable self request;;
  on_world
    (response ← wrap_error HttpxError "httpx could not open the catalog response stream."
       (q ← _build_request request; client_send q true);
     metadata ← _stream_metadata response;
     mret (metadata, response)).

Definition stream_error : string := "httpx could not read the catalog response stream.".

(** The chunks a consumer gets of [_stream_chunks], and how the generator ends:
    [take] is how many it asks for. *)
Fixpoint stream_from (response : http_response W) (request : RuntimeRequest) (seen : Z) (take : nat) (rest : list (M W string))
    : M W (list string * option exn) := λ w,
  match take, rest with
  | O, _ => (Ok ([], None), w)
  | S _, [] =>
      match wrap_error HttpxError stream_error (end_of_chunks response;; check_deadline (deadline request)) w with
      | (Raise e, w') => (Ok ([], Some e), w')
      | (Ok _, w') => (Ok ([], None), w')
      end
  | S take, chunk :: rest =>
      let step : M W string :=
        wrap_error HttpxError stream_error
          (chunk ← chunk; _check_read_bounds request (seen + Z.of_nat (String.length chunk));; mret chunk) in
      match step w with
      | (Raise e, w') => (Ok ([], Some e), w')
      | (Ok raw, w') =>
          match stream_from response request (seen + Z.of_nat (String.length raw)) take rest w' with
          | (Ok (chunks, e), w'') => (Ok (raw :: chunks, e), w'')
          | (Raise e, w'') => (Raise e, w'')
          end
      end
  end.
Definition _stream_chunks (response : http_response W) (request : RuntimeRequest) (take : nat)
    : M W (list string * option exn) := stream_from response request 0 take (chunks_of response).
End httpx.
End Httpx.
