(* ===== verification/TransportProofs.v ===== *)
(** * The transports keep credentials where they belong

    The [urllib] and the [httpx] transports of [Urllib] and [Httpx]: what they
    send along a chain of redirects, that they end every response, that both
    follow the same redirects, and how reading a body fails. *)
From Stdlib Require Import Ascii QArith Lqa ZArith Lia.
From stdpp Require Import strings.
From S2P Require Import Prelude PyVal Policies Urls JsonText Uris Transport Resilience Targets Redirects RedirectProofs Urllib Httpx.
Local Close Scope Q_scope.
Local Open Scope Z_scope.
Local Open Scope py_scope.

(** ** urllib *)

Module UrllibProofs.
Import Urllib.
Section urllib.
Context {W : Type} `{IpLiterals, QueryText, PlainQuery, UrlJoin, !Clocked W, !RetryText W, !Opener W}.
Variable trace : W → list (exchange RuntimeRequest).

Definition response_laws (response : http_response W) : Prop :=
  silent trace (read_all response) ∧ Forall (silent trace) (reads response) ∧
  ∀ w, trace (close_response response w).2 = trace w ++ [Closed].
Definition answer_response (answer : opened W) : http_response W :=
  match answer with Returned response => response | RaisedHTTPError exc => exc end.

(** The environment records the requests and the ends of their responses. *)
Record opener_laws := {
  urllib_clock : silent trace clock_now;
  urllib_utc : silent trace utc_now;
  open_recorded : ∀ r t w, trace (opener_open r t w).2 = trace w ++ [Opened r];
  open_response : ∀ r t w answer w', opener_open r t w = (Ok answer, w') → response_laws (answer_response answer)
}.
Hypothesis laws : opener_laws.

Lemma silent_read rd request : silent trace rd → silent trace (_checked_read rd request).
Proof.
  intros Hrd. unfold _checked_read. apply silent_bind; [apply silent_check, laws|]. intros _.
  apply silent_bind; [done|]. intros chunk. apply silent_bind; [apply silent_check, laws|]. intros _. apply silent_ret.
Qed.

Lemma silent_parts request parts rest : Forall (silent trace) rest → silent trace (read_parts request parts rest).
Proof.
  intros Hrest. revert parts. induction Hrest as [|rd rest Hrd _ IH]; intros parts; cbn [read_parts].
  { apply silent_bind; [by apply silent_read|]. intros _. apply silent_ret. }
  apply silent_bind; [by apply silent_read|]. intros chunk. destruct chunk; try apply silent_throw.
  destruct (negb _); [apply silent_ret|]. apply silent_bind; [apply silent_limit|]. intros _. apply IH.
Qed.

Lemma silent_body response request : response_laws response → silent trace (_read_response_body response request).
Proof.
  intros (Hall & Hreads & _). unfold _read_response_body. destruct (_ && _); [|by apply silent_parts].
  apply silent_bind; [done|]. intros b. by destruct b.
Qed.

Lemma closing_log response request w : response_laws response →
  trace (read_closing response request w).2 = trace w ++ [Closed].
Proof.
  intros Hl. unfold read_closing, try_finally. pose proof Hl as (_ & _ & Hc).
  set (m := body ← _; _). assert (Hs : silent trace m).
  { apply silent_bind; [by apply silent_body|]. intros b. apply silent_ret. }
  clearbody m. specialize (Hs w). destruct (m w) as [r w1]. cbn in Hs. specialize (Hc w1). destruct (close_response response w1) as [[[]|e] w2];
    cbn in *; by rewrite Hc, Hs.
Qed.

Lemma silent_timeout self request : silent trace (request_timeout self request).
Proof.
  unfold request_timeout. destruct (deadline request) as [m|] eqn:E; [|done].
  pose proof (silent_check trace (urllib_clock laws) (Some m)) as Hc. unfold check_deadline in Hc.
  apply silent_bind; [|intros _; apply silent_bind; [apply silent_remaining, laws|]; intros q; apply silent_ret].
  intros w. specialize (Hc w). rewrite bind_step in Hc. by destruct (Deadline.assert_dispatchable None None m w) as [[a|e] w1].
Qed.

Lemma current_log self request w r w' : _read_current self request w = (r, w') →
  ∃ es, trace w' = trace w ++ es ∧ if is_ok r then complete eq request es else hop_events eq request es.
Proof.
  unfold _read_current. rewrite bind_step. pose proof (silent_timeout self request w) as Ht.
  destruct (request_timeout self request w) as [[t|e] w1]; cbn in Ht.
  2:{ intros [= <- <-]. exists []. rewrite app_nil_r. split; [done|by left]. }
  rewrite bind_step. set (body := answer ← _; _).
  pose proof (open_recorded laws request t w1) as Hopen. pose proof (open_response laws request t w1) as Hresp.
  assert (Hbody : ∀ o w2, body w1 = (o, w2) →
    match o with
    | Ok (inl _) => trace w2 = trace w ++ [Opened request; Closed]
    | Ok (inr exc) => trace w2 = trace w ++ [Opened request] ∧ response_laws exc
    | Raise _ => ∃ es, trace w2 = trace w ++ es ∧ hop_events eq request es
    end).
  { intros o w2. subst body. rewrite bind_step. destruct (opener_open request t w1) as [[answer|e] w3]; cbn in Hopen.
    2:{ intros [= <- <-]. exists [Opened request]. rewrite Hopen, Ht. split; [done|]. right; left; by exists request. }
    specialize (Hresp _ _ eq_refl). destruct answer as [response|exc]; cbn in Hresp.
    - rewrite bind_step. pose proof (closing_log response request w3 Hresp) as Hc.
      destruct (read_closing response request w3) as [[x|e] w4]; cbn in Hc; intros [= <- <-].
      + by rewrite Hc, Hopen, Ht, <- app_assoc.
      + exists [Opened request; Closed]. rewrite Hc, Hopen, Ht, <- app_assoc. split; [done|]. right; right; by exists request.
    - intros [= <- <-]. by rewrite Hopen, Ht. }
  clearbody body. set (guarded := wrap_error OSError _ _).
  assert (Hg : ∀ o w2, guarded w1 = (o, w2) → trace w2 = trace (body w1).2 ∧ (∀ a, o = Ok a → body w1 = (o, w2)) ∧
     (is_ok o = false → is_ok (body w1).1 = false)).
  { intros o w2 Eg. split; [|split].
    - unfold guarded in Eg. rewrite <- (wrap_log trace HTTPException "urllib lost the catalog connection mid-response." body w1).
      rewrite <- (wrap_log trace OSError "urllib could not complete the catalog request."). by rewrite Eg.
    - intros a ->. unfold guarded in Eg. by apply wrap_ok, wrap_ok in Eg.
    - intros Ho. destruct (body w1) as [[a|e] w3] eqn:Eb; [|done]. exfalso.
      assert (Ea : guarded w1 = (Ok a, w3)) by by apply wrap_ok, wrap_ok. rewrite Ea in Eg. by injection Eg as <- _. }
  clearbody guarded. destruct (guarded w1) as [o w2] eqn:Eg. destruct (Hg _ _ eq_refl) as (Hgt & Hgo & Hgr).
  destruct o as [[x|exc]|e].
  - specialize (Hbody _ _ (Hgo _ eq_refl)). intros [= <- <-]. eexists. split; [exact Hbody|by exists request].
  - destruct (Hbody _ _ (Hgo _ eq_refl)) as [Hexc Hl]. intros E. exists [Opened request; Closed].
    pose proof (closing_log exc request w2 Hl) as Hc. rewrite E in Hc. cbn in Hc.
    split; [by rewrite Hc, Hexc, <- app_assoc|]. destruct (is_ok r); [|right; right]; by exists request.
  - intros [= <- <-]. destruct (body w1) as [[a|e'] w3]; [by specialize (Hgr eq_refl)|].
    destruct (Hbody _ _ eq_refl) as (es & He & Hes). cbn in Hgt. exists es. by rewrite Hgt.
Qed.

Lemma redirect_redirected self request status h next :
  _redirect_request self request status h = Ok (Some next) → redirected (credential_scope self) request next.
Proof.
  unfold _redirect_request. destruct (_header h "location") as [location|]; [|done]. destruct (negb _); [done|].
  intros E. apply bind_ok in E as (next_url & Hj & E). apply bind_ok in E as (parsed & Hp & E).
  apply bind_ok in E as ([] & Hs%raise_if_ok & E). apply negb_false_iff, bool_decide_eq_true in Hs.
  destruct (_next_redirect_request _ _ _ _ _) as [next'|e] eqn:En; [|done]. injection E as <-.
  eapply next_redirected; [exact En|]. intros parsed' Hp'. rewrite Hp in Hp'. by injection Hp' as <-.
Qed.

Lemma silent_response status h body : silent trace (_runtime_response (W := W) status h body).
Proof. unfold _runtime_response. apply silent_bind; [apply silent_retry_after, laws|]. intros ra. apply silent_lift. Qed.

Lemma urllib_hop_lawful self : hop_lawful (credential_scope self) eq trace (hop self).
Proof.
  intros r w out w'. unfold hop. rewrite bind_step. destruct (_read_current self r w) as [o w1] eqn:Ec.
  destruct (current_log _ _ _ _ _ Ec) as (es & Ht & Hes). destruct o as [[[status h] body]|e].
  2:{ intros [= <- <-]. by exists es. }
  cbn in Hes. assert (Hend : ∀ out w',
    (r ← _runtime_response status h body; mret (inl r : RuntimeResponse + RuntimeRequest)) w1 = (out, w') →
    trace w' = trace w ++ es ∧ match out with Ok (inr _) => False | _ => True end).
  { intros out0 w0. rewrite bind_step. pose proof (silent_response status h body w1) as Hs.
    destruct (_runtime_response status h body w1) as [[x|e] w2]; cbn in Hs; intros [= <- <-]; by rewrite Hs. }
  assert (Hraise : hop_events eq r es) by (by right; right).
  destruct (redirect_policy r) eqn:Ep.
  - rewrite bind_step. unfold lift_res at 1. destruct (_redirect_request self r status h) as [[next|]|e] eqn:Er.
    + intros [= <- <-]. exists es. split_and!; try done. by eapply redirect_redirected.
    + intros E. destruct (Hend _ _ E) as [He Ho]. exists es. split; [done|]. by destruct out as [[|]|].
    + intros [= <- <-]. by exists es.
  - intros E. destruct (Hend _ _ E) as [He Ho]. exists es. split; [done|]. by destruct out as [[|]|].
Qed.
End urllib.
End UrllibProofs.

(** ** httpx *)

Module HttpxProofs.
Import Httpx.
Section httpx.
Context {W : Type} `{IpLiterals, QueryText, PlainQuery, UrlJoin, !Clocked W, !RetryText W, !HttpxClient W}.
Variable trace : W → list (exchange httpx_request).

Definition response_laws (response : http_response W) : Prop :=
  silent trace (content response) ∧ Forall (silent trace) (chunks_of response) ∧ silent trace (end_of_chunks response) ∧
  ∀ w, trace (close_response response w).2 = trace w ++ [Closed].

(** What the client is asked to send for a request: its parts or its body, with
    its headers; the parts bring their own body headers. *)
Definition built (request : RuntimeRequest) (q : httpx_request) : Prop :=
  hq_method q = method request ∧ hq_url q = url request ∧ hq_files q = files request ∧
  hq_content q = (if nonempty_list (files request) then None else req_body request) ∧
  hq_headers q = (if nonempty_list (files request) then drop_body_transfer_headers (req_headers request) else req_headers request).

(** The environment records the requests and the ends of their responses. *)
Record client_laws := {
  httpx_clock : silent trace clock_now;
  httpx_utc : silent trace utc_now;
  send_recorded : ∀ q stream w, trace (client_send q stream w).2 = trace w ++ [Opened q];
  send_response : ∀ q stream w response w', client_send q stream w = (Ok response, w') → response_laws response
}.
Hypothesis laws : client_laws.

Lemma silent_build request : silent trace (_build_request request).
Proof.
  unfold _build_request. apply silent_bind; [|intros o; case_match; apply silent_ret].
  destruct (deadline request) as [m|]; [|done]. pose proof (silent_check trace (httpx_clock laws) (Some m)) as Hc.
  unfold check_deadline in Hc. apply silent_bind; [|intros _; apply silent_bind; [apply silent_remaining, laws|]; intros q; apply silent_ret].
  intros w. specialize (Hc w). rewrite bind_step in Hc. by destruct (Deadline.assert_dispatchable None None m w) as [[a|e] w1].
Qed.
Lemma build_built request w q w' : _build_request request w = (Ok q, w') → built request q.
Proof.
  unfold _build_request. rewrite bind_step. destruct (_ w) as [[o|e] w1]; [|done]. unfold built.
  destruct (files request) as [|p parts]; cbn; by intros [= <- _].
Qed.

Lemma silent_bounds request size : silent trace (_check_read_bounds request size).
Proof. unfold _check_read_bounds. apply silent_bind; [apply silent_check, laws|]. intros _. apply silent_limit. Qed.
Lemma silent_chunks request body chunks : Forall (silent trace) chunks → silent trace (read_chunks request body chunks).
Proof.
  intros Hc. revert body. induction Hc as [|c cs Hc _ IH]; intros body; cbn [read_chunks]; [apply silent_ret|].
  apply silent_bind; [done|]. intros chunk. apply silent_bind; [apply silent_bounds|]. intros _. apply IH.
Qed.
Lemma httpx_silent_body response request : response_laws response → silent trace (_read_body response request).
Proof.
  intros (Hall & Hc & He & _). unfold _read_body. destruct (unbounded request); [done|].
  apply silent_bind; [by apply silent_chunks|]. intros b. apply silent_bind; [done|]. intros _.
  apply silent_bind; [apply silent_check, laws|]. intros _. apply silent_ret.
Qed.

(** [try: m finally: close()] *)
Lemma httpx_closing_log {A} (m : M W A) response w : silent trace m → response_laws response →
  trace (try_finally m (close_response response) w).2 = trace w ++ [Closed].
Proof.
  intros Hm (_ & _ & _ & Hc). unfold try_finally. specialize (Hm w). destruct (m w) as [r w1]. cbn in Hm. specialize (Hc w1).
  destruct (close_response response w1) as [[[]|e] w2]; cbn in *; by rewrite Hc, Hm.
Qed.

Definition ends_response (read : http_response W → RuntimeRequest → M W RuntimeResponse) : Prop :=
  ∀ response request w, response_laws response → trace (read response request w).2 = trace w ++ [Closed].

Lemma silent_parsed (response : http_response W) body : silent trace
  (ra ← _retry_after (header_of response "retry-after");
   lift_res (make_runtime_response (status_of response) (header_dict response) body ra) : M W RuntimeResponse).
Proof. apply silent_bind; [apply silent_retry_after, laws|]. intros ra. apply silent_lift. Qed.

Lemma response_ends : ends_response _runtime_response.
Proof.
  intros response request w Hl. apply httpx_closing_log; [|done]. apply silent_wrap. apply silent_bind; [by apply httpx_silent_body|].
  intros b. apply silent_parsed.
Qed.
Lemma response_async_ends : ends_response _runtime_response_async.
Proof.
  intros response request w Hl. apply httpx_closing_log; [|done]. apply silent_bind; [apply silent_wrap; by apply httpx_silent_body|].
  intros b. apply silent_parsed.
Qed.

Lemma httpx_redirect_redirected request status location scope next :
  _redirect_request request status location scope = Ok next → redirected scope request next.
Proof.
  unfold _redirect_request. intros E. apply bind_ok in E as (next_url & Hn & E).
  destruct (_ ≫= _) as [u|e] eqn:Ej in Hn; [|by case_match]. injection Hn as ->.
  apply bind_ok in Ej as (u & Hj & Ej). apply bind_ok in Ej as ([] & Hp & [= <-]).
  unfold _require_plain_http_target in Hp. apply bind_ok in Hp as (parsed & Hs & Hp).
  apply bind_ok in Hp as ([] & Hsch%raise_if_ok & _). apply negb_false_iff, bool_decide_eq_true in Hsch.
  eapply next_redirected; [exact E|]. intros parsed' Hs'. rewrite Hs in Hs'. by injection Hs' as <-.
Qed.

Lemma httpx_hop_lawful read self : ends_response read → hop_lawful (_credential_scope self) built trace (hop_with read self).
Proof.
  intros Hread r w out w'. unfold hop_with. rewrite bind_step.
  set (ask := q ← _build_request r; client_send q (negb (unbounded r))).
  assert (Hask : ∀ o w1, ask w = (o, w1) → ∃ es, trace w1 = trace w ++ es ∧ match o with
    | Ok response => (∃ q, built r q ∧ es = [Opened q]) ∧ response_laws response
    | Raise _ => hop_events built r es
    end).
  { intros o w1. subst ask. rewrite bind_step. pose proof (silent_build r w) as Hb. pose proof (build_built r w) as Hq.
    destruct (_build_request r w) as [[q|e] w2]; cbn in Hb.
    - specialize (Hq _ _ eq_refl). intros E. pose proof (send_recorded laws q (negb (unbounded r)) w2) as Hs. rewrite E in Hs.
      cbn in Hs. exists [Opened q]. rewrite Hs, Hb. split; [done|]. destruct o as [response|e].
      + split; [by exists q|]. by eapply send_response.
      + right; left. by exists q.
    - intros [= <- <-]. exists []. rewrite app_nil_r. split; [done|]. by left. }
  clearbody ask. pose proof (wrap_log trace HttpxError "httpx could not complete the catalog request." ask w) as Hlog.
  pose proof (wrap_ok (W := W) HttpxError "httpx could not complete the catalog request." ask w) as Hok.
  destruct (wrap_error _ _ ask w) as [o w1]. cbn in Hlog. destruct o as [response|e].
  - specialize (proj1 (Hok _ _) eq_refl). intros Ea. destruct (Hask _ _ Ea) as (es & Ht & (q & Hq & ->) & Hl).
    assert (Hcomplete : complete built r [Opened q; Closed]) by by exists q.
    destruct (_follow_location r response) as [location|] eqn:Ef.
    + rewrite bind_step.
      set (m := lift_res (_redirect_request r (status_of response) location (_credential_scope self)) : M W RuntimeRequest).
      pose proof (httpx_closing_log m response w1 (silent_lift trace _) Hl) as Hc.
      destruct (try_finally m (close_response response) w1) as [[next|e] w2] eqn:En; cbn in Hc; intros [= <- <-];
        (exists [Opened q; Closed]; split; [by rewrite Hc, Ht, <- app_assoc|]); [|by right; right].
      split_and!; [done|by unfold _follow_location in Ef; destruct (redirect_policy r)|].
      apply (httpx_redirect_redirected r (status_of response) location). subst m. unfold try_finally, lift_res in En.
      destruct (close_response response w1) as [[[]|e] w3]; by injection En.
    + rewrite bind_step. pose proof (Hread response r w1 Hl) as Hc.
      destruct (read response r w1) as [[x|e] w2]; cbn in Hc; intros [= <- <-];
        (exists [Opened q; Closed]; split; [by rewrite Hc, Ht, <- app_assoc|]); [done|by right; right].
  - intros [= <- <-]. destruct (ask w) as [[response|e'] w2] eqn:Ea.
    + exfalso. destruct (Hok response w2) as [_ Hb]. by discriminate Hb.
    + destruct (Hask _ _ eq_refl) as (es & Ht & Hes). exists es. cbn in Hlog. by rewrite Hlog.
Qed.
End httpx.
End HttpxProofs.

(** ** What the transports promise *)

(** C18: The [urllib] transport sends credentials and bodies only where they
    may go.  Whatever the servers answer and however the call ends: it sends
    the given request and, if that one may follow redirects, redirected ones,
    at most [max_redirects + 1] in all; every redirected request goes to an
    [http(s)] URL without user information, has only headers of the first
    request, those that are not safe only where the credential scope (or the
    same origin, without one) allows it, and has a body only unchanged and for
    the same origin; every response is closed before the next request and
    before the call returns; a closed transport sends nothing. *)
Theorem urllib_send_private {W} `{IpLiterals, QueryText, PlainQuery, UrlJoin, !Clocked W, !RetryText W, !Urllib.Opener W}
    (trace : W → list (exchange RuntimeRequest)) self request (st st' : Urllib.transport_state W) r :
  UrllibProofs.opener_laws trace → Urllib.send self request st = (r, st') →
  ∃ es, trace (Urllib.world st') = trace (Urllib.world st) ++ es ∧
    (Urllib.closed st = true → es = []) ∧
    transport_log (Urllib.credential_scope self) eq request (Z.to_nat (Urllib.max_redirects self + 1)) (is_ok r) es.
Proof.
  intros Hlaws. unfold Urllib.send, Urllib.assert_usable. rewrite !bind_step. cbn -[Urllib.on_world redirect_loop Z.add Z.to_nat].
  destruct (Urllib.closed st) eqn:Ec; [intros [= <- <-]; exists []; rewrite app_nil_r; split_and!; [done..|apply log_none]|].
  cbn -[Urllib.on_world redirect_loop Z.add Z.to_nat]. rewrite bind_step. unfold lift_res.
  destruct (nonempty_list (files request)); [intros [= <- <-]; exists []; rewrite app_nil_r; split_and!; [done..|apply log_none]|].
  cbn -[redirect_loop Z.add Z.to_nat]. unfold Urllib.on_world, zoom.
  destruct (redirect_loop (Urllib.hop self) _ request (Urllib.world st)) as [out w'] eqn:El. intros [= <- <-].
  eapply loop_log in El as (es & Ht & Hes); [|by apply UrllibProofs.urllib_hop_lawful]. exists es. done.
Qed.

(** So do both [httpx] transports, of what they hand to the client. *)
Theorem httpx_send_private {W} `{IpLiterals, QueryText, PlainQuery, UrlJoin, !Clocked W, !RetryText W, !Httpx.HttpxClient W}
    (trace : W → list (exchange Httpx.httpx_request)) self request (st st' : Httpx.transport_state W) r :
  HttpxProofs.client_laws trace → Httpx.send self request st = (r, st') ∨ Httpx.send_async self request st = (r, st') →
  ∃ es, trace (Httpx.world st') = trace (Httpx.world st) ++ es ∧
    (Httpx.closed st = true → es = []) ∧
    transport_log (Httpx._credential_scope self) HttpxProofs.built request (Z.to_nat (Httpx._max_redirects self + 1)) (is_ok r) es.
Proof.
  intros Hlaws. assert (Hloop : ∀ read, HttpxProofs.ends_response trace read →
    (Httpx._assert_open self;; Httpx.on_world (redirect_loop (Httpx.hop_with read self) (Z.to_nat (Httpx._max_redirects self + 1)) request)) st = (r, st') →
    ∃ es, trace (Httpx.world st') = trace (Httpx.world st) ++ es ∧ (Httpx.closed st = true → es = []) ∧
      transport_log (Httpx._credential_scope self) HttpxProofs.built request (Z.to_nat (Httpx._max_redirects self + 1)) (is_ok r) es).
  { intros read Hread. rewrite bind_step. unfold Httpx._assert_open. rewrite bind_step. cbn -[Httpx.on_world redirect_loop Z.add Z.to_nat].
    destruct (Httpx.closed st) eqn:Ec; [intros [= <- <-]; exists []; rewrite app_nil_r; split_and!; [done..|apply log_none]|].
    cbn -[redirect_loop Z.add Z.to_nat]. unfold Httpx.on_world, zoom.
    destruct (redirect_loop (Httpx.hop_with read self) _ request (Httpx.world st)) as [out w'] eqn:El. intros [= <- <-].
    eapply loop_log in El as (es & Ht & Hes); [|by apply HttpxProofs.httpx_hop_lawful]. exists es. done. }
  intros [E|E]; [eapply Hloop, E; by apply HttpxProofs.response_ends|eapply Hloop, E; by apply HttpxProofs.response_async_ends].
Qed.

(** Where the next request is made, its label only matters for what is raised. *)
Lemma next_label `{IpLiterals, QueryText, PlainQuery} request status next_url scope label label' next :
  _next_redirect_request request status next_url scope label = Ok next →
  _next_redirect_request request status next_url scope label' = Ok next.
Proof.
  unfold _next_redirect_request. intros E. apply bind_ok in E as (parsed & -> & E). cbn.
  apply bind_ok in E as ([] & Ha%raise_if_ok & E). rewrite Ha. cbn.
  destruct (redirect_method_and_body _ _ _ _) as [[m b] parts]. apply bind_ok in E as ([] & Hb%raise_if_ok & E). by rewrite Hb.
Qed.

(** C37: The transports agree on redirects: for a redirect status and the same
    [Location], [httpx] makes a next request exactly when [urllib] makes one
    whose port is a number, and it is the same request. *)
Theorem transports_agree `{IpLiterals, QueryText, PlainQuery, UrlJoin} self request status h location next :
  status ∈ Urllib._REDIRECT_CODES → Urllib._header h "location" = Some location →
  Httpx._redirect_request request status location (Urllib.credential_scope self) = Ok next ↔
  Urllib._redirect_request self request status h = Ok (Some next) ∧
    ∃ parsed, urlsplit (url next) = Ok parsed ∧ is_ok (port parsed) = true.
Proof.
  intros Hs Hl. unfold Httpx._redirect_request, Urllib._redirect_request, Httpx._require_plain_http_target. rewrite Hl.
  rewrite (bool_decide_eq_true_2 (status ∈ _)) by done. cbn [negb]. split.
  - intros E. apply bind_ok in E as (u & Hu & En). destruct (_ ≫= _) as [u'|e] eqn:Ej in Hu; [|by case_match]. injection Hu as ->.
    apply bind_ok in Ej as (u' & -> & Ej). apply bind_ok in Ej as ([] & Hp & [= ->]). cbn [mbind result_bind].
    apply bind_ok in Hp as (parsed & Hu & Hp). apply bind_ok in Hp as ([] & Hsch%raise_if_ok & Hp).
    apply bind_ok in Hp as (p & Hp & _). rewrite Hu. cbn [mbind result_bind]. rewrite Hsch. cbn [raise_if].
    rewrite (next_label _ _ _ _ _ "urllib" _ En). split; [done|]. exists parsed. split; [|by rewrite Hp].
    destruct (next_redirected _ _ _ _ _ _ En) as [-> _]; [|done]. intros q Hq. rewrite Hu in Hq. injection Hq as <-.
    by apply negb_false_iff, bool_decide_eq_true in Hsch.
  - intros [E (parsed & Hp & Hport)]. apply bind_ok in E as (u & Hu & E). apply bind_ok in E as (q & Hq & E).
    apply bind_ok in E as ([] & Hsch%raise_if_ok & E).
    destruct (_next_redirect_request _ _ _ _ _) as [next'|e] eqn:En; [|done]. injection E as ->.
    assert (url next = u) as <-.
    { destruct (next_redirected _ _ _ _ _ _ En) as [? _]; [|done]. intros q' Hq'. rewrite Hq in Hq'. injection Hq' as <-.
      by apply negb_false_iff, bool_decide_eq_true in Hsch. }
    rewrite Hp in Hq. injection Hq as ->. destruct (urljoin _ _) as [v|e]; [|by case_match]. injection Hu as ->.
    cbn [mbind result_bind]. rewrite Hp. cbn [mbind result_bind]. rewrite Hsch. cbn [raise_if mbind result_bind].
    destruct (port q) as [p|e]; [|done]. cbn [mbind result_bind]. by eapply next_label.
Qed.

(** ** Reading bodies *)

Section bodies.
Context {W : Type} `{!Clocked W}.

Lemma limit_ok limit size (w w' : W) u : check_limit (Some limit) size w = (Ok u, w') → size <= limit ∧ w' = w.
Proof. unfold check_limit, lift_res, _enforce_body_limit. intros E. destruct (limit <? size) eqn:El; [done|]. injection E as _ <-. qbool. auto. Qed.

Lemma read_parts_limit request n parts rest (w w' : W) body : max_response_bytes request = Some n →
  Z.of_nat (String.length parts) <= n → Urllib.read_parts request parts rest w = (Ok body, w') →
  Z.of_nat (String.length body) <= n.
Proof.
  intros Hn. revert parts w. induction rest as [|rd rest IH]; intros parts w Hp; cbn [Urllib.read_parts]; rewrite bind_step.
  - destruct (Urllib._checked_read _ _ w) as [[c|e] w1]; [|done]. by intros [= <- _].
  - destruct (Urllib._checked_read rd request w) as [[c|e] w1]; [|done]. destruct c; try done.
    destruct (negb _); [by intros [= <- _]|]. rewrite bind_step, Hn.
    destruct (check_limit (Some n) _ w1) as [[u|e] w2] eqn:El; [|done]. apply limit_ok in El as [Hl _]. by apply IH.
Qed.

Lemma read_chunks_limit request n body chunks (w w' : W) body' : max_response_bytes request = Some n →
  Z.of_nat (String.length body) <= n → Httpx.read_chunks request body chunks w = (Ok body', w') →
  Z.of_nat (String.length body') <= n.
Proof.
  intros Hn. revert body w. induction chunks as [|chunk chunks IH]; intros body w Hp; cbn [Httpx.read_chunks].
  - by intros [= <- _].
  - rewrite bind_step. destruct (chunk w) as [[raw|e] w1]; [|done]. rewrite bind_step. unfold Httpx._check_read_bounds at 1.
    rewrite bind_step, Hn. destruct (check_deadline _ w1) as [[u|e] w2]; [|done].
    destruct (check_limit (Some n) _ w2) as [[u'|e] w3] eqn:El; [|done]. apply limit_ok in El as [Hl _].
    apply IH. rewrite app_length_s. lia.
Qed.

(** The bytes a consumer got *)
Definition total_length (chunks : list string) : Z := foldr (λ c n, Z.of_nat (String.length c) + n) 0 chunks.

Lemma urllib_stream_limit request n size take rest (w w' : W) chunks e : max_response_bytes request = Some n → size <= n →
  Urllib.stream_from request size take rest w = (Ok (chunks, e), w') → size + total_length chunks <= n.
Proof.
  intros Hn. revert size rest w w' chunks e. induction take as [|take IH]; intros size rest w w' chunks e Hs; cbn [Urllib.stream_from].
  { intros [= <- _ _]. cbn. lia. }
  set (m := wrap_error OSError _ _). destruct (m w) as [[[raw|]|e'] w1] eqn:Em; [|intros [= <- _ _]; cbn; lia..].
  assert (Hraw : size + Z.of_nat (String.length raw) <= n).
  { subst m. apply wrap_ok, wrap_ok in Em. rewrite bind_step in Em. destruct (Urllib._checked_read _ _ _) as [[c|e''] w2]; [|done].
    destruct c; try done. destruct (negb _); [done|]. rewrite bind_step, Hn in Em.
    destruct (check_limit (Some n) _ w2) as [[u|e''] w3] eqn:El; [|done]. apply limit_ok in El as [Hl _]. by injection Em as <- _. }
  destruct (Urllib.stream_from _ _ _ _ w1) as [[[cs e'']|e''] w2] eqn:Es; [|done]. intros [= <- _ _].
  apply IH in Es; [|done]. unfold total_length in *. cbn. lia.
Qed.

Lemma httpx_stream_limit (response : Httpx.http_response W) request n seen take rest (w w' : W) chunks e :
  max_response_bytes request = Some n → seen <= n →
  Httpx.stream_from response request seen take rest w = (Ok (chunks, e), w') → seen + total_length chunks <= n.
Proof.
  intros Hn. revert seen rest w w' chunks e. induction take as [|take IH]; intros seen rest w w' chunks e Hs; destruct rest as [|rd rest]; cbn [Httpx.stream_from].
  1,2: intros [= <- _ _]; cbn; lia.
  { destruct (wrap_error _ _ _ w) as [[u|e'] w1]; intros [= <- _ _]; cbn; lia. }
  set (m := wrap_error HttpxError _ _). destruct (m w) as [[raw|e'] w1] eqn:Em; [|intros [= <- _ _]; cbn; lia].
  assert (Hraw : seen + Z.of_nat (String.length raw) <= n).
  { subst m. apply wrap_ok in Em. rewrite bind_step in Em. destruct (rd w) as [[c|e''] w2]; [|done].
    rewrite bind_step in Em. unfold Httpx._check_read_bounds in Em. rewrite bind_step, Hn in Em.
    destruct (check_deadline _ w2) as [[u|e''] w3]; [|done].
    destruct (check_limit (Some n) _ w3) as [[u'|e''] w4] eqn:El; [|done]. apply limit_ok in El as [Hl _]. by injection Em as <- _. }
  destruct (Httpx.stream_from _ _ _ _ _ w1) as [[[cs e'']|e''] w2] eqn:Es; [|done]. intros [= <- _ _].
  apply IH in Es; [|done]. unfold total_length in *. cbn. lia.
Qed.
End bodies.

(** A response limit bounds what is taken of a response: no transport
    returns a longer body, and no stream, however long it is consumed, gives
    more bytes. *)
Theorem body_within_limit {W} `{!Clocked W} request n : max_response_bytes request = Some n → 1 <= n →
  (∀ response (w w' : W) body, Urllib._read_response_body response request w = (Ok body, w') → Z.of_nat (String.length body) <= n) ∧
  (∀ response (w w' : W) body, Httpx._read_body response request w = (Ok body, w') → Z.of_nat (String.length body) <= n) ∧
  (∀ response take (w w' : W) chunks e, Urllib._stream_chunks response request take w = (Ok (chunks, e), w') → total_length chunks <= n) ∧
  (∀ response take (w w' : W) chunks e, Httpx._stream_chunks response request take w = (Ok (chunks, e), w') → total_length chunks <= n).
Proof.
  intros Hn Hpos. split_and!.
  - intros response w w' body. unfold Urllib._read_response_body. rewrite Hn. cbn [bool_decide andb].
    apply read_parts_limit; [done|cbn; lia].
  - intros response w w' body. unfold Httpx._read_body, Httpx.unbounded. rewrite bool_decide_eq_false_2 by by rewrite Hn. cbn [andb].
    rewrite bind_step. destruct (Httpx.read_chunks _ _ _ w) as [[b|e] w1] eqn:E; [|done]. rewrite !bind_step.
    destruct (Httpx.end_of_chunks response w1) as [[u|e] w2]; [|done]. rewrite bind_step. destruct (check_deadline _ w2) as [[u'|e] w3]; [|done].
    intros [= <- _]. eapply read_chunks_limit in E; [done|done|cbn; lia].
  - intros response take w w' chunks e. apply (urllib_stream_limit request n 0); [done|lia].
  - intros response take w w' chunks e. apply (httpx_stream_limit response request n 0); [done|lia].
Qed.

(** A connection lost while a body is read raises [TransportError] after
    the response was closed, except that the body of an error response, which
    [urllib] gives as an [HTTPError], lets the [OSError] itself escape. *)
Theorem urllib_body_failure {W} `{!Clocked W, !Urllib.Opener W} self request (w w1 w2 w3 w4 : W) timeout answer e :
  Urllib.request_timeout self request w = (Ok timeout, w1) →
  Urllib.opener_open request timeout w1 = (Ok answer, w2) →
  Urllib._read_response_body (UrllibProofs.answer_response answer) request w2 = (Raise e, w3) →
  Urllib.close_response (UrllibProofs.answer_response answer) w3 = (Ok tt, w4) → exn_kind e = OSError →
  Urllib._read_current self request w =
    (Raise (match answer with
            | Urllib.Returned _ => err TransportError "urllib could not complete the catalog request."
            | Urllib.RaisedHTTPError _ => e
            end), w4).
Proof.
  intros Ht Ho Hb Hc He. unfold Urllib._read_current, wrap_error, try_except, Urllib.read_closing, try_finally. rewrite bind_step, Ht.
  rewrite bind_step, bind_step, Ho. destruct answer as [response|exc]; cbn in Hb, Hc.
  - rewrite bind_step, bind_step, Hb, Hc. cbn -[is_subclass]. rewrite He. change (is_subclass OSError HTTPException) with false. cbn -[is_subclass]. by rewrite He.
  - cbn -[Urllib._read_response_body]. by rewrite bind_step, Hb, Hc.
Qed.

(** ** Two servers, the first of which redirects to the second *)

Definition no_brackets : IpLiterals := λ _, false.
Definition plain_text : PlainQuery := λ s, s.
Definition join_absolute : UrlJoin := λ _ location, Ok location.

Section toy.
Context {Q : Type}.
Definition toy_clock : Clocked (list (exchange Q)) := λ w, (0%Q, w).
Definition toy_retry_text : RetryText (list (exchange Q)) :=
  {| parse_float _ := None; parse_http_date _ := None; utc_now := mret 0%Q |}.
Definition log_closed : M (list (exchange Q)) unit := λ w, (Ok tt, w ++ [Closed]).
End toy.

Definition get_request (url : string) (headers : headers) : RuntimeRequest :=
  {| method := "GET"; url := url; req_headers := headers; req_body := None; files := []; redirect_policy := FOLLOW;
     max_response_bytes := Some 10; deadline := None |}.
Definition first_request : RuntimeRequest :=
  get_request "https://a.example.org/x" [("Authorization", "secret"); ("Accept", "text/csv")].
Definition second_request : RuntimeRequest := get_request "https://b.example.org/y" [("Accept", "text/csv")].
Definition redirects_away (url : string) : bool := bool_decide (url = "https://a.example.org/x").

Definition urllib_answer (status : Z) (h : headers) : Urllib.http_response (list (exchange RuntimeRequest)) :=
  {| Urllib.status := status; Urllib.response_headers := h; Urllib.read_all := mret (PyBytes "ok" "ok");
     Urllib.reads := [mret (PyBytes "ok" "ok")]; Urllib.close_response := log_closed |}.
Definition toy_opener : Urllib.Opener (list (exchange RuntimeRequest)) := λ r _ w,
  (Ok (if redirects_away (url r) then Urllib.RaisedHTTPError (urllib_answer 302 [("Location", "https://b.example.org/y")])
       else Urllib.Returned (urllib_answer 200 [])), w ++ [Opened r]).
Definition toy_budget : TimeBudget := {| connect := 1%Q; read_budget := 1%Q; write_budget := 1%Q; total := 1%Q |}.
Definition toy_urllib : Urllib.UrllibCatalogTransport :=
  {| Urllib.budget := toy_budget; Urllib.max_redirects := 3; Urllib.credential_scope := None |}.

Lemma toy_opener_laws :
  @UrllibProofs.opener_laws _ toy_clock toy_retry_text toy_opener (λ w : list (exchange RuntimeRequest), w).
Proof.
  split; [done..|]. intros r t w answer w' [= <- <-].
  destruct (redirects_away _); (split; [done|]; split; [by repeat constructor|done]).
Qed.

Lemma urllib_send_private_witness :
  let st : Urllib.transport_state (list (exchange RuntimeRequest)) := Urllib.TransportState false [] in
  let out := @Urllib.send _ no_brackets toy_query plain_text join_absolute toy_clock toy_retry_text toy_opener
               toy_urllib first_request st in
  Urllib.world out.2 = [Opened first_request; Closed; Opened second_request; Closed] ∧
  ∃ es, Urllib.world out.2 = [] ++ es ∧ (false = true → es = []) ∧
    @transport_log no_brackets _ None eq first_request 4 (is_ok out.1) es.
Proof.
  cbv zeta. split; [vm_compute; reflexivity|].
  apply (@urllib_send_private _ no_brackets toy_query plain_text join_absolute toy_clock toy_retry_text toy_opener
    (λ w, w) toy_urllib first_request (Urllib.TransportState false [])); [apply toy_opener_laws|apply surjective_pairing].
Defined.

Abbreviation wire := (list (exchange Httpx.httpx_request)).
Definition httpx_answer (status : Z) (location : option string) : Httpx.http_response wire :=
  {| Httpx.status_of := status; Httpx.is_redirect := bool_decide (is_Some location);
     Httpx.header_of name := if bool_decide (name = "location") then location else None; Httpx.header_dict := [];
     Httpx.content := mret "ok"; Httpx.chunks_of := [mret "ok"]; Httpx.end_of_chunks := mret tt;
     Httpx.close_response := log_closed |}.
Definition toy_client : Httpx.HttpxClient wire := {|
  Httpx.client_timeout := [("read", Some 1%Q)];
  Httpx.client_send q _ := λ w,
    (Ok (if redirects_away (Httpx.hq_url q) then httpx_answer 302 (Some "https://b.example.org/y") else httpx_answer 200 None),
     w ++ [Opened q]);
  Httpx.client_close := mret tt
|}.
Definition toy_httpx : Httpx._HttpxTransportBase := Httpx.make_httpx_transport 3 None.

Lemma toy_client_laws : @HttpxProofs.client_laws _ toy_clock toy_retry_text toy_client (λ w : wire, w).
Proof.
  split; [done..|]. intros q s w response w' [= <- <-].
  destruct (redirects_away _); (split; [done|]; split; [by repeat constructor|done]).
Qed.

Lemma httpx_send_private_witness :
  let st : Httpx.transport_state wire := Httpx.TransportState false [] in
  let out := @Httpx.send _ no_brackets toy_query plain_text join_absolute toy_clock toy_retry_text toy_client
               toy_httpx first_request st in
  Httpx.hq_headers <$> omap (λ e, match e with Opened q => Some q | Closed => None end) (Httpx.world out.2) =
    [req_headers first_request; req_headers second_request] ∧
  ∃ es, Httpx.world out.2 = [] ++ es ∧ (false = true → es = []) ∧
    @transport_log no_brackets _ None HttpxProofs.built first_request 4 (is_ok out.1) es.
Proof.
  cbv zeta. split; [vm_compute; reflexivity|].
  apply (@httpx_send_private _ no_brackets toy_query plain_text join_absolute toy_clock toy_retry_text toy_client
    (λ w, w) toy_httpx first_request (Httpx.TransportState false [])); [apply toy_client_laws|left; apply surjective_pairing].
Defined.

Lemma transports_agree_witness :
  @Httpx._redirect_request no_brackets toy_query plain_text join_absolute first_request 302 "https://b.example.org/y" None = Ok second_request ∧
  (@Httpx._redirect_request no_brackets toy_query plain_text join_absolute first_request 302 "https://b.example.org/y" None = Ok second_request ↔
   @Urllib._redirect_request no_brackets toy_query plain_text join_absolute toy_urllib first_request 302 [("Location", "https://b.example.org/y")]
     = Ok (Some second_request) ∧
   ∃ parsed, @urlsplit no_brackets (url second_request) = Ok parsed ∧ is_ok (port parsed) = true).
Proof.
  split; [vm_compute; reflexivity|].
  apply (@transports_agree no_brackets toy_query plain_text join_absolute toy_urllib first_request 302 [("Location", "https://b.example.org/y")]
    "https://b.example.org/y"); [by apply (bool_decide_unpack _)|reflexivity].
Defined.

Lemma body_within_limit_witness :
  @Urllib._read_response_body _ toy_clock (urllib_answer 200 []) first_request [] = (Ok "ok", []) ∧ Z.of_nat (String.length "ok") <= 10.
Proof.
  split; [vm_compute; reflexivity|].
  destruct (@body_within_limit (list (exchange RuntimeRequest)) toy_clock first_request 10 eq_refl ltac:(lia)) as [Hb _].
  apply (Hb (urllib_answer 200 []) [] [] "ok"). vm_compute. reflexivity.
Defined.

Lemma urllib_body_failure_witness :
  let e := err OSError "connection reset" in
  let exc : Urllib.http_response unit := {| Urllib.status := 503; Urllib.response_headers := []; Urllib.read_all := throw e;
    Urllib.reads := [throw e]; Urllib.close_response := mret tt |} in
  @Urllib._read_current unit (λ w, (0%Q, w)) (λ _ _ w, (Ok (Urllib.RaisedHTTPError exc), w)) toy_urllib first_request tt = (Raise e, tt).
Proof.
  cbv zeta. set (e := err OSError "connection reset").
  apply (@urllib_body_failure unit (λ w, (0%Q, w)) (λ _ _ w, (Ok (Urllib.RaisedHTTPError {| Urllib.status := 503; Urllib.response_headers := [];
    Urllib.read_all := throw e; Urllib.reads := [throw e]; Urllib.close_response := mret tt |}), w)) toy_urllib first_request
    tt tt tt tt tt 1%Q (Urllib.RaisedHTTPError {| Urllib.status := 503; Urllib.response_headers := [];
    Urllib.read_all := throw e; Urllib.reads := [throw e]; Urllib.close_response := mret tt |})); reflexivity.
Defined.
