(* ===== verification/Identity.v ===== *)
(** * Resources and their identities

    [Resource] of [domain/resource.py], the access descriptors of
    [domain/access.py], the identities of [sync/_identity.py] and the logical
    digest of [sync/_hashing.py]. *)
From Stdlib Require Import Ascii ZArith Lia.
From stdpp Require Import strings gmap.
From S2P Require Import Prelude PyVal Urls Json JsonText Uris Artifact StateStore.
Local Open Scope Z_scope.
Local Open Scope py_scope.

(** ** Resources *)

(** The descriptors, without their portal-native [extra] *)
Inductive ResourceAccess :=
| HttpDownload (url method : string)
| ObjectStorage (uri : string)
| QueryAccess (endpoint query_language : string)
| StreamAccess (url : string)
| LocalFile (path : string).

Definition access_kind (a : ResourceAccess) : string :=
  match a with
  | HttpDownload _ _ => "http_download" | ObjectStorage _ => "object_storage" | QueryAccess _ _ => "query"
  | StreamAccess _ => "stream" | LocalFile _ => "local_file"
  end.
(** [getattr(access, name, None)] *)
Definition access_url (a : ResourceAccess) : option string :=
  match a with HttpDownload url _ | StreamAccess url => Some url | _ => None end.
Definition access_uri (a : ResourceAccess) : option string := match a with ObjectStorage uri => Some uri | _ => None end.
Definition access_path (a : ResourceAccess) : option string := match a with LocalFile path => Some path | _ => None end.

(** The display-only fields of a resource are left out. *)
Record Resource := {
  resource_id : string; resource_name : option string; resource_url : option string; resource_format : option string;
  resource_media_type : option string; resource_access : option ResourceAccess
}.

(** [a or b] for optional texts *)
Definition or_text (a b : option string) : option string :=
  match a with Some s => if str_nonempty s then a else b | None => b end.

(** [resource.access.kind if resource.access is not None else "http_download"] *)
Definition kind_of (r : Resource) : string :=
  match resource_access r with Some a => access_kind a | None => "http_download" end.

(** ** Identities *)

Definition _LOCAL_ORIGIN : string := "local".

Section identity.
Context `{IpLiterals, Sha256}.

Definition _url_origin (r : Resource) : result string :=
  let url := or_text (resource_access r ≫= access_url) (resource_url r) in
  let loc := or_text (resource_access r ≫= access_uri) (resource_access r ≫= access_path) in
  let local := match loc with
               | Some l => if str_nonempty l then "local:" +:+ l else _LOCAL_ORIGIN
               | None => _LOCAL_ORIGIN
               end in
  match url with
  | Some u =>
      if negb (str_nonempty u) then Ok local
      else
        parts ← urlsplit u;
        if str_nonempty (scheme parts) && str_nonempty (netloc parts) then
          Ok (str_lower (scheme parts) +:+ "://" +:+ str_lower (rpartition "@" (netloc parts)).2)
        else if match loc with Some l => str_nonempty l | None => false end then Ok local
        else if str_nonempty (scheme parts) && str_nonempty (url_path parts) then Ok (scheme parts +:+ ":" +:+ url_path parts)
        else if str_nonempty (url_path parts) then Ok ("path:" +:+ url_path parts)
        else Ok local
  | None => Ok local
  end.

Definition canonical_identity (r : Resource) : result string :=
  origin ← _url_origin r;
  Ok (sha256 (origin +:+ "/" +:+ resource_id r)).

(** What an identity of a destination is the digest of *)
Definition destination_scope (destination_uri : string) : result string :=
  parts ← urlsplit destination_uri;
  let authority :=
    match hostname parts with
    | None => str_lower (rpartition "@" (netloc parts)).2
    | Some host =>
        match port parts with
        | Ok (Some n) => str_lower host +:+ ":" +:+ int_repr n
        | Ok None | Raise _ => str_lower host
        end
    end in
  let path := rstrip_slash (url_path parts) in
  if str_nonempty (scheme parts) then Ok (str_lower (scheme parts) +:+ "://" +:+ authority +:+ path)
  else if str_nonempty path then Ok path
  else Ok (rstrip_slash (partition "#" (partition "?" destination_uri).1).1).
Definition canonical_destination_identity (destination_uri : string) : result string :=
  scope ← destination_scope destination_uri;
  Ok (sha256 scope).

Definition duplicate_error (prior_id id : string) : exn :=
  err DataSluiceError ("Duplicate resource identity at state.cursor: resource.id=" +:+ prior_id +:+
    " and resource.id=" +:+ id +:+ " resolve to the same canonical identity").

Fixpoint validate_unique_from (seen : gmap string string) (resources : list Resource) : result unit :=
  match resources with
  | [] => Ok tt
  | r :: resources =>
      identity ← canonical_identity r;
      match seen !! identity with
      | Some prior_id => Raise (duplicate_error prior_id (resource_id r))
      | None => validate_unique_from (<[identity := resource_id r]> seen) resources
      end
  end.
Definition validate_unique_identities (resources : list Resource) : result unit := validate_unique_from ∅ resources.
End identity.

(** ** Logical digests *)

(** The values of [to_pylist()]: dates with their [isoformat], bytes with their
    [hex], anything else with its [str]; the keys of a dictionary with their
    [str]. *)
Inductive cell :=
| CellNone | CellBool (b : bool) | CellInt (z : Z) | CellFloat (f : pyfloat) | CellStr (s : string)
| CellTime (isoformat : string) | CellBytes (hex : string) | CellList (l : list cell) | CellDict (kvs : list (string * cell))
| CellOther (text : string).

Fixpoint _encode (v : cell) : pyval :=
  match v with
  | CellNone => PyNone
  | CellBool b => PyBool b
  | CellInt z => PyInt z
  | CellFloat f => PyFloat f
  | CellStr s => PyStr s
  | CellTime t => str_dict [("__t", PyStr t)]
  | CellBytes h => str_dict [("__b", PyStr h)]
  | CellList l => PyList (_encode <$> l)
  | CellDict kvs => PyDict ((λ kv, (PyStr kv.1, _encode kv.2)) <$> kvs)
  | CellOther t => str_dict [("__s", PyStr t)]
  end.

(** A row, a batch, and the fields of a schema: name, type, nullable *)
Abbreviation row := (list (string * cell)).
Record schema_field := { sf_name : string; sf_type : string; sf_nullable : bool }.
Abbreviation arrow_schema := (list schema_field).

Section hashing.
Context `{FloatText, Sha256}.

(** [json.dumps(value, sort_keys=True, separators=(",", ":"))] *)
Fixpoint dumps_compact (v : pyval) : result string :=
  match v with
  | PyList l | PyTuple l => ts ← map_res dumps_compact l; Ok ("[" +:+ String.concat "," ts +:+ "]")
  | PyDict kvs =>
      ts ← dumps_items dumps_compact kvs;
      Ok ("{" +:+ String.concat "," ((λ kt, encode_string kt.1 +:+ ":" +:+ kt.2) <$> sort_items fst ts) +:+ "}")
  | _ => dumps true v
  end.

Definition _schema_fingerprint (schema : arrow_schema) : result string :=
  dumps false (PyList ((λ f, PyList [PyStr (sf_name f); PyStr (sf_type f); PyBool (sf_nullable f)]) <$> schema)).

Definition row_text (r : row) : result string :=
  text ← dumps_compact (PyDict ((λ kv, (PyStr kv.1, _encode kv.2)) <$> r));
  Ok (text +:+ String (ascii_of_nat 10) "").

Fixpoint batch_text (rows : list row) : result string :=
  match rows with [] => Ok "" | r :: rows => t ← row_text r; ts ← batch_text rows; Ok (t +:+ ts) end.
Fixpoint batches_text (batches : list (list row)) : result string :=
  match batches with [] => Ok "" | b :: batches => t ← batch_text b; ts ← batches_text batches; Ok (t +:+ ts) end.

Definition logical_sha256_batches (schema : arrow_schema) (batches : list (list row)) : result string :=
  fingerprint ← _schema_fingerprint schema;
  text ← batches_text batches;
  Ok (sha256 (fingerprint +:+ text)).

(** How the rows are cut into batches does not matter. *)
Lemma batch_text_app a b : batch_text (a ++ b) = (t ← batch_text a; ts ← batch_text b; Ok (t +:+ ts)).
Proof.
  induction a as [|r a IH]; [by cbn; destruct (batch_text b)|]. cbn [app batch_text]. destruct (row_text r) as [t|e]; [|done].
  cbn [mbind result_bind]. rewrite IH. destruct (batch_text a) as [ta|e]; [|done]. cbn [mbind result_bind].
  destruct (batch_text b) as [tb|e]; [|done]. cbn [mbind result_bind]. by rewrite app_assoc_s.
Qed.
Lemma batches_text_concat batches : batches_text batches = batch_text (mjoin batches).
Proof.
  induction batches as [|b batches IH]; [done|]. cbn [batches_text]. change (mjoin (b :: batches)) with (b ++ mjoin batches).
  by rewrite batch_text_app, IH.
Qed.
Lemma logical_digest_batching schema a b : mjoin a = mjoin b → logical_sha256_batches schema a = logical_sha256_batches schema b.
Proof. intros E. unfold logical_sha256_batches. by rewrite !batches_text_concat, E. Qed.
End hashing.

(** ** Identities are safe to use as keys and names *)

(** The destination without its secrets: all that its identity depends on *)
Lemma destination_identity_public `{IpLiterals, Sha256} u v p q :
  urlsplit u = Ok p → urlsplit v = Ok q → str_nonempty (scheme p) = true → scheme q = scheme p →
  (rpartition "@" (netloc q)).2 = (rpartition "@" (netloc p)).2 → url_path q = url_path p →
  canonical_destination_identity v = canonical_destination_identity u.
Proof.
  intros Hu Hv Hs Es En Ep. unfold canonical_destination_identity, destination_scope. rewrite Hu, Hv. cbn [mbind result_bind].
  unfold hostname, port. rewrite (hostinfo_public q p En), Es, En, Ep, Hs. done.
Qed.

Lemma unique_from_ok `{IpLiterals, Sha256} seen resources :
  validate_unique_from seen resources = Ok tt ↔
  ∃ ids, map_res canonical_identity resources = Ok ids ∧ NoDup ids ∧ Forall (λ i, seen !! i = None) ids.
Proof.
  revert seen. induction resources as [|r resources IH]; intros seen; cbn.
  { split; [|done]. intros _. exists []. split_and!; by constructor. }
  destruct (canonical_identity r) as [i|e]; cbn; [|split; [done|by intros (ids & ? & _)]].
  destruct (seen !! i) as [prior|] eqn:Ei.
  - split; [done|]. intros (ids & E & _ & Hf). apply bind_ok in E as (ids' & _ & [= <-]). apply Forall_cons in Hf as [Hf _]. congruence.
  - rewrite IH. split.
    + intros (ids & E & Hnd & Hf). rewrite E. exists (i :: ids). split_and!; [done| |].
      * constructor; [|done]. intros Hin. rewrite Forall_forall in Hf. specialize (Hf i Hin). by rewrite lookup_insert_eq in Hf.
      * constructor; [done|]. eapply Forall_impl; [exact Hf|]. intros j Hj. cbn. by apply lookup_insert_None in Hj as [? _].
    + intros (ids & E & Hnd & Hf). apply bind_ok in E as (ids' & -> & [= <-]). exists ids'.
      apply NoDup_cons in Hnd as [Hni Hnd]. apply Forall_cons in Hf as [_ Hf]. split_and!; [done..|].
      apply Forall_forall. intros j Hj. apply lookup_insert_None. split; [by eapply (proj1 (Forall_forall _ _)) in Hf|].
      by intros <-.
Qed.
