(* ===== verification/Streams.v ===== *)
(** * Batch streams

    [BatchStream] of [data/batch_stream.py], the row-group reader of
    [data/readers/parquet.py] and the checkpointable openings of
    [DataPlaneResourceReader] in [data/access.py].  The Parquet format itself
    ([pyarrow]) and the opening of a byte source are the environment; a batch
    and a schema are what it gives.

    A generator is the list of the steps its consumer drives: each step is an
    action that gives an item or, for an empty row group, nothing. *)
From Stdlib Require Import Ascii ZArith Lia.
From stdpp Require Import strings.
From S2P Require Import Prelude PyVal Urls Json JsonText Uris Transport Artifact StateStore Identity.
Local Open Scope Z_scope.
Local Open Scope py_scope.

(** ** Cursors *)

Record BatchCursor := { next_batch_index : Z; row_group_index : Z }.

Definition make_position (row_group_index : pyval) : result Z :=
  match row_group_index with
  | PyInt n => raise_if (n <? 0) (err DataSluiceError "Parquet row-group index must be a non-negative integer");; Ok n
  | _ => Raise (err DataSluiceError "Parquet row-group index must be a non-negative integer")
  end.
Definition make_cursor (next_batch_index : pyval) (position : Z) : result BatchCursor :=
  match next_batch_index with
  | PyInt n => raise_if (n <? 0) (err DataSluiceError "Next batch index must be a non-negative integer");;
               Ok {| next_batch_index := n; row_group_index := position |}
  | _ => Raise (err DataSluiceError "Next batch index must be a non-negative integer")
  end.
(** [BatchCursor(batch_index, ParquetRowGroupPosition(row_group))] *)
Definition cursor_at (batch_index row_group : Z) : result BatchCursor :=
  position ← make_position (PyInt row_group);
  make_cursor (PyInt batch_index) position.

Section stream.
Context {W B S : Type}.

(** The steps of a generator *)
Abbreviation steps A := (list (M W (option A))).

(** The wrapped source: pairs of a physical index and a batch, a
    [RecordBatchReader] whose [read_next_batch] may give [None] or raise
    [StopIteration], or a bare iterator.  [None] stands for both ends. *)
Inductive stream_source :=
| IndexedSource (items : steps (Z * B))
| ReaderSource (reads : list (M W (option B)))
| PlainSource (items : steps B).

Record BatchStream := {
  source : stream_source; schema : S; start_batch_index : Z; start_row_group_index : Z;
  source_close : option (M W unit); closeables : list (option (M W unit))
}.

(** [BatchStream(...)]; objects without a [close] are [None]. *)
Definition make_batch_stream (source : stream_source) (schema : S) (start_batch_index : Z) (start_row_group_index : option Z)
    (source_close : option (M W unit)) (closeables : list (option (M W unit))) : result BatchStream :=
  raise_if (start_batch_index <? 0) (err DataSluiceError "Batch stream start index must be a non-negative integer");;
  raise_if (match start_row_group_index with Some n => n <? 0 | None => false end)
    (err DataSluiceError "Batch stream row-group start index must be a non-negative integer");;
  Ok {| source := source; schema := schema; start_batch_index := start_batch_index;
        start_row_group_index := default start_batch_index start_row_group_index;
        source_close := source_close; closeables := closeables |}.

(** [_closed] and the environment *)
Abbreviation stream_state := (bool * W)%type.
Definition on_stream {A} (m : M W A) : M stream_state A := zoom snd (λ w s, (s.1, w)) m.

Definition assert_not_closed : M stream_state unit :=
  closed ← read fst;
  lift_res (raise_if closed (err StreamClosedError "BatchStream is closed; cannot iterate batches")).

(** ** Iteration

    [for batch in stream.iter_batches(): body], where the loop carries [X] *)
Section iterate.
Context {X : Type}.

Fixpoint each_step {A} (body : X → A → M W X) (x : X) (items : steps A) : M W X :=
  match items with
  | [] => mret x
  | item :: items =>
      step ← item;
      match step with
      | Some a => x ← body x a; each_step body x items
      | None => each_step body x items
      end
  end.

(** [while True] over [read_next_batch()] *)
Fixpoint each_read (body : X → B → M W X) (x : X) (reads : list (M W (option B))) : M W X :=
  match reads with
  | [] => mret x
  | item :: reads =>
      batch ← item;
      match batch with
      | Some b => x ← body x b; each_read body x reads
      | None => mret x
      end
  end.

Definition each_batch (self : BatchStream) (body : X → B → M W X) (x : X) : M W X :=
  match source self with
  | IndexedSource items => each_step (λ x ib, body x ib.2) x items
  | ReaderSource reads => each_read body x reads
  | PlainSource items => each_step body x items
  end.
Definition iter_batches (self : BatchStream) (body : X → B → M W X) (x : X) : M stream_state X :=
  assert_not_closed;;
  on_stream (each_batch self body x).
End iterate.

(** The loop of [iter_batches_with_cursors] over indexed batches *)
Fixpoint each_indexed {X} (body : X → B → BatchCursor → M W X) (x : X) (next_batch_index last_physical : Z)
    (items : steps (Z * B)) : M W X :=
  match items with
  | [] => mret x
  | item :: items =>
      step ← item;
      match step with
      | Some (physical_index, batch) =>
          (if physical_index <=? last_physical
           then throw (err DataSluiceError "Physical row-group indexes must increase monotonically") else mret tt);;
          cursor ← lift_res (cursor_at (next_batch_index + 1) (physical_index + 1));
          x ← body x batch cursor;
          each_indexed body x (next_batch_index + 1) physical_index items
      | None => each_indexed body x next_batch_index last_physical items
      end
  end.

(** The body of the other loop: the carried index is [previous]. *)
Definition counted {X} (body : X → B → BatchCursor → M W X) (px : Z * X) (batch : B) : M W (Z * X) :=
  let '(previous, x) := px in
  let next_batch := previous + 1 in
  (if next_batch <=? previous then throw (err DataSluiceError "Batch cursor indexes must increase monotonically") else mret tt);;
  cursor ← lift_res (cursor_at next_batch next_batch);
  x ← body x batch cursor;
  mret (next_batch, x).

Definition iter_batches_with_cursors {X} (self : BatchStream) (body : X → B → BatchCursor → M W X) (x : X)
    : M stream_state X :=
  assert_not_closed;;
  match source self with
  | IndexedSource items => on_stream (each_indexed body x (start_batch_index self) (start_row_group_index self - 1) items)
  | _ => r ← iter_batches self (counted body) (start_batch_index self, x); mret r.2
  end.

(** ** Closing *)

(** [try: close() except Exception as exc]: what it raised *)
Definition attempt_close (close : option (M W unit)) : M W (option exn) :=
  match close with
  | None => mret None
  | Some close => try_except (close;; mret None) (λ e, if is_Exception (exn_kind e) then Some (mret (Some e)) else None)
  end.
Fixpoint close_each (first_exc : option exn) (cs : list (option (M W unit))) : M W (option exn) :=
  match cs with
  | [] => mret first_exc
  | c :: cs =>
      exc ← attempt_close c;
      close_each (match first_exc with Some e => Some e | None => exc end) cs
  end.

Definition close_stream (self : BatchStream) : M stream_state unit :=
  closed ← read fst;
  if (closed : bool) then mret tt
  else
    modify (λ s, (true, s.2));;
    first_exc ← on_stream (close_each None (source_close self :: closeables self));
    match first_exc with Some e => throw e | None => mret tt end.
End stream.

Arguments BatchStream : clear implicits.
Arguments stream_source : clear implicits.

(** ** Row groups *)

(** [pq.ParquetFile]: [num_row_groups], [read_row_group(i)] as one batch of the
    combined chunks, and [schema_arrow] *)
Record ParquetFile (W B S : Type) := { num_row_groups : Z; read_group : Z → M W B; schema_arrow : M W S }.
Arguments num_row_groups {W B S}. Arguments read_group {W B S}. Arguments schema_arrow {W B S}.

(** A binary source: [_safe_seekable(source)], [pq.ParquetFile(source)],
    [read(6)] as its compression format, and [close()] *)
Record byte_source (W B S : Type) := {
  seekable : bool; parquet_file : M W (ParquetFile W B S); detect_format : M W string; close_source : M W unit
}.
Arguments seekable {W B S}. Arguments parquet_file {W B S}. Arguments detect_format {W B S}. Arguments close_source {W B S}.

(** A batch knows its schema and its rows. *)
Class Batches (B S : Type) := { num_rows : B → Z; schema_of : B → S; empty_schema : S }.

Section reader.
Context {W B S : Type} `{!Batches B S}.
Abbreviation steps A := (list (M W (option A))).

Definition format_error (text : string) : exn := err FormatError text.
Definition unsupported_access (text : string) : exn := err UnsupportedAccessError text.

(** [except (pa.ArrowInvalid, ...) as exc: raise FormatError] *)
Definition wrap_arrow {A} (text : string) (m : M W A) : M W A :=
  try_except m (λ e, if is_subclass (exn_kind e) ArrowError then Some (throw (format_error text)) else None).

(** The loop of [read_batches_from_row_group]: empty groups give no item. *)
Definition group_step (file : ParquetFile W B S) (index : Z) : M W (option (Z * B)) :=
  wrap_arrow "Invalid Parquet row group"
    (batch ← read_group file index;
     mret (if 0 <? num_rows batch then Some (index, batch) else None)).

Definition read_batches_from_row_group (src : byte_source W B S) (start_row_group_index : Z) : M W (steps (Z * B)) :=
  lift_res (raise_if (start_row_group_index <? 0) (format_error "Parquet start row-group index must be a non-negative integer"));;
  lift_res (raise_if (negb (seekable src))
    (format_error "Parquet continuation requires a seekable local-file or object-storage source"));;
  file ← wrap_arrow "Invalid Parquet" (parquet_file src);
  lift_res (raise_if (num_row_groups file <? start_row_group_index)
    (format_error "Parquet continuation row group exceeds footer count"));;
  mret (group_step file <$> seqZ start_row_group_index (num_row_groups file - start_row_group_index)).

(** [next(pairs, None)]: the first item and the steps after it *)
Fixpoint next_item {A} (items : steps A) : M W (option (A * steps A)) :=
  match items with
  | [] => mret None
  | item :: items =>
      step ← item;
      match step with Some a => mret (Some (a, items)) | None => next_item items end
  end.

(** [_close_source]: what [close] raises is logged. *)
Definition _close_source (src : byte_source W B S) : M W unit :=
  try_except (close_source src) (λ e, if is_Exception (exn_kind e) then Some (mret tt) else None).

(** [try: m except BaseException: _close_source(source); raise] *)
Definition closing_on_error {A} (src : byte_source W B S) (m : M W A) : M W A :=
  try_except m (λ e, Some (_close_source src;; throw e)).

Definition _build_parquet_cursor_stream (src : byte_source W B S) (start_row_group_index start_batch_index : Z)
    : M W (BatchStream W B S) :=
  first_pair ← closing_on_error src
    (pairs ← read_batches_from_row_group src start_row_group_index;
     next_item pairs);
  '(items, schema) ← match first_pair with
    | None =>
        schema ← try_except (file ← parquet_file src; schema_arrow file)
          (λ e, if is_Exception (exn_kind e) then Some (mret empty_schema) else None);
        mret ([], schema)
    | Some (first_pair, pairs) => mret (mret (Some first_pair) :: pairs, schema_of first_pair.2)
    end;
  closing_on_error src
    (lift_res (make_batch_stream (IndexedSource items) schema start_batch_index (Some start_row_group_index) None
       [Some (close_source src)])).

(** ** The checkpointable openings *)

(** [_open_local_file] and [_open_object_storage], which declare no encoding *)
Class SourceOpener := open_source : ResourceAccess → M W (byte_source W B S).

Context `{!SourceOpener}.

(** [(resource.format or "").upper() == "PARQUET"]: only ASCII letters
    upper-case to these. *)
Definition is_parquet (r : Resource) : bool :=
  bool_decide (string_map Transport.upper_char (default "" (resource_format r)) = "PARQUET").
Definition is_checkpointable (a : ResourceAccess) : bool := bool_decide (access_kind a ∈ ["local_file"; "object_storage"]).

Definition _resolve_access (r : Resource) : result ResourceAccess :=
  match resource_access r with
  | Some a => Ok a
  | None =>
      match resource_url r with
      | Some url => Ok (HttpDownload url "GET")
      | None => Raise (unsupported_access "no access descriptor and no url; cannot default to HttpDownload")
      end
  end.

Definition _open_checkpointable_parquet (r : Resource) (src : byte_source W B S) : M W (BatchStream W B S) :=
  format ← detect_format src;
  if negb (bool_decide (format = "none")) then
    close_source src;;
    throw (unsupported_access ("Checkpointable Parquet resource " +:+ resource_id r +:+ " must not be compressed"))
  else _build_parquet_cursor_stream src 0 0.

(** The branch of [open] for Parquet files that can be checkpointed *)
Definition open_parquet (r : Resource) : M W (BatchStream W B S) :=
  access ← lift_res (_resolve_access r);
  src ← open_source access;
  _open_checkpointable_parquet r src.

Definition open_from_cursor (r : Resource) (cursor : BatchCursor) : M W (BatchStream W B S) :=
  lift_res (raise_if (negb (is_parquet r))
    (unsupported_access ("Continuation for resource " +:+ resource_id r +:+ " supports only PARQUET resources")));;
  access ← lift_res (_resolve_access r);
  if is_checkpointable access then
    src ← open_source access;
    _build_parquet_cursor_stream src (row_group_index cursor) (next_batch_index cursor)
  else throw (unsupported_access ("Continuation for resource " +:+ resource_id r +:+ " requires local_file or object_storage access")).
End reader.
