(* ===== verification/Materialize.v ===== *)
(** * Materialisation

    [sync/materialize.py]: a resource is written to the destination as one
    Parquet (or raw) file under its identity, either in one go or shard by
    shard with a checkpoint after each, and described by an [Artifact].  The
    filesystem, the Parquet format and the clock are the environment. *)
From Stdlib Require Import Ascii ZArith Lia.
From stdpp Require Import strings.
From S2P Require Import Prelude PyVal Urls Json JsonText Uris Transport Artifact StateStore Targets Identity Streams.
Local Open Scope Z_scope.
Local Open Scope py_scope.

(** ** The environment *)

(** What [StateStore.Filesystem] does not have: [open_filesystem],
    [fs.makedirs], [fs.open(uri, "wb")], [fs.info(uri)["size"]] and
    [fs.rm(uri, recursive=True)] *)
Class Destination (W : Type) := {
  #[global] destination_fs :: Filesystem W;
  open_filesystem : string → M W unit;
  makedirs : string → M W unit;
  create_file : string → M W unit;
  file_size : string → M W Z;
  remove_tree : string → M W unit
}.

(** [pyarrow]: [pq.write_table] of one batch, a [ParquetWriter] over batches, and
    the [iter_batches(batch_size=65536)] of a [ParquetFile] with its schema *)
Class ParquetCodec (W B S : Type) := {
  #[global] codec_batches :: Batches B S;
  write_table : B → M W string;
  write_batches : S → list B → M W string;
  read_parquet : string → M W (S * list B);
  to_pylist : B → list row;
  schema_fields : S → arrow_schema
}.

(** [datetime.now(UTC)], and [Path(path).expanduser().resolve().as_uri()] *)
Class Surroundings (W : Type) `{DateTimes} := { now_utc : M W datetime; path_uri : string → M W string }.

(** A reader port: [open], [open_from_cursor], [open_response] on the buffered
    body of a response, [open_bytes], [read_bytes], [transport.send] and
    [allow_private_http], each where the reader has it *)
Record Reader (W B S : Type) := {
  reader_open : Resource → M W (BatchStream W B S);
  reader_open_from_cursor : option (Resource → BatchCursor → M W (BatchStream W B S));
  reader_open_response : option (Resource → string → headers → M W (BatchStream W B S));
  reader_open_bytes : option (Resource → M W string);
  reader_read_bytes : option (Resource → M W string);
  reader_send : option (RuntimeRequest → M W RuntimeResponse);
  reader_allow_private_http : bool
}.
Arguments reader_open {W B S}. Arguments reader_open_from_cursor {W B S}. Arguments reader_open_response {W B S}.
Arguments reader_open_bytes {W B S}. Arguments reader_read_bytes {W B S}. Arguments reader_send {W B S}.
Arguments reader_allow_private_http {W B S}.

Definition _PARQUET_MEDIA_TYPE : string := "application/x-parquet".
Definition MAX_DOCUMENT_BYTES : Z := 64 * 1024 * 1024.

(** [str(n).rjust(20, "0")] of [f"{n:020d}"] *)
Definition zero_padded (n : Z) : string :=
  let digits := int_repr n in String.string_of_list_ascii (replicate (20 - String.length digits) "0"%char) +:+ digits.

Definition _batch_shard_uri (partial_uri : string) (batch_index : Z) : string :=
  partial_uri +:+ "/" +:+ zero_padded batch_index +:+ ".parquet".
Definition partial_uri_of (base_uri identity : string) : string := base_uri +:+ "/.datasluice-partial/" +:+ identity.
Definition final_uri_of (base_uri identity suffix : string) : string := base_uri +:+ "/" +:+ identity +:+ "." +:+ suffix.

Definition _raw_media_type (r : Resource) : string :=
  match or_text (resource_media_type r) None with
  | Some m => m
  | None =>
      match resource_format r with
      | Some "CSV" => "text/csv"
      | Some "JSON" => "application/json"
      | Some "JSONL" => "application/x-ndjson"
      | Some "XML" => "application/xml"
      | _ => "application/octet-stream"
      end
  end.

Section materialize.
Context `{IpLiterals, IpAddresses, QueryText, UrlJoin, DateTimes, FloatText, Sha256} {W B S : Type}.
Context `{!Destination W, !ParquetCodec W B S, !Surroundings W, !Resolver W, !SourceOpener (W := W) (B := B) (S := S)}.

(** ** Digests and temporary files *)

(** [_hash_source] of a file; the digest reads it in chunks. *)
Definition _blob_digest_from_fs (uri : string) : M W string := data ← cat_file uri; mret (sha256 data).

Definition _temporary_uri (final_uri : string) : M W string :=
  suffix ← temporary_suffix;
  mret (final_uri +:+ ".tmp." +:+ suffix).

(** The writer gives its batches on to the digest as they come. *)
Definition _write_parquet (uri : string) (schema : S) (batches : M W (list B)) : M W string :=
  create_file uri;;
  bs ← batches;
  data ← write_batches schema bs;
  pipe_file uri data;;
  lift_res (logical_sha256_batches (schema_fields schema) (to_pylist <$> bs)).

Definition _atomic_pipe (final_uri payload : string) : M W unit :=
  tmp_uri ← _temporary_uri final_uri;
  try_except (pipe_file tmp_uri payload;; mv tmp_uri final_uri)
    (λ e, if is_Exception (exn_kind e)
          then Some (safe_remove tmp_uri;; throw (err DownloadError ("Failed to atomically publish " +:+ sanitize_uri final_uri)))
          else None).

(** ** The artifact *)

Definition _source_locator (r : Resource) (given : option DirectResourceLocator) : M W DirectResourceLocator :=
  match given with
  | Some l => mret l
  | None =>
      let uri := or_text (or_text (resource_access r ≫= access_url) (resource_access r ≫= access_uri)) (resource_url r) in
      uri ← match uri, resource_access r with
            | None, Some (LocalFile path) => u ← path_uri path; mret (Some u)
            | u, _ => mret u
            end;
      match uri with
      | Some u =>
          if str_nonempty u then lift_res (make_locator u (resource_format r) (resource_media_type r) (PyDict []))
          else throw (err DataSluiceError "Artifact materialization requires a serializable source locator")
      | None => throw (err DataSluiceError "Artifact materialization requires a serializable source locator")
      end
  end.

Definition _artifact (r : Resource) (uri media_type : string) (size : Z) (content_digest blob_digest mode : string)
    (source_locator : option DirectResourceLocator) (created_at : option datetime) (transforms : list string) : M W Artifact :=
  content ← lift_res (make_digest "sha256" content_digest);
  blob ← lift_res (make_digest "sha256" blob_digest);
  locator ← _source_locator r source_locator;
  identity ← lift_res (canonical_identity r);
  created ← match created_at with Some d => mret d | None => now_utc end;
  prov ← lift_res (make_provenance {| source_locator := locator; resource_identity := identity; created_at := created;
                                      materialization_mode := mode; transforms := transforms |});
  lift_res (make_artifact (sanitize_uri uri) media_type size content blob prov (PyDict []) (PyDict [])).

Definition _is_current_artifact (value : Artifact) (uri media_type : string) (size : Z) (content_digest blob_digest mode : string) : bool :=
  bool_decide (Artifact.uri value = sanitize_uri uri) && bool_decide (Artifact.media_type value = media_type) &&
  (Artifact.size value =? size) && bool_decide (digest_value (Artifact.content_digest value) = content_digest) &&
  bool_decide (digest_value (Artifact.blob_digest value) = blob_digest) &&
  bool_decide (materialization_mode (provenance value) = mode).

Definition _stored_artifact_if_current (stored : option Artifact) (uri media_type : string) (size : Z)
    (content_digest blob_digest mode : string) : option Artifact :=
  match stored with
  | Some a => if _is_current_artifact a uri media_type size content_digest blob_digest mode then Some a else None
  | None => None
  end.

(** ** Publishing a stream of batches *)

Definition _publish_parquet (r : Resource) (final_uri : string) (schema : S) (batches : M W (list B))
    (source_locator : option DirectResourceLocator) (created_at : option datetime) (transforms : list string) : M W Artifact :=
  tmp_uri ← _temporary_uri final_uri;
  try_finally
    (content_digest ← _write_parquet tmp_uri schema batches;
     size ← file_size tmp_uri;
     blob_digest ← _blob_digest_from_fs tmp_uri;
     mv tmp_uri final_uri;;
     _artifact r final_uri _PARQUET_MEDIA_TYPE size content_digest blob_digest "parquet" source_locator created_at transforms)
    (safe_remove tmp_uri).

(** [with stream: body]: a stream that is open, and closed afterwards *)
Definition with_stream {A} (stream : BatchStream W B S) (body : M (bool * W) A) : M W A := λ w,
  let '(r, s) := try_finally body (close_stream stream) (false, w) in (r, s.2).

(** [list(stream.iter_batches())] as a consumer drives it *)
Definition all_batches (stream : BatchStream W B S) : M (bool * W) (list B) :=
  iter_batches stream (λ bs b, mret (bs ++ [b])) [].

(** ** Checkpointed materialisation *)

Definition missing_shard (r : Resource) (batch_index : Z) : exn :=
  err DataSluiceError ("Corrupt continuation for resource " +:+ resource_id r +:+ ": completed shard " +:+
                       int_repr batch_index +:+ " is missing").

Fixpoint require_shards (r : Resource) (partial_uri : string) (indices : list Z) : M W unit :=
  match indices with
  | [] => mret tt
  | i :: indices =>
      present ← exists_file (_batch_shard_uri partial_uri i);
      if (present : bool) then require_shards r partial_uri indices else throw (missing_shard r i)
  end.
Definition _require_checkpoint_shards (r : Resource) (partial_uri : string) (count : Z) : M W unit :=
  require_shards r partial_uri (seqZ 0 count).

Fixpoint read_shards (partial_uri : string) (indices : list Z) : M W (list B) :=
  match indices with
  | [] => mret []
  | i :: indices =>
      data ← cat_file (_batch_shard_uri partial_uri i);
      file ← read_parquet data;
      rest ← read_shards partial_uri indices;
      mret (file.2 ++ rest)
  end.
Definition _checkpoint_batches (partial_uri : string) (count : Z) : M W (list B) := read_shards partial_uri (seqZ 0 count).

Definition _publish_batch_shard (shard_uri : string) (batch : B) : M W unit :=
  data ← write_table batch;
  present ← exists_file shard_uri;
  (if (present : bool) then rm shard_uri else mret tt);;
  _atomic_pipe shard_uri data.

(** The body of the loop over batches and cursors.  What [on_batch_persisted]
    changes of its own is [X]; it is of no use once something was raised. *)
Definition stage_batch {X} (r : Resource) (partial_uri : string) (on_batch_persisted : X → BatchCursor → M W X)
    (carried : Z * X) (batch : B) (cursor : BatchCursor) : M W (Z * X) :=
  let '(next, x) := carried in
  (if negb (next_batch_index cursor =? next + 1) then
     throw (err DataSluiceError ("Corrupt batch cursor for resource " +:+ resource_id r +:+ ": expected " +:+
                                 int_repr (next + 1) +:+ ", got " +:+ int_repr (next_batch_index cursor)))
   else mret tt);;
  _publish_batch_shard (_batch_shard_uri partial_uri next) batch;;
  x ← on_batch_persisted x cursor;
  mret (next_batch_index cursor, x).

Definition materialize_checkpointed {X} (r : Resource) (stream : BatchStream W B S) (destination_uri : string) (start_batch_index : Z)
    (on_batch_persisted : X → BatchCursor → M W X) (x : X) (source_locator : option DirectResourceLocator)
    (created_at : option datetime) (transforms : list string) : M W (Artifact * X) :=
  lift_res (raise_if (start_batch_index <? 0)
    (err DataSluiceError "Checkpointed materialization requires a non-negative start batch index"));;
  let base_uri := rstrip_slash destination_uri in
  open_filesystem base_uri;;
  makedirs base_uri;;
  identity ← lift_res (canonical_identity r);
  let partial_uri := partial_uri_of base_uri identity in
  makedirs partial_uri;;
  _require_checkpoint_shards r partial_uri start_batch_index;;
  '(next, x) ← with_stream stream
    (iter_batches_with_cursors stream (stage_batch r partial_uri on_batch_persisted) (start_batch_index, x));
  _require_checkpoint_shards r partial_uri next;;
  artifact ← _publish_parquet r (final_uri_of base_uri identity "parquet") (schema stream)
               (_checkpoint_batches partial_uri next) source_locator created_at transforms;
  mret (artifact, x).

(** What removing the shards raises is logged. *)
Definition cleanup_checkpointed (r : Resource) (destination_uri : string) : M W unit :=
  let base_uri := rstrip_slash destination_uri in
  identity ← lift_res (canonical_identity r);
  try_except (open_filesystem base_uri;; remove_tree (partial_uri_of base_uri identity))
    (λ e, if is_Exception (exn_kind e) then Some (mret tt) else None).

(** ** The health of a destination *)

Definition destination_health (r : Resource) (record : Artifact) (destination_uri : string) : M W bool :=
  let base_uri := rstrip_slash destination_uri in
  let suffix := if bool_decide (materialization_mode (provenance record) = "raw") then "bin" else "parquet" in
  identity ← lift_res (canonical_identity r);
  if negb (bool_decide (Artifact.uri record = final_uri_of base_uri identity suffix)) then mret false
  else
    try_except
      (open_filesystem base_uri;;
       present ← exists_file (Artifact.uri record);
       if negb present then mret false
       else
         size ← file_size (Artifact.uri record);
         if negb (size =? Artifact.size record) then mret false
         else digest ← _blob_digest_from_fs (Artifact.uri record);
              mret (bool_decide (digest = digest_value (Artifact.blob_digest record))))
      (λ e, if is_Exception (exn_kind e) then Some (mret false) else None).
End materialize.

(** ** Materialising in one go *)

(** The bytes of a local file or of an object: [open(path, "rb")] and
    [fs.open(uri, "rb")], which [_compute_source_version] reads too *)
Class SourceBytes (W : Type) := read_access : ResourceAccess → M W string.

(** [read_document] of [data/readers/base.py], on what there is to read *)
Definition read_document (data : string) : result string :=
  raise_if (MAX_DOCUMENT_BYTES <? Z.of_nat (String.length data))
    (err FormatError "Whole-document JSON and GeoJSON reads are limited to 64 MiB; use JSONL for larger data");;
  Ok data.

Definition _validated_mode (mode : string) : result unit :=
  raise_if (negb (bool_decide (mode ∈ ["parquet"; "raw"])))
    (err ValueError ("Unsupported materialize mode " +:+ mode +:+ "; expected 'parquet' or 'raw'")).

Section once.
Context `{IpLiterals, IpAddresses, QueryText, UrlJoin, DateTimes, FloatText, Sha256} {W B S : Type}.
Context `{!Destination W, !ParquetCodec W B S, !Surroundings W, !Resolver W, !SourceBytes W}.

(** *** Raw bytes *)

Definition raw_request (hop : string) : result RuntimeRequest :=
  make_runtime_request "GET" hop [] None [] NO_FOLLOW (Some MAX_DOCUMENT_BYTES) None.

Definition _read_raw (r : Resource) (reader : Reader W B S) : M W string :=
  let unreadable := throw (err ValueError ("Resource " +:+ resource_id r +:+ " cannot be read in raw mode")) in
  match reader_read_bytes reader with
  | Some read_bytes =>
      payload ← read_bytes r;
      lift_res (raise_if (MAX_DOCUMENT_BYTES <? Z.of_nat (String.length payload))
        (err DataSluiceError "Buffered raw readers are limited to 64 MiB; provide open_bytes for streaming"));;
      mret payload
  | None =>
      match resource_access r with
      | Some (LocalFile path) => data ← read_access (LocalFile path); lift_res (read_document data)
      | Some (ObjectStorage uri) => open_filesystem uri;; data ← read_access (ObjectStorage uri); lift_res (read_document data)
      | access =>
          match reader_send reader, or_text (access ≫= access_url) (resource_url r) with
          | Some transport_send, Some url =>
              response ← follow_redirects status_code resp_headers (reader_allow_private_http reader) "Raw download" DownloadError
                           (λ hop, request ← lift_res (raw_request hop); transport_send request) None url;
              lift_res (raise_if (MAX_DOCUMENT_BYTES <? Z.of_nat (String.length (body response)))
                (err DownloadError "Raw download failed or exceeded the buffer limit"));;
              mret (body response)
          | _, _ => unreadable
          end
      end
  end.

(** The source is copied to the file, and the file is hashed. *)
Definition _write_raw (uri : string) (r : Resource) (reader : Reader W B S) : M W string :=
  data ← match reader_open_bytes reader with Some open_bytes => open_bytes r | None => _read_raw r reader end;
  create_file uri;;
  pipe_file uri data;;
  _blob_digest_from_fs uri.

(** *** Files that are already there *)

Definition _destination_checksum (final_uri media_type : string) : M W string :=
  data ← cat_file final_uri;
  if bool_decide (media_type = _PARQUET_MEDIA_TYPE) then
    file ← read_parquet data;
    lift_res (logical_sha256_batches (schema_fields file.1) (to_pylist <$> file.2))
  else mret (sha256 data).

Definition _existing_record (final_uri tmp_uri media_type checksum : string) (stored_checksum staged_digest : option string)
    : M W (bool * option string) :=
  if negb (bool_decide (stored_checksum = Some checksum)) then mret (false, None)
  else
    present ← exists_file final_uri;
    if negb present then mret (false, None)
    else
      try_except
        (published_size ← file_size final_uri;
         staged_size ← file_size tmp_uri;
         same ← (if published_size =? staged_size then
                   published ← _blob_digest_from_fs final_uri;
                   staged ← match staged_digest with Some d => mret d | None => _blob_digest_from_fs tmp_uri end;
                   mret (if bool_decide (published = staged) then Some published else None)
                 else mret None);
         match same with
         | Some published => mret (true, Some published)
         | None =>
             logical ← _destination_checksum final_uri media_type;
             if bool_decide (logical = checksum) then digest ← _blob_digest_from_fs final_uri; mret (true, Some digest)
             else mret (false, None)
         end)
        (λ e, if is_Exception (exn_kind e) then Some (mret (false, None)) else None).

Definition _published_blob_digest (uri mode content_digest : string) (existing : bool) (published_digest : option string) : M W string :=
  if bool_decide (mode = "raw") && negb existing then mret content_digest
  else match published_digest with Some d => mret d | None => _blob_digest_from_fs uri end.

(** *** The two ways in *)

(** [stream.iter_batches()] of a stream that is open *)
Definition stream_batches (stream : BatchStream W B S) : M W (list B) := λ w,
  let '(r, s) := all_batches stream (false, w) in (r, s.2).

Definition materialize (r : Resource) (reader : Reader W B S) (destination_uri mode : string) (stored_checksum : option string)
    (stored_artifact : option Artifact) (source_locator : option DirectResourceLocator) (created_at : option datetime)
    (transforms : list string) : M W Artifact :=
  let base_uri := rstrip_slash destination_uri in
  open_filesystem base_uri;;
  makedirs base_uri;;
  identity ← lift_res (canonical_identity r);
  lift_res (_validated_mode mode);;
  let is_table := bool_decide (mode = "parquet") in
  let final_uri := final_uri_of base_uri identity (if is_table then "parquet" else "bin") in
  let media_type := if is_table then _PARQUET_MEDIA_TYPE else _raw_media_type r in
  tmp_uri ← _temporary_uri final_uri;
  try_finally
    (content_digest ← (if is_table then
                         stream ← reader_open reader r;
                         with_stream stream (on_stream (_write_parquet tmp_uri (schema stream) (stream_batches stream)))
                       else _write_raw tmp_uri r reader);
     let staged_digest := if bool_decide (mode = "raw") then Some content_digest else None in
     '(existing, published_digest) ← _existing_record final_uri tmp_uri media_type content_digest stored_checksum staged_digest;
     let uri := if (existing : bool) then final_uri else tmp_uri in
     size ← file_size uri;
     blob_digest ← _published_blob_digest uri mode content_digest existing published_digest;
     match _stored_artifact_if_current stored_artifact final_uri media_type size content_digest blob_digest mode with
     | Some current => mret current
     | None =>
         (if existing then mret tt else mv tmp_uri final_uri);;
         _artifact r final_uri media_type size content_digest blob_digest mode source_locator created_at transforms
     end)
    (safe_remove tmp_uri).

Definition _materialize_stream (r : Resource) (stream : BatchStream W B S) (destination_uri mode : string)
    (source_locator : option DirectResourceLocator) (created_at : option datetime) (transforms : list string) : M W Artifact :=
  lift_res (raise_if (negb (bool_decide (mode = "parquet")))
    (err DataSluiceError "Transformed Artifact materialization supports only parquet mode"));;
  let base_uri := rstrip_slash destination_uri in
  open_filesystem base_uri;;
  makedirs base_uri;;
  identity ← lift_res (canonical_identity r);
  _publish_parquet r (final_uri_of base_uri identity "parquet") (schema stream) (stream_batches stream)
    source_locator created_at transforms.

Definition materialize_artifact (r : Resource) (destination_uri : string) (source_locator : DirectResourceLocator)
    (reader : option (Reader W B S)) (stream : option (BatchStream W B S)) (mode : string) (transforms : list string) : M W Artifact :=
  match reader, stream with
  | Some reader, None => materialize r reader destination_uri mode None None (Some source_locator) None transforms
  | None, Some stream => _materialize_stream r stream destination_uri mode (Some source_locator) None transforms
  | _, _ => throw (err DataSluiceError "Artifact materialization requires exactly one reader or stream")
  end.
End once.
