(* ===== verification/Sync.v ===== *)
(** * Sync runs

    [sync/sync.py]: each resource in turn, in a transaction of the state store
    where it has one: read its state, decide whether there is anything to do,
    materialise it, shard by shard with checkpoints where the source allows it,
    and commit the completed state.  The state store, the reader and the
    transport are what their ports promise. *)
From Stdlib Require Import Ascii ZArith Lia.
From stdpp Require Import strings.
From S2P Require Import Prelude PyVal Urls Json JsonText Uris Transport Artifact StateStore Targets Identity Streams Materialize.
Local Open Scope Z_scope.
Local Open Scope py_scope.

(** ** The environment *)

(** A state store: whether it is an [AtomicStateStore], whether it has a
    [key_lock], and its operations; a store without versions is read with
    [get] and written with [put]. *)
Class SyncStore (W : Type) := {
  is_atomic : bool;
  has_key_lock : bool;
  store_get : string → M W (option SyncState);
  store_put : string → SyncState → M W unit;
  store_get_with_version : string → M W (option SyncState * option string);
  store_conditional_put : string → SyncState → option string → M W string;
  store_key_lock : ∀ A, string → M W A → M W A
}.
Arguments store_key_lock {W _ A}.

(** [datetime.now(UTC).isoformat()] *)
Class UtcText (W : Type) := _utcnow_iso : M W string.

Inductive sync_action := Resumed | SkippedUnchanged | SkippedUnsupported | Materialized.

(** ** Checkpoints and completed states *)

Record _Checkpoint := {
  cp_next_batch_index : Z; cp_row_group_index : Z; cp_source_version : option string; cp_destination_identity : string
}.

Definition dict_of (v : pyval) : list (pyval * pyval) := match v with PyDict kvs => kvs | _ => [] end.

Section codec.
Context `{IpLiterals, QueryText, DateTimes, FloatText, Sha256}.

Definition empty_state : SyncState :=
  {| cursor := PyDict []; partitions := PyDict []; last_synced_at := PyNone; extra := PyDict [] |}.

Definition _in_progress_state (c : BatchCursor) (source_version : option string) (destination_uri : string) : result SyncState :=
  destination ← canonical_destination_identity destination_uri;
  let checkpoint := str_dict
    [("version", PyInt 3); ("status", PyStr "in_progress"); ("next_batch_index", PyInt (next_batch_index c));
     ("position", str_dict [("kind", PyStr "parquet_row_group"); ("row_group_index", PyInt (row_group_index c))]);
     ("source_version", opt_str source_version); ("destination_identity", PyStr destination)] in
  Ok {| cursor := PyDict []; partitions := PyDict []; last_synced_at := PyNone;
        extra := str_dict [("datasluice_checkpoint", checkpoint)] |}.

Definition corrupt_checkpoint (text : string) : exn := err DataSluiceError ("Corrupt datasluice checkpoint" +:+ text).

Definition _decode_checkpoint_v3 (checkpoint : list (pyval * pyval)) : result _Checkpoint :=
  match str_items checkpoint with
  | None => Raise (corrupt_checkpoint " v3: unexpected keys")
  | Some d =>
      raise_if (negb (keys_are d _CHECKPOINT_V3_KEYS)) (corrupt_checkpoint " v3: unexpected keys");;
      let invalid := corrupt_checkpoint " v3: invalid field values" in
      raise_if (negb (py_eq_str (get "status" d) "in_progress")) invalid;;
      raise_if (negb (is_index (get "next_batch_index" d))) invalid;;
      match get "position" d, get "next_batch_index" d, get "destination_identity" d with
      | PyDict pkvs, PyInt next, PyStr destination =>
          match str_items pkvs with
          | None => Raise invalid
          | Some p =>
              raise_if (negb (keys_are p _CHECKPOINT_POSITION_KEYS) || negb (py_eq_str (get "kind" p) "parquet_row_group") ||
                        negb (is_index (get "row_group_index" p)) || negb (_is_source_version (get "source_version" d)) ||
                        negb (is_sha256 (PyStr destination))) invalid;;
              match get "row_group_index" p, get "source_version" d with
              | PyInt row, PyStr v => Ok {| cp_next_batch_index := next; cp_row_group_index := row;
                                            cp_source_version := Some v; cp_destination_identity := destination |}
              | PyInt row, _ => Ok {| cp_next_batch_index := next; cp_row_group_index := row;
                                      cp_source_version := None; cp_destination_identity := destination |}
              | _, _ => Raise invalid
              end
          end
      | _, _, _ => Raise invalid
      end
  end.

Definition _decode_checkpoint (state : SyncState) : result (option _Checkpoint) :=
  match lookup_key "datasluice_checkpoint" (dict_of (extra state)) with
  | None => Ok None
  | Some (PyDict checkpoint) =>
      raise_if (negb (py_eq_int (default PyNone (lookup_key "version" checkpoint)) 3)) (corrupt_checkpoint ": unsupported version");;
      Some <$> _decode_checkpoint_v3 checkpoint
  | Some _ => Raise (corrupt_checkpoint ": expected dict")
  end.

Definition _completed_artifact_record (state : option SyncState) : result (option Artifact) :=
  match state with
  | None => Ok None
  | Some s =>
      match lookup_key "datasluice_completed_artifact" (dict_of (extra s)) with
      | Some (PyDict kvs) =>
          match artifact_from_dict (PyDict kvs) with
          | Ok a => Ok (Some a)
          | Raise e => if is_subclass (exn_kind e) DataSluiceError then Ok None else Raise e
          end
      | _ => Ok None
      end
  end.

(** [state.cursor.get(key)] *)
Definition watermark_of (key : string) (s : SyncState) : option string :=
  match lookup_key key (dict_of (cursor s)) with Some (PyStr w) => Some w | _ => None end.

Definition completed_state (state_key watermark : string) (record : Artifact) (source_version : option string) (now : string) : SyncState :=
  {| cursor := str_dict [(state_key, PyStr watermark)]; partitions := PyDict []; last_synced_at := PyStr now;
     extra := str_dict (("datasluice_completed_artifact", artifact_to_dict record) ::
                        match source_version with Some v => [("datasluice_source_version", PyStr v)] | None => [] end) |}.

(** ** Conditional requests *)

Definition _conditional_validators (watermark : option string) : option string * option string :=
  match watermark with
  | None => (None, None)
  | Some w => if starts_with (String quote "") w || starts_with "W/" w then (Some w, None) else (None, Some w)
  end.

(** The header names are compared in lower case; the last one counts. *)
Definition last_header (name : string) (h : headers) : option string :=
  snd <$> last (List.filter (λ kv, bool_decide (str_lower kv.1 = name)) h).
Definition _preferred_watermark (h : headers) : option string :=
  match last_header "etag" h with Some etag => Some etag | None => last_header "last-modified" h end.

Definition _checkpoint_is_stale (c : _Checkpoint) (source_version : option string) (destination_uri : string) : result bool :=
  let source_changed := match source_version, cp_source_version c with Some a, Some b => negb (bool_decide (a = b)) | _, _ => false end in
  destination ← canonical_destination_identity destination_uri;
  Ok (source_changed || negb (bool_decide (cp_destination_identity c = destination))).
End codec.

(** ** One resource *)

Section sync.
Context `{IpLiterals, IpAddresses, QueryText, UrlJoin, DateTimes, FloatText, Sha256} {W B S : Type}.
Context `{!Destination W, !ParquetCodec W B S, !Surroundings W, !Resolver W, !SourceBytes W, !SyncStore W, !UtcText W}.

Record SyncOutcome := {
  so_resource : Resource; so_action : sync_action; so_record : option Artifact; so_state_key : option string
}.
Definition outcome (r : Resource) (action : sync_action) (record : option Artifact) (key : string) : SyncOutcome :=
  {| so_resource := r; so_action := action; so_record := record; so_state_key := Some key |}.

Record _SyncContext := {
  prior : option SyncState; prior_version : option string; checkpoint : option _Checkpoint;
  stable_source_version : option string; prior_artifact : option Artifact; destination_was_healthy : bool;
  watermark : option string; checkpointed_kind : bool; ctx_outcome : option SyncOutcome
}.

(** The digest of what there is to read, for the accesses that are checkpointed *)
Definition _compute_source_version (r : Resource) : M W (option string) :=
  match resource_access r with
  | Some a =>
      if is_checkpointable a then
        try_except
          (match a with ObjectStorage uri => open_filesystem uri | _ => mret tt end;;
           data ← read_access a;
           mret (Some (sha256 data)))
          (λ e, if is_subclass (exn_kind e) OSError then Some (mret None) else None)
      else mret None
  | None => mret None
  end.

Definition _resume_outcome (r : Resource) (prior : option SyncState) (key destination_uri : string) (resume : bool)
    : M W (option Artifact * option SyncOutcome) :=
  completed ← lift_res (_completed_artifact_record prior);
  match completed with
  | Some a =>
      if resume then
        healthy ← destination_health r a destination_uri;
        if (healthy : bool) then mret (completed, Some (outcome r Resumed completed key)) else mret (completed, None)
      else mret (completed, None)
  | None => mret (None, None)
  end.

Definition _source_version_unchanged (prior : option SyncState) (prior_artifact : option Artifact) (stable_source_version : option string)
    (healthy : bool) : bool :=
  match prior, prior_artifact, stable_source_version with
  | Some s, Some _, Some v =>
      healthy && match lookup_key "datasluice_source_version" (dict_of (extra s)) with Some x => py_eq_str x v | None => false end
  | _, _, _ => false
  end.

(** What [_load_sync_context] reads of the store, and what it makes of it *)
Definition read_prior (key : string) : M W (option SyncState * option string) :=
  if is_atomic then store_get_with_version key else (s ← store_get key; mret (s, None)).
Definition prior_checkpoint (prior : option SyncState) : result (option _Checkpoint) :=
  match prior with Some s => _decode_checkpoint s | None => Ok None end.
Definition is_stale (checkpoint : option _Checkpoint) (source_version : option string) (destination_uri : string) : result bool :=
  match checkpoint with Some c => _checkpoint_is_stale c source_version destination_uri | None => Ok false end.
Definition is_healthy (r : Resource) (artifact : option Artifact) (destination_uri : string) : M W bool :=
  match artifact with Some a => destination_health r a destination_uri | None => mret false end.

Definition _load_sync_context (r : Resource) (key destination_uri : string) (resume : bool) : M W _SyncContext :=
  '(prior, prior_version) ← read_prior key;
  checkpoint ← lift_res (prior_checkpoint prior);
  '(completed, early) ← _resume_outcome r prior key destination_uri (resume && bool_decide (checkpoint = None));
  match early with
  | Some o =>
      mret {| prior := prior; prior_version := prior_version; checkpoint := None; stable_source_version := None;
              prior_artifact := completed; destination_was_healthy := true; watermark := prior ≫= watermark_of key;
              checkpointed_kind := false; ctx_outcome := Some o |}
  | None =>
      let checkpointed_kind := is_parquet r && bool_decide (kind_of r ∈ ["local_file"; "object_storage"]) in
      source_version ← (if checkpointed_kind then _compute_source_version r else mret None);
      stale ← lift_res (is_stale checkpoint source_version destination_uri);
      let checkpoint := if (stale : bool) then None else checkpoint in
      let prior := if stale then None else prior in
      prior_artifact ← lift_res (_completed_artifact_record prior);
      healthy ← is_healthy r prior_artifact destination_uri;
      let unchanged := bool_decide (checkpoint = None) && checkpointed_kind &&
                       _source_version_unchanged prior prior_artifact source_version healthy in
      mret {| prior := prior; prior_version := prior_version; checkpoint := if unchanged then None else checkpoint;
              stable_source_version := source_version; prior_artifact := prior_artifact;
              destination_was_healthy := if unchanged then true else healthy; watermark := prior ≫= watermark_of key;
              checkpointed_kind := if unchanged then true else checkpointed_kind;
              ctx_outcome := if unchanged then Some (outcome r SkippedUnchanged prior_artifact key) else None |}
  end.

(** [_SingleStreamReader(stream)]: its [open] gives the stream once; sync opens
    it once. *)
Definition single_stream_reader (stream : BatchStream W B S) : Reader W B S := {|
  reader_open _ := mret stream; reader_open_from_cursor := None; reader_open_response := None;
  reader_open_bytes := None; reader_read_bytes := None; reader_send := None; reader_allow_private_http := false
|}.

Definition conditional_headers (watermark : option string) : headers :=
  let '(etag, last_modified) := _conditional_validators watermark in
  match etag with Some v => [("If-None-Match", v)] | None => [] end ++
  match last_modified with Some v => [("If-Modified-Since", v)] | None => [] end.

Definition _conditional_reader (r : Resource) (reader : Reader W B S) (transport : option (RuntimeRequest → M W RuntimeResponse))
    (destination_uri key : string) (context : _SyncContext) : M W (Reader W B S * option string * option SyncOutcome) :=
  let as_is := (reader, None, None) in
  match transport, reader_open_response reader, or_text (resource_access r ≫= access_url) (resource_url r) with
  | Some transport_send, Some open_response, Some url =>
      if negb (bool_decide (kind_of r = "http_download")) then mret as_is
      else if match watermark context with Some w => is_sha256 (PyStr w) | None => false end then mret as_is
      else
        try_except (validate_http_target (PyStr url) (reader_allow_private_http reader) true)
          (λ e, if is_subclass (exn_kind e) ValueError
                then Some (throw (err DataSluiceError ("Conditional fetch target is invalid (" +:+ exn_msg e +:+ ")"))) else None);;
        request ← lift_res (make_runtime_request "GET" url (conditional_headers (watermark context)) None [] NO_FOLLOW None None);
        response ← transport_send request;
        let status := status_code response in
        if bool_decide (status ∈ [301; 302; 303; 307; 308]) then mret as_is
        else if status =? 304 then
          completed ← lift_res (_completed_artifact_record (prior context));
          match completed with
          | Some a =>
              healthy ← destination_health r a destination_uri;
              if (healthy : bool) then mret (reader, None, Some (outcome r SkippedUnchanged completed key)) else mret as_is
          | None => mret as_is
          end
        else if negb ((200 <=? status) && (status <? 300)) then
          throw (err DataSluiceError ("Conditional fetch for resource " +:+ resource_id r +:+ " returned HTTP " +:+ int_repr status))
        else
          stream ← open_response r (body response) (resp_headers response);
          mret (single_stream_reader stream, _preferred_watermark (resp_headers response), None)
  | _, _, _ => mret as_is
  end.

(** [_persist_batch_state]: [box] is the version of the last write. *)
Definition _persist_batch_state (key : string) (source_version : option string) (destination_uri : string)
    (box : option string) (c : BatchCursor) : M W (option string) :=
  state ← lift_res (_in_progress_state c source_version destination_uri);
  if is_atomic then version ← store_conditional_put key state box; mret (Some version)
  else store_put key state;; mret box.

Definition reader_lacks_cursor (r : Resource) (row_group : Z) : exn :=
  err DataSluiceError ("continuation reader for resource " +:+ resource_id r +:+ " cannot resume row group " +:+
                       int_repr row_group +:+ "; reader lacks open_from_cursor").
Definition source_changed_error (r : Resource) : exn :=
  err DataSluiceError ("Source for resource " +:+ resource_id r +:+ " changed during sync; " +:+
                       "aborting to avoid publishing a mixed-version artifact. Retry the sync.").

(** The stream to materialise from, its first batch index and the action *)
Definition open_for_sync (r : Resource) (reader : Reader W B S) (context : _SyncContext) (resume : bool)
    : M W (BatchStream W B S * Z * sync_action) :=
  match (if resume then checkpoint context else None) with
  | Some c =>
      match reader_open_from_cursor reader with
      | None => throw (reader_lacks_cursor r (cp_row_group_index c))
      | Some open_from_cursor =>
          cursor ← lift_res (cursor_at (cp_next_batch_index c) (cp_row_group_index c));
          stream ← open_from_cursor r cursor;
          mret (stream, cp_next_batch_index c, Resumed)
      end
  | None => stream ← reader_open reader r; mret (stream, 0, Materialized)
  end.

Definition _materialize_resource (r : Resource) (reader : Reader W B S) (destination_uri key : string) (context : _SyncContext)
    (resume : bool) : M W (Artifact * sync_action * bool * option string) :=
  let use_checkpointed := checkpointed_kind context &&
    (bool_decide (checkpoint context ≠ None) || bool_decide (prior_artifact context = None) || negb (destination_was_healthy context)) in
  if negb use_checkpointed then
    record ← materialize r reader destination_uri "parquet" (watermark context) None None None [];
    mret (record, Materialized, false, prior_version context)
  else
    '(stream, start_batch_index, action) ← open_for_sync r reader context resume;
    '(record, box) ← materialize_checkpointed r stream destination_uri start_batch_index
      (_persist_batch_state key (stable_source_version context) destination_uri) (prior_version context) None None [];
    post_source_version ← _compute_source_version r;
    (match post_source_version, stable_source_version context with
     | Some post, Some stable =>
         if bool_decide (post = stable) then mret tt
         else cleanup_checkpointed r destination_uri;; throw (source_changed_error r)
     | _, _ => mret tt
     end);;
    mret (record, action, true, box).

Definition _completed_sync_state (state_key watermark : string) (record : Artifact) (source_version : option string) : M W SyncState :=
  now ← _utcnow_iso;
  mret (completed_state state_key watermark record source_version now).

Definition _finish_resource_sync (r : Resource) (record : Artifact) (action : sync_action) (use_checkpointed : bool)
    (fresh_watermark : option string) (destination_uri key : string) (context : _SyncContext) (box : option string) : M W SyncOutcome :=
  let checksum := digest_value (content_digest record) in
  if bool_decide (fresh_watermark = None) && bool_decide (watermark context = Some checksum) &&
     destination_was_healthy context && negb use_checkpointed && bool_decide (prior_artifact context ≠ None) then
    mret (outcome r SkippedUnchanged (prior_artifact context) key)
  else
    let new_watermark := match or_text fresh_watermark None with Some w => w | None => checksum end in
    completed ← _completed_sync_state key new_watermark record (stable_source_version context);
    (if is_atomic then store_conditional_put key completed box;; mret tt else store_put key completed);;
    (if use_checkpointed then cleanup_checkpointed r destination_uri else mret tt);;
    mret (outcome r action (Some record) key).

Definition _sync_transaction_outcome (r : Resource) (reader : Reader W B S) (transport : option (RuntimeRequest → M W RuntimeResponse))
    (destination_uri key : string) (context : _SyncContext) (resume : bool) : M W SyncOutcome :=
  '(materialize_reader, fresh_watermark, conditional) ← _conditional_reader r reader transport destination_uri key context;
  match conditional with
  | Some o => mret o
  | None =>
      '(record, action, use_checkpointed, box) ← _materialize_resource r materialize_reader destination_uri key context resume;
      _finish_resource_sync r record action use_checkpointed fresh_watermark destination_uri key context box
  end.

(** [with _resource_transaction(...)] *)
Definition _resource_transaction {A} (key : string) (body : M W A) : M W A :=
  if is_atomic then
    if has_key_lock then store_key_lock key body
    else throw (err DataSluiceError "Atomic sync requires a key_lock spanning artifact publication and state commit")
  else body.

(** The body of the loop up to its [yield] *)
Definition sync_one (reader : Reader W B S) (destination_uri : string) (transport : option (RuntimeRequest → M W RuntimeResponse))
    (resume : bool) (r : Resource) : M W SyncOutcome :=
  if bool_decide (kind_of r ∈ ["query"; "stream"]) then
    mret {| so_resource := r; so_action := SkippedUnsupported; so_record := None; so_state_key := None |}
  else
    key ← lift_res (canonical_identity r);
    _resource_transaction key
      (context ← _load_sync_context r key destination_uri resume;
       match ctx_outcome context with
       | Some o => mret o
       | None => _sync_transaction_outcome r reader transport destination_uri key context resume
       end).

(** The generator: what its consumer does with an outcome is [yield_outcome]. *)
Fixpoint sync_each (reader : Reader W B S) (destination_uri : string) (transport : option (RuntimeRequest → M W RuntimeResponse))
    (resume : bool) (yield_outcome : SyncOutcome → M W unit) (resources : list Resource) : M W unit :=
  match resources with
  | [] => mret tt
  | r :: resources =>
      o ← sync_one reader destination_uri transport resume r;
      yield_outcome o;;
      sync_each reader destination_uri transport resume yield_outcome resources
  end.
Definition sync_resources (resources : list Resource) (reader : Reader W B S) (destination_uri : string)
    (transport : option (RuntimeRequest → M W RuntimeResponse)) (resume : bool) (yield_outcome : SyncOutcome → M W unit) : M W unit :=
  lift_res (validate_unique_identities resources);;
  sync_each reader destination_uri transport resume yield_outcome resources.
End sync.
