(* ===== verification/SyncProofs.v ===== *)
(** * Checkpointed syncs survive crashes

    The names of shards and temporary files are apart; a checkpoint reads back
    as it was written; and a sync of a checkpointable resource that was
    interrupted any number of times, anywhere, ends like one that was not. *)
From Stdlib Require Import Ascii ZArith Lia DecimalString DecimalZ DecimalPos.
From stdpp Require Import strings gmap.
From S2P Require Import Prelude PyVal Urls Json JsonText Uris Transport Artifact StateStore StateProofs Targets Identity Streams Materialize Sync.
Local Open Scope Z_scope.
Local Open Scope py_scope.

(** ** Names *)

Definition parse_digits (s : string) : option Z := Z.of_uint <$> NilEmpty.uint_of_string s.

Lemma parse_zeros k s : parse_digits (String.string_of_list_ascii (replicate k "0"%char) +:+ s) = parse_digits s.
Proof.
  induction k as [|k IH]; [done|].
  change (parse_digits (String "0" (String.string_of_list_ascii (replicate k "0"%char) +:+ s)) = parse_digits s). rewrite <- IH.
  unfold parse_digits. cbn. by destruct (NilEmpty.uint_of_string _).
Qed.

Lemma parse_repr n : 0 <= n → parse_digits (int_repr n) = Some n.
Proof.
  intros Hn. destruct n as [|p|p]; [done| |lia]. unfold parse_digits, int_repr. cbn [Z.to_int NilZero.string_of_int].
  pose proof (DecimalPos.Unsigned.of_to p) as Hp. unfold NilZero.string_of_uint.
  destruct (Pos.to_uint p) as [|u|u|u|u|u|u|u|u|u|u] eqn:E.
  1: by rewrite <- E, DecimalPos.Unsigned.of_to in Hp; apply DecimalPos.Unsigned.to_uint_nonnil in E.
  all: rewrite NilEmpty.usu; cbn [option_fmap fmap option_map]; unfold Z.of_uint; by rewrite Hp.
Qed.

Lemma zero_padded_inj i j : 0 <= i → 0 <= j → zero_padded i = zero_padded j → i = j.
Proof.
  intros Hi Hj E. apply (f_equal parse_digits) in E. unfold zero_padded in E. rewrite !parse_zeros, !parse_repr in E by done. congruence.
Qed.

Lemma forallb_app_s p a b : string_forallb p (a +:+ b) = string_forallb p a && string_forallb p b.
Proof. induction a as [|c a IH]; [done|]. change (p c && string_forallb p (a +:+ b) = (p c && string_forallb p a) && string_forallb p b). by rewrite IH, andb_assoc. Qed.

Lemma zero_padded_digits n : 0 <= n → string_forallb is_digit (zero_padded n) = true.
Proof.
  intros Hn. unfold zero_padded. rewrite forallb_app_s. apply andb_true_iff. split.
  - generalize (20 - String.length (int_repr n))%nat. intros k. by induction k.
  - destruct n as [|p|p]; [done| |lia]. unfold int_repr. cbn [Z.to_int NilZero.string_of_int]. unfold NilZero.string_of_uint.
    destruct (Pos.to_uint p); [done|apply digits_of_uint..].
Qed.

(** Digits up to a dot *)
Lemma digits_prefix a b r r' : string_forallb is_digit a = true → string_forallb is_digit b = true →
  a +:+ String "." r = b +:+ String "." r' → a = b ∧ r = r'.
Proof.
  revert b. induction a as [|c a IH]; intros b Ha Hb E.
  - destruct b as [|c' b]; [by injection E as ->|]. injection E as <- _. by cbn in Hb.
  - destruct b as [|c' b]; [injection E as -> _; by cbn in Ha|]. injection E as -> E. cbn in Ha, Hb.
    apply andb_true_iff in Ha as [_ Ha], Hb as [_ Hb]. by destruct (IH b Ha Hb E) as [-> ->].
Qed.

Lemma shard_uri_inj partial i j : 0 <= i → 0 <= j → _batch_shard_uri partial i = _batch_shard_uri partial j → i = j.
Proof.
  unfold _batch_shard_uri. intros Hi Hj E%(inj (String.append _))%(inj (String.append _)).
  apply digits_prefix in E as [E _]; [by apply zero_padded_inj|by apply zero_padded_digits..].
Qed.

Definition temp_of (uri suffix : string) : string := uri +:+ ".tmp." +:+ suffix.

Lemma string_longer a c s : a ≠ a +:+ String c s.
Proof. induction a as [|x a IH]; [done|]. intros E. injection E as E. by apply IH. Qed.
Lemma temp_not_self uri suffix : uri ≠ temp_of uri suffix.
Proof. apply string_longer. Qed.

Lemma shard_not_temp partial i j suffix : 0 <= i → 0 <= j → _batch_shard_uri partial i ≠ temp_of (_batch_shard_uri partial j) suffix.
Proof.
  unfold _batch_shard_uri, temp_of. intros Hi Hj E. rewrite !app_assoc_s in E.
  apply (inj (String.append _)) in E. injection E as E. change (zero_padded i +:+ String "." "parquet" = zero_padded j +:+ String "." ("parquet.tmp." +:+ suffix)) in E.
  apply digits_prefix in E as [_ E]; [discriminate E|by apply zero_padded_digits..].
Qed.

(** A hexadecimal digest does not start with a dot. *)
Lemma final_not_partial base identity rest rest' :
  is_sha256 (PyStr identity) = true → base +:+ "/" +:+ identity +:+ rest ≠ base +:+ "/.datasluice-partial/" +:+ rest'.
Proof.
  intros Hid E. apply (inj (String.append _)) in E. injection E as E. cbn in Hid.
  destruct identity as [|c identity]; [done|]. injection E as -> _. cbn in Hid. by apply andb_true_iff in Hid as [_ Hid].
Qed.
Lemma shard_not_final base identity i suffix :
  is_sha256 (PyStr identity) = true → _batch_shard_uri (partial_uri_of base identity) i ≠ final_uri_of base identity suffix.
Proof.
  intros Hid E. symmetry in E. unfold final_uri_of, _batch_shard_uri, partial_uri_of in E. rewrite !app_assoc_s in E.
  by apply final_not_partial in E.
Qed.
Lemma shard_not_final_temp base identity i suffix sfx :
  is_sha256 (PyStr identity) = true → _batch_shard_uri (partial_uri_of base identity) i ≠ temp_of (final_uri_of base identity suffix) sfx.
Proof.
  intros Hid E. symmetry in E. unfold temp_of, final_uri_of, _batch_shard_uri, partial_uri_of in E. rewrite !app_assoc_s in E.
  by apply final_not_partial in E.
Qed.

(** ** Checkpoints read back *)

Section checkpoints.
Context `{IpLiterals, QueryText, DateTimes, FloatText, Sha256}.
Hypothesis sha_hex : ∀ s, is_sha256 (PyStr (sha256 s)) = true.

Definition source_version_ok (v : option string) : Prop := ∀ s, v = Some s → is_sha256 (PyStr s) = true.

Lemma destination_identity_hex uri d : canonical_destination_identity uri = Ok d → is_sha256 (PyStr d) = true.
Proof. unfold canonical_destination_identity. intros E. apply bind_ok in E as (s & _ & [= <-]). apply sha_hex. Qed.
Lemma identity_hex r d : canonical_identity r = Ok d → is_sha256 (PyStr d) = true.
Proof. unfold canonical_identity. intros E. apply bind_ok in E as (s & _ & [= <-]). apply sha_hex. Qed.

Definition checkpoint_of (c : BatchCursor) (version : option string) (destination : string) : _Checkpoint :=
  {| cp_next_batch_index := next_batch_index c; cp_row_group_index := row_group_index c;
     cp_source_version := version; cp_destination_identity := destination |}.

Lemma decode_in_progress c version uri destination s : 0 <= next_batch_index c → 0 <= row_group_index c →
  source_version_ok version → canonical_destination_identity uri = Ok destination →
  _in_progress_state c version uri = Ok s →
  _decode_checkpoint s = Ok (Some (checkpoint_of c version destination)).
Proof.
  intros Hn Hr Hv Hd E. pose proof (destination_identity_hex _ _ Hd) as Hhex. unfold _in_progress_state in E. rewrite Hd in E. injection E as <-.
  destruct c as [n row]. cbn in Hn, Hr. apply Z.leb_le in Hn, Hr.
  destruct version as [v|]; [pose proof (Hv v eq_refl) as Hv'|]; lazy -[is_sha256 Z.leb];
    rewrite ?Hn, ?Hr; lazy -[is_sha256 Z.leb]; rewrite ?Hv', ?Hhex; reflexivity.
Qed.

Lemma in_progress_not_completed c version uri s : _in_progress_state c version uri = Ok s → _completed_artifact_record (Some s) = Ok None.
Proof. unfold _in_progress_state. intros E. apply bind_ok in E as (d & _ & [= <-]). done. Qed.

Lemma completed_no_checkpoint key wm record version now : _decode_checkpoint (completed_state key wm record version now) = Ok None.
Proof. by destruct version. Qed.
End checkpoints.

(** ** The environment of a sync *)

Section crash.
Context `{IpLiterals, IpAddresses, QueryText, UrlJoin, DateTimes, FloatText, Sha256} {W B S : Type}.
Context `{!Destination W, !ParquetCodec W B S, !Surroundings W, !Resolver W, !SourceBytes W, !SyncStore W, !UtcText W}.
(** The files at the destination and the states of the store; the rows a
    Parquet file holds *)
Variables (fs : W → gmap string string) (st : W → gmap string SyncState) (rows_in : string → option (list row)).

Definition quiet {A} (m : M W A) : Prop := ∀ w, fs (m w).2 = fs w ∧ st (m w).2 = st w.
(** [m] changes nothing, and what it returns is [F] of the files. *)
Definition tells {A} (F : gmap string string → A → Prop) (m : M W A) : Prop :=
  quiet m ∧ ∀ w a w', m w = (Ok a, w') → F (fs w) a.
Definition moved (p q : string) (f f' : gmap string string) : Prop :=
  ∃ data, f !! p = Some data ∧ f' = <[q := data]> (base.delete p f).

(** The destination: every operation does what it is for, or raises, and then
    it may have done it or not; a write that raises may leave anything in its
    file.  A process that dies is an environment in which everything raises
    from then on and changes nothing. *)
Record destination_laws := {
  dl_open p : quiet (open_filesystem p);
  dl_makedirs p : quiet (makedirs p);
  dl_suffix : quiet temporary_suffix;
  dl_cat p : tells (λ f data, f !! p = Some data) (cat_file p);
  dl_exists p : tells (λ f b, b = bool_decide (is_Some (f !! p))) (exists_file p);
  dl_size p : quiet (file_size p);
  dl_create p w r w' : create_file p w = (r, w') → st w' = st w ∧ ∃ content, fs w' = partial_alter (λ _, content) p (fs w);
  dl_pipe p s w r w' : pipe_file p s w = (r, w') → st w' = st w ∧
    match r with Ok _ => fs w' = <[p := s]> (fs w) | Raise _ => ∃ content, fs w' = partial_alter (λ _, content) p (fs w) end;
  dl_mv p q w r w' : mv p q w = (r, w') → st w' = st w ∧
    (moved p q (fs w) (fs w') ∨ is_ok r = false ∧ fs w' = fs w);
  dl_rm p w : st (rm p w).2 = st w ∧ (fs (rm p w).2 = fs w ∨ fs (rm p w).2 = base.delete p (fs w));
  dl_tree p w : st (remove_tree p w).2 = st w ∧
    ∀ q, fs (remove_tree p w).2 !! q = fs w !! q ∨ ∃ rest, q = p +:+ "/" +:+ rest
}.

(** The Parquet format keeps the rows of a table, in order. *)
Record codec_laws := {
  cl_table b : tells (λ _ data, rows_in data = Some (to_pylist b)) (write_table b);
  cl_batches schema bs : tells (λ _ data, rows_in data = Some (mjoin (to_pylist <$> bs))) (write_batches schema bs);
  cl_read data : tells (λ _ file, rows_in data = Some (mjoin (to_pylist <$> file.2))) (read_parquet data)
}.

(** The state store: a write happens, or raises and may have happened. *)
Record store_laws := {
  sl_get key : tells (λ _ _, True) (store_get key) ∧ ∀ w s w', store_get key w = (Ok s, w') → s = st w !! key;
  sl_version key : quiet (store_get_with_version key) ∧ ∀ w s v w', store_get_with_version key w = (Ok (s, v), w') → s = st w !! key;
  sl_put key s w : fs (store_put key s w).2 = fs w ∧
    (st (store_put key s w).2 = <[key := s]> (st w) ∨ is_ok (store_put key s w).1 = false ∧ st (store_put key s w).2 = st w);
  sl_cas key s prior w : fs (store_conditional_put key s prior w).2 = fs w ∧
    (st (store_conditional_put key s prior w).2 = <[key := s]> (st w) ∨
     is_ok (store_conditional_put key s prior w).1 = false ∧ st (store_conditional_put key s prior w).2 = st w);
  (** taking the lock or releasing it may raise *)
  sl_lock A key (m : M W A) w r w' : store_key_lock key m w = (r, w') →
    (is_ok r = false ∧ fs w' = fs w ∧ st w' = st w) ∨
    ∃ w1, fs w1 = fs w ∧ st w1 = st w ∧ fs w' = fs (m w1).2 ∧ st w' = st (m w1).2 ∧ (r = (m w1).1 ∨ is_ok r = false)
}.

Record clock_laws := { kl_now : quiet now_utc; kl_uri p : quiet (path_uri p); kl_text : quiet _utcnow_iso }.

Hypothesis dest : destination_laws.
Hypothesis codec : codec_laws.
Hypothesis store : store_laws.
Hypothesis clocks : clock_laws.

(** ** Quiet computations *)

Lemma quiet_return {A} (a : A) : quiet (mret a).
Proof. done. Qed.
Lemma quiet_lift {A} (m : result A) : quiet (lift_res m).
Proof. done. Qed.
Lemma quiet_throw {A} e : quiet (@throw W A e).
Proof. done. Qed.
Lemma quiet_then {A C} (m : M W A) (k : A → M W C) : quiet m → (∀ a, quiet (k a)) → quiet (m ≫= k).
Proof.
  intros Hm Hk w. rewrite bind_step. specialize (Hm w). destruct (m w) as [[a|e] w1]; [|done].
  destruct (Hk a w1) as [-> ->]. done.
Qed.
Lemma quiet_try {A} (m : M W A) h : quiet m → (∀ e k, h e = Some k → quiet k) → quiet (try_except m h).
Proof.
  intros Hm Hh w. unfold try_except. specialize (Hm w). destruct (m w) as [[a|e] w1]; [done|].
  destruct (h e) as [k|] eqn:E; [|done]. destruct (Hh e k E w1) as [-> ->]. done.
Qed.
Lemma tells_quiet {A} F (m : M W A) : tells F m → quiet m.
Proof. by intros [? _]. Qed.

#[local] Hint Resolve quiet_return quiet_lift quiet_throw quiet_then tells_quiet : quiet.
#[local] Hint Resolve dl_open dl_makedirs dl_suffix dl_size dl_cat dl_exists kl_now kl_uri kl_text : quiet.

Lemma quiet_blob p : quiet (_blob_digest_from_fs p).
Proof. unfold _blob_digest_from_fs. eauto with quiet. Qed.
Lemma quiet_temporary p : quiet (_temporary_uri p).
Proof. unfold _temporary_uri. eauto with quiet. Qed.
#[local] Hint Resolve quiet_blob quiet_temporary : quiet.

Lemma quiet_health r a uri : quiet (destination_health r a uri).
Proof.
  unfold destination_health. apply quiet_then; [auto with quiet|]. intros identity. destruct (negb _); [auto with quiet|].
  apply quiet_try; [|intros e k E; case_match; simplify_eq; auto with quiet].
  apply quiet_then; [eauto with quiet|]. intros _. apply quiet_then; [eauto with quiet|]. intros [|]; cbn; [|auto with quiet].
  apply quiet_then; [eauto with quiet|]. intros n. destruct (negb _); eauto with quiet.
Qed.
Lemma quiet_locator r given : quiet (_source_locator r given).
Proof.
  unfold _source_locator. destruct given; [auto with quiet|]. apply quiet_then; [repeat case_match; eauto with quiet|].
  intros [u|]; [|auto with quiet]. case_match; auto with quiet.
Qed.
Lemma quiet_artifact r uri media n c b mode given created transforms : quiet (_artifact r uri media n c b mode given created transforms).
Proof.
  unfold _artifact. do 2 (apply quiet_then; [auto with quiet|]; intros ?).
  apply quiet_then; [apply quiet_locator|]. intros ?. apply quiet_then; [auto with quiet|]. intros ?.
  apply quiet_then; [destruct created; eauto with quiet|]. intros ?. eauto with quiet.
Qed.

(** ** Shards *)

Variables (r : Resource) (destination_uri identity : string) (groups : list (Z * B)).
Hypothesis identity_ok : canonical_identity r = Ok identity.
Hypothesis sha_hex : ∀ s, is_sha256 (PyStr (sha256 s)) = true.

Lemma identity_is_hex : is_sha256 (PyStr identity) = true.
Proof. by eapply (identity_hex sha_hex). Qed.

Definition partial : string := partial_uri_of (rstrip_slash destination_uri) identity.
Definition final : string := final_uri_of (rstrip_slash destination_uri) identity "parquet".
Definition shard (i : nat) : string := _batch_shard_uri partial (Z.of_nat i).

(** The first [n] shards hold the rows of the first [n] groups. *)
Definition progress (n : nat) (f : gmap string string) : Prop :=
  ∀ i g, (i < n)%nat → groups !! i = Some g → ∃ data, f !! shard i = Some data ∧ rows_in data = Some (to_pylist g.2).

Lemma progress_frame n f f' : progress n f → (∀ i, (i < n)%nat → f' !! shard i = f !! shard i) → progress n f'.
Proof. intros Hp Hf i g Hi Hg. rewrite Hf by done. by apply Hp. Qed.
Lemma progress_le n m f : (n ≤ m)%nat → progress m f → progress n f.
Proof. intros Hn Hp i g Hi Hg. apply Hp; [lia|done]. Qed.
Lemma progress_next n g data f : progress n f → groups !! n = Some g → f !! shard n = Some data →
  rows_in data = Some (to_pylist g.2) → progress (Datatypes.S n) f.
Proof.
  intros Hp Hg Hf Hd i g' Hi Hg'. destruct (decide (i = n)) as [->|Hne]; [|apply Hp; [lia|done]].
  rewrite Hg in Hg'. injection Hg' as <-. eauto.
Qed.

Lemma shard_inj i j : shard i = shard j → i = j.
Proof. unfold shard. intros E%shard_uri_inj; lia. Qed.
Lemma shard_temp i j suffix : shard i ≠ temp_of (shard j) suffix.
Proof. apply shard_not_temp; lia. Qed.
Lemma shard_final i : shard i ≠ final.
Proof. apply shard_not_final, identity_is_hex. Qed.
Lemma shard_final_temp i suffix : shard i ≠ temp_of final suffix.
Proof. apply shard_not_final_temp, identity_is_hex. Qed.

(** Removing a temporary file leaves the others alone. *)
Lemma safe_remove_frame p w : st (safe_remove p w).2 = st w ∧
  (fs (safe_remove p w).2 = fs w ∨ fs (safe_remove p w).2 = base.delete p (fs w)).
Proof.
  unfold safe_remove, try_except. rewrite bind_step. destruct (dl_exists dest p) as [Hq _]. specialize (Hq w).
  destruct (exists_file p w) as [[b|e] w1]; cbn in Hq; destruct Hq as [Hf Hs].
  - destruct b; [|cbn; rewrite Hf, Hs; auto]. destruct (dl_rm dest p w1) as [Hs' Hf']. rewrite Hf, Hs in *.
    destruct (rm p w1) as [[u|e] w2]; cbn [fst snd] in *; [auto|]. destruct (is_subclass (exn_kind e) OSError); auto.
  - destruct (is_subclass (exn_kind e) OSError); cbn [fst snd mret M_ret]; rewrite Hf, Hs; auto.
Qed.

(** Publishing one file atomically: the others keep their contents, except for
    a temporary one, and it has the old contents or the new ones. *)
Lemma atomic_pipe_frame p data w res w' : _atomic_pipe p data w = (res, w') → st w' = st w ∧
  (∃ suffix, ∀ q, q ≠ p → q ≠ temp_of p suffix → fs w' !! q = fs w !! q) ∧
  match res with Ok _ => fs w' !! p = Some data | Raise _ => fs w' !! p = fs w !! p ∨ fs w' !! p = Some data end.
Proof.
  unfold _atomic_pipe, _temporary_uri. rewrite !bind_step. pose proof (dl_suffix dest w) as Hq.
  destruct (temporary_suffix w) as [[suffix|e] w1]; cbn in Hq; destruct Hq as [Hf Hs].
  2:{ intros [= <- <-]. rewrite Hf, Hs. split_and!; [done|by exists ""|by left]. }
  cbn [mret M_ret]. change (p +:+ ".tmp." +:+ suffix) with (temp_of p suffix). pose proof (temp_not_self p suffix) as Hne.
  unfold try_except at 1. rewrite bind_step.
  assert (Hclean : ∀ wa e res w', (is_Exception (exn_kind e) = true → (safe_remove (temp_of p suffix);; throw (err DownloadError ("Failed to atomically publish " +:+ sanitize_uri p)) : M W unit) wa = (res, w')) →
    (is_Exception (exn_kind e) = false → res = Raise e ∧ w' = wa) →
    is_ok res = false ∧ st w' = st wa ∧ ∀ q, q ≠ temp_of p suffix → fs w' !! q = fs wa !! q).
  { intros wa e res0 w0 Hy Hn. destruct (is_Exception (exn_kind e)).
    - specialize (Hy eq_refl). rewrite bind_step in Hy. destruct (safe_remove_frame (temp_of p suffix) wa) as [Hs1 Hf1].
      destruct (safe_remove (temp_of p suffix) wa) as [[u|e'] wb]; cbn in *; injection Hy as <- <-; (split_and!; [done..|]);
        intros q Hq; destruct Hf1 as [->| ->]; rewrite ?lookup_delete_ne by done; done.
    - destruct (Hn eq_refl) as [-> ->]. done. }
  destruct (pipe_file (temp_of p suffix) data w1) as [rp w2] eqn:Ep. apply (dl_pipe dest) in Ep as [Hs2 Hf2].
  destruct rp as [u|e].
  2:{ intros E. destruct Hf2 as [content Hf2]. destruct (Hclean w2 e res w') as (Hr & Hs3 & Hf3).
    - intros Hx. rewrite Hx in E. exact E.
    - intros Hx. rewrite Hx in E. by injection E as <- <-.
    - assert (Hall : ∀ q, q ≠ temp_of p suffix → fs w' !! q = fs w !! q).
      { intros q Hq. rewrite Hf3, Hf2, lookup_partial_alter_ne by done. by rewrite Hf. }
      split_and!; [by rewrite Hs3, Hs2, Hs|exists suffix; auto|]. destruct res; [done|]. left. by apply Hall. }
  destruct (mv (temp_of p suffix) p w2) as [rm w3] eqn:Em. apply (dl_mv dest) in Em as [Hs3 Hf3].
  assert (Hw3 : (∀ q, q ≠ p → q ≠ temp_of p suffix → fs w3 !! q = fs w !! q) ∧
                (fs w3 !! p = Some data ∨ is_ok rm = false ∧ fs w3 !! p = fs w !! p)).
  { destruct Hf3 as [(d & Hd & Hf3)|[Hr Hf3]]; rewrite Hf3, ?Hf2, ?Hf in *.
    - rewrite lookup_insert_eq in Hd. injection Hd as <-. split; [|left; by rewrite lookup_insert_eq].
      intros q Hq1 Hq2. by rewrite lookup_insert_ne, lookup_delete_ne, lookup_insert_ne by done.
    - split; [|right; split; [done|]; by rewrite lookup_insert_ne by done].
      intros q Hq1 Hq2. by rewrite lookup_insert_ne by done. }
  destruct Hw3 as [Hothers Hp]. destruct rm as [u'|e].
  - intros [= <- <-]. rewrite Hs3, Hs2, Hs. split_and!; [done|by exists suffix|]. destruct Hp as [Hp|[Hp _]]; [exact Hp|done].
  - intros E. destruct (Hclean w3 e res w') as (Hr & Hs4 & Hf4).
    + intros Hx. rewrite Hx in E. exact E.
    + intros Hx. rewrite Hx in E. by injection E as <- <-.
    + split_and!; [by rewrite Hs4, Hs3, Hs2, Hs|exists suffix; intros q Hq1 Hq2; by rewrite Hf4, Hothers|].
      destruct res; [done|]. rewrite (Hf4 p Hne). destruct Hp as [Hp|[_ Hp]]; auto.
Qed.

Lemma publish_shard n g w res w' : progress n (fs w) → groups !! n = Some g → _publish_batch_shard (shard n) g.2 w = (res, w') →
  st w' = st w ∧ progress (if is_ok res then Datatypes.S n else n) (fs w').
Proof.
  intros Hp Hg. unfold _publish_batch_shard. rewrite bind_step. destruct (cl_table codec g.2) as [Hq Ht].
  specialize (Hq w). destruct (write_table g.2 w) as [[data|e] w1] eqn:Ew; cbn in Hq; destruct Hq as [Hf Hs].
  2:{ intros [= <- <-]. by rewrite Hf, Hs. }
  specialize (Ht _ _ _ Ew). cbn in Ht. rewrite bind_step. destruct (dl_exists dest (shard n)) as [Hq _].
  specialize (Hq w1). destruct (exists_file (shard n) w1) as [[b|e] w2]; cbn in Hq; destruct Hq as [Hf2 Hs2].
  2:{ intros [= <- <-]. by rewrite Hf2, Hs2, Hf, Hs. }
  rewrite bind_step. set (removal := if (b : bool) then rm (shard n) else mret tt).
  assert (Hrm : st (removal w2).2 = st w ∧ ∀ i, i ≠ n → fs (removal w2).2 !! shard i = fs w !! shard i).
  { subst removal. rewrite <- Hf, <- Hs, <- Hf2, <- Hs2. destruct b; [|done]. destruct (dl_rm dest (shard n) w2) as [-> Hd]. split; [done|].
    intros i Hi. destruct Hd as [->| ->]; [done|]. rewrite lookup_delete_ne; [done|]. by intros E%eq_sym%shard_inj. }
  destruct Hrm as [Hs3 Hf3]. destruct (removal w2) as [[u|e] w3]; cbn in Hs3, Hf3.
  2:{ intros [= <- <-]. split; [done|]. cbn [is_ok]. eapply progress_frame; [exact Hp|]. intros i Hi. apply Hf3. lia. }
  intros E. apply atomic_pipe_frame in E as (Hs4 & (suffix & Hf4) & Hd). split; [by rewrite Hs4|].
  assert (Hframe : progress n (fs w')).
  { eapply progress_frame; [exact Hp|]. intros i Hi. rewrite Hf4; [apply Hf3; lia|intros Ei%shard_inj; lia|apply shard_temp]. }
  destruct res; [|exact Hframe]. by eapply progress_next.
Qed.

(** ** Checkpoints in the store *)

(** The cursor after [n] groups *)
Definition position (n : nat) : Z :=
  match n with O => 0 | Datatypes.S m => match groups !! m with Some g => g.1 + 1 | None => 0 end end.
Definition cursor_of (n : nat) : BatchCursor := {| next_batch_index := Z.of_nat n; row_group_index := position n |}.

(** The bytes of the source, and its version as a sync may know it *)
Variable source_bytes : string.
Definition stable_version (v : option string) : Prop := v = None ∨ v = Some (sha256 source_bytes).
Lemma stable_version_ok v : stable_version v → source_version_ok v.
Proof. intros [->| ->] s; [done|]. intros [= <-]. apply sha_hex. Qed.

(** The store has nothing yet, or the checkpoint after [n] groups. *)
Definition saved_at (n : nat) (s : gmap string SyncState) : Prop :=
  match n with
  | O => s !! identity = None
  | _ => ∃ version state, stable_version version ∧ _in_progress_state (cursor_of n) version destination_uri = Ok state ∧
                          s !! identity = Some state
  end.
Definition at_step (n : nat) (w : W) : Prop := (n ≤ length groups)%nat ∧ progress n (fs w) ∧ saved_at n (st w).
(** The checkpoint is at [n] or after it. *)
Definition beyond (n : nat) (w : W) : Prop := ∃ m, (n ≤ m)%nat ∧ at_step m w.

Lemma beyond_le n m w : (n ≤ m)%nat → beyond m w → beyond n w.
Proof. intros Hle (k & Hk & Hat). exists k. split; [lia|done]. Qed.

Lemma persist_step n version box w res w' : stable_version version → saved_at n (st w) →
  _persist_batch_state identity version destination_uri box (cursor_of (Datatypes.S n)) w = (res, w') →
  fs w' = fs w ∧ (saved_at (Datatypes.S n) (st w') ∨ is_ok res = false ∧ st w' = st w).
Proof.
  intros Hv Hs. unfold _persist_batch_state. rewrite bind_step. unfold lift_res at 1.
  destruct (_in_progress_state _ version destination_uri) as [state|e] eqn:Est; [|intros [= <- <-]; auto].
  assert (Hsaved : ∀ s, saved_at (Datatypes.S n) (<[identity := state]> s)).
  { intros s. exists version, state. by rewrite lookup_insert_eq. }
  destruct is_atomic; rewrite bind_step.
  - pose proof (sl_cas store identity state box w) as [Hf Hd]. destruct (store_conditional_put _ _ _ w) as [[v|e] w1];
      cbn [fst snd is_ok] in Hf, Hd; intros [= <- <-]; (split; [done|]); destruct Hd as [->|[Hr Hd]]; auto.
  - pose proof (sl_put store identity state w) as [Hf Hd]. destruct (store_put _ _ w) as [[v|e] w1];
      cbn [fst snd is_ok] in Hf, Hd; intros [= <- <-]; (split; [done|]); destruct Hd as [->|[Hr Hd]]; auto.
Qed.

Abbreviation stage version := (stage_batch r partial (_persist_batch_state identity version destination_uri)).

Lemma stage_step n g version box w res w' : stable_version version → at_step n w → groups !! n = Some g →
  stage version (Z.of_nat n, box) g.2 (cursor_of (Datatypes.S n)) w = (res, w') →
  match res with Ok carried => carried.1 = Z.of_nat (Datatypes.S n) ∧ at_step (Datatypes.S n) w' | Raise _ => beyond n w' end.
Proof.
  intros Hv (Hn & Hp & Hs) Hg. unfold stage_batch. rewrite bind_step. cbn [cursor_of next_batch_index].
  replace (Z.of_nat (Datatypes.S n) =? Z.of_nat n + 1) with true by (symmetry; apply Z.eqb_eq; lia). cbn [negb mret M_ret].
  rewrite bind_step. change (_batch_shard_uri partial (Z.of_nat n)) with (shard n).
  destruct (_publish_batch_shard (shard n) g.2 w) as [rp w1] eqn:Ep. apply (publish_shard n g) in Ep as [Hs1 Hp1]; [|done..].
  assert (Hlt : (n < length groups)%nat) by by eapply lookup_lt_Some.
  destruct rp as [u|e]; cbn [is_ok] in Hp1.
  2:{ intros [= <- <-]. exists n. split; [done|]. split_and!; [lia|done|]. by rewrite Hs1. }
  rewrite bind_step. destruct (_persist_batch_state _ _ _ _ _ w1) as [rs w2] eqn:Es.
  apply (persist_step n) in Es as [Hf2 Hs2]; [|done|by rewrite Hs1].
  destruct rs as [box'|e]; intros [= <- <-]; cbn [is_ok fst] in *.
  - destruct Hs2 as [Hs2|[Hr _]]; [|done]. split; [done|]. split_and!; [lia|by rewrite Hf2|done].
  - destruct Hs2 as [Hs2|[_ Hs2]]; [exists (Datatypes.S n)|exists n]; (split; [lia|]).
    + split_and!; [lia|by rewrite Hf2|done].
    + split_and!; [lia| |by rewrite Hs2, Hs1]. rewrite Hf2. eapply progress_le, Hp1. lia.
Qed.

(** ** The loop over the row groups *)

(** A generator whose steps give the groups, or raise *)
Inductive delivers : list (M W (option (Z * B))) → list (Z * B) → Prop :=
| delivers_nil : delivers [] []
| delivers_group item items g gs : tells (λ _ v, v = Some g) item → delivers items gs → delivers (item :: items) (g :: gs)
| delivers_empty item items gs : tells (λ _ v, v = None) item → delivers items gs → delivers (item :: items) gs.

Fixpoint ascending (last : Z) (gs : list (Z * B)) : Prop :=
  match gs with [] => True | g :: gs => last < g.1 ∧ ascending g.1 gs end.

Lemma at_step_view n w w' : fs w' = fs w → st w' = st w → at_step n w → at_step n w'.
Proof. intros Hf Hs [Ha [Hb Hc]]. unfold at_step. by rewrite Hf, Hs. Qed.

Lemma loop_step items gs version : delivers items gs → stable_version version →
  ∀ n last box w res w', drop n groups = gs → -1 <= last → ascending last gs → at_step n w →
  each_indexed (stage version) (Z.of_nat n, box) (Z.of_nat n) last items w = (res, w') →
  match res with
  | Ok carried => carried.1 = Z.of_nat (length groups) ∧ at_step (length groups) w'
  | Raise _ => beyond n w'
  end.
Proof.
  intros Hd Hv. induction Hd as [|item items g gs [Hq Ht] _ IH|item items gs [Hq Ht] _ IH]; intros n last box w res w' Hdrop Hlast Hasc Hat.
  - intros [= <- <-]. assert (n = length groups) as ->; [|done]. apply (f_equal length) in Hdrop. rewrite length_drop in Hdrop.
    cbn in Hdrop. destruct Hat as [Hn _]. lia.
  - cbn [each_indexed]. rewrite bind_step. specialize (Hq w). destruct (item w) as [[v|e] w1] eqn:Ei; cbn in Hq; destruct Hq as [Hf Hs].
    2:{ intros [= <- <-]. exists n. split; [done|]. by eapply at_step_view. }
    rewrite (Ht _ _ _ Ei). destruct g as [idx b]. cbn in Hasc. destruct Hasc as [Hlt Hasc].
    rewrite (proj2 (Z.leb_gt idx last)) by done. rewrite bind_step. cbn [mret M_ret].
    assert (Hg : groups !! n = Some (idx, b)).
    { rewrite <- (Nat.add_0_r n), <- lookup_drop, Hdrop. done. }
    assert (Hc : cursor_at (Z.of_nat n + 1) (idx + 1) = Ok (cursor_of (Datatypes.S n))).
    { unfold cursor_at, make_position, make_cursor, cursor_of, position. rewrite Hg. cbn [fst].
      rewrite (proj2 (Z.ltb_ge (idx + 1) 0)) by lia. cbn [raise_if mbind result_bind].
      rewrite (proj2 (Z.ltb_ge (Z.of_nat n + 1) 0)) by lia. cbn [raise_if mbind result_bind].
      replace (Z.of_nat n + 1) with (Z.of_nat (Datatypes.S n)) by lia. done. }
    rewrite bind_step. unfold lift_res at 1. rewrite Hc. rewrite bind_step.
    assert (Hat1 : at_step n w1) by by eapply at_step_view.
    destruct (stage version (Z.of_nat n, box) b (cursor_of (Datatypes.S n)) w1) as [rb w2] eqn:Eb.
    apply (stage_step n (idx, b)) in Eb; [|done..]. destruct rb as [[nx box']|e]; [|by intros [= <- <-]].
    cbn [fst] in Eb. destruct Eb as [-> Hat2]. replace (Z.of_nat n + 1) with (Z.of_nat (Datatypes.S n)) by lia.
    intros E. apply IH in E; [|by rewrite <- Nat.add_1_r, <- drop_drop, Hdrop|lia|done|done].
    destruct res; [done|]. eapply beyond_le, E. lia.
  - cbn [each_indexed]. rewrite bind_step. specialize (Hq w). destruct (item w) as [[v|e] w1] eqn:Ei; cbn in Hq; destruct Hq as [Hf Hs].
    2:{ intros [= <- <-]. exists n. split; [done|]. by eapply at_step_view. }
    rewrite (Ht _ _ _ Ei). intros E. eapply IH; [..|exact E]; [done..|]. by eapply at_step_view.
Qed.

(** ** The stream of a sync *)

Variable fields : arrow_schema.

(** A stream that gives the groups from the [n]th on *)
Record serves (stream : BatchStream W B S) (n : nat) : Prop := {
  sv_items : ∃ items, source stream = IndexedSource items ∧ delivers items (drop n groups);
  sv_start : start_batch_index stream = Z.of_nat n;
  sv_row : 0 <= start_row_group_index stream ∧ ascending (start_row_group_index stream - 1) (drop n groups);
  sv_fields : schema_fields (schema stream) = fields;
  sv_close : Forall (λ c, ∀ m, c = Some m → quiet m) (source_close stream :: closeables stream)
}.

Lemma quiet_close_each first_exc cs : Forall (λ c, ∀ m, c = Some m → quiet m) cs → quiet (close_each first_exc cs).
Proof.
  intros Hcs. revert first_exc. induction Hcs as [|c cs Hc _ IH]; intros first_exc; cbn [close_each]; [apply quiet_return|].
  apply quiet_then; [|intros exc; apply IH]. destruct c as [m|]; [|apply quiet_return]. cbn [attempt_close].
  apply quiet_try; [apply quiet_then; [by apply Hc|intros _; apply quiet_return]|].
  intros e k E. destruct (is_Exception _); [|done]. injection E as <-. apply quiet_return.
Qed.

Lemma close_view stream n c w : serves stream n → fs (close_stream stream (c, w)).2.2 = fs w ∧ st (close_stream stream (c, w)).2.2 = st w.
Proof.
  intros Hs. unfold close_stream. rewrite bind_step. unfold read. cbn [fst]. destruct c; [done|].
  rewrite bind_step. unfold modify. rewrite bind_step. unfold on_stream, zoom. cbn [fst snd].
  pose proof (quiet_close_each None _ (sv_close _ _ Hs) w) as Hq. destruct (close_each _ _ w) as [[[e|]|e] w1]; cbn in *; done.
Qed.

Lemma stream_step stream n version box w res w' : serves stream n → stable_version version → at_step n w →
  with_stream stream (iter_batches_with_cursors stream (stage version) (Z.of_nat n, box)) w = (res, w') →
  match res with
  | Ok carried => carried.1 = Z.of_nat (length groups) ∧ at_step (length groups) w'
  | Raise _ => beyond n w'
  end.
Proof.
  intros Hserve Hv Hat. pose proof Hserve as [(items & Hsrc & Hd) Hstart [Hrow Hasc] _ _].
  unfold with_stream, try_finally, iter_batches_with_cursors, assert_not_closed. rewrite !bind_step. cbn [read fst lift_res raise_if].
  rewrite Hsrc. unfold on_stream, zoom. cbn [fst snd]. rewrite Hstart.
  destruct (each_indexed _ _ _ _ items w) as [rl w1] eqn:El.
  apply (loop_step items (drop n groups)) in El; [|done|done|done|lia|done|done].
  pose proof (close_view stream n false w1 Hserve) as [Hf Hs]. destruct (close_stream stream (false, w1)) as [[u|e] [c w2]]; cbn [fst snd] in *.
  - intros [= <- <-]. destruct rl as [carried|e].
    + destruct El as [-> El]. split; [done|]. by eapply at_step_view.
    + destruct El as (m & Hm & El). exists m. split; [done|]. by eapply at_step_view.
  - intros [= <- <-]. destruct rl as [carried|e'].
    + destruct El as [_ El]. exists (length groups). split; [apply Hat|]. by eapply at_step_view.
    + destruct El as (m & Hm & El). exists m. split; [done|]. by eapply at_step_view.
Qed.

(** ** Publishing the result *)

(** All rows of the source, in order *)
Definition all_rows : list row := mjoin ((λ g, to_pylist g.2) <$> groups).

Lemma quiet_require partial' indices : quiet (require_shards r partial' indices).
Proof.
  induction indices as [|i indices IH]; cbn [require_shards]; [apply quiet_return|].
  apply quiet_then; [eapply tells_quiet, (dl_exists dest)|]. intros [|]; [done|apply quiet_throw].
Qed.

Lemma read_shards_rows k : ∀ n w res w', (n + k = length groups)%nat → progress (length groups) (fs w) →
  read_shards partial (Z.of_nat <$> seq n k) w = (res, w') → fs w' = fs w ∧ st w' = st w ∧
  ∀ bs, res = Ok bs → mjoin (to_pylist <$> bs) = mjoin ((λ g, to_pylist g.2) <$> drop n groups).
Proof.
  induction k as [|k IH]; intros n w res w' Hn Hp.
  { intros [= <- <-]. split_and!; [done..|]. intros bs [= <-]. by rewrite drop_ge by lia. }
  cbn [seq fmap list_fmap read_shards]. rewrite bind_step. change (_batch_shard_uri partial (Z.of_nat n)) with (shard n).
  destruct (dl_cat dest (shard n)) as [Hq Ht]. specialize (Hq w). destruct (cat_file (shard n) w) as [[data|e] w1] eqn:Ec; cbn in Hq;
    destruct Hq as [Hf Hs]; [|by intros [= <- <-]].
  specialize (Ht _ _ _ Ec). cbn in Ht. rewrite bind_step. destruct (cl_read codec data) as [Hq2 Ht2].
  specialize (Hq2 w1). destruct (read_parquet data w1) as [[file|e] w2] eqn:Er; cbn in Hq2; destruct Hq2 as [Hf2 Hs2].
  2:{ intros [= <- <-]. by rewrite Hf2, Hs2, Hf, Hs. }
  specialize (Ht2 _ _ _ Er). cbn in Ht2. rewrite bind_step.
  destruct (read_shards partial _ w2) as [rr w3] eqn:Err.
  apply (IH (Datatypes.S n)) in Err as (Hf3 & Hs3 & Hrows); [|lia|by rewrite Hf2, Hf].
  destruct rr as [rest|e]; intros [= <- <-]; rewrite Hf3, Hs3, Hf2, Hs2, Hf, Hs; (split_and!; [done..|]); [|done].
  intros bs [= <-]. rewrite fmap_app, join_app, (Hrows rest eq_refl).
  destruct (lookup_lt_is_Some_2 groups n) as [g Hg]; [lia|]. rewrite (drop_S _ g n) by done. cbn [fmap list_fmap].
  destruct (Hp n g) as (data' & Hd' & Hr'); [lia|done|]. rewrite Ht in Hd'. injection Hd' as <-. rewrite Ht2 in Hr'. injection Hr' as ->. done.
Qed.

(** A temporary file comes and goes. *)
Definition only_temp (suffix : string) (w w' : W) : Prop :=
  st w' = st w ∧ ∀ q, q ≠ temp_of final suffix → fs w' !! q = fs w !! q.
Lemma only_temp_at_step suffix w w' : only_temp suffix w w' → at_step (length groups) w → at_step (length groups) w'.
Proof.
  intros [Hs Hf] (Hn & Hp & Hsave). split_and!; [done| |by rewrite Hs]. eapply progress_frame; [exact Hp|].
  intros i _. apply Hf, shard_final_temp.
Qed.

Lemma digests_made r' uri media n c b mode given created transforms w a w' :
  _artifact r' uri media n c b mode given created transforms w = (Ok a, w') →
  digest_value (content_digest a) = c ∧ digest_value (blob_digest a) = b.
Proof.
  unfold _artifact. rewrite bind_step. unfold lift_res at 1. destruct (make_digest "sha256" c) as [dc|e] eqn:Ec; [|done].
  rewrite bind_step. unfold lift_res at 1. destruct (make_digest "sha256" b) as [db|e] eqn:Eb; [|done].
  unfold make_digest in Ec, Eb. apply bind_ok in Ec as ([] & _ & [= <-]), Eb as ([] & _ & [= <-]).
  do 4 (rewrite bind_step; match goal with |- (match ?m with _ => _ end = _ → _) => destruct m as [[?|?] ?]; [|done] end).
  unfold lift_res. intros [= E <-]. unfold make_artifact in E. inv_ok. done.
Qed.

Lemma only_temp_trans suffix a b c : only_temp suffix a b → only_temp suffix b c → only_temp suffix a c.
Proof. intros [Hs Hf] [Hs' Hf']. split; [by rewrite Hs'|]. intros q Hq. by rewrite Hf', Hf. Qed.
Lemma only_temp_quiet suffix w w' : fs w' = fs w → st w' = st w → only_temp suffix w w'.
Proof. intros Hf Hs. split; [done|]. intros q _. by rewrite Hf. Qed.
Lemma only_temp_alter suffix content w w' : st w' = st w → fs w' = partial_alter (λ _, content) (temp_of final suffix) (fs w) →
  only_temp suffix w w'.
Proof. intros Hs Hf. split; [done|]. intros q Hq. by rewrite Hf, lookup_partial_alter_ne. Qed.

Lemma seqZ_nat k : seqZ 0 (Z.of_nat k) = Z.of_nat <$> seq 0 k.
Proof. unfold seqZ. rewrite Nat2Z.id. apply list_fmap_ext. intros i x _. lia. Qed.

Lemma write_step suffix schema w res w' : schema_fields schema = fields → at_step (length groups) w →
  _write_parquet (temp_of final suffix) schema (_checkpoint_batches partial (Z.of_nat (length groups))) w = (res, w') →
  only_temp suffix w w' ∧
  ∀ cd, res = Ok cd → logical_sha256_batches fields [all_rows] = Ok cd ∧
    ∃ data, fs w' !! temp_of final suffix = Some data ∧ rows_in data = Some all_rows.
Proof.
  intros Hfields Hat. unfold _write_parquet. rewrite bind_step.
  destruct (create_file _ w) as [rc w1] eqn:Ec. apply (dl_create dest) in Ec as [Hs1 [content Hf1]].
  assert (H01 : only_temp suffix w w1) by by eapply only_temp_alter. destruct rc as [u|e]; [|by intros [= <- <-]].
  rewrite bind_step. unfold _checkpoint_batches. rewrite seqZ_nat. destruct (read_shards _ _ w1) as [rb w2] eqn:Eb.
  destruct (only_temp_at_step _ _ _ H01 Hat) as (_ & Hp1 & _).
  apply read_shards_rows in Eb as (Hf2 & Hs2 & Hrows); [|lia|done].
  assert (H02 : only_temp suffix w w2) by by eapply only_temp_trans, only_temp_quiet. destruct rb as [bs|e]; [|by intros [= <- <-]].
  specialize (Hrows _ eq_refl). rewrite drop_0 in Hrows. rewrite bind_step.
  destruct (cl_batches codec schema bs) as [Hq Ht]. specialize (Hq w2). destruct (write_batches schema bs w2) as [[data|e] w3] eqn:Ew;
    cbn in Hq; destruct Hq as [Hf3 Hs3].
  2:{ intros [= <- <-]. split; [by eapply only_temp_trans, only_temp_quiet|done]. }
  specialize (Ht _ _ _ Ew). cbn in Ht. assert (H03 : only_temp suffix w w3) by by eapply only_temp_trans, only_temp_quiet.
  rewrite bind_step. destruct (pipe_file _ data w3) as [rp w4] eqn:Ep. apply (dl_pipe dest) in Ep as [Hs4 Hf4].
  destruct rp as [u'|e].
  2:{ intros [= <- <-]. destruct Hf4 as [content' Hf4]. split; [by eapply only_temp_trans, only_temp_alter|done]. }
  unfold lift_res. intros [= <- <-]. split.
  { eapply only_temp_trans; [exact H03|]. split; [done|]. intros q Hq. by rewrite Hf4, lookup_insert_ne. }
  intros cd Hcd. split.
  - rewrite <- Hcd, Hfields. apply logical_digest_batching. rewrite Hrows. unfold all_rows. cbn. by rewrite app_nil_r.
  - exists data. rewrite Hf4, lookup_insert_eq. split; [done|]. by rewrite Ht, Hrows.
Qed.

(** The published file holds all rows of the source, and the artifact describes it. *)
Definition published (a : Artifact) (w : W) : Prop :=
  ∃ data, fs w !! final = Some data ∧ rows_in data = Some all_rows ∧ digest_value (blob_digest a) = sha256 data ∧
    logical_sha256_batches fields [all_rows] = Ok (digest_value (content_digest a)).

Lemma published_view a w w' : fs w' !! final = fs w !! final → published a w → published a w'.
Proof. intros E (data & Hd & Hr). exists data. by rewrite E. Qed.

(** After a temporary file [suffix] and possibly the final one were written *)
Definition published_from (suffix : string) (w w' : W) : Prop :=
  st w' = st w ∧ ∀ i, fs w' !! shard i = fs w !! shard i.

Lemma published_at_step suffix w w' : published_from suffix w w' → at_step (length groups) w → at_step (length groups) w'.
Proof. intros [Hs Hf] (Hn & Hp & Hsave). split_and!; [done| |by rewrite Hs]. eapply progress_frame; [exact Hp|auto]. Qed.

Lemma publish_step schema w res w' : schema_fields schema = fields → at_step (length groups) w →
  _publish_parquet r final schema (_checkpoint_batches partial (Z.of_nat (length groups))) None None [] w = (res, w') →
  at_step (length groups) w' ∧ ∀ a, res = Ok a → published a w'.
Proof.
  intros Hfields Hat. unfold _publish_parquet. unfold _temporary_uri at 1. rewrite !bind_step.
  pose proof (dl_suffix dest w) as Hq. destruct (temporary_suffix w) as [[suffix|e] w0]; cbn in Hq; destruct Hq as [Hf Hs].
  2:{ intros [= <- <-]. split; [by eapply at_step_view|done]. }
  cbn [mret M_ret]. change (final +:+ ".tmp." +:+ suffix) with (temp_of final suffix). assert (Hat0 : at_step (length groups) w0) by by eapply at_step_view.
  unfold try_finally. set (body := content_digest ← _; _).
  assert (Hbody : ∀ rb wb, body w0 = (rb, wb) → published_from suffix w0 wb ∧ ∀ a, rb = Ok a → published a wb).
  { intros rb wb. subst body. rewrite bind_step. destruct (_write_parquet _ schema _ w0) as [rw w1] eqn:Ew.
    apply write_step in Ew as [[Hs1 Hf1] Hw]; [|done..].
    assert (H01 : published_from suffix w0 w1) by (split; [done|]; intros i; apply Hf1, shard_final_temp).
    destruct rw as [cd|e]; [|by intros [= <- <-]]. destruct (Hw cd eq_refl) as (Hcd & data & Hd & Hrows).
    rewrite bind_step. pose proof (dl_size dest (temp_of final suffix) w1) as Hq2.
    destruct (file_size _ w1) as [[n|e] w2]; cbn in Hq2; destruct Hq2 as [Hf2 Hs2].
    2:{ intros [= <- <-]. split; [|done]. destruct H01 as [Ha Hb]. split; [by rewrite Hs2|]. by rewrite Hf2. }
    rewrite bind_step. unfold _blob_digest_from_fs. rewrite bind_step. destruct (dl_cat dest (temp_of final suffix)) as [Hq3 Ht3].
    specialize (Hq3 w2). destruct (cat_file _ w2) as [[data'|e] w3] eqn:Ec; cbn in Hq3; destruct Hq3 as [Hf3 Hs3].
    2:{ intros [= <- <-]. split; [|done]. destruct H01 as [Ha Hb]. split; [by rewrite Hs3, Hs2|]. by rewrite Hf3, Hf2. }
    specialize (Ht3 _ _ _ Ec). cbn in Ht3. rewrite Hf2, Hd in Ht3. injection Ht3 as <-. cbn [mret M_ret].
    rewrite bind_step. destruct (mv _ final w3) as [rm w4] eqn:Em. apply (dl_mv dest) in Em as [Hs4 Hf4].
    assert (H04 : published_from suffix w0 w4).
    { destruct H01 as [Ha Hb]. split; [by rewrite Hs4, Hs3, Hs2|]. intros i.
      destruct Hf4 as [(d & _ & Hf4)|[_ Hf4]]; rewrite Hf4, Hf3, Hf2; [|done].
      rewrite lookup_insert_ne by (apply not_eq_sym, shard_final). rewrite lookup_delete_ne by (apply not_eq_sym, shard_final_temp). done. }
    destruct rm as [u|e]; [|by intros [= <- <-]].
    assert (Hfinal : fs w4 !! final = Some data).
    { destruct Hf4 as [(d & Hd4 & Hf4)|[Hr _]]; [|done]. rewrite Hf4, lookup_insert_eq. by rewrite Hf3, Hf2, Hd in Hd4. }
    pose proof (quiet_artifact r final _PARQUET_MEDIA_TYPE n cd (sha256 data) "parquet" None None [] w4) as Hq5.
    destruct (_artifact _ _ _ _ _ _ _ _ _ _ w4) as [ra w5] eqn:Ea. cbn in Hq5. destruct Hq5 as [Hf5 Hs5]. intros [= <- <-]. split.
    - destruct H04 as [Ha Hb]. split; [by rewrite Hs5|]. by rewrite Hf5.
    - intros a ->. destruct (digests_made _ _ _ _ _ _ _ _ _ _ _ _ _ Ea) as [Hc Hb]. exists data. rewrite Hf5, Hc, Hb. done. }
  clearbody body. destruct (body w0) as [rb wb] eqn:Ebody. destruct (Hbody _ _ eq_refl) as [Hfrom Hpub].
  pose proof (safe_remove_frame (temp_of final suffix) wb) as [Hs1 Hf1].
  assert (Hend : ∀ q, q ≠ temp_of final suffix → fs (safe_remove (temp_of final suffix) wb).2 !! q = fs wb !! q).
  { intros q Hq. destruct Hf1 as [->| ->]; [done|]. by rewrite lookup_delete_ne. }
  assert (Hend2 : published_from suffix w0 (safe_remove (temp_of final suffix) wb).2).
  { destruct Hfrom as [Ha Hb]. split; [by rewrite Hs1|]. intros i. rewrite Hend; [done|apply shard_final_temp]. }
  destruct (safe_remove _ wb) as [[u|e] wc]; intros [= <- <-]; (split; [by eapply published_at_step|]); [|done].
  intros a ->. eapply published_view; [|by apply Hpub]. apply Hend, temp_not_self.
Qed.

(** ** One sync of the resource *)

Variable reader : Reader W B S.

(** The resource is a Parquet file whose bytes stay the same; its reader gives
    the groups from the beginning or from a cursor. *)
Record source_laws := {
  so_parquet : is_parquet r = true;
  so_access : ∃ a, resource_access r = Some a ∧ is_checkpointable a = true;
  so_bytes a : resource_access r = Some a → tells (λ _ data, data = source_bytes) (read_access a);
  so_open : tells (λ _ stream, serves stream 0) (reader_open reader r);
  so_cursor f n : reader_open_from_cursor reader = Some f → (n ≤ length groups)%nat → tells (λ _ stream, serves stream n) (f r (cursor_of n))
}.
Hypothesis src : source_laws.
Hypothesis groups_ascend : ascending (-1) groups.

Lemma kind_checkpointable : bool_decide (kind_of r ∈ ["local_file"; "object_storage"]) = true ∧
  bool_decide (kind_of r = "http_download") = false ∧ bool_decide (kind_of r ∈ ["query"; "stream"]) = false.
Proof.
  destruct (so_access src) as (a & Ha & Hc). unfold kind_of, is_checkpointable in *. rewrite Ha. split; [exact Hc|].
  apply bool_decide_eq_true in Hc. by destruct a; try (exfalso; apply (bool_decide_eq_true_2 _) in Hc; vm_compute in Hc; discriminate Hc).
Qed.

Lemma source_version_step : quiet (_compute_source_version (W := W) r) ∧
  ∀ w v w', _compute_source_version (W := W) r w = (Ok (Some v), w') → v = sha256 source_bytes.
Proof.
  unfold _compute_source_version. destruct (so_access src) as (a & Ha & Hc). rewrite Ha, Hc. pose proof (so_bytes src a Ha) as [Hq Ht].
  split.
  - apply quiet_try; [|intros e k E; destruct (is_subclass _ _); [|done]; injection E as <-; apply quiet_return].
    apply quiet_then; [destruct a; try apply quiet_return; apply (dl_open dest)|]. intros _. apply quiet_then; [done|]. intros ?. apply quiet_return.
  - intros w v w'. unfold try_except. rewrite bind_step. destruct (_ w) as [[u|e] w1]; [|destruct (is_subclass _ _); [intros [=]|done]].
    rewrite bind_step. destruct (read_access a w1) as [[data|e] w2] eqn:Er; [|destruct (is_subclass _ _); [intros [=]|done]].
    intros [= <- _]. by rewrite (Ht _ _ _ Er).
Qed.

Lemma prior_step key w res w' : read_prior key w = (res, w') →
  fs w' = fs w ∧ st w' = st w ∧ ∀ s v, res = Ok (s, v) → s = st w !! key.
Proof.
  unfold read_prior. destruct is_atomic.
  - destruct (sl_version store key) as [Hq Ht]. specialize (Hq w). intros E. rewrite E in Hq. destruct Hq as [Hf Hs]. split_and!; [done..|].
    intros s v ->. by eapply Ht.
  - rewrite bind_step. destruct (sl_get store key) as [[Hq _] Ht]. specialize (Hq w). destruct (store_get key w) as [[s|e] w1] eqn:Eg; cbn in Hq;
      destruct Hq as [Hf Hs]; intros [= <- <-]; (split_and!; [done..|]); [|done]. intros s' v [= <- _]. by eapply Ht.
Qed.

Lemma position_nonneg n : 0 <= position n.
Proof.
  destruct n as [|n]; [done|]. cbn [position]. destruct (groups !! n) as [g|] eqn:Eg; [|done].
  assert (Hasc : ∀ last gs k g, ascending last gs → gs !! k = Some g → last < g.1).
  { clear. intros last gs. revert last. induction gs as [|g' gs IH]; intros last k g; [done|]. cbn. intros [Hlt Ha].
    destruct k as [|k]; cbn; [by intros [= ->]|]. intros Hk. specialize (IH _ _ _ Ha Hk). lia. }
  specialize (Hasc _ _ _ _ groups_ascend Eg). lia.
Qed.

(** The checkpoint that is found *)
Definition checkpoint_at (n : nat) (c : option _Checkpoint) : Prop :=
  match n with
  | O => c = None
  | _ => ∃ version destination, c = Some (checkpoint_of (cursor_of n) version destination) ∧
           canonical_destination_identity destination_uri = Ok destination ∧ stable_version version
  end.

Lemma checkpoint_found n s : saved_at n s → _completed_artifact_record (s !! identity) = Ok None ∧
  ∃ c, prior_checkpoint (s !! identity) = Ok c ∧ checkpoint_at n c.
Proof.
  destruct n as [|n]; cbn [saved_at checkpoint_at]; [intros ->; eauto|]. intros (version & state & Hv & Hst & ->).
  split; [by eapply in_progress_not_completed|]. pose proof Hst as Hd. unfold _in_progress_state in Hd. apply bind_ok in Hd as (destination & Hd & _).
  exists (Some (checkpoint_of (cursor_of (Datatypes.S n)) version destination)). split; [|by exists version, destination].
  apply (decode_in_progress sha_hex _ _ destination_uri); [apply Nat2Z.is_nonneg|apply position_nonneg|by apply stable_version_ok|done..].
Qed.

Lemma not_stale n c v : checkpoint_at n c → stable_version v → is_stale c v destination_uri = Ok false.
Proof.
  destruct n as [|n]; cbn [checkpoint_at]; [by intros ->|]. intros (version & destination & -> & Hd & Hc) Hv.
  unfold is_stale, _checkpoint_is_stale. rewrite Hd. cbn [mbind result_bind checkpoint_of cp_source_version cp_destination_identity].
  rewrite (bool_decide_true (destination = destination)) by done. cbn [negb]. rewrite orb_false_r.
  destruct Hv as [->| ->], Hc as [->| ->]; [done..|]. by rewrite bool_decide_true.
Qed.

(** What a sync that finds the store at step [n] is going to do *)
Definition context_at (n : nat) (context : _SyncContext) : Prop :=
  ctx_outcome context = None ∧ checkpointed_kind context = true ∧ prior_artifact context = None ∧
  stable_version (stable_source_version context) ∧ checkpoint_at n (checkpoint context).

Lemma load_step n w res w' : saved_at n (st w) → _load_sync_context r identity destination_uri true w = (res, w') →
  fs w' = fs w ∧ st w' = st w ∧ ∀ context, res = Ok context → context_at n context.
Proof.
  intros Hsave. destruct (checkpoint_found _ _ Hsave) as (Hcompleted & c & Hc & Hat).
  unfold _load_sync_context. rewrite bind_step. destruct (read_prior identity w) as [rp w1] eqn:Ep.
  apply prior_step in Ep as (Hf & Hs & Hprior). destruct rp as [[prior version]|e]; [|by intros [= <- <-]].
  rewrite (Hprior _ _ eq_refl). rewrite bind_step. unfold lift_res at 1. rewrite Hc.
  rewrite bind_step. unfold _resume_outcome at 1. rewrite bind_step. unfold lift_res at 1. rewrite Hcompleted. cbn [mret M_ret].
  rewrite (so_parquet src). destruct kind_checkpointable as [Hkind _]. rewrite Hkind. cbn [andb].
  rewrite bind_step. destruct source_version_step as [Hq Ht]. specialize (Hq w1). specialize (Ht w1).
  destruct (_compute_source_version r w1) as [[v|e] w2]; cbn in Hq; destruct Hq as [Hf2 Hs2]; [|by intros [= <- <-]; rewrite Hf2, Hs2].
  assert (Hv : stable_version v) by (destruct v as [v|]; [right; by rewrite (Ht v w2)|by left]).
  rewrite bind_step. unfold lift_res at 1. rewrite (not_stale n) by done. rewrite bind_step. unfold lift_res at 1. rewrite Hcompleted.
  cbn [is_healthy]. rewrite bind_step. cbn [mret M_ret]. set (unchanged := bool_decide (c = None) && true && _).
  assert (unchanged = false) as ->. { subst unchanged. rewrite andb_true_r. unfold _source_version_unchanged. case_match; apply andb_false_r. }
  intros [= <- <-]. rewrite Hf2, Hs2. split_and!; [done..|]. intros context [= <-]. done.
Qed.

(** *** Materialising *)

Lemma lift_bind {A C} (a : A) (k : A → M W C) : lift_res (Ok a) ≫= k = k a.
Proof. reflexivity. Qed.

(** A quiet step leaves the sync where it is. *)
Lemma quiet_at {A C} n (m : M W A) (k : A → M W C) w res w' : quiet m → at_step n w → (m ≫= k) w = (res, w') →
  (∃ a w1, m w = (Ok a, w1) ∧ at_step n w1 ∧ k a w1 = (res, w')) ∨ (∃ e, res = Raise e ∧ at_step n w').
Proof.
  intros Hq Hat. rewrite bind_step. specialize (Hq w). destruct (m w) as [[a|e] w1]; cbn in Hq; destruct Hq as [Hf Hs].
  - intros E. left. exists a, w1. split_and!; [done| |done]. by eapply at_step_view.
  - intros [= <- <-]. right. exists e. split; [done|]. by eapply at_step_view.
Qed.
Lemma quiet_shards partial' k : quiet (_require_checkpoint_shards r partial' k).
Proof. apply quiet_require. Qed.

Lemma checkpointed_run stream n version box w res w' : serves stream n → stable_version version → at_step n w →
  materialize_checkpointed r stream destination_uri (Z.of_nat n) (_persist_batch_state identity version destination_uri) box None None [] w =
    (res, w') →
  match res with Ok (a, _) => at_step (length groups) w' ∧ published a w' | Raise _ => beyond n w' end.
Proof.
  intros Hserve Hv Hat. unfold materialize_checkpointed. rewrite bind_step. unfold lift_res at 1.
  rewrite (proj2 (Z.ltb_ge (Z.of_nat n) 0)) by lia. cbn [raise_if]. intros E.
  apply (quiet_at n) in E as [(u & w1 & _ & Hat1 & E)|(e & -> & Hat1)]; [|by exists n; split|apply (dl_open dest)|done].
  apply (quiet_at n) in E as [(u1 & w2 & _ & Hat2 & E)|(e & -> & Hat2)]; [|by exists n; split|apply (dl_makedirs dest)|done].
  apply (quiet_at n) in E as [(i & w3 & Ei & Hat3 & E)|(e & -> & Hat3)]; [|by exists n; split|apply quiet_lift|done].
  unfold lift_res in Ei. rewrite identity_ok in Ei. injection Ei as <- <-. fold partial final in E.
  apply (quiet_at n) in E as [(u2 & w4 & _ & Hat4 & E)|(e & -> & Hat4)]; [|by exists n; split|apply (dl_makedirs dest)|done].
  apply (quiet_at n) in E as [(u3 & w5 & _ & Hat5 & E)|(e & -> & Hat5)]; [|by exists n; split|apply quiet_shards|done].
  rewrite bind_step in E. destruct (with_stream stream _ w5) as [rs w6] eqn:Es. apply stream_step in Es; [|done..].
  destruct rs as [[next x]|e]; [|by injection E as <- <-]. cbn [fst] in Es. destruct Es as [-> Hat6].
  apply (quiet_at (length groups)) in E as [(u4 & w7 & _ & Hat7 & E)|(e & -> & Hat7)]; [|by exists (length groups); split; [apply Hat|]|apply quiet_shards|done].
  rewrite bind_step in E. destruct (_publish_parquet r final _ _ _ _ _ w7) as [rp w8] eqn:Ep.
  apply publish_step in Ep as [Hat8 Hpub]; [|by eapply sv_fields|done].
  destruct rp as [a|e]; injection E as <- <-; [split; auto|exists (length groups); by split; [apply Hat|]].
Qed.

Lemma open_step n context : (n ≤ length groups)%nat → context_at n context →
  tells (λ _ opened, serves opened.1.1 n ∧ opened.1.2 = Z.of_nat n) (open_for_sync r reader context true).
Proof.
  intros Hn (_ & _ & _ & _ & Hc). unfold open_for_sync. destruct n as [|n]; cbn [checkpoint_at] in Hc.
  - rewrite Hc. destruct (so_open src) as [Hq Ht]. split; [apply quiet_then; [done|intros ?; apply quiet_return]|].
    intros w a w'. rewrite bind_step. destruct (reader_open reader r w) as [[s|e] w1] eqn:E; [|done]. intros [= <- _]. split; [by apply (Ht _ _ _ E)|done].
  - destruct Hc as (version & destination & -> & _ & _). cbn [checkpoint_of cp_next_batch_index cp_row_group_index].
    destruct (reader_open_from_cursor reader) as [f|] eqn:Ef; [|split; [apply quiet_throw|done]].
    assert (Hcur : cursor_at (next_batch_index (cursor_of (Datatypes.S n))) (row_group_index (cursor_of (Datatypes.S n))) = Ok (cursor_of (Datatypes.S n))).
    { unfold cursor_at, make_position, make_cursor. pose proof (position_nonneg (Datatypes.S n)) as Hpos. unfold cursor_of.
      cbn [next_batch_index row_group_index]. rewrite (proj2 (Z.ltb_ge _ 0)) by done. cbn [raise_if mbind result_bind].
      rewrite (proj2 (Z.ltb_ge _ 0)) by lia. done. }
    rewrite Hcur, lift_bind. destruct (so_cursor src f (Datatypes.S n) Ef Hn) as [Hq Ht].
    split; [apply quiet_then; [done|intros ?; apply quiet_return]|]. intros w a w'. rewrite bind_step.
    destruct (f r _ w) as [[s|e] w1] eqn:E; [|done]. intros [= <- _]. split; [by apply (Ht _ _ _ E)|done].
Qed.

(** The completed state is in the store, and the artifact it records is at the destination. *)
Definition finished (a : Artifact) (w : W) : Prop :=
  (∃ watermark version now, st w !! identity = Some (completed_state identity watermark a version now)) ∧ published a w.

Lemma cleanup_step w res w' : cleanup_checkpointed r destination_uri w = (res, w') → st w' = st w ∧ fs w' !! final = fs w !! final.
Proof.
  unfold cleanup_checkpointed. rewrite identity_ok, lift_bind. fold partial. unfold try_except. rewrite bind_step.
  pose proof (dl_open dest (rstrip_slash destination_uri) w) as Hq. destruct (open_filesystem _ w) as [[u|e] w1]; cbn in Hq; destruct Hq as [Hf Hs].
  2:{ destruct (is_Exception (exn_kind e)); intros [= <- <-]; by rewrite Hf, Hs. }
  destruct (dl_tree dest partial w1) as [Hs1 Hf1].
  assert (Hfin : fs (remove_tree partial w1).2 !! final = fs w !! final).
  { destruct (Hf1 final) as [E|[rest E]]; [by rewrite E, Hf|]. exfalso. unfold final, final_uri_of, partial, partial_uri_of in E.
    rewrite !app_assoc_s in E. by apply final_not_partial, id in E; [|apply identity_is_hex]. }
  destruct (remove_tree partial w1) as [[u'|e] w2]; cbn [fst snd] in *; [|destruct (is_Exception (exn_kind e))]; intros [= <- <-]; by rewrite Hs1, Hs.
Qed.

(** The resource's own version has not changed, so the run is not aborted. *)
Lemma materialize_step n context w res w' : at_step n w → context_at n context →
  _materialize_resource r reader destination_uri identity context true w = (res, w') →
  match res with
  | Ok (a, _, use_checkpointed, _) => use_checkpointed = true ∧ at_step (length groups) w' ∧ published a w'
  | Raise _ => beyond n w'
  end.
Proof.
  intros Hat Hctx. pose proof Hctx as (_ & Hkind & Hprior & Hstable & _). unfold _materialize_resource. rewrite Hkind, Hprior.
  rewrite (bool_decide_true (None = None)) by done. rewrite orb_true_r. cbn [andb orb negb].
  intros E. apply (quiet_at n) in E as [([[stream start] action] & w1 & Eo & Hat1 & E)|(e & -> & Hat1)]; [|by exists n; split| |done].
  2:{ destruct (open_step n context) as [Hq _]; [apply Hat|done|exact Hq]. }
  destruct (open_step n context) as [_ Ht]; [apply Hat|done|]. apply Ht in Eo as [Hserve Hstart]. cbn [fst snd] in Hserve, Hstart. subst start.
  rewrite bind_step in E. destruct (materialize_checkpointed _ _ _ _ _ _ _ _ _ w1) as [rm w2] eqn:Em.
  apply checkpointed_run in Em; [|done..]. destruct rm as [[a box]|e]; [|by injection E as <- <-]. destruct Em as [Hat2 Hpub].
  rewrite bind_step in E. destruct source_version_step as [Hq Ht2]. specialize (Hq w2). specialize (Ht2 w2).
  destruct (_compute_source_version r w2) as [[post|e] w3]; cbn in Hq; destruct Hq as [Hf3 Hs3].
  2:{ injection E as <- <-. exists (length groups). split; [apply Hat|]. by eapply at_step_view. }
  assert (Hat3 : at_step (length groups) w3) by by eapply at_step_view.
  assert (Hpub3 : published a w3) by (eapply published_view; [|done]; by rewrite Hf3).
  assert (Hsame : ∀ p s, post = Some p → stable_source_version context = Some s → p = s).
  { intros p s -> Hs. rewrite (Ht2 p w3 eq_refl). rewrite Hs in Hstable. destruct Hstable as [|[= ->]]; done. }
  rewrite bind_step in E. destruct post as [p|]; [|by injection E as <- <-].
  destruct (stable_source_version context) as [s|] eqn:Es; [|by injection E as <- <-].
  rewrite (bool_decide_true (p = s)) in E by auto. by injection E as <- <-.
Qed.

(** The commit of a state, with the version in [box] where the store has them *)
Definition commit (state : SyncState) (box : option string) : M W unit :=
  if is_atomic then store_conditional_put identity state box;; mret tt else store_put identity state.
Lemma commit_step state box w res w' : commit state box w = (res, w') →
  fs w' = fs w ∧ (st w' = <[identity := state]> (st w) ∨ is_ok res = false ∧ st w' = st w).
Proof.
  unfold commit. destruct is_atomic.
  - rewrite bind_step. pose proof (sl_cas store identity state box w) as [Hf Hd].
    destruct (store_conditional_put _ _ _ w) as [[v|e] w1]; cbn [fst snd is_ok] in Hf, Hd; intros [= <- <-]; (split; [done|]);
      destruct Hd as [->|[Hr Hd]]; auto.
  - intros E. pose proof (sl_put store identity state w) as Hd. by rewrite E in Hd.
Qed.

Lemma finish_step context a action fresh box w res w' : prior_artifact context = None → at_step (length groups) w → published a w →
  _finish_resource_sync r a action true fresh destination_uri identity context box w = (res, w') →
  match res with
  | Ok o => so_record o = Some a ∧ finished a w'
  | Raise _ => beyond (length groups) w' ∨ finished a w'
  end.
Proof.
  intros Hprior Hat Hpub. unfold _finish_resource_sync. cbn [negb]. rewrite andb_false_r, andb_false_l.
  set (watermark' := match or_text fresh None with Some _ => _ | None => _ end). unfold _completed_sync_state. rewrite !bind_step.
  pose proof (kl_text clocks w) as Hq. destruct (_utcnow_iso w) as [[now|e] w1]; cbn in Hq; destruct Hq as [Hf Hs].
  2:{ intros [= <- <-]. left. exists (length groups). split; [done|]. by eapply at_step_view. }
  cbn [mret M_ret]. rewrite bind_step. set (state := completed_state _ _ _ _ _). fold (commit state box). destruct (commit state box w1) as [rc w2] eqn:Ec.
  apply commit_step in Ec as [Hf2 Hs2]. assert (Hpub2 : published a w2) by (eapply published_view; [|done]; by rewrite Hf2, Hf).
  destruct rc as [u|e]; cbn [is_ok] in Hs2.
  2:{ intros [= <- <-]. destruct Hs2 as [Hs2|[_ Hs2]].
    - right. split; [|done]. exists watermark', (stable_source_version context), now. rewrite Hs2. apply lookup_insert_eq.
    - left. exists (length groups). split; [done|]. apply (at_step_view _ w); [by rewrite Hf2, Hf|by rewrite Hs2, Hs|done]. }
  destruct Hs2 as [Hs2|[? _]]; [|done]. rewrite bind_step. destruct (cleanup_checkpointed r destination_uri w2) as [rl w3] eqn:El.
  apply cleanup_step in El as [Hs3 Hf3].
  assert (Hfin : finished a w3).
  { split; [|by eapply published_view]. exists watermark', (stable_source_version context), now. rewrite Hs3, Hs2. apply lookup_insert_eq. }
  destruct rl as [u'|e]; intros [= <- <-]; [done|by right].
Qed.

(** *** The whole of it *)

Definition settles (n : nat) (res : result SyncOutcome) (w : W) : Prop :=
  match res with
  | Ok o => ∃ a, so_record o = Some a ∧ finished a w
  | Raise _ => beyond n w ∨ ∃ a, finished a w
  end.

Lemma settles_view n rb wb res w : fs w = fs wb → st w = st wb → res = rb ∨ is_ok res = false → settles n rb wb → settles n res w.
Proof.
  intros Hf Hs Hr. assert (Hfin : ∀ a, finished a wb → finished a w).
  { intros a [Hst Hpub]. split; [by rewrite Hs|]. eapply published_view; [|done]. by rewrite Hf. }
  assert (Hun : beyond n wb → beyond n w) by (intros (m & Hm & Hn); exists m; split; [done|]; by eapply at_step_view).
  destruct Hr as [->|Hr]; [|destruct res; [done|]]; destruct rb as [o|e']; cbn [settles]; naive_solver.
Qed.

(** The body of [_sync_transaction_outcome]: no conditional request is sent. *)
Lemma as_is_reader {A} transport context (k : Reader W B S * option string * option SyncOutcome → M W A) :
  _conditional_reader r reader transport destination_uri identity context ≫= k = k (reader, None, None).
Proof. unfold _conditional_reader. destruct kind_checkpointable as (_ & -> & _). cbn [negb]. by repeat case_match. Qed.

Lemma transaction_step transport n context w res w' : at_step n w → context_at n context →
  _sync_transaction_outcome r reader transport destination_uri identity context true w = (res, w') → settles n res w'.
Proof.
  intros Hat Hctx. unfold _sync_transaction_outcome.
  rewrite as_is_reader, bind_step.
  destruct (_materialize_resource _ _ _ _ _ _ w) as [rm w1] eqn:Em. apply (materialize_step n) in Em; [|done..].
  destruct rm as [[[[a action] use] box]|e]; [|intros [= <- <-]; by left]. destruct Em as (-> & Hat1 & Hpub).
  intros E. apply finish_step in E; [|by destruct Hctx as (_ & _ & Hp & _)|done..].
  destruct res as [o|e]; cbn [settles]; [eauto|]. destruct E as [(m & Hm & E)|E]; [left|eauto]. exists m. split; [|done]. etrans; [apply Hat|done].
Qed.

(** From step [n] an attempt finishes, or it raises and what is there is still
    a checkpoint, at [n] or after it, with the shards it counts. *)
Lemma sync_settles transport n w res w' : at_step n w →
  sync_one reader destination_uri transport true r w = (res, w') → settles n res w'.
Proof.
  intros Hat. unfold sync_one. destruct kind_checkpointable as (_ & _ & ->). rewrite identity_ok, lift_bind.
  set (body := context ← _; _).
  assert (Hbody : ∀ wa rb wb, at_step n wa → body wa = (rb, wb) → settles n rb wb).
  { intros wa rb wb Hata. subst body. rewrite bind_step. destruct (_load_sync_context r identity destination_uri true wa) as [rc w1] eqn:Ec.
    apply (load_step n) in Ec as (Hf & Hs & Hctx); [|apply Hata]. assert (Hat1 : at_step n w1) by by eapply at_step_view.
    destruct rc as [context|e]; [|intros [= <- <-]; left; by exists n; split]. specialize (Hctx _ eq_refl).
    pose proof Hctx as [-> _]. by eapply transaction_step. }
  unfold _resource_transaction. destruct is_atomic; [|by apply Hbody]. destruct has_key_lock; [|intros [= <- <-]; left; by exists n; split].
  intros E. apply (sl_lock store) in E as [(Hr & Hf & Hs)|(w1 & Hf1 & Hs1 & Hf & Hs & Hr)].
  - destruct res; [done|]. left. exists n. split; [done|]. by eapply at_step_view.
  - assert (Hat1 : at_step n w1) by by eapply at_step_view. destruct (body w1) as [rb wb] eqn:Eb. apply Hbody in Eb; [|done].
    cbn [fst snd] in *. by eapply settles_view.
Qed.

(** *** A shard that is missing *)

Lemma require_missing partial' indices i w : i ∈ indices → fs w !! _batch_shard_uri partial' i = None →
  is_ok (require_shards r partial' indices w).1 = false.
Proof.
  revert w. induction indices as [|j indices IH]; intros w Hin Hw; [by apply not_elem_of_nil in Hin|]. cbn [require_shards]. rewrite bind_step.
  destruct (dl_exists dest (_batch_shard_uri partial' j)) as [Hq Ht]. specialize (Hq w). specialize (Ht w).
  destruct (exists_file _ w) as [[b|e] w1]; [|done]. cbn in Hq. destruct Hq as [Hf _]. rewrite (Ht _ _ eq_refl).
  apply elem_of_cons in Hin as [<-|Hin]; [by rewrite Hw|]. destruct (bool_decide _); [|done]. apply IH; [done|]. by rewrite Hf.
Qed.

(** [m] raises, and changes nothing. *)
Definition refuses {A} (m : M W A) (w : W) : Prop := is_ok (m w).1 = false ∧ fs (m w).2 = fs w ∧ st (m w).2 = st w.
Lemma refuses_after {A C} (m : M W A) (k : A → M W C) w :
  fs (m w).2 = fs w ∧ st (m w).2 = st w → (∀ a w1, m w = (Ok a, w1) → fs w1 = fs w → st w1 = st w → refuses (k a) w1) → refuses (m ≫= k) w.
Proof.
  intros Hq Hk. unfold refuses. rewrite bind_step. destruct (m w) as [[a|e] w1]; [|done]. cbn in Hq. destruct Hq as [Hf Hs].
  destruct (Hk a w1 eq_refl Hf Hs) as (Ha & Hf' & Hs'). by rewrite Hf', Hs'.
Qed.
Lemma refuses_first {A C} (m : M W A) (k : A → M W C) w : refuses m w → refuses (m ≫= k) w.
Proof. unfold refuses. rewrite bind_step. destruct (m w) as [[a|e] w1]; [by intros [? _]|done]. Qed.

Lemma checkpointed_refuses stream n i version box w : (i < n)%nat → fs w !! shard i = None →
  refuses (materialize_checkpointed r stream destination_uri (Z.of_nat n) (_persist_batch_state identity version destination_uri) box None None []) w.
Proof.
  intros Hi Hw. unfold materialize_checkpointed. rewrite (proj2 (Z.ltb_ge (Z.of_nat n) 0)) by lia. cbn [raise_if]. rewrite lift_bind, identity_ok.
  apply refuses_after; [apply (dl_open dest)|]. intros _ w1 _ Hf1 _. apply refuses_after; [apply (dl_makedirs dest)|]. intros _ w2 _ Hf2 _.
  rewrite lift_bind. fold partial. apply refuses_after; [apply (dl_makedirs dest)|]. intros _ w3 _ Hf3 _. apply refuses_first.
  split; [|apply quiet_shards]. apply require_missing with (i := Z.of_nat i); [apply elem_of_seqZ; lia|]. fold (shard i). by rewrite Hf3, Hf2, Hf1.
Qed.

(** A sync that finds a checkpoint without one of its shards *)
Lemma missing_shard_refused transport n i w : (n ≤ length groups)%nat → saved_at n (st w) → (i < n)%nat → fs w !! shard i = None →
  refuses (sync_one reader destination_uri transport true r) w.
Proof.
  intros Hn Hsave Hi Hw. unfold sync_one. destruct kind_checkpointable as (_ & _ & ->). rewrite identity_ok, lift_bind.
  set (body := context ← _; _).
  assert (Hbody : ∀ wa, fs wa = fs w → st wa = st w → refuses body wa).
  { intros wa Hfa Hsa. subst body. apply refuses_after.
    - destruct (_load_sync_context _ _ _ _ wa) as [rc w1] eqn:Ec. apply (load_step n) in Ec as (Hf & Hs & _); [done|by rewrite Hsa].
    - intros context w1 Ec Hf1 Hs1. apply (load_step n) in Ec as (_ & _ & Hctx); [|by rewrite Hsa]. specialize (Hctx _ eq_refl).
      pose proof Hctx as (-> & Hkind & Hprior & _ & _). unfold _sync_transaction_outcome. rewrite as_is_reader.
      apply refuses_first. unfold _materialize_resource. rewrite Hkind, Hprior, (bool_decide_true (None = None)) by done.
      rewrite orb_true_r. cbn [andb orb negb]. pose proof (open_step n context Hn Hctx) as [Hq Ht].
      apply refuses_after; [apply Hq|]. intros [[stream start] action] w2 Eo Hf2 _. destruct (Ht _ _ _ Eo) as [_ Hstart].
      cbn [fst snd] in Hstart. subst start. apply refuses_first. apply checkpointed_refuses with i; [done|]. by rewrite Hf2, Hf1, Hfa. }
  unfold _resource_transaction. destruct is_atomic; [|by apply Hbody]. destruct has_key_lock; [|done]. unfold refuses.
  destruct (store_key_lock identity body w) as [res w'] eqn:E. cbn [fst snd]. apply (sl_lock store) in E as [(Hr & Hf & Hs)|(w1 & Hf1 & Hs1 & Hf & Hs & Hr)]; [done|].
  destruct (Hbody w1 Hf1 Hs1) as (Hok & Hf2 & Hs2). rewrite Hf, Hs, Hf2, Hs2. split_and!; [|done..]. by destruct Hr as [->|].
Qed.
End crash.
