(* ===== verification/SyncReader.v ===== *)
(** * Syncs of Parquet files

    The row-group reader of [Streams] gives what a checkpointed sync relies on:
    from the beginning all row groups that are not empty, and from a cursor the
    ones that are left.  With it a sync of a Parquet file that is interrupted
    any number of times ends with the file an uninterrupted one publishes. *)
From Stdlib Require Import Ascii ZArith Lia.
From stdpp Require Import strings gmap.
From S2P Require Import Prelude PyVal Urls Json JsonText Uris Transport Artifact StateStore Targets Identity Streams Materialize Sync SyncProofs.
Local Open Scope Z_scope.
Local Open Scope py_scope.

(** ** Filtering a numbered list *)

Section numbered.
Context {A : Type}.

Definition numbered_from (k : Z) (l : list A) : list (Z * A) := imap (λ i b, (k + Z.of_nat i, b)) l.
Lemma numbered_cons k b l : numbered_from k (b :: l) = (k, b) :: numbered_from (k + 1) l.
Proof.
  unfold numbered_from. cbn [imap]. f_equal; [f_equal; lia|]. apply imap_ext. intros i x _. cbn. f_equal. lia.
Qed.

Variable keep : Z * A → bool.
Definition kept_from (k : Z) (l : list A) : list (Z * A) := List.filter keep (numbered_from k l).

Lemma kept_cons k b l : kept_from k (b :: l) = if keep (k, b) then (k, b) :: kept_from (k + 1) l else kept_from (k + 1) l.
Proof. unfold kept_from. by rewrite numbered_cons. Qed.

Lemma kept_after k l n g : kept_from k l !! n = Some g →
  k <= g.1 ∧ drop (S n) (kept_from k l) = kept_from (g.1 + 1) (drop (Z.to_nat (g.1 + 1 - k)) l).
Proof.
  revert k n. induction l as [|b l IH]; intros k n; [done|]. rewrite kept_cons.
  assert (Hskip : ∀ m, kept_from (k + 1) l !! m = Some g → k <= g.1 ∧
    drop (S m) (kept_from (k + 1) l) = kept_from (g.1 + 1) (drop (Z.to_nat (g.1 + 1 - k)) (b :: l))).
  { intros m Hm. destruct (IH _ _ Hm) as [Hle ->]. split; [lia|].
    replace (Z.to_nat (g.1 + 1 - k)) with (S (Z.to_nat (g.1 + 1 - (k + 1)))) by lia. done. }
  destruct (keep (k, b)); [|by apply Hskip]. destruct n as [|n]; [|by apply Hskip].
  intros [= <-]. cbn [fst]. split; [lia|]. by replace (Z.to_nat (k + 1 - k)) with 1%nat by lia.
Qed.
End numbered.

(** ** The reader *)

Section reader.
Context {W B S : Type} `{!ParquetCodec W B S}.
Context (fs : W → gmap string string) (st : W → gmap string SyncState).
Abbreviation quiet := (SyncProofs.quiet fs st).
Abbreviation tells := (SyncProofs.tells fs st).
Implicit Types src : byte_source W B S.
Abbreviation delivers := (SyncProofs.delivers (B := B) fs st).

(** The row groups of the file, and the fields of its schema *)
Variables (file_groups : list B) (fields : arrow_schema).

Definition is_filled (g : Z * B) : bool := 0 <? num_rows g.2.
Definition filled_from (k : Z) : list (Z * B) := kept_from is_filled k (drop (Z.to_nat k) file_groups).
Definition filled : list (Z * B) := filled_from 0.

Lemma filled_ascending k l : ascending (k - 1) (kept_from is_filled k l).
Proof.
  assert (Hw : ∀ a b (gs : list (Z * B)), a <= b → ascending b gs → ascending a gs).
  { intros a b [|g gs]; [done|]. cbn. intros ? [? ?]. split; [lia|done]. }
  revert k. induction l as [|b l IH]; intros k; [done|]. rewrite kept_cons. specialize (IH (k + 1)). replace (k + 1 - 1) with k in IH by lia.
  destruct (is_filled (k, b)); [split; [cbn; lia|done]|]. eapply Hw, IH. lia.
Qed.

(** What is left after [n] of them *)
Lemma filled_after n : (n ≤ length filled)%nat → drop n filled = filled_from (position filled n).
Proof.
  destruct n as [|n]; [done|]. intros Hn. cbn [position]. destruct (lookup_lt_is_Some_2 filled n) as [g Hg]; [lia|]. rewrite Hg.
  unfold filled, filled_from in *. cbn [drop] in *. apply kept_after in Hg as [Hle ->]. by replace (g.1 + 1 - 0) with (g.1 + 1) by lia.
Qed.

(** *** Its environment *)

(** A Parquet file that is opened gives its row groups, and its footer can be
    read again; [close] and the sniffing of the compression change nothing. *)
Record file_laws (file : ParquetFile W B S) : Prop := {
  fl_count : num_row_groups file = Z.of_nat (length file_groups);
  fl_group i : 0 <= i → tells (λ _ b, file_groups !! Z.to_nat i = Some b) (read_group file i)
}.
Record source_file_laws (src : byte_source W B S) : Prop := {
  sf_file : tells (λ _ file, file_laws file) (parquet_file src);
  sf_footer : quiet (file ← parquet_file src; schema_arrow file) ∧ ∀ w,
    match (file ← parquet_file src; schema_arrow file) w with
    | (Ok schema, _) => schema_fields schema = fields
    | (Raise e, _) => is_Exception (exn_kind e) = false
    end;
  sf_detect : quiet (detect_format src);
  sf_close : quiet (close_source src)
}.
Hypothesis group_fields : ∀ b, b ∈ file_groups → schema_fields (schema_of b) = fields.

(** *** The generator *)

Lemma tells_bind {A C} F (G : gmap string string → C → Prop) (m : M W A) (k : A → M W C) :
  tells F m → (∀ f a, F f a → tells G (k a)) → tells G (m ≫= k).
Proof.
  intros [Hq Ht] Hk. assert (Hstep : ∀ w a w1, m w = (Ok a, w1) → fs w1 = fs w ∧ st w1 = st w ∧ tells G (k a)).
  { intros w a w1 E. specialize (Hq w). rewrite E in Hq. destruct Hq as [Hf Hs]. split_and!; [done..|]. by eapply Hk, Ht. }
  split.
  - intros w. rewrite bind_step. specialize (Hq w). destruct (m w) as [[a|e] w1] eqn:E; [|done].
    destruct (Hstep _ _ _ E) as (Hf & Hs & Hkq & _). destruct (Hkq w1) as [-> ->]. done.
  - intros w c w'. rewrite bind_step. destruct (m w) as [[a|e] w1] eqn:E; [|done].
    destruct (Hstep _ _ _ E) as (<- & Hs & _ & HG). apply HG.
Qed.

Lemma group_step_ok file i b : file_laws file → 0 <= i → file_groups !! Z.to_nat i = Some b →
  tells (λ _ v, v = if is_filled (i, b) then Some (i, b) else None) (group_step file i).
Proof.
  intros Hfile Hi Hb. destruct (fl_group _ Hfile i Hi) as [Hq Ht]. split.
  - apply quiet_try; [apply quiet_then; [done|intros ?; apply quiet_return]|].
    intros e k E. destruct (is_subclass _ _); [|done]. injection E as <-. apply quiet_throw.
  - intros w v w'. unfold group_step, wrap_arrow, try_except. rewrite bind_step.
    destruct (read_group file i w) as [[b'|e] w1] eqn:E; [|by destruct (is_subclass _ _)].
    apply Ht in E. rewrite Hb in E. injection E as <-. by intros [= <- _].
Qed.

Lemma steps_deliver file k m : file_laws file → 0 <= k → (Z.to_nat k + m = length file_groups)%nat →
  delivers (group_step file <$> seqZ k (Z.of_nat m)) (filled_from k).
Proof.
  intros Hfile. revert k. induction m as [|m IH]; intros k Hk Hlen.
  - unfold filled_from. rewrite drop_ge by lia. constructor.
  - rewrite seqZ_cons by lia. replace (Z.pred (Z.of_nat (Datatypes.S m))) with (Z.of_nat m) by lia. cbn [fmap list_fmap].
    destruct (lookup_lt_is_Some_2 file_groups (Z.to_nat k)) as [b Hb]; [lia|].
    pose proof (group_step_ok file k b Hfile Hk Hb) as Hstep. unfold filled_from. rewrite (drop_S _ b) by done. rewrite kept_cons.
    specialize (IH (Z.succ k)). unfold filled_from in IH. rewrite Z2Nat.inj_succ in IH by done. unfold Z.succ in *.
    destruct (is_filled (k, b)); constructor; try done; apply IH; lia.
Qed.

Lemma next_item_ok (items : list (M W (option (Z * B)))) gs : delivers items gs →
  tells (λ _ o, match o with None => gs = [] | Some (g, rest) => ∃ gs', gs = g :: gs' ∧ delivers rest gs' end) (next_item items).
Proof.
  induction 1 as [|item items g gs [Hq Ht] Hd _|item items gs [Hq Ht] Hd IH]; cbn [next_item].
  - split; [apply quiet_return|]. by intros w a w' [= <- _].
  - split.
    + intros w. rewrite bind_step. specialize (Hq w). destruct (item w) as [[v|e] w1] eqn:E; [|done]. by rewrite (Ht _ _ _ E).
    + intros w a w'. rewrite bind_step. destruct (item w) as [[v|e] w1] eqn:E; [|done]. rewrite (Ht _ _ _ E). intros [= <- _]. eauto.
  - destruct IH as [IHq IHt]. split.
    + intros w. rewrite bind_step. specialize (Hq w). destruct (item w) as [[v|e] w1] eqn:E; [|done]. rewrite (Ht _ _ _ E).
      cbn in Hq. destruct Hq as [<- <-]. apply IHq.
    + intros w a w'. rewrite bind_step. destruct (item w) as [[v|e] w1] eqn:E; [|done]. rewrite (Ht _ _ _ E). intros Ew.
      specialize (IHt _ _ _ Ew). exact IHt.
Qed.

(** *** The stream *)

Lemma read_rows_quiet src k : source_file_laws src → quiet (read_batches_from_row_group src k).
Proof.
  intros [[Hq _] _ _ _]. unfold read_batches_from_row_group. do 2 (apply quiet_then; [apply quiet_lift|intros _]).
  apply quiet_then; [|intros file; apply quiet_then; [apply quiet_lift|intros _; apply quiet_return]].
  apply quiet_try; [done|]. intros e h E. destruct (is_subclass _ _); [|done]. injection E as <-. apply quiet_throw.
Qed.
Lemma read_rows_ok src k : source_file_laws src → 0 <= k →
  tells (λ _ items, delivers items (filled_from k)) (read_batches_from_row_group src k).
Proof.
  intros Hsrc Hk. split; [by apply read_rows_quiet|]. destruct Hsrc as [[_ Ht] _ _ _]. intros w items w'. unfold read_batches_from_row_group.
  rewrite bind_step. unfold lift_res at 1. rewrite (proj2 (Z.ltb_ge k 0)) by done. cbn [raise_if]. rewrite bind_step. unfold lift_res at 1.
  destruct (negb (seekable src)); [done|]. cbn [raise_if]. rewrite bind_step. unfold wrap_arrow, try_except.
  destruct (parquet_file src w) as [[file|e] w1] eqn:E; [|by destruct (is_subclass _ _)]. specialize (Ht _ _ _ E). cbn in Ht.
  rewrite bind_step. unfold lift_res. destruct (num_row_groups file <? k) eqn:Ek; [done|]. apply Z.ltb_ge in Ek. intros [= <- _].
  rewrite (fl_count _ Ht) in *. replace (Z.of_nat (length file_groups) - k) with (Z.of_nat (length file_groups - Z.to_nat k)) by lia.
  apply steps_deliver; [done..|lia].
Qed.

Lemma closing_tells {A} F src (m : M W A) : quiet (close_source src) → tells F m → tells F (closing_on_error src m).
Proof.
  intros Hc [Hq Ht]. split.
  - apply quiet_try; [done|]. intros e k [= <-]. apply quiet_then; [|intros _; apply quiet_throw]. apply quiet_try; [done|].
    intros e' k E. destruct (is_Exception _); [|done]. injection E as <-. apply quiet_return.
  - intros w a w'. unfold closing_on_error, try_except at 1. specialize (Ht w). destruct (m w) as [[x|e] w1].
    + intros [= <- <-]. by eapply Ht.
    + rewrite bind_step. destruct (_close_source src w1) as [[]]; discriminate.
Qed.

Abbreviation serves := (SyncProofs.serves fs st filled fields).

Lemma filled_fields k g gs : filled_from k = g :: gs → schema_fields (schema_of g.2) = fields.
Proof.
  intros E. apply group_fields. assert (g ∈ filled_from k) as Hin by (rewrite E; left). unfold filled_from, kept_from in Hin.
  apply list_elem_of_In, filter_In in Hin as [Hin _]. apply list_elem_of_In, elem_of_lookup_imap in Hin as (i & b & -> & Hb). cbn [snd].
  rewrite lookup_drop in Hb. by eapply list_elem_of_lookup_2.
Qed.

Lemma build_ok src n : source_file_laws src → (n ≤ length filled)%nat →
  tells (λ _ stream, serves stream n) (_build_parquet_cursor_stream src (position filled n) (Z.of_nat n)).
Proof.
  intros Hsrc Hn. pose proof (filled_after n Hn) as Hrest. assert (Hpos : 0 <= position filled n).
  { destruct n as [|n]; [done|]. cbn. destruct (filled !! n) as [g|] eqn:Eg; [|done]. apply kept_after in Eg as [? _]. lia. }
  unfold _build_parquet_cursor_stream. set (start := position filled n) in *.
  assert (Hfirst : tells (λ _ o, match o with None => filled_from start = []
    | Some (g, rest) => ∃ gs, filled_from start = g :: gs ∧ delivers rest gs end)
    (closing_on_error src (pairs ← read_batches_from_row_group src start; next_item pairs))).
  { apply closing_tells; [apply Hsrc|]. eapply tells_bind; [by apply read_rows_ok|]. intros ? items Hd. apply next_item_ok, Hd. }
  eapply tells_bind; [exact Hfirst|]. intros ? first_pair Hgiven.
  set (opened := match first_pair with None => _ | Some _ => _ end).
  assert (Hopened : tells (λ _ o, delivers o.1 (filled_from start) ∧ schema_fields o.2 = fields) opened).
  { subst opened. destruct first_pair as [[g rest]|].
    - destruct Hgiven as (gs & Hgs & Hd). split; [apply quiet_return|]. intros w o w' [= <- _]. cbn [fst snd]. rewrite Hgs. split.
      + constructor; [|done]. split; [apply quiet_return|]. by intros ? ? ? [= <- _].
      + by eapply filled_fields.
    - rewrite Hgiven. destruct (sf_footer _ Hsrc) as [Hq Hfooter]. split.
      + apply quiet_then; [|intros ?; apply quiet_return]. apply quiet_try; [done|]. intros e k E. destruct (is_Exception _); [|done].
        injection E as <-. apply quiet_return.
      + intros w o w'. rewrite bind_step. unfold try_except. specialize (Hfooter w).
        destruct ((file ← parquet_file src; schema_arrow file) w) as [[schema|e] w1]; [|by rewrite Hfooter].
        intros [= <- _]. split; [constructor|done]. }
  clearbody opened. eapply tells_bind; [exact Hopened|]. intros ? [items schema] [Hd Hfields]. cbn [fst snd] in Hd, Hfields.
  apply closing_tells; [apply Hsrc|]. split; [apply quiet_lift|]. intros w stream w'. unfold lift_res, make_batch_stream.
  rewrite (proj2 (Z.ltb_ge (Z.of_nat n) 0)) by lia. rewrite (proj2 (Z.ltb_ge start 0)) by done. intros [= <- _].
  split; cbn [source start_batch_index start_row_group_index Streams.schema source_close closeables default]; [|done| |done|].
  - exists items. by rewrite Hrest.
  - split; [done|]. rewrite Hrest. apply filled_ascending.
  - constructor; [done|]. constructor; [|constructor]. intros m [= <-]. apply Hsrc.
Qed.
End reader.

(** ** Syncs with this reader *)

Section resume.
Context `{IpLiterals, IpAddresses, QueryText, UrlJoin, DateTimes, FloatText, Sha256} {W B S : Type}.
Context `{!Destination W, !ParquetCodec W B S, !Surroundings W, !Resolver W, !SourceBytes W, !SyncStore W, !UtcText W}.
Context `{!SourceOpener (W := W) (B := B) (S := S)}.
Variables (fs : W → gmap string string) (st : W → gmap string SyncState) (rows_in : string → option (list row)).
Hypothesis dest : destination_laws fs st.
Hypothesis codec : codec_laws fs st rows_in.
Hypothesis store : store_laws fs st.
Hypothesis clocks : clock_laws fs st.
Hypothesis sha_hex : ∀ s, is_sha256 (PyStr (sha256 s)) = true.

(** A Parquet file of a kind that is checkpointed, whose bytes stay the same *)
Record parquet_resource (r : Resource) (source_bytes : string) (file_groups : list B) (fields : arrow_schema) : Prop := {
  pr_parquet : is_parquet r = true;
  pr_access : ∃ a, resource_access r = Some a ∧ is_checkpointable a = true ∧
    tells fs st (λ _ data, data = source_bytes) (read_access a) ∧
    tells fs st (λ _ src, source_file_laws fs st file_groups fields src) (open_source a);
  pr_fields b : b ∈ file_groups → schema_fields (schema_of b) = fields
}.

(** [DataPlaneResourceReader], as a sync uses it *)
Record reads_row_groups (reader : Reader W B S) (r : Resource) : Prop := {
  rr_open : reader_open reader r = open_parquet r;
  rr_cursor f : reader_open_from_cursor reader = Some f → f = open_from_cursor
}.

Variables (r : Resource) (source_bytes destination_uri identity : string) (file_groups : list B) (fields : arrow_schema)
          (reader : Reader W B S).
Hypothesis identity_ok : canonical_identity r = Ok identity.
Hypothesis parquet : parquet_resource r source_bytes file_groups fields.
Hypothesis row_groups : reads_row_groups reader r.

Abbreviation groups := (filled file_groups).

Lemma reader_sources : source_laws fs st r groups source_bytes fields reader.
Proof.
  destruct (pr_access _ _ _ _ parquet) as (a & Ha & Hc & Hbytes & Hsource). pose proof (pr_fields _ _ _ _ parquet) as Hfields.
  split; [apply parquet|by exists a| | |].
  - intros a'. rewrite Ha. by intros [= <-].
  - rewrite (rr_open _ _ row_groups). unfold open_parquet, _resolve_access. rewrite Ha, lift_bind.
    eapply tells_bind; [exact Hsource|]. intros ? s Hs. cbn beta in Hs. split.
    + apply quiet_then; [apply Hs|]. intros fmt. destruct (negb _); [apply quiet_then; [apply Hs|intros _; apply quiet_throw]|].
      by apply (build_ok fs st file_groups fields Hfields s 0 Hs), Nat.le_0_l.
    + intros w stream w'. unfold _open_checkpointable_parquet. rewrite bind_step. destruct (detect_format s w) as [[fmt|e] w1]; [|done].
      destruct (negb _); [rewrite bind_step; by destruct (close_source s w1) as [[]]|].
      destruct (build_ok fs st file_groups fields Hfields s 0 Hs (Nat.le_0_l _)) as [_ Ht]. apply Ht.
  - intros f n Hf Hn. rewrite (rr_cursor _ _ row_groups f Hf). unfold open_from_cursor. rewrite (pr_parquet _ _ _ _ parquet). cbn [negb raise_if].
    rewrite lift_bind. unfold _resolve_access. rewrite Ha, lift_bind, Hc. eapply tells_bind; [exact Hsource|]. intros ? s Hs.
    by apply build_ok.
Qed.

(** C4: an attempt to sync a Parquet file in row groups,
    starting from the checkpoint after [n] of them, either finishes - the
    recorded artifact is at its final place with all rows of the source in
    order, its digests are those of the file and of the rows, and the
    completed state names it - or raises, wherever it was interrupted, and
    then the store still has a checkpoint that all its shards are there for,
    at [n] or later, or it has finished already.  So any number of
    interrupted attempts ends with what one uninterrupted attempt gives, and
    the checkpoint never goes back. *)
Theorem checkpointed_sync_resumes transport n w res w' : at_step fs st rows_in destination_uri identity groups source_bytes n w →
  sync_one reader destination_uri transport true r w = (res, w') →
  settles fs st rows_in destination_uri identity groups source_bytes fields n res w'.
Proof.
  apply (sync_settles fs st rows_in dest codec store clocks r destination_uri identity groups identity_ok sha_hex source_bytes fields reader
           reader_sources), (filled_ascending 0 file_groups).
Qed.
End resume.

(** ** A world *)

(** Files, states, and how many steps are left before the process is killed *)
Record lake := { l_files : gmap string string; l_states : gmap string SyncState; l_steps : nat }.
Definition lake_act {A} (f : lake → result A * lake) : M lake A := λ w,
  match l_steps w with
  | O => (Raise (err CancelledError "killed"), w)
  | Datatypes.S n => f {| l_files := l_files w; l_states := l_states w; l_steps := n |}
  end.
Definition lake_ret {A} (a : A) : M lake A := λ w, (Ok a, w).
Definition lake_tell {A} (f : gmap string string → result A) : M lake A := lake_act (λ w, (f (l_files w), w)).
Definition lake_write (f : gmap string string → gmap string string) : M lake unit :=
  lake_act (λ w, (Ok tt, {| l_files := f (l_files w); l_states := l_states w; l_steps := l_steps w |})).
Definition lake_put (key : string) (s : SyncState) : lake → lake := λ w,
  {| l_files := l_files w; l_states := <[key := s]> (l_states w); l_steps := l_steps w |}.

Definition lake_found (p : string) (f : gmap string string) : result string :=
  match f !! p with Some d => Ok d | None => Raise (err FileNotFoundError p) end.
Definition lake_tree (p : string) (f : gmap string string) : gmap string string :=
  filter (λ kv, starts_with (p +:+ "/") kv.1 = false) f.

#[local] Instance lake_files : Filesystem lake := {|
  cat_file p := lake_tell (lake_found p);
  pipe_file p s := lake_write <[p := s]>;
  mv p q := lake_act (λ w, match l_files w !! p with
    | Some d => (Ok tt, {| l_files := <[q := d]> (base.delete p (l_files w)); l_states := l_states w; l_steps := l_steps w |})
    | None => (Raise (err FileNotFoundError p), w) end);
  rm p := lake_write (base.delete p);
  exists_file p := lake_tell (λ f, Ok (bool_decide (is_Some (f !! p))));
  open_lock_file _ := lake_ret tt;
  temporary_suffix := lake_ret "0";
  strip_protocol p := p
|}.
#[local] Instance lake_destination : Destination lake := {|
  open_filesystem _ := lake_ret tt;
  makedirs _ := lake_ret tt;
  create_file p := lake_write <[p := ""]>;
  file_size p := lake_tell (λ f, d ← lake_found p f; Ok (Z.of_nat (String.length d)));
  remove_tree p := lake_write (lake_tree p)
|}.

(** A table of one column, whose cells are characters, is a text. *)
Definition letters (s : string) : list row := (λ c, [("letter", CellStr (String c ""))]) <$> String.list_ascii_of_string s.
Definition letter_fields : arrow_schema := [{| sf_name := "letter"; sf_type := "string"; sf_nullable := false |}].
#[local] Instance lake_codec : ParquetCodec lake string arrow_schema := {|
  codec_batches := {| num_rows b := Z.of_nat (String.length b); schema_of _ := letter_fields; empty_schema := [] |};
  write_table b := lake_ret b;
  write_batches _ bs := lake_ret (foldr String.append "" bs);
  read_parquet data := lake_ret (letter_fields, [data]);
  to_pylist := letters;
  schema_fields := id
|}.

#[local] Instance lake_dates : DateTimes :=
  {| datetime := unit; has_tzinfo _ := true; astimezone_utc d := d; isoformat _ := "2024-05-01T00:00:00+00:00";
     fromisoformat s := if bool_decide (s = "2024-05-01T00:00:00+00:00") then Some tt else None |}.
#[local] Instance lake_query : QueryText := {| unquote_plus s := s; quote_plus s := s |}.
#[local] Instance lake_literals : IpLiterals := λ _, false.
#[local] Instance lake_addresses : IpAddresses := {| ip_address _ := None; inet_aton _ := None |}.
#[local] Instance lake_join : UrlJoin := λ _ s, Ok s.
#[local] Instance lake_floats : FloatText := {| float_repr _ := "0.0"; float_of_text _ := FNan |}.
#[local] Instance lake_resolver : Resolver lake := λ _, lake_ret [].
#[local] Instance lake_sha : Sha256 := λ s,
  String.string_of_list_ascii (replicate 64 (default "0"%char (List.nth_error (String.list_ascii_of_string "0123456789abcdef") (String.length s mod 16)))).
#[local] Instance lake_clock : Surroundings lake := {| now_utc := lake_ret tt; path_uri p := lake_ret ("file://" +:+ p) |}.
#[local] Instance lake_text : UtcText lake := lake_ret "2024-05-01T00:00:00+00:00".
#[local] Instance lake_bytes : SourceBytes lake := λ _, lake_tell (λ _, Ok "ab-c").
#[local] Instance lake_store : SyncStore lake := {|
  is_atomic := true;
  has_key_lock := true;
  store_get key := lake_act (λ w, (Ok (l_states w !! key), w));
  store_put key s := lake_act (λ w, (Ok tt, lake_put key s w));
  store_get_with_version key := lake_act (λ w, (Ok (l_states w !! key, None), w));
  store_conditional_put key s _ := lake_act (λ w, (Ok "1", lake_put key s w));
  store_key_lock _ _ m := m
|}.

(** Three row groups, of which the second is empty *)
Definition lake_groups : list string := ["ab"; ""; "c"].
Definition lake_parquet : ParquetFile lake string arrow_schema := {|
  num_row_groups := 3;
  read_group i := lake_tell (λ _, match lake_groups !! Z.to_nat i with Some b => Ok b | None => Raise (err ArrowError "") end);
  schema_arrow := lake_ret letter_fields
|}.
#[local] Instance lake_source : SourceOpener (W := lake) (B := string) (S := arrow_schema) := λ _,
  lake_ret {| seekable := true; parquet_file := lake_tell (λ _, Ok lake_parquet); detect_format := lake_ret "none"; close_source := lake_ret tt |}.

Definition lake_reader : Reader lake string arrow_schema := {|
  reader_open := open_parquet; reader_open_from_cursor := Some open_from_cursor; reader_open_response := None;
  reader_open_bytes := None; reader_read_bytes := None; reader_send := None; reader_allow_private_http := false
|}.
Definition lake_resource : Resource := {|
  resource_id := "air"; resource_name := None; resource_url := None; resource_format := Some "parquet";
  resource_media_type := None; resource_access := Some (ObjectStorage "s3://raw/air.parquet")
|}.

(** *** It obeys the laws. *)

Lemma quiet_act {A} (f : lake → result A * lake) :
  (∀ w, l_files (f w).2 = l_files w ∧ l_states (f w).2 = l_states w) → quiet l_files l_states (lake_act f).
Proof. intros Hf w. unfold lake_act. destruct (l_steps w); [done|]. destruct (Hf {| l_files := l_files w; l_states := l_states w; l_steps := n |}) as [-> ->]. done. Qed.
Lemma tells_tell {A} (f : gmap string string → result A) (F : gmap string string → A → Prop) :
  (∀ fs a, f fs = Ok a → F fs a) → tells l_files l_states F (lake_tell f).
Proof.
  intros Hf. split; [by apply quiet_act|]. intros w a w'. unfold lake_tell, lake_act. destruct (l_steps w); [done|].
  intros [= E _]. by apply Hf.
Qed.

Lemma starts_with_rest p s : starts_with p s = true → ∃ rest, s = p +:+ rest.
Proof.
  revert s. induction p as [|c p IH]; intros s; [by exists s|]. destruct s as [|c' s]; [done|]. unfold starts_with in *. cbn.
  destruct (ascii_dec c c') as [->|]; [|done]. intros [rest ->]%IH. by exists rest.
Qed.

Lemma lake_destination_ok : destination_laws l_files l_states.
Proof.
  split; try done.
  - intros p. apply tells_tell. intros f a. unfold lake_found. destruct (f !! p); [by intros [= ->]|done].
  - intros p. apply tells_tell. by intros f a [= <-].
  - intros p. by apply quiet_act.
  - intros p w r w'. destruct w as [f s [|n]]; intros [= <- <-]; (split; [done|]); [exists (f !! p)|by exists (Some "")].
    by rewrite partial_alter_self.
  - intros p d w r w'. destruct w as [f s [|n]]; intros [= <- <-]; (split; [done|]); [|done]. exists (f !! p). by rewrite partial_alter_self.
  - intros p q w r w'. destruct w as [f s [|n]]; [intros [= <- <-]; by auto|]. cbn. unfold lake_act. cbn.
    destruct (f !! p) as [d|] eqn:E; intros [= <- <-]; (split; [done|]); [left; by exists d|by right].
  - intros p [f s [|n]]; cbn; auto.
  - intros p [f s [|n]]; (split; [done|]); intros q; [by left|]. cbn. unfold lake_tree.
    destruct (starts_with (p +:+ "/") q) eqn:E.
    + right. apply starts_with_rest in E as [rest ->]. exists rest. by rewrite app_assoc_s.
    + left. rewrite map_lookup_filter. destruct (f !! q) as [d|]; [|done]. cbn. by rewrite option_guard_True.
Qed.

Lemma letters_app a b : letters (a +:+ b) = letters a ++ letters b.
Proof. induction a as [|c a IH]; [done|]. unfold letters in *. cbn. by rewrite <- IH. Qed.
Definition lake_rows (data : string) : option (list row) := Some (letters data).

Lemma lake_codec_ok : codec_laws l_files l_states lake_rows.
Proof.
  split.
  - intros b. split; [done|]. by intros w a w' [= <- _].
  - intros schema bs. split; [done|]. intros w a w' [= <- _]. unfold lake_rows. f_equal.
    induction bs as [|b bs IH]; [done|]. cbn [foldr fmap list_fmap]. rewrite letters_app, IH. done.
  - intros data. split; [done|]. intros w a w' [= <- _]. cbn. by rewrite app_nil_r.
Qed.

Lemma lake_store_ok : store_laws l_files l_states.
Proof.
  split.
  - intros key. split; [split; [by apply quiet_act|done]|]. intros [f s [|n]] a w'; [done|]. by intros [= <- _].
  - intros key. split; [by apply quiet_act|]. intros [f s [|n]] a v w'; [done|]. by intros [= <- _ _].
  - intros key a [f s [|n]]; (split; [done|]); [by right|by left].
  - intros key a v [f s [|n]]; (split; [done|]); [by right|by left].
  - intros A key m w r w' E. right. exists w. cbn in E. rewrite E. split_and!; try done. by left.
Qed.

Lemma lake_clock_ok : clock_laws l_files l_states.
Proof. done. Qed.
Lemma lake_sha_hex s : is_sha256 (PyStr (sha256 s)) = true.
Proof.
  unfold sha256, lake_sha. assert (Hlt : (String.length s mod 16 < 16)%nat) by (apply Nat.mod_upper_bound; done).
  revert Hlt. generalize (String.length s mod 16)%nat. intros n Hn. do 16 (destruct n as [|n]; [by vm_compute|]). lia.
Qed.

Lemma lake_parquet_ok : parquet_resource l_files l_states lake_resource "ab-c" lake_groups letter_fields.
Proof.
  split; [done| |by intros b _]. exists (ObjectStorage "s3://raw/air.parquet"). split_and!; [done..| |].
  - apply tells_tell. by intros f a [= <-].
  - split; [done|]. intros w src w' [= <- _]. split; cbn.
    + apply tells_tell. intros f file [= <-]. split; [done|]. intros i Hi. apply tells_tell. intros f' b.
      destruct (lake_groups !! Z.to_nat i) as [b'|]; [by intros [= ->]|done].
    + by split; intros [f s [|n]].
    + done.
    + done.
Qed.

Definition lake_sync : M lake SyncOutcome := sync_one lake_reader "s3://lake" None true lake_resource.
Definition lake_start (steps : nat) : lake := {| l_files := ∅; l_states := ∅; l_steps := steps |}.
Definition again (steps : nat) (w : lake) : lake := {| l_files := l_files w; l_states := l_states w; l_steps := steps |}.
Definition lake_identity : string := match canonical_identity lake_resource with Ok d => d | Raise _ => "" end.

(** A run that is killed after the first of two shards, and the one after it *)
Definition lake_killed : result SyncOutcome * lake := lake_sync (lake_start 11).
Definition lake_resumed : result SyncOutcome * lake := lake_sync (again 200 lake_killed.2).

Lemma checkpointed_sync_resumes_witness :
  (is_ok lake_killed.1 = false ∧ (λ i, l_files lake_killed.2 !! shard "s3://lake" lake_identity i) <$> [0; 1]%nat = [Some "ab"; None]) ∧
  settles l_files l_states lake_rows "s3://lake" lake_identity (filled lake_groups) "ab-c" letter_fields 0 lake_killed.1 lake_killed.2 ∧
  so_action <$> lake_resumed.1 = Ok Resumed ∧ map_to_list (l_files lake_resumed.2) = [(final "s3://lake" lake_identity, "abc")].
Proof.
  split; [vm_compute; split; reflexivity|]. split; [|vm_compute; split; reflexivity].
  apply (checkpointed_sync_resumes l_files l_states lake_rows lake_destination_ok lake_codec_ok lake_store_ok lake_clock_ok lake_sha_hex
           lake_resource "ab-c" "s3://lake" lake_identity lake_groups letter_fields lake_reader) with None (lake_start 11).
  - vm_compute. reflexivity.
  - exact lake_parquet_ok.
  - split; [reflexivity|]. by intros f [= <-].
  - split_and!; [lia| |reflexivity]. intros i g Hi. lia.
  - apply surjective_pairing.
Defined.
