(* ===== verification/SyncSafety.v ===== *)
(** * What a sync does not do

    A sync does not skip a resource whose artifact is not at the destination,
    does not start with two resources of one identity, and does not publish a
    resumed artifact with a shard missing; a checkpoint keeps its cursor.  One
    theorem shows what it does do: when the source changes while it is read,
    the mixed artifact is at its final place when the sync raises. *)
From Stdlib Require Import Ascii ZArith Lia.
From stdpp Require Import strings gmap.
From S2P Require Import Prelude PyVal Urls Json JsonText Uris Transport Artifact StateStore Targets Identity Streams Materialize Sync SyncProofs SyncReader.
Local Open Scope Z_scope.
Local Open Scope py_scope.

(** One step of a computation that is known to return *)
Ltac step_ok := rewrite bind_step; match goal with |- (match ?m with _ => _ end = _ → _) => destruct m as [[?|?] ?]; [|done] end.

Section safety.
Context `{IpLiterals, IpAddresses, QueryText, UrlJoin, DateTimes, FloatText, Sha256} {W B S : Type}.
Context `{!Destination W, !ParquetCodec W B S, !Surroundings W, !Resolver W, !SourceBytes W, !SyncStore W, !UtcText W}.
Context `{!SourceOpener (W := W) (B := B) (S := S)}.
Variables (fs : W → gmap string string) (st : W → gmap string SyncState) (rows_in : string → option (list row)).
Hypothesis dest : destination_laws fs st.
Hypothesis codec : codec_laws fs st rows_in.
Hypothesis clocks : clock_laws fs st.

(** ** What is skipped is there *)

Definition present (a : Artifact) (w : W) : Prop :=
  ∃ data, fs w !! uri a = Some data ∧ sha256 data = digest_value (blob_digest a).

Lemma health_present r a u w w' : destination_health r a u w = (Ok true, w') → present a w'.
Proof.
  intros E. pose proof (quiet_health fs st dest r a u w) as [Hf0 _]. rewrite E in Hf0. cbn in Hf0. unfold present. rewrite Hf0. revert E.
  unfold destination_health. rewrite bind_step. unfold lift_res at 1. destruct (canonical_identity r) as [i|e]; [|done].
  destruct (negb _); [done|]. unfold try_except. rewrite bind_step. pose proof (dl_open _ _ dest (rstrip_slash u) w) as [Hf _].
  destruct (open_filesystem _ w) as [[x|e] w1]; [|by destruct (is_Exception _)]. rewrite bind_step. cbn in Hf.
  pose proof (tells_quiet _ _ _ _ (dl_exists _ _ dest (uri a)) w1) as [Hf1 _]. destruct (exists_file _ w1) as [[b|e] w2]; [|by destruct (is_Exception _)].
  destruct b; [|done]. cbn [negb]. cbn in Hf1. rewrite bind_step. pose proof (dl_size _ _ dest (uri a) w2) as [Hf2 _].
  destruct (file_size _ w2) as [[n|e] w3]; [|by destruct (is_Exception _)]. cbn in Hf2. destruct (negb _); [done|]. unfold _blob_digest_from_fs.
  rewrite !bind_step. destruct (dl_cat _ _ dest (uri a)) as [_ Ht]. specialize (Ht w3).
  destruct (cat_file _ w3) as [[data|e] w4]; [|by destruct (is_Exception _)]. specialize (Ht _ _ eq_refl). cbn in Ht.
  cbn [mret M_ret]. intros [= Hd%bool_decide_eq_true _]. exists data. rewrite <- Hf, <- Hf1, <- Hf2. done.
Qed.

(** A context names the artifact that is to be skipped, or says whether the one
    of the last run is at the destination. *)
Lemma context_present r key u resume w context w' :
  (_load_sync_context r key u resume : M W _SyncContext) w = (Ok context, w') →
  match ctx_outcome context with
  | Some o => ∃ a, so_record o = Some a ∧ present a w'
  | None => destination_was_healthy context = true → ∃ a, prior_artifact context = Some a ∧ present a w'
  end.
Proof.
  unfold _load_sync_context. rewrite bind_step. destruct (read_prior key w) as [[[prior version]|e] w1]; [|done].
  rewrite bind_step. unfold lift_res at 1. destruct (prior_checkpoint prior) as [c|e]; [|done].
  assert (Hearly : ∀ v o1 w2, _resume_outcome r prior key u (resume && bool_decide (c = None)) w1 = (Ok (v, Some o1), w2) →
    ∃ a, so_record o1 = Some a ∧ present a w2).
  { intros v o1 w2. unfold _resume_outcome. rewrite bind_step. unfold lift_res at 1. destruct (_completed_artifact_record prior) as [[a|]|e]; [|done..].
    destruct (resume && _); [|done]. rewrite bind_step. destruct (destination_health r a u w1) as [[[|]|e] wh] eqn:Eh; [|done..].
    intros [= _ <- <-]. exists a. split; [done|]. by eapply health_present. }
  rewrite bind_step. destruct (_resume_outcome _ _ _ _ _ w1) as [[[v [o1|]]|e] w2]; [|clear Hearly|done].
  { intros [= <- <-]. by eapply Hearly. }
  rewrite bind_step. set (kind := is_parquet r && _). set (reading := if kind then _compute_source_version r else mret None : M W _). destruct (reading w2) as [[source_version|e] w3]; [|done].
  rewrite bind_step. unfold lift_res at 1. destruct (is_stale c source_version u) as [stale|e]; [|done]. rewrite bind_step. unfold lift_res at 1.
  destruct (_completed_artifact_record (if stale then None else prior)) as [artifact|e]; [|done]. rewrite bind_step.
  destruct (is_healthy r artifact u w3) as [[healthy|e] w4] eqn:Eh; [|done].
  assert (Hhealthy : healthy = true → ∃ a, artifact = Some a ∧ present a w4).
  { intros ->. destruct artifact as [a|]; [|by injection Eh]. exists a. split; [done|]. by eapply health_present. }
  set (unchanged := _ && _source_version_unchanged _ _ _ _). destruct unchanged eqn:Eu; intros [= <- <-]; [|exact Hhealthy]. cbn [ctx_outcome so_record outcome].
  subst unchanged. apply andb_true_iff in Eu as [_ Eu]. unfold _source_version_unchanged in Eu.
  destruct (if stale then None else prior) as [s|]; [|done]. destruct artifact as [a|]; [|done]. destruct source_version as [sv|]; [|done].
  apply andb_true_iff in Eu as [-> _]. by apply Hhealthy.
Qed.

(** Computations that change nothing and tell of the files *)
Lemma tells_return {A} (F : gmap string string → A → Prop) (a : A) : (∀ f, F f a) → tells fs st F (mret a).
Proof. intros Hf. split; [done|]. by intros w a' w' [= <- _]. Qed.
Lemma tells_anything {A} (m : M W A) : quiet fs st m → tells fs st (λ _ _, True) m.
Proof. by intros Hm. Qed.
Lemma tells_then {A C} F (G : gmap string string → C → Prop) (m : M W A) (k : A → M W C) :
  tells fs st F m → (∀ a, tells fs st (λ f c, F f a → G f c) (k a)) → tells fs st G (m ≫= k).
Proof.
  intros [Hq Ht] Hk. split; [apply quiet_then; [done|]; intros a; apply Hk|].
  intros w c w'. rewrite bind_step. pose proof (Hq w) as [Hf _]. destruct (m w) as [[a|e] w1] eqn:E; [|done]. cbn in Hf.
  intros E'. destruct (Hk a) as [_ HG]. rewrite <- Hf. eapply HG; [exact E'|]. rewrite Hf. by eapply Ht.
Qed.
Lemma tells_try {A} F (m : M W A) h : tells fs st F m → (∀ e k, h e = Some k → tells fs st F k) → tells fs st F (try_except m h).
Proof.
  intros [Hq Ht] Hh. split; [apply quiet_try; [done|]; intros e k Hk; by eapply Hh|].
  intros w a w'. unfold try_except. pose proof (Hq w) as [Hf _]. specialize (Ht w). destruct (m w) as [[a'|e] w1].
  - intros E. eapply Ht. exact E.
  - destruct (h e) as [k|] eqn:Eh; [|done]. cbn in Hf. rewrite <- Hf. by apply (Hh e k Eh).
Qed.
Definition hash_of p (f : gmap string string) (digest : string) : Prop := ∃ data, f !! p = Some data ∧ sha256 data = digest.
Lemma tells_blob p : tells fs st (hash_of p) (_blob_digest_from_fs p).
Proof. unfold _blob_digest_from_fs. eapply tells_then; [apply (dl_cat _ _ dest)|]. intros data. apply tells_return. intros f Hd. by exists data. Qed.

(** What a file that is already there is taken for *)
Definition found_at p (f : gmap string string) (found : bool * option string) : Prop :=
  if found.1 then ∃ digest, found.2 = Some digest ∧ hash_of p f digest else found.2 = None.
Lemma existing_spec final_uri tmp media c stored staged : tells fs st (found_at final_uri) (_existing_record final_uri tmp media c stored staged).
Proof.
  unfold _existing_record. destruct (negb _); [by apply tells_return|]. eapply tells_then; [apply (dl_exists _ _ dest)|]. intros [|]; cbn [negb].
  2:{ by apply tells_return. }
  apply tells_try; [|intros e k E; destruct (is_Exception _); [injection E as <-|done]; by apply tells_return].
  eapply tells_then; [apply tells_anything, (dl_size _ _ dest)|]. intros m. eapply tells_then; [apply tells_anything, (dl_size _ _ dest)|]. intros n.
  apply (tells_then (λ f same, ∀ digest, same = Some digest → hash_of final_uri f digest)).
  - destruct (m =? n); [|by apply tells_return]. eapply tells_then; [apply tells_blob|]. intros published.
    apply (tells_then (λ _ _, True)); [apply tells_anything; destruct staged; [by intros w|apply tells_blob]|]. intros other.
    apply tells_return. intros f _ Hp digest. case_bool_decide; [by intros [= <-]|done].
  - intros [published|].
    + apply tells_return. intros f Hs _ _ _. exists published. split; [done|by apply Hs].
    + eapply (tells_then (λ _ _, True)); [apply tells_anything; unfold _destination_checksum|].
      { apply quiet_then; [eapply tells_quiet, (dl_cat _ _ dest)|]. intros data. case_bool_decide; [|by intros w].
        apply quiet_then; [eapply tells_quiet, (cl_read _ _ _ codec)|by intros file w]. }
      intros logical. case_bool_decide; [|by apply tells_return]. eapply tells_then; [apply tells_blob|]. intros digest.
      apply tells_return. intros f Hd _ _ _ _ _. by exists digest.
Qed.

(** The file that a materialisation leaves at its final place is the one of the
    artifact it returns. *)
Lemma publish_leaves r p tmp content stored w a w' :
  ('(existing, published_digest) ← _existing_record p tmp _PARQUET_MEDIA_TYPE content stored None;
   let uri := if (existing : bool) then p else tmp in
   size ← file_size uri;
   blob_digest ← _published_blob_digest uri "parquet" content existing published_digest;
   match _stored_artifact_if_current None p _PARQUET_MEDIA_TYPE size content blob_digest "parquet" with
   | Some current => mret current
   | None => (if existing then mret tt else mv tmp p);; _artifact r p _PARQUET_MEDIA_TYPE size content blob_digest "parquet" None None []
   end) w = (Ok a, w') → hash_of p (fs w') (digest_value (blob_digest a)).
Proof.
  rewrite bind_step. pose proof (existing_spec p tmp _PARQUET_MEDIA_TYPE content stored None) as [Hq Hfound]. specialize (Hq w). specialize (Hfound w).
  destruct (_existing_record _ _ _ _ _ _ w) as [[[existing published]|e] w1]; [|done]. destruct Hq as [Hf1 _]. specialize (Hfound _ _ eq_refl).
  cbn in Hf1. rewrite bind_step. pose proof (dl_size _ _ dest (if existing then p else tmp) w1) as [Hf2 _].
  destruct (file_size _ w1) as [[size|e] w2]; [|done]. cbn in Hf2. rewrite bind_step. unfold _published_blob_digest.
  change (bool_decide ("parquet" = "raw")) with false. cbn [andb]. unfold found_at in Hfound. cbn [fst snd] in Hfound.
  assert (Hartifact : ∀ digest w, hash_of p (fs w) digest →
    _artifact r p _PARQUET_MEDIA_TYPE size content digest "parquet" None None [] w = (Ok a, w') → hash_of p (fs w') (digest_value (blob_digest a))).
  { intros digest w3 Hh E. pose proof (quiet_artifact fs st clocks r p _PARQUET_MEDIA_TYPE size content digest "parquet" None None [] w3) as [Hf _].
    rewrite E in Hf. apply digests_made in E as [_ ->]. cbn in Hf. by rewrite Hf. }
  destruct existing.
  - destruct Hfound as (digest & -> & Hh). cbn [mret M_ret _stored_artifact_if_current]. rewrite bind_step. cbn [mret M_ret]. apply Hartifact. by rewrite Hf2, Hf1.
  - rewrite Hfound. pose proof (tells_blob tmp) as [Hq Ht]. specialize (Hq w2). specialize (Ht w2).
    destruct (_blob_digest_from_fs tmp w2) as [[digest|e] w3]; [|done]. destruct Hq as [Hf3 _]. cbn in Hf3. destruct (Ht _ _ eq_refl) as (data & Hd & <-). cbn [_stored_artifact_if_current].
    rewrite bind_step. destruct (mv tmp p w3) as [[x|e] w4] eqn:Em; [|done]. apply (dl_mv _ _ dest) in Em as [_ [(d & Hd' & Hf4)|[? _]]]; [|done].
    apply Hartifact. rewrite Hf4. rewrite Hf3, Hd in Hd'. injection Hd' as <-. exists data. by rewrite lookup_insert_eq.
Qed.

Lemma materialize_leaves r reader u i stored w a w' : canonical_identity r = Ok i →
  (materialize r reader u "parquet" stored None None None [] : M W Artifact) w = (Ok a, w') →
  hash_of (final u i) (fs w') (digest_value (blob_digest a)).
Proof.
  intros Hi. unfold materialize. do 2 step_ok. rewrite Hi, lift_bind. rewrite bind_step. cbn [lift_res].
  change (_validated_mode "parquet") with (Ok tt : result unit). cbn iota.
  change (bool_decide ("parquet" = "parquet")) with true. change (bool_decide ("parquet" = "raw")) with false. cbn iota.
  fold (final u i). unfold _temporary_uri. rewrite !bind_step. destruct (temporary_suffix w1) as [[suffix|e] w2]; [|done].
  cbn [mret M_ret]. change (final u i +:+ ".tmp." +:+ suffix) with (temp_of (final u i) suffix). unfold try_finally. rewrite bind_step.
  destruct ((stream ← reader_open reader r; _) w2) as [[content|e] w3]; [|by destruct (safe_remove _ w3) as [[]]].
  match goal with |- (let '(_, _) := ?m w3 in _) = _ → _ => destruct (m w3) as [rb wb] eqn:Eb end.
  destruct (safe_remove_frame fs st dest (temp_of (final u i) suffix) wb) as [_ Hf].
  destruct (safe_remove _ wb) as [[x|e] wc]; [|done]. cbn in Hf. intros [= -> <-]. apply publish_leaves in Eb as (data & Hd & Hh).
  exists data. split; [|done]. destruct Hf as [->| ->]; [done|]. rewrite lookup_delete_ne; [done|]. apply not_eq_sym, temp_not_self.
Qed.

(** A conditional fetch that finds the resource unchanged checks the destination. *)
Lemma conditional_present r (reader rd : Reader W B S) transport u key context fresh o w w' :
  _conditional_reader r reader transport u key context w = (Ok (rd, fresh, Some o), w') → ∃ a, so_record o = Some a ∧ present a w'.
Proof.
  unfold _conditional_reader. destruct transport as [send|]; [|done]. destruct (reader_open_response reader) as [open_response|]; [|done].
  destruct (or_text _ _) as [url|]; [|done]. destruct (negb _); [done|]. destruct (match watermark context with Some w => _ | None => _ end); [done|].
  rewrite bind_step. match goal with |- (match ?m w with _ => _ end = _ → _) => destruct (m w) as [[x|e] w1]; [|done] end.
  rewrite bind_step. unfold lift_res at 1. destruct (make_runtime_request _ _ _ _ _ _ _ _) as [q|e]; [|done].
  rewrite bind_step. destruct (send q w1) as [[response|e] w2]; [|done]. case_bool_decide; [done|].
  destruct (status_code response =? 304).
  - rewrite bind_step. unfold lift_res at 1. destruct (_completed_artifact_record (prior context)) as [[a|]|e]; [|done..].
    rewrite bind_step. destruct (destination_health r a u w2) as [[[|]|e] w3] eqn:Eh; [|done..].
    intros [= _ _ <- <-]. exists a. split; [done|]. by eapply health_present.
  - destruct (negb _); [done|]. rewrite bind_step. by destruct (open_response _ _ _ w2) as [[stream|e] w3].
Qed.

(** What a skip after a materialisation says *)
Definition same_content context u i reader r (a : Artifact) w : Prop :=
  prior_artifact context = Some a ∧ ∃ (fresh : Artifact) w0,
    (materialize r reader u "parquet" (watermark context) None None None [] : M W Artifact) w0 = (Ok fresh, w) ∧
    watermark context = Some (digest_value (content_digest fresh)) ∧ hash_of (final u i) (fs w) (digest_value (blob_digest fresh)).

Lemma open_for_sync_acts r (reader : Reader W B S) context resume w stream start action w' :
  open_for_sync r reader context resume w = (Ok (stream, start, action), w') → action ≠ SkippedUnchanged.
Proof.
  unfold open_for_sync. destruct (if resume then _ else _) as [c|].
  - destruct (reader_open_from_cursor reader) as [f|]; [|done]. rewrite bind_step. unfold lift_res at 1. destruct (cursor_at _ _) as [cursor|e]; [|done].
    rewrite bind_step. destruct (f r cursor w) as [[s|e] w1]; [|done]. by intros [= _ _ <- _].
  - rewrite bind_step. destruct (reader_open reader r w) as [[s|e] w1]; [|done]. by intros [= _ _ <- _].
Qed.

Lemma finish_skips r a action used fresh u key context box w o w' : action ≠ SkippedUnchanged →
  _finish_resource_sync r a action used fresh u key context box w = (Ok o, w') → so_action o = SkippedUnchanged →
  w' = w ∧ used = false ∧ destination_was_healthy context = true ∧ watermark context = Some (digest_value (content_digest a)) ∧
  so_record o = prior_artifact context ∧ is_Some (prior_artifact context).
Proof.
  intros Ha. unfold _finish_resource_sync. match goal with |- context [if ?b then _ else _] => destruct b eqn:Eb end.
  - repeat (apply andb_true_iff in Eb as [Eb ?]). repeat match goal with Hb : bool_decide _ = true |- _ => apply bool_decide_eq_true in Hb end.
    intros [= <- <-] _. split_and!; try done; [by apply negb_true_iff|by apply not_eq_None_Some].
  - do 3 step_ok. by intros [= <- _].
Qed.

(** C30: a resource is skipped as resumed or unchanged only with an artifact that
    was found at the destination, hashing to the digest recorded for it.  When
    the sync skips it before it materialises anything - because the last run
    completed, because the source has the same version, or because a conditional
    fetch answered 304 - the artifact is there when the outcome is returned.
    When the skip comes after the resource was materialised again, the artifact
    was there when the sync looked, and the file at its final place is then the
    new copy or the old file: it hashes to the digest of the new artifact, whose
    content digest is the watermark of the last run. *)
Theorem skipped_is_present r (reader : Reader W B S) transport key u i resume w context w1 : canonical_identity r = Ok i →
  (_load_sync_context r key u resume : M W _SyncContext) w = (Ok context, w1) →
  match ctx_outcome context with
  | Some o => ∃ a, so_record o = Some a ∧ present a w1
  | None => ∀ o w2, _sync_transaction_outcome r reader transport u key context resume w1 = (Ok o, w2) → so_action o = SkippedUnchanged →
      ∃ a, so_record o = Some a ∧ (present a w2 ∨ present a w1 ∧ ∃ reader', same_content context u i reader' r a w2)
  end.
Proof.
  intros Hi Hload. apply context_present in Hload as Hp. destruct (ctx_outcome context) as [o|]; [exact Hp|]. intros o w2.
  unfold _sync_transaction_outcome. rewrite bind_step. destruct (_conditional_reader _ _ _ _ _ _ w1) as [[[[rd fresh] [o1|]]|e] w3] eqn:Ec; [| |done].
  { intros [= <- <-] _. apply conditional_present in Ec as (a & ? & ?). exists a. auto. }
  rewrite bind_step. destruct (_materialize_resource r rd u key context resume w3) as [[[[[a action] used] box]|e] w4] eqn:Em; [|done].
  intros Ef Ho. assert (Hact : action ≠ SkippedUnchanged ∧ (used = false →
    (materialize r rd u "parquet" (watermark context) None None None [] : M W Artifact) w3 = (Ok a, w4))).
  { revert Em. unfold _materialize_resource. destruct (negb _).
    - rewrite bind_step. destruct (materialize _ _ _ _ _ _ _ _ _ w3) as [[a'|e] w5]; [|done]. by intros [= <- <- <- _ <-].
    - rewrite bind_step. destruct (open_for_sync _ _ _ _ w3) as [[[[stream start] act]|e] w5] eqn:Eo; [|done]. apply open_for_sync_acts in Eo.
      rewrite bind_step. destruct (materialize_checkpointed _ _ _ _ _ _ _ _ _ w5) as [[[a' box']|e] w6]; [|done]. do 2 step_ok. by intros [= _ <- <- _ _]. }
  destruct Hact as [Hact Hmat]. destruct (finish_skips _ _ _ _ _ _ _ _ _ _ _ _ Hact Ef Ho) as (-> & -> & Hh & Hw & Hr & [a' Ha']).
  exists a'. rewrite Hr. split; [done|right]. destruct (Hp Hh) as (a2 & Ha2 & Hpres). rewrite Ha' in Ha2. injection Ha2 as <-. split; [done|].
  exists rd. split; [done|]. exists a, w3. split_and!; [by apply Hmat|done|]. by eapply materialize_leaves, Hmat.
Qed.

(** ** A source that changes *)

Hypothesis sha_hex : ∀ s, is_sha256 (PyStr (sha256 s)) = true.

(** What a publication leaves at its final place *)
Lemma publish_present r p schema bs locator created transforms w a w' :
  (_publish_parquet r p schema bs locator created transforms : M W Artifact) w = (Ok a, w') →
  ∃ data, fs w' !! p = Some data ∧ sha256 data = digest_value (blob_digest a).
Proof.
  unfold _publish_parquet, _temporary_uri. rewrite !bind_step. destruct (temporary_suffix w) as [[suffix|e] w0]; [|done].
  cbn [mret M_ret]. change (p +:+ ".tmp." +:+ suffix) with (temp_of p suffix). unfold try_finally.
  set (body := content_digest ← _; _).
  assert (Hbody : ∀ rb wb, body w0 = (rb, wb) → rb = Ok a → ∃ data, fs wb !! p = Some data ∧ sha256 data = digest_value (blob_digest a)).
  { intros rb wb. subst body. rewrite bind_step. destruct (_write_parquet _ _ _ w0) as [[cd|e] w1]; [|by intros [= <- <-]].
    rewrite bind_step. pose proof (dl_size _ _ dest (temp_of p suffix) w1) as [Hf1 _]. destruct (file_size _ w1) as [[n|e] w2]; [|by intros [= <- <-]].
    rewrite bind_step. unfold _blob_digest_from_fs. rewrite bind_step. destruct (dl_cat _ _ dest (temp_of p suffix)) as [Hq Ht].
    specialize (Hq w2). destruct (cat_file _ w2) as [[data|e] w3] eqn:Ec; [|by intros [= <- <-]]. specialize (Ht _ _ _ Ec). cbn in Ht, Hq.
    destruct Hq as [Hf3 _]. cbn [mret M_ret]. rewrite bind_step. destruct (mv _ p w3) as [rm w4] eqn:Em. apply (dl_mv _ _ dest) in Em as [_ Hf4].
    destruct rm as [x|e]; [|by intros [= <- <-]]. destruct Hf4 as [(d & Hd & Hf4)|[? _]]; [|done].
    pose proof (quiet_artifact fs st clocks r p _PARQUET_MEDIA_TYPE n cd (sha256 data) "parquet" locator created transforms w4) as [Hf5 _].
    destruct (_artifact _ _ _ _ _ _ _ _ _ _ w4) as [ra w5] eqn:Ea. cbn in Hf5. intros [= <- <-] ->.
    destruct (digests_made _ _ _ _ _ _ _ _ _ _ _ _ _ Ea) as [_ Hb]. exists data. rewrite Hf5, Hf4, lookup_insert_eq, Hb.
    rewrite Hf3, Ht in Hd. by injection Hd as <-. }
  clearbody body. destruct (body w0) as [rb wb] eqn:Eb. specialize (Hbody _ _ eq_refl).
  destruct (safe_remove_frame fs st dest (temp_of p suffix) wb) as [_ Hf]. destruct (safe_remove _ wb) as [[x|e] wc]; [|done]. cbn in Hf.
  intros [= -> <-]. destruct (Hbody eq_refl) as (data & Hd & Hh). exists data. split; [|done].
  destruct Hf as [->| ->]; [done|]. rewrite lookup_delete_ne; [done|]. apply not_eq_sym, temp_not_self.
Qed.

Lemma checkpointed_present {X} r u i (stream : BatchStream W B S) start (persist : X → BatchCursor → M W X) x locator created transforms w a y w' :
  canonical_identity r = Ok i →
  materialize_checkpointed r stream u start persist x locator created transforms w = (Ok (a, y), w') →
  ∃ data, fs w' !! final u i = Some data ∧ sha256 data = digest_value (blob_digest a).
Proof.
  intros Hi. unfold materialize_checkpointed. rewrite Hi.
  do 3 step_ok. rewrite lift_bind. do 3 step_ok. destruct a5 as [next x']. step_ok. rewrite bind_step. fold (final u i).
  destruct (_publish_parquet r (final u i) _ _ _ _ _ w6) as [[artifact|e] w8] eqn:Ep; [|done]. intros [= <- <- <-]. by eapply publish_present.
Qed.

Lemma cleanup_raises r u i w e w' : canonical_identity r = Ok i → (cleanup_checkpointed r u : M W unit) w = (Raise e, w') → is_Exception (exn_kind e) = false.
Proof.
  intros Hi. unfold cleanup_checkpointed. rewrite Hi, lift_bind. set (body := open_filesystem _;; _). unfold try_except. destruct (body w) as [[x|e'] w1]; [done|].
  destruct (is_Exception (exn_kind e')) eqn:Ee; [done|]. by intros [= <- _].
Qed.

(** C32: when the source changed while a checkpointed sync read it, the sync
    raises, but the artifact it made from both versions is already at its
    final place, under its final name. *)
Theorem changed_source_published r reader u key i context resume stream start action a box p s w w1 w2 w3 :
  canonical_identity r = Ok i → checkpointed_kind context = true → prior_artifact context = None → stable_source_version context = Some s →
  open_for_sync r reader context resume w = (Ok (stream, start, action), w1) →
  materialize_checkpointed r stream u start (_persist_batch_state key (Some s) u) (prior_version context) None None [] w1 = (Ok (a, box), w2) →
  _compute_source_version r w2 = (Ok (Some p), w3) → fs w3 = fs w2 → p ≠ s →
  ∃ e w' data, (_materialize_resource r reader u key context resume : M W _) w = (Raise e, w') ∧
    (e = source_changed_error r ∨ is_Exception (exn_kind e) = false) ∧
    fs w' !! final u i = Some data ∧ sha256 data = digest_value (blob_digest a).
Proof.
  intros Hi Hkind Hprior Hs Hopen Hrun Hpost Hf3 Hne. destruct (checkpointed_present _ _ _ _ _ _ _ _ _ _ _ _ _ _ Hi Hrun) as (data & Hd & Hh).
  unfold _materialize_resource. rewrite Hkind, Hprior, (bool_decide_true (None = None)) by done. rewrite orb_true_r. cbn [andb orb negb].
  rewrite bind_step, Hopen. rewrite bind_step, Hs, Hrun. rewrite bind_step, Hpost. rewrite bind_step, (bool_decide_false (p = s)) by done.
  rewrite bind_step. destruct (cleanup_checkpointed r u w3) as [rc w4] eqn:Ec. pose proof (cleanup_step fs st dest r u i Hi sha_hex _ _ _ Ec) as [_ Hfin].
  destruct rc as [x|e].
  - exists (source_changed_error r), w4, data. rewrite Hfin, Hf3. by split_and!; [..|left| |].
  - exists e, w4, data. rewrite Hfin, Hf3. split_and!; [done|right|done..]. by eapply cleanup_raises.
Qed.
End safety.

(** ** Identities that are not unique *)

Section unique.
Context `{IpLiterals, IpAddresses, QueryText, UrlJoin, DateTimes, FloatText, Sha256} {W B S : Type}.
Context `{!Destination W, !ParquetCodec W B S, !Surroundings W, !Resolver W, !SourceBytes W, !SyncStore W, !UtcText W}.

(** resources of which two have the same identity, or one has none, are
    refused before anything is read or written; others are synced one after
    the other. *)
Theorem sync_needs_unique_identities resources (reader : Reader W B S) u transport resume yield_outcome w :
  match map_res canonical_identity resources with
  | Ok ids => if bool_decide (NoDup ids)
              then sync_resources resources reader u transport resume yield_outcome w = sync_each reader u transport resume yield_outcome resources w
              else ∃ e, sync_resources resources reader u transport resume yield_outcome w = (Raise e, w)
  | Raise _ => ∃ e, sync_resources resources reader u transport resume yield_outcome w = (Raise e, w)
  end.
Proof.
  unfold sync_resources. rewrite bind_step. unfold lift_res. pose proof (unique_from_ok ∅ resources) as Hunique. unfold validate_unique_identities.
  assert (Hempty : ∀ ids : list string, Forall (λ i, (∅ : gmap string string) !! i = None) ids) by (intros ids; by apply Forall_true).
  destruct (map_res canonical_identity resources) as [ids|e] eqn:Em.
  - case_bool_decide as Hnd; [rewrite (proj2 Hunique); [done|by exists ids]|].
    destruct (validate_unique_from ∅ resources) as [[]|e]; [|by exists e]. destruct (proj1 Hunique eq_refl) as (ids' & [= <-] & Hnd' & _). done.
  - destruct (validate_unique_from ∅ resources) as [[]|e']; [|by exists e']. by destruct (proj1 Hunique eq_refl) as (ids' & ? & _).
Qed.
End unique.

(** ** Checkpoints keep their cursors *)

Section roundtrip.
Context `{IpLiterals, QueryText, DateTimes, FloatText, Sha256}.
Hypothesis sha_hex : ∀ s, is_sha256 (PyStr (sha256 s)) = true.

(** The state a batch persists is read back as the checkpoint it is: the same
    cursor and version, stale exactly when the source has another known
    version, and never taken for a completed state. *)
Theorem sync_checkpoint_roundtrip c version u s : 0 <= next_batch_index c → 0 <= row_group_index c → source_version_ok version →
  _in_progress_state c version u = Ok s →
  ∃ k, _decode_checkpoint s = Ok (Some k) ∧ cursor_at (cp_next_batch_index k) (cp_row_group_index k) = Ok c ∧
    cp_source_version k = version ∧ (∀ v, _checkpoint_is_stale k v u = Ok (bool_decide (is_Some v ∧ is_Some version ∧ v ≠ version))) ∧
    _completed_artifact_record (Some s) = Ok None.
Proof.
  intros Hn Hr Hv Hs. pose proof Hs as Hd. unfold _in_progress_state in Hd. apply bind_ok in Hd as (d & Hd & _).
  exists (checkpoint_of c version d). split_and!; [by apply (decode_in_progress sha_hex _ _ u)| |done| |by eapply in_progress_not_completed].
  - unfold cursor_at, make_position, make_cursor. cbn [cp_next_batch_index cp_row_group_index checkpoint_of].
    rewrite (proj2 (Z.ltb_ge _ _) Hr). cbn [raise_if mbind result_bind]. rewrite (proj2 (Z.ltb_ge _ _) Hn). by destruct c.
  - intros v. unfold _checkpoint_is_stale. rewrite Hd. cbn [mbind result_bind checkpoint_of cp_source_version cp_destination_identity].
    rewrite (bool_decide_true (d = d)) by done. cbn [negb]. rewrite orb_false_r. f_equal. destruct v as [v|], version as [v'|].
    + repeat case_bool_decide; naive_solver.
    + symmetry. apply bool_decide_false. by intros (_ & [? ?] & _).
    + symmetry. apply bool_decide_false. by intros ([? ?] & _ & _).
    + symmetry. apply bool_decide_false. by intros ([? ?] & _ & _).
Qed.
End roundtrip.

(** ** Resuming *)

Section resume.
Context `{IpLiterals, IpAddresses, QueryText, UrlJoin, DateTimes, FloatText, Sha256} {W B S : Type}.
Context `{!Destination W, !ParquetCodec W B S, !Surroundings W, !Resolver W, !SourceBytes W, !SyncStore W, !UtcText W}.
Context `{!SourceOpener (W := W) (B := B) (S := S)}.
Variables (fs : W → gmap string string) (st : W → gmap string SyncState).
Hypothesis sha_hex : ∀ s, is_sha256 (PyStr (sha256 s)) = true.
Variables (r : Resource) (source_bytes u i : string) (file_groups : list B) (fields : arrow_schema) (reader : Reader W B S).
Hypothesis parquet : parquet_resource fs st r source_bytes file_groups fields.

(** opened from the cursor after [n] row groups, a Parquet file gives the row
    groups that are left, no more and no fewer, with the indexes they have
    in the file; empty ones are skipped and do not shift the cursor. *)
Theorem cursors_give_the_rest n : (n ≤ length (filled file_groups))%nat →
  tells fs st (λ _ stream, serves fs st (filled file_groups) fields stream n)
    (if bool_decide (n = 0%nat) then open_parquet r else open_from_cursor r (cursor_of (filled file_groups) n)).
Proof.
  intros Hn. set (plain := {| reader_open := open_parquet; reader_open_from_cursor := Some open_from_cursor; reader_open_response := None;
    reader_open_bytes := None; reader_read_bytes := None; reader_send := None; reader_allow_private_http := false |} : Reader W B S).
  assert (Hreads : reads_row_groups plain r) by (split; [done|by intros f [= <-]]).
  pose proof (reader_sources fs st r source_bytes file_groups fields plain parquet Hreads) as Hsrc.
  case_bool_decide as E; [subst n; apply (so_open _ _ _ _ _ _ _ Hsrc)|by apply (so_cursor _ _ _ _ _ _ _ Hsrc)].
Qed.

Hypothesis dest : destination_laws fs st.
Hypothesis store : store_laws fs st.
Hypothesis identity_ok : canonical_identity r = Ok i.
Hypothesis row_groups : reads_row_groups reader r.

(** C31: a resume that finds a checkpoint with one of its shards missing raises
    and changes nothing: no artifact is published without that shard, and
    the checkpoint stays as it is, so every later resume raises as well. *)
Theorem missing_shard_stops_resume transport n k w : (n ≤ length (filled file_groups))%nat →
  saved_at u i (filled file_groups) source_bytes n (st w) → (k < n)%nat → fs w !! shard u i k = None →
  refuses fs st (sync_one reader u transport true r) w.
Proof.
  apply (missing_shard_refused fs st dest store r u i (filled file_groups) identity_ok sha_hex source_bytes fields reader).
  - by apply reader_sources.
  - exact (filled_ascending 0 file_groups).
Qed.
End resume.

(** ** Witnesses *)

#[local] Existing Instances lake_files lake_destination lake_codec lake_dates lake_query lake_literals lake_addresses lake_join lake_floats
  lake_resolver lake_sha lake_clock lake_text lake_bytes lake_store lake_source.

(** After a sync that was not interrupted *)
Definition lake_context : result (_SyncContext) * lake :=
  _load_sync_context lake_resource lake_identity "s3://lake" true (again 50 (lake_sync (lake_start 200)).2).

Lemma lake_identified : canonical_identity lake_resource = Ok lake_identity.
Proof. vm_compute. reflexivity. Qed.
Lemma skipped_is_present_witness :
  match lake_context with
  | (Ok context, w') => ∃ o a, ctx_outcome context = Some o ∧ so_action o = Resumed ∧ so_record o = Some a ∧ present l_files a w'
  | (Raise _, _) => False
  end.
Proof.
  assert (Hc : (λ c, so_action <$> ctx_outcome c) <$> lake_context.1 = Ok (Some Resumed)) by (vm_compute; reflexivity).
  destruct lake_context as [[context|e] w'] eqn:E; [|discriminate Hc]. cbn in Hc.
  pose proof (skipped_is_present l_files l_states lake_rows lake_destination_ok lake_codec_ok lake_clock_ok lake_resource lake_reader None
    lake_identity "s3://lake" lake_identity true _ context w' lake_identified E) as Hp.
  destruct (ctx_outcome context) as [o|]; [|discriminate Hc]. destruct Hp as (a & Ha & Hp). injection Hc as Hc.
  exists o, a. exact (conj eq_refl (conj Hc (conj Ha Hp))).
Defined.

(** A checkpoint after the first shard, which is gone *)
Definition lake_lost : lake := {| l_files := ∅; l_states := l_states lake_killed.2; l_steps := 200 |}.

Lemma missing_shard_stops_resume_witness :
  saved_at "s3://lake" lake_identity (filled lake_groups) "ab-c" 1 (l_states lake_lost) ∧
  refuses l_files l_states (sync_one lake_reader "s3://lake" None true lake_resource) lake_lost.
Proof.
  assert (Hs : saved_at "s3://lake" lake_identity (filled lake_groups) "ab-c" 1 (l_states lake_lost)).
  { exists (Some (sha256 "ab-c")). eexists. split; [right; reflexivity|]. split; vm_compute; reflexivity. }
  split; [exact Hs|].
  apply (missing_shard_stops_resume l_files l_states lake_sha_hex lake_resource "ab-c" "s3://lake" lake_identity lake_groups letter_fields
           lake_reader) with (n := 1%nat) (k := 0%nat); [exact lake_parquet_ok|exact lake_destination_ok|exact lake_store_ok|
    vm_compute; reflexivity|split; [reflexivity|by intros f [= <-]]|vm_compute; lia|exact Hs|lia|reflexivity].
Defined.

Lemma cursors_give_the_rest_witness :
  tells l_files l_states (λ _ stream, serves l_files l_states [(0, "ab"); (2, "c")] letter_fields stream 1)
    (open_from_cursor lake_resource {| next_batch_index := 1; row_group_index := 1 |}).
Proof.
  apply (cursors_give_the_rest l_files l_states lake_resource "ab-c" lake_groups letter_fields lake_parquet_ok 1). vm_compute. lia.
Defined.

Lemma sync_checkpoint_roundtrip_witness : ∃ s, _in_progress_state {| next_batch_index := 2; row_group_index := 5 |} (Some (sha256 "air")) "s3://lake" = Ok s ∧
  ∃ k, _decode_checkpoint s = Ok (Some k) ∧ cp_next_batch_index k = 2 ∧ cp_row_group_index k = 5 ∧ cp_source_version k = Some (sha256 "air").
Proof.
  destruct (_in_progress_state {| next_batch_index := 2; row_group_index := 5 |} (Some (sha256 "air")) "s3://lake") as [s|e] eqn:E.
  2:{ exfalso. assert (Hok : is_ok (_in_progress_state {| next_batch_index := 2; row_group_index := 5 |} (Some (sha256 "air")) "s3://lake") = true)
        by (vm_compute; reflexivity). rewrite E in Hok. discriminate Hok. }
  exists s. split; [reflexivity|].
  destruct (sync_checkpoint_roundtrip lake_sha_hex {| next_batch_index := 2; row_group_index := 5 |} (Some (sha256 "air")) "s3://lake" s) as (k & Hk & Hc & Hv & _);
    [discriminate|discriminate|intros v [= <-]; apply lake_sha_hex|exact E|]. exists k. split; [exact Hk|].
  unfold cursor_at in Hc. apply bind_ok in Hc as (p & Hp & Hc). unfold make_position in Hp. apply bind_ok in Hp as (? & _ & [= <-]).
  unfold make_cursor in Hc. apply bind_ok in Hc as (? & _ & [= -> ->]). done.
Defined.

(** A source that is another one as soon as there are files at the destination *)
Definition changing_bytes : SourceBytes lake := λ _, lake_tell (λ f, Ok (if bool_decide (f = ∅) then "ab-c" else "ab-c, and more")).
Definition first_context : _SyncContext := {|
  prior := None; prior_version := None; checkpoint := None; stable_source_version := Some (sha256 "ab-c"); prior_artifact := None;
  destination_was_healthy := false; watermark := None; checkpointed_kind := true; ctx_outcome := None
|}.
Definition lake_opened : result (BatchStream lake string arrow_schema * Z * sync_action) * lake :=
  open_for_sync lake_resource lake_reader first_context true (lake_start 200).
Definition lake_stream : BatchStream lake string arrow_schema :=
  match lake_opened.1 with
  | Ok o => o.1.1
  | Raise _ => {| source := PlainSource []; schema := []; start_batch_index := 0; start_row_group_index := 0; source_close := None; closeables := [] |}
  end.
Definition lake_run : result (Artifact * option string) * lake :=
  materialize_checkpointed lake_resource lake_stream "s3://lake" 0 (_persist_batch_state lake_identity (Some (sha256 "ab-c")) "s3://lake") None
    None None [] lake_opened.2.
Definition lake_after : lake := (_compute_source_version (SourceBytes0 := changing_bytes) lake_resource lake_run.2).2.

Lemma changing_quiet : quiet l_files l_states (_compute_source_version (SourceBytes0 := changing_bytes) lake_resource).
Proof.
  apply quiet_try; [|intros e k E; destruct (is_subclass _ _); [|done]; by injection E as <-].
  apply quiet_then; [done|]. intros _. apply quiet_then; [|done]. by apply quiet_act.
Qed.

Lemma lake_opens : lake_opened = (Ok (lake_stream, 0, Materialized), lake_opened.2).
Proof. vm_compute. reflexivity. Qed.
Lemma lake_runs : is_ok lake_run.1 = true.
Proof. vm_compute. reflexivity. Qed.
Lemma lake_changed :
  _compute_source_version (SourceBytes0 := changing_bytes) lake_resource lake_run.2 = (Ok (Some (sha256 "ab-c, and more")), lake_after).
Proof.
  assert (Hv : (_compute_source_version (SourceBytes0 := changing_bytes) lake_resource lake_run.2).1 = Ok (Some (sha256 "ab-c, and more")))
    by (vm_compute; reflexivity).
  rewrite <- Hv. apply surjective_pairing.
Qed.

Lemma changed_source_published_witness :
  ∃ e w' data, _materialize_resource (SourceBytes0 := changing_bytes) lake_resource lake_reader "s3://lake" lake_identity first_context true
    (lake_start 200) = (Raise e, w') ∧ (e = source_changed_error lake_resource ∨ is_Exception (exn_kind e) = false) ∧
    l_files w' !! final "s3://lake" lake_identity = Some data.
Proof.
  pose proof lake_opens as Hopen. pose proof lake_runs as Hrun. pose proof lake_changed as Hpost.
  destruct (changing_quiet lake_run.2) as [Hf _]. fold lake_after in Hf.
  destruct lake_run as [[[a box]|e] w2] eqn:E; [|discriminate Hrun]. cbn [fst snd] in *.
  destruct (changed_source_published (SourceBytes0 := changing_bytes) l_files l_states lake_destination_ok lake_clock_ok lake_sha_hex
    lake_resource lake_reader "s3://lake" lake_identity lake_identity first_context true lake_stream 0 Materialized a box
    (sha256 "ab-c, and more") (sha256 "ab-c") (lake_start 200) lake_opened.2 w2 lake_after) as (e & w' & data & He & Hk & Hd & _);
    [reflexivity|reflexivity|reflexivity|reflexivity|exact Hopen|exact E|exact Hpost|exact Hf|discriminate|].
  exists e, w', data. exact (conj He (conj Hk Hd)).
Defined.
