(* ===== verification/Bulk.v ===== *)
(** * Bounded, resumable bulk execution

    [runtime/bulk.py].  The executor runs items on a pool of workers, records
    what settles, persists a checkpoint after each item and yields receipts in
    order.  [BulkEnv] is what it runs on: the world the clock, the workers, the
    caller's sink and the consumer of the generator act on. *)
From stdpp Require Import gmap sorting numbers list_numbers pretty.
From S2P Require Import Prelude PyVal Regex Redaction Policies Errors Transport Resilience Json Ids Receipts.
Import Deadline.
From Stdlib Require Import QArith Lqa ZArith.
Local Close Scope Q_scope.
Local Open Scope Z_scope.
Local Open Scope py_scope.

(** ** Records *)

Record _ItemResult := { ir_receipt : MutationReceipt; ir_budget_error : option exn }.

Inductive stop_reason := Cancelled | BudgetStop.
#[global] Instance stop_reason_eq_dec : EqDecision stop_reason.
Proof. solve_decision. Defined.
Definition stop_name (r : stop_reason) : string :=
  match r with Cancelled => "cancelled" | BudgetStop => "budget_exhausted" end.

Record _BulkProgress := {
  completed : gmap Z BulkItemReceipt;
  pending : list Z;
  p_stop_reason : option stop_reason;
  p_budget_error : option exn;
  p_item_budget_error : option exn;
  dispatches : Z;
  next_emit : Z;
  last_persisted_count : Z;
  last_persisted_stop_reason : option stop_reason
}.

Record BulkSummary := {
  s_total : Z; s_succeeded : Z; s_failed : Z; s_skipped : Z; s_settled : Z; s_outstanding : Z;
  s_dispatches : Z; s_state : string; s_cancelled : bool; s_budget_exhausted : bool;
  s_elapsed_seconds : Q; s_budget_seconds : option Q; s_reason : option string; s_budget_error : option exn
}.

(** [BulkSummary.__post_init__] *)
Definition make_bulk_summary (total succeeded failed skipped : Z) (settled outstanding : option Z) (dispatched : Z)
    (state : string) (cancelled budget_exhausted : bool) (elapsed : Q) (budget : option Q)
    (reason : option string) (error : option exn) : result BulkSummary :=
  let '(settled, outstanding) :=
    match settled, outstanding with
    | None, None => let s := succeeded + failed + skipped in (s, total - s)
    | None, Some o => (total - o, o)
    | Some s, None => (s, total - s)
    | Some s, Some o => (s, o)
    end in
  raise_if ((settled <? 0) || (outstanding <? 0))
    (err ValueError "Bulk summary counts must be non-negative integers.");;
  Ok {| s_total := total; s_succeeded := succeeded; s_failed := failed; s_skipped := skipped;
        s_settled := settled; s_outstanding := outstanding; s_dispatches := dispatched;
        s_state := if cancelled && bool_decide (state = "completed") then "cancelled"
                   else if budget_exhausted && bool_decide (state = "completed") then "budget_exhausted"
                   else state;
        s_cancelled := cancelled; s_budget_exhausted := budget_exhausted; s_elapsed_seconds := elapsed;
        s_budget_seconds := budget; s_reason := reason; s_budget_error := error |}.

(** What the generator yields. *)
Inductive output := Receipt (r : BulkItemReceipt) | Summary (s : BulkSummary).

(** ** The environment *)

Class BulkEnv (W : Type) := {
  #[global] bulk_clock :: Clocked W;
  (** [cancel_event.is_set()] *)
  env_cancelled : W → bool * W;
  (** [wait(in_flight, FIRST_COMPLETED)]: the futures that are done. *)
  env_wait : list Z → W → result (list Z) * W;
  (** [wait(in_flight)]: every future is done. *)
  env_wait_all : list Z → W → result unit * W;
  (** Leaving the [with ThreadPoolExecutor] block waits for the workers. *)
  env_shutdown : W → result unit * W;
  (** [future.result()] of a done future, by the index of its item. *)
  env_result : Z → W → result _ItemResult * W;
  (** [checkpoint_sink(checkpoint)]: true when it returned an awaitable. *)
  env_sink : BulkCheckpoint → W → result bool * W;
  (** [yield]: the consumer may resume the generator or raise at it. *)
  env_yield : output → W → result unit * W
}.

(** What a run does that others can see. *)
Inductive bulk_event :=
| Submitted (index : Z)
| Settled (index : Z)
| Persisted (c : BulkCheckpoint)
| Yielded (o : output).

Record bulk (W : Type) := Bulk {
  b_world : W; b_progress : _BulkProgress; b_in_flight : list Z; b_log : list bulk_event
}.
Arguments Bulk {W}.
Arguments b_world {W}.
Arguments b_progress {W}.
Arguments b_in_flight {W}.
Arguments b_log {W}.

Section state.
Context {W : Type} `{!BulkEnv W}.
Abbreviation B := (M (bulk W)).

#[global] Instance bulk_clocked : Clocked (bulk W) := λ s,
  let '(t, w) := clock (b_world s) in (t, Bulk w (b_progress s) (b_in_flight s) (b_log s)).

Definition on_env {A} (m : W → result A * W) : B A := λ s,
  let '(r, w) := m (b_world s) in (r, Bulk w (b_progress s) (b_in_flight s) (b_log s)).
Definition note (e : bulk_event) : B unit := modify (λ s,
  Bulk (b_world s) (b_progress s) (b_in_flight s) (b_log s ++ [e])).
Definition set_progress (f : _BulkProgress → _BulkProgress) : B unit := modify (λ s,
  Bulk (b_world s) (f (b_progress s)) (b_in_flight s) (b_log s)).
Definition set_in_flight (f : list Z → list Z) : B unit := modify (λ s,
  Bulk (b_world s) (b_progress s) (f (b_in_flight s)) (b_log s)).
Definition progress : B _BulkProgress := read b_progress.
Definition in_flight : B (list Z) := read b_in_flight.
End state.

(** Field updates of [_BulkProgress]. *)
Definition set_stop (r : option stop_reason) (e : option exn) (p : _BulkProgress) : _BulkProgress :=
  {| completed := completed p; pending := pending p; p_stop_reason := r; p_budget_error := e;
     p_item_budget_error := p_item_budget_error p; dispatches := dispatches p; next_emit := next_emit p;
     last_persisted_count := last_persisted_count p; last_persisted_stop_reason := last_persisted_stop_reason p |}.
Definition set_pending (l : list Z) (p : _BulkProgress) : _BulkProgress :=
  {| completed := completed p; pending := l; p_stop_reason := p_stop_reason p; p_budget_error := p_budget_error p;
     p_item_budget_error := p_item_budget_error p; dispatches := dispatches p; next_emit := next_emit p;
     last_persisted_count := last_persisted_count p; last_persisted_stop_reason := last_persisted_stop_reason p |}.
Definition count_dispatch (p : _BulkProgress) : _BulkProgress :=
  {| completed := completed p; pending := pending p; p_stop_reason := p_stop_reason p;
     p_budget_error := p_budget_error p; p_item_budget_error := p_item_budget_error p;
     dispatches := dispatches p + 1; next_emit := next_emit p;
     last_persisted_count := last_persisted_count p; last_persisted_stop_reason := last_persisted_stop_reason p |}.
Definition set_emitted (n : Z) (p : _BulkProgress) : _BulkProgress :=
  {| completed := completed p; pending := pending p; p_stop_reason := p_stop_reason p;
     p_budget_error := p_budget_error p; p_item_budget_error := p_item_budget_error p;
     dispatches := dispatches p; next_emit := n;
     last_persisted_count := last_persisted_count p; last_persisted_stop_reason := last_persisted_stop_reason p |}.
Definition set_persisted (n : Z) (r : option stop_reason) (p : _BulkProgress) : _BulkProgress :=
  {| completed := completed p; pending := pending p; p_stop_reason := p_stop_reason p;
     p_budget_error := p_budget_error p; p_item_budget_error := p_item_budget_error p;
     dispatches := dispatches p; next_emit := next_emit p;
     last_persisted_count := n; last_persisted_stop_reason := r |}.
(** [progress.completed[index] = receipt], and the first item budget error. *)
Definition complete (i : Z) (r : BulkItemReceipt) (e : option exn) (p : _BulkProgress) : _BulkProgress :=
  {| completed := <[i := r]> (completed p); pending := pending p; p_stop_reason := p_stop_reason p;
     p_budget_error := p_budget_error p;
     p_item_budget_error := match p_item_budget_error p with Some x => Some x | None => e end;
     dispatches := dispatches p; next_emit := next_emit p;
     last_persisted_count := last_persisted_count p; last_persisted_stop_reason := last_persisted_stop_reason p |}.

(** ** Plans and policies *)

Definition _parallelism (policy : BulkExecutionPolicy) (platform_max_parallelism : Z) : result Z :=
  raise_if (negb ((1 <=? platform_max_parallelism) && (platform_max_parallelism <=? 32)))
    (err ValueError "Platform bulk parallelism must be between one and 32.");;
  Ok (Z.min (Z.min (max_parallelism policy) platform_max_parallelism) 32).

Definition _platform_for (plan : BulkPlan) : string :=
  match bp_items plan with i :: _ => platform_value (id_platform i) | [] => "runtime" end.

Definition _duplicate_name (i : CatalogId) : string :=
  platform_value (id_platform i) +:+ "/" +:+ kind_value (id_resource_kind i) +:+ "/" +:+ id_value i.

(** The items that occur earlier in the plan, in order. *)
Fixpoint duplicates (seen : list CatalogId) (items : list CatalogId) : list CatalogId :=
  match items with
  | [] => []
  | i :: items' => if bool_decide (i ∈ seen) then i :: duplicates seen items' else duplicates (i :: seen) items'
  end.

Definition plan_error (plan : BulkPlan) (message safe_action : string) : result exn :=
  catalog_error CatalogValidationError message (bp_operation plan) (_platform_for plan) None safe_action None.

(** [plan.items[i]] for the indices of a validated plan, which are not negative. *)
Definition item_at (plan : BulkPlan) (i : Z) : result CatalogId :=
  match bp_items plan !! Z.to_nat i with
  | Some x => Ok x
  | None => Raise (err OtherException "list index out of range")
  end.

#[global] Instance BulkPlan_eq_dec : EqDecision BulkPlan.
Proof. solve_decision. Defined.

Fixpoint validate_targets (plan : BulkPlan) (receipts : list BulkItemReceipt) : result unit :=
  match receipts with
  | [] => Ok tt
  | r :: receipts' =>
      item ← item_at plan (bir_index r);
      (if bool_decide (mr_target (bir_receipt r) = item) then Ok tt
       else raise_new (plan_error plan
         ("Bulk checkpoint receipt index " +:+ pretty (bir_index r) +:+ " does not match its catalog ID.")
         "Use a checkpoint whose receipt target matches the original plan item."));;
      validate_targets plan receipts'
  end.

Definition _validate_plan (plan : BulkPlan) (checkpoint : option BulkCheckpoint) : result unit :=
  (match duplicates [] (bp_items plan) with
   | [] => Ok tt
   | dups => raise_new (plan_error plan
       ("Bulk plan contains duplicate catalog IDs: " +:+ String.concat ", " (_duplicate_name <$> dups) +:+ ".")
       "Remove duplicate catalog IDs before dispatching the bulk plan.")
   end);;
  match checkpoint with
  | None => Ok tt
  | Some c =>
      (if bool_decide (bc_plan c = plan) then Ok tt
       else raise_new (plan_error plan "Bulk checkpoint does not belong to the supplied plan."
         "Resume only with a checkpoint created for this exact bulk plan."));;
      validate_targets plan (bc_item_receipts c)
  end.

Definition _failure_receipt (plan : BulkPlan) (item : CatalogId) (budget_exhausted : bool) : result MutationReceipt :=
  let metadata := [("bulk_failure", PyBool true)] in
  make_mutation_receipt (bp_operation plan) "failed" item None None "independent" "independent"
    (str_dict (if budget_exhausted then dict_set "budget_exhausted" (PyBool true) metadata else metadata)).

(** ** The executor *)

Record BulkExecutor := {
  be_policy : BulkExecutionPolicy; be_item_budget : option TimeBudget; be_whole_run_budget : option TimeBudget;
  be_checkpoint : option BulkCheckpoint; be_parallelism : Z
}.

Definition budget_eqb (a b : TimeBudget) : bool :=
  Qeq_bool (connect a) (connect b) && Qeq_bool (read_budget a) (read_budget b) &&
  Qeq_bool (write_budget a) (write_budget b) && Qeq_bool (total a) (total b).

Definition _validated_dependencies (policy : option BulkExecutionPolicy)
    (item_budget per_item_budget whole_run_budget : option TimeBudget)
  : result (BulkExecutionPolicy * option TimeBudget * option TimeBudget) :=
  raise_if (match item_budget, per_item_budget with Some a, Some b => negb (budget_eqb a b) | _, _ => false end)
    (err ValueError "Item budgets must agree when both budget names are supplied.");;
  let selected := match item_budget with Some b => Some b | None => per_item_budget end in
  p ← (match policy with
       | Some p => Ok p
       | None => make_bulk_policy "independent" false DEFAULT_BULK_MAX_PARALLELISM false true
       end);
  Ok (p, selected, whole_run_budget).

Definition make_bulk_executor (policy : option BulkExecutionPolicy) (checkpoint : option BulkCheckpoint)
    (platform_max_parallelism : Z) (item_budget per_item_budget whole_run_budget : option TimeBudget)
  : result BulkExecutor :=
  d ← _validated_dependencies policy item_budget per_item_budget whole_run_budget;
  let '(p, item, whole) := d in
  par ← _parallelism p platform_max_parallelism;
  Ok {| be_policy := p; be_item_budget := item; be_whole_run_budget := whole; be_checkpoint := checkpoint;
        be_parallelism := par |}.

Definition is_budget_exn (e : exn) : bool := is_subclass (exn_kind e) BudgetExhaustedError.

(** [monitor.assert_dispatchable(..)] with [except BudgetExhaustedError]. *)
Definition probe_budget {S} `{!Clocked S} (operation platform : option string) (m : DeadlineMonitor)
  : M S (option exn) :=
  try_except (assert_dispatchable operation platform m;; mret None)
    (λ e, if is_budget_exn e then Some (mret (Some e)) else None).

(** ** One item, on a worker *)
Section worker.
Context {W : Type} `{!Clocked W}.
Variables (self : BulkExecutor) (execute_item : CatalogId → M W (option MutationReceipt)).

Definition _item_monitor : M W (option DeadlineMonitor) :=
  match be_item_budget self with
  | None => mret None
  | Some b => m ← make_monitor b; mret (Some m)
  end.

Definition _preflight_item (plan : BulkPlan) (item : CatalogId) (monitor : option DeadlineMonitor)
  : M W (option _ItemResult) :=
  match monitor with
  | None => mret None
  | Some m =>
      exhausted ← probe_budget (Some (bp_operation plan)) (Some (_platform_for plan)) m;
      match exhausted with
      | None => mret None
      | Some e => r ← lift_res (_failure_receipt plan item true); mret (Some (Build__ItemResult r (Some e)))
      end
  end.

(** [None] stands for a value that is no [MutationReceipt]. *)
Definition _settle_item (plan : BulkPlan) (item : CatalogId) (receipt : option MutationReceipt)
    (monitor : option DeadlineMonitor) : M W _ItemResult :=
  match receipt with
  | None => r ← lift_res (_failure_receipt plan item false); mret (Build__ItemResult r None)
  | Some receipt =>
      match monitor with
      | None => mret (Build__ItemResult receipt None)
      | Some m =>
          exhausted ← probe_budget None None m;
          mret (Build__ItemResult receipt exhausted)
      end
  end.

(** The item's monitor keeps the identity the first check gave it. *)
Definition _execute_sync_item (plan : BulkPlan) (item : CatalogId) : M W _ItemResult :=
  monitor ← _item_monitor;
  exhausted ← _preflight_item plan item monitor;
  match exhausted with
  | Some r => mret r
  | None =>
      outcome ← try_except (receipt ← execute_item item; mret (inl receipt))
        (λ e, if is_Exception (exn_kind e) then Some (mret (inr e)) else None);
      match outcome with
      | inl receipt =>
          _settle_item plan item receipt
            (set_identity (Some (bp_operation plan)) (Some (_platform_for plan)) <$> monitor)
      | inr e =>
          r ← lift_res (_failure_receipt plan item (is_budget_exn e));
          mret (Build__ItemResult r (if is_budget_exn e then Some e else None))
      end
  end.
End worker.

(** ** The stream *)
Section stream.
Context {W : Type} `{!BulkEnv W}.
Abbreviation B := (M (bulk W)).
(** [is_async]: [AsyncBulkExecutor], which also settles cancelled tasks, drains
    when it is cancelled, and awaits what the sink returns. *)
Variables (is_async : bool) (self : BulkExecutor) (plan : BulkPlan).

Definition env_cancel_probe : B bool := on_env (λ w, let '(b, w) := env_cancelled w in (Ok b, w)).

Definition _cancel_requested : B bool :=
  if bep_cancellation_requested (be_policy self) then mret true else env_cancel_probe.

Definition _stop_state (monitor : option DeadlineMonitor) (check_budget : bool)
  : B (option stop_reason * option exn) :=
  cancelled ← _cancel_requested;
  if (cancelled : bool) then mret (Some Cancelled, None)
  else
    match monitor with
    | Some m =>
        if check_budget then
          exhausted ← probe_budget (Some (bp_operation plan)) (Some (_platform_for plan)) m;
          mret (match exhausted with Some e => (Some BudgetStop, Some e) | None => (None, None) end)
        else mret (None, None)
    | None => mret (None, None)
    end.

Definition has_pending (p : _BulkProgress) : bool := match pending p with [] => false | _ => true end.

(** What the checkpoint completed, and what is left of the plan. *)
Definition initial_done : gmap Z BulkItemReceipt :=
  match be_checkpoint self with
  | Some c => list_to_map ((λ r, (bir_index r, r)) <$> bc_item_receipts c)
  | None => ∅
  end.
Definition initial_pending : list Z :=
  filter (λ i, initial_done !! i = None) (seqZ 0 (Z.of_nat (length (bp_items plan)))).

(** [_bulk_progress] *)
Definition _bulk_progress (monitor : option DeadlineMonitor) : B unit :=
  '(stop, error) ← _stop_state monitor (match initial_pending with [] => false | _ => true end);
  set_progress (λ _, {|
    completed := initial_done; pending := initial_pending; p_stop_reason := stop; p_budget_error := error;
    p_item_budget_error := None; dispatches := 0; next_emit := 0; last_persisted_count := -1;
    last_persisted_stop_reason := None |}).

Definition _refresh_stop_state (monitor : option DeadlineMonitor) (check_budget : bool) : B unit :=
  p ← progress;
  match p_stop_reason p with
  | Some _ => mret tt
  | None =>
      '(stop, error) ← _stop_state monitor check_budget;
      set_progress (set_stop stop error)
  end.

Definition _run_monitor : B (option DeadlineMonitor) :=
  match be_whole_run_budget self with
  | None => mret None
  | Some b => m ← make_monitor b; mret (Some m)
  end.

Definition _next_dispatchable (monitor : option DeadlineMonitor) : B (option Z) :=
  p ← progress;
  fl ← in_flight;
  if negb (has_pending p) || (be_parallelism self <=? Z.of_nat (length fl)) ||
     bool_decide (is_Some (p_stop_reason p))
  then mret None
  else
    '(stop, error) ← _stop_state monitor true;
    set_progress (set_stop stop error);;
    match stop, pending p with
    | None, i :: rest => set_progress (set_pending rest);; mret (Some i)
    | _, _ => mret None
    end.

(** The dispatch loop takes one pending item per round. *)
Fixpoint dispatch_loop (fuel : nat) (monitor : option DeadlineMonitor) : B unit :=
  match fuel with
  | O => mret tt
  | S fuel' =>
      index ← _next_dispatchable monitor;
      match index with
      | None => mret tt
      | Some i =>
          lift_res (item_at plan i);;
          note (Submitted i);;
          set_in_flight (λ fl, fl ++ [i]);;
          set_progress count_dispatch;;
          dispatch_loop fuel' monitor
      end
  end.
Definition _dispatch_available (monitor : option DeadlineMonitor) : B unit :=
  p ← progress;
  dispatch_loop (S (length (pending p))) monitor.

Definition _build_checkpoint (done : gmap Z BulkItemReceipt) (cancellation_requested : bool)
  : result (option BulkCheckpoint) :=
  if negb (checkpoint_required (be_policy self)) then Ok None
  else
    let cursor := match be_checkpoint self with
                  | Some c => bc_resumption_cursor c
                  | None => bp_resumption_cursor plan
                  end in
    let indices := merge_sort Z.le (map_to_list done).*1 in
    c ← make_checkpoint plan (omap (λ i, done !! i) indices) cancellation_requested cursor;
    Ok (Some c).

Definition _persist (done : gmap Z BulkItemReceipt) (cancellation_requested : bool) : B unit :=
  checkpoint ← lift_res (_build_checkpoint done cancellation_requested);
  match checkpoint with
  | None => mret tt
  | Some c =>
      note (Persisted c);;
      awaitable ← on_env (env_sink c);
      if awaitable && negb is_async
      then throw (err TypeError "Async checkpoint sinks require AsyncBulkExecutor.")
      else mret tt
  end.

(** [future.result()] with its [except] clauses. *)
Definition settles_as_failure (e : exn) : bool :=
  is_Exception (exn_kind e) || (is_async && bool_decide (exn_kind e = CancelledError)).
Definition _task_result (i : Z) : B _ItemResult :=
  try_except (on_env (env_result i))
    (λ e, if settles_as_failure e
          then Some (item ← lift_res (item_at plan i);
                     r ← lift_res (_failure_receipt plan item false);
                     mret (Build__ItemResult r None))
          else None).

Definition _record_completed (monitor : option DeadlineMonitor) (i : Z) (result : _ItemResult) : B unit :=
  r ← lift_res (make_item_receipt i (ir_receipt result));
  set_progress (complete i r (ir_budget_error result));;
  p ← progress;
  _refresh_stop_state monitor (has_pending p).

Definition is_cancelled (p : _BulkProgress) : bool := bool_decide (p_stop_reason p = Some Cancelled).
Definition count_completed (p : _BulkProgress) : Z := Z.of_nat (size (completed p)).

Definition _record_result (monitor : option DeadlineMonitor) (i : Z) : B unit :=
  result ← _task_result i;
  _record_completed monitor i result;;
  p ← progress;
  _persist (completed p) (is_cancelled p);;
  p ← progress;
  set_progress (set_persisted (count_completed p) (p_stop_reason p)).

(** [progress.ordered_receipts()]: at most one round per completed item. *)
Fixpoint ready_receipts (fuel : nat) (done : gmap Z BulkItemReceipt) (i : Z) : list BulkItemReceipt :=
  match fuel with
  | O => []
  | S fuel' => match done !! i with Some r => r :: ready_receipts fuel' done (i + 1) | None => [] end
  end.
Definition ordered_receipts : B (list BulkItemReceipt) :=
  p ← progress;
  let rs := ready_receipts (size (completed p)) (completed p) (next_emit p) in
  set_progress (set_emitted (next_emit p + Z.of_nat (length rs)));;
  mret rs.

Definition yield_output (o : output) : B unit := note (Yielded o);; on_env (env_yield o).
Fixpoint yield_receipts (rs : list BulkItemReceipt) : B unit :=
  match rs with
  | [] => mret tt
  | r :: rs' => yield_output (Receipt r);; yield_receipts rs'
  end.
(** [yield from progress.ordered_receipts()] *)
Definition emit_ordered : B unit := rs ← ordered_receipts; yield_receipts rs.

(** [in_flight.pop(future)] *)
Definition pop_in_flight (i : Z) : B unit :=
  fl ← in_flight;
  if bool_decide (i ∈ fl) then note (Settled i);; set_in_flight (filter (λ j, j ≠ i))
  else throw (err KeyError "").

Fixpoint settle_done (monitor : option DeadlineMonitor) (done : list Z) : B unit :=
  match done with
  | [] => mret tt
  | i :: done' =>
      pop_in_flight i;;
      _record_result monitor i;;
      emit_ordered;;
      settle_done monitor done'
  end.

Definition no_items (l : list Z) : bool := match l with [] => true | _ => false end.

(** The main loop; [false] when the fuel runs out. *)
Fixpoint consume (fuel : nat) (monitor : option DeadlineMonitor) : B bool :=
  match fuel with
  | O => mret false
  | S fuel' =>
      p ← progress;
      fl ← in_flight;
      if negb (has_pending p) && no_items fl then mret true
      else
        _dispatch_available monitor;;
        fl ← in_flight;
        if no_items fl then mret true
        else
          done ← on_env (env_wait fl);
          settle_done monitor done;;
          consume fuel' monitor
  end.

(** [_drain_sync] and [_drain_in_flight]: record what every worker left.  The
    asynchronous one awaits the tasks one by one, keeps the budget error to
    itself and clears [in_flight] at the end, here item by item. *)
Fixpoint drain_each (l : list Z) : B unit :=
  match l with
  | [] => mret tt
  | i :: l' =>
      (if is_async then on_env (env_wait_all [i]) else mret tt);;
      pop_in_flight i;;
      result ← _task_result i;
      r ← lift_res (make_item_receipt i (ir_receipt result));
      set_progress (complete i r (if is_async then None else ir_budget_error result));;
      drain_each l'
  end.
Definition _drain : B unit :=
  fl ← in_flight;
  (if is_async then mret tt else on_env (env_wait_all fl));;
  drain_each fl;;
  p ← progress;
  _persist (completed p) true.

Definition interrupts (e : exn) : bool :=
  bool_decide (exn_kind e = GeneratorExit) || (is_async && bool_decide (exn_kind e = CancelledError)).

(** The loop, and the drain when the consumer leaves; the synchronous executor
    then leaves the [with] block of its thread pool. *)
Definition run_workers (fuel : nat) (monitor : option DeadlineMonitor) : B bool :=
  let body := try_except (consume fuel monitor)
                (λ e, if interrupts e then Some (_drain;; throw e) else None) in
  if is_async then body else try_finally body (on_env env_shutdown).

Definition _finish_stop_state (monitor : option DeadlineMonitor) : B bool :=
  _refresh_stop_state monitor false;;
  p ← progress;
  mret (bool_decide (is_Some (p_stop_reason p)) &&
        (negb (last_persisted_count p =? count_completed p) ||
         negb (bool_decide (last_persisted_stop_reason p = p_stop_reason p)))).
Definition _finish_progress (monitor : option DeadlineMonitor) : B unit :=
  stopped ← _finish_stop_state monitor;
  if (stopped : bool) then p ← progress; _persist (completed p) (is_cancelled p) else mret tt.

Definition count_outcome (name : string) (done : gmap Z BulkItemReceipt) : Z :=
  Z.of_nat (length (filter (λ kv : Z * BulkItemReceipt, mr_outcome (bir_receipt kv.2) = name) (map_to_list done))).

Definition _terminal_summary (monitor : option DeadlineMonitor) (started_at : Q) : B BulkSummary :=
  p ← progress;
  let settled := count_completed p in
  let n := Z.of_nat (length (bp_items plan)) in
  let terminal := match p_budget_error p with Some e => Some e | None => p_item_budget_error p end in
  '(elapsed, budget) ← (match terminal, monitor with
    | Some e, _ => mret (match exn_info e with Some i => ci_elapsed i | None => 0%Q end, ci_budget <$> exn_info e)
    | None, Some m => left ← remaining m; mret (qmax 0%Q (total (dm_budget m) - left)%Q, Some (total (dm_budget m)))
    | None, None => now ← clock_now; mret (qmax 0%Q (now - started_at)%Q, None)
    end);
  let exhausted := bool_decide (p_stop_reason p = Some BudgetStop) || bool_decide (is_Some (p_item_budget_error p)) in
  let state := match p_stop_reason p with
               | Some r => stop_name r
               | None => if exhausted then "budget_exhausted" else "completed"
               end in
  let reason := if is_cancelled p then Some "Bulk execution was cancelled after in-flight items settled."
                else exn_msg <$> terminal in
  lift_res (make_bulk_summary n (count_outcome "succeeded" (completed p)) (count_outcome "failed" (completed p))
    (count_outcome "skipped" (completed p)) (Some settled) (Some (n - settled)) (dispatches p) state
    (is_cancelled p) exhausted elapsed budget reason terminal).

(** Enough rounds for [consume]: each settles at least one item. *)
Definition rounds : nat := S (length (bp_items plan)).

Definition stream : B unit :=
  lift_res (_validate_plan plan (be_checkpoint self));;
  started_at ← clock_now;
  monitor ← _run_monitor;
  _bulk_progress monitor;;
  set_in_flight (λ _, []);;
  emit_ordered;;
  run_workers rounds monitor;;
  _finish_progress monitor;;
  emit_ordered;;
  summary ← _terminal_summary monitor started_at;
  yield_output (Summary summary).

(** [execute] *)
Definition bulk_execute : B unit := stream.
End stream.

(** ** The asynchronous executor

    [AsyncBulkExecutor] has the same methods; these are its instances. *)
Section asynchronous.
Context {W : Type} `{!BulkEnv W}.

Definition _execute_async_item := _execute_sync_item (W := W).
Definition async_dispatch_available := _dispatch_available (W := W).
Definition async_record_result := _record_result (W := W) true.
Definition _consume_pending := consume (W := W) true.
Definition _settled_task (plan : BulkPlan) (i : Z) : M (bulk W) _ItemResult :=
  on_env (env_wait_all [i]);; _task_result true plan i.
Definition _drain_in_flight := drain_each (W := W) true.
Definition _persist_final_checkpoint (self : BulkExecutor) (plan : BulkPlan) : M (bulk W) unit :=
  p ← progress; _persist true self plan (completed p) true.
Definition _finalize_cancelled_stream := _drain (W := W) true.
Definition async_finish_progress := _finish_progress (W := W) true.
Definition async_persist := _persist (W := W) true.
Definition async_stream := stream (W := W) true.
Definition async_execute := bulk_execute (W := W) true.
End asynchronous.
