(* ===== verification/BulkProofs.v ===== *)
(** * Correctness of bulk execution

    The invariant of the stream of [Bulk], as triples over the progress, the
    items in flight and the log of what the run did; the environment (clock,
    workers, sink, consumer) may do anything in between. *)
From stdpp Require Import gmap sorting numbers list_numbers pretty.
From S2P Require Import Prelude PyVal Redaction Policies Errors Transport Resilience Json Ids Receipts Bulk.
Import Deadline.
From Stdlib Require Import QArith Lqa ZArith.
Local Close Scope Q_scope.
Local Open Scope Z_scope.

(** ** Reading a log *)

Definition submitted (l : list bulk_event) : list Z := omap (λ e, match e with Submitted i => Some i | _ => None end) l.
Definition settled (l : list bulk_event) : list Z := omap (λ e, match e with Settled i => Some i | _ => None end) l.
Definition persisted (l : list bulk_event) : list BulkCheckpoint :=
  omap (λ e, match e with Persisted c => Some c | _ => None end) l.
Definition emitted (l : list bulk_event) : list BulkItemReceipt :=
  omap (λ e, match e with Yielded (Receipt r) => Some r | _ => None end) l.

(** At no time more than [par] items are in flight. *)
Fixpoint bounded (par running : Z) (l : list bulk_event) : Prop :=
  match l with
  | [] => True
  | Submitted _ :: l' => running + 1 <= par ∧ bounded par (running + 1) l'
  | Settled _ :: l' => bounded par (running - 1) l'
  | _ :: l' => bounded par running l'
  end.

(** Nothing is submitted after a checkpoint that says the run was cancelled. *)
Fixpoint calm (cancelled : bool) (l : list bulk_event) : Prop :=
  match l with
  | [] => True
  | Submitted _ :: l' => cancelled = false ∧ calm cancelled l'
  | Persisted c :: l' => calm (cancelled || bc_cancellation_requested c) l'
  | _ :: l' => calm cancelled l'
  end.
Definition cancel_seen (l : list bulk_event) : bool := existsb bc_cancellation_requested (persisted l).

Definition net (l : list bulk_event) : Z := Z.of_nat (length (submitted l)) - Z.of_nat (length (settled l)).

Lemma net_cons e l :
  net (e :: l) = net l + match e with Submitted _ => 1 | Settled _ => -1 | _ => 0 end.
Proof. unfold net, submitted, settled. destruct e; cbn; lia. Qed.

Lemma bounded_app par r l l' : bounded par r (l ++ l') ↔ bounded par r l ∧ bounded par (r + net l) l'.
Proof.
  revert r. induction l as [|e l IH]; intros r.
  - replace (r + net []) with r by (unfold net; cbn; lia). cbn. tauto.
  - rewrite net_cons. destruct e; cbn [app bounded]; rewrite IH.
    + replace (r + (net l + 1)) with (r + 1 + net l) by lia. tauto.
    + replace (r + (net l + -1)) with (r - 1 + net l) by lia. done.
    + by replace (r + (net l + 0)) with (r + net l) by lia.
    + by replace (r + (net l + 0)) with (r + net l) by lia.
Qed.

Lemma calm_app b l l' : calm b (l ++ l') ↔ calm b l ∧ calm (b || cancel_seen l) l'.
Proof.
  revert b. unfold cancel_seen, persisted. induction l as [|e l IH]; intros b; cbn; [by rewrite orb_false_r; naive_solver|].
  destruct e; cbn; rewrite ?IH, ?orb_assoc; tauto.
Qed.

(** ** Triples over the state without the world *)

Definition st {W} (I : _BulkProgress → list Z → list bulk_event → Prop) (s : bulk W) : Prop :=
  I (b_progress s) (b_in_flight s) (b_log s).

Section rules.
Context {W : Type} `{!BulkEnv W}.
Implicit Types I J : _BulkProgress → list Z → list bulk_event → Prop.

Lemma keeps_triple {A} I (m : M (bulk W) A) E :
  preserves (st I) m → (∀ e s, st I s → E e s) → hoare (st I) m (λ _, st I) E.
Proof. intros H HE. eapply hoare_conseq; [by apply preserves_hoare|done..|]. cbn. intros e s. apply HE. Qed.

Lemma env_keeps {A} I (m : W → result A * W) : preserves (st I) (on_env m).
Proof. intros s Hs. unfold on_env. by destruct (m (b_world s)). Qed.

Lemma clock_keeps I (s : bulk W) : st I s → st I (clock s).2.
Proof. intros Hs. unfold clock, bulk_clocked. by destruct (clock (b_world s)). Qed.

Lemma probe_keeps I op pl m : preserves (st I) (probe_budget (S := bulk W) op pl m).
Proof.
  unfold probe_budget. apply preserves_try.
  - apply preserves_bind; [|intros; apply preserves_ret]. apply assert_dispatchable_keeps, clock_keeps.
  - intros e k. case_match; [|done]. intros [= <-]. apply preserves_ret.
Qed.

Lemma monitor_keeps I b : preserves (st I) (make_monitor (S := bulk W) b).
Proof.
  unfold make_monitor. apply preserves_bind; [apply clock_now_keeps, clock_keeps|intros; apply preserves_ret].
Qed.

Lemma stop_state_keeps I self plan monitor check : preserves (st I) (_stop_state self plan monitor check).
Proof.
  unfold _stop_state, _cancel_requested. apply preserves_bind.
  - case_match; [apply preserves_ret|apply env_keeps].
  - intros []; [apply preserves_ret|]. destruct monitor; [|apply preserves_ret].
    case_match; [|apply preserves_ret]. apply preserves_bind; [apply probe_keeps|intros; apply preserves_ret].
Qed.

(** [quiet m]: [m] never raises. *)
Definition quiet {A} (m : M (bulk W) A) : Prop := ∀ s, is_ok (m s).1 = true.

Lemma quiet_ret {A} (a : A) : quiet (mret a).
Proof. by intros s. Qed.
Lemma quiet_bind {A B} (m : M (bulk W) A) (k : A → M (bulk W) B) : quiet m → (∀ a, quiet (k a)) → quiet (m ≫= k).
Proof.
  intros Hm Hk s. unfold mbind, M_bind. specialize (Hm s). destruct (m s) as [[a|e] s']; [apply Hk|done].
Qed.
Lemma quiet_clock : quiet (clock_now (S := bulk W)).
Proof. intros s. unfold clock_now. by destruct (clock s). Qed.
Lemma quiet_env {A} (m : W → result A * W) : (∀ w, is_ok (m w).1 = true) → quiet (on_env m).
Proof. intros H s. unfold on_env. specialize (H (b_world s)). by destruct (m (b_world s)). Qed.

Lemma quiet_triple {A} I (m : M (bulk W) A) E : quiet m → preserves (st I) m → hoare (st I) m (λ _, st I) E.
Proof.
  intros Hq Hp s Hs. specialize (Hq s). specialize (Hp s Hs). by destruct (m s) as [[]].
Qed.

(** An exhausted budget is caught. *)
Lemma quiet_probe op pl m : budget_wf (dm_budget m) → quiet (probe_budget op pl m).
Proof.
  intros Hb s. unfold probe_budget, try_except, assert_dispatchable, remaining, mbind, M_bind, clock_now.
  destruct (clock s) as [t s']. unfold mret, M_ret. destruct (Qle_bool _ _); [|done].
  match goal with |- context [@_raise_exhausted _ _ ?A ?m ?st ?s'] =>
    edestruct (@raise_exhausted_budget _ A _ m st s') as (e & He & Hk); [done|] end.
  rewrite He. unfold is_budget_exn. by rewrite Hk.
Qed.

Lemma quiet_stop_state self plan monitor check :
  (∀ m, monitor = Some m → budget_wf (dm_budget m)) → quiet (_stop_state self plan monitor check).
Proof.
  intros Hm. unfold _stop_state. apply quiet_bind.
  - unfold _cancel_requested, env_cancel_probe. case_match; [apply quiet_ret|].
    apply quiet_env. intros w. by destruct (env_cancelled w).
  - intros []; [apply quiet_ret|]. destruct monitor; [|apply quiet_ret].
    case_match; [|apply quiet_ret]. apply quiet_bind; [by apply quiet_probe, Hm|intros; apply quiet_ret].
Qed.

Lemma note_triple I J e E :
  (∀ p fl l, I p fl l → J p fl (l ++ [e])) → hoare (st I) (@note W e) (λ _, st J) E.
Proof. intros H. apply hoare_modify. intros s. apply H. Qed.
Lemma progress_triple I J f E :
  (∀ p fl l, I p fl l → J (f p) fl l) → hoare (st I) (@set_progress W f) (λ _, st J) E.
Proof. intros H. apply hoare_modify. intros s. apply H. Qed.
Lemma in_flight_triple I J f E :
  (∀ p fl l, I p fl l → J p (f fl) l) → hoare (st I) (@set_in_flight W f) (λ _, st J) E.
Proof. intros H. apply hoare_modify. intros s. apply H. Qed.

(** Reading the progress (or the items in flight) fixes it. *)
Lemma read_progress_triple {B} I (k : _BulkProgress → M (bulk W) B) Q E :
  (∀ p, hoare (st (λ p' fl l, p' = p ∧ I p fl l)) (k p) Q E) → hoare (st I) (progress ≫= k) Q E.
Proof.
  intros H. eapply hoare_bind with (R := λ p, st (λ p' fl l, p' = p ∧ I p fl l)); [|exact H].
  apply hoare_read. by intros s Hs.
Qed.
Lemma read_in_flight_triple {B} I (k : list Z → M (bulk W) B) Q E :
  (∀ fl, hoare (st (λ p fl' l, fl' = fl ∧ I p fl l)) (k fl) Q E) → hoare (st I) (in_flight ≫= k) Q E.
Proof.
  intros H. eapply hoare_bind with (R := λ fl, st (λ p fl' l, fl' = fl ∧ I p fl l)); [|exact H].
  apply hoare_read. by intros s Hs.
Qed.
End rules.

(** ** A well-behaved run

    Nothing but [Exception]s in the workers is raised at it, the sink returns
    what its executor takes, [wait] returns futures it was given, and the plan
    and the budget of the run are ones their constructors build. *)
Record well_behaved {W : Type} `{!BulkEnv W} (is_async : bool) (plan : BulkPlan) (budget : option TimeBudget) : Prop := {
  wb_yield o (w : W) : is_ok (env_yield o w).1 = true;
  wb_sink c (w : W) : ∃ b, (env_sink c w).1 = Ok b ∧ (b = true → is_async = true);
  wb_wait fl (w : W) : fl ≠ [] → ∃ ds, (env_wait fl w).1 = Ok ds ∧ NoDup ds ∧ ∀ i, i ∈ ds → i ∈ fl;
  wb_shutdown (w : W) : is_ok (env_shutdown w).1 = true;
  wb_result i (w : W) e : (env_result i w).1 = Raise e → settles_as_failure is_async e = true;
  wb_operation : bp_operation plan ≠ "";
  wb_budget b : budget = Some b → budget_wf b
}.
Arguments well_behaved W {BulkEnv0}.

Lemma failure_receipt_total plan item b :
  bp_operation plan ≠ "" →
  ∃ d, _failure_receipt plan item b =
    Ok {| mr_operation := bp_operation plan; mr_outcome := "failed"; mr_target := item; mr_version_token := None;
          mr_request_id := None; mr_atomicity := "independent"; mr_operation_atomicity := "independent";
          mr_audit_metadata := d |}.
Proof.
  intros Hop. unfold _failure_receipt.
  destruct b; eexists; (apply make_receipt_total; [done| | | |done|vm_compute; reflexivity]);
    apply (bool_decide_unpack _); reflexivity.
Qed.

(** ** The invariant *)
Section invariant.
Context {W : Type} `{!BulkEnv W}.
Variables (is_async : bool) (self : BulkExecutor) (plan : BulkPlan) (monitor : option DeadlineMonitor).
(** What every recorded receipt satisfies, by the index of its item. *)
Variable good : Z → MutationReceipt → Prop.

Abbreviation n := (Z.of_nat (length (bp_items plan))).
Abbreviation par := (be_parallelism self).
Abbreviation done0 := (initial_done self).

(** A persisted checkpoint: it is one of the plan, in order, and its receipts
    are those the run has recorded. *)
Record ck_ok (done : gmap Z BulkItemReceipt) (c : BulkCheckpoint) : Prop := {
  ck_plan : bc_plan c = plan;
  ck_sorted : StronglySorted Z.lt (bir_index <$> bc_item_receipts c);
  ck_range : Forall (λ r, 0 <= bir_index r < n) (bc_item_receipts c);
  ck_done : Forall (λ r, done !! bir_index r = Some r) (bc_item_receipts c)
}.

(** [core limbo]: the items in [limbo] have left the pool and are not yet
    recorded. *)
Record core (limbo : list Z) (p : _BulkProgress) (fl : list Z) (l : list bulk_event) : Prop := {
  c_range i : 0 <= i < n ↔ i ∈ pending p ∨ i ∈ fl ∨ i ∈ limbo ∨ is_Some (completed p !! i);
  c_fresh i : i ∈ pending p ∨ i ∈ fl ∨ i ∈ limbo → completed p !! i = None;
  c_apart i : i ∈ fl → i ∉ limbo;
  c_nodup : NoDup fl;
  c_order : StronglySorted Z.lt (submitted l ++ pending p);
  c_submitted : submitted l ≡ₚ fl ++ settled l;
  c_new i : i ∈ submitted l ++ pending p → done0 !! i = None;
  c_index i r : completed p !! i = Some r → bir_index r = i ∧ good i (bir_receipt r);
  c_init : done0 ⊆ completed p;
  c_settled i : is_Some (completed p !! i) → is_Some (done0 !! i) ∨ i ∈ settled l;
  c_recorded i : i ∈ settled l → i ∈ limbo ∨ is_Some (completed p !! i);
  c_count : dispatches p = Z.of_nat (length (submitted l));
  c_par : Z.of_nat (length fl) <= par;
  c_bounded : bounded par 0 l;
  c_calm : calm false l;
  c_persisted : Forall (ck_ok (completed p)) (persisted l)
}.

Definition receipts_upto (p : _BulkProgress) : list BulkItemReceipt :=
  omap (λ i, completed p !! i) (seqZ 0 (next_emit p)).

(** Every receipt up to [next_emit] is recorded, and the consumer has had them
    but for [rest]. *)
Definition emits (rest : list BulkItemReceipt) (p : _BulkProgress) (l : list bulk_event) : Prop :=
  0 <= next_emit p ∧ (∀ i, 0 <= i < next_emit p → is_Some (completed p !! i)) ∧
  receipts_upto p = emitted l ++ rest.

Definition stopped_after_cancel (p : _BulkProgress) (l : list bulk_event) : Prop :=
  cancel_seen l = true → is_Some (p_stop_reason p).

Definition inv (limbo : list Z) (rest : list BulkItemReceipt) (p : _BulkProgress) (fl : list Z)
    (l : list bulk_event) : Prop :=
  core limbo p fl l ∧ emits rest p l ∧ stopped_after_cancel p l.

(** What remains true when the stream raises. *)
Definition bad (p : _BulkProgress) (fl : list Z) (l : list bulk_event) : Prop :=
  (∃ limbo, core limbo p fl l) ∧ ∃ rest, emits rest p l.

Lemma inv_bad limbo rest p fl l : inv limbo rest p fl l → bad p fl l.
Proof. intros (? & ? & _). split; eauto. Qed.

(** *** Steps *)

Lemma submitted_app l l' : submitted (l ++ l') = submitted l ++ submitted l'.
Proof. apply omap_app. Qed.
Lemma settled_app l l' : settled (l ++ l') = settled l ++ settled l'.
Proof. apply omap_app. Qed.
Lemma persisted_app l l' : persisted (l ++ l') = persisted l ++ persisted l'.
Proof. apply omap_app. Qed.
Lemma emitted_app l l' : emitted (l ++ l') = emitted l ++ emitted l'.
Proof. apply omap_app. Qed.

Lemma core_net limbo p fl l : core limbo p fl l → net l = Z.of_nat (length fl).
Proof. intros H. unfold net. rewrite (c_submitted _ _ _ _ H), length_app. lia. Qed.

(** The fields of the progress the core does not look at. *)
Lemma core_ext limbo p p' fl l :
  completed p' = completed p → pending p' = pending p → dispatches p' = dispatches p →
  core limbo p fl l → core limbo p' fl l.
Proof. intros Hc Hp Hd []. split; rewrite ?Hc, ?Hp, ?Hd; auto. Qed.

Lemma core_quiet limbo p fl l e :
  match e with Yielded _ => True | _ => False end → core limbo p fl l → core limbo p fl (l ++ [e]).
Proof.
  intros He []. destruct e; try done.
  split; rewrite ?submitted_app, ?settled_app, ?persisted_app; cbn; rewrite ?app_nil_r; auto.
  - by apply bounded_app.
  - by apply calm_app.
Qed.

Lemma core_persist limbo p fl l c :
  ck_ok (completed p) c → core limbo p fl l → core limbo p fl (l ++ [Persisted c]).
Proof.
  intros Hc []. split; rewrite ?submitted_app, ?settled_app, ?persisted_app; cbn; rewrite ?app_nil_r; auto.
  - by apply bounded_app.
  - by apply calm_app.
  - apply Forall_app. split; [done|by constructor].
Qed.

Lemma core_submit p fl l i rest :
  core [] p fl l → pending p = i :: rest → Z.of_nat (length fl) < par → cancel_seen l = false →
  core [] (count_dispatch (set_pending rest p)) (fl ++ [i]) (l ++ [Submitted i]).
Proof.
  intros H Hp Hpar Hcs. pose proof (core_net _ _ _ _ H) as Hnet. destruct H as [].
  rewrite Hp in *.
  assert (Hsort : StronglySorted Z.lt (i :: rest)).
  { clear -c_order0. induction (submitted l); [done|]. inversion c_order0; auto. }
  assert (Hni : i ∉ rest ∧ i ∉ fl).
  { split.
    - inversion_clear Hsort as [|? ? _ Hlt]. intros Hin. rewrite Forall_forall in Hlt. specialize (Hlt i Hin). lia.
    - intros Hin. assert (Hsub : i ∈ submitted l) by (rewrite c_submitted0; set_solver).
      apply list_elem_of_split in Hsub as (l1 & l2 & E). rewrite E in c_order0.
      clear -c_order0. rewrite <- app_assoc in c_order0. cbn in c_order0.
      induction l1; cbn in c_order0; inversion_clear c_order0 as [|? ? Hs Hlt]; [|auto].
      rewrite Forall_forall in Hlt. specialize (Hlt i ltac:(set_solver)). lia. }
  destruct Hni as [Hr Hf].
  split; cbn [completed pending dispatches count_dispatch set_pending];
    rewrite ?submitted_app, ?settled_app, ?persisted_app; cbn; rewrite ?app_nil_r; auto.
  - intros j. rewrite c_range0, elem_of_app, list_elem_of_singleton, elem_of_cons. tauto.
  - intros j. rewrite elem_of_app, list_elem_of_singleton. intros Hj. apply c_fresh0. rewrite elem_of_cons. tauto.
  - intros j Hj. apply not_elem_of_nil.
  - apply NoDup_app. split_and!; [done|set_solver|apply NoDup_singleton].
  - by rewrite <- app_assoc.
  - rewrite c_submitted0. solve_Permutation.
  - intros j. rewrite <- app_assoc. apply c_new0.
  - rewrite length_app. cbn. lia.
  - rewrite length_app. cbn. lia.
  - apply bounded_app. split; [done|]. cbn. split; [lia|done].
  - apply calm_app. split; [done|]. by rewrite Hcs.
Qed.

Lemma core_pop limbo p fl l i :
  core limbo p fl l → i ∈ fl → i ∉ limbo ∧ core (i :: limbo) p (filter (λ j, j ≠ i) fl) (l ++ [Settled i]).
Proof.
  intros H Hi. pose proof (core_net _ _ _ _ H) as Hnet. destruct H as [].
  assert (Hperm : fl ≡ₚ i :: filter (λ j, j ≠ i) fl).
  { apply NoDup_Permutation; [done| |].
    - constructor; [rewrite list_elem_of_filter; naive_solver|by apply NoDup_filter].
    - intros j. rewrite elem_of_cons, list_elem_of_filter. destruct (decide (j = i)); naive_solver. }
  split; [auto|].
  split; rewrite ?submitted_app, ?settled_app, ?persisted_app; cbn; rewrite ?app_nil_r; auto.
  - intros j. rewrite c_range0, list_elem_of_filter, elem_of_cons.
    destruct (decide (j = i)) as [->|]; tauto.
  - intros j. rewrite list_elem_of_filter, elem_of_cons. intros [?|[[_ ?]|[-> |?]]]; apply c_fresh0; auto.
  - intros j. rewrite list_elem_of_filter, elem_of_cons. intros [? Hj] [?|?]; [done|]. by apply (c_apart0 j).
  - by apply NoDup_filter.
  - rewrite c_submitted0. rewrite Hperm at 1. solve_Permutation.
  - intros j Hj. rewrite elem_of_app. destruct (c_settled0 j Hj); auto.
  - intros j. rewrite elem_of_app, list_elem_of_singleton, elem_of_cons. intros [Hj|Hj]; [|auto].
    destruct (c_recorded0 j Hj); auto.
  - apply Permutation_length in Hperm. cbn in Hperm. lia.
  - by apply bounded_app.
  - by apply calm_app.
Qed.

Lemma ck_ok_mono done done' c : done ⊆ done' → ck_ok done c → ck_ok done' c.
Proof.
  intros Hsub []. split; try done. eapply Forall_impl; [done|]. cbn. intros r Hr. by eapply lookup_weaken.
Qed.

Lemma core_complete limbo p fl l i r e :
  core (i :: limbo) p fl l → i ∉ limbo → bir_index r = i → good i (bir_receipt r) → i ∈ settled l →
  core limbo (complete i r e p) fl l.
Proof.
  intros [] Hlimbo Hr Hg Hset.
  assert (Hn : completed p !! i = None) by (apply c_fresh0; set_solver).
  assert (Hfl : i ∉ fl) by (intros Hin; apply (c_apart0 i Hin); left).
  assert (Hpe : i ∉ pending p).
  { intros Hin. pose proof c_order0 as Ho. assert (Hs : i ∈ submitted l) by (rewrite c_submitted0; set_solver).
    apply list_elem_of_split in Hs as (l1 & l2 & E). rewrite E, <- app_assoc in Ho. cbn in Ho.
    clear -Ho Hin. induction l1; cbn in Ho; inversion_clear Ho as [|? ? Hs Hlt]; [|auto].
    rewrite Forall_forall in Hlt. specialize (Hlt i ltac:(set_solver)). lia. }
  assert (Hsub : completed p ⊆ <[i := r]> (completed p)) by by apply insert_subseteq.
  split; cbn [completed pending dispatches complete]; auto.
  - intros j. rewrite c_range0, elem_of_cons, lookup_insert_is_Some.
    destruct (decide (i = j)) as [->|Hne]; [tauto|]. assert (j ≠ i) by done. tauto.
  - intros j Hj. rewrite lookup_insert_ne; [apply c_fresh0; set_solver|]. intros ->. set_solver.
  - intros j Hj Hin. apply (c_apart0 j Hj). by right.
  - intros j r'. destruct (decide (i = j)) as [->|Hne].
    + rewrite lookup_insert_eq. by intros [= <-].
    + rewrite lookup_insert_ne by done. auto.
  - by etransitivity.
  - intros j. destruct (decide (i = j)) as [->|Hne]; [auto|]. rewrite lookup_insert_ne by done. auto.
  - intros j Hj. rewrite lookup_insert_is_Some. destruct (decide (i = j)) as [->|Hne]; [auto|].
    destruct (c_recorded0 j Hj) as [Hin|?]; [|auto]. left. set_solver.
  - eapply Forall_impl; [done|]. intros c. by apply ck_ok_mono.
Qed.

(** The keys of a map, in order, and what they map to. *)
Lemma keys_sorted (m : gmap Z BulkItemReceipt) :
  let ks := merge_sort Z.le (map_to_list m).*1 in
  StronglySorted Z.lt ks ∧ ∀ i, i ∈ ks ↔ is_Some (m !! i).
Proof.
  cbn zeta. set (ks := merge_sort _ _).
  assert (Hp : ks ≡ₚ (map_to_list m).*1) by apply merge_sort_Permutation. split.
  - apply strictly_sorted_iff. split.
    + apply (StronglySorted_unique Z.le); [by apply (StronglySorted_merge_sort Z.le)..|].
      symmetry. apply merge_sort_Permutation.
    + rewrite Hp. apply NoDup_fst_map_to_list.
  - intros i. rewrite Hp, list_elem_of_fmap. split.
    + intros ([k v] & -> & Hin%elem_of_map_to_list). by eexists.
    + intros [v Hv]. exists (i, v). split; [done|]. by apply elem_of_map_to_list.
Qed.

Lemma omap_lookup_index (m : gmap Z BulkItemReceipt) (ks : list Z) :
  (∀ i r, m !! i = Some r → bir_index r = i) → (∀ i, i ∈ ks → is_Some (m !! i)) →
  bir_index <$> omap (λ i, m !! i) ks = ks.
Proof.
  intros Hm. induction ks as [|k ks IH]; intros Hks; [done|]. cbn.
  destruct (Hks k) as [r Hr]; [left|]. rewrite Hr. cbn. rewrite (Hm _ _ Hr). f_equal. apply IH.
  intros i Hi. apply Hks. by right.
Qed.

(** Building a checkpoint never fails. *)
Lemma build_checkpoint_ok limbo p fl l b :
  core limbo p fl l →
  ∃ oc, _build_checkpoint self plan (completed p) b = Ok oc ∧
    ∀ c, oc = Some c → ck_ok (completed p) c ∧ bc_cancellation_requested c = b ∧
      ∀ i, is_Some (completed p !! i) → i ∈ bir_index <$> bc_item_receipts c.
Proof.
  intros []. unfold _build_checkpoint. destruct (negb _); [by exists None|].
  destruct (keys_sorted (completed p)) as [Hsort Hkeys]. set (ks := merge_sort _ _) in *.
  set (items := omap _ ks).
  assert (Hidx : bir_index <$> items = ks).
  { apply omap_lookup_index; [intros i r Hr; by apply c_index0|]. intros i. by apply Hkeys. }
  assert (Hdone : Forall (λ r, completed p !! bir_index r = Some r) items).
  { apply Forall_forall. intros r (i & Hi & Hr)%list_elem_of_omap. by rewrite (proj1 (c_index0 _ _ Hr)). }
  assert (Hrange : Forall (λ r, 0 <= bir_index r < n) items).
  { eapply Forall_impl; [exact Hdone|]. intros r Hr. cbn in Hr. apply c_range0. right. right. right. by eexists. }
  match goal with |- context [make_checkpoint plan items b ?c] =>
    assert (Hmk : make_checkpoint plan items b c = Ok {| bc_plan := plan; bc_item_receipts := items;
      bc_cancellation_requested := b; bc_resumption_cursor := c |}) end.
  { apply make_checkpoint_iff. split; [done|]. rewrite Hidx. split; [done|].
    eapply Forall_impl; [exact Hrange|]. cbn. tauto. }
  rewrite Hmk. eexists. split; [reflexivity|]. intros c [= <-]. split; [|split; [done|]].
  - split; [done|by rewrite <- Hidx in Hsort|done|done].
  - intros i Hi. cbn. rewrite Hidx. by apply Hkeys.
Qed.

(** *** Emission *)

Lemma ready_spec m f : ∀ i,
  let rs := ready_receipts f m i in
  let k := Z.of_nat (length rs) in
  rs = omap (λ j, m !! j) (seqZ i k) ∧ (∀ j, i <= j < i + k → is_Some (m !! j)) ∧
  (m !! (i + k) = None ∨ length rs = f).
Proof.
  cbn zeta. induction f as [|f IH]; intros i; cbn [ready_receipts].
  - split_and!; [done|cbn; lia|by right].
  - destruct (m !! i) as [r|] eqn:Er.
    2:{ split_and!; [done|cbn; lia|left]. cbn. by rewrite Z.add_0_r. }
    destruct (IH (i + 1)) as (Hrs & Hall & Hend). set (rs := ready_receipts f m (i + 1)) in *.
    cbn [length]. split_and!.
    + rewrite seqZ_cons by lia. cbn. rewrite Er. replace (Z.succ i) with (i + 1) by lia.
      replace (Z.pred (Z.of_nat (S (length rs)))) with (Z.of_nat (length rs)) by lia. by rewrite <- Hrs.
    + intros j Hj. destruct (decide (j = i)) as [->|]; [by eexists|]. apply Hall. lia.
    + destruct Hend as [Hend|Hend]; [left|right; by rewrite Hend].
      by replace (i + Z.of_nat (S (length rs))) with (i + 1 + Z.of_nat (length rs)) by lia.
Qed.

(** [ordered_receipts] takes all there is. *)
Lemma ready_maximal (m : gmap Z BulkItemReceipt) i :
  m !! (i + Z.of_nat (length (ready_receipts (size m) m i))) = None.
Proof.
  destruct (ready_spec m (size m) i) as (_ & Hall & [Hend|Hlen]); [done|].
  set (rs := ready_receipts (size m) m i) in *.
  destruct (m !! (i + Z.of_nat (length rs))) as [r|] eqn:E; [|done]. exfalso.
  assert (Hsub : list_to_set (seqZ i (Z.of_nat (length rs) + 1)) ⊆ dom m).
  { intros j. rewrite elem_of_list_to_set, elem_of_seqZ, elem_of_dom. intros Hj.
    destruct (decide (j = i + Z.of_nat (length rs))) as [->|]; [by eexists|]. apply Hall. lia. }
  apply subseteq_size in Hsub. rewrite size_list_to_set in Hsub by apply NoDup_seqZ.
  rewrite length_seqZ, size_dom in Hsub. lia.
Qed.

Lemma emits_ready p l :
  let rs := ready_receipts (size (completed p)) (completed p) (next_emit p) in
  emits [] p l → emits rs (set_emitted (next_emit p + Z.of_nat (length rs)) p) l.
Proof.
  cbn zeta. set (rs := ready_receipts _ _ _). intros (Hpos & Hall & Hem).
  destruct (ready_spec (completed p) (size (completed p)) (next_emit p)) as (Hrs & Hready & _).
  fold rs in Hrs, Hready. split; [cbn; lia|]. split.
  - cbn. intros i Hi. destruct (decide (i < next_emit p)); [apply Hall; lia|apply Hready; lia].
  - unfold receipts_upto in *. cbn [completed next_emit set_emitted]. rewrite app_nil_r in Hem.
    rewrite seqZ_app by lia. rewrite omap_app, Hem. f_equal. by rewrite Hrs at 2.
Qed.

Lemma emits_yield r rest p l : emits (r :: rest) p l → emits rest p (l ++ [Yielded (Receipt r)]).
Proof.
  intros (? & ? & E). split_and!; [done..|]. rewrite emitted_app, E. cbn. by rewrite <- app_assoc.
Qed.

Lemma emits_other rest p l e :
  (∀ r, e ≠ Yielded (Receipt r)) → emits rest p l → emits rest p (l ++ [e]).
Proof.
  intros He (? & ? & E). split_and!; [done..|]. rewrite E, emitted_app. f_equal.
  destruct e as [| | |[r|]]; cbn; try by rewrite app_nil_r. by destruct (He r).
Qed.

(** Recording an item that has not been emitted changes no earlier receipt. *)
Lemma emits_complete rest p l i r e : completed p !! i = None → emits rest p l → emits rest (complete i r e p) l.
Proof.
  intros Hi (Hpos & Hall & E). split; [done|]. cbn.
  assert (Hne : ∀ j, 0 <= j < next_emit p → i ≠ j).
  { intros j Hj ->. destruct (Hall j Hj) as [x Hx]. congruence. }
  split.
  - intros j Hj. rewrite lookup_insert_ne by auto. auto.
  - rewrite <- E. unfold receipts_upto. cbn [completed next_emit complete].
    assert (Hall' : Forall (λ j, 0 <= j < next_emit p) (seqZ 0 (next_emit p))).
    { apply Forall_forall. intros j Hj%elem_of_seqZ. lia. }
    induction Hall' as [|j js Hj _ IH]; [done|]. cbn. rewrite lookup_insert_ne by auto.
    destruct (completed p !! j); by rewrite IH.
Qed.

Lemma cancel_seen_app l e :
  cancel_seen (l ++ [e]) = cancel_seen l || match e with Persisted c => bc_cancellation_requested c | _ => false end.
Proof.
  unfold cancel_seen. rewrite persisted_app, existsb_app. f_equal. destruct e; cbn; by rewrite ?orb_false_r.
Qed.

(** *** Triples *)

(** The monitor the run made. *)
Hypothesis monitor_of : ∀ m, monitor = Some m → be_whole_run_budget self = Some (dm_budget m).
Abbreviation wb := (well_behaved W is_async plan (be_whole_run_budget self)).

(** A run that raises was not well behaved, and has kept the rest. *)
Abbreviation E := (λ (_ : exn) (s : bulk W), ¬ wb ∧ st bad s).

Lemma total_triple {A} I (m : M (bulk W) A) :
  (∀ p fl l, I p fl l → bad p fl l) → preserves (st I) m → (wb → quiet m) → hoare (st I) m (λ _, st I) E.
Proof.
  intros Hbad Hk Hq s Hs. specialize (Hk s Hs). destruct (m s) as [[a|e] s'] eqn:Em; [done|].
  split; [|by apply Hbad]. intros H. specialize (Hq H s). by rewrite Em in Hq.
Qed.

Lemma env_triple {A} I (m : W → result A * W) :
  (∀ p fl l, I p fl l → bad p fl l) → (wb → ∀ w, is_ok (m w).1 = true) → hoare (st I) (on_env m) (λ _, st I) E.
Proof. intros Hbad Hm. apply total_triple; [done|apply env_keeps|]. intros H. by apply quiet_env, Hm. Qed.

(** The same where the progress, or the items in flight, have been read. *)
Lemma bad_read I p :
  (∀ fl l, I p fl l → bad p fl l) → ∀ p' fl l, p' = p ∧ I p fl l → bad p' fl l.
Proof. intros H p' fl l [-> ?]. auto. Qed.
Lemma bad_read_fl I fl :
  (∀ p l, I p fl l → bad p fl l) → ∀ p fl' l, fl' = fl ∧ I p fl l → bad p fl' l.
Proof. intros H p fl' l [-> ?]. auto. Qed.

Lemma quiet_stop check : wb → quiet (_stop_state self plan monitor check).
Proof. intros H. apply quiet_stop_state. intros m Hm. eapply wb_budget; [exact H|by apply monitor_of]. Qed.

Lemma yield_triple r rest :
  hoare (st (inv [] (r :: rest))) (yield_output (Receipt r)) (λ _, st (inv [] rest)) E.
Proof.
  unfold yield_output. eapply hoare_bind.
  - apply (note_triple _ (inv [] rest)). intros p fl l (Hc & He & Hs). split_and!.
    + by apply core_quiet.
    + by apply emits_yield.
    + unfold stopped_after_cancel. by rewrite cancel_seen_app, orb_false_r.
  - intros ?. apply env_triple; [apply inv_bad|]. intros H w. by eapply wb_yield.
Qed.

Lemma yield_receipts_triple rs :
  hoare (st (inv [] rs)) (yield_receipts rs) (λ _, st (inv [] [])) E.
Proof.
  induction rs as [|r rs IH]; cbn [yield_receipts]; [by apply hoare_ret|].
  eapply hoare_bind; [apply yield_triple|]. by intros [].
Qed.

(** After an emission the next receipt is missing. *)
Definition drained (p : _BulkProgress) : Prop := completed p !! next_emit p = None.

Lemma yield_output_progress o : preserves (st (W := W) (λ p _ _, drained p)) (yield_output o).
Proof.
  unfold yield_output. apply preserves_bind; [by apply preserves_modify|]. intros _. apply env_keeps.
Qed.

Lemma yield_receipts_drained rs : preserves (st (W := W) (λ p _ _, drained p)) (yield_receipts rs).
Proof.
  induction rs as [|r rs IH]; cbn [yield_receipts]; [apply preserves_ret|].
  apply preserves_bind; [apply yield_output_progress|done].
Qed.

Lemma emit_ordered_triple :
  hoare (st (inv [] [])) emit_ordered (λ _, st (λ p fl l, inv [] [] p fl l ∧ drained p)) E.
Proof.
  unfold emit_ordered, ordered_receipts. intros s (Hc & He & Hs).
  set (p := b_progress s) in *. set (rs := ready_receipts (size (completed p)) (completed p) (next_emit p)).
  set (s1 := Bulk (b_world s) (set_emitted (next_emit p + Z.of_nat (length rs)) p) (b_in_flight s) (b_log s)).
  change (match yield_receipts rs s1 with
          | (Ok a, s') => st (λ p fl l, inv [] [] p fl l ∧ drained p) s'
          | (Raise e, s') => ¬ wb ∧ st bad s' end).
  assert (H1 : st (inv [] rs) s1).
  { split_and!; [by apply (core_ext [] p)|by apply emits_ready|done]. }
  assert (H2 : st (λ p _ _, drained p) s1) by by apply ready_maximal.
  pose proof (yield_receipts_triple rs s1 H1) as Ht.
  pose proof (yield_receipts_drained rs s1 H2) as Hk. by destruct (yield_receipts rs s1) as [[u|e] s'].
Qed.

Lemma persist_rule I p b :
  (∀ fl l, I p fl l → ∃ limbo, core limbo p fl l) →
  (∀ fl l c, I p fl l → ck_ok (completed p) c → bc_cancellation_requested c = b → I p fl (l ++ [Persisted c])) →
  (∀ fl l, I p fl l → bad p fl l) →
  hoare (st (λ p' fl l, p' = p ∧ I p fl l)) (_persist is_async self plan (completed p) b)
    (λ _, st (λ p' fl l, p' = p ∧ I p fl l)) E.
Proof.
  intros Hcore Hstep Hbad. unfold _persist. intros s [Hp Hs].
  destruct (Hcore _ _ Hs) as [limbo Hc]. destruct (build_checkpoint_ok _ _ _ _ b Hc) as (oc & Hoc & Hck).
  unfold mbind at 1, M_bind at 1, lift_res at 1. rewrite Hoc. destruct oc as [c|]; [|done].
  destruct (Hck c eq_refl) as (Hok & Hb & _). revert s Hp Hs Hc.
  enough (hoare (st (λ p' fl l, p' = p ∧ I p fl l))
    (note (Persisted c);; awaitable ← on_env (env_sink c);
      if awaitable && negb is_async then throw (err TypeError "Async checkpoint sinks require AsyncBulkExecutor.")
      else mret tt) (λ _, st (λ p' fl l, p' = p ∧ I p fl l)) E) as H.
  { intros s Hp Hs _. by apply H. }
  eapply hoare_bind; [apply (note_triple _ (λ p' fl l, p' = p ∧ I p fl l)); intros ? fl l [-> ?]; split; [done|by apply Hstep]|].
  intros ?. eapply hoare_bind.
  - instantiate (1 := λ b0 s, (wb → b0 = true → is_async = true) ∧ st (λ p' fl l, p' = p ∧ I p fl l) s).
    intros s0 Hs0. unfold on_env. destruct (env_sink c (b_world s0)) as [[b0|e] w'] eqn:Es.
    + split; [|exact Hs0]. intros H Hb0. destruct (wb_sink _ _ _ H c (b_world s0)) as (b' & E' & ?).
      rewrite Es in E'. injection E' as ->. auto.
    + split; [|by apply (bad_read I p)]. intros H. destruct (wb_sink _ _ _ H c (b_world s0)) as (b' & E' & ?).
      by rewrite Es in E'.
  - intros b0. apply hoare_pure. intros Hb0. destruct (b0 && negb is_async) eqn:Eb.
    + apply hoare_throw. intros s0 Hs0. split; [|by apply (bad_read I p)]. intros H.
      apply andb_true_iff in Eb as [-> Eb%negb_true_iff]. rewrite Hb0 in Eb; done.
    + by apply hoare_ret.
Qed.

(** The results of the workers are the environment's. *)
Hypothesis result_good : ∀ i w r w', 0 <= i < n → env_result i w = (Ok r, w') → good i (ir_receipt r).
Hypothesis failure_good : ∀ i item r b,
  item_at plan i = Ok item → _failure_receipt plan item b = Ok r → good i r.

Lemma item_in_range i : 0 <= i < n → ∃ item, item_at plan i = Ok item.
Proof.
  intros Hi. unfold item_at. destruct (bp_items plan !! Z.to_nat i) eqn:El; [by eexists|].
  apply lookup_ge_None in El. lia.
Qed.

Lemma task_result_rule I i :
  0 <= i < n → (∀ p fl l, I p fl l → bad p fl l) →
  hoare (st I) (_task_result is_async plan i) (λ r s, good i (ir_receipt r) ∧ st I s) E.
Proof.
  intros Hi Hbad. unfold _task_result.
  apply hoare_try with (E' := λ e s, (wb → settles_as_failure is_async e = true) ∧ st I s).
  - intros s Hs. unfold on_env. destruct (env_result i (b_world s)) as [[r|e] w'] eqn:Er.
    + split; [by eapply result_good|done].
    + split; [|done]. intros H. apply (wb_result _ _ _ H i (b_world s)). by rewrite Er.
  - intros e k. destruct (settles_as_failure is_async e); [|done]. intros [= <-].
    apply hoare_pure. intros _.
    apply hoare_bind with (R := λ item s, item_at plan i = Ok item ∧ st I s).
    { apply hoare_lift; [auto|]. intros s e' Hs He. destruct (item_in_range i Hi) as [item Hitem]. congruence. }
    intros item. apply hoare_pure. intros Hitem.
    apply hoare_bind with (R := λ r s, _failure_receipt plan item false = Ok r ∧ st I s).
    { apply hoare_lift; [auto|]. intros s e' Hs He. split; [|by apply Hbad]. intros H.
      destruct (failure_receipt_total plan item false (wb_operation _ _ _ H)). congruence. }
    intros r. apply hoare_pure. intros Hr. apply hoare_ret. intros s Hs. split; [|done]. cbn. by eapply failure_good.
  - intros e s He [H Hs]. split; [|by apply Hbad]. intros Hwb. specialize (H Hwb). by rewrite H in He.
Qed.

Lemma refresh_rule I check :
  (∀ p fl l, I p fl l → bad p fl l) →
  (∀ p fl l stop error, p_stop_reason p = None → I p fl l → I (set_stop stop error p) fl l) →
  hoare (st I) (_refresh_stop_state self plan monitor check) (λ _, st I) E.
Proof.
  intros Hbad Hset. unfold _refresh_stop_state. apply read_progress_triple. intros p.
  destruct (p_stop_reason p) as [r0|] eqn:Es; [apply hoare_ret; intros s [Hp Hs]; unfold st; by rewrite Hp|].
  eapply hoare_bind.
  - apply total_triple; [apply (bad_read I); auto|apply stop_state_keeps|apply quiet_stop].
  - intros [stop error]. apply progress_triple. intros ? fl l [-> Hs]. by apply Hset.
Qed.

Lemma set_stop_inv rest limbo p fl l stop error :
  p_stop_reason p = None → inv limbo rest p fl l → inv limbo rest (set_stop stop error p) fl l.
Proof.
  intros Es (Hc & He & Hs). split_and!; [by apply (core_ext limbo p)|exact He|].
  intros H. specialize (Hs H). rewrite Es in Hs. by destruct Hs.
Qed.

Lemma refresh_keeps rest limbo check :
  hoare (st (inv limbo rest)) (_refresh_stop_state self plan monitor check) (λ _, st (inv limbo rest)) E.
Proof. apply refresh_rule; [apply inv_bad|intros; by apply set_stop_inv]. Qed.

Lemma make_item_rule (P : bulk W → Prop) i receipt E' :
  0 <= i →
  hoare P (lift_res (make_item_receipt i receipt)) (λ r s, (bir_index r = i ∧ bir_receipt r = receipt) ∧ P s) E'.
Proof.
  intros Hi. apply hoare_lift.
  - intros s r Hs Hr. by apply make_item_receipt_ok in Hr as (_ & ? & ?).
  - intros s e _ He. unfold make_item_receipt in He. by rewrite guard_bind in He by by apply Z.ltb_ge.
Qed.

Lemma record_result_rule i :
  hoare (st (λ p fl l, inv [i] [] p fl l ∧ i ∈ settled l)) (_record_result is_async self plan monitor i)
    (λ _, st (inv [] [])) E.
Proof.
  intros s Hs. assert (Hi : 0 <= i < n).
  { destruct Hs as [([] & _) _]. apply c_range0. right; right; left. left. }
  revert s Hs. change (hoare (st (λ p fl l, inv [i] [] p fl l ∧ i ∈ settled l))
    (_record_result is_async self plan monitor i) (λ _, st (inv [] [])) E).
  unfold _record_result. eapply hoare_bind.
  { apply task_result_rule; [done|]. intros p fl l [H _]. by eapply inv_bad. }
  intros result. apply hoare_pure. intros Hgood. cbn beta.
  unfold _record_completed. eapply hoare_bind.
  { apply hoare_bind with (R := λ r s, (bir_index r = i ∧ bir_receipt r = ir_receipt result) ∧
        st (λ p fl l, inv [i] [] p fl l ∧ i ∈ settled l) s).
    { apply make_item_rule. lia. }
    intros r. apply hoare_pure. intros [Hr1 Hr2].
    eapply hoare_bind.
    { apply (progress_triple _ (inv [] [])). intros p fl l [(Hc & He & Hs) Hset]. split_and!; [|apply emits_complete|done].
      - apply core_complete; try done; [set_solver|by rewrite Hr2].
      - apply Hc. right; right. left.
      - done. }
    intros ?. apply read_progress_triple. intros p.
    eapply hoare_conseq; [apply (refresh_keeps [] [])| |done|done].
    intros s [Hp Hs]. unfold st. by rewrite Hp. }
  intros ?. apply read_progress_triple. intros p. eapply hoare_bind.
  { apply (persist_rule (inv [] [])); [intros fl l (Hc & _); by eexists| |intros fl l; apply inv_bad].
    intros fl l c (Hc & He & Hs) Hck Hcb. split_and!; [by apply core_persist|by apply emits_other|].
    unfold stopped_after_cancel. rewrite cancel_seen_app, Hcb. intros H. apply orb_true_iff in H as [H|H]; [auto|].
    apply bool_decide_eq_true in H. by rewrite H. }
  intros ?. apply read_progress_triple. intros p'. apply progress_triple. intros p0 fl l [-> [-> (Hc & He & Hs)]].
  split_and!; [by apply (core_ext [] p)|exact He|exact Hs].
Qed.

Lemma pop_step limbo rest p fl l i :
  core limbo p fl l → emits rest p l → i ∈ fl →
  i ∉ limbo ∧ core (i :: limbo) p (filter (λ j, j ≠ i) fl) (l ++ [Settled i]) ∧ emits rest p (l ++ [Settled i]).
Proof.
  intros Hc He Hi. destruct (core_pop limbo p fl l i Hc Hi) as [? ?]. split_and!; [done..|]. by apply emits_other.
Qed.

Lemma pop_in_flight_eq i (s : bulk W) :
  pop_in_flight i s =
    if bool_decide (i ∈ b_in_flight s)
    then (Ok tt, Bulk (b_world s) (b_progress s) (filter (λ j, j ≠ i) (b_in_flight s)) (b_log s ++ [Settled i]))
    else (Raise (err KeyError ""), s).
Proof.
  unfold pop_in_flight, mbind, M_bind, in_flight, read. by destruct (bool_decide (i ∈ b_in_flight s)).
Qed.

(** *** What recording and emitting leave alone *)

(** [frame I]: [I] is about neither the progress nor how long the log is. *)
Definition frame (I : _BulkProgress → list Z → list bulk_event → Prop) : Prop :=
  (∀ p p' fl l, I p fl l → I p' fl l) ∧ ∀ p fl l e, I p fl l → I p fl (l ++ [e]).

Lemma note_keeps I e : frame I → preserves (st (W := W) I) (note e).
Proof. intros [_ H]. apply preserves_modify. intros s. apply H. Qed.
Lemma progress_keeps I f : frame I → preserves (st (W := W) I) (set_progress f).
Proof. intros [H _]. apply preserves_modify. intros s. apply H. Qed.

Lemma frame_triple {A} I F (m : M (bulk W) A) J :
  preserves (st F) m → hoare (st I) m (λ _, st J) E →
  hoare (st (λ p fl l, I p fl l ∧ F p fl l)) m (λ _, st (λ p fl l, J p fl l ∧ F p fl l)) E.
Proof.
  intros HF H s [Hi Hf]. specialize (H s Hi). specialize (HF s Hf). by destruct (m s) as [[]].
Qed.

Ltac keep :=
  repeat match goal with
  | |- preserves _ (_ ≫= _) => apply preserves_bind
  | |- preserves _ (mret _) => apply preserves_ret
  | |- preserves _ (throw _) => apply preserves_throw
  | |- preserves _ (lift_res _) => apply preserves_lift
  | |- preserves _ progress => apply preserves_read
  | |- preserves _ in_flight => apply preserves_read
  | |- preserves _ (on_env _) => apply env_keeps
  | |- preserves _ (note _) => by apply note_keeps
  | |- preserves _ (set_progress _) => by apply progress_keeps
  | |- preserves _ (_stop_state _ _ _ _) => apply stop_state_keeps
  | |- preserves _ (try_except _ _) => apply preserves_try
  | |- preserves _ (match ?x with _ => _ end) => destruct x
  | |- ∀ _, _ => intros ?
  end.

Lemma emit_ordered_keeps I : frame I → preserves (st (W := W) I) emit_ordered.
Proof.
  intros HF. unfold emit_ordered, ordered_receipts. keep.
  match goal with |- preserves _ (yield_receipts ?rs) => induction rs; cbn [yield_receipts]; unfold yield_output end; keep.
  done.
Qed.

Lemma record_result_keeps I i :
  frame I → preserves (st (W := W) I) (_record_result is_async self plan monitor i).
Proof.
  intros HF. unfold _record_result, _task_result, _record_completed, _refresh_stop_state, _persist. keep.
  case_match; simplify_eq. keep.
Qed.

(** The futures [wait] returned and that are not settled yet. *)
Definition waiting (ds : list Z) : _BulkProgress → list Z → list bulk_event → Prop :=
  λ _ fl _, wb → NoDup ds ∧ ∀ i, i ∈ ds → i ∈ fl.

Lemma pop_rule i ds :
  hoare (st (λ p fl l, inv [] [] p fl l ∧ waiting (i :: ds) p fl l)) (pop_in_flight i)
    (λ _, st (λ p fl l, (inv [i] [] p fl l ∧ i ∈ settled l) ∧ waiting ds p fl l)) E.
Proof.
  intros s [Hs Hw]. rewrite pop_in_flight_eq. destruct (bool_decide (i ∈ b_in_flight s)) eqn:Ei.
  2:{ split; [|by eapply inv_bad]. intros H. destruct (Hw H) as [_ Hin].
      apply bool_decide_eq_false in Ei. apply Ei, Hin. left. }
  apply bool_decide_eq_true in Ei. destruct Hs as (Hc & He & Hst).
  destruct (pop_step _ _ _ _ _ _ Hc He Ei) as (_ & Hc' & He').
  split; [split; [split; [exact Hc'|split; [exact He'|]]|]|].
  - unfold stopped_after_cancel. cbn [b_log b_progress]. by rewrite cancel_seen_app, orb_false_r.
  - cbn. rewrite settled_app. set_solver.
  - intros H. destruct (Hw H) as [[Hni Hnd]%NoDup_cons Hin]. split; [done|]. cbn [b_in_flight]. intros j Hj.
    apply list_elem_of_filter. split; [by intros ->|]. apply Hin. by right.
Qed.

Lemma waiting_frame ds : frame (waiting ds).
Proof. by split. Qed.

Lemma settle_done_rule ds :
  hoare (st (λ p fl l, inv [] [] p fl l ∧ waiting ds p fl l)) (settle_done is_async self plan monitor ds)
    (λ _, st (inv [] [])) E.
Proof.
  induction ds as [|i ds IH]; cbn [settle_done]; [apply hoare_ret; by intros s []|].
  eapply hoare_bind; [apply pop_rule|]. intros ?.
  eapply hoare_bind; [apply frame_triple; [apply record_result_keeps, waiting_frame|apply record_result_rule]|]. intros ?.
  eapply hoare_bind; [apply frame_triple; [apply emit_ordered_keeps, waiting_frame|apply emit_ordered_triple]|]. intros ?.
  eapply hoare_conseq; [exact IH| |done|done]. by intros s [[Hs _] ?].
Qed.

(** Why no further item is dispatched. *)
Definition blocked (p : _BulkProgress) (fl : list Z) : Prop :=
  pending p = [] ∨ par <= Z.of_nat (length fl) ∨ is_Some (p_stop_reason p).

Lemma next_dispatchable_rule k :
  hoare (st (λ p fl l, inv [] [] p fl l ∧ length (pending p) = k)) (_next_dispatchable self plan monitor)
    (λ o, st (λ p fl l, match o with
       | None => inv [] [] p fl l ∧ blocked p fl
       | Some i => ∃ p0 rest, inv [] [] p0 fl l ∧ pending p0 = i :: rest ∧ p = set_pending rest p0 ∧
           Z.of_nat (length fl) < par ∧ cancel_seen l = false ∧ p_stop_reason p0 = None ∧ S (length rest) = k
       end)) E.
Proof.
  unfold _next_dispatchable. apply read_progress_triple. intros p. apply read_in_flight_triple. intros fl.
  destruct (negb (has_pending p) || (par <=? Z.of_nat (length fl)) || bool_decide (is_Some (p_stop_reason p))) eqn:Eb.
  { apply hoare_ret. intros s [Hf [Hp [Hs Hk]]]. unfold st. rewrite Hf, Hp in *. split; [done|]. unfold blocked.
    rewrite !orb_true_iff, negb_true_iff, Z.leb_le, bool_decide_eq_true in Eb.
    destruct Eb as [[Eb|Eb]|Eb]; [left|auto..]. unfold has_pending in Eb. by destruct (pending p). }
  rewrite !orb_false_iff, negb_false_iff, Z.leb_gt, bool_decide_eq_false in Eb. destruct Eb as [[Hpend Hlt] Hnone].
  eapply hoare_bind.
  { apply total_triple; [by intros p' fl' l (-> & -> & H & _); eapply inv_bad|apply stop_state_keeps|apply quiet_stop]. }
  intros [stop error].
  eapply hoare_bind with (R := λ _, st (λ p' fl' l, fl' = fl ∧ p' = set_stop stop error p ∧ inv [] [] p fl l ∧
                                          length (pending p) = k)).
  { apply progress_triple. intros p' fl' l (-> & -> & ? & ?). done. }
  intros ?. assert (Hcs : ∀ l, stopped_after_cancel p l → cancel_seen l = false).
  { intros l Hsc. destruct (cancel_seen l) eqn:Ec; [|done]. by destruct Hnone, (Hsc Ec). }
  assert (Hset : ∀ fl l, inv [] [] p fl l → inv [] [] (set_stop stop error p) fl l).
  { intros fl0 l (Hc & He & Hsc). split_and!; [by apply (core_ext [] p)|done|].
    intros H. by rewrite (Hcs l Hsc) in H. }
  destruct stop as [r|]; [|destruct (pending p) as [|i rest] eqn:Epend].
  - apply hoare_ret. intros s (Hf & Hp & Hs & _). unfold st. rewrite Hf, Hp. split; [by apply Hset|].
    right; right. by eexists.
  - by unfold has_pending in Hpend; rewrite Epend in Hpend.
  - eapply hoare_bind with (R := λ _, st (λ p' fl' l, ∃ p0, inv [] [] p0 fl' l ∧ pending p0 = i :: rest ∧
      p' = set_pending rest p0 ∧ Z.of_nat (length fl') < par ∧ cancel_seen l = false ∧ p_stop_reason p0 = None ∧
      S (length rest) = k)).
    + apply progress_triple. intros p' fl' l (-> & -> & Hi & Hk). exists (set_stop None error p).
      split_and!; try done; [by apply Hset|]. by apply Hcs, Hi.
    + intros ?. apply hoare_ret. intros s (p0 & ?). by exists p0, rest.
Qed.

Lemma submit_step p0 rest fl l i :
  inv [] [] p0 fl l → pending p0 = i :: rest → Z.of_nat (length fl) < par → cancel_seen l = false →
  inv [] [] (count_dispatch (set_pending rest p0)) (fl ++ [i]) (l ++ [Submitted i]).
Proof.
  intros (Hc & He & Hs) Hp Hlt Hcs. split_and!; [by apply core_submit|by apply emits_other|].
  unfold stopped_after_cancel. by rewrite cancel_seen_app, Hcs.
Qed.

Lemma dispatch_loop_rule fuel : ∀ k, (k < fuel)%nat →
  hoare (st (λ p fl l, inv [] [] p fl l ∧ length (pending p) = k)) (dispatch_loop self plan fuel monitor)
    (λ _, st (λ p fl l, inv [] [] p fl l ∧ blocked p fl)) E.
Proof.
  induction fuel as [|fuel IH]; intros k Hk; [lia|]. cbn [dispatch_loop].
  eapply hoare_bind; [apply next_dispatchable_rule|]. intros [i|]; [|by apply hoare_ret].
  intros s (p0 & rest & Hi & Hp & Hprog & Hlt & Hcs & _ & Hlen).
  destruct (item_in_range i) as [item Hat].
  { apply (c_range _ _ _ _ (proj1 Hi)). left. rewrite Hp. left. }
  unfold mbind at 1, M_bind at 1, lift_res at 1. rewrite Hat.
  pose proof (submit_step _ _ _ _ _ Hi Hp Hlt Hcs) as Hsub.
  specialize (IH (length rest) ltac:(lia)).
  specialize (IH (Bulk (b_world s) (count_dispatch (b_progress s)) (b_in_flight s ++ [i]) (b_log s ++ [Submitted i]))).
  apply IH. unfold st. cbn [b_progress b_in_flight b_log]. rewrite Hprog. by split.
Qed.

Lemma dispatch_available_rule :
  hoare (st (inv [] [])) (_dispatch_available self plan monitor)
    (λ _, st (λ p fl l, inv [] [] p fl l ∧ blocked p fl)) E.
Proof.
  unfold _dispatch_available. apply read_progress_triple. intros p.
  eapply hoare_conseq; [apply (dispatch_loop_rule _ (length (pending p))); lia| |done|done].
  intros s [Hp Hs]. unfold st. by rewrite Hp.
Qed.

(** Why the loop ended. *)
Definition ended (p : _BulkProgress) (fl : list Z) : Prop :=
  fl = [] ∧ (pending p = [] ∨ is_Some (p_stop_reason p)).

Hypothesis par_pos : 1 <= par.

Lemma wait_rule (I : _BulkProgress → list Z → list bulk_event → Prop) fl :
  fl ≠ [] → (∀ p l, I p fl l → inv [] [] p fl l) →
  hoare (st (λ p fl' l, fl' = fl ∧ I p fl l)) (on_env (env_wait fl))
    (λ ds, st (λ p fl l, inv [] [] p fl l ∧ waiting ds p fl l)) E.
Proof.
  intros Hne HI s [Hf Hs]. apply HI in Hs. rewrite <- Hf in Hs. unfold on_env.
  destruct (env_wait fl (b_world s)) as [[ds|e] w'] eqn:Ew.
  - split; [exact Hs|]. intros H. destruct (wb_wait _ _ _ H fl (b_world s) Hne) as (ds' & E' & Hds).
    rewrite Ew in E'. injection E' as ->. cbn [b_in_flight]. by rewrite Hf.
  - split; [|by eapply inv_bad]. intros H. destruct (wb_wait _ _ _ H fl (b_world s) Hne) as (ds' & E' & Hds).
    by rewrite Ew in E'.
Qed.

Lemma consume_rule fuel :
  hoare (st (inv [] [])) (consume is_async self plan fuel monitor)
    (λ b, st (λ p fl l, inv [] [] p fl l ∧ (b = true → ended p fl))) E.
Proof.
  induction fuel as [|fuel IH]; cbn [consume]; [by apply hoare_ret|].
  apply read_progress_triple. intros p. apply read_in_flight_triple. intros fl.
  destruct (negb (has_pending p) && no_items fl) eqn:Eb.
  { apply andb_true_iff in Eb as [Ep Ef]. apply hoare_ret. intros s [Hf [Hp Hs]]. unfold st. rewrite Hf, Hp.
    split; [done|]. intros _. unfold has_pending in Ep. destruct (pending p) eqn:Epend; [|done].
    destruct fl; [|done]. split; auto. }
  eapply hoare_bind.
  { eapply hoare_conseq; [apply dispatch_available_rule| |done|done]. intros s [Hf [Hp Hs]]. unfold st. by rewrite Hf, Hp. }
  intros ?. apply read_in_flight_triple. intros fl1.
  destruct (no_items fl1) eqn:En.
  { destruct fl1; [|done]. apply hoare_ret. intros s (Hf & Hs & Hb). unfold st. rewrite Hf. split; [done|].
    intros _. split; [done|]. destruct Hb as [?|[Hb|?]]; auto. cbn in Hb. lia. }
  eapply hoare_bind.
  { apply (wait_rule (λ p fl l, inv [] [] p fl l ∧ blocked p fl)); [by destruct fl1|]. by intros p' l [H _]. }
  intros ds. eapply hoare_bind; [apply settle_done_rule|]. intros ?. exact IH.
Qed.

(** *** The drain *)

Definition bad_at (limbo : list Z) (rest : list BulkItemReceipt) (p : _BulkProgress) (fl : list Z)
    (l : list bulk_event) : Prop :=
  core limbo p fl l ∧ emits rest p l.

Lemma bad_at_bad limbo rest p fl l : bad_at limbo rest p fl l → bad p fl l.
Proof. intros [? ?]. split; eauto. Qed.

Lemma drain_each_rule limbo rest todo :
  ¬ wb → hoare (st (λ p fl l, bad_at limbo rest p fl l ∧ ∀ i, i ∈ fl → i ∈ todo)) (drain_each is_async plan todo)
    (λ _, st (λ p fl l, bad_at limbo rest p fl l ∧ fl = [])) E.
Proof.
  intros Hraised. induction todo as [|i todo IH]; cbn [drain_each].
  { apply hoare_ret. intros s [Hs Hin]. split; [done|]. destruct (b_in_flight s) as [|j fl]; [done|].
    by pose proof (Hin j ltac:(left)) as ?%elem_of_nil. }
  eapply hoare_bind with (R := λ _, st (λ p fl l, bad_at limbo rest p fl l ∧ ∀ j, j ∈ fl → j ∈ i :: todo)).
  { destruct is_async; [|by apply hoare_ret]. apply keeps_triple; [apply env_keeps|].
    intros _ s [Hs _]. split; [done|by eapply bad_at_bad]. }
  intros ?. eapply hoare_bind with (R := λ _, st (λ p fl l, (bad_at (i :: limbo) rest p fl l ∧ i ∉ limbo ∧ i ∈ settled l) ∧
    ∀ j, j ∈ fl → j ∈ todo)).
  { intros s [Hs Hin]. rewrite pop_in_flight_eq.
    destruct (bool_decide (i ∈ b_in_flight s)) eqn:Ei; [|split; [done|by eapply bad_at_bad]].
    apply bool_decide_eq_true in Ei. destruct Hs as [Hc He].
    destruct (pop_step _ _ _ _ _ _ Hc He Ei) as (Hni & Hc' & He').
    split; [split; [by split|split; [done|]]|].
    - cbn [b_log]. rewrite settled_app. set_solver.
    - cbn [b_in_flight]. intros j [Hj Hin']%list_elem_of_filter. specialize (Hin j Hin'). set_solver. }
  intros ?. intros s Hs. assert (Hi : 0 <= i < n).
  { destruct Hs as [([[] _] & _) _]. apply c_range0. right; right; left. left. }
  revert s Hs. eapply hoare_bind.
  { apply task_result_rule; [done|]. intros p fl l [(H & _) _]. by eapply bad_at_bad. }
  intros result. apply hoare_pure. intros Hgood.
  eapply hoare_bind; [apply make_item_rule; lia|].
  intros r. apply hoare_pure. intros [Hr1 Hr2]. eapply hoare_bind; [|intros ?; exact IH].
  apply progress_triple. intros p fl l [([Hc He] & Hni & Hset) Hin]. split; [|done]. split.
  - apply core_complete; try done. by rewrite Hr2.
  - apply emits_complete; [|done]. apply Hc. right; right. left.
Qed.

Lemma drain_rule :
  ¬ wb → hoare (st bad) (_drain is_async self plan) (λ _, st (λ p fl l, bad p fl l ∧ fl = [])) E.
Proof.
  intros Hraised s [[limbo Hc] [rest He]]. revert s Hc He.
  enough (hoare (st (bad_at limbo rest)) (_drain is_async self plan) (λ _, st (λ p fl l, bad p fl l ∧ fl = [])) E) as H.
  { intros s Hc He. apply H. by split. }
  unfold _drain. apply read_in_flight_triple. intros fl. eapply hoare_bind.
  { instantiate (1 := λ _, st (λ p fl' l, fl' = fl ∧ bad_at limbo rest p fl l)).
    destruct is_async; [by apply hoare_ret|]. apply keeps_triple; [apply env_keeps|]. intros _ s Hs.
    split; [done|]. by apply (bad_read_fl (bad_at limbo rest) fl (λ p l, bad_at_bad limbo rest p fl l)). }
  intros ?. eapply hoare_bind.
  { eapply hoare_conseq; [by apply (drain_each_rule limbo rest fl)| |done|done].
    intros s [Hf Hs]. split; [by rewrite Hf|]. by rewrite Hf. }
  intros ?. apply read_progress_triple. intros p.
  eapply hoare_conseq; [apply (persist_rule (λ p fl l, bad_at limbo rest p fl l ∧ fl = []) p true)| | |done].
  - intros fl0 l [[Hc _] _]. by eexists.
  - intros fl0 l c [[Hc He] Hf] Hck _. split; [|done]. split; [by apply core_persist|by apply emits_other].
  - intros fl0 l [H _]. by eapply bad_at_bad.
  - done.
  - intros ? s [Hp [H Hf]]. split; [|done]. rewrite <- Hp in H. by eapply bad_at_bad.
Qed.

Lemma run_workers_rule fuel :
  hoare (st (inv [] [])) (run_workers is_async self plan fuel monitor)
    (λ b, st (λ p fl l, inv [] [] p fl l ∧ (b = true → ended p fl))) E.
Proof.
  unfold run_workers.
  assert (Hbody : hoare (st (inv [] []))
    (try_except (consume is_async self plan fuel monitor)
       (λ e, if interrupts is_async e then Some (_drain is_async self plan;; throw e) else None))
    (λ b, st (λ p fl l, inv [] [] p fl l ∧ (b = true → ended p fl))) E).
  { eapply hoare_try; [apply consume_rule| |done]. intros e k. destruct (interrupts is_async e); [|done].
    intros [= <-]. apply hoare_pure. intros Hraised. eapply hoare_bind; [by apply drain_rule|]. intros ?.
    apply hoare_throw. by intros s [Hs _]. }
  enough (Hfin : ∀ A (body : M (bulk W) A) J, hoare (st (inv [] [])) body (λ b, st (J b)) E → (∀ b p fl l, J b p fl l → bad p fl l) →
    hoare (st (inv [] [])) (try_finally body (on_env env_shutdown)) (λ b, st (J b)) E).
  { specialize (Hfin _ _ _ Hbody). destruct is_async; [done|]. apply Hfin. intros b p fl l [H _]. by eapply inv_bad. }
  intros A body J Hb HJ. apply hoare_finally; [done| |].
  - intros b. apply env_triple; [apply HJ|]. intros H w. by eapply wb_shutdown.
  - intros e. apply hoare_pure. intros Hraised. eapply hoare_conseq; [apply (env_triple bad); [done|]|done|done|done].
    intros H w. by eapply wb_shutdown.
Qed.

(** *** The end of the run *)

Lemma finish_stop_rule :
  hoare (st (λ p fl l, inv [] [] p fl l ∧ ended p fl)) (_finish_stop_state self plan monitor)
    (λ b, st (λ p fl l, (inv [] [] p fl l ∧ ended p fl) ∧ (b = true → is_Some (p_stop_reason p)))) E.
Proof.
  unfold _finish_stop_state. eapply hoare_bind.
  { apply refresh_rule; [intros p fl l [H _]; by eapply inv_bad|].
    intros p fl l stop error Hn [Hi [Hf He]]. split; [by apply set_stop_inv|]. split; [done|].
    destruct He as [He|He]; [by left|]. rewrite Hn in He. by destruct He. }
  intros ?. apply read_progress_triple. intros p. apply hoare_ret. intros s [Hp Hs]. unfold st. rewrite Hp.
  split; [done|]. by intros [H%bool_decide_eq_true _]%andb_true_iff.
Qed.

Lemma finish_progress_rule :
  hoare (st (λ p fl l, inv [] [] p fl l ∧ ended p fl)) (_finish_progress is_async self plan monitor)
    (λ _, st (λ p fl l, inv [] [] p fl l ∧ ended p fl)) E.
Proof.
  unfold _finish_progress. eapply hoare_bind; [apply finish_stop_rule|].
  intros [|]; [|apply hoare_ret; by intros s [? _]]. apply read_progress_triple. intros p.
  set (I := λ p fl l, (inv [] [] p fl l ∧ ended p fl) ∧ is_Some (p_stop_reason p)).
  eapply hoare_conseq; [apply (persist_rule I p (is_cancelled p))| | |done].
  - intros fl l [[(Hc & _) _] _]. by eexists.
  - intros fl l c [[(Hc & He & Hs) Hend] Hstop] Hck _. split; [|done]. split; [|done].
    split_and!; [by apply core_persist|by apply emits_other|by intros _].
  - intros fl l [[H _] _]. by eapply inv_bad.
  - intros s [Hp [Hs Hstop]]. split; [done|]. split; auto.
  - intros ? s [Hp [Hs _]]. unfold st. by rewrite Hp.
Qed.

(** What the terminal summary says of the progress. *)
Record summary_of (p : _BulkProgress) (sm : BulkSummary) : Prop := {
  sm_total : s_total sm = n;
  sm_settled : s_settled sm = count_completed p;
  sm_outstanding : s_outstanding sm = n - count_completed p;
  sm_dispatches : s_dispatches sm = dispatches p;
  sm_succeeded : s_succeeded sm = count_outcome "succeeded" (completed p);
  sm_failed : s_failed sm = count_outcome "failed" (completed p);
  sm_skipped : s_skipped sm = count_outcome "skipped" (completed p);
  sm_cancelled : s_cancelled sm = true ↔ p_stop_reason p = Some Cancelled;
  sm_completed : s_state sm = "completed" ↔ p_stop_reason p = None ∧ p_item_budget_error p = None
}.

Lemma terminal_summary_rule I started_at :
  (∀ p fl l, I p fl l → bad p fl l) → (∀ p fl l, I p fl l → count_completed p <= n) →
  hoare (st I) (_terminal_summary plan monitor started_at)
    (λ sm, st (λ p fl l, I p fl l ∧ summary_of p sm)) E.
Proof.
  intros Hbad Hle. unfold _terminal_summary. apply read_progress_triple. intros p.
  eapply hoare_bind with (R := λ _, st (λ p' fl l, p' = p ∧ I p fl l)).
  { destruct (match p_budget_error p with Some e => Some e | None => p_item_budget_error p end);
      [by apply hoare_ret|]. destruct monitor as [m|]; (apply quiet_triple; [apply quiet_bind; [|intros; apply quiet_ret]
        |apply preserves_bind; [|intros; apply preserves_ret]]).
    - unfold remaining. apply quiet_bind; [apply quiet_clock|intros; apply quiet_ret].
    - unfold remaining. apply preserves_bind; [apply clock_now_keeps, clock_keeps|intros; apply preserves_ret].
    - apply quiet_clock.
    - apply clock_now_keeps, clock_keeps. }
  intros [elapsed budget]. apply hoare_lift.
  2:{ intros s e [Hps Hs] Hsm. specialize (Hle _ _ _ Hs). unfold make_bulk_summary in Hsm.
      rewrite guard_bind in Hsm; [done|]. unfold count_completed in *. apply orb_false_iff. rewrite !Z.ltb_ge. lia. }
  intros s sm [Hps Hs] Hsm. unfold st. rewrite Hps. split; [done|]. specialize (Hle _ _ _ Hs).
  unfold make_bulk_summary in Hsm. inv_ok. unfold is_cancelled in *. split; cbn; try done.
  - apply bool_decide_eq_true.
  - destruct (p_stop_reason (b_progress s)) as [[]|], (p_item_budget_error (b_progress s)); cbn; naive_solver.
Qed.

(** *** The loop ends *)

(** At least [k] items have settled: nothing undoes that. *)
Definition at_least (k : nat) : _BulkProgress → list Z → list bulk_event → Prop :=
  λ _ _ l, (k <= length (settled l))%nat.

Lemma at_least_frame k : frame (at_least k).
Proof. split; [done|]. unfold at_least. intros p fl l e. rewrite settled_app, length_app. lia. Qed.

Lemma dispatch_available_keeps k : preserves (st (W := W) (at_least k)) (_dispatch_available self plan monitor).
Proof.
  pose proof (at_least_frame k) as HF. unfold _dispatch_available. keep. match goal with |- context [dispatch_loop _ _ ?f] => induction f end;
    cbn [dispatch_loop]; unfold _next_dispatchable; keep; try done. by apply preserves_modify.
Qed.

Lemma settle_done_counts k done :
  hoare (st (at_least k)) (settle_done is_async self plan monitor done)
    (λ _, st (at_least (k + length done))) (λ _ _, True).
Proof.
  revert k. induction done as [|i done IH]; intros k; cbn [settle_done length].
  { apply hoare_ret. intros s. by rewrite Nat.add_0_r. }
  eapply hoare_bind with (R := λ _, st (at_least (S k))).
  { intros s Hs. rewrite pop_in_flight_eq. case_bool_decide; [|done]. unfold st, at_least in *. cbn.
    rewrite settled_app, length_app. cbn. lia. }
  intros ?. eapply hoare_bind with (R := λ _, st (at_least (S k))).
  { eapply hoare_conseq; [apply preserves_hoare, record_result_keeps, at_least_frame|done..]. }
  intros ?. eapply hoare_bind with (R := λ _, st (at_least (S k))).
  { eapply hoare_conseq; [apply preserves_hoare, emit_ordered_keeps, at_least_frame|done..]. }
  intros ?. replace (k + S (length done))%nat with (S k + length done)%nat by lia. apply IH.
Qed.

Lemma settled_room limbo p fl l :
  core limbo p fl l →
  (length (settled l) + length fl + length (pending p) <= length (bp_items plan))%nat.
Proof.
  intros H. pose proof (c_submitted _ _ _ _ H) as Hsub.
  assert (Hnd : NoDup (submitted l ++ pending p)) by (apply strictly_sorted_iff, H).
  assert (Hincl : submitted l ++ pending p ⊆ seqZ 0 n).
  { intros i. rewrite Hsub, !elem_of_app, elem_of_seqZ. intros Hi.
    assert (0 <= i < n); [|lia]. apply H. destruct Hi as [[?|Hi]|?]; auto.
    apply (c_recorded _ _ _ _ H) in Hi. tauto. }
  apply NoDup_submseteq, submseteq_length in Hincl; [|done].
  rewrite Hsub, !length_app, length_seqZ in Hincl. lia.
Qed.

(** [wait] on a non-empty set returns one item at least. *)
Hypothesis wait_progress : ∀ fl w done w', fl ≠ [] → env_wait fl w = (Ok done, w') → done ≠ [].

Lemma consume_ends fuel :
  hoare (st (λ p fl l, inv [] [] p fl l ∧ at_least (S (length (bp_items plan)) - fuel) p fl l))
    (consume is_async self plan fuel monitor)
    (λ b _, (0 < fuel)%nat → b = true) (λ _ _, True).
Proof.
  induction fuel as [|fuel IH]; cbn [consume]; [apply hoare_ret; lia|].
  set (k := (S (length (bp_items plan)) - S fuel)%nat).
  apply read_progress_triple. intros p. apply read_in_flight_triple. intros fl.
  destruct (negb (has_pending p) && no_items fl) eqn:Eb; [by apply hoare_ret|].
  intros s Hs. assert (Hfuel : (0 < fuel)%nat).
  { destruct Hs as (_ & _ & (Hc & _) & Hk). apply settled_room in Hc. unfold at_least, k in Hk.
    unfold has_pending in Eb. destruct (pending p), fl; cbn in Eb, Hc; try done; lia. }
  clear Eb. assert (Hst : st (W := W) (λ p fl l, inv [] [] p fl l ∧ at_least k p fl l) s).
  { destruct Hs as (Hf & Hp & H). unfold st. by rewrite Hf, Hp. }
  clear Hs. revert s Hst. eapply hoare_bind with (R := λ _, st (λ p fl l, inv [] [] p fl l ∧ at_least k p fl l)).
  { intros s [Hi Hk]. pose proof (dispatch_available_rule s Hi) as H1.
    pose proof (dispatch_available_keeps k s Hk) as H2.
    destruct (_dispatch_available self plan monitor s) as [[]]; [|done]. split; [apply H1|exact H2]. }
  intros ?. apply read_in_flight_triple. intros fl1. destruct (no_items fl1) eqn:En; [by apply hoare_ret|].
  eapply hoare_bind with (R := λ ds s, ds ≠ [] ∧ st (λ p fl l, (inv [] [] p fl l ∧ waiting ds p fl l) ∧ at_least k p fl l) s).
  { assert (Hne : fl1 ≠ []) by by destruct fl1. intros s Hs.
    pose proof (wait_rule (λ p fl l, inv [] [] p fl l ∧ at_least k p fl l) fl1 Hne (λ _ _ H, proj1 H) s Hs) as Hw.
    destruct Hs as (_ & _ & Hk). unfold on_env in *. destruct (env_wait fl1 (b_world s)) as [[ds|] w'] eqn:Ew; [|done].
    split; [by eapply wait_progress|]. by split. }
  intros ds. apply hoare_pure. intros Hdone.
  eapply hoare_bind with (R := λ _, st (λ p fl l, inv [] [] p fl l ∧ at_least (S (length (bp_items plan)) - fuel) p fl l)).
  { intros s [Hi Hk]. pose proof (settle_done_rule ds s Hi) as H1. pose proof (settle_done_counts k ds s Hk) as H2.
    destruct (settle_done is_async self plan monitor ds s) as [[]]; [|done]. split; [exact H1|].
    unfold at_least, k in *. destruct ds; cbn in *; [done|]. unfold st in H2. lia. }
  intros ?. eapply hoare_conseq; [exact IH|done| |done]. auto.
Qed.
End invariant.
