(* ===== verification/BulkStream.v ===== *)
(** * The contract of a bulk run

    What a caller, a checkpoint sink and a consumer of [stream] may rely on,
    whatever the workers, the clock and the consumer do. *)
From stdpp Require Import gmap sorting numbers list_numbers pretty.
From S2P Require Import Prelude PyVal Redaction Policies Errors Transport Resilience Json Ids Receipts Bulk BulkProofs.
Import Deadline.
From Stdlib Require Import QArith Lqa ZArith.
Local Close Scope Q_scope.
Local Open Scope Z_scope.

(** A checkpoint its constructor built. *)
Definition checkpoint_made (c : BulkCheckpoint) : Prop :=
  make_checkpoint (bc_plan c) (bc_item_receipts c) (bc_cancellation_requested c) (bc_resumption_cursor c) = Ok c ∧
  Forall (λ r, 0 <= bir_index r) (bc_item_receipts c).

(** ** Logs *)
Section log.
Variables (self : BulkExecutor) (plan : BulkPlan) (good : Z → MutationReceipt → Prop).
Abbreviation n := (Z.of_nat (length (bp_items plan))).
Abbreviation done0 := (initial_done self).

(** The receipts of the log, by index: [done] is the same map for all of them. *)
Record log_ok (l : list bulk_event) : Prop := {
  l_order : StronglySorted Z.lt (submitted l);
  l_range i : i ∈ submitted l → 0 <= i < n ∧ done0 !! i = None;
  l_bounded : bounded (be_parallelism self) 0 l;
  l_calm : calm false l;
  l_emitted : bir_index <$> emitted l = seqZ 0 (Z.of_nat (length (emitted l)));
  l_done : ∃ done : gmap Z BulkItemReceipt,
    (∀ i r, done !! i = Some r →
       bir_index r = i ∧ good i (bir_receipt r) ∧ (done0 !! i = Some r ∨ done0 !! i = None ∧ i ∈ settled l)) ∧
    Forall (λ r, done !! bir_index r = Some r) (emitted l) ∧
    Forall (ck_ok plan done) (persisted l)
}.

Lemma log_ok_nil : log_ok [].
Proof.
  split; try done; [constructor|by intros i ?%elem_of_nil|]. exists ∅.
  split; [by intros i r; rewrite lookup_empty|]. split; by apply Forall_nil.
Qed.

Lemma receipts_index (done : gmap Z BulkItemReceipt) k :
  (∀ i r, done !! i = Some r → bir_index r = i) → (∀ i, 0 <= i < k → is_Some (done !! i)) →
  bir_index <$> omap (λ i, done !! i) (seqZ 0 k) = seqZ 0 k.
Proof.
  intros Hix Hall. apply omap_lookup_index; [done|]. intros i Hi%elem_of_seqZ. apply Hall. lia.
Qed.

Lemma prefix_index (l rest : list BulkItemReceipt) k :
  bir_index <$> (l ++ rest) = seqZ 0 k → bir_index <$> l = seqZ 0 (Z.of_nat (length l)).
Proof.
  intros H. assert (Hlen : (length l + length rest)%nat = Z.to_nat k).
  { rewrite <- length_app, <- (length_fmap bir_index), H. apply length_seqZ. }
  rewrite fmap_app in H. assert (Hk : seqZ 0 k = seqZ 0 (Z.of_nat (length l)) ++ seqZ (0 + Z.of_nat (length l)) (Z.of_nat (length rest))).
  { rewrite <- seqZ_app by lia. destruct (decide (0 <= k)); [f_equal; lia|].
    by rewrite !seqZ_nil by lia. }
  rewrite Hk in H. apply app_inj_1 in H as [? _]; [done|]. rewrite length_fmap, length_seqZ. lia.
Qed.

Lemma bad_log p fl l : bad self plan good p fl l → log_ok l.
Proof.
  intros [[limbo Hc] [rest (Hpos & Hall & Hem)]].
  assert (Hidx : bir_index <$> receipts_upto p = seqZ 0 (next_emit p)).
  { apply receipts_index; [intros; by eapply c_index|done]. }
  assert (Hin : ∀ i, i ∈ submitted l → i ∈ fl ∨ i ∈ settled l).
  { intros i. rewrite (c_submitted _ _ _ _ _ _ _ Hc), elem_of_app. tauto. }
  split; try apply Hc.
  - eapply StronglySorted_app_1_l, Hc.
  - intros i Hi. split; [|eapply (c_new _ _ _ _ _ _ _ Hc); set_solver].
    apply Hc. destruct (Hin i Hi) as [?|Hs]; [auto|]. apply (c_recorded _ _ _ _ _ _ _ Hc) in Hs. tauto.
  - rewrite Hem in Hidx. by eapply prefix_index.
  - exists (completed p). split_and!.
    + intros i r Hr. destruct (c_index _ _ _ _ _ _ _ Hc i r Hr) as [? ?]. split_and!; [done..|].
      destruct (done0 !! i) as [r'|] eqn:E0.
      * left. rewrite <- E0. pose proof (lookup_weaken _ _ _ _ E0 (c_init _ _ _ _ _ _ _ Hc)). congruence.
      * right. split; [done|]. destruct (c_settled _ _ _ _ _ _ _ Hc i) as [Hs|?]; [by eexists| |done].
        rewrite E0 in Hs. by destruct Hs.
    + apply Forall_forall. intros r Hr. assert (Hr' : r ∈ receipts_upto p) by (rewrite Hem; set_solver).
      apply list_elem_of_omap in Hr' as (i & _ & Hi). by rewrite (proj1 (c_index _ _ _ _ _ _ _ Hc i r Hi)).
    + apply Hc.
Qed.
End log.

(** ** The start of a run *)

Lemma seqZ_sorted m k : StronglySorted Z.lt (seqZ m (Z.of_nat k)).
Proof.
  revert m. induction k as [|k IH]; intros m; [constructor|]. rewrite seqZ_cons by lia.
  replace (Z.pred (Z.of_nat (S k))) with (Z.of_nat k) by lia. constructor; [done|].
  apply Forall_forall. intros i Hi%elem_of_seqZ. lia.
Qed.

Lemma filter_sorted (P : Z → Prop) `{!∀ x, Decision (P x)} (l : list Z) :
  StronglySorted Z.lt l → StronglySorted Z.lt (filter P l).
Proof.
  induction 1 as [|x l Hs IH Hx]; [constructor|]. rewrite filter_cons. case_decide; [|done].
  constructor; [done|]. rewrite !Forall_forall in *. intros y [_ Hy]%list_elem_of_filter. auto.
Qed.

Section start.
Context {W : Type} `{!BulkEnv W}.
Variables (is_async : bool) (self : BulkExecutor) (plan : BulkPlan) (good : Z → MutationReceipt → Prop).
Abbreviation n := (Z.of_nat (length (bp_items plan))).

Hypothesis par_pos : 1 <= be_parallelism self.
Hypothesis checkpoint_ok : ∀ c, be_checkpoint self = Some c → checkpoint_made c.

Lemma initial_done_spec i r :
  initial_done self !! i = Some r →
  ∃ c, be_checkpoint self = Some c ∧ r ∈ bc_item_receipts c ∧ bir_index r = i.
Proof.
  unfold initial_done. destruct (be_checkpoint self) as [c|]; [|by rewrite lookup_empty].
  intros H%elem_of_list_to_map_2. apply list_elem_of_fmap in H as (r' & [= -> ->] & Hr). eauto.
Qed.

Lemma initial_range i r :
  _validate_plan plan (be_checkpoint self) = Ok tt → initial_done self !! i = Some r →
  0 <= i < n ∧ item_at plan i = Ok (mr_target (bir_receipt r)).
Proof.
  intros Hv (c & Hck & Hr & <-)%initial_done_spec. destruct (checkpoint_ok c Hck) as [Hmk Hpos].
  apply make_checkpoint_iff in Hmk as (_ & _ & Hlt). rewrite Hck in Hv.
  unfold _validate_plan in Hv. apply bind_ok in Hv as (? & _ & Hv). apply bind_ok in Hv as (? & Hplan & Hv).
  case_bool_decide as Hp; [|by apply raise_new_ok in Hplan].
  rewrite Forall_forall in Hlt. rewrite Forall_forall in Hpos. rewrite <- Hp. split; [auto|]. rewrite Hp. clear -Hv Hr.
  induction (bc_item_receipts c) as [|r' rs IH]; [by apply elem_of_nil in Hr|]. cbn in Hv.
  apply bind_ok in Hv as (item & Hitem & Hv). apply bind_ok in Hv as ([] & Ht & Hv).
  case_bool_decide as Hb; [|by apply raise_new_ok in Ht].
  apply elem_of_cons in Hr as [->|Hr]; [by rewrite Hb|]. by apply IH.
Qed.

Hypothesis initial_good : ∀ i r,
  _validate_plan plan (be_checkpoint self) = Ok tt → initial_done self !! i = Some r → good i (bir_receipt r).

Lemma initial_inv stop error :
  _validate_plan plan (be_checkpoint self) = Ok tt →
  inv self plan good [] []
    {| completed := initial_done self; pending := initial_pending self plan; p_stop_reason := stop;
       p_budget_error := error; p_item_budget_error := None; dispatches := 0; next_emit := 0;
       last_persisted_count := -1; last_persisted_stop_reason := None |} [] [].
Proof.
  intros Hv.
  assert (Hpend : ∀ i, i ∈ initial_pending self plan ↔ 0 <= i < n ∧ initial_done self !! i = None).
  { intros i. unfold initial_pending. rewrite list_elem_of_filter, elem_of_seqZ. split; intros [? ?]; split; try done; lia. }
  split; [|split].
  - split; cbn [completed pending dispatches submitted settled persisted omap list_omap app]; try done.
    + intros i. rewrite Hpend, !elem_of_nil. destruct (initial_done self !! i) as [r|] eqn:Er.
      * split; [right; right; right; by eexists|]. intros _. by eapply initial_range.
      * split; [by left|]. intros [[? _]|[[]|[[]|[? [=]]]]]. done.
    + intros i. rewrite Hpend, !elem_of_nil. tauto.
    + by intros i ?%elem_of_nil.
    + by apply NoDup_nil.
    + apply filter_sorted, seqZ_sorted.
    + intros i Hi. by apply Hpend.
    + intros i r Hr. split; [|by eapply initial_good]. by apply initial_done_spec in Hr as (? & _ & _ & ?).
    + intros i Hi. by left.
    + by intros i ?%elem_of_nil.
    + cbn. lia.
  - split; [cbn; lia|]. split; [cbn; lia|done].
  - intros [=].
Qed.
End start.

(** ** The end of a run *)
Section finish.
Context {W : Type} `{!BulkEnv W}.
Variables (is_async : bool) (self : BulkExecutor) (plan : BulkPlan) (good : Z → MutationReceipt → Prop).
Abbreviation n := (Z.of_nat (length (bp_items plan))).
Abbreviation done0 := (initial_done self).
Abbreviation inv := (inv self plan good [] []).

Lemma outcomes_bound (done : gmap Z BulkItemReceipt) :
  count_outcome "succeeded" done + count_outcome "failed" done + count_outcome "skipped" done <= Z.of_nat (size done).
Proof.
  unfold count_outcome. rewrite <- length_map_to_list. generalize (map_to_list done). intros l.
  induction l as [|[i r] l IH]; [done|]. rewrite !filter_cons. cbn [snd].
  repeat case_decide; cbn [length]; try congruence; lia.
Qed.

(** Everything dispatched is recorded, and nothing else but what the
    checkpoint held. *)
Lemma completed_size p l : core self plan good [] p [] l → count_completed p = Z.of_nat (size done0) + dispatches p.
Proof.
  intros Hc. unfold count_completed. rewrite (c_count _ _ _ _ _ _ _ Hc).
  assert (Hsub : submitted l ≡ₚ settled l) by apply (c_submitted _ _ _ _ _ _ _ Hc).
  assert (Hnd : NoDup (submitted l)).
  { apply strictly_sorted_iff. eapply StronglySorted_app_1_l, Hc. }
  rewrite <- !size_dom. rewrite <- (size_list_to_set (C := gset Z) (submitted l)) by done.
  rewrite <- Nat2Z.inj_add, <- size_union.
  - f_equal. f_equal. apply set_eq. intros i. rewrite elem_of_union, !elem_of_dom, elem_of_list_to_set, Hsub. split.
    + apply Hc.
    + intros [Hi|Hi]; [destruct Hi as [r Hr]; exists r; eapply lookup_weaken; [exact Hr|apply Hc]|].
      apply (c_recorded _ _ _ _ _ _ _ Hc) in Hi as [Hi%elem_of_nil|?]; done.
  - intros i. rewrite elem_of_dom, elem_of_list_to_set. intros [r Hr] Hi.
    rewrite (c_new _ _ _ _ _ _ _ Hc i) in Hr; [done|set_solver].
Qed.

Lemma completed_le p fl l limbo : core self plan good limbo p fl l → count_completed p <= n.
Proof.
  intros Hc. unfold count_completed. rewrite <- size_dom.
  assert (Hsub : dom (completed p) ⊆ list_to_set (seqZ 0 n)).
  { intros i Hi%elem_of_dom. rewrite elem_of_list_to_set, elem_of_seqZ.
    assert (0 <= i < n) by (apply Hc; auto). lia. }
  apply subseteq_size in Hsub. rewrite size_list_to_set, length_seqZ in Hsub by apply NoDup_seqZ. lia.
Qed.

(** What the log of a run that ended says, with its summary. *)
Record final (l : list bulk_event) (sm : BulkSummary) : Prop := {
  f_total : s_total sm = n;
  f_dispatches : s_dispatches sm = Z.of_nat (length (submitted l));
  f_settled : s_settled sm = Z.of_nat (size done0) + s_dispatches sm;
  f_outstanding : s_outstanding sm = n - s_settled sm ∧ 0 <= s_outstanding sm;
  f_no_loss : settled l ≡ₚ submitted l;
  f_outcomes : s_succeeded sm + s_failed sm + s_skipped sm <= s_settled sm;
  f_prefix : let k := Z.of_nat (length (emitted l)) in
    bir_index <$> emitted l = seqZ 0 k ∧ done0 !! k = None ∧ k ∉ settled l;
  f_completed : s_state sm = "completed" → s_outstanding sm = 0 ∧ Z.of_nat (length (emitted l)) = n
}.

Lemma final_intro p l sm :
  inv p [] l → ended p [] → drained p → summary_of plan p sm → final (l ++ [Yielded (Summary sm)]) sm.
Proof.
  intros (Hc & (Hpos & Hall & Hem) & _) [_ Hend] Hdrained [].
  pose proof (completed_size p l Hc) as Hsize. pose proof (completed_le _ _ _ _ Hc) as Hle.
  rewrite app_nil_r in Hem.
  assert (Hidx : bir_index <$> emitted l = seqZ 0 (next_emit p)).
  { rewrite <- Hem. apply receipts_index; [intros; by eapply c_index|done]. }
  assert (Hlen : Z.of_nat (length (emitted l)) = next_emit p).
  { apply (f_equal length) in Hidx. rewrite length_fmap, length_seqZ in Hidx. lia. }
  assert (Hnone : ∀ i, completed p !! i = None → done0 !! i = None ∧ i ∉ settled l).
  { intros i Hi. split.
    - destruct (done0 !! i) eqn:E0; [|done]. pose proof (lookup_weaken _ _ _ _ E0 (c_init _ _ _ _ _ _ _ Hc)). congruence.
    - intros Hs. apply (c_recorded _ _ _ _ _ _ _ Hc) in Hs as [Hs%elem_of_nil|[? Hs]]; [done|congruence]. }
  split; rewrite ?submitted_app, ?settled_app, ?emitted_app; cbn [submitted settled emitted omap list_omap app];
    rewrite ?app_nil_r; try done.
  - by rewrite sm_dispatches, (c_count _ _ _ _ _ _ _ Hc).
  - lia.
  - lia.
  - by rewrite (c_submitted _ _ _ _ _ _ _ Hc).
  - rewrite sm_succeeded, sm_failed, sm_skipped, sm_settled. apply outcomes_bound.
  - cbn zeta. rewrite Hlen. split; [done|]. by apply Hnone.
  - intros [Hstop _]%sm_completed. destruct Hend as [Hend|Hend]; [|by rewrite Hstop in Hend; destruct Hend].
    assert (Hcov : ∀ i, 0 <= i < n ↔ is_Some (completed p !! i)).
    { intros i. rewrite (c_range _ _ _ _ _ _ _ Hc), Hend, !elem_of_nil. tauto. }
    assert (Hn : next_emit p = n).
    { apply Z.le_antisymm.
      - destruct (decide (next_emit p = 0)) as [|Hnz]; [lia|]. assert (0 <= next_emit p - 1 < n) by (apply Hcov, Hall; lia). lia.
      - apply Z.nlt_ge. intros Hlt. unfold drained in Hdrained.
        destruct (proj1 (Hcov (next_emit p))) as [? ?]; [lia|congruence]. }
    split; [|lia]. rewrite sm_outstanding.
    assert (Hsub : list_to_set (seqZ 0 n) ⊆ dom (completed p)).
    { intros i. rewrite elem_of_list_to_set, elem_of_seqZ, elem_of_dom. intros Hi. apply Hcov. lia. }
    apply subseteq_size in Hsub. rewrite size_list_to_set, length_seqZ, size_dom in Hsub by apply NoDup_seqZ.
    unfold count_completed in *. lia.
Qed.
End finish.

(** ** The run *)
Section run.
Context {W : Type} `{!BulkEnv W}.
Variables (is_async : bool) (self : BulkExecutor) (plan : BulkPlan) (good : Z → MutationReceipt → Prop).
Abbreviation n := (Z.of_nat (length (bp_items plan))).
Abbreviation done0 := (initial_done self).
Abbreviation inv := (inv self plan good [] []).

Hypothesis par_pos : 1 <= be_parallelism self.
Hypothesis checkpoint_ok : ∀ c, be_checkpoint self = Some c → checkpoint_made c.
Hypothesis result_good : ∀ i w r w', 0 <= i < n → env_result i w = (Ok r, w') → good i (ir_receipt r).
Hypothesis failure_good : ∀ i item r b,
  item_at plan i = Ok item → _failure_receipt plan item b = Ok r → good i r.
Hypothesis initial_good : ∀ i r,
  _validate_plan plan (be_checkpoint self) = Ok tt → done0 !! i = Some r → good i (bir_receipt r).
Hypothesis wait_progress : ∀ fl w done w', fl ≠ [] → env_wait fl w = (Ok done, w') → done ≠ [].

Abbreviation wb := (well_behaved W is_async plan (be_whole_run_budget self)).
Abbreviation fresh := (st (W := W) (λ _ _ l, l = [])).
(** A run that raises was refused by the plan check or not well behaved. *)
Abbreviation Elog := (λ (_ : exn) (s : bulk W),
  (_validate_plan plan (be_checkpoint self) = Ok tt → ¬ wb) ∧ log_ok self plan good (b_log s)).

Lemma fresh_keeps {A} (m : M (bulk W) A) : (wb → quiet m) → preserves fresh m → hoare fresh m (λ _, fresh) Elog.
Proof.
  intros Hq Hk s Hs. specialize (Hk s Hs). destruct (m s) as [[a|e] s'] eqn:Em; [done|]. split.
  - intros _ H. specialize (Hq H s). by rewrite Em in Hq.
  - cbn in Hk. unfold st in Hk. rewrite Hk. apply log_ok_nil.
Qed.

Lemma inv_triple {A} P (m : M (bulk W) A) Q :
  hoare P m Q (λ _ s, ¬ wb ∧ st (bad self plan good) s) → hoare P m Q Elog.
Proof.
  intros H. eapply hoare_conseq; [exact H|done..|]. cbn. intros _ s [? ?]. split; [by intros _|by eapply bad_log].
Qed.

(** The monitor of the run. *)
Section monitor.
Variable monitor : option DeadlineMonitor.
Hypothesis monitor_of : ∀ m, monitor = Some m → be_whole_run_budget self = Some (dm_budget m).

Lemma run_workers_total :
  hoare (st (λ p fl l, inv p fl l ∧ at_least 0 p fl l)) (run_workers is_async self plan (rounds plan) monitor)
    (λ b _, b = true) (λ _ _, True).
Proof.
  assert (Hloop : hoare (st (λ p fl l, inv p fl l ∧ at_least 0 p fl l))
    (try_except (consume is_async self plan (rounds plan) monitor)
       (λ e, if interrupts is_async e then Some (_drain is_async self plan;; throw e) else None))
    (λ b _, b = true) (λ _ _, True)).
  { eapply hoare_try.
    - eapply hoare_conseq; [by eapply (consume_ends is_async self plan monitor good)| | |done].
      + intros s [Hi _]. split; [exact Hi|]. unfold at_least, rounds. lia.
      + intros b s Hb. apply Hb. unfold rounds. lia.
    - intros e k. destruct (interrupts is_async e); [|done]. intros [= <-].
      intros s _. unfold mbind, M_bind, throw. by destruct (_drain is_async self plan s) as [[]].
    - done. }
  unfold run_workers. destruct is_async; [done|]. apply hoare_finally; [done| |].
  - intros b s Hb. by destruct (on_env env_shutdown s) as [[]].
  - intros e s _. by destruct (on_env env_shutdown s) as [[]].
Qed.

Lemma run_workers_ends :
  hoare (st inv) (run_workers is_async self plan (rounds plan) monitor)
    (λ _, st (λ p fl l, inv p fl l ∧ ended p fl)) Elog.
Proof.
  intros s Hs. pose proof (run_workers_rule is_async self plan monitor good monitor_of result_good failure_good par_pos
    (rounds plan) s Hs) as H1.
  pose proof (run_workers_total s (conj Hs (Nat.le_0_l _))) as H2.
  destruct (run_workers is_async self plan (rounds plan) monitor s) as [[b|e] s'].
  - destruct H1 as [Hi He]. split; auto.
  - destruct H1 as [? ?]. split; [by intros _|by eapply bad_log].
Qed.

Lemma bulk_progress_rule :
  _validate_plan plan (be_checkpoint self) = Ok tt →
  hoare fresh (_bulk_progress self plan monitor) (λ _, st (λ p _ l, inv p [] l)) Elog.
Proof.
  intros Hv. unfold _bulk_progress.
  eapply hoare_bind; [apply fresh_keeps; [by apply quiet_stop|apply stop_state_keeps]|]. intros [stop error].
  apply progress_triple. intros p fl l ->. by apply initial_inv.
Qed.
End monitor.

Lemma emit_ended :
  hoare (st (λ p fl l, inv p fl l ∧ ended p fl)) emit_ordered
    (λ _, st (λ p fl l, inv p fl l ∧ ended p fl ∧ drained p)) (λ _ s, ¬ wb ∧ st (bad self plan good) s).
Proof.
  assert (Hk : preserves (st (W := W) (λ p fl _, ended p fl)) emit_ordered).
  { unfold emit_ordered, ordered_receipts. apply preserves_bind.
    - apply preserves_bind; [apply preserves_read|]. intros p.
      apply preserves_bind; [by apply preserves_modify|intros; apply preserves_ret].
    - intros rs. induction rs as [|r rs IH]; cbn [yield_receipts]; [apply preserves_ret|].
      apply preserves_bind; [|done]. unfold yield_output.
      apply preserves_bind; [by apply preserves_modify|intros; apply env_keeps]. }
  intros s [Hi He]. pose proof (emit_ordered_triple is_async self plan good s Hi) as H1. specialize (Hk s He).
  destruct (emit_ordered s) as [[]]; [|exact H1]. destruct H1. by split_and!.
Qed.

Lemma run_monitor_rule :
  hoare fresh (_run_monitor self)
    (λ monitor s, (∀ m, monitor = Some m → be_whole_run_budget self = Some (dm_budget m)) ∧ fresh s) Elog.
Proof.
  intros s Hs. unfold _run_monitor, make_monitor, mbind, M_bind, clock_now, mret, M_ret.
  destruct (be_whole_run_budget self) as [b|]; [|done].
  pose proof (clock_keeps (λ _ _ l, l = []) s Hs) as Hk. destruct (clock s) as [t s'].
  split; [|exact Hk]. by intros m [= <-].
Qed.

Lemma stream_rule :
  hoare fresh (stream is_async self plan)
    (λ _ s, ∃ l sm, b_log s = l ++ [Yielded (Summary sm)] ∧ b_in_flight s = [] ∧
       final self plan (b_log s) sm ∧ log_ok self plan good (b_log s)) Elog.
Proof.
  unfold stream. eapply hoare_bind with (R := λ _ s, _validate_plan plan (be_checkpoint self) = Ok tt ∧ fresh s).
  { apply hoare_lift; [by intros s []|]. intros s e Hs Hv. unfold st in Hs. rewrite Hs, Hv.
    split; [done|apply log_ok_nil]. }
  intros ?. apply hoare_pure. intros Hv.
  eapply hoare_bind; [apply fresh_keeps; [intros _; apply quiet_clock|apply clock_now_keeps, clock_keeps]|]. intros started.
  eapply hoare_bind; [apply run_monitor_rule|]. intros monitor. apply hoare_pure. intros Hmon.
  eapply hoare_bind; [by apply bulk_progress_rule|]. intros ?.
  eapply hoare_bind with (R := λ _, st inv); [by apply in_flight_triple|]. intros ?.
  eapply hoare_bind; [apply inv_triple, emit_ordered_triple|]. intros ?.
  eapply hoare_bind with (R := λ _, st (λ p fl l, inv p fl l ∧ ended p fl)).
  { eapply hoare_conseq; [apply (run_workers_ends monitor Hmon)| |done|done]. by intros s [Hs _]. }
  intros ?. eapply hoare_bind; [by apply inv_triple, finish_progress_rule|]. intros ?.
  eapply hoare_bind; [by apply inv_triple, emit_ended|]. intros ?.
  eapply hoare_bind.
  { apply inv_triple, (terminal_summary_rule is_async self plan monitor good Hmon); [intros p fl l (Hi & _); by eapply inv_bad|].
    intros p fl l ((Hc & _) & _). by eapply completed_le. }
  intros sm. unfold yield_output. eapply hoare_bind with (R := λ _ s, ∃ l, b_log s = l ++ [Yielded (Summary sm)] ∧
    b_in_flight s = [] ∧ final self plan (b_log s) sm ∧ log_ok self plan good (b_log s)).
  - apply hoare_modify. intros s ((Hi & Hend & Hdr) & Hsm). exists (b_log s). cbn [b_log b_in_flight].
    pose proof Hend as [Hfl _]. split_and!; [done..| |].
    + rewrite Hfl in Hi, Hend. by eapply final_intro.
    + eapply bad_log, inv_bad. destruct Hi as (Hc & He & Hs). split_and!; [by apply core_quiet|by apply emits_other|].
      unfold stopped_after_cancel. by rewrite cancel_seen_app, orb_false_r.
  - intros ?. intros s (l & Hs). unfold on_env. destruct (env_yield (Summary sm) (b_world s)) as [[]] eqn:Ey; cbn.
    + naive_solver.
    + split; [|by apply Hs]. intros _ H. pose proof (wb_yield _ _ _ H (Summary sm) (b_world s)) as Hy. by rewrite Ey in Hy.
Qed.
End run.

(** ** Executors *)

(** An executor its constructor built, from a policy and a checkpoint theirs did. *)
Definition executor_made (self : BulkExecutor) : Prop :=
  ∃ policy checkpoint platform item per_item whole,
    (∀ p, policy = Some p → 1 <= max_parallelism p) ∧ (∀ c, checkpoint = Some c → checkpoint_made c) ∧
    make_bulk_executor policy checkpoint platform item per_item whole = Ok self.

Lemma executor_made_wf self :
  executor_made self →
  1 <= be_parallelism self <= 32 ∧ ∀ c, be_checkpoint self = Some c → checkpoint_made c.
Proof.
  intros (policy & ck & pm & ib & pib & whole & Hp & Hck & H). unfold make_bulk_executor in H.
  apply bind_ok in H as ([[p' item] whole'] & Hd & H). apply bind_ok in H as (par & Hpar & [= <-]). cbn.
  split; [|done]. assert (Hp' : 1 <= max_parallelism p').
  { unfold _validated_dependencies in Hd. inv_ok. destruct policy as [p0|].
    - inv_ok. auto.
    - match goal with H : make_bulk_policy _ _ _ _ _ = Ok _ |- _ => vm_compute in H; injection H as <- end. done. }
  unfold _parallelism in Hpar. inv_ok. qbool. lia.
Qed.

(** Resuming from a checkpoint. *)
Lemma validate_targets_ok plan rs :
  Forall (λ r, item_at plan (bir_index r) = Ok (mr_target (bir_receipt r))) rs → validate_targets plan rs = Ok tt.
Proof.
  induction 1 as [|r rs Hr _ IH]; [done|]. cbn [validate_targets]. rewrite Hr. cbn [mbind result_bind].
  by rewrite bool_decide_eq_true_2.
Qed.

Lemma initial_done_lookup self c r :
  executor_made self → be_checkpoint self = Some c → r ∈ bc_item_receipts c →
  initial_done self !! bir_index r = Some r.
Proof.
  intros [_ Hck]%executor_made_wf Hc Hr. destruct (Hck c Hc) as [Hmk _].
  apply make_checkpoint_iff in Hmk as (_ & Hsort & _). apply strictly_sorted_iff in Hsort as [_ Hnd].
  unfold initial_done. rewrite Hc. apply elem_of_list_to_map_1.
  - by rewrite <- list_fmap_compose.
  - apply list_elem_of_fmap. by exists r.
Qed.

(** ** The contract *)
Section contract.
Context {W : Type} `{!BulkEnv W}.

(** [wait(.., FIRST_COMPLETED)] without a timeout returns at least one future. *)
Definition wait_progress : Prop := ∀ fl (w : W) ds w', fl ≠ [] → env_wait fl w = (Ok ds, w') → ds ≠ [].

(** What [stream_rule] says when nothing is asked of the receipts. *)
Lemma any_stream is_async self plan :
  executor_made self → wait_progress →
  hoare (λ s : bulk W, b_log s = []) (stream is_async self plan)
    (λ _ s, ∃ l sm, b_log s = l ++ [Yielded (Summary sm)] ∧ b_in_flight s = [] ∧
       final self plan (b_log s) sm ∧ log_ok self plan (λ _ _, True) (b_log s))
    (λ _ s, (_validate_plan plan (be_checkpoint self) = Ok tt →
             ¬ well_behaved W is_async plan (be_whole_run_budget self)) ∧
            log_ok self plan (λ _ _, True) (b_log s)).
Proof. intros [[Hpar _] Hck]%executor_made_wf Hw. by apply stream_rule. Qed.

Lemma bulk_safe_log is_async self plan (s : bulk W) :
  executor_made self → wait_progress → b_log s = [] →
  log_ok self plan (λ _ _, True) (b_log (stream is_async self plan s).2).
Proof.
  intros Hmade Hw Hs. pose proof (any_stream is_async self plan Hmade Hw s Hs) as H.
  destruct (stream is_async self plan s) as [[u|e] s']; [|apply H]. by destruct H as (l & sm & _ & _ & _ & H).
Qed.

(** C1: whatever the workers, the clock, the sink and the consumer do, a bulk
    run dispatches the items of the plan in order and each at most once, none of
    those its checkpoint holds, at most [be_parallelism] at a time (which is at
    most 32), none after a checkpoint that says the run was cancelled; it yields
    the receipts of items 0, 1, 2, .. in order; every checkpoint it persists is one
    of the plan, sorted, and agrees with the other checkpoints and with what is
    yielded; and a receipt is either the checkpoint's or one of an item that
    settled in this run.  All this holds of what the run did before it raised, too. *)
Theorem bulk_stream_safe is_async self plan (s : bulk W) :
  executor_made self → wait_progress → b_log s = [] →
  be_parallelism self <= 32 ∧ log_ok self plan (λ _ _, True) (b_log (stream is_async self plan s).2).
Proof.
  intros Hmade Hw Hs. pose proof (executor_made_wf self Hmade) as [Hpar _]. split; [lia|by apply bulk_safe_log].
Qed.

(** C2: a bulk run over a well-behaved environment, of a plan and a checkpoint
    that pass the plan check, returns; the last thing it yields is a summary whose
    counts add up to the plan and to what was dispatched and resumed, with every
    dispatched item settled and no item in flight; the receipts yielded are all
    those before the first unsettled item; and when the summary says "completed"
    nothing is outstanding and the receipt of every item has been yielded. *)
Theorem bulk_stream_summary is_async self plan (s : bulk W) :
  executor_made self → wait_progress → b_log s = [] →
  _validate_plan plan (be_checkpoint self) = Ok tt →
  well_behaved W is_async plan (be_whole_run_budget self) →
  ∃ s' l sm, stream is_async self plan s = (Ok tt, s') ∧ b_in_flight s' = [] ∧
    b_log s' = l ++ [Yielded (Summary sm)] ∧ final self plan (b_log s') sm.
Proof.
  intros Hmade Hw Hs Hv Hwb. pose proof (any_stream is_async self plan Hmade Hw s Hs) as H.
  destruct (stream is_async self plan s) as [[[]|e] s'].
  - destruct H as (l & sm & Hl & Hf & Hfin & _). by exists s', l, sm.
  - destruct H as [H _]. by destruct (H Hv).
Qed.

(** C3: when every worker's receipt is for the item it was given, each
    checkpoint a run persists is one the same plan can be resumed from: the plan
    check accepts it, and a run resumed from it dispatches none of the items it
    holds, and yields for them the receipts it holds. *)
Theorem bulk_resume is_async self plan (s : bulk W) c :
  executor_made self → wait_progress → b_log s = [] →
  _validate_plan plan None = Ok tt →
  (∀ i w r w', 0 <= i < Z.of_nat (length (bp_items plan)) → env_result i w = (Ok r, w') →
     item_at plan i = Ok (mr_target (ir_receipt r))) →
  c ∈ persisted (b_log (stream is_async self plan s).2) →
  _validate_plan plan (Some c) = Ok tt ∧ checkpoint_made c ∧
  ∀ self', executor_made self' → be_checkpoint self' = Some c → ∀ s2 : bulk W, b_log s2 = [] →
    let l := b_log (stream is_async self' plan s2).2 in
    ∀ r, r ∈ bc_item_receipts c →
      bir_index r ∉ submitted l ∧ ∀ r', r' ∈ emitted l → bir_index r' = bir_index r → r' = r.
Proof.
  intros Hmade Hw Hs Hdup Hres Hc. set (good := λ i r, item_at plan i = Ok (mr_target r)).
  assert (Hlog : log_ok self plan good (b_log (stream is_async self plan s).2)).
  { pose proof (executor_made_wf self Hmade) as [[Hpar _] Hck].
    pose proof (stream_rule is_async self plan good Hpar Hck Hres) as H.
    assert (Hf : ∀ i item r b, item_at plan i = Ok item → _failure_receipt plan item b = Ok r → good i r).
    { intros i item r b Hi Hr. unfold good. rewrite Hi. f_equal. unfold _failure_receipt, make_mutation_receipt in Hr.
      by inv_ok. }
    specialize (H Hf). specialize (H (λ i r Hv Hi, proj2 (initial_range self plan Hck i r Hv Hi)) Hw s Hs).
    destruct (stream is_async self plan s) as [[u|e] s']; [|apply H]. by destruct H as (l & sm & _ & _ & _ & H). }
  destruct (l_done _ _ _ _ Hlog) as (done & Hdone & _ & Hall). rewrite Forall_forall in Hall.
  specialize (Hall c Hc) as []. rewrite Forall_forall in ck_done. split_and!.
  - assert (Hd : duplicates [] (bp_items plan) = []).
    { unfold _validate_plan in Hdup. apply bind_ok in Hdup as (? & Hdup & _).
      destruct (duplicates [] (bp_items plan)); [done|]. by apply raise_new_ok in Hdup. }
    unfold _validate_plan. rewrite Hd. cbn [mbind result_bind]. rewrite bool_decide_eq_true_2 by done. apply validate_targets_ok, Forall_forall. intros r Hr.
    by apply (Hdone _ _ (ck_done r Hr)).
  - split; [|eapply Forall_impl; [exact ck_range|]; cbn; lia]. apply make_checkpoint_iff.
    split; [by destruct c|]. split; [done|]. rewrite ck_plan. eapply Forall_impl; [exact ck_range|]. cbn. lia.
  - intros self' Hmade' Hck' s2 Hs2. cbn zeta. intros r Hr.
    destruct (bulk_safe_log is_async self' plan s2 Hmade' Hw Hs2) as [].
    assert (H0 : initial_done self' !! bir_index r = Some r) by by eapply initial_done_lookup.
    split; [intros Hin; destruct (l_range0 _ Hin) as [_ Hn]; congruence|].
    destruct l_done0 as (done' & Hdone' & Hem & _). rewrite Forall_forall in Hem. intros r' Hr' Hi.
    specialize (Hem r' Hr'). destruct (Hdone' _ _ Hem) as (_ & _ & H'). rewrite Hi in H'.
    destruct H' as [H'|[H' _]]; congruence.
Qed.
End contract.

(** ** Witnesses

    Three items on two workers; the youngest future is done first, the worker
    of item 1 raises. *)

Definition bulk_target (v : string) : CatalogId :=
  {| id_platform := {| platform_value := "ckan" |}; id_resource_kind := {| kind_value := "dataset" |}; id_value := v |}.
Definition bulk_plan : BulkPlan :=
  {| bp_operation := "ckan/datasets.update"; bp_items := [bulk_target "a"; bulk_target "b"; bulk_target "c"];
     bp_preview := false; bp_atomicity := "independent"; bp_cancellation_requested := false;
     bp_resumption_cursor := None |}.
Definition bulk_receipt (i : Z) : MutationReceipt :=
  {| mr_operation := "ckan/datasets.update"; mr_outcome := "succeeded";
     mr_target := match bp_items bulk_plan !! Z.to_nat i with Some t => t | None => bulk_target "" end;
     mr_version_token := None; mr_request_id := None; mr_atomicity := "independent";
     mr_operation_atomicity := "independent"; mr_audit_metadata := [] |}.
Definition bulk_policy : BulkExecutionPolicy :=
  {| bep_atomicity := Independent; native_atomic_available := false; max_parallelism := 2;
     bep_cancellation_requested := false; checkpoint_required := true |}.
Definition bulk_executor (c : option BulkCheckpoint) : BulkExecutor :=
  {| be_policy := bulk_policy; be_item_budget := None; be_whole_run_budget := None; be_checkpoint := c;
     be_parallelism := 2 |}.

#[local] Instance bulk_sample_clock : Clocked nat := λ t, (Z.of_nat t # 1, S t)%Q.
#[local] Instance bulk_sample_env : BulkEnv nat := {|
  env_cancelled w := (false, w);
  env_wait fl w := (match fl with [] => Raise (err ValueError "no futures") | [i] => Ok [i] | _ :: i :: _ => Ok [i] end, w);
  env_wait_all fl w := (Ok tt, w);
  env_shutdown w := (Ok tt, w);
  env_result i w := (if i =? 1 then Raise (err ValueError "refused")
                     else Ok {| ir_receipt := bulk_receipt i; ir_budget_error := None |}, w);
  env_sink c w := (Ok false, w);
  env_yield o w := (Ok tt, w)
|}.

Definition empty_progress : _BulkProgress :=
  {| completed := ∅; pending := []; p_stop_reason := None; p_budget_error := None; p_item_budget_error := None;
     dispatches := 0; next_emit := 0; last_persisted_count := -1; last_persisted_stop_reason := None |}.
Definition bulk_start : bulk nat := Bulk 0%nat empty_progress [] [].
Abbreviation bulk_run c := (stream false (bulk_executor c) bulk_plan bulk_start).

Lemma bulk_executor_made : executor_made (bulk_executor None).
Proof. exists (Some bulk_policy), None, 8, None, None, None. split; [by intros p [= <-]|]. by split. Qed.

Lemma bulk_wait_progress : wait_progress (W := nat).
Proof. by intros [|i [|j fl]] w ds w' ? [= <- _]. Qed.

Lemma bulk_well_behaved b : (∀ x, b = Some x → budget_wf x) → well_behaved nat false bulk_plan b.
Proof.
  intros Hb. split; try done.
  - intros c w. by exists false.
  - intros [|i [|j fl]] w Hne; [done|..]; (eexists; split; [reflexivity|]; split; [apply NoDup_singleton|]);
      intros k ->%list_elem_of_singleton; set_solver.
  - intros i w e. cbn. by destruct (i =? 1); intros [= <-].
Qed.

Lemma bulk_stream_safe_witness :
  submitted (b_log (bulk_run None).2) = [0; 1; 2] ∧
  bounded 2 0 (b_log (bulk_run None).2) ∧
  (λ r, (bir_index r, mr_outcome (bir_receipt r))) <$> emitted (b_log (bulk_run None).2) =
    [(0, "succeeded"); (1, "failed"); (2, "succeeded")].
Proof.
  split; [vm_compute; reflexivity|]. split; [|vm_compute; reflexivity].
  exact (l_bounded _ _ _ _ (proj2 (bulk_stream_safe false (bulk_executor None) bulk_plan bulk_start bulk_executor_made
    bulk_wait_progress eq_refl))).
Defined.

Lemma bulk_stream_summary_witness :
  ∃ sm, List.last (b_log (bulk_run None).2) (Submitted 0) = Yielded (Summary sm) ∧
    s_total sm = 3 ∧ s_dispatches sm = 3 ∧ s_settled sm = 3.
Proof.
  destruct (bulk_stream_summary false (bulk_executor None) bulk_plan bulk_start bulk_executor_made
    bulk_wait_progress eq_refl ltac:(vm_compute; reflexivity) (bulk_well_behaved None (λ _ H, ltac:(discriminate H))))
    as (s' & l & sm & Hrun & _ & Hlog & [Ht Hd Hs _ _ _ _ _]).
  assert (Es : s' = (bulk_run None).2) by (rewrite Hrun; reflexivity).
  assert (En : length (submitted (b_log s')) = 3%nat) by (rewrite Es; vm_compute; reflexivity).
  rewrite En in Hd. exists sm. rewrite <- Es, Hlog. split; [apply List.last_last|].
  split; [exact Ht|]. split; [exact Hd|]. rewrite Hs, Hd. reflexivity.
Defined.

(** The checkpoint of the first settled item, and a run resumed from it. *)
Definition first_checkpoint : option BulkCheckpoint := persisted (b_log (bulk_run None).2) !! 0%nat.

Lemma bulk_resume_witness :
  match first_checkpoint with
  | Some c => _validate_plan bulk_plan (Some c) = Ok tt ∧ (bir_index <$> bc_item_receipts c) = [1]
  | None => False
  end.
Proof.
  destruct first_checkpoint as [c|] eqn:Ec; [|vm_compute in Ec; discriminate Ec].
  assert (Hc : c ∈ persisted (b_log (bulk_run None).2)) by exact (list_elem_of_lookup_2 _ 0%nat c Ec).
  split.
  - refine (proj1 (bulk_resume false (bulk_executor None) bulk_plan bulk_start c bulk_executor_made
      bulk_wait_progress eq_refl ltac:(vm_compute; reflexivity) _ Hc)).
    intros i w r w' Hi Hr. cbn in Hr. destruct (i =? 1); [discriminate Hr|]. injection Hr as <- _.
    cbn in Hi. assert (Hcase : i = 0 \/ i = 1 \/ i = 2) by lia. destruct Hcase as [-> |[-> | ->]]; reflexivity.
  - vm_compute in Ec. injection Ec as <-. reflexivity.
Defined.
