(* ===== verification/OAuth.v ===== *)
(** * OAuth token flows

    [runtime/oauth.py] and, of [domain/catalog/auth.py], secrets, flow
    descriptors and the resolution of credentials: requests to the token
    endpoint, the decoding of its answers, the client-credentials and the
    authorization-code flow, and the provider that refreshes a credential
    behind a circuit breaker.  The transport, the clocks, the randomness, the
    coding of form fields and the digest of a PKCE verifier are the
    environment; the synchronous and the asynchronous methods run the same
    steps. *)
From Stdlib Require Import QArith ZArith Ascii.
From stdpp Require Import strings gmap.
From S2P Require Import Prelude PyVal Policies Errors Transport Resilience Breaker Urls JsonText StateStore Profiles Events Clients.
Import Deadline.
Local Close Scope Q_scope.
Local Open Scope Z_scope.
Local Open Scope py_scope.

(** ** Secrets and discovered credentials *)

Record SecretValue := { reveal : string }.
Definition make_secret (value : string) : result SecretValue :=
  raise_if (negb (str_nonempty value)) (err ValueError "Credential secret values must be non-empty strings.");;
  Ok {| reveal := value |}.
Definition secret_text (s : SecretValue) : string := "***".

Inductive CredentialSource := ENVIRONMENT | KEYCHAIN | SECRET_MANAGER.
#[global] Instance CredentialSource_eq_dec : EqDecision CredentialSource.
Proof. solve_decision. Defined.
(** The order of the enumeration *)
Definition credential_sources : list CredentialSource := [ENVIRONMENT; KEYCHAIN; SECRET_MANAGER].

(** [CredentialResolver.resolve]: [enabled] is the policy's set, empty without
    a policy; [discovered] the mapping. *)
Definition resolve_credential {A} (explicit : option A) (discovered : CredentialSource → option A) (enabled : list CredentialSource)
    : option A :=
  match explicit with
  | Some c => Some c
  | None => head (omap (λ s, if bool_decide (s ∈ enabled) then discovered s else None) credential_sources)
  end.

(** ** Flow descriptors *)

Record OAuthFlow := {
  authorization_endpoint : string; token_url : string; client_id : string; scopes : gset string;
  supports_refresh : bool; redirect_uri : option string
}.

Section flow.
Context `{IpLiterals}.

Definition https_uri (e : exn) (value : string) : result unit :=
  parsed ← urlsplit value;
  raise_if (negb (bool_decide (scheme parsed = "https")) || negb (str_nonempty (netloc parsed)) ||
            opt_truthy (username parsed) || opt_truthy (password parsed)) e.

Definition make_oauth_flow (authorization token client : string) (granted : gset string) (refresh : bool) (redirect : option string)
    : result OAuthFlow :=
  https_uri (err ValueError "OAuth authorization URL must be a sanitized HTTPS URI.") authorization;;
  https_uri (err ValueError "OAuth token URL must be a sanitized HTTPS URI.") token;;
  match redirect with
  | Some uri => https_uri (err ValueError "OAuth redirect URI must be a sanitized HTTPS URI.") uri
  | None => Ok tt
  end;;
  raise_if (negb (str_nonempty client)) (err ValueError "OAuth client IDs must be non-empty strings.");;
  raise_if (bool_decide ("" ∈ granted)) (err ValueError "OAuth scopes must be immutable non-empty strings.");;
  Ok {| authorization_endpoint := authorization; token_url := token; client_id := client; scopes := granted;
        supports_refresh := refresh; redirect_uri := redirect |}.
End flow.

(** ** Requests to the token endpoint *)

(** [quote_plus] of a form field, and the S256 challenge of a verifier:
    [urlsafe_b64encode(sha256(verifier)).rstrip(b"=")] *)
Class FormQuote := form_quote : string → string.
Class Pkce := s256_challenge : string → string.

Definition urlencode `{FormQuote} (fields : list (string * string)) : string :=
  String.concat "&" ((λ kv, form_quote kv.1 +:+ "=" +:+ form_quote kv.2) <$> fields).

Definition _token_request `{FormQuote} (flow : OAuthFlow) (values : list (string * string)) : result RuntimeRequest :=
  make_runtime_request "POST" (token_url flow)
    [("Content-Type", "application/x-www-form-urlencoded"); ("Accept", "application/json")]
    (Some (urlencode values)) [] FOLLOW None None.

(** [" ".join(sorted(flow.scopes))], where there are any *)
Definition scope_field (flow : OAuthFlow) : list (string * string) :=
  match elements (scopes flow) with
  | [] => []
  | granted => [("scope", String.concat " " (sort_items (λ s, s) granted))]
  end.

(** ** Answers of the token endpoint *)

Definition _OAUTH_REFRESH_OPERATION : string := "oauth.refresh".
Definition _OAUTH_TOKEN_OPERATION : string := "oauth.token".
Definition _OAUTH_ENDPOINT_RETRY_ACTION : string := "Confirm the OAuth endpoint response and retry.".
Definition _RFC6749_ERROR_CODES : list string :=
  ["invalid_request"; "invalid_client"; "invalid_grant"; "unauthorized_client"; "unsupported_grant_type"; "invalid_scope"].
Definition PKCE_CHALLENGE_METHOD : string := "S256".
Definition PKCE_VERIFIER_BYTES : Z := 48.
Definition OAUTH_STATE_BYTES : Z := 32.

Record OAuthCredential := { access_token : SecretValue; expires_at : option pyfloat; refresh_token : option SecretValue }.

Definition oauth_error (message : string) (action : string) : result exn :=
  catalog_error CatalogValidationError message _OAUTH_TOKEN_OPERATION "runtime" None action None.

(** [payload.get(key)] of a JSON object; a missing key is [None]. *)
Definition json_get (key : string) (payload : list (pyval * pyval)) : pyval := default PyNone (lookup_key key payload).

Section answers.
Context `{JsonBytes}.

Definition _rfc6749_error (response : RuntimeResponse) : option string :=
  match json_loads (body response) with
  | Some (PyDict payload) =>
      match json_get "error" payload with
      | PyStr code => if bool_decide (code ∈ _RFC6749_ERROR_CODES) then Some code else None
      | _ => None
      end
  | _ => None
  end.

Definition _token_error (response : RuntimeResponse) : result exn :=
  let detail := match _rfc6749_error response with
    | Some code => "OAuth token endpoint rejected the request (" +:+ code +:+ ") with status " +:+ int_repr (status_code response) +:+ "."
    | None => "OAuth token endpoint rejected the request with status " +:+ int_repr (status_code response) +:+ "."
    end in
  if status_code response =? 401 then
    catalog_error UnauthenticatedError detail _OAUTH_TOKEN_OPERATION "runtime" (Some "unauthorized")
      "Confirm the OAuth client credentials and retry." None
  else oauth_error detail "Confirm the OAuth client configuration and retry.".

(** [float(value)] of a number; an [int] beyond the floats raises. *)
Definition float_of (value : pyval) : result pyfloat :=
  match value with
  | PyInt z => raise_if (2 ^ 1024 - 2 ^ 970 <=? Z.abs z) (err OverflowError "int too large to convert to float");; Ok (FFin (inject_Z z))
  | PyFloat f => Ok f
  | _ => Raise (err TypeError "float() argument must be a number")
  end.
Definition float_negative (f : pyfloat) : bool :=
  match f with FFin q => q <?q 0%Q | FInf negative => negative | FNan => false end.
Definition float_add (now : Q) (f : pyfloat) : pyfloat := match f with FFin q => FFin (now + q)%Q | _ => f end.

(** [a <= b] *)
Definition float_le (a b : pyfloat) : bool :=
  match a, b with
  | FNan, _ | _, FNan => false
  | FInf true, _ | _, FInf false => true
  | FFin p, FFin q => p <=?q q
  | _, _ => false
  end.

Definition expiry_ok (expires_in : pyval) : bool :=
  match expires_in with
  | PyNone => true
  | PyInt z => 0 <=? z
  | PyFloat f => negb (float_negative f)
  | _ => false
  end.
Definition is_absent (v : pyval) : bool := match v with PyNone => true | _ => false end.
Definition text_value (v : pyval) : option string :=
  match v with PyStr s => if str_nonempty s then Some s else None | _ => None end.

(** [_credential]: [time] is read when there is an expiry. *)
Definition _credential {S} (time : M S Q) (response : RuntimeResponse) : M S OAuthCredential :=
  if negb ((200 <=? status_code response) && (status_code response <? 300)) then lift_res (raise_new (_token_error response))
  else
    match json_loads (body response) with
    | None => lift_res (raise_new (oauth_error "OAuth token endpoint returned an invalid JSON response." _OAUTH_ENDPOINT_RETRY_ACTION))
    | Some payload =>
        let no_token := raise_new (oauth_error "OAuth token endpoint response did not contain an access token." _OAUTH_ENDPOINT_RETRY_ACTION) in
        match payload with
        | PyDict d =>
            match text_value (json_get "access_token" d) with
            | None => lift_res no_token
            | Some token =>
                let expires_in := json_get "expires_in" d in
                let refresh := json_get "refresh_token" d in
                if negb (expiry_ok expires_in) then
                  lift_res (raise_new (oauth_error "OAuth token endpoint returned an invalid expiry." _OAUTH_ENDPOINT_RETRY_ACTION))
                else if negb (is_absent refresh || bool_decide (is_Some (text_value refresh))) then
                  lift_res (raise_new (oauth_error "OAuth token endpoint returned an invalid refresh token." _OAUTH_ENDPOINT_RETRY_ACTION))
                else
                  expiry ← (if is_absent expires_in then mret None
                            else now ← time; f ← lift_res (float_of expires_in); mret (Some (float_add now f)));
                  mret {| access_token := {| reveal := token |}; expires_at := expiry;
                          refresh_token := Build_SecretValue <$> text_value refresh |}
            end
        | _ => lift_res no_token
        end
    end.
End answers.

(** ** The environment *)

(** [time], the wall clock of a provider, the monotonic clock, [transport.send]
    and [secrets.token_urlsafe] *)
Class OAuthEnv (W : Type) := {
  #[global] oauth_clock :: Clocked W;
  wall_time : W → Q * W;
  provider_time : W → Q * W;
  token_send : RuntimeRequest → M W RuntimeResponse;
  token_urlsafe : Z → M W string
}.
Definition now_from {W} (time : W → Q * W) : M W Q := λ w, let '(t, w) := time w in (Ok t, w).

(** ** Client credentials and authorization codes *)

Section flows.
Context {W : Type} `{!OAuthEnv W, !FormQuote, !Pkce, !JsonBytes}.

Record ClientCredentialsFlow := { ccf_flow : OAuthFlow; ccf_client_secret : SecretValue; ccf_async : bool }.

Definition client_request (self : ClientCredentialsFlow) : result RuntimeRequest :=
  _token_request (ccf_flow self)
    ([("grant_type", "client_credentials"); ("client_id", client_id (ccf_flow self)); ("client_secret", reveal (ccf_client_secret self))] ++
     scope_field (ccf_flow self)).

Definition wrong_transport (text : string) : exn := err TypeError text.
Definition send_for_credential (request : result RuntimeRequest) : M W OAuthCredential :=
  request ← lift_res request;
  response ← token_send request;
  _credential (now_from wall_time) response.

Definition fetch (self : ClientCredentialsFlow) : M W OAuthCredential :=
  if ccf_async self then throw (wrong_transport "The synchronous OAuth flow requires a synchronous runtime transport.")
  else send_for_credential (client_request self).
Definition fetch_async (self : ClientCredentialsFlow) : M W OAuthCredential :=
  if negb (ccf_async self) then throw (wrong_transport "The asynchronous OAuth flow requires an asynchronous runtime transport.")
  else send_for_credential (client_request self).

(** The transport: none, or whether it is asynchronous *)
Record AuthorizationCodeFlow := { acf_flow : OAuthFlow; acf_transport : option bool; acf_verifier : string; acf_state : string }.

Definition make_authorization_flow (flow : OAuthFlow) (transport : option bool) (state : option string) : M W AuthorizationCodeFlow :=
  lift_res (raise_if (negb (opt_nonempty state)) (err ValueError "OAuth authorization state must be a non-empty string."));;
  verifier ← token_urlsafe PKCE_VERIFIER_BYTES;
  state ← match state with Some s => mret s | None => token_urlsafe OAUTH_STATE_BYTES end;
  mret {| acf_flow := flow; acf_transport := transport; acf_verifier := verifier; acf_state := state |}.

Definition redirect_field (flow : OAuthFlow) : list (string * string) :=
  match redirect_uri flow with Some uri => [("redirect_uri", uri)] | None => [] end.

Definition authorization_query (self : AuthorizationCodeFlow) (challenge : string) : list (string * string) :=
  [("response_type", "code"); ("client_id", client_id (acf_flow self))] ++ redirect_field (acf_flow self) ++
  [("state", acf_state self); ("code_challenge", challenge); ("code_challenge_method", PKCE_CHALLENGE_METHOD)] ++
  scope_field (acf_flow self).
Definition authorization_url (self : AuthorizationCodeFlow) : string :=
  authorization_endpoint (acf_flow self) +:+ "?" +:+ urlencode (authorization_query self (s256_challenge (acf_verifier self))).

Definition validate_state (self : AuthorizationCodeFlow) (observed : pyval) : result unit :=
  match text_value observed with
  | None => raise_new (oauth_error "The OAuth authorization response did not carry a usable state value."
                         "Reject the authorization response and restart the flow.")
  | Some s =>
      if bool_decide (s = acf_state self) then Ok tt
      else raise_new (oauth_error "The OAuth authorization response state does not match the bound authorization state."
                        "Discard the redirect and restart the authorization flow.")
  end.

Definition code_request (self : AuthorizationCodeFlow) (code : pyval) : result RuntimeRequest :=
  match text_value code with
  | None => Raise (err ValueError "OAuth authorization codes must be non-empty strings.")
  | Some c =>
      _token_request (acf_flow self)
        ([("grant_type", "authorization_code"); ("client_id", client_id (acf_flow self)); ("code", c);
          ("code_verifier", acf_verifier self)] ++ redirect_field (acf_flow self))
  end.

Definition exchange_with (want_async : bool) (message : string) (self : AuthorizationCodeFlow) (code state : pyval) : M W OAuthCredential :=
  match acf_transport self with
  | None => throw (wrong_transport "Authorization-code flows without a transport cannot exchange codes.")
  | Some is_async =>
      lift_res (validate_state self state);;
      if negb (Bool.eqb is_async want_async) then throw (wrong_transport message)
      else send_for_credential (code_request self code)
  end.
Definition exchange := exchange_with false "The synchronous OAuth flow requires a synchronous runtime transport.".
Definition exchange_async := exchange_with true "The asynchronous OAuth flow requires an asynchronous runtime transport.".
End flows.

(** ** The refreshing provider *)

Record RefreshingCredentialProvider (W : Type) := {
  rp_flow : OAuthFlow; rp_async : bool; rp_skew : pyfloat; rp_budget : TimeBudget; rp_emitter : EventEmitter W
}.
Arguments rp_flow {W}. Arguments rp_async {W}. Arguments rp_skew {W}. Arguments rp_budget {W}. Arguments rp_emitter {W}.

Definition make_refreshing_provider {W} (flow : OAuthFlow) (credential : OAuthCredential) (is_async : bool) (skew : pyfloat)
    (budget : TimeBudget) (emitter : EventEmitter W) : result (RefreshingCredentialProvider W) :=
  raise_if (negb (bool_decide (is_Some (refresh_token credential))) || negb (supports_refresh flow))
    (err ValueError "Refreshing providers require a refresh-capable flow and refresh token.");;
  raise_if (float_negative skew) (err ValueError "OAuth refresh skew must be a non-negative number.");;
  Ok {| rp_flow := flow; rp_async := is_async; rp_skew := skew; rp_budget := budget; rp_emitter := emitter |}.

(** The mutable state: [_credential], the breaker registry, and a log of what
    was sent and emitted. *)
Record refresher (W : Type) := Refresher {
  rf_credential : OAuthCredential; rf_breakers : BreakerRegistry; rf_log : list client_event; rf_world : W
}.
Arguments Refresher {W}. Arguments rf_credential {W}. Arguments rf_breakers {W}. Arguments rf_log {W}. Arguments rf_world {W}.

#[global] Instance refresher_clocked {W} `{!Clocked W} : Clocked (refresher W) := λ s,
  let '(t, w) := clock (rf_world s) in (t, Refresher (rf_credential s) (rf_breakers s) (rf_log s) w).

Section provider.
Context {W : Type} `{!OAuthEnv W, !FormQuote, !JsonBytes, !IpLiterals, !Sha256}.
Variable self : RefreshingCredentialProvider W.
Abbreviation R := (M (refresher W)).

Definition rf_on_world {A} (m : M W A) : R A := λ s,
  let '(r, w) := m (rf_world s) in (r, Refresher (rf_credential s) (rf_breakers s) (rf_log s) w).
Definition rf_on_breakers {A} (m : M (BreakerRegistry * W) A) : R A := λ s,
  let '(r, (b, w)) := m (rf_breakers s, rf_world s) in (r, Refresher (rf_credential s) b (rf_log s) w).
Definition rf_note (e : client_event) : R unit := modify (λ s,
  Refresher (rf_credential s) (rf_breakers s) (rf_log s ++ [e]) (rf_world s)).
Definition rf_set (c : OAuthCredential) : R unit := modify (λ s, Refresher c (rf_breakers s) (rf_log s) (rf_world s)).

Definition expires_by (c : OAuthCredential) (t : pyfloat) : bool :=
  match expires_at c with None => false | Some q => float_le q t end.
Definition _needs_refresh : R bool :=
  c ← read rf_credential;
  match expires_at c with
  | None => mret false
  | Some _ => now ← rf_on_world (now_from provider_time); mret (expires_by c (float_add now (rp_skew self)))
  end.

(** [_refresh_key]; the provider has a refresh token. *)
Definition _refresh_key (flow : OAuthFlow) (c : OAuthCredential) : result CircuitKey :=
  match refresh_token c with
  | None => Raise (err AssertionError "")
  | Some token =>
      let digest := str_take 16 (sha256 (reveal token)) in
      parsed ← urlsplit (token_url flow);
      make_circuit_key (scheme parsed +:+ "://" +:+ netloc parsed) ("oauth-" +:+ digest)
  end.
Definition refresh_request (flow : OAuthFlow) (c : OAuthCredential) : result RuntimeRequest :=
  match refresh_token c with
  | None => Raise (err AssertionError "")
  | Some token => _token_request flow
      [("grant_type", "refresh_token"); ("client_id", client_id flow); ("refresh_token", reveal token)]
  end.

Definition rf_emit (outcome : string) (metadata : pydict) : R unit :=
  e ← rf_on_world (emitter_record (rp_emitter self) _OAUTH_REFRESH_OPERATION "runtime" outcome (Some metadata) None);
  rf_note (Emitted e).

Definition _updated_credential (response : RuntimeResponse) : R OAuthCredential :=
  updated ← rf_on_world (_credential (now_from wall_time) response);
  current ← read rf_credential;
  mret {| access_token := access_token updated; expires_at := expires_at updated;
          refresh_token := match refresh_token updated with Some t => Some t | None => refresh_token current end |}.

Definition circuit_open : result exn :=
  catalog_error CatalogUnavailableError "The OAuth token endpoint circuit is open." _OAUTH_REFRESH_OPERATION "runtime"
    (Some "unavailable") "Wait for the circuit cool-down before refreshing credentials." None.

Definition _refresh_admission : R (CircuitKey * CircuitState) :=
  c ← read rf_credential;
  key ← lift_res (_refresh_key (rp_flow self) c);
  admitted ← rf_on_breakers (breaker_admit key);
  if (admitted : bool) then before ← rf_on_breakers (inspect key); mret (key, before)
  else rf_emit "breaker_open" [];; lift_res (raise_new circuit_open).

Definition _refresh_retry_loop (deadline : DeadlineMonitor) : result RetryLoop :=
  idem ← make_idempotency true None false;
  make_retry_loop (rp_budget self) idem deadline 1.

Definition _record_breaker_change (before after : bool) : R unit :=
  if Bool.eqb before after then mret tt else rf_emit "breaker_state_change" [("breaker_open", PyBool after)].
Definition _abandon_trial (key : CircuitKey) : R unit :=
  rf_on_breakers (release_trial key);;
  rf_emit "budget_exhausted" [].
Definition _record_refresh_failure (key : CircuitKey) (before : CircuitState) : R unit :=
  after ← rf_on_breakers (record_transport_failure key);
  _record_breaker_change (is_open before) (is_open after);;
  rf_emit "failed" [].

Definition _settle_refresh (key : CircuitKey) (before : CircuitState) (response : RuntimeResponse) : R OAuthCredential :=
  after ← rf_on_breakers (Breaker.record_response key (status_code response));
  _record_breaker_change (is_open before) (is_open after);;
  refreshed ← try_except (_updated_credential response)
    (λ e, if is_Exception (exn_kind e) then Some (rf_emit "failed" [];; throw e) else None);
  rf_emit "succeeded" [];;
  mret refreshed.

(** What is sent: the request is built when it is. *)
Definition send_refresh : R RuntimeResponse :=
  c ← read rf_credential;
  request ← lift_res (refresh_request (rp_flow self) c);
  rf_note (Sent request);;
  rf_on_world (token_send request).

(** The body of the [try] *)
Definition refresh_attempt (deadline : DeadlineMonitor) : R RuntimeResponse :=
  deadline ← assert_dispatchable (Some _OAUTH_REFRESH_OPERATION) (Some "runtime") deadline;
  loop ← lift_res (_refresh_retry_loop deadline);
  response ← run (λ _, mret tt) send_refresh loop;
  assert_dispatchable None None deadline;;
  mret response.

(** [_refresh_sync] and [_refresh_async]; the loop, which has one attempt,
    never sleeps. *)
Definition _refresh : R OAuthCredential :=
  '(key, before) ← _refresh_admission;
  deadline ← make_monitor (rp_budget self);
  response ← try_except (refresh_attempt deadline) (λ e,
    if is_subclass (exn_kind e) BudgetExhaustedError then Some (_abandon_trial key;; throw e)
    else if is_Exception (exn_kind e) then Some (_record_refresh_failure key before;; throw e)
    else None);
  _settle_refresh key before response.

(** [resolve] and [resolve_async], which hold the locks of the provider *)
Definition resolve_with (want_async : bool) (message : string) : R OAuthCredential :=
  stale ← _needs_refresh;
  (if (stale : bool) then
     if negb (Bool.eqb (rp_async self) want_async) then throw (wrong_transport message)
     else refreshed ← _refresh; rf_set refreshed
   else mret tt);;
  read rf_credential.
Definition resolve := resolve_with false "The synchronous refresh provider requires a synchronous runtime transport.".
Definition resolve_async := resolve_with true "The asynchronous refresh provider requires an asynchronous runtime transport.".
End provider.
