(* ===== verification/OAuthProofs.v ===== *)
(** * What the OAuth flows do with secrets and trials

    A code is exchanged only for the state that was bound, a refresh sends one
    request and keeps the credential it cannot replace, and gives its
    half-open trial back - except when it is cancelled, which shuts the
    circuit for good. *)
From Stdlib Require Import QArith ZArith Lia.
From stdpp Require Import strings gmap.
From S2P Require Import Prelude PyVal Policies Errors Transport Resilience Breaker Urls JsonText StateStore Profiles Events Clients ClientProofs OAuth.
Import Deadline.
Local Close Scope Q_scope.
Local Open Scope Z_scope.
Local Open Scope py_scope.

(** ** One attempt *)

(** After the only attempt comes its response, or its failure. *)
Lemma settle_once {S} `{!Clocked S} l response failure (s : S) : rl_max_attempts l = 1 →
  match _settle_attempt l 1 response failure s with
  | (Ok (inl r), s') => s' = s ∧ response = Some r ∧ valid_status (status_code r) = true
  | (Ok (inr _), _) => False
  | (Raise _, s') => s' = s
  end.
Proof.
  intros Hmax. unfold _settle_attempt. rewrite bind_step. unfold lift_res.
  destruct (for_response _ _ _ _ _ _) as [d|e] eqn:Ed; [|done].
  assert (retry d = false) as ->.
  { unfold for_response in Ed. rewrite Hmax in Ed. inv_ok. destruct (negb (allows_retry _)).
    - unfold make_retry_decision in Ed. by inv_ok.
    - change (1 <=? 1) with true in Ed. cbn iota in Ed. unfold make_retry_decision in Ed. by inv_ok. }
  cbn [negb]. destruct response as [r|]; [|by destruct failure]. cbn. split_and!; [done..|].
  unfold for_response in Ed. apply bind_ok in Ed as (? & _ & Ed). apply bind_ok in Ed as ([] & Hv & _). apply raise_if_ok in Hv.
  cbn in Hv. by destruct (valid_status _).
Qed.

(** A loop of one attempt sends what it is given at most once; what it returns
    was sent and has a valid status. *)
Lemma run_once {S} `{!Clocked S} (P R : S → Prop) (Q : exn → S → Prop) sleep send l : rl_max_attempts l = 1 →
  (∀ z, P z → P (clock z).2) → (∀ e z, P z → Q e z) → (∀ e z, R z → Q e z) →
  (∀ e e' z, is_subclass (exn_kind e) TransportError = true → Q e z → Q e' z) → hoare P send (λ _, R) Q →
  hoare P (run sleep send l) (λ r z, R z ∧ valid_status (status_code r) = true) Q.
Proof.
  intros Hmax HP HPQ HRQ HQ Hsend z Hs. unfold run. rewrite Hmax. change (Z.to_nat 1) with 1%nat. cbn [run_from]. rewrite bind_step.
  pose proof (assert_dispatchable_keeps P HP None None (rl_deadline l) z Hs) as Hp.
  destruct (assert_dispatchable _ _ _ z) as [[m|e] s1]; cbn [snd] in Hp; [|by apply HPQ].
  rewrite bind_step. unfold send_attempt, try_except. rewrite bind_step. specialize (Hsend s1 Hp).
  destruct (send s1) as [[r|e] s2]; cbn [mret M_ret].
  - rewrite bind_step. pose proof (settle_once l (Some r) None s2 Hmax) as Ho.
    destruct (_settle_attempt _ _ _ _ s2) as [[[r'|d]|e] s3]; [|done|subst; by apply HRQ]. by destruct Ho as (-> & [= ->] & Hv).
  - destruct (is_subclass (exn_kind e) TransportError) eqn:Et; [|done]. cbn. rewrite bind_step.
    pose proof (settle_once l None (Some e) s2 Hmax) as Ho.
    destruct (_settle_attempt _ _ _ _ s2) as [[[r'|d]|e'] s3]; [by destruct Ho as (_ & [=] & _)|done|subst]. by eapply HQ.
Qed.

Section provider.
Context {W : Type} `{!OAuthEnv W, !FormQuote, !JsonBytes, !IpLiterals, !Sha256}.
Variable self : RefreshingCredentialProvider W.
Implicit Types (s : refresher W).

(** ** What a step touches *)

(** The credential, the circuits, and the requests sent *)
Definition view s : OAuthCredential * BreakerRegistry * list RuntimeRequest := (rf_credential s, rf_breakers s, sent (rf_log s)).
Abbreviation same x := (λ s, view s = x).

Lemma world_view x {A} (m : M W A) : preserves (same x) (rf_on_world m).
Proof. intros s Hs. unfold rf_on_world. by destruct (m _). Qed.
Lemma emit_view x outcome md : preserves (same x) (rf_emit self outcome md).
Proof.
  unfold rf_emit. apply preserves_bind; [apply world_view|]. intros e. apply preserves_modify. intros s <-. unfold view, sent. cbn.
  by rewrite omap_app, app_nil_r.
Qed.
Lemma clock_view x s : view s = x → view (clock s).2 = x.
Proof. intros Hs. unfold clock, refresher_clocked. by destruct (clock _). Qed.
Lemma change_view x b a : preserves (same x) (_record_breaker_change self b a).
Proof. unfold _record_breaker_change. destruct (Bool.eqb _ _); [auto with datasluice|apply emit_view]. Qed.
#[local] Hint Resolve world_view emit_view change_view : datasluice.

(** An operation of the registry: what it does there, and nothing else *)
Lemma breakers_view {A} (m : M (BreakerRegistry * W) A) s r b w : m (rf_breakers s, rf_world s) = (r, (b, w)) →
  ∃ s', rf_on_breakers m s = (r, s') ∧ view s' = (rf_credential s, b, sent (rf_log s)).
Proof. intros E. unfold rf_on_breakers. rewrite E. by eexists. Qed.

(** ** The registry *)

Definition healthy (T : gset CircuitKey) (b : BreakerRegistry) : Prop := registry_inv b ∧ _trial_in_flight b ⊆ T.

Lemma release_healthy T k s : healthy ({[k]} ∪ T) (rf_breakers s) →
  ∃ s' b, rf_on_breakers (release_trial k) s = (Ok tt, s') ∧ view s' = (rf_credential s, b, sent (rf_log s)) ∧ healthy T b.
Proof.
  intros [Hinv Ht]. destruct (release_trials T k (rf_breakers s, rf_world s) Ht) as ([b w] & E & Hb).
  destruct (exec_refines (Release k) (rf_breakers s) (rf_world s) Hinv eq_refl) as (v & b' & w' & E' & Hr).
  unfold exec in E'. rewrite bind_step, E in E'. injection E' as _ <- <-.
  destruct (breakers_view _ _ _ _ _ E) as (s' & Es & Hv). exists s', b. split_and!; [done..|]. by destruct Hr.
Qed.
Lemma failure_healthy T k s : healthy ({[k]} ∪ T) (rf_breakers s) →
  ∃ c s' b, rf_on_breakers (record_transport_failure k) s = (Ok c, s') ∧ view s' = (rf_credential s, b, sent (rf_log s)) ∧ healthy T b.
Proof.
  intros [Hinv Ht]. pose proof (discard_after T k (rf_breakers s, rf_world s) (record_transport_failure k) (or_intror eq_refl) Ht) as Hd.
  destruct (exec_refines (Failure k) (rf_breakers s) (rf_world s) Hinv eq_refl) as (v & b' & w' & E' & Hr).
  unfold exec in E'. rewrite bind_step in E'. destruct (record_transport_failure k _) as [[c|e] [b w]] eqn:E; [|done].
  injection E' as _ <- <-. destruct (breakers_view _ _ _ _ _ E) as (s' & Es & Hv). exists c, s', b. split_and!; [done..|].
  split; [by destruct Hr|exact Hd].
Qed.
Lemma response_healthy T k status s : valid_status status = true → healthy ({[k]} ∪ T) (rf_breakers s) →
  ∃ c s' b, rf_on_breakers (Breaker.record_response k status) s = (Ok c, s') ∧ view s' = (rf_credential s, b, sent (rf_log s)) ∧ healthy T b.
Proof.
  intros Hst [Hinv Ht]. pose proof (response_trials T k status (rf_breakers s, rf_world s) Ht) as Hd.
  destruct (exec_refines (Response k status) (rf_breakers s) (rf_world s) Hinv Hst) as (v & b' & w' & E' & Hr).
  unfold exec in E'. rewrite bind_step in E'. destruct (Breaker.record_response k status _) as [[c|e] [b w]] eqn:E; [|done].
  injection E' as _ <- <-. destruct (breakers_view _ _ _ _ _ E) as (s' & Es & Hv). exists c, s', b. split_and!; [done..|].
  split; [by destruct Hr|exact Hd].
Qed.

(** ** One refresh *)

Variable c0 : OAuthCredential.

(** The credential is [c0], the requests sent are [L] and the trials [T]. *)
Definition at_point (L : list RuntimeRequest → Prop) (T : gset CircuitKey) s : Prop :=
  rf_credential s = c0 ∧ L (sent (rf_log s)) ∧ healthy T (rf_breakers s).

Lemma view_point L T s x : at_point L T s → view x = view s → at_point L T x.
Proof. intros (Hc & Hl & Hb) [= E1 E2 E3]. unfold at_point. by rewrite E1, E2, E3. Qed.
Lemma keeps_point {A} L T (m : M (refresher W) A) : (∀ x, preserves (same x) m) → preserves (at_point L T) m.
Proof. intros Hm s Hs. by eapply view_point, (Hm (view s)). Qed.
Lemma emit_point L T outcome md : preserves (at_point L T) (rf_emit self outcome md).
Proof. apply keeps_point. auto with datasluice. Qed.
Lemma change_point L T b a : preserves (at_point L T) (_record_breaker_change self b a).
Proof. apply keeps_point. auto with datasluice. Qed.
Lemma world_point L T {A} (m : M W A) : preserves (at_point L T) (rf_on_world m).
Proof. apply keeps_point. auto with datasluice. Qed.
Lemma clock_point L T s : at_point L T s → at_point L T (clock s).2.
Proof. intros Hs. by eapply view_point, clock_view. Qed.
Lemma weaken_point (L L' : list RuntimeRequest → Prop) T T' s : at_point L T s → (∀ l, L l → L' l) → T ⊆ T' → at_point L' T' s.
Proof. intros (Hc & Hl & Hi & Ht) HL HT. split_and!; [done|auto|]. split; [done|set_solver]. Qed.
#[local] Hint Resolve emit_point change_point world_point clock_point : datasluice.

Lemma moved_point {L T T' k} s s' b : at_point L ({[k]} ∪ T) s → view s' = (rf_credential s, b, sent (rf_log s)) → healthy T' b →
  at_point L T' s'.
Proof. intros (Hc & Hl & Hb) [= E1 E2 E3] Hh. unfold at_point. rewrite E1, E2, E3. by split_and!. Qed.

Lemma admission_point L s :
  at_point L (_trial_in_flight (rf_breakers s)) s →
  match _refresh_admission self s with
  | (Ok (k, _), s') => at_point L ({[k]} ∪ _trial_in_flight (rf_breakers s)) s'
  | (Raise _, s') => at_point L (_trial_in_flight (rf_breakers s)) s'
  end.
Proof.
  intros (Hc & Hl & Hinv & Ht). set (T := _trial_in_flight (rf_breakers s)). unfold _refresh_admission. rewrite bind_step. cbn [read].
  rewrite bind_step. unfold lift_res at 1. destruct (_refresh_key _ _) as [k|e]; [|by split_and!].
  rewrite bind_step. pose proof (admit_trials T k (rf_breakers s, rf_world s) eq_refl) as Ha.
  destruct (exec_refines (Admit k) (rf_breakers s) (rf_world s) Hinv eq_refl) as (v & b' & w' & E' & Hr).
  unfold exec in E'. rewrite bind_step in E'. destruct (breaker_admit k _) as [[a|e] [b w]] eqn:E; [|done].
  injection E' as _ <- <-. destruct (breakers_view _ _ _ _ _ E) as (s1 & -> & [= V1 V2 V3]). pose proof (ref_inv _ _ _ _ _ Hr) as Hib.
  destruct a.
  - rewrite bind_step. destruct (breakers_view (inspect k) s1 _ _ _ (state_for_eq k _ _)) as (s2 & -> & [= U1 U2 U3]). cbn [mret M_ret].
    unfold at_point. rewrite U1, U2, U3, V1, V2, V3. split_and!; [done..|]. split; [by apply registry_inv_touch|exact Ha].
  - assert (Hp : at_point L T s1). { unfold at_point. rewrite V1, V2, V3. by split_and!. }
    rewrite bind_step. pose proof (emit_point L T "breaker_open" [] s1 Hp) as He.
    destruct (rf_emit _ _ _ s1) as [[[]|e] s2]; [|exact He]. unfold lift_res, raise_new. by destruct circuit_open.
Qed.

Definition sent_next (l0 l : list RuntimeRequest) : Prop := ∃ q, refresh_request (rp_flow self) c0 = Ok q ∧ l = l0 ++ [q].
Definition sent_once (l0 l : list RuntimeRequest) : Prop := l = l0 ∨ sent_next l0 l.

Lemma send_point l0 T : hoare (at_point (.= l0) T) (send_refresh self) (λ _, at_point (sent_next l0) T) (λ _, at_point (sent_once l0) T).
Proof.
  intros s Hs. unfold send_refresh. rewrite bind_step. cbn [read]. rewrite bind_step. unfold lift_res. pose proof Hs as (Hc & _).
  rewrite Hc. destruct (refresh_request (rp_flow self) c0) as [q|e] eqn:Eq.
  2:{ eapply weaken_point; [exact Hs| |done]. by left. }
  rewrite bind_step. cbn [rf_note modify]. set (s1 := Refresher _ _ _ _).
  assert (Hs1 : at_point (sent_next l0) T s1).
  { destruct Hs as (_ & Hl & Hb). split_and!; cbn; [done| |exact Hb]. exists q. split; [done|]. unfold sent in *. cbn.
    by rewrite omap_app, Hl. }
  pose proof (world_point (sent_next l0) T (token_send q) s1 Hs1) as Hw.
  destruct (rf_on_world (token_send q) s1) as [[r|e] s2]; [exact Hw|]. eapply weaken_point; [exact Hw| |done]. by right.
Qed.

Lemma attempt_point l0 T deadline : hoare (at_point (.= l0) T) (refresh_attempt self deadline)
  (λ r s, at_point (sent_next l0) T s ∧ valid_status (status_code r) = true) (λ _, at_point (sent_once l0) T).
Proof.
  intros s Hs. unfold refresh_attempt. rewrite bind_step.
  pose proof (assert_dispatchable_keeps _ (clock_point (.= l0) T) (Some _OAUTH_REFRESH_OPERATION) (Some "runtime") deadline s Hs) as Hd.
  destruct (assert_dispatchable _ _ _ s) as [[m|e] s1]; cbn [snd] in Hd; [|eapply weaken_point; [exact Hd| |done]; by left].
  rewrite bind_step. unfold lift_res at 1. destruct (_refresh_retry_loop self m) as [loop|e] eqn:El;
    [|eapply weaken_point; [exact Hd| |done]; by left].
  assert (Hmax : rl_max_attempts loop = 1). { unfold _refresh_retry_loop, make_retry_loop in El. by inv_ok. }
  rewrite bind_step. eassert (Hr : hoare _ _ _ _);
    [apply (run_once (at_point (.= l0) T) (at_point (sent_next l0) T) (λ _, at_point (sent_once l0) T) (λ _, mret tt) (send_refresh self) loop Hmax)
    |specialize (Hr s1 Hd); destruct (run _ _ loop s1) as [[r|e] s2]; [|exact Hr]].
  - apply clock_point.
  - intros _ z Hz. eapply weaken_point; [exact Hz| |done]. by left.
  - intros _ z Hz. eapply weaken_point; [exact Hz| |done]. by right.
  - done.
  - apply send_point.
  - destruct Hr as [Hr Hv]. rewrite bind_step.
    pose proof (assert_dispatchable_keeps _ (clock_point (sent_next l0) T) None None m s2 Hr) as Hd2.
    destruct (assert_dispatchable _ _ _ s2) as [[m'|e] s3]; [by split|]. eapply weaken_point; [exact Hd2| |done]. by right.
Qed.

Lemma settle_point L T k before response : valid_status (status_code response) = true →
  hoare (at_point L ({[k]} ∪ T)) (_settle_refresh self k before response)
    (λ c s, at_point L T s ∧ (is_Some (refresh_token c0) → is_Some (refresh_token c))) (λ _, at_point L T).
Proof.
  intros Hv s Hs. pose proof Hs as (Hc & Hl & Hb). unfold _settle_refresh. rewrite bind_step.
  destruct (response_healthy T k _ s Hv Hb) as (after & s1 & b & -> & Hview & Hh). pose proof (moved_point _ _ _ Hs Hview Hh) as H1'.
  clear Hs Hc Hl Hb Hview Hh. match goal with |- context [match ?m s1 with _ => _ end] => cut (hoare (at_point L T) m
    (λ c s, at_point L T s ∧ (is_Some (refresh_token c0) → is_Some (refresh_token c))) (λ _, at_point L T)); [intros Hm; exact (Hm s1 H1')|] end.
  apply (hoare_bind _ _ _ (λ _, at_point L T)); [apply preserves_hoare; auto with datasluice|]. intros _.
  apply (hoare_bind _ _ _ (λ c s, at_point L T s ∧ (is_Some (refresh_token c0) → is_Some (refresh_token c)))).
  - eapply (hoare_try _ _ _ _ _ (λ _, at_point L T)).
    + unfold _updated_credential. apply (hoare_bind _ _ _ (λ _, at_point L T)); [apply preserves_hoare; auto with datasluice|]. intros updated s0 Hs. rewrite bind_step. cbn. split; [done|]. destruct Hs as (-> & _). by destruct (refresh_token updated).
    + intros e m. destruct (is_Exception _); [intros [= <-]|done].
      apply (hoare_bind _ _ _ (λ _, at_point L T)); [apply preserves_hoare; auto with datasluice|]. intros _ s0 Hs. exact Hs.
    + by intros.
  - intros c s0 [Hs Ht]. rewrite bind_step. pose proof (emit_point L T "succeeded" [] s0 Hs) as He.
    destruct (rf_emit _ _ _ s0) as [[[]|e] s2]; [by split|exact He].
Qed.
Lemma abandon_point L T k e : hoare (at_point L ({[k]} ∪ T)) (_abandon_trial self k;; @throw _ RuntimeResponse e)
  (λ _ _, False) (λ _, at_point L T).
Proof.
  intros s Hs. pose proof Hs as (_ & _ & Hb). unfold _abandon_trial. rewrite !bind_step.
  destruct (release_healthy T k s Hb) as (s1 & b & -> & Hv & Hh).
  pose proof (emit_point L T "budget_exhausted" [] s1 (moved_point _ _ _ Hs Hv Hh)) as He.
  by destruct (rf_emit _ _ _ s1) as [[]].
Qed.
Lemma fail_point L T k before e : hoare (at_point L ({[k]} ∪ T)) (_record_refresh_failure self k before;; @throw _ RuntimeResponse e)
  (λ _ _, False) (λ _, at_point L T).
Proof.
  intros s Hs. pose proof Hs as (_ & _ & Hb). unfold _record_refresh_failure. rewrite !bind_step.
  destruct (failure_healthy T k s Hb) as (c & s1 & b & -> & Hv & Hh). rewrite bind_step.
  pose proof (change_point L T (is_open before) (is_open c) s1 (moved_point _ _ _ Hs Hv Hh)) as He.
  destruct (_record_breaker_change _ _ _ s1) as [[[]|] s2]; [|done].
  pose proof (emit_point L T "failed" [] s2 He) as He2. by destruct (rf_emit _ _ _ s2) as [[]].
Qed.

(** A refresh: one request when it returns, one at most when it raises; the
    trial it took is given back, unless what it raises is no [Exception]. *)
Definition refreshed l0 T (r : result OAuthCredential) s : Prop :=
  match r with
  | Ok c => at_point (sent_next l0) T s ∧ (is_Some (refresh_token c0) → is_Some (refresh_token c))
  | Raise e => at_point (sent_once l0) T s ∨ is_Exception (exn_kind e) = false ∧ ∃ k, at_point (sent_once l0) ({[k]} ∪ T) s
  end.

Lemma refresh_point s : rf_credential s = c0 → registry_inv (rf_breakers s) →
  let '(r, s') := _refresh self s in refreshed (sent (rf_log s)) (_trial_in_flight (rf_breakers s)) r s'.
Proof.
  intros Hc Hinv. set (l0 := sent (rf_log s)). set (T := _trial_in_flight (rf_breakers s)).
  assert (Hup : ∀ z T', at_point (.= l0) T' z → at_point (sent_once l0) T' z).
  { intros z T' Hz. eapply weaken_point; [exact Hz| |done]. by left. }
  unfold _refresh. rewrite bind_step. pose proof (admission_point (.= l0) s) as Ha.
  destruct (_refresh_admission self s) as [[[k before]|e] s1]; [|left; apply Hup, Ha; by split_and!].
  specialize (Ha ltac:(by split_and!)). rewrite bind_step. unfold make_monitor, clock_now. rewrite bind_step.
  pose proof (clock_point _ _ _ Ha) as Hc1. destruct (clock s1) as [t s2]. cbn [snd] in Hc1. cbn [mret M_ret].
  rewrite bind_step. unfold try_except.
  match goal with |- context [refresh_attempt self ?d s2] => set (dl := d) in * end.
  pose proof (attempt_point l0 ({[k]} ∪ T) dl s2 Hc1) as Hr'. clearbody dl.
  destruct (refresh_attempt self dl s2) as [[r|e] s3].
  - destruct Hr' as [Hr' Hv]. pose proof (settle_point (sent_next l0) T k before r Hv s3 Hr') as Hs.
    destruct (_settle_refresh _ _ _ _ s3) as [[c|e] s4]; [exact Hs|]. left. eapply weaken_point; [exact Hs| |done]. by right.
  - destruct (is_subclass _ _).
    + pose proof (abandon_point (sent_once l0) T k e s3 Hr') as Hs.
      destruct ((_abandon_trial self k;; throw e) s3) as [[r4|e4] s4]; [done|by left].
    + destruct (is_Exception (exn_kind e)) eqn:Ee.
      * pose proof (fail_point (sent_once l0) T k before e s3 Hr') as Hs.
        destruct ((_record_refresh_failure self k before;; throw e) s3) as [[r4|e4] s4]; [done|by left].
      * right. split; [done|]. by exists k.
Qed.
(** ** A trial that is not given back *)

(** An attempt leaves the credential and the circuits alone. *)
Definition unmoved (c : OAuthCredential) (B : BreakerRegistry) s : Prop := rf_credential s = c ∧ rf_breakers s = B.
Lemma world_unmoved c B {A} (m : M W A) : preserves (unmoved c B) (rf_on_world m).
Proof. intros s [Hc Hb]. unfold rf_on_world. by destruct (m _). Qed.
Lemma clock_unmoved c B s : unmoved c B s → unmoved c B (clock s).2.
Proof. intros [Hc Hb]. unfold clock, refresher_clocked. by destruct (clock _). Qed.
Lemma attempt_unmoved c B deadline : preserves (unmoved c B) (refresh_attempt self deadline).
Proof.
  unfold refresh_attempt. apply preserves_bind; [apply assert_dispatchable_keeps, clock_unmoved|]. intros m.
  apply preserves_bind; [auto with datasluice|]. intros loop. apply preserves_bind.
  - apply run_keeps; [apply clock_unmoved|auto with datasluice|]. unfold send_refresh. apply preserves_bind; [auto with datasluice|]. intros c'.
    apply preserves_bind; [auto with datasluice|]. intros q. apply preserves_bind; [by apply preserves_modify|]. intros _. apply world_unmoved.
  - intros r. apply preserves_bind; [apply assert_dispatchable_keeps, clock_unmoved|auto with datasluice].
Qed.

(** The [try] body of a refresh from [s] - the deadline, the one request, the
    deadline - raises [e] in [s'] *)
Definition cut_off s (e : exn) s' : Prop :=
  ∃ k before s1 deadline s2, _refresh_admission self s = (Ok (k, before), s1) ∧ make_monitor (rp_budget self) s1 = (Ok deadline, s2) ∧
    refresh_attempt self deadline s2 = (Raise e, s').
Lemma cut_off_raises s e s' : is_Exception (exn_kind e) = false → cut_off s e s' → _refresh self s = (Raise e, s').
Proof.
  intros He (k & before & s1 & deadline & s2 & E1 & E2 & E3). unfold _refresh. rewrite bind_step, E1, bind_step, E2, bind_step.
  unfold try_except. rewrite E3, He. assert (is_subclass (exn_kind e) BudgetExhaustedError = false) as -> by by destruct (exn_kind e). done.
Qed.

(** The trial of [k] is out, for [c0]; [l] was sent. *)
Definition stuck (k : CircuitKey) (since : Q) (l : list RuntimeRequest) s : Prop :=
  rf_credential s = c0 ∧ sent (rf_log s) = l ∧ registry_inv (rf_breakers s) ∧ phase_of (rf_breakers s) k = HalfOpen since.

Lemma stuck_view k since l s x : stuck k since l s → view x = view s → stuck k since l x.
Proof. intros Hs [= E1 E2 E3]. unfold stuck. by rewrite E1, E2, E3. Qed.

Lemma admits_in k s : registry_inv (rf_breakers s) → ∃ a s' b, rf_on_breakers (breaker_admit k) s = (Ok a, s') ∧
  view s' = (rf_credential s, b, sent (rf_log s)) ∧
  refines (Admit k) (decisive (Admit k) (rf_world s)) (rf_breakers s) (Some a) b.
Proof.
  intros Hinv. destruct (exec_refines (Admit k) (rf_breakers s) (rf_world s) Hinv eq_refl) as (v & b' & w' & E' & Hr).
  unfold exec in E'. rewrite bind_step in E'. destruct (breaker_admit k _) as [[a|e] [b w]] eqn:E; [|done].
  injection E' as <- <- <-. destruct (breakers_view _ _ _ _ _ E) as (s1 & E1 & Hv). by exists a, s1, b.
Qed.

Lemma stuck_refresh k since l : _refresh_key (rp_flow self) c0 = Ok k →
  hoare (stuck k since l) (_refresh self) (λ _ _, False) (λ _, stuck k since l).
Proof.
  intros Hkey s Hs. pose proof Hs as (Hc & Hl & Hinv & Hph). unfold _refresh, _refresh_admission. rewrite !bind_step. cbn [read].
  rewrite Hc, bind_step, Hkey. cbn [lift_res]. rewrite bind_step.
  destruct (admits_in k s Hinv) as (a & s1 & b & -> & [= V1 V2 V3] & [Hi _ Hspec _]). cbn [op_key] in Hspec. rewrite Hph in Hspec.
  cbn in Hspec. injection Hspec as -> Hphase. assert (H1' : stuck k since l s1). { unfold stuck. rewrite V1, V2, V3. by split_and!. }
  rewrite bind_step. pose proof (emit_view (view s1) "breaker_open" [] s1 eq_refl) as He.
  destruct (rf_emit _ _ _ s1) as [[[]|e] s2]; cbn in He; [|by eapply stuck_view].
  unfold lift_res, raise_new. destruct circuit_open; by eapply stuck_view.
Qed.

Lemma stuck_resolve want message k since l : _refresh_key (rp_flow self) c0 = Ok k →
  preserves (stuck k since l) (resolve_with self want message).
Proof.
  intros Hkey. unfold resolve_with. apply preserves_bind.
  { unfold _needs_refresh. apply preserves_bind; [auto with datasluice|]. intros c. destruct (expires_at c); [|auto with datasluice].
    apply preserves_bind; [|auto with datasluice]. intros s Hs. by eapply stuck_view, world_view. }
  intros [].
  - apply preserves_bind; [|auto with datasluice]. destruct (negb _); [auto with datasluice|]. intros s Hs. rewrite bind_step.
    pose proof (stuck_refresh k since l Hkey s Hs) as Hr. by destruct (_refresh self s) as [[]].
  - apply preserves_bind; auto with datasluice.
Qed.

Lemma stuck_admission k since s : rf_credential s = c0 → _refresh_key (rp_flow self) c0 = Ok k →
  registry_inv (rf_breakers s) → phase_of (rf_breakers s) k = Opened since →
  match _refresh_admission self s with
  | (Ok (k', _), s') => k' = k ∧ stuck k since (sent (rf_log s)) s'
  | (Raise _, s') => sent (rf_log s') = sent (rf_log s)
  end.
Proof.
  intros Hc Hkey Hinv Hph. unfold _refresh_admission. rewrite bind_step. cbn [read]. rewrite Hc, bind_step, Hkey. cbn [lift_res].
  rewrite bind_step. destruct (admits_in k s Hinv) as (a & s1 & b & -> & [= V1 V2 V3] & [Hi _ Hspec _]).
  cbn [op_key] in Hspec. rewrite Hph in Hspec. cbn in Hspec. destruct a.
  - rewrite bind_step. destruct (breakers_view (inspect k) s1 _ _ _ (state_for_eq k _ _)) as (s2 & -> & [= U1 U2 U3]). cbn [mret M_ret].
    split; [done|]. unfold stuck. rewrite U1, U2, U3, V1, V2, V3, phase_touch. split_and!; [done..|by apply registry_inv_touch|].
    destruct (_ <?q _); congruence.
  - rewrite bind_step. pose proof (emit_view (view s1) "breaker_open" [] s1 eq_refl) as He.
    destruct (rf_emit _ _ _ s1) as [[[]|e] s2]; cbn in He; injection He as E1 E2 E3; [|by rewrite E3].
    unfold lift_res, raise_new. destruct circuit_open; by rewrite E3.
Qed.

Lemma cut_stuck k since e s s' : rf_credential s = c0 → _refresh_key (rp_flow self) c0 = Ok k →
  registry_inv (rf_breakers s) → phase_of (rf_breakers s) k = Opened since → cut_off s e s' →
  stuck k since (sent (rf_log s')) s' ∧ sent_once (sent (rf_log s)) (sent (rf_log s')).
Proof.
  intros Hc Hkey Hinv Hph (k' & before & s1 & deadline & s2 & E1 & E2 & E3). pose proof (stuck_admission k since s Hc Hkey Hinv Hph) as Ha.
  rewrite E1 in Ha. destruct Ha as [-> Hs]. unfold make_monitor, clock_now in E2. rewrite bind_step in E2.
  pose proof (clock_view (view s1) s1 eq_refl) as Hv. destruct (clock s1) as [t s2']. cbn [mret M_ret snd] in *.
  assert (s2' = s2) as -> by by injection E2. apply (stuck_view _ _ _ _ s2) in Hs; [|done]. clear Hv.
  destruct Hs as (Hc2 & Hl2 & Hi2 & Hp2). pose proof (attempt_unmoved c0 (rf_breakers s2) deadline s2 (conj Hc2 eq_refl)) as [Hc3 Hb3].
  pose proof (attempt_point (sent (rf_log s)) (_trial_in_flight (rf_breakers s2)) deadline s2) as Hp. rewrite E3 in Hp, Hc3, Hb3. cbn [snd] in *.
  split; [unfold stuck; by rewrite Hb3|]. apply Hp. by split_and!.
Qed.
End provider.

(** ** Properties *)

Section properties.
Context {W : Type} `{!OAuthEnv W, !FormQuote, !Pkce, !JsonBytes, !IpLiterals, !Sha256}.
Variable self : RefreshingCredentialProvider W.
Implicit Types (s : refresher W).

Lemma resolve_spec want message s : registry_inv (rf_breakers s) →
  let '(r, s') := resolve_with self want message s in
  let stale := expires_by (rf_credential s) (float_add (provider_time (rf_world s)).1 (rp_skew self)) in
  let requests := sent (rf_log s) in
  registry_inv (rf_breakers s') ∧
  (_trial_in_flight (rf_breakers s') ⊆ _trial_in_flight (rf_breakers s) ∨ ∃ e, r = Raise e ∧ is_Exception (exn_kind e) = false) ∧
  match r with
  | Ok c => c = rf_credential s' ∧
      if stale then rp_async self = want ∧ sent_next self (rf_credential s) requests (sent (rf_log s')) ∧
        (is_Some (refresh_token (rf_credential s)) → is_Some (refresh_token c))
      else c = rf_credential s ∧ sent (rf_log s') = requests
  | Raise _ => stale = true ∧ rf_credential s' = rf_credential s ∧ sent_once self (rf_credential s) requests (sent (rf_log s'))
  end.
Proof.
  intros Hinv. unfold resolve_with. rewrite bind_step. set (stale := expires_by _ _).
  assert (∃ s1, _needs_refresh self s = (Ok stale, s1) ∧ view s1 = view s) as (s1 & -> & Hv).
  { unfold _needs_refresh. rewrite bind_step. cbn [read]. unfold stale, expires_by. destruct (expires_at (rf_credential s)); [|by exists s].
    rewrite bind_step. unfold rf_on_world, now_from. destruct (provider_time (rf_world s)) as [t w]. by eexists. }
  injection Hv as V1 V2 V3. rewrite bind_step. destruct stale; cbn [mret M_ret read].
  2:{ cbn zeta. rewrite V1, V2, V3. by split_and!; [|left|..]. }
  destruct (Bool.eqb (rp_async self) want) eqn:Ew; cbn [negb].
  2:{ cbn. rewrite V1, V2. split_and!; [done|by left|done..|]. by left. }
  rewrite bind_step. pose proof (refresh_point self (rf_credential s) s1 V1) as Hr. rewrite V2, V3 in Hr. specialize (Hr Hinv).
  destruct (_refresh self s1) as [[c|e] s2]; cbn in Hr |- *.
  - destruct Hr as [(Hc & Hl & Hi & Ht) Hk]. apply Bool.eqb_prop in Ew. split_and!; try done. by left.
  - destruct Hr as [(Hc & Hl & Hi & Ht)|[He (k & Hc & Hl & Hi & Ht)]]; split_and!; try done; [by left|right; by exists e].
Qed.

(** C23: a provider that resolves its credential sends nothing and returns the
    one it has when that is not near expiry; otherwise it returns only after
    one request, the refresh request of the credential it had, with a
    credential that can be refreshed again, and stores what it returns.  What
    raises sent one request at most, keeps the credential, and - unless it is
    no [Exception] - leaves no half-open trial of its own. *)
Theorem provider_resolves s : registry_inv (rf_breakers s) →
  ∀ (want : bool) r s', (if want then resolve_async self s else resolve self s) = (r, s') →
  let stale := expires_by (rf_credential s) (float_add (provider_time (rf_world s)).1 (rp_skew self)) in
  let requests := sent (rf_log s) in
  registry_inv (rf_breakers s') ∧
  (_trial_in_flight (rf_breakers s') ⊆ _trial_in_flight (rf_breakers s) ∨ ∃ e, r = Raise e ∧ is_Exception (exn_kind e) = false) ∧
  match r with
  | Ok c => c = rf_credential s' ∧
      if stale then rp_async self = want ∧ sent_next self (rf_credential s) requests (sent (rf_log s')) ∧
        (is_Some (refresh_token (rf_credential s)) → is_Some (refresh_token c))
      else c = rf_credential s ∧ sent (rf_log s') = requests
  | Raise _ => stale = true ∧ rf_credential s' = rf_credential s ∧ sent_once self (rf_credential s) requests (sent (rf_log s'))
  end.
Proof.
  intros Hinv want r s' E. destruct want.
  - pose proof (resolve_spec true "The asynchronous refresh provider requires an asynchronous runtime transport." s Hinv) as Hr.
    unfold resolve_async in E. by rewrite E in Hr.
  - pose proof (resolve_spec false "The synchronous refresh provider requires a synchronous runtime transport." s Hinv) as Hr.
    unfold resolve in E. by rewrite E in Hr.
Qed.

(** A later call of the provider, in whatever world it finds *)
Definition resolve_later s (call : W * bool) : refresher W :=
  let s := Refresher (rf_credential s) (rf_breakers s) (rf_log s) call.1 in
  (if call.2 then resolve_async self s else resolve self s).2.

Lemma later_stuck c k since l calls s : _refresh_key (rp_flow self) c = Ok k → stuck c k since l s →
  stuck c k since l (foldl resolve_later s calls).
Proof.
  intros Hkey. revert s. induction calls as [|[w want] calls IH]; intros s Hs; [done|]. cbn [foldl]. apply IH. unfold resolve_later. cbn [fst snd].
  destruct want; by apply stuck_resolve.
Qed.

(** C24: a half-open trial that a cancellation cuts off is never given back:
    once the one request that a refresh of an opened circuit sent was cut off
    by an exception that is no [Exception], no later call of the provider,
    synchronous or not, sends anything, however much time passed before it and
    although the endpoint would answer again: the circuit stays half-open and
    every refresh raises. *)
Theorem cancelled_refresh_shuts_circuit k since e s s1 calls :
  registry_inv (rf_breakers s) → _refresh_key (rp_flow self) (rf_credential s) = Ok k →
  phase_of (rf_breakers s) k = Opened since →
  is_Exception (exn_kind e) = false → cut_off self s e s1 → sent (rf_log s1) ≠ sent (rf_log s) →
  _refresh self s = (Raise e, s1) ∧ sent_next self (rf_credential s) (sent (rf_log s)) (sent (rf_log s1)) ∧
  let s2 := foldl resolve_later s1 calls in
  phase_of (rf_breakers s2) k = HalfOpen since ∧ sent (rf_log s2) = sent (rf_log s1) ∧ rf_credential s2 = rf_credential s ∧
  ∀ w, ∃ e', (_refresh self (Refresher (rf_credential s2) (rf_breakers s2) (rf_log s2) w)).1 = Raise e'.
Proof.
  intros Hinv Hkey Hph He Hcut Hsent. split; [by apply cut_off_raises|].
  destruct (cut_stuck self _ k since e s s1 eq_refl Hkey Hinv Hph Hcut) as [Hs1 [?|Hnext]]; [done|]. split; [done|].
  cbn zeta. pose proof (later_stuck _ k since _ calls s1 Hkey Hs1) as Hs2. revert Hs2. generalize (foldl resolve_later s1 calls).
  intros s2 Hs2. pose proof Hs2 as (? & ? & _ & ?). do 3 (split; [done|]).
  intros w. pose proof (stuck_refresh self _ k since _ Hkey (Refresher (rf_credential s2) (rf_breakers s2) (rf_log s2) w) Hs2) as Hn. by destruct (_refresh self _) as [[c|e'] s3]; [|exists e'].
Qed.
End properties.

Section flows.
Context {W : Type} `{!OAuthEnv W, !FormQuote, !Pkce, !JsonBytes}.

Lemma oauth_error_kind {A} message action e : message ≠ "" → action ≠ "" →
  @raise_new A (oauth_error message action) = Raise e → exn_kind e = CatalogValidationError.
Proof.
  intros Hm Ha. destruct (catalog_error_total CatalogValidationError message _OAUTH_TOKEN_OPERATION "runtime" None action None)
    as [x Ex]; [done..|]. unfold raise_new, oauth_error. rewrite Ex. intros [= <-]. by apply catalog_error_ok in Ex as (-> & _).
Qed.

Lemma text_value_some v t : text_value v = Some t → v = PyStr t ∧ t ≠ "".
Proof. destruct v; try discriminate. cbn. destruct (str_nonempty _) eqn:E; [|discriminate]. intros [= <-]. split; [done|]. by intros ->. Qed.

(** The request that exchanges a code *)
Definition code_post (oauth : OAuthFlow) (code verifier : string) : RuntimeRequest :=
  {| method := "POST"; url := token_url oauth;
     req_headers := [("Content-Type", "application/x-www-form-urlencoded"); ("Accept", "application/json")];
     req_body := Some (urlencode ([("grant_type", "authorization_code"); ("client_id", client_id oauth); ("code", code);
                                   ("code_verifier", verifier)] ++ redirect_field oauth));
     files := []; redirect_policy := FOLLOW; max_response_bytes := None; deadline := None |}.
Lemma code_request_post (flow : AuthorizationCodeFlow) code : token_url (acf_flow flow) ≠ "" → text_value code ≠ None →
  ∃ c, code = PyStr c ∧ c ≠ "" ∧ code_request flow code = Ok (code_post (acf_flow flow) c (acf_verifier flow)).
Proof.
  intros Hu Hc. destruct (text_value code) as [c|] eqn:Ec; [|done]. pose proof (text_value_some _ _ Ec) as [-> Hne].
  exists c. do 2 (split; [done|]). unfold code_request. rewrite Ec. unfold _token_request, make_runtime_request, code_post.
  by rewrite (proj2 (str_nonempty_true _) Hu).
Qed.

Lemma bound_state (flow : AuthorizationCodeFlow) state :
  match validate_state flow state with
  | Ok _ => state = PyStr (acf_state flow) ∧ acf_state flow ≠ ""
  | Raise _ => state ≠ PyStr (acf_state flow) ∨ acf_state flow = ""
  end.
Proof.
  unfold validate_state. destruct (text_value state) as [t|] eqn:Et.
  - pose proof (text_value_some _ _ Et) as [-> Hne]. case_bool_decide; [by subst t|].
    unfold raise_new. destruct (oauth_error _ _); left; congruence.
  - assert (state ≠ PyStr (acf_state flow) ∨ acf_state flow = "").
    { destruct (str_nonempty (acf_state flow)) eqn:En; [left|right].
      - intros ->. cbn in Et. by rewrite En in Et.
      - by destruct (acf_state flow). }
    unfold raise_new. by destruct (oauth_error _ _).
Qed.

(** What the caller gives an exchange that may be sent: a transport of the kind
    the call wants, the state that was bound, and a code *)
Definition exchangeable (transport : option bool) (bound : string) (want : bool) (code state : pyval) (c : string) : Prop :=
  transport = Some want ∧ state = PyStr bound ∧ bound ≠ "" ∧ code = PyStr c ∧ c ≠ "".

Lemma exchange_runs want message (flow : AuthorizationCodeFlow) code state (w : W) : token_url (acf_flow flow) ≠ "" →
  let out := exchange_with want message flow code state w in
  (∃ e, out = (Raise e, w) ∧ ∀ c, ¬ exchangeable (acf_transport flow) (acf_state flow) want code state c) ∨
  (∃ c, exchangeable (acf_transport flow) (acf_state flow) want code state c ∧
     out = (response ← token_send (code_post (acf_flow flow) c (acf_verifier flow)); _credential (now_from wall_time) response) w).
Proof.
  intros Hu. cbn zeta. unfold exchange_with. destruct (acf_transport flow) as [is_async|]; [|left; eexists; split; [done|by intros c []]].
  rewrite bind_step. unfold lift_res at 1. pose proof (bound_state flow state) as Hb. destruct (validate_state flow state) as [[]|e].
  2:{ left. exists e. split; [done|]. intros c (_ & ? & ? & _). by destruct Hb. }
  destruct Hb as [Hst Hne]. destruct (Bool.eqb is_async want) eqn:Ew; cbn [negb].
  2:{ left. eexists. split; [done|]. intros c ([= ->] & _). by rewrite eqb_reflx in Ew. }
  apply Bool.eqb_prop in Ew as ->. unfold send_for_credential. rewrite bind_step. unfold lift_res. destruct (text_value code) as [t|] eqn:Et.
  - destruct (code_request_post flow code Hu ltac:(by rewrite Et)) as (c & -> & Hc & ->). right. exists c. by split_and!.
  - left. unfold code_request. rewrite Et. eexists. split; [done|]. intros c (_ & _ & _ & -> & Hc). cbn in Et.
    by rewrite (proj2 (str_nonempty_true c) Hc) in Et.
Qed.

(** C26: an authorization-code flow draws one verifier and binds one state, the
    given one or another draw.  Its authorization URL carries that state and
    the S256 challenge of that verifier; and an exchange sends exactly one
    POST, of the code and that verifier to the token endpoint, and decodes its
    answer, when the transport is of the kind the call wants, the state
    observed is the bound one and the code is a non-empty string; in every
    other case the exchange raises and touches nothing. *)
Theorem exchange_needs_bound_state oauth transport given (w0 w1 : W) flow : token_url oauth ≠ "" →
  make_authorization_flow oauth transport given w0 = (Ok flow, w1) →
  ∃ verifier bound w', token_urlsafe PKCE_VERIFIER_BYTES w0 = (Ok verifier, w') ∧
    match given with
    | Some s => bound = s ∧ s ≠ "" ∧ w1 = w'
    | None => token_urlsafe OAUTH_STATE_BYTES w' = (Ok bound, w1)
    end ∧
    authorization_url flow = authorization_endpoint oauth +:+ "?" +:+
      urlencode ([("response_type", "code"); ("client_id", client_id oauth)] ++ redirect_field oauth ++
                 [("state", bound); ("code_challenge", s256_challenge verifier); ("code_challenge_method", "S256")] ++ scope_field oauth) ∧
    ∀ (want : bool) code state w,
      let out := (if want then exchange_async flow code state else exchange flow code state) w in
      (∀ c, exchangeable transport bound want code state c →
         out = (response ← token_send (code_post oauth c verifier); _credential (now_from wall_time) response) w) ∧
      ((∀ c, ¬ exchangeable transport bound want code state c) → ∃ e, out = (Raise e, w)).
Proof.
  intros Hu Hm. unfold make_authorization_flow in Hm. rewrite bind_step in Hm. unfold lift_res at 1 in Hm.
  assert (Hg : ∀ s, given = Some s → negb (opt_nonempty given) = false → s ≠ "").
  { intros s -> Hg ->. discriminate Hg. }
  destruct (negb (opt_nonempty given)); [discriminate Hm|]. cbn [raise_if] in Hm. rewrite bind_step in Hm.
  destruct (token_urlsafe PKCE_VERIFIER_BYTES w0) as [[verifier|e] w'] eqn:Ev; [|discriminate Hm]. rewrite bind_step in Hm.
  assert (∃ bound, flow = {| acf_flow := oauth; acf_transport := transport; acf_verifier := verifier; acf_state := bound |} ∧
    match given with Some s => bound = s ∧ s ≠ "" ∧ w1 = w' | None => token_urlsafe OAUTH_STATE_BYTES w' = (Ok bound, w1) end) as (bound & -> & Hb).
  { destruct given as [s|].
    - cbn [mret M_ret] in Hm. exists s. injection Hm as <- <-. split; [done|]. split; [done|]. split; [by apply Hg|done].
    - destruct (token_urlsafe OAUTH_STATE_BYTES w') as [[bound|e] w2]; [|discriminate Hm]. exists bound. by injection Hm as <- <-. }
  exists verifier, bound, w'. do 3 (split; [done|]). intros want code state w. cbn zeta.
  set (flow := {| acf_flow := oauth; acf_transport := transport; acf_verifier := verifier; acf_state := bound |}).
  assert (∃ message, (if want then exchange_async flow code state else exchange flow code state) = exchange_with want message flow code state)
    as [message ->] by by destruct want; eexists.
  destruct (exchange_runs want message flow code state w Hu) as [(e & -> & Hno)|(c & Hc & ->)].
  - split; [by intros c Hc%Hno|by exists e].
  - split; [|by intros Hno%(λ H, H c)]. by intros c' (_ & _ & _ & -> & _); destruct Hc as (_ & _ & _ & [= ->] & _).
Qed.

Lemma token_error_kind {A} response e : @raise_new A (_token_error response) = Raise e → is_subclass (exn_kind e) CatalogError = true.
Proof.
  unfold _token_error. set (detail := match _rfc6749_error response with Some _ => _ | None => _ end).
  assert (detail ≠ "") by (unfold detail; by destruct (_rfc6749_error response)). clearbody detail.
  destruct (status_code response =? 401); [|by intros ->%oauth_error_kind].
  destruct (catalog_error_total UnauthenticatedError detail _OAUTH_TOKEN_OPERATION "runtime" (Some "unauthorized")
    "Confirm the OAuth client credentials and retry." None) as [x Ex]; [done..|].
  unfold raise_new. rewrite Ex. intros [= <-]. by apply catalog_error_ok in Ex as (-> & _).
Qed.

(** The expiry of an answer, from the time [now] *)
Lemma float_of_expiry v : expiry_ok v = true → is_absent v = false →
  match float_of v with
  | Ok f => float_negative f = false ∧ (v = PyFloat f ∨ ∃ z, v = PyInt z ∧ f = FFin (inject_Z z))
  | Raise e => exn_kind e = OverflowError ∧ ∃ z, v = PyInt z ∧ 2 ^ 1024 - 2 ^ 970 <= z
  end.
Proof.
  destruct v as [| | |z|f| | | | | |]; try discriminate 1; try discriminate 2; intros Hok _.
  - cbn [expiry_ok] in Hok. apply Z.leb_le in Hok. unfold float_of. destruct (_ <=? Z.abs z) eqn:Ez; cbn [raise_if mbind result_bind].
    + split; [done|]. exists z. split; [done|]. apply Z.leb_le in Ez. rewrite Z.abs_eq in Ez; done.
    + split; [|right; by exists z]. cbn. apply Qltb_false. change 0%Q with (inject_Z 0). by rewrite <- Zle_Qle.
  - cbn in Hok. apply negb_true_iff in Hok. cbn. by split; [|left].
Qed.

(** A credential is only made of an answer with a 2xx status whose body is
    a JSON object with a non-empty access token, an expiry that is absent or a
    number that is not negative, and a refresh token that is absent or a
    non-empty string; its expiry counts from the time of the answer, and when
    the number is NaN the credential never counts as expiring.  Every
    other answer raises an error of the catalog family, but for an integer
    expiry too large for a float, which raises [OverflowError]. *)
Theorem token_answer_checked (response : RuntimeResponse) (w : W) :
  match _credential (now_from wall_time) response w with
  | (Ok c, w') => 200 <= status_code response < 300 ∧
      ∃ d, json_loads (body response) = Some (PyDict d) ∧
        json_get "access_token" d = PyStr (reveal (access_token c)) ∧ reveal (access_token c) ≠ "" ∧
        json_get "refresh_token" d = match refresh_token c with Some t => PyStr (reveal t) | None => PyNone end ∧
        match expires_at c with
        | None => json_get "expires_in" d = PyNone ∧ w' = w
        | Some q => w' = (wall_time w).2 ∧ ∃ f, q = float_add (wall_time w).1 f ∧ float_negative f = false ∧
            (json_get "expires_in" d = PyFloat f ∨ ∃ z, json_get "expires_in" d = PyInt z ∧ f = FFin (inject_Z z)) ∧
            (f = FNan → ∀ t, expires_by c t = false)
        end
  | (Raise e, _) => is_subclass (exn_kind e) CatalogError = true ∨
      exn_kind e = OverflowError ∧ ∃ d z, json_loads (body response) = Some (PyDict d) ∧
        json_get "expires_in" d = PyInt z ∧ 2 ^ 1024 - 2 ^ 970 <= z
  end.
Proof.
  unfold _credential. destruct ((200 <=? status_code response) && (status_code response <? 300)) eqn:Est; cbn [negb].
  2:{ unfold lift_res. destruct (raise_new (_token_error response)) as [c|e] eqn:E; [by unfold raise_new in E; destruct (_token_error _)|].
      left. by eapply token_error_kind. }
  apply andb_true_iff in Est as [H200%Z.leb_le H300%Z.ltb_lt].
  assert (Hbad : ∀ message, message ≠ "" → ∃ e, is_subclass (exn_kind e) CatalogError = true ∧
    lift_res (@raise_new OAuthCredential (oauth_error message _OAUTH_ENDPOINT_RETRY_ACTION)) w = (Raise e, w)).
  { intros message Hm. unfold lift_res. destruct (raise_new _) as [c|e] eqn:E; [by unfold raise_new in E; destruct (oauth_error _ _)|].
    exists e. split; [|done]. by apply oauth_error_kind in E as ->. }
  destruct (json_loads (body response)) as [payload|] eqn:Ej; [|by edestruct Hbad as (e & He & ->); [|left]].
  destruct payload as [| | | | | | | |d| |]; try (by edestruct Hbad as (e & He & ->); [|left]).
  destruct (text_value (json_get "access_token" d)) as [token|] eqn:Etok; [|by edestruct Hbad as (e & He & ->); [|left]].
  apply text_value_some in Etok as [Etok Hne].
  destruct (expiry_ok (json_get "expires_in" d)) eqn:Eexp; cbn [negb]; [|by edestruct Hbad as (e & He & ->); [|left]].
  destruct (is_absent (json_get "refresh_token" d) || bool_decide (is_Some (text_value (json_get "refresh_token" d)))) eqn:Eref;
    cbn [negb]; [|by edestruct Hbad as (e & He & ->); [|left]].
  assert (Href : json_get "refresh_token" d = match Build_SecretValue <$> text_value (json_get "refresh_token" d) with
                                                | Some t => PyStr (reveal t) | None => PyNone end).
  { destruct (text_value (json_get "refresh_token" d)) as [t|] eqn:Et; cbn; [by apply text_value_some in Et as [-> _]|].
    rewrite bool_decide_eq_false_2, orb_false_r in Eref by (by intros []). by destruct (json_get "refresh_token" d). }
  rewrite bind_step. destruct (is_absent (json_get "expires_in" d)) eqn:Eabs.
  - cbn [mret M_ret]. split; [done|]. exists d. split_and!; try done. by destruct (json_get "expires_in" d).
  - rewrite bind_step. unfold now_from at 1. destruct (wall_time w) as [now w'] eqn:Ew. rewrite bind_step. unfold lift_res.
    pose proof (float_of_expiry _ Eexp Eabs) as Hf. destruct (float_of (json_get "expires_in" d)) as [f|e]; cbn [mret M_ret].
    + destruct Hf as [Hneg Hf]. split; [done|]. exists d. cbn [access_token refresh_token expires_at reveal fst snd].
      split_and!; try done. exists f. split_and!; try done. by intros ->.
    + destruct Hf as (He & z & Hz & Hbig). right. split; [done|]. by exists d, z.
Qed.
End flows.

(** ** Witnesses *)

(** A world that counts its clock readings, and a transport that is cancelled
    before a time and answers from then on *)
Section witnesses.
#[local] Instance token_quote : FormQuote := λ s, s.
#[local] Instance token_digest : Sha256 := λ s, s.
#[local] Instance token_literals : IpLiterals := λ _, false.
#[local] Instance token_json : JsonBytes := λ _,
  Some (str_dict [("access_token", PyStr "a-2"); ("expires_in", PyInt 3600)]).
Definition token_clock : Clocked nat := λ t, (Z.of_nat t # 1, S t)%Q.
Definition cancelled : exn := err CancelledError "".
Definition token_env (healthy_from : nat) : OAuthEnv nat := {|
  oauth_clock := token_clock;
  wall_time := λ t, (Z.of_nat t # 1, t)%Q; provider_time := λ t, (Z.of_nat t # 1, t)%Q;
  token_send := λ _ t, (if (t <? healthy_from)%nat then Raise cancelled
                        else Ok {| status_code := 200; resp_headers := []; body := ""; retry_after := None |}, S t);
  token_urlsafe := λ _ t, (Ok "v", t) |}.

Definition token_flow : OAuthFlow :=
  {| authorization_endpoint := "https://id.example/authorize"; token_url := "https://id.example/token"; client_id := "app";
     scopes := ∅; supports_refresh := true; redirect_uri := None |}.
Definition token_credential : OAuthCredential :=
  {| access_token := {| reveal := "a-1" |}; expires_at := Some (FFin 100%Q); refresh_token := Some {| reveal := "r-1" |} |}.
Definition token_provider : RefreshingCredentialProvider nat :=
  {| rp_flow := token_flow; rp_async := true; rp_skew := FFin 60%Q; rp_budget := sample_budget;
     rp_emitter := {| em_sinks := []; em_provider := None; em_no_redact := false |} |}.
Definition token_key : CircuitKey := {| origin := "https://id.example"; credential_scope := "oauth-r-1" |}.

Definition token_registry : BreakerRegistry :=
  match make_registry 1 (PyInt 15) with
  | Ok r => (@exec nat token_clock (Failure token_key) (r, 0%nat)).2.1
  | Raise _ => sample_registry
  end.
Lemma token_registry_ok : registry_inv token_registry.
Proof.
  destruct (make_registry 1 (PyInt 15)) as [r|] eqn:E; [|vm_compute in E; discriminate E].
  destruct (registry_fresh _ _ _ E) as [Hi _]. unfold token_registry. rewrite E.
  destruct (@exec_refines nat token_clock (Failure token_key) r 0%nat Hi eq_refl) as (v & r1 & w1 & -> & [H' _ _ _]). exact H'.
Qed.
Definition token_state : refresher nat := Refresher token_credential token_registry [] 60%nat.

Lemma provider_resolves_witness :
  let out := @resolve_async nat (token_env 0) _ _ _ _ token_provider token_state in
  is_ok out.1 = true ∧ length (sent (rf_log out.2)) = 1%nat ∧ registry_inv (rf_breakers out.2).
Proof.
  cbn zeta. split; [vm_compute; reflexivity|]. split; [vm_compute; reflexivity|].
  exact (proj1 (@provider_resolves nat (token_env 0) _ _ _ _ token_provider token_state token_registry_ok true _ _
    (surjective_pairing _))).
Defined.

Definition recovering : OAuthEnv nat := token_env 100.
Definition token_cut := @_refresh nat recovering _ _ _ _ token_provider token_state.
(** The first refresh is cancelled; at 200 the endpoint answers again, as it
    does to a provider that was not cut off, but nothing asks it. *)
Lemma cancelled_refresh_shuts_circuit_witness :
  length (sent (rf_log token_cut.2)) = 1%nat ∧
  is_ok (@resolve_async nat recovering _ _ _ _ token_provider (Refresher token_credential token_registry [] 200%nat)).1 = true ∧
  sent (rf_log (foldl (@resolve_later nat recovering _ _ _ _ token_provider) token_cut.2 [(200%nat, true); (300%nat, true)])) = sent (rf_log token_cut.2).
Proof.
  split; [vm_compute; reflexivity|]. split; [vm_compute; reflexivity|].
  eassert (Hcut : @cut_off nat recovering _ _ _ token_provider token_state cancelled token_cut.2).
  { eexists _, _, _, _, _. split; [vm_compute; reflexivity|]. split; [vm_compute; reflexivity|]. vm_compute. reflexivity. }
  refine (proj1 (proj2 (proj2 (proj2 (@cancelled_refresh_shuts_circuit nat recovering _ _ _ _ token_provider token_key 0%Q cancelled token_state
    token_cut.2 [(200%nat, true); (300%nat, true)] token_registry_ok eq_refl _ eq_refl Hcut _))))).
  - vm_compute. reflexivity.
  - intros Hl%(f_equal length). vm_compute in Hl. discriminate Hl.
Defined.
#[local] Instance token_challenge : Pkce := λ v, v +:+ "-hashed".
Definition code_flow : result AuthorizationCodeFlow * nat := @make_authorization_flow nat recovering token_flow (Some false) (Some "s-1") 200%nat.
(** With the bound state the code is exchanged by one request; with another
    state nothing happens. *)
Lemma exchange_needs_bound_state_witness :
  ∃ flow, code_flow = (Ok flow, 200%nat) ∧
    authorization_url flow = "https://id.example/authorize?response_type=code&client_id=app&state=s-1&code_challenge=v-hashed&code_challenge_method=S256" ∧
    (∃ c, @exchange nat recovering _ _ flow (PyStr "c-1") (PyStr "s-1") 300%nat = (Ok c, 301%nat)) ∧
    ∃ e, @exchange nat recovering _ _ flow (PyStr "c-1") (PyStr "s-2") 300%nat = (Raise e, 300%nat).
Proof.
  destruct code_flow as [[flow|e] w1] eqn:E; [|vm_compute in E; discriminate E].
  assert (w1 = 200%nat) as -> by (vm_compute in E; by injection E).
  destruct (@exchange_needs_bound_state nat recovering _ _ _ token_flow (Some false) (Some "s-1") 200%nat 200%nat flow ltac:(discriminate) E)
    as (verifier & bound & w' & Ev & (-> & _ & _) & Hu & Hx).
  assert (verifier = "v") as -> by (vm_compute in Ev; by injection Ev). exists flow. split; [done|].
  split; [rewrite Hu; vm_compute; reflexivity|]. split.
  - destruct (Hx false (PyStr "c-1") (PyStr "s-1") 300%nat) as [Hok _]. rewrite (Hok "c-1"); [vm_compute; by eexists|by split_and!].
  - destruct (Hx false (PyStr "c-1") (PyStr "s-2") 300%nat) as [_ Hno]. apply Hno. by intros c (_ & ? & _).
Defined.
End witnesses.
