(* ===== verification/ByteSource.v ===== *)
(** * Byte sources and decompression

    [data/_byte_source.py] and [data/compression.py]: a chunked body as a
    file, a file with lookahead, the bound on decompressed bytes, and the
    choice of a decompressor.  The decompressors and [zipfile] are the
    environment.

    A file is its [read]: [read n] gives at most [n] bytes, [read] of a
    negative number all that are left.  Wrapping a file adds a component to
    the state it runs on. *)
From Stdlib Require Import Ascii ZArith Lia.
From stdpp Require Import strings.
From S2P Require Import Prelude PyVal Regex Transport Urls JsonText.
Local Open Scope Z_scope.
Local Open Scope py_scope.

(** ** Bytes *)

(** [s[n:]] *)
Fixpoint str_drop (n : nat) (s : string) : string :=
  match n, s with
  | S n', String _ s' => str_drop n' s'
  | _, _ => s
  end.
Definition size (s : string) : Z := Z.of_nat (String.length s).
(** [s[:n]] and [s[n:]] for a natural [n]; a limit is larger than any string *)
Fixpoint first_bytes (n : Z) (s : string) : string :=
  match s with
  | EmptyString => EmptyString
  | String c s' => if n <=? 0 then EmptyString else String c (first_bytes (n - 1) s')
  end.
Fixpoint bytes_from (n : Z) (s : string) : string :=
  match s with
  | EmptyString => EmptyString
  | String _ s' => if n <=? 0 then s else bytes_from (n - 1) s'
  end.
Definition concat_bytes (cs : list string) : string := foldr (λ c s, c +:+ s) "" cs.

(** [str.strip()] *)
Fixpoint rev_bytes (s acc : string) : string :=
  match s with EmptyString => acc | String c s => rev_bytes s (String c acc) end.
Definition strip (s : string) : string :=
  rev_bytes (str_drop_while is_space (rev_bytes (str_drop_while is_space s) "")) "".

(** At most [p] steps of a loop that ends with [inr]; the steps are counted in
    binary, so that a limit of many megabytes is no unary number. *)
Fixpoint upto {S A B} (p : positive) (step : A → M S (A + B)) (a : A) : M S (A + B) :=
  match p with
  | xH => step a
  | xO p => r ← upto p step a; match r with inl a => upto p step a | inr b => mret (inr b) end
  | xI p =>
      r ← step a;
      match r with
      | inl a => r ← upto p step a; match r with inl a => upto p step a | inr b => mret (inr b) end
      | inr b => mret (inr b)
      end
  end.

Definition closed_file : exn := err ValueError "I/O operation on closed file".

(** A computation on what is wrapped *)
Definition on_inner {T W A} (m : M W A) : M (T * W) A := zoom snd (λ w s, (s.1, w)) m.

(** ** [IterableBytesIO]

    The iterable is the list of the steps that give its chunks; one that raises
    is the last, as in a generator. *)
Record iterable (W : Type) := { it_rest : list (M W string); it_peeked : string; it_closed : bool }.
Arguments it_rest {W}. Arguments it_peeked {W}. Arguments it_closed {W}.

Section iterable.
Context {W : Type}.
Abbreviation I := (M (iterable W * W)).

Definition it_set_rest (rest : list (M W string)) : I unit := modify (λ s,
  ({| it_rest := rest; it_peeked := it_peeked s.1; it_closed := it_closed s.1 |}, s.2)).
Definition it_set_peeked (peeked : string) : I unit := modify (λ s,
  ({| it_rest := it_rest s.1; it_peeked := peeked; it_closed := it_closed s.1 |}, s.2)).
Definition it_open : I unit := closed ← read (λ s, it_closed s.1); lift_res (raise_if closed closed_file).

Definition make_iterable (source : list (M W string)) : iterable W :=
  {| it_rest := source; it_peeked := ""; it_closed := false |}.

(** [next(self._it)] *)
Definition pull (chunk : M W string) (rest : list (M W string)) : I string :=
  it_set_rest [];;
  c ← on_inner chunk;
  it_set_rest rest;;
  mret c.

(** [while not self._peeked: self._peeked = next(self._it)]: whether there is
    something *)
Fixpoint it_fill (rest : list (M W string)) : I bool :=
  match rest with
  | [] => mret false
  | chunk :: rest =>
      c ← pull chunk rest;
      it_set_peeked c;;
      if str_nonempty c then mret true else it_fill rest
  end.

(** [readinto] of a buffer of [n] bytes: what it writes there *)
Definition it_readinto (n : Z) : I string :=
  it_open;;
  peeked ← read (λ s, it_peeked s.1);
  some ← (if str_nonempty peeked then mret true else rest ← read (λ s, it_rest s.1); it_fill rest);
  if (some : bool) then
    peeked ← read (λ s, it_peeked s.1);
    it_set_peeked (bytes_from n peeked);;
    mret (first_bytes n peeked)
  else mret "".

(** [chunks.extend(self._it)] and the loop of [read] *)
Fixpoint it_drain (rest : list (M W string)) (out : string) : I string :=
  match rest with
  | [] => mret out
  | chunk :: rest => c ← pull chunk rest; it_drain rest (out +:+ c)
  end.
Fixpoint it_loop (rest : list (M W string)) (n : Z) (out : string) : I string :=
  if n <=? 0 then mret out
  else
    match rest with
    | [] => mret out
    | chunk :: rest =>
        c ← pull chunk rest;
        let take := first_bytes n c in
        it_set_peeked (bytes_from (size take) c);;
        it_loop rest (n - size take) (out +:+ take)
    end.

Definition it_read (n : Z) : I string :=
  it_open;;
  peeked ← read (λ s, it_peeked s.1);
  rest ← read (λ s, it_rest s.1);
  if n <? 0 then
    it_set_peeked "";;
    it_drain rest peeked
  else
    let take := first_bytes n peeked in
    it_set_peeked (bytes_from (size take) peeked);;
    it_loop rest (n - size take) take.

Definition it_close : I unit := modify (λ s,
  ({| it_rest := []; it_peeked := it_peeked s.1; it_closed := true |}, s.2)).
End iterable.

(** ** [PeekableReader] *)

Record peekable := { pk_buffer : string; pk_closed : bool }.
Definition make_peekable : peekable := {| pk_buffer := ""; pk_closed := false |}.

Definition _PEEK_SIZE : Z := 6.

Section peekable.
Context {W : Type}.
(** The source's [read], and its [close] where it has one *)
Variables (source_read : Z → M W string) (source_close : option (M W unit)).
Abbreviation P := (M (peekable * W)).

Definition pk_open : P unit := closed ← read (λ s, pk_closed s.1); lift_res (raise_if closed closed_file).
Definition pk_set (buffer : string) : P unit := modify (λ s, ({| pk_buffer := buffer; pk_closed := pk_closed s.1 |}, s.2)).

(** The loop of [peek]: each round but the last adds a byte. *)
Fixpoint pk_fill (fuel : nat) (n : Z) : P unit :=
  buffer ← read (λ s, pk_buffer s.1);
  if n - size buffer <=? 0 then mret tt
  else
    match fuel with
    | O => mret tt
    | S fuel =>
        chunk ← on_inner (source_read (n - size buffer));
        if str_nonempty chunk then pk_set (buffer +:+ chunk);; pk_fill fuel n else mret tt
    end.
Definition peek (n : Z) : P string :=
  pk_open;;
  pk_fill (Z.to_nat n) n;;
  read (λ s, first_bytes n (pk_buffer s.1)).

Definition pk_readinto (n : Z) : P string :=
  pk_open;;
  buffer ← read (λ s, pk_buffer s.1);
  if str_nonempty buffer then
    pk_set (bytes_from n buffer);;
    mret (first_bytes n buffer)
  else
    chunk ← on_inner (source_read n);
    (if str_nonempty (bytes_from n chunk) then pk_set (bytes_from n chunk) else mret tt);;
    mret (first_bytes n chunk).

(** The body of the loop of [read]: [n] bytes are missing from [out]. *)
Definition pk_step (a : Z * string) : P (Z * string + string) :=
  let '(n, out) := a in
  if n <=? 0 then mret (inr out)
  else
    chunk ← on_inner (source_read n);
    mret (if str_nonempty chunk then inl (n - size chunk, out +:+ chunk) else inr out).
Definition pk_loop (n : Z) (out : string) : P string :=
  r ← upto (Z.to_pos (n + 1)) pk_step (n, out);
  match r with inl (_, out) => mret out | inr out => mret out end.
Definition pk_read (n : Z) : P string :=
  pk_open;;
  buffer ← read (λ s, pk_buffer s.1);
  if n <? 0 then
    pk_set "";;
    rest ← on_inner (source_read (-1));
    mret (buffer +:+ rest)
  else
    let take := first_bytes n buffer in
    pk_set (bytes_from (size take) buffer);;
    pk_loop (n - size take) take.

Definition pk_close : P unit :=
  closed ← read (λ s, pk_closed s.1);
  if (closed : bool) then mret tt
  else
    modify (λ s, ({| pk_buffer := pk_buffer s.1; pk_closed := true |}, s.2));;
    match source_close with Some close => on_inner close | None => mret tt end.
End peekable.

(** ** [_ErrorTranslatingReader] *)

Definition _MAX_ZIP_BODY_BYTES : Z := 512 * 1024 * 1024.
Definition _MAX_DECOMPRESSED_BYTES : Z := 512 * 1024 * 1024.

Definition decompression_error (text : string) : exn := err DecompressionError text.
(** [isinstance(exc, exc_types)] *)
Definition one_of (kinds : list exc_kind) (e : exn) : bool := existsb (is_subclass (exn_kind e)) kinds.
(** [try: m except kinds as exc: raise DecompressionError(...) from exc] *)
Definition translating {S A} (kinds : list exc_kind) (text : string) (m : M S A) : M S A :=
  try_except m (λ e, if one_of kinds e then Some (throw (decompression_error (text +:+ exn_msg e))) else None).

Section translating.
Context {W : Type}.
Variables (inner_read : Z → M W string) (exc_types : list exc_kind) (label : string).

(** The state is [_bytes_read]. *)
Definition et_read (n : Z) : M (Z * W) string :=
  translating exc_types (label +:+ " decompression failed: ")
    (bytes_read ← read fst;
     let remaining := _MAX_DECOMPRESSED_BYTES - bytes_read in
     chunk ← on_inner (inner_read (if 0 <=? n then Z.min n (remaining + 1) else remaining + 1));
     modify (λ s, (bytes_read + size chunk, s.2));;
     lift_res (raise_if (_MAX_DECOMPRESSED_BYTES <? bytes_read + size chunk)
       (decompression_error (label +:+ " exceeds the decompressed byte limit")));;
     mret chunk).

(** [close], with what the reader owns *)
Definition et_close (inner_close : M W unit) (owned : list (M W unit)) : M (Z * W) unit :=
  try_finally (on_inner inner_close) (on_inner (foldr (λ c m, c;; m) (mret tt) owned)).
End translating.

(** ** Formats *)

Definition magic (codes : list Z) : string := String.string_of_list_ascii ((λ c, ascii_of_nat (Z.to_nat c)) <$> codes).
Definition _GZIP_MAGIC : string := magic [31; 139].
Definition _BZIP2_MAGIC : string := "BZh".
Definition _ZSTD_MAGIC : string := magic [40; 181; 47; 253].
Definition _ZIP_MAGIC : string := magic [80; 75; 3; 4].
Definition _PARQUET_MAGIC : string := "PAR1".

Definition _detect_format (magic : string) (content_encoding : option string) : string :=
  let ce := strip (str_lower (default "" content_encoding)) in
  if starts_with _GZIP_MAGIC magic || bool_decide (ce ∈ ["gzip"; "x-gzip"]) then "gzip"
  else if starts_with _BZIP2_MAGIC magic || bool_decide (ce ∈ ["bzip2"; "bz2"; "x-bzip2"]) then "bzip2"
  else if starts_with _ZSTD_MAGIC magic || bool_decide (ce = "zstd") then "zstd"
  else if starts_with _ZIP_MAGIC magic || bool_decide (ce ∈ ["zip"; "x-zip"]) then "zip"
  else "none".

Definition container_format (magic : string) : option string :=
  if starts_with _ZIP_MAGIC magic then Some "zip"
  else if starts_with _PARQUET_MAGIC magic then Some "parquet"
  else None.

(** ** ZIP archives *)

Record ZipInfo := { zip_filename : string; file_size : Z; is_dir : bool }.

(** [zipfile.ZipFile(BytesIO(body)).infolist()] and [zf.open(member).read(n)] *)
Class ZipFiles := { zip_infolist : string → result (list ZipInfo); zip_read : string → ZipInfo → Z → result string }.

(** [max(members, key=lambda info: info.file_size)]: the first of the largest *)
Definition largest_member (first : ZipInfo) (members : list ZipInfo) : ZipInfo :=
  foldl (λ best info, if file_size best <? file_size info then info else best) first members.

(** [except kinds as exc: raise DecompressionError(...) from exc] *)
Definition translated {A} (kinds : list exc_kind) (text : string) (r : result A) : result A :=
  match r with Raise e => Raise (if one_of kinds e then decompression_error (text +:+ exn_msg e) else e) | Ok a => Ok a end.

Section compression.
Context {W : Type} `{!ZipFiles}.
Variables (source_read : Z → M W string) (source_close : option (M W unit)).
Abbreviation P := (M (peekable * W)).

(** What the archive gives: the bytes of the spooled member. *)
Definition zip_member (body : string) : result string :=
  infos ← translated [BadZipFile] "ZIP archive could not be read: " (zip_infolist body);
  match List.filter (λ info, negb (is_dir info)) infos with
  | [] => Raise (decompression_error "ZIP archive contains no file members")
  | first :: members =>
      let largest := largest_member first members in
      raise_if (_MAX_DECOMPRESSED_BYTES <? file_size largest) (decompression_error "ZIP member exceeds the decompressed byte limit");;
      member_bytes ← translated [BadZipFile; RuntimeError; OSError; ZlibError] "ZIP member could not be extracted: "
        (zip_read body largest (_MAX_DECOMPRESSED_BYTES + 1));
      raise_if (_MAX_DECOMPRESSED_BYTES <? size member_bytes) (decompression_error "ZIP member exceeds the decompressed byte limit");;
      Ok member_bytes
  end.
Definition _zip_largest_member : P string :=
  body ← pk_read source_read (_MAX_ZIP_BODY_BYTES + 1);
  lift_res (raise_if (_MAX_ZIP_BODY_BYTES <? size body)
    (decompression_error "ZIP body exceeds the spool cap; refusing to buffer it into memory"));;
  member_bytes ← lift_res (zip_member body);
  pk_close source_close;;
  mret member_bytes.

(** ** [apply_compression] *)

(** A decompressor over the peekable source: its constructor, [None] when its
    library is not installed, and the errors of the constructor and of reads *)
Class Codecs (X : Type) := { codec_open : string → option (M X unit); codec_read : string → Z → M X string }.
Definition opening_errors (format : string) : list exc_kind :=
  if bool_decide (format = "gzip") then [EOFError; OSError]
  else if bool_decide (format = "bzip2") then [OSError; ValueError; EOFError]
  else [ZstdError; OSError; ValueError].
Definition reading_errors (format : string) : list exc_kind :=
  if bool_decide (format = "gzip") then [EOFError; OSError]
  else if bool_decide (format = "bzip2") then [OSError; ValueError; EOFError]
  else [ZstdError; OSError; ValueError; EOFError].

Definition codec_label (format : string) : string :=
  if bool_decide (format = "gzip") then "GZIP" else if bool_decide (format = "bzip2") then "BZIP2" else "ZSTD".
(** [read] of the decompressor of a format, behind its translation *)
Definition decompressor_read {X} `{!Codecs X} (format : string) (n : Z) : M (Z * X) string :=
  et_read (codec_read format) (reading_errors format) (codec_label format) n.

(** The file that is returned: the peekable source itself, a decompressor of
    one of the formats, or a spooled member *)
Inductive opened := Untouched | Decompressed (format : string) | Spooled (data : string).

Context `{!Codecs (peekable * W)}.

Definition wrap_codec (format : string) : P opened :=
  match codec_open format with
  | None => mret Untouched
  | Some open =>
      translating (opening_errors format) (codec_label format +:+ " decompression failed: ") open;;
      mret (Decompressed format)
  end.

Definition apply_compression (content_encoding : option string) : P opened :=
  magic ← peek source_read _PEEK_SIZE;
  let format := _detect_format magic content_encoding in
  if bool_decide (format ∈ ["gzip"; "bzip2"; "zstd"]) then wrap_codec format
  else if bool_decide (format = "zip") then data ← _zip_largest_member; mret (Spooled data)
  else mret Untouched.
End compression.
