(* ===== verification/ByteSourceProofs.v ===== *)
(** * Byte sources lose, repeat and reorder nothing

    What a file serves is the bytes it holds, in order: a law of [read] that
    the wrappers of [ByteSource] keep.  Peeking consumes nothing, a chunked
    body reads like the one string its chunks make, and no decompressor gives
    more than its limit. *)
From Stdlib Require Import Ascii ZArith Lia.
From stdpp Require Import strings.
From S2P Require Import Prelude PyVal Regex Transport Urls JsonText ByteSource.
Local Open Scope Z_scope.
Local Open Scope py_scope.

(** ** Bytes *)

#[local] Arguments String.append !_ _ / : simpl nomatch.

Lemma size_app a b : size (a +:+ b) = size a + size b.
Proof. unfold size. rewrite app_length_s. lia. Qed.
Lemma size_nonneg s : 0 <= size s.
Proof. unfold size. lia. Qed.
Lemma size_zero s : size s = 0 ↔ s = "".
Proof. unfold size. by destruct s. Qed.
Lemma size_positive s : str_nonempty s = true → 0 < size s.
Proof. unfold size. destruct s; cbn; [done|lia]. Qed.
Lemma take_drop_s n s : str_take n s +:+ str_drop n s = s.
Proof. revert s. induction n as [|n IH]; intros [|c s]; cbn; try done. by rewrite IH. Qed.
Lemma first_take n s : first_bytes n s = str_take (Z.to_nat n) s.
Proof.
  revert n. induction s as [|c s IH]; intros n; cbn; [by destruct (Z.to_nat n)|]. destruct (n <=? 0) eqn:En.
  - apply Z.leb_le in En. by replace (Z.to_nat n) with 0%nat by lia.
  - apply Z.leb_gt in En. replace (Z.to_nat n) with (S (Z.to_nat (n - 1))) by lia. cbn. by rewrite IH.
Qed.
Lemma from_drop n s : bytes_from n s = str_drop (Z.to_nat n) s.
Proof.
  revert n. induction s as [|c s IH]; intros n; cbn; [by destruct (Z.to_nat n)|]. destruct (n <=? 0) eqn:En.
  - apply Z.leb_le in En. by replace (Z.to_nat n) with 0%nat by lia.
  - apply Z.leb_gt in En. replace (Z.to_nat n) with (S (Z.to_nat (n - 1))) by lia. cbn. by rewrite IH.
Qed.
Lemma first_from n s : first_bytes n s +:+ bytes_from n s = s.
Proof. rewrite first_take, from_drop. apply take_drop_s. Qed.
Lemma take_length_s n s : String.length (str_take n s) = Nat.min n (String.length s).
Proof. revert s. induction n as [|n IH]; intros [|c s]; cbn; try done. by rewrite IH. Qed.
Lemma size_first n s : 0 <= n → size (first_bytes n s) = Z.min n (size s).
Proof. intros Hn. rewrite first_take. unfold size. rewrite take_length_s. lia. Qed.
Lemma take_app_s n a b : str_take n (a +:+ b) = str_take n a +:+ str_take (n - String.length a) b.
Proof.
  revert n. induction a as [|c a IH]; intros [|n]; cbn; try done; by rewrite IH.
Qed.
Lemma drop_app_s n a b : str_drop n (a +:+ b) = str_drop n a +:+ str_drop (n - String.length a) b.
Proof.
  revert n. induction a as [|c a IH]; intros [|n]; cbn; (try done); apply IH.
Qed.
Lemma first_app n a b : first_bytes n (a +:+ b) = first_bytes n a +:+ first_bytes (n - size a) b.
Proof. rewrite !first_take. unfold size. rewrite take_app_s. by replace (Z.to_nat (n - Z.of_nat (String.length a))) with (Z.to_nat n - String.length a)%nat by lia. Qed.
Lemma from_app n a b : bytes_from n (a +:+ b) = bytes_from n a +:+ bytes_from (n - size a) b.
Proof. rewrite !from_drop. unfold size. rewrite drop_app_s. by replace (Z.to_nat (n - Z.of_nat (String.length a))) with (Z.to_nat n - String.length a)%nat by lia. Qed.
Lemma first_all n s : size s <= n → first_bytes n s = s.
Proof. rewrite first_take. unfold size. intros. apply str_take_short. lia. Qed.
Lemma from_all n s : size s <= n → bytes_from n s = "".
Proof.
  intros Hn. apply size_zero. pose proof (f_equal size (first_from n s)) as E. rewrite size_app, first_all in E by done. lia.
Qed.
Lemma first_none n s : n <= 0 → first_bytes n s = "".
Proof. intros Hn. rewrite first_take. by replace (Z.to_nat n) with 0%nat by lia. Qed.
Lemma from_none n s : n <= 0 → bytes_from n s = s.
Proof. intros Hn. rewrite from_drop. by replace (Z.to_nat n) with 0%nat by lia. Qed.
Lemma from_size n s : bytes_from (size (first_bytes n s)) s = bytes_from n s.
Proof.
  destruct (Z.le_ge_cases n 0); [rewrite first_none, !from_none by (unfold size; cbn; lia); done|]. rewrite size_first by done.
  destruct (Z.le_ge_cases n (size s)); [by rewrite Z.min_l by done|]. rewrite !from_all by lia. done.
Qed.
(** The first bytes of a string with a known beginning *)
Lemma first_split n p s : size p <= n → first_bytes n (p +:+ s) = p +:+ first_bytes (n - size p) s.
Proof. intros Hn. by rewrite first_app, first_all by done. Qed.
Lemma from_split n p s : size p <= n → bytes_from n (p +:+ s) = bytes_from (n - size p) s.
Proof. intros Hn. by rewrite from_app, from_all by done. Qed.
Lemma first_within n p s : n <= size p → first_bytes n (p +:+ s) = first_bytes n p.
Proof. intros Hn. rewrite first_app, (first_none (n - size p)) by lia. apply string_app_empty_r. Qed.
Lemma from_within n p s : n <= size p → bytes_from n (p +:+ s) = bytes_from n p +:+ s.
Proof. intros Hn. by rewrite from_app, (from_none (n - size p)) by lia. Qed.

(** ** Loops

    What a step keeps and uses up, so does the loop: after all its steps the
    measure [k] of the invariant has gone down by their number. *)
Lemma upto_rule {S A B} (p : positive) (step : A → M S (A + B)) (I : Z → A → S → Prop) (Q : B → S → Prop) (E : exn → S → Prop) :
  (∀ k a, hoare (I k a) (step a) (λ r s, match r with inl a' => ∃ k', k' + 1 <= k ∧ I k' a' s | inr b => Q b s end) E) →
  ∀ k a, hoare (I k a) (upto p step a) (λ r s, match r with inl a' => ∃ k', k' + Zpos p <= k ∧ I k' a' s | inr b => Q b s end) E.
Proof.
  intros Hstep. induction p as [p IH|p IH|]; intros k a s Hs; cbn [upto]; [| |exact (Hstep k a s Hs)].
  - rewrite bind_step. specialize (Hstep k a s Hs). destruct (step a s) as [[[a1|b]|e] s1]; [|done..]. destruct Hstep as (k1 & Hk1 & Hs1).
    rewrite bind_step. specialize (IH k1 a1 s1 Hs1) as IH1. destruct (upto p step a1 s1) as [[[a2|b]|e] s2]; [|done..].
    destruct IH1 as (k2 & Hk2 & Hs2). specialize (IH k2 a2 s2 Hs2). destruct (upto p step a2 s2) as [[[a3|b]|e] s3]; [|done..].
    destruct IH as (k3 & ? & ?). exists k3. split; [lia|done].
  - rewrite bind_step. specialize (IH k a s Hs) as IH1. destruct (upto p step a s) as [[[a2|b]|e] s2]; [|done..].
    destruct IH1 as (k2 & Hk2 & Hs2). specialize (IH k2 a2 s2 Hs2). destruct (upto p step a2 s2) as [[[a3|b]|e] s3]; [|done..].
    destruct IH as (k3 & ? & ?). exists k3. split; [lia|done].
Qed.

(** ** Files *)

Section laws.
Context {X : Type}.
Implicit Types (holds : X → string → Prop) (rd : Z → M X string).

(** [read] gives the next bytes of what the file holds, at most [n] of them
    and none only at the end. *)
Definition lawful rd holds : Prop := ∀ n x s, holds x s →
  match rd n x with
  | (Ok p, x') => ∃ s', s = p +:+ s' ∧ holds x' s' ∧ (0 <= n → size p <= n) ∧ (n < 0 → s' = "") ∧ (p = "" → n = 0 ∨ s = "")
  | (Raise _, _) => True
  end.
(** It gives all [n] unless the end is near. *)
Definition exact_read (n : Z) (s : string) : string * string :=
  if n <? 0 then (s, "") else (first_bytes n s, bytes_from n s).
Definition exact rd holds : Prop := ∀ n x s, holds x s →
  match rd n x with
  | (Ok p, x') => p = (exact_read n s).1 ∧ holds x' (exact_read n s).2
  | (Raise _, _) => True
  end.

Lemma exact_lawful rd holds : exact rd holds → lawful rd holds.
Proof.
  intros He n x s Hs. specialize (He n x s Hs). destruct (rd n x) as [[p|e] x']; [|done]. destruct He as [-> Hx'].
  exists (exact_read n s).2. split; [|split; [done|]]; unfold exact_read in *; destruct (n <? 0) eqn:En; cbn; rewrite ?first_from, ?string_app_empty_r;
    apply Z.ltb_lt in En || apply Z.ltb_ge in En; try done.
  - split_and!; intros; [lia|done|by right].
  - split_and!; intros; [rewrite size_first by done; lia|lia|].
    apply size_zero in H. rewrite size_first in H by done. rewrite <- size_zero. pose proof (size_nonneg s). lia.
Qed.
End laws.

(** ** A chunked body *)

Section iterable.
Context {W : Type}.

(** The step gives [c], when it gives something. *)
Definition gives (m : M W string) (c : string) : Prop := ∀ w, match m w with (Ok x, _) => x = c | (Raise _, _) => True end.
Definition it_holds (x : iterable W * W) (s : string) : Prop :=
  it_closed x.1 = true ∨ ∃ cs, Forall2 gives (it_rest x.1) cs ∧ s = it_peeked x.1 +:+ concat_bytes cs.

(** After a pull the chunk is out and the rest is left. *)
Lemma pull_spec m c rest (x : iterable W * W) : gives m c →
  match pull m rest x with
  | (Ok c', x') => c' = c ∧ x'.1 = {| it_rest := rest; it_peeked := it_peeked x.1; it_closed := it_closed x.1 |}
  | (Raise _, _) => True
  end.
Proof.
  intros Hm. unfold pull. rewrite bind_step. cbn [it_set_rest modify]. rewrite bind_step. unfold on_inner, zoom. cbn [snd fst].
  specialize (Hm x.2). destruct (m x.2) as [[c'|e] w']; [|done]. by split.
Qed.

Lemma drain_spec rest cs out (x : iterable W * W) : Forall2 gives rest cs → it_rest x.1 = rest →
  match it_drain rest out x with
  | (Ok p, x') => p = out +:+ concat_bytes cs ∧ it_rest x'.1 = [] ∧ it_peeked x'.1 = it_peeked x.1
  | (Raise _, _) => True
  end.
Proof.
  intros Hcs. revert out x. induction Hcs as [|m c rest cs Hm _ IH]; intros out x Hr; cbn [it_drain concat_bytes foldr].
  { cbn. by rewrite string_app_empty_r. }
  rewrite bind_step. pose proof (pull_spec m c rest x Hm) as Hp. destruct (pull m rest x) as [[c'|e] x1]; [|done].
  destruct Hp as [-> Hx1]. specialize (IH (out +:+ c) x1 ltac:(by rewrite Hx1)). destruct (it_drain rest _ x1) as [[p|e] x2]; [|done].
  rewrite Hx1 in IH. cbn in IH. by rewrite app_assoc_s in IH.
Qed.

Lemma loop_spec rest cs n out (x : iterable W * W) : Forall2 gives rest cs → it_rest x.1 = rest → (it_peeked x.1 = "" ∨ n <= 0) →
  match it_loop rest n out x with
  | (Ok p, x') => p = out +:+ first_bytes n (concat_bytes cs) ∧ it_holds x' (it_peeked x.1 +:+ bytes_from n (concat_bytes cs))
  | (Raise _, _) => True
  end.
Proof.
  intros Hcs. revert n out x. induction Hcs as [|m c rest cs Hm Hcs IH]; intros n out x Hr Hpk; cbn [it_loop].
  - assert (Hend : first_bytes n (concat_bytes []) = "" ∧ bytes_from n (concat_bytes []) = "").
    { done. }
    destruct Hend as [-> ->]. destruct (n <=? 0); cbn; (split; [by rewrite string_app_empty_r|]); right; exists []; rewrite Hr; by split.
  - destruct (n <=? 0) eqn:En; [apply Z.leb_le in En|apply Z.leb_gt in En].
    { cbn. rewrite first_none, from_none by done. split; [by rewrite string_app_empty_r|]. right. exists (c :: cs). rewrite Hr. split; [by constructor|done]. }
    destruct Hpk as [Hpk|]; [|lia].
    rewrite bind_step. pose proof (pull_spec m c rest x Hm) as Hp. destruct (pull m rest x) as [[c'|e] x1]; [|done]. destruct Hp as [-> Hx1].
    rewrite bind_step. cbn [it_set_peeked modify]. cbv zeta. rewrite from_size. set (take := first_bytes n c). set (x2 := (_, x1.2)).
    assert (Hs : size take = Z.min n (size c)) by by apply size_first, Z.lt_le_incl.
    specialize (IH (n - size take) (out +:+ take) x2 ltac:(unfold x2; cbn; by rewrite Hx1)
      ltac:(unfold x2; cbn; destruct (Z.le_ge_cases n (size c)); [right; lia|left; by apply from_all])).
    destruct (it_loop rest _ _ x2) as [[p|e] x3]; [|done]. destruct IH as [-> Hx3]. unfold x2 in Hx3. cbn in Hx3. rewrite Hpk.
    cbn [concat_bytes foldr]. fold (concat_bytes cs). change ("" +:+ ?z) with z.
    destruct (Z.le_ge_cases n (size c)).
    + rewrite first_within, from_within, (first_none (n - size take)) in * by lia.
      rewrite (from_none (n - size take)) in Hx3 by lia. split; [by rewrite app_assoc_s, string_app_empty_r|done].
    + assert (take = c) as Ht by by apply first_all. rewrite Ht in *. rewrite (from_all n c) in Hx3 by done.
      rewrite first_split, from_split, app_assoc_s by done. by split.
Qed.

(** A chunked body reads exactly as the string of its chunks. *)
Lemma iterable_exact : exact (it_read (W := W)) it_holds.
Proof.
  intros n x s Hs. unfold it_read, it_open. rewrite bind_step, bind_step. cbn [read]. unfold lift_res.
  destruct (it_closed x.1) eqn:Ec; cbn [raise_if]; [done|]. destruct Hs as [Hs|(cs & Hcs & ->)]; [congruence|].
  rewrite !bind_step. cbn [read]. rewrite bind_step. cbn [read]. unfold exact_read.
  destruct (n <? 0) eqn:En; [apply Z.ltb_lt in En|apply Z.ltb_ge in En].
  - rewrite bind_step. cbn [it_set_peeked modify].
    pose proof (drain_spec (it_rest x.1) cs (it_peeked x.1) ({| it_rest := it_rest x.1; it_peeked := ""; it_closed := it_closed x.1 |}, x.2) Hcs eq_refl) as Hd.
    destruct (it_drain _ _ _) as [[p|e] x']; [|done]. destruct Hd as (-> & Hr & Hp). split; [done|]. right. exists []. rewrite Hr, Hp. by split.
  - rewrite bind_step. cbn [it_set_peeked modify]. rewrite from_size. set (take := first_bytes n (it_peeked x.1)).
    assert (Ht : size take = Z.min n (size (it_peeked x.1))) by by apply size_first. set (x1 := (_, x.2)).
    pose proof (loop_spec (it_rest x.1) cs (n - size take) take x1 Hcs eq_refl
      ltac:(unfold x1; cbn; destruct (Z.le_ge_cases n (size (it_peeked x.1))); [right; lia|left; by apply from_all])) as Hl.
    destruct (it_loop _ _ _ _) as [[p|e] x2]; [|done]. destruct Hl as [-> Hx2]. unfold x1 in Hx2. cbn in Hx2 |- *.
    destruct (Z.le_ge_cases n (size (it_peeked x.1))).
    + rewrite first_within, from_within, (first_none (n - size take)) by lia. rewrite (from_none (n - size take)) in Hx2 by lia.
      by rewrite string_app_empty_r.
    + assert (take = it_peeked x.1) as Htk by by apply first_all. rewrite Htk in *. rewrite (from_all n (it_peeked x.1)) in Hx2 by done.
      by rewrite first_split, from_split by done.
Qed.
End iterable.

(** ** Lookahead *)

Section peekable.
Context {W : Type}.
Variables (source_read : Z → M W string) (holds : W → string → Prop).
Hypothesis source_lawful : lawful source_read holds.
Implicit Types (x : peekable * W).

Definition pk_holds x (s : string) : Prop := pk_closed x.1 = true ∨ ∃ t, holds x.2 t ∧ s = pk_buffer x.1 +:+ t.

(** A read of the source, from under the wrapper *)
Lemma inner_spec n x t : 0 < n → holds x.2 t →
  match on_inner (source_read n) x with
  | (Ok p, x') => ∃ t', t = p +:+ t' ∧ holds x'.2 t' ∧ x'.1 = x.1 ∧ size p <= n ∧ (p = "" → t = "")
  | (Raise _, _) => True
  end.
Proof.
  intros Hn Ht. unfold on_inner, zoom. pose proof (source_lawful n x.2 t Ht) as Hr. destruct (source_read n x.2) as [[p|e] w]; [|done].
  destruct Hr as (t' & -> & Ht' & Hle & _ & Hz). exists t'. split_and!; try done; [apply Hle; lia|].
  intros E. destruct (Hz E) as [|]; [lia|done].
Qed.

Lemma fill_spec n s : ∀ fuel x, pk_closed x.1 = false → pk_holds x s → (Z.to_nat (n - size (pk_buffer x.1)) ≤ fuel)%nat →
  match pk_fill source_read fuel n x with
  | (Ok _, x') => pk_closed x'.1 = false ∧ ∃ t, holds x'.2 t ∧ s = pk_buffer x'.1 +:+ t ∧ (n <= size (pk_buffer x'.1) ∨ t = "")
  | (Raise _, _) => True
  end.
Proof.
  induction fuel as [|fuel IH]; intros x Hc Hs Hf; cbn [pk_fill]; rewrite bind_step; cbn [read].
  all: destruct Hs as [|(t & Ht & Es)]; [congruence|]; destruct (n - size (pk_buffer x.1) <=? 0) eqn:En;
    [apply Z.leb_le in En; split; [done|]; exists t; split_and!; try done; left; lia|apply Z.leb_gt in En].
  - lia.
  - rewrite bind_step. pose proof (inner_spec _ x t En Ht) as Hi. destruct (on_inner _ x) as [[p|e] x1]; [|done].
    destruct Hi as (t' & -> & Ht' & Ex & Hle & Hz). destruct (str_nonempty p) eqn:Ep.
    + rewrite bind_step. cbn [pk_set modify]. set (x2 := (_, x1.2)). apply IH; unfold x2; cbn; [by rewrite Ex| |].
      * right. exists t'. split; [done|]. cbn. by rewrite Es, app_assoc_s.
      * rewrite size_app. pose proof (size_positive p Ep). lia.
    + assert (p = "") as -> by (by destruct p). specialize (Hz eq_refl). change ("" +:+ t') with t' in *. subst t'.
      split; [by rewrite Ex|]. exists "". rewrite Ex. split_and!; try done. by right.
Qed.

Lemma pk_open_eq x : pk_open x = (if pk_closed x.1 then Raise closed_file else Ok tt, x).
Proof. unfold pk_open. rewrite bind_step. cbn. by destruct (pk_closed x.1). Qed.

(** Peeking shows what comes next and consumes nothing. *)
Lemma peek_spec n x s : pk_holds x s →
  match peek source_read n x with
  | (Ok p, x') => p = first_bytes n s ∧ pk_holds x' s
  | (Raise _, _) => True
  end.
Proof.
  intros Hs. unfold peek. rewrite bind_step, pk_open_eq. destruct (pk_closed x.1) eqn:Hc; [done|]. rewrite bind_step.
  pose proof (fill_spec n s (Z.to_nat n) x Hc Hs ltac:(pose proof (size_nonneg (pk_buffer x.1)); lia)) as Hf.
  destruct (pk_fill _ _ _ x) as [[[]|e] x']; [|done]. destruct Hf as (Hc' & t & Ht & -> & Hn). cbn. split; [|right; by exists t].
  destruct Hn as [Hn| ->]; [by rewrite first_within|by rewrite string_app_empty_r].
Qed.

Lemma readinto_lawful n x s : 0 <= n → pk_holds x s →
  match pk_readinto source_read n x with
  | (Ok p, x') => ∃ s', s = p +:+ s' ∧ pk_holds x' s' ∧ size p <= n ∧ (p = "" → n = 0 ∨ s = "")
  | (Raise _, _) => True
  end.
Proof.
  intros Hn Hs. unfold pk_readinto. rewrite bind_step, pk_open_eq. destruct (pk_closed x.1) eqn:Hc; [done|].
  destruct Hs as [|(t & Ht & ->)]; [congruence|]. rewrite bind_step. cbn [read]. destruct (str_nonempty (pk_buffer x.1)) eqn:Eb.
  - rewrite bind_step. cbn. exists (bytes_from n (pk_buffer x.1) +:+ t). rewrite <- app_assoc_s, first_from. split_and!.
    + done.
    + right. by exists t.
    + rewrite size_first by done. lia.
    + intros E. left. apply size_zero in E. rewrite size_first in E by done. pose proof (size_positive _ Eb). lia.
  - assert (pk_buffer x.1 = "") as Eb' by (by destruct (pk_buffer x.1)). rewrite Eb'. change ("" +:+ t) with t.
    rewrite bind_step. unfold on_inner, zoom. pose proof (source_lawful n x.2 t Ht) as Hr. destruct (source_read n x.2) as [[p|e] w]; [|done].
    destruct Hr as (t' & -> & Ht' & Hle & _ & Hz). specialize (Hle Hn). rewrite bind_step, from_all, first_all by done. cbn.
    exists t'. split_and!; try done. right. exists t'. split; [done|]. cbn. by rewrite Eb'.
Qed.

Lemma pk_step_spec n out t x : pk_closed x.1 = false → pk_holds x t → (pk_buffer x.1 = "" ∨ n <= 0) →
  match pk_step source_read (n, out) x with
  | (Ok (inl (n', out')), x') => 0 < n ∧ n' + 1 <= n ∧ 0 <= n' ∧ pk_closed x'.1 = false ∧ pk_buffer x'.1 = "" ∧
      ∃ t', pk_holds x' t' ∧ out +:+ first_bytes n t = out' +:+ first_bytes n' t' ∧ bytes_from n t = bytes_from n' t'
  | (Ok (inr p), x') => p = out +:+ first_bytes n t ∧ pk_holds x' (bytes_from n t)
  | (Raise _, _) => True
  end.
Proof.
  intros Hc Hs Hb. unfold pk_step. destruct (n <=? 0) eqn:En; [apply Z.leb_le in En|apply Z.leb_gt in En].
  { cbn. rewrite first_none, from_none, string_app_empty_r by done. by split. }
  destruct Hb as [Hb|]; [|lia]. destruct Hs as [|(t0 & Ht & ->)]; [congruence|]. rewrite Hb. change ("" +:+ t0) with t0.
  rewrite bind_step. pose proof (inner_spec n x t0 En Ht) as Hi. destruct (on_inner _ x) as [[p|e] x1]; [|done].
  destruct Hi as (t' & -> & Ht' & Ex & Hle & Hz). cbn [mret M_ret]. destruct (str_nonempty p) eqn:Ep.
  - pose proof (size_positive p Ep). split_and!; [lia..|by rewrite Ex|by rewrite Ex|]. exists t'. split_and!.
    + right. exists t'. by rewrite Ex, Hb.
    + by rewrite first_split, app_assoc_s by done.
    + by rewrite from_split by done.
  - assert (p = "") as -> by (by destruct p). specialize (Hz eq_refl). change ("" +:+ t') with t' in *. subst t'. cbn.
    split; [by rewrite string_app_empty_r|]. right. exists "". by rewrite Ex, Hb.
Qed.

Lemma pk_loop_spec s n out x : pk_closed x.1 = false → pk_holds x s → (pk_buffer x.1 = "" ∨ n <= 0) →
  match pk_loop source_read n out x with
  | (Ok p, x') => p = out +:+ first_bytes n s ∧ pk_holds x' (bytes_from n s)
  | (Raise _, _) => True
  end.
Proof.
  intros Hc Hs Hb. set (I := λ k (a : Z * string) x', k = Z.max a.1 0 ∧ pk_closed x'.1 = false ∧ (pk_buffer x'.1 = "" ∨ a.1 <= 0) ∧
    ∃ t, pk_holds x' t ∧ out +:+ first_bytes n s = a.2 +:+ first_bytes a.1 t ∧ bytes_from n s = bytes_from a.1 t).
  set (Q := λ (p : string) x', p = out +:+ first_bytes n s ∧ pk_holds x' (bytes_from n s)).
  pose proof (upto_rule (Z.to_pos (n + 1)) (pk_step source_read) I Q (λ _ _, True)) as Hu.
  assert (Hstep : ∀ k a, hoare (I k a) (pk_step source_read a)
    (λ r x', match r with inl a' => ∃ k', k' + 1 <= k ∧ I k' a' x' | inr p => Q p x' end) (λ _ _, True)).
  { intros k [m o] z (-> & Hc' & Hb' & t & Ht & E1 & E2). cbn [fst snd] in *. pose proof (pk_step_spec m o t z Hc' Ht Hb') as Hst.
    destruct (pk_step _ _ z) as [[[[m' o']|p]|e] z']; [| |done].
    - destruct Hst as (? & ? & ? & ? & ? & t' & ? & F1 & F2). exists (Z.max m' 0). split; [lia|]. split_and!; [done|done|by left|]. exists t'.
      cbn. by rewrite E1, E2.
    - unfold Q. by rewrite E1, E2. }
  unfold pk_loop. rewrite bind_step. specialize (Hu Hstep _ (n, out) x ltac:(split_and!; [reflexivity|done|done|by exists s])).
  destruct (upto _ _ _ x) as [[[[n' out']|p]|e] x']; [|exact Hu|done].
  destruct Hu as (k & Hk & -> & _ & _ & t & Ht & E1 & E2). cbn [fst snd] in *. cbn [mret M_ret].
  assert (n' <= 0) by (destruct (Z.le_gt_cases 0 n); [rewrite Z2Pos.id in Hk by lia|]; lia).
  rewrite (first_none n'), string_app_empty_r in E1 by done. rewrite (from_none n') in E2 by done. by rewrite E1, E2.
Qed.

(** [read] waits for all [n] bytes, whatever the source gives at a time. *)
Lemma peekable_exact : exact (pk_read source_read) pk_holds.
Proof.
  intros n x s Hs. unfold pk_read. rewrite bind_step, pk_open_eq. destruct (pk_closed x.1) eqn:Hc; [done|].
  rewrite bind_step. cbn [read]. unfold exact_read. destruct (n <? 0) eqn:En; [apply Z.ltb_lt in En|apply Z.ltb_ge in En].
  - destruct Hs as [|(t & Ht & ->)]; [congruence|]. rewrite bind_step. cbn [pk_set modify]. rewrite bind_step. unfold on_inner, zoom. cbn [fst snd].
    pose proof (source_lawful (-1) x.2 t Ht) as Hr. destruct (source_read (-1) x.2) as [[p|e] w]; [|done].
    destruct Hr as (t' & -> & Ht' & _ & Hz & _). rewrite (Hz ltac:(lia)) in *. cbn. split; [by rewrite string_app_empty_r|]. right. by exists "".
  - destruct Hs as [|(t & Ht & ->)]; [congruence|]. rewrite bind_step. cbn [pk_set modify]. cbv zeta. rewrite from_size.
    set (take := first_bytes n (pk_buffer x.1)). assert (Hsz : size take = Z.min n (size (pk_buffer x.1))) by by apply size_first.
    set (x1 := (_, x.2)). pose proof (pk_loop_spec (bytes_from n (pk_buffer x.1) +:+ t) (n - size take) take x1 Hc ltac:(right; by exists t)
      ltac:(unfold x1; cbn; destruct (Z.le_ge_cases n (size (pk_buffer x.1))); [right; lia|left; by apply from_all])) as Hl.
    destruct (pk_loop _ _ _ x1) as [[p|e] x2]; [|done]. destruct Hl as [-> Hx2]. cbn [fst snd].
    destruct (Z.le_ge_cases n (size (pk_buffer x.1))).
    + rewrite (first_within n (pk_buffer x.1)), (from_within n (pk_buffer x.1)), (first_none (n - size take)) by lia. rewrite (from_none (n - size take)) in Hx2 by lia.
      by rewrite string_app_empty_r.
    + assert (take = pk_buffer x.1) as Htk by by apply first_all. rewrite Htk in *.
      rewrite (from_all n (pk_buffer x.1)) in * by done. change ("" +:+ t) with t in *.
      by rewrite (first_split n (pk_buffer x.1) t), (from_split n (pk_buffer x.1) t) by done.
Qed.

(** ** Any use of a peekable source *)

Inductive byte_op := Peek (n : Z) | Read (n : Z) | ReadInto (n : Z).
Definition pk_exec (o : byte_op) : M (peekable * W) string :=
  match o with Peek n => peek source_read n | Read n => pk_read source_read n | ReadInto n => pk_readinto source_read n end.
Fixpoint pk_run (ops : list byte_op) : M (peekable * W) (list string) :=
  match ops with [] => mret [] | o :: ops => out ← pk_exec o; outs ← pk_run ops; mret (out :: outs) end.
End peekable.

(** What a file that holds [s] answers, and what it then holds *)
Definition answers (s : string) (o : byte_op) (out s' : string) : Prop :=
  match o with
  | Peek n => out = first_bytes n s ∧ s' = s
  | Read n => out = (exact_read n s).1 ∧ s' = (exact_read n s).2
  | ReadInto n => s = out +:+ s' ∧ size out <= n ∧ (out = "" → n = 0 ∨ s = "")
  end.
Fixpoint answered (s : string) (ops : list byte_op) (outs : list string) (s' : string) : Prop :=
  match ops, outs with
  | [], [] => s' = s
  | o :: ops, out :: outs => ∃ s1, answers s o out s1 ∧ answered s1 ops outs s'
  | _, _ => False
  end.
Definition sized (o : byte_op) : bool := match o with ReadInto n => 0 <=? n | _ => true end.
(** What the reads took, in order *)
Definition taken (ops : list byte_op) (outs : list string) : string :=
  concat_bytes (zip_with (λ o out, match o with Peek _ => "" | _ => out end) ops outs).

Section runs.
Context {W : Type}.
Variables (source_read : Z → M W string) (holds : W → string → Prop).
Hypothesis source_lawful : lawful source_read holds.

Lemma exec_answers o (x : peekable * W) s : sized o = true → pk_holds holds x s →
  match pk_exec source_read o x with
  | (Ok out, x') => ∃ s', answers s o out s' ∧ pk_holds holds x' s'
  | (Raise _, _) => True
  end.
Proof.
  intros Ho Hs. destruct o as [n|n|n]; cbn [pk_exec answers].
  - pose proof (peek_spec _ _ source_lawful n x s Hs) as Hp. destruct (peek _ _ x) as [[out|e] x']; [|done]. exists s. naive_solver.
  - pose proof (peekable_exact _ _ source_lawful n x s Hs) as Hp. destruct (pk_read _ _ x) as [[out|e] x']; [|done]. naive_solver.
  - apply Z.leb_le in Ho. pose proof (readinto_lawful _ _ source_lawful n x s Ho Hs) as Hp. destruct (pk_readinto _ _ x) as [[out|e] x']; naive_solver.
Qed.
Lemma answers_split s o out s' : answers s o out s' → s = (match o with Peek _ => "" | _ => out end) +:+ s'.
Proof.
  destruct o as [n|n|n]; cbn.
  - by intros [_ ->].
  - intros [-> ->]. unfold exact_read. destruct (n <? 0); cbn; [by rewrite string_app_empty_r|by rewrite first_from].
  - by intros [-> _].
Qed.
Lemma answered_split ops : ∀ s outs s', answered s ops outs s' → s = taken ops outs +:+ s'.
Proof.
  induction ops as [|o ops IH]; intros s [|out outs] s'; cbn [answered]; try done.
  intros (s1 & Ha & Hr). rewrite (answers_split _ _ _ _ Ha), (IH _ _ _ Hr) at 1. unfold taken. cbn [zip_with concat_bytes foldr].
  fold (concat_bytes (zip_with (λ o out, match o with Peek _ => "" | _ => out end) ops outs)). by rewrite app_assoc_s.
Qed.
Lemma run_answers ops : ∀ (x : peekable * W) s, forallb sized ops = true → pk_holds holds x s →
  match pk_run source_read ops x with
  | (Ok outs, x') => ∃ s', answered s ops outs s' ∧ pk_holds holds x' s'
  | (Raise _, _) => True
  end.
Proof.
  induction ops as [|o ops IH]; intros x s Hz Hs; cbn [pk_run].
  - by exists s.
  - cbn in Hz. apply andb_true_iff in Hz as [Ho Hz]. rewrite bind_step. pose proof (exec_answers o x s Ho Hs) as He.
    destruct (pk_exec _ o x) as [[out|e] x1]; [|done]. destruct He as (s1 & Ha & Hs1). rewrite bind_step.
    specialize (IH x1 s1 Hz Hs1). destruct (pk_run _ ops x1) as [[outs|e] x2]; [|done]. destruct IH as (s2 & Hr & Hs2).
    cbn. exists s2. split; [by exists s1|done].
Qed.
End runs.

(** ** The limit on decompressed bytes *)

(** Reads of a decompressor one after the other, what each returned or raised *)
Fixpoint decompressor_run {X} `{!Codecs X} (format : string) (ns : list Z) (x : Z * X) : list (result string) * (Z * X) :=
  match ns with
  | [] => ([], x)
  | n :: ns =>
      let '(r, x) := decompressor_read format n x in
      let '(rs, x) := decompressor_run format ns x in (r :: rs, x)
  end.
Definition delivered (rs : list (result string)) : Z :=
  foldr (λ r t, match r with Ok s => size s + t | Raise _ => t end) 0 rs.

(** The failures of a decompressor that mean its data is truncated or
    malformed, as each library raises them *)
Definition malformed_data (format : string) (k : exc_kind) : bool :=
  is_subclass k EOFError || is_subclass k OSError ||
  (bool_decide (format ∈ ["bzip2"; "zstd"]) && is_subclass k ValueError) || (bool_decide (format = "zstd") && is_subclass k ZstdError).
Lemma reading_errors_malformed format e : format ∈ ["gzip"; "bzip2"; "zstd"] → one_of (reading_errors format) e = malformed_data format (exn_kind e).
Proof.
  intros Hf. unfold one_of. generalize (exn_kind e). intros k.
  repeat (apply elem_of_cons in Hf as [->|Hf]); try (by apply not_elem_of_nil in Hf); by destruct k.
Qed.

Lemma decompressor_step {X} `{!Codecs X} format n (x : Z * X) : format ∈ ["gzip"; "bzip2"; "zstd"] →
  match decompressor_read format n x with
  | (Ok s, x') => x'.1 = x.1 + size s ∧ x'.1 <= _MAX_DECOMPRESSED_BYTES
  | (Raise e, x') => x.1 <= x'.1 ∧
      (exn_kind e = DecompressionError ∨ ∃ m, (codec_read format m x.2).1 = Raise e ∧ malformed_data format (exn_kind e) = false)
  end.
Proof.
  intros Hf. unfold decompressor_read, et_read, translating, try_except. rewrite bind_step. cbn [read]. rewrite bind_step. unfold on_inner, zoom.
  set (m := if 0 <=? n then _ else _). destruct (codec_read format m x.2) as [[s|e] w] eqn:E.
  - rewrite bind_step. cbn [modify]. rewrite bind_step. unfold lift_res. destruct (_MAX_DECOMPRESSED_BYTES <? x.1 + size s) eqn:El; cbn [raise_if].
    + pose proof (size_nonneg s). destruct (one_of _ _); cbn; (split; [lia|by left]).
    + apply Z.ltb_ge in El. by split.
  - rewrite (reading_errors_malformed _ _ Hf). destruct (malformed_data format (exn_kind e)) eqn:Ek; cbn; (split; [lia|]); [by left|right].
    exists m. by rewrite E.
Qed.
Lemma decompressor_fails {X} `{!Codecs X} format n (x : Z * X) e : format ∈ ["gzip"; "bzip2"; "zstd"] → (∀ m, (codec_read format m x.2).1 = Raise e) →
  ∃ e', (decompressor_read format n x).1 = Raise e' ∧ if malformed_data format (exn_kind e) then exn_kind e' = DecompressionError else e' = e.
Proof.
  intros Hf Hm. unfold decompressor_read, et_read, translating, try_except. rewrite bind_step. cbn [read]. rewrite bind_step. unfold on_inner, zoom.
  set (m := if 0 <=? n then _ else _). specialize (Hm m). destruct (codec_read format m x.2) as [[s|e1] w]; [done|]. injection Hm as ->.
  rewrite (reading_errors_malformed _ _ Hf). destruct (malformed_data format (exn_kind e)); by eexists.
Qed.
Lemma decompressor_bound {X} `{!Codecs X} format ns : format ∈ ["gzip"; "bzip2"; "zstd"] → ∀ (x : Z * X) t, t <= x.1 → t <= _MAX_DECOMPRESSED_BYTES →
  t + delivered (decompressor_run format ns x).1 <= _MAX_DECOMPRESSED_BYTES.
Proof.
  intros Hf. induction ns as [|n ns IH]; intros x t Ht Hm; cbn [decompressor_run]; [cbn; lia|]. pose proof (decompressor_step format n x Hf) as Hs.
  destruct (decompressor_read format n x) as [r x1]. destruct r as [s|e].
  - specialize (IH x1 (t + size s) ltac:(lia) ltac:(lia)). destruct (decompressor_run format ns x1) as [rs x2]. cbn in *. lia.
  - specialize (IH x1 t ltac:(lia) Hm). by destruct (decompressor_run format ns x1) as [rs x2].
Qed.

(** ** Choosing a decompressor *)

Lemma prefix_compat p q s : starts_with p s = true → starts_with q s = true → starts_with p q = true ∨ starts_with q p = true.
Proof.
  unfold starts_with. revert q s. induction p as [|c p IH]; intros [|d q] [|a s]; cbn; auto; try done.
  destruct (ascii_dec c a) as [->|]; [|done]. destruct (ascii_dec d a) as [->|]; [|done]. intros Hp Hq.
  destruct (ascii_dec a a); [|done]. by apply (IH q s).
Qed.
(** A [Content-Encoding] of gzip is believed even where the bytes are those
    of another format. *)
Lemma gzip_hint_overrides_magic m : starts_with _BZIP2_MAGIC m = true →
  _detect_format m None = "bzip2" ∧ _detect_format m (Some "gzip") = "gzip".
Proof.
  intros Hm. split; [|unfold _detect_format; by rewrite orb_true_r]. unfold _detect_format. cbn [default].
  assert (starts_with _GZIP_MAGIC m = false) as ->.
  { destruct (starts_with _GZIP_MAGIC m) eqn:E; [|done]. by destruct (prefix_compat _ _ _ E Hm). }
  by rewrite Hm.
Qed.

Section compression.
Context {W : Type} `{!ZipFiles}.
Variables (source_read : Z → M W string) (source_close : option (M W unit)) (holds : W → string → Prop).
Hypothesis source_lawful : lawful source_read holds.
Context `{!Codecs (peekable * W)}.

(** The archive's member: the first of the largest files, within the limit *)
Lemma zip_member_ok body data : zip_member body = Ok data →
  size data <= _MAX_DECOMPRESSED_BYTES ∧
  ∃ infos info, zip_infolist body = Ok infos ∧ info ∈ infos ∧ is_dir info = false ∧
    Forall (λ i, is_dir i = false → file_size i <= file_size info) infos ∧
    zip_read body info (_MAX_DECOMPRESSED_BYTES + 1) = Ok data.
Proof.
  unfold zip_member. intros E. apply bind_ok in E as (infos & Hi & E). unfold translated in Hi.
  destruct (zip_infolist body) as [infos'|] eqn:Ez; [|done]. injection Hi as ->.
  set (keep := λ info, negb (is_dir info)) in E.
  assert (Hbest : ∀ l first, let b := largest_member first l in b ∈ first :: l ∧ Forall (λ i, file_size i <= file_size b) (first :: l)).
  { induction l as [|i l IH]; intros first; cbn zeta; [split; [by apply list_elem_of_here|by constructor]|]. unfold largest_member in *. cbn [foldl].
    destruct (file_size first <? file_size i) eqn:El; [apply Z.ltb_lt in El|apply Z.ltb_ge in El].
    - destruct (IH i) as [Hin Hall]. split; [by right|]. constructor; [|done]. inversion_clear Hall. lia.
    - destruct (IH first) as [Hin Hall]. inversion_clear Hall. split; [|constructor; [done|constructor; [lia|done]]].
      apply elem_of_cons in Hin as [->|Hin]; [by left|by do 2 right]. }
  destruct (List.filter keep infos) as [|first members] eqn:Ef; [done|]. specialize (Hbest members first). cbn zeta in Hbest.
  set (best := largest_member first members) in *. destruct Hbest as [Hin Hall]. rewrite <- Ef in Hin, Hall.
  apply bind_ok in E as ([] & _ & E). apply bind_ok in E as (data' & Hd & E). unfold translated in Hd.
  destruct (zip_read body best _) as [d|] eqn:Er; [|done]. injection Hd as ->.
  apply bind_ok in E as ([] & Hl%raise_if_ok & E). injection E as ->. apply Z.ltb_ge in Hl. split; [done|].
  apply list_elem_of_In, filter_In in Hin as [Hin Hdir]. exists infos, best. split_and!; try done.
  - by apply list_elem_of_In.
  - by apply negb_true_iff in Hdir.
  - rewrite Forall_forall in Hall |- *. intros i Hi Hd. apply Hall, list_elem_of_In, filter_In. split; [by apply list_elem_of_In|].
    unfold keep. by rewrite Hd.
Qed.

Definition compression_outcome (ce : option string) (s : string) (o : opened) (x' : peekable * W) : Prop :=
  let format := _detect_format (first_bytes 6 s) ce in
  match o with
  | Untouched => pk_holds holds x' s ∧ (format = "none" ∨ format ∈ ["gzip"; "bzip2"; "zstd"] ∧ codec_open (X := peekable * W) format = None)
  | Decompressed f => f = format ∧ format ∈ ["gzip"; "bzip2"; "zstd"]
  | Spooled data => format = "zip" ∧ size s <= _MAX_ZIP_BODY_BYTES ∧ zip_member s = Ok data
  end.

Lemma detect_known m ce : _detect_format m ce ∈ ["gzip"; "bzip2"; "zstd"; "zip"; "none"].
Proof. unfold _detect_format. repeat case_match; set_solver. Qed.

Lemma compression_spec ce (x : peekable * W) s : pk_holds holds x s →
  match apply_compression source_read source_close ce x with
  | (Ok o, x') => compression_outcome ce s o x'
  | (Raise _, _) => True
  end.
Proof.
  intros Hs. unfold apply_compression. rewrite bind_step. pose proof (peek_spec _ _ source_lawful _PEEK_SIZE x s Hs) as Hp.
  destruct (peek _ _ x) as [[m|e] x1]; [|done]. destruct Hp as [-> Hs1]. cbn zeta. change _PEEK_SIZE with 6.
  unfold compression_outcome. pose proof (detect_known (first_bytes 6 s) ce) as Hk. set (format := _detect_format _ _) in *. clearbody format.
  case_bool_decide as Hf.
  - unfold wrap_codec. destruct (codec_open format) as [open|] eqn:Eo; [|by split; [|right]].
    rewrite bind_step. destruct (translating _ _ open x1) as [[[]|e] x2]; [|done]. cbn. done.
  - case_bool_decide as Hz.
    + rewrite bind_step. unfold _zip_largest_member. rewrite bind_step.
      pose proof (peekable_exact _ _ source_lawful (_MAX_ZIP_BODY_BYTES + 1) x1 s Hs1) as Hr.
      destruct (pk_read _ _ x1) as [[body|e] x2]; [|done]. destruct Hr as [-> _]. unfold exact_read.
      change (_MAX_ZIP_BODY_BYTES + 1 <? 0) with false. cbv iota. cbn [fst]. rewrite bind_step. unfold lift_res.
      destruct (_MAX_ZIP_BODY_BYTES <? _) eqn:El; cbn [raise_if]; [done|]. apply Z.ltb_ge in El.
      assert (0 <= _MAX_ZIP_BODY_BYTES) by (unfold _MAX_ZIP_BODY_BYTES; lia). rewrite size_first in El by lia.
      rewrite first_all by lia. rewrite bind_step. destruct (zip_member s) as [data|] eqn:Em; [|done].
      rewrite bind_step. destruct (pk_close _ x2) as [[[]|] x3]; [|done]. cbn. split_and!; [done|lia|done].
    + cbn. split; [done|]. left. set_solver.
Qed.
End compression.

(** ** Properties *)

(** C28: whatever is peeked and read of a source through [PeekableReader],
    every answer is that of a file that holds the bytes of the source: peeking
    shows the next bytes and consumes nothing, [read] waits for all it was
    asked for, and what was read, with what is left, is the source's content,
    each byte once and in order. *)
Theorem peekable_transparent {W} (source_read : Z → M W string) (holds : W → string → Prop) w s ops outs x' :
  lawful source_read holds → holds w s → forallb sized ops = true →
  pk_run source_read ops (make_peekable, w) = (Ok outs, x') →
  ∃ s', answered s ops outs s' ∧ s = taken ops outs +:+ s' ∧ pk_holds holds x' s'.
Proof.
  intros Hl Hs Hz E. pose proof (run_answers source_read holds Hl ops (make_peekable, w) s Hz ltac:(right; by exists s)) as Hr.
  rewrite E in Hr. destruct Hr as (s' & Ha & Hs'). exists s'. split_and!; try done. by apply answered_split.
Qed.

(** C33: the decompressor of gzip, bzip2 or zstd delivers no more than the limit,
    however it is read and whatever its library does, also when its caller goes
    on after an error.  A read that raises raises [DecompressionError], or what
    the library raised where that is not one of the errors of the format: an
    [EOFError] or [OSError], for bzip2 and zstd a [ValueError], for zstd a
    [ZstdError].  So the [zlib.error] of a corrupt gzip body comes out as it
    is, although [_ErrorTranslatingReader] and [apply_compression] promise a
    [DecompressionError]. *)
Theorem decompressed_bounded {X} `{!Codecs X} format ns (x : X) : format ∈ ["gzip"; "bzip2"; "zstd"] →
  delivered (decompressor_run format ns (0, x)).1 <= _MAX_DECOMPRESSED_BYTES ∧
  (∀ n y e y', decompressor_read format n y = (Raise e, y') →
     exn_kind e = DecompressionError ∨ ∃ m, (codec_read format m y.2).1 = Raise e ∧ malformed_data format (exn_kind e) = false) ∧
  (∀ n y e, (∀ m, (codec_read format m y.2).1 = Raise e) → ∃ e', (decompressor_read format n y).1 = Raise e' ∧
     (exn_kind e ∈ [EOFError; OSError] → exn_kind e' = DecompressionError) ∧
     (exn_kind e = ValueError → if bool_decide (format = "gzip") then e' = e else exn_kind e' = DecompressionError) ∧
     (exn_kind e = ZstdError → if bool_decide (format = "zstd") then exn_kind e' = DecompressionError else e' = e) ∧
     (exn_kind e = ZlibError → e' = e)).
Proof.
  intros Hf. split; [|split].
  - pose proof (decompressor_bound format ns Hf (0, x) 0). cbn in *. unfold _MAX_DECOMPRESSED_BYTES in *. lia.
  - intros n y e y' E. pose proof (decompressor_step format n y Hf) as Hs. rewrite E in Hs. apply Hs.
  - intros n y e Hm. destruct (decompressor_fails format n y e Hf Hm) as (e' & He & Hk). exists e'. split; [done|].
    repeat (apply elem_of_cons in Hf as [->|Hf]); try (by apply not_elem_of_nil in Hf);
      (split; [intros Hin; repeat (apply elem_of_cons in Hin as [Hin|Hin]); try (by apply not_elem_of_nil in Hin); by rewrite Hin in Hk|]);
      split_and!; intros Hin; by rewrite Hin in Hk.
Qed.

(** The probe for a compression format loses nothing: a source that is
    returned as it is still holds all its bytes; a decompressor is the one of
    the format found; of a ZIP archive the first of its largest files is
    spooled, and neither the archive nor the file is larger than its limit. *)
Theorem compression_choice {W} `{!ZipFiles} `{!Codecs (peekable * W)} (source_read : Z → M W string) source_close holds ce w s o x' :
  lawful source_read holds → holds w s →
  apply_compression source_read source_close ce (make_peekable, w) = (Ok o, x') →
  compression_outcome holds ce s o x' ∧
  ∀ data, o = Spooled data → size data <= _MAX_DECOMPRESSED_BYTES ∧
    ∃ infos info, zip_infolist s = Ok infos ∧ info ∈ infos ∧ is_dir info = false ∧
      Forall (λ i, is_dir i = false → file_size i <= file_size info) infos ∧
      zip_read s info (_MAX_DECOMPRESSED_BYTES + 1) = Ok data.
Proof.
  intros Hl Hs E. pose proof (compression_spec source_read source_close holds Hl ce (make_peekable, w) s ltac:(right; by exists s)) as Hc.
  rewrite E in Hc. split; [exact Hc|]. intros data ->. destruct Hc as (_ & _ & Hm). by apply zip_member_ok.
Qed.

(** ** Witnesses *)

(** A body of five chunks, one of them empty, over a world that counts them *)
Definition chunk_of (c : string) : M nat string := λ n, (Ok c, S n).
Definition sample_chunks : list string := ["id,na"; "me"; ""; "; 1,alice;"; "2,bob"].
Definition sample_body : iterable nat * nat := (make_iterable (chunk_of <$> sample_chunks), 0%nat).
Definition sample_text : string := "id,name; 1,alice;2,bob".
Lemma sample_body_holds : it_holds sample_body sample_text.
Proof. right. exists sample_chunks. split; [|reflexivity]. repeat (constructor; [by intros w|]). constructor. Qed.
Definition sample_ops : list byte_op := [Peek 6; Read 2; ReadInto 5; Peek 100; Read 9; Read (-1)].
Definition sample_read := pk_run it_read sample_ops (make_peekable, sample_body).

Definition sample_outs : list string := ["id,nam"; "id"; ",nam"; "e; 1,alice;2,bob"; "e; 1,alic"; "e;2,bob"].

Lemma peekable_transparent_witness :
  sample_read.1 = Ok sample_outs ∧
  ∃ s', answered sample_text sample_ops sample_outs s' ∧ sample_text = taken sample_ops sample_outs +:+ s'.
Proof.
  split; [vm_compute; reflexivity|].
  destruct (pk_run it_read sample_ops (make_peekable, sample_body)) as [r x'] eqn:E.
  assert (r = Ok sample_outs) as -> by (apply (f_equal fst) in E; vm_compute in E; symmetry; exact E).
  destruct (peekable_transparent it_read it_holds sample_body sample_text sample_ops sample_outs x' (exact_lawful _ _ iterable_exact)
    sample_body_holds eq_refl E) as (s' & Ha & Es & _). exists s'. exact (conj Ha Es).
Defined.

(** A library that gives three bytes a time, and one whose gzip body is corrupt *)
Definition good_codecs : Codecs unit := {| codec_open _ := Some (mret tt); codec_read _ _ := mret "abc" |}.
Definition corrupt : exn := err ZlibError "invalid block type".
Definition corrupt_codecs : Codecs unit := {| codec_open _ := Some (mret tt); codec_read _ _ := throw corrupt |}.
Lemma decompressed_bounded_witness :
  (let reads := (decompressor_run (Codecs0 := good_codecs) "bzip2" [2; 5] (0, tt)).1 in delivered reads = 6 ∧ delivered reads <= _MAX_DECOMPRESSED_BYTES) ∧
  (decompressor_read (Codecs0 := corrupt_codecs) "gzip" 100 (0, tt)).1 = Raise corrupt.
Proof.
  split; [split; [vm_compute; reflexivity|]|].
  - exact (proj1 (decompressed_bounded (Codecs0 := good_codecs) "bzip2" [2; 5] tt ltac:(set_solver))).
  - destruct (decompressed_bounded (Codecs0 := corrupt_codecs) "gzip" [] tt ltac:(set_solver)) as (_ & _ & Hf).
    destruct (Hf 100 (0, tt) corrupt (λ m, eq_refl)) as (e' & -> & _ & _ & _ & Hz). by rewrite Hz.
Defined.

#[local] Instance sample_zip : ZipFiles := {|
  zip_infolist _ := Ok [{| zip_filename := "docs/"; file_size := 0; is_dir := true |}; {| zip_filename := "README"; file_size := 2; is_dir := false |};
                        {| zip_filename := "data.csv"; file_size := 9; is_dir := false |}];
  zip_read _ info _ := Ok (zip_filename info) |}.
#[local] Instance sample_codecs X : Codecs X := {| codec_open _ := Some (mret tt); codec_read _ _ := mret "" |}.
Definition sample_archive : iterable nat * nat := (make_iterable [chunk_of (_ZIP_MAGIC +:+ "...")], 0%nat).
Definition sample_spool := apply_compression it_read None None (make_peekable, sample_archive).

Lemma compression_choice_witness : sample_spool.1 = Ok (Spooled "data.csv") ∧ size "data.csv" <= _MAX_DECOMPRESSED_BYTES.
Proof.
  assert (E : sample_spool = (Ok (Spooled "data.csv"), sample_spool.2)) by (vm_compute; reflexivity).
  split; [by rewrite E|].
  assert (Hs : it_holds sample_archive (_ZIP_MAGIC +:+ "...")).
  { right. exists [_ZIP_MAGIC +:+ "..."]. split; [|reflexivity]. constructor; [by intros w|constructor]. }
  exact (proj1 (proj2 (compression_choice it_read None it_holds None sample_archive _ _ _ (exact_lawful _ _ iterable_exact) Hs E)
    "data.csv" eq_refl)).
Defined.
