(* ===== verification/Readers.v ===== *)
(** * Format readers

    [data/readers/]: the registry of formats, the ceiling on whole documents,
    and what each reader does around its decoder: the re-chunking of CSV
    batches, the way into JSON arrays and lines, the rows of GeoJSON features
    and their geometry text, the headers and rows of a worksheet.  The decoders
    and tables of [pyarrow], [json.loads] of bytes and [openpyxl] are the
    environment.

    A generator over the batches of a decoder is a function of their list: what
    it yields, and what it raises after that. *)
From Stdlib Require Import QArith Ascii ZArith Lia.
From stdpp Require Import strings.
From S2P Require Import Prelude PyVal Regex Transport Urls JsonText Materialize ByteSource.
Local Close Scope Q_scope.
Local Open Scope Z_scope.
Local Open Scope py_scope.

Definition format_error (text : string) : exn := err FormatError text.

(** ** The registry *)

Inductive FormatReader := CSVReader | JSONReader | XLSXReader | ParquetReader | GeoJSONReader.
#[global] Instance FormatReader_eq_dec : EqDecision FormatReader.
Proof. solve_decision. Defined.

Definition READERS : list (string * FormatReader) :=
  [("CSV", CSVReader); ("JSON", JSONReader); ("JSONL", JSONReader); ("NDJSON", JSONReader); ("XLSX", XLSXReader);
   ("XLS", XLSXReader); ("PARQUET", ParquetReader); ("GEOJSON", GeoJSONReader)].
Definition get_reader (format_name : string) : result FormatReader :=
  match dict_get (string_map upper_char format_name) READERS with
  | Some r => Ok r
  | None => Raise (err KeyError ("Unsupported format: " +:+ format_name))
  end.

(** ** Whole documents *)

Section documents.
Context {X : Type}.
Variable source_read : Z → M X string.

(** One round of the loop: [inr] when the source is at its end *)
Definition read_chunk (data : string) : M X (string + string) :=
  chunk ← source_read (Z.min 65536 (MAX_DOCUMENT_BYTES + 1 - size data));
  if str_nonempty chunk then
    let data := data +:+ chunk in
    lift_res (raise_if (MAX_DOCUMENT_BYTES <? size data)
      (format_error "Whole-document JSON and GeoJSON reads are limited to 64 MiB; use JSONL for larger data"));;
    mret (inl data)
  else mret (inr data).
(** No more rounds than bytes *)
Definition read_document : M X string :=
  r ← upto (Z.to_pos (MAX_DOCUMENT_BYTES + 1)) read_chunk "";
  match r with inl data | inr data => mret data end.
End documents.

(** ** Workbooks

    What [openpyxl] gives of a workbook: the header row as texts, [None] for a
    blank cell, and the rows under it *)
Inductive workbook :=
  | NoActiveSheet
  | EmptySheet
  | Sheet (header_row : list (option string)) (rows : list (list pyval)).

(** ** Tables *)

(** A record: the values of named columns *)
Abbreviation record := (list (string * pyval)).

(** [RecordBatch] and [Table] of [pyarrow], as the readers use them *)
Class ArrowTables (B T : Type) := {
  batch_len : B → Z;
  batch_slice : B → Z → Z → B;
  from_batch : B → T;
  concat_tables : T → T → T;
  table_len : T → Z;
  table_slice : T → Z → option Z → T;
  to_batches : T → list B;
  to_batches_of : Z → T → list B;
  from_pylist : list record → result T;
  batch_from_pylist : list record → result B;
  empty_table : T
}.

(** [except (pa.ArrowInvalid, ...) as exc: raise FormatError] *)
Definition arrow_failure {A} (text : string) (r : result A) : result A :=
  match r with Raise e => Raise (if is_subclass (exn_kind e) ArrowError then format_error text else e) | Ok a => Ok a end.

Section readers.
Context {B T : Type} `{!ArrowTables B T}.

(** *** CSV *)

(** [while current.num_rows >= batch_size]: each round drops a batch. *)
Fixpoint cut_batches (fuel : nat) (batch_size : Z) (current : T) : list B * T :=
  match fuel with
  | O => ([], current)
  | S fuel =>
      if batch_size <=? table_len current then
        let '(heads, rest) := cut_batches fuel batch_size (table_slice current batch_size None) in
        (take 1 (to_batches (table_slice current 0 (Some batch_size))) ++ heads, rest)
      else ([], current)
  end.
Definition cut (batch_size : Z) (current : T) : list B * T := cut_batches (Z.to_nat (table_len current)) batch_size current.

(** The body of the loop: [pending] and what is yielded *)
Definition rechunk_batch (batch_size : Z) (pending : option T) (batch : B) : list B * option T :=
  if batch_len batch =? 0 then ([], pending)
  else
    let current := from_batch batch in
    let current := match pending with Some p => concat_tables p current | None => current end in
    let '(heads, rest) := cut batch_size current in
    (heads, if 0 <? table_len rest then Some rest else None).
Fixpoint rechunk_loop (batch_size : Z) (pending : option T) (reader : list (result B)) : list B * option exn :=
  match reader with
  | [] => (match pending with Some p => if 0 <? table_len p then to_batches p else [] | None => [] end, None)
  | Raise e :: _ => ([], Some e)
  | Ok batch :: reader =>
      let '(heads, pending) := rechunk_batch batch_size pending batch in
      let '(out, e) := rechunk_loop batch_size pending reader in (heads ++ out, e)
  end.
Definition _rechunk_reader (reader : list (result B)) (batch_size : Z) : list B * option exn :=
  if batch_size <=? 0 then ([], Some (format_error "CSV batch_size must be a positive integer"))
  else rechunk_loop batch_size None reader.

(** [CSVReader.read_batches]: [opened] is [pacsv.open_csv(source)]. *)
Definition csv_read_batches (opened : result (list (result B))) (batch_size : Z) : list B * option exn :=
  match arrow_failure "Invalid CSV" opened with
  | Ok reader => _rechunk_reader reader batch_size
  | Raise e => ([], Some e)
  end.

(** *** JSON lines *)

(** [range(0, batch.num_rows, batch_size)] and its slices *)
Fixpoint slices (fuel : nat) (batch : B) (offset batch_size : Z) : list B :=
  match fuel with
  | O => []
  | S fuel =>
      if offset <? batch_len batch then batch_slice batch offset batch_size :: slices fuel batch (offset + batch_size) batch_size
      else []
  end.
Definition batch_slices (batch_size : Z) (batch : B) : list B := slices (Z.to_nat (batch_len batch)) batch 0 batch_size.
Fixpoint each_slices (batch_size : Z) (reader : list (result B)) : list B * option exn :=
  match reader with
  | [] => ([], None)
  | Raise e :: _ => ([], Some e)
  | Ok batch :: reader => let '(out, e) := each_slices batch_size reader in (batch_slices batch_size batch ++ out, e)
  end.
(** [_read_jsonl]: [opened] is [paj.open_json(source)]; an [ArrowError] of any
    later batch is a [FormatError] too. *)
Definition jsonl_error (e : exn) : exn := if is_subclass (exn_kind e) ArrowError then format_error "Invalid JSONL" else e.
Definition _read_jsonl (opened : result (list (result B))) (batch_size : Z) : list B * option exn :=
  match opened with
  | Ok reader => prod_map id (fmap jsonl_error) (each_slices batch_size reader)
  | Raise e => ([], Some (jsonl_error e))
  end.

(** *** JSON arrays *)

(** [json.loads(data)] of bytes: [JSONDecodeError] for what is no JSON,
    [UnicodeError] for what is no text *)
Class JsonDocument := json_document : string → result pyval.
Context `{!JsonDocument}.

Definition json_failure {A} (text : string) (r : result A) : result A :=
  match r with Raise e => Raise (if is_subclass (exn_kind e) JSONDecodeError then format_error text else e) | Ok a => Ok a end.

(** A JSON object as a record; its keys are strings. *)
Definition record_of (v : pyval) : option record :=
  match v with PyDict kvs => Some ((λ kv, (key_text kv, kv.2)) <$> kvs) | _ => None end.

Definition json_array (data : string) : result (list record) :=
  parsed ← json_failure "Invalid JSON array" (json_document data);
  match parsed with
  | PyList items =>
      match mapM record_of items with
      | Some records => Ok records
      | None => Raise (format_error "JSON array elements must be objects")
      end
  | _ => Raise (format_error "Expected JSON array")
  end.
Definition _read_array (data : string) : result T :=
  records ← json_array data;
  match records with
  | [] => Ok empty_table
  | _ => arrow_failure "Could not coerce JSON array to Arrow" (from_pylist records)
  end.

(** *** The way into a JSON document

    [inl] is the text of an array, [inr] whether the source holds lines, from
    its first byte on; nothing is left of an empty one. *)
Section json.
Context {W : Type}.
Variable source_read : Z → M W string.
Abbreviation P := (M (peekable * W)).

Definition BOM : string := magic [239; 187; 191].
Definition is_json_space (s : string) : bool := bool_decide (s ∈ [" "; magic [9]; magic [13]; magic [10]]).

(** [while source.peek(1) and source.peek(1) in b" \t\r\n": source.read(1)]:
    [space] bytes at most *)
Definition skip_byte (_ : unit) : P (unit + unit) :=
  next ← peek source_read 1;
  if str_nonempty next && is_json_space next then pk_read source_read 1;; mret (inl tt) else mret (inr tt).

Definition json_open (space : positive) : P (string + bool) :=
  bom ← peek source_read 3;
  (if bool_decide (bom = BOM) then pk_read source_read 3;; mret tt else mret tt);;
  upto space skip_byte tt;;
  first ← peek source_read 1;
  if negb (str_nonempty first) then mret (inr false)
  else if bool_decide (first = "[") then data ← read_document (pk_read source_read); mret (inl data)
  else if bool_decide (first = "{") then mret (inr true)
  else throw (format_error ("Unexpected JSON leading byte: " +:+ first)).
End json.

(** [JSONReader.read_batches], where the decoder of lines is given *)
Definition json_read_batches {W} (source_read : Z → M W string) (open_json : M (peekable * W) (list (result B))) (space : positive)
    (batch_size : Z) : M (peekable * W) (list B * option exn) :=
  content ← json_open source_read space;
  match content with
  | inl data => table ← lift_res (_read_array data); mret (to_batches_of batch_size table, None)
  | inr false => mret ([], None)
  | inr true =>
      opened ← try_except (reader ← open_json; mret (Ok reader)) (λ e, Some (mret (Raise e)));
      mret (_read_jsonl opened batch_size)
  end.

(** *** Rows in chunks *)

(** The buffer of [_row_chunks] and of the GeoJSON reader *)
Fixpoint row_chunks {R} (batch_size : Z) (buffer rows : list R) : list (list R) :=
  match rows with
  | [] => match buffer with [] => [] | _ => [buffer] end
  | row :: rows =>
      let buffer := buffer ++ [row] in
      if batch_size <=? Z.of_nat (length buffer) then buffer :: row_chunks batch_size [] rows
      else row_chunks batch_size buffer rows
  end.

Definition _batch_from_rows (rows : list record) : result B :=
  table ← from_pylist rows;
  match to_batches table with
  | [] => batch_from_pylist rows
  | batch :: _ => Ok batch
  end.

(** The batches of chunks, up to the first that fails *)
Fixpoint batches_of (chunks : list (list record)) : list B * option exn :=
  match chunks with
  | [] => ([], None)
  | rows :: chunks =>
      match _batch_from_rows rows with
      | Ok batch => let '(out, e) := batches_of chunks in (batch :: out, e)
      | Raise e => ([], Some e)
      end
  end.

(** *** GeoJSON *)

Context `{!FloatText}.

(** [str(value)] of a list or an object *)
Class ContainerText := container_text : pyval → string.
Context `{!ContainerText}.

Definition _is_xy (position : pyval) : bool := match position with PyList l => Nat.eqb (length l) 2 | _ => false end.
Definition _fmt_coord (value : pyval) : string :=
  match value with
  | PyFloat (FFin q) => if Pos.eqb (Qden (Qred q)) 1 then int_repr (Qnum (Qred q)) else float_repr q
  | PyFloat (FInf negative) => if negative then "-inf" else "inf"
  | PyFloat FNan => "nan"
  | PyInt z => int_repr z
  | PyStr s => s
  | PyBool b => if b then "True" else "False"
  | PyNone => "None"
  | _ => container_text value
  end.
Definition point_text (position : pyval) : string :=
  match position with PyList [x; y] => _fmt_coord x +:+ " " +:+ _fmt_coord y | _ => "" end.
Definition points_text (points : list pyval) : string := String.concat ", " (point_text <$> points).

(** [json.dumps(value, separators=(",", ":"))], keys in their order *)
Fixpoint dumps_plain (v : pyval) : result string :=
  match v with
  | PyList l | PyTuple l => ts ← map_res dumps_plain l; Ok ("[" +:+ String.concat "," ts +:+ "]")
  | PyDict kvs =>
      ts ← dumps_items dumps_plain kvs;
      Ok ("{" +:+ String.concat "," ((λ kt, encode_string kt.1 +:+ ":" +:+ kt.2) <$> ts) +:+ "}")
  | _ => dumps false v
  end.

Definition attribute_error : exn := err AttributeError "object has no attribute 'get'".
(** [_to_wkt]; a geometry that is neither [None] nor an object has no [get]. *)
Definition _to_wkt (geometry : pyval) : result string :=
  match geometry with
  | PyNone => Ok ""
  | PyDict g =>
      let geom_type := default PyNone (lookup_key "type" g) in
      match geom_type, default PyNone (lookup_key "coordinates" g) with
      | PyStr "Point", (PyList [x; y]) as coords => Ok ("POINT (" +:+ point_text coords +:+ ")")
      | PyStr "LineString", PyList points =>
          if forallb _is_xy points then Ok ("LINESTRING (" +:+ points_text points +:+ ")") else dumps_plain geometry
      | PyStr "Polygon", PyList rings =>
          if forallb (λ ring, match ring with PyList points => forallb _is_xy points | _ => false end) rings then
            Ok ("POLYGON (" +:+ String.concat ", " ((λ ring, match ring with PyList points => "(" +:+ points_text points +:+ ")" | _ => "" end) <$> rings) +:+ ")")
          else dumps_plain geometry
      | _, _ => dumps_plain geometry
      end
  | _ => Raise attribute_error
  end.

(** [dict(value)] of a list of pairs with string keys *)
Fixpoint dict_of_pairs (items : list pyval) (d : record) : result record :=
  match items with
  | [] => Ok d
  | PyList [PyStr k; v] :: items => dict_of_pairs items (dict_set k v d)
  | PyStr (String a (String b "")) :: items => dict_of_pairs items (dict_set (String a "") (PyStr (String b "")) d)
  | _ => Raise (err ValueError "dictionary update sequence element")
  end.
(** [dict(feature.get("properties") or {})] *)
Definition properties_of (feature : list (pyval * pyval)) : result record :=
  match default PyNone (lookup_key "properties" feature) with
  | PyDict kvs => Ok ((λ kv, (key_text kv, kv.2)) <$> kvs)
  | PyList items => dict_of_pairs items []
  | PyNone | PyBool false | PyStr "" | PyInt 0 => Ok []
  | PyFloat (FFin q) => if Qeq_bool q 0 then Ok [] else Raise (err TypeError "object is not iterable")
  | PyStr _ => Raise (err ValueError "dictionary update sequence element")
  | _ => Raise (err TypeError "object is not iterable")
  end.
Definition feature_row (feature : pyval) : result record :=
  match feature with
  | PyDict f =>
      row ← properties_of f;
      wkt ← _to_wkt (default PyNone (lookup_key "geometry" f));
      Ok (dict_set "geometry_wkt" (PyStr wkt) row)
  | _ => Raise attribute_error
  end.

(** The loop over the features; [buffer] is what the next batch is made of. *)
Definition flush (buffer : list record) : list B * option exn :=
  match buffer with [] => ([], None) | _ => batches_of [buffer] end.
Fixpoint feature_batches (batch_size : Z) (buffer : list record) (features : list pyval) : list B * option exn :=
  match features with
  | [] => flush buffer
  | feature :: features =>
      match feature_row feature with
      | Raise e => ([], Some e)
      | Ok row =>
          let buffer := buffer ++ [row] in
          if batch_size <=? Z.of_nat (length buffer) then
            match _batch_from_rows buffer with
            | Ok batch => let '(out, e) := feature_batches batch_size [] features in (batch :: out, e)
            | Raise e => ([], Some e)
            end
          else feature_batches batch_size buffer features
      end
  end.

Definition is_byte_space (c : ascii) : bool := in_range 9 13 c || (code c =? 32).
Definition iterate (features : pyval) : result (list pyval) :=
  match features with
  | PyList l => Ok l
  | PyDict kvs => Ok kvs.*1
  | PyStr s => Ok ((λ c, PyStr (String c "")) <$> String.list_ascii_of_string s)
  | _ => Raise (err TypeError "object is not iterable")
  end.
Definition geojson_features (data : string) : result (list pyval) :=
  if string_forallb is_byte_space data then Ok []
  else
    parsed ← json_failure "Invalid GeoJSON" (json_document data);
    match parsed with
    | PyDict root =>
        match default PyNone (lookup_key "type" root) with
        | PyStr "FeatureCollection" => iterate (default (PyList []) (lookup_key "features" root))
        | PyStr "Feature" => Ok [parsed]
        | _ => Raise (format_error "Unexpected GeoJSON root type")
        end
    | _ => Raise (format_error "Unexpected GeoJSON root type")
    end.
Definition geojson_read_batches {X} (source_read : Z → M X string) (batch_size : Z) : M X (list B * option exn) :=
  data ← read_document source_read;
  mret (match geojson_features data with
        | Ok features => feature_batches batch_size [] features
        | Raise e => ([], Some e)
        end).

(** *** Worksheets

    The cells of the header row as texts, [None] for a blank one *)
Definition count_header (state : list string * list (string * Z)) (value : option string) : list string * list (string * Z) :=
  let header := default "" value in
  let count := default 0 (dict_get header state.2) in
  (state.1 ++ [if count =? 0 then header else header +:+ "_" +:+ int_repr (count + 1)], dict_set header (count + 1) state.2).
Definition _deduplicated_headers (header_row : list (option string)) : list string :=
  (foldl count_header ([], []) header_row).1.

(** [dict(zip(headers, row, strict=False))] *)
Definition row_dict (headers : list string) (row : list pyval) : record :=
  dict_merge [] (zip headers row).

(** [XLSXReader.read_batches] over the rows of the active worksheet, or what
    [load_workbook] raised *)
Definition xlsx_read_batches (workbook : result workbook) (batch_size : Z) : list B * option exn :=
  match workbook with
  | Raise e => ([], Some (if is_Exception (exn_kind e) then format_error "Invalid XLSX" else e))
  | Ok NoActiveSheet => ([], Some (format_error "Invalid XLSX: workbook has no active worksheet"))
  | Ok EmptySheet => ([], None)
  | Ok (Sheet header_row rows) =>
      let headers := _deduplicated_headers header_row in
      let '(out, e) := batches_of (row_chunks batch_size [] (row_dict headers <$> rows)) in
      (out, (λ e, if is_subclass (exn_kind e) ArrowError then format_error "Could not coerce XLSX rows to Arrow" else e) <$> e)
  end.
End readers.
