(* ===== verification/ReadersProofs.v ===== *)
(** * What the readers keep of their input

    Chunks of rows, slices of batches and the table of an array keep every row
    once and in order; re-chunked CSV batches do where no batch straddles a
    boundary, and lose rows where one does.  The headers of a worksheet are
    made distinct, but not from each other's replacements.

    Tables obey the laws of [pyarrow]: concatenation and slicing are
    zero-copy, so the chunks of a table stay apart and [to_batches] gives one
    batch for each. *)
From Stdlib Require Import QArith Ascii ZArith Lia.
From stdpp Require Import strings.
From S2P Require Import Prelude PyVal Regex Transport Urls JsonText Materialize ByteSource ByteSourceProofs Readers.
Local Close Scope Q_scope.
Local Open Scope Z_scope.
Local Open Scope py_scope.

(** ** Chunks *)

Section chunks.
Context {R : Type}.
Implicit Types (cs : list (list R)).

Fixpoint chunk_drop (n : nat) cs : list (list R) :=
  match cs with
  | [] => []
  | c :: cs => if (length c <=? n)%nat then chunk_drop (n - length c) cs else drop n c :: cs
  end.
Fixpoint chunk_take (n : nat) cs : list (list R) :=
  match cs with
  | [] => []
  | c :: cs => if (n =? 0)%nat then [] else if (n <=? length c)%nat then [take n c] else c :: chunk_take (n - length c) cs
  end.

Lemma concat_drop n cs : concat (chunk_drop n cs) = drop n (concat cs).
Proof.
  revert n. induction cs as [|c cs IH]; intros n; cbn; [by rewrite drop_nil|]. rewrite drop_app. destruct (length c <=? n)%nat eqn:E.
  - apply Nat.leb_le in E. by rewrite IH, (drop_ge c) by done.
  - apply Nat.leb_gt in E. cbn. by replace (n - length c)%nat with 0%nat by lia.
Qed.
Lemma concat_take n cs : concat (chunk_take n cs) = take n (concat cs).
Proof.
  revert n. induction cs as [|c cs IH]; intros n; cbn; [by rewrite take_nil|]. destruct (n =? 0)%nat eqn:E0; [apply Nat.eqb_eq in E0 as ->; by rewrite take_0|].
  rewrite take_app. destruct (n <=? length c)%nat eqn:E; cbn.
  - apply Nat.leb_le in E. replace (n - length c)%nat with 0%nat by lia. by rewrite take_0.
  - apply Nat.leb_gt in E. by rewrite IH, (take_ge c) by lia.
Qed.
(** One chunk stays one. *)
Lemma one_drop n cs : (length cs ≤ 1)%nat → (length (chunk_drop n cs) ≤ 1)%nat.
Proof. destruct cs as [|c [|c' cs]]; cbn; try lia. intros _. by destruct (_ <=? _)%nat; cbn; lia. Qed.
Lemma one_take n cs : (length cs ≤ 1)%nat → (length (chunk_take n cs) ≤ 1)%nat.
Proof. destruct cs as [|c [|c' cs]]; cbn; try lia. intros _. by repeat case_match; cbn; lia. Qed.
Lemma one_chunk cs : (length cs ≤ 1)%nat → concat (take 1 cs) = concat cs.
Proof. destruct cs as [|c [|c' cs]]; cbn; try done. lia. Qed.
Lemma first_chunk_sublist cs : concat (take 1 cs) `sublist_of` concat cs.
Proof. destruct cs as [|c cs]; cbn; [done|]. rewrite take_0. cbn. rewrite app_nil_r. by apply sublist_inserts_r. Qed.
End chunks.

(** ** Laws of tables *)

(** What [from_pylist] makes of records: the columns are those of the first *)
Definition first_columns (rs : list record) : list record :=
  match rs with [] => [] | r :: _ => (λ row, (λ kv, (kv.1, default PyNone (dict_get kv.1 row))) <$> r) <$> rs end.

Class TableLaws (B T : Type) `{!ArrowTables B T} (rows : B → list record) : Prop := {
  law_batch_len b : batch_len b = Z.of_nat (length (rows b));
  law_table_len t : table_len t = Z.of_nat (length (concat (rows <$> to_batches t)));
  law_from_batch b : rows b ≠ [] → rows <$> to_batches (from_batch b) = [rows b];
  law_concat s t : rows <$> to_batches (concat_tables s t) = (rows <$> to_batches s) ++ (rows <$> to_batches t);
  law_slice t o n : 0 <= o → 0 <= default 0 n → rows <$> to_batches (table_slice t o n) =
    match n with Some n => chunk_take (Z.to_nat n) | None => id end (chunk_drop (Z.to_nat o) (rows <$> to_batches t));
  law_batch_slice b o n : 0 <= o → 0 <= n → rows (batch_slice b o n) = take (Z.to_nat n) (drop (Z.to_nat o) (rows b));
  law_to_batches_of n t : 0 < n → concat (rows <$> to_batches_of n t) = concat (rows <$> to_batches t) ∧
    Forall (λ b, Z.of_nat (length (rows b)) <= n) (to_batches_of n t);
  law_from_pylist rs t : from_pylist rs = Ok t → (length (to_batches t) ≤ 1)%nat ∧ concat (rows <$> to_batches t) = first_columns rs;
  law_batch_from_pylist rs b : batch_from_pylist rs = Ok b → rows b = first_columns rs;
  law_empty : concat (rows <$> to_batches empty_table) = []
}.

Section readers.
Context {B T : Type} `{!ArrowTables B T} (rows : B → list record) `{!TableLaws B T rows}.

Definition chunks (t : T) : list (list record) := rows <$> to_batches t.
Definition table_rows (t : T) : list record := concat (chunks t).
Definition rows_of (bs : list B) : list record := concat (rows <$> bs).

Lemma rows_of_app a b : rows_of (a ++ b) = rows_of a ++ rows_of b.
Proof. unfold rows_of. by rewrite fmap_app, concat_app. Qed.

(** *** Re-chunking *)

Section rechunk.
Variable n : Z.
Hypothesis n_positive : 0 < n.
Definition fits (b : B) : Prop := Z.of_nat (length (rows b)) <= n.

(** A round of the inner loop *)
Lemma head_spec t : n <= table_len t →
  let head := take 1 (to_batches (table_slice t 0 (Some n))) in
  let rest := table_slice t n None in
  Forall fits head ∧ table_rows rest = drop (Z.to_nat n) (table_rows t) ∧
  rows_of head `sublist_of` take (Z.to_nat n) (table_rows t) ∧
  ((length (chunks t) ≤ 1)%nat → rows_of head = take (Z.to_nat n) (table_rows t) ∧ (length (chunks rest) ≤ 1)%nat).
Proof.
  intros Hn. cbn zeta. pose proof (law_slice t 0 (Some n) ltac:(lia) ltac:(cbn; lia)) as Hh.
  pose proof (law_slice t n None ltac:(lia) ltac:(done)) as Hr.
  assert (Hsub : rows_of (take 1 (to_batches (table_slice t 0 (Some n)))) =
    concat (take 1 (chunk_take (Z.to_nat n) (chunk_drop 0 (chunks t))))).
  { unfold rows_of. rewrite fmap_take, Hh. done. }
  assert (Hzero : concat (chunk_drop 0 (chunks t)) = table_rows t) by by rewrite concat_drop, drop_0.
  assert (Hsublist : rows_of (take 1 (to_batches (table_slice t 0 (Some n)))) `sublist_of` take (Z.to_nat n) (table_rows t)).
  { rewrite Hsub, <- Hzero, <- concat_take. apply first_chunk_sublist. }
  split_and!.
  - destruct (to_batches (table_slice t 0 (Some n))) as [|b bs]; cbn in *; [constructor|]. rewrite take_0 in *. constructor; [|constructor].
    unfold fits. apply sublist_length in Hsublist. unfold rows_of in Hsublist. cbn in Hsublist. rewrite app_nil_r, length_take in Hsublist. lia.
  - unfold table_rows, chunks. rewrite Hr. cbn. by rewrite concat_drop.
  - exact Hsublist.
  - intros Hone. split.
    + rewrite Hsub, one_chunk by by apply one_take, one_drop. by rewrite concat_take, Hzero.
    + unfold chunks. rewrite Hr. by apply one_drop.
Qed.

Lemma cut_spec fuel : ∀ t, (length (table_rows t) ≤ fuel)%nat →
  let '(heads, rest) := cut_batches fuel n t in
  Forall fits heads ∧ Z.of_nat (length (table_rows rest)) < n ∧
  rows_of heads ++ table_rows rest `sublist_of` table_rows t ∧
  ((length (chunks t) ≤ 1)%nat → rows_of heads ++ table_rows rest = table_rows t ∧ (length (chunks rest) ≤ 1)%nat) ∧
  (Z.of_nat (length (table_rows t)) < n → heads = [] ∧ rest = t) ∧
  ∃ k, table_rows rest = drop (k * Z.to_nat n) (table_rows t).
Proof.
  induction fuel as [|fuel IH]; intros t Hf; cbn [cut_batches].
  - split_and!; [constructor|lia|apply reflexivity|by intros|by intros|by exists 0%nat].
  - rewrite law_table_len. fold (chunks t). fold (table_rows t). destruct (n <=? _) eqn:En; [apply Z.leb_le in En|apply Z.leb_gt in En].
    2:{ split_and!; [constructor|done|apply reflexivity|by intros|by intros|by exists 0%nat]. }
    destruct (head_spec t ltac:(by rewrite law_table_len)) as (Hfit & Hrest & Hsub & Hone).
    set (head := take 1 _) in *. set (rest := table_slice t n None) in *.
    specialize (IH rest ltac:(rewrite Hrest, length_drop; lia)). destruct (cut_batches fuel n rest) as [heads rest'].
    destruct IH as (Hfit' & Hlt & Hsub' & Hone' & _ & k & Hk). rewrite rows_of_app. split_and!.
    + by apply Forall_app.
    + done.
    + rewrite <- (take_drop (Z.to_nat n) (table_rows t)), <- app_assoc. apply sublist_app; [done|]. by rewrite <- Hrest.
    + intros H1. destruct (Hone H1) as [E1 H2]. destruct (Hone' H2) as [E2 H3]. split; [|done].
      by rewrite <- app_assoc, E2, E1, Hrest, take_drop.
    + lia.
    + exists (S k). rewrite Hk, Hrest, drop_drop. f_equal; lia.
Qed.

Definition pending_rows (pending : option T) : list record := match pending with Some p => table_rows p | None => [] end.

Lemma rest_rows (rest : T) : pending_rows (if 0 <? table_len rest then Some rest else None) = table_rows rest.
Proof.
  destruct (0 <? table_len rest) eqn:E; [done|]. apply Z.ltb_ge in E. rewrite law_table_len in E. unfold table_rows, chunks. cbn.
  by destruct (concat _); [|cbn in E; lia].
Qed.

(** One batch of the decoder *)
Lemma batch_spec pending b : Z.of_nat (length (pending_rows pending)) < n →
  let '(heads, pending') := rechunk_batch n pending b in
  let input := pending_rows pending ++ rows b in
  Forall fits heads ∧ Z.of_nat (length (pending_rows pending')) < n ∧
  rows_of heads ++ pending_rows pending' `sublist_of` input ∧
  (Z.of_nat (length input) < n → heads = [] ∧ pending_rows pending' = input) ∧
  (pending = None → rows_of heads ++ pending_rows pending' = input ∧ ((n | Z.of_nat (length (rows b))) → pending' = None)).
Proof.
  intros Hp. unfold rechunk_batch. rewrite law_batch_len. destruct (Z.of_nat (length (rows b)) =? 0) eqn:E0.
  { apply Z.eqb_eq in E0. assert (rows b = []) as -> by by apply nil_length_inv, Nat2Z.inj. cbn zeta. rewrite app_nil_r.
    split_and!; [constructor|done|done|done|]. intros ->. by split. }
  apply Z.eqb_neq in E0. assert (Hb : rows b ≠ []) by (intros E; by rewrite E in E0).
  set (current := match pending with Some p => concat_tables p (from_batch b) | None => from_batch b end).
  assert (Hcur : table_rows current = pending_rows pending ++ rows b ∧ (pending = None → chunks current = [rows b])).
  { unfold current, table_rows, chunks. destruct pending as [p|]; cbn; rewrite ?law_concat, law_from_batch by done; [|by cbn; rewrite app_nil_r].
    split; [|done]. rewrite concat_app. cbn. by rewrite app_nil_r. }
  destruct Hcur as [Hcur Hone]. unfold cut. rewrite law_table_len. fold (chunks current). fold (table_rows current).
  pose proof (cut_spec _ current (Nat.le_refl _)) as Hcut. rewrite Nat2Z.id. destruct (cut_batches _ n current) as [heads rest].
  destruct Hcut as (Hfit & Hlt & Hsub & H1 & Hshort & k & Hk). rewrite rest_rows, <- Hcur. split_and!; try done.
  - intros Hlen. by destruct (Hshort Hlen) as [-> ->].
  - intros ->. specialize (Hone eq_refl). destruct H1 as [E1 _]; [by rewrite Hone|]. split; [done|]. intros [m Hm].
    assert (Hlen : length (table_rows rest) = 0%nat).
    { rewrite Hk, length_drop, Hcur in *. cbn in *. rewrite Nat2Z.inj_sub_max in Hlt. rewrite Nat2Z.inj_mul, Z2Nat.id, Hm in Hlt by lia.
      assert (m <= Z.of_nat k) by nia. apply Nat.sub_0_le, Nat2Z.inj_le. rewrite Nat2Z.inj_mul, Z2Nat.id, Hm by lia. nia. }
    rewrite law_table_len. fold (chunks rest). fold (table_rows rest). by rewrite Hlen.
Qed.

(** The batches before the first failure of a decoder, and that failure *)
Fixpoint decoded (reader : list (result B)) : list B * option exn :=
  match reader with
  | [] => ([], None)
  | Raise e :: _ => ([], Some e)
  | Ok b :: reader => let '(bs, e) := decoded reader in (b :: bs, e)
  end.
(** Every batch but the last ends at a boundary. *)
Fixpoint aligned (bs : list B) : Prop :=
  match bs with [] | [_] => True | b :: bs => (n | Z.of_nat (length (rows b))) ∧ aligned bs end.

Lemma rechunk_spec reader : ∀ pending, Z.of_nat (length (pending_rows pending)) < n →
  let '(bs, e) := decoded reader in
  let input := pending_rows pending ++ rows_of bs in
  let '(out, e') := rechunk_loop n pending reader in
  e' = e ∧ Forall fits out ∧ rows_of out `sublist_of` input ∧
  (e = None → Z.of_nat (length input) < n ∨ pending = None ∧ aligned bs → rows_of out = input).
Proof.
  induction reader as [|[b|e] reader IH]; intros pending Hp; cbn [decoded rechunk_loop].
  - cbn zeta. unfold rows_of at 2 4 5. cbn. rewrite app_nil_r. assert (E : ∀ p, pending = Some p → rows_of (to_batches p) = pending_rows pending) by by intros p ->.
    destruct pending as [p|]; [|split_and!; [done|constructor|done|done]]. specialize (E p eq_refl).
    destruct (0 <? table_len p) eqn:El.
    + rewrite E. split_and!; [done| |done|done]. apply Forall_forall. intros b Hb. unfold fits.
      assert (rows b ∈ chunks p) as Hin by (apply list_elem_of_fmap; by exists b). cbn in Hp. unfold table_rows in Hp.
      assert (length (rows b) ≤ length (concat (chunks p)))%nat; [|lia]. clear -Hin. induction (chunks p) as [|c cs IH]; [by apply elem_of_nil in Hin|].
      cbn. rewrite length_app. apply elem_of_cons in Hin as [->|Hin]; [lia|]. specialize (IH Hin). lia.
    + apply Z.ltb_ge in El. rewrite law_table_len in El. fold (chunks p) in El. fold (table_rows p) in El.
      cbn. destruct (table_rows p); [|cbn in El; lia]. by split_and!; [|constructor|..].
  - destruct (decoded reader) as [bs e]. pose proof (batch_spec pending b Hp) as Hb.
    destruct (rechunk_batch n pending b) as [heads pending'] eqn:Er. destruct Hb as (Hfit & Hp' & Hsub & Hshort & Hwhole).
    specialize (IH pending' Hp'). destruct (rechunk_loop n pending' reader) as [out e']. destruct IH as (-> & Hfit' & Hsub' & Hsame). cbn zeta.
    assert (Ein : pending_rows pending ++ rows_of (b :: bs) = (pending_rows pending ++ rows b) ++ rows_of bs).
    { unfold rows_of. cbn. by rewrite app_assoc. }
    rewrite Ein, rows_of_app. split_and!; [done|by apply Forall_app| |].
    + etrans; [apply sublist_app; [reflexivity|exact Hsub']|]. rewrite app_assoc. by apply sublist_app.
    + intros ->  [Hlen|[-> Hal]].
      * rewrite length_app in Hlen. destruct (Hshort ltac:(lia)) as [-> E]. rewrite E in Hsame. cbn. apply Hsame; [done|]. left.
        by rewrite length_app.
      * destruct (Hwhole eq_refl) as [E Hnone]. cbn in E |- *. rewrite <- E, <- app_assoc. f_equal. apply Hsame; [done|].
        destruct bs as [|b' bs]; [left|right].
        -- unfold rows_of. cbn. rewrite app_nil_r. done.
        -- destruct Hal as [Hal1 Hal2]. split; [by apply Hnone|done].
  - cbn zeta. split_and!; [done|constructor| |done]. apply sublist_nil_l.
Qed.
(** A batch across the boundary: only its part after the boundary is kept. *)
Lemma len_rows t : table_len t = Z.of_nat (length (table_rows t)).
Proof. apply law_table_len. Qed.
Lemma cut_short t : Z.of_nat (length (table_rows t)) < n → cut n t = ([], t).
Proof.
  intros Hn. unfold cut. rewrite len_rows, Nat2Z.id. destruct (length (table_rows t)) as [|fuel] eqn:E; [done|]. cbn [cut_batches].
  by rewrite len_rows, E, (proj2 (Z.leb_gt _ _)).
Qed.
Lemma cut_once t : n <= Z.of_nat (length (table_rows t)) < 2 * n →
  cut n t = (take 1 (to_batches (table_slice t 0 (Some n))), table_slice t n None).
Proof.
  intros Hn. unfold cut. rewrite len_rows, Nat2Z.id. destruct (length (table_rows t)) as [|fuel] eqn:E; [lia|]. cbn [cut_batches].
  rewrite len_rows, E, (proj2 (Z.leb_le _ _)) by lia. destruct (head_spec t) as (_ & Hr & _); [rewrite len_rows; lia|].
  set (rest := table_slice t n None) in *. assert (Hlt : Z.of_nat (length (table_rows rest)) < n) by (rewrite Hr, length_drop; lia).
  assert (cut_batches fuel n rest = ([], rest)) as ->; [|by rewrite app_nil_r].
  destruct fuel as [|fuel]; [done|]. cbn [cut_batches]. by rewrite len_rows, (proj2 (Z.leb_gt _ _)).
Qed.
Lemma table_of b : rows b ≠ [] → chunks (from_batch b) = [rows b] ∧ table_rows (from_batch b) = rows b.
Proof. intros Hb. unfold table_rows, chunks. rewrite law_from_batch by done. cbn. by rewrite app_nil_r. Qed.

Lemma rechunk_two b1 b2 :
  0 < Z.of_nat (length (rows b1)) < n → n <= Z.of_nat (length (rows b1)) + Z.of_nat (length (rows b2)) < 2 * n →
  let '(out, e) := rechunk_loop n None [Ok b1; Ok b2] in
  e = None ∧ rows_of out = rows b1 ++ drop (Z.to_nat n - length (rows b1)) (rows b2).
Proof.
  intros Hn1 Hn2. assert (Hb1 : rows b1 ≠ []) by (intros E; rewrite E in Hn1; cbn in Hn1; lia).
  assert (Hb2 : rows b2 ≠ []) by (intros E; rewrite E in Hn2; cbn in Hn2; lia).
  destruct (table_of b1 Hb1) as [C1 R1]. cbn [rechunk_loop]. unfold rechunk_batch at 1. cbv beta iota zeta.
  rewrite law_batch_len, (proj2 (Z.eqb_neq _ 0)), cut_short by (rewrite ?R1; lia). rewrite len_rows, R1, (proj2 (Z.ltb_lt 0 _)) by lia.
  set (current := concat_tables (from_batch b1) (from_batch b2)).
  assert (Ec : chunks current = [rows b1; rows b2]) by (unfold current, chunks; by rewrite law_concat, !law_from_batch by done).
  assert (Rc : table_rows current = rows b1 ++ rows b2) by (unfold table_rows; rewrite Ec; cbn; by rewrite app_nil_r).
  unfold rechunk_batch. cbv beta iota zeta. fold current. rewrite law_batch_len, (proj2 (Z.eqb_neq _ 0)), cut_once by (rewrite ?Rc, ?length_app; lia).
  pose proof (law_slice current 0 (Some n) ltac:(lia) ltac:(cbn; lia)) as Hh. fold (chunks current) in Hh.
  change (default 0 (Some n)) with n in Hh. rewrite Ec in Hh.
  destruct (head_spec current) as (_ & Hr & _); [rewrite len_rows, Rc, length_app; lia|].
  set (head := take 1 _) in *. set (rest := table_slice current n None) in *.
  assert (Hhead : rows_of head = rows b1).
  { unfold rows_of, head. rewrite fmap_take, Hh. assert (chunk_drop (Z.to_nat 0) [rows b1; rows b2] = [rows b1; rows b2]) as -> by by destruct (rows b1).
    cbn [chunk_take]. rewrite (proj2 (Nat.eqb_neq _ _)), (proj2 (Nat.leb_gt _ _)) by lia. cbn. by rewrite take_0, app_nil_r. }
  rewrite len_rows. cbn [rechunk_loop]. split; [done|]. cbn [app]. rewrite rows_of_app, Hhead. f_equal. rewrite Rc in Hr.
  rewrite drop_app_ge in Hr by lia. rewrite <- Hr. destruct (0 <? _) eqn:E; [by rewrite len_rows, E|]. apply Z.ltb_ge in E. cbn.
  by destruct (table_rows rest); [|cbn in E; lia].
Qed.
End rechunk.

(** *** Slices *)

Lemma slices_rows n b : 0 < n → ∀ fuel o, 0 <= o → Z.of_nat (length (rows b)) - o <= Z.of_nat fuel →
  rows_of (slices fuel b o n) = drop (Z.to_nat o) (rows b) ∧ Forall (fits n) (slices fuel b o n).
Proof.
  intros Hn. induction fuel as [|fuel IH]; intros o Ho Hf; cbn [slices].
  - split; [|constructor]. rewrite drop_ge by lia. done.
  - rewrite law_batch_len. destruct (o <? _) eqn:E; [apply Z.ltb_lt in E|apply Z.ltb_ge in E].
    + destruct (IH (o + n)) as [E1 E2]; [lia..|]. unfold rows_of in *. cbn [fmap list_fmap concat].
      rewrite E1, (law_batch_slice b o n) by lia. split.
      * replace (Z.to_nat (o + n)) with (Z.to_nat o + Z.to_nat n)%nat by lia. by rewrite <- drop_drop, take_drop.
      * constructor; [|done]. unfold fits. rewrite (law_batch_slice b o n) by lia. rewrite length_take. lia.
    + split; [|constructor]. rewrite drop_ge by lia. done.
Qed.
Lemma batch_slices_rows n b : 0 < n → rows_of (batch_slices n b) = rows b ∧ Forall (fits n) (batch_slices n b).
Proof. intros Hn. unfold batch_slices. rewrite law_batch_len, Nat2Z.id. apply (slices_rows n b Hn); lia. Qed.
Lemma each_slices_rows n reader : 0 < n →
  let '(out, e) := each_slices n reader in let '(bs, e') := decoded reader in
  e = e' ∧ rows_of out = rows_of bs ∧ Forall (fits n) out.
Proof.
  intros Hn. induction reader as [|[b|e] reader IH]; cbn [each_slices decoded]; [by split_and!| |by split_and!].
  destruct (each_slices n reader) as [out e]. destruct (decoded reader) as [bs e']. destruct IH as (-> & E & Hf).
  destruct (batch_slices_rows n b Hn) as [E' Hf']. split_and!; [done| |by apply Forall_app].
  rewrite rows_of_app, E', E. done.
Qed.
End readers.

(** ** Rows in chunks *)

Lemma row_chunks_spec {R} n (rs : list R) : 0 < n → ∀ buffer, Z.of_nat (length buffer) < n →
  concat (row_chunks n buffer rs) = buffer ++ rs ∧ Forall (λ c, 0 < Z.of_nat (length c) <= n) (row_chunks n buffer rs).
Proof.
  intros Hn. induction rs as [|r rs IH]; intros buffer Hb; cbn [row_chunks].
  - destruct buffer as [|b buffer]; [done|]. cbn in *. split; [done|]. constructor; [|constructor]. cbn in *. lia.
  - rewrite length_app. cbn [length]. destruct (n <=? _) eqn:E; [apply Z.leb_le in E|apply Z.leb_gt in E].
    + destruct (IH [] ltac:(done)) as [E1 E2]. cbn. rewrite E1. split; [by rewrite <- app_assoc|]. constructor; [|done].
      rewrite length_app. cbn. lia.
    + destruct (IH (buffer ++ [r])) as [E1 E2]; [rewrite length_app; cbn; lia|]. rewrite E1. split; [by rewrite <- app_assoc|done].
Qed.

Section geojson.
Context {B T : Type} `{!ArrowTables B T} `{!FloatText, !ContainerText}.

(** Features that all make rows are batched as the chunks of their rows. *)
Lemma feature_batches_chunks n features rs : map_res feature_row features = Ok rs →
  ∀ buffer, feature_batches (B := B) (T := T) n buffer features = batches_of (row_chunks n buffer rs).
Proof.
  revert rs. induction features as [|f features IH]; intros rs E buffer; cbn [map_res] in E.
  - injection E as <-. cbn. by destruct buffer.
  - apply bind_ok in E as (r & Er & E). apply bind_ok in E as (rs' & Ers & E). injection E as <-. cbn [feature_batches row_chunks].
    rewrite Er. destruct (n <=? _); cbn [batches_of]; rewrite (IH _ Ers); done.
Qed.
End geojson.

Section batches.
Context {B T : Type} `{!ArrowTables B T} (rows : B → list record) `{!TableLaws B T rows}.
Lemma batch_from_rows_ok rs b : _batch_from_rows (T := T) rs = Ok b → rows b = first_columns rs.
Proof.
  unfold _batch_from_rows. intros E. apply bind_ok in E as (t & Et & E). destruct (law_from_pylist (rows := rows) rs t Et) as [H1 Hr].
  destruct (to_batches t) as [|b' bs]; [by eapply law_batch_from_pylist|]. injection E as <-. destruct bs; [|cbn in H1; lia].
  cbn in Hr. by rewrite app_nil_r in Hr.
Qed.
Lemma batches_of_rows chunks : let '(out, e) := batches_of (B := B) (T := T) chunks in
  ∃ done rest, chunks = done ++ rest ∧ rows <$> out = first_columns <$> done ∧ (e = None → rest = []).
Proof.
  induction chunks as [|rs chunks IH]; cbn [batches_of]; [by exists [], []|].
  destruct (_batch_from_rows rs) as [b|e] eqn:Eb; [|by exists [], (rs :: chunks)].
  destruct (batches_of chunks) as [out e]. destruct IH as (done & rest & -> & Eo & Hr). exists (rs :: done), rest. split_and!; [done| |done].
  cbn. by rewrite Eo, (batch_from_rows_ok _ _ Eb).
Qed.
End batches.

(** ** Headers *)

Fixpoint count_of (h : string) (l : list string) : Z :=
  match l with [] => 0 | x :: l => (if decide (x = h) then 1 else 0) + count_of h l end.
Definition header_name (before : list string) (h : string) : string :=
  let c := count_of h before in if c =? 0 then h else h +:+ "_" +:+ int_repr (c + 1).
(** The headers of a row, each from the texts before it *)
Fixpoint header_names (before l : list string) : list string :=
  match l with [] => [] | h :: l => header_name before h :: header_names (before ++ [h]) l end.

Lemma header_names_length l : ∀ before, length (header_names before l) = length l.
Proof. induction l as [|h l IH]; intros b; cbn; [done|by rewrite IH]. Qed.
Lemma count_app h a b : count_of h (a ++ b) = count_of h a + count_of h b.
Proof. induction a as [|x a IH]; cbn; [done|]. rewrite IH. lia. Qed.
Lemma count_nonneg h l : 0 <= count_of h l.
Proof. induction l as [|x l IH]; cbn; [done|]. case_decide; lia. Qed.
Lemma count_in h l : h ∈ l → 0 < count_of h l.
Proof.
  intros Hin. induction l as [|x l IH]; [by apply elem_of_nil in Hin|]. cbn. pose proof (count_nonneg h l).
  apply elem_of_cons in Hin as [->|Hin]; [rewrite decide_True by done; lia|]. specialize (IH Hin). case_decide; lia.
Qed.

Lemma headers_spec l : ∀ before out seen, (∀ h, default 0 (dict_get h seen) = count_of h before) →
  (foldl count_header (out, seen) l).1 = out ++ header_names before (default "" <$> l).
Proof.
  induction l as [|v l IH]; intros before out seen Hseen; cbn; [by rewrite app_nil_r|].
  unfold count_header at 2. cbn [fst snd]. rewrite Hseen, (IH (before ++ [default "" v])).
  - rewrite <- app_assoc. done.
  - intros h. rewrite dict_get_set, count_app. cbn. case_bool_decide as E.
    + subst. rewrite decide_True by done. cbn. lia.
    + rewrite decide_False by done. rewrite Hseen. lia.
Qed.

(** *** The texts [h_k] *)

Lemma chars_app a b : String.list_ascii_of_string (a +:+ b) = String.list_ascii_of_string a ++ String.list_ascii_of_string b.
Proof. induction a as [|c a IH]; [done|]. cbn. by rewrite <- IH. Qed.
Lemma chars_inj a b : String.list_ascii_of_string a = String.list_ascii_of_string b → a = b.
Proof. intros E. rewrite <- (String.string_of_list_ascii_of_string a), <- (String.string_of_list_ascii_of_string b). by f_equal. Qed.
Lemma digits_plain d : "_"%char ∉ String.list_ascii_of_string (DecimalString.NilEmpty.string_of_uint d).
Proof. induction d; cbn; [apply not_elem_of_nil|..]; intros [?|?]%elem_of_cons; done. Qed.
Lemma repr_plain k : 0 <= k → "_"%char ∉ String.list_ascii_of_string (int_repr k).
Proof.
  intros Hk. unfold int_repr. destruct k as [|p|p]; [|cbn|lia].
  - vm_compute. intros [?|?%elem_of_nil]%elem_of_cons; done.
  - unfold DecimalString.NilZero.string_of_uint. destruct (Pos.to_uint p) eqn:E; [|rewrite <- E; apply digits_plain..].
    cbn. intros [?|?%elem_of_nil]%elem_of_cons; done.
Qed.
Lemma split_last {A} (x : A) a b u v : x ∉ u → x ∉ v → a ++ x :: u = b ++ x :: v → a = b ∧ u = v.
Proof.
  intros Hu Hv. revert b. induction a as [|y a IH]; intros [|z b] E; cbn in E.
  - by injection E as ->.
  - injection E as -> ->. exfalso. apply Hu. set_solver.
  - injection E as <- <-. exfalso. apply Hv. set_solver.
  - injection E as -> E. by destruct (IH b E) as [-> ->].
Qed.
Lemma suffix_inj a b i j : 0 <= i → 0 <= j → a +:+ "_" +:+ int_repr i = b +:+ "_" +:+ int_repr j → a = b ∧ i = j.
Proof.
  intros Hi Hj E. apply (f_equal String.list_ascii_of_string) in E. rewrite !chars_app in E.
  change (String.list_ascii_of_string "_") with ["_"%char] in E. cbn [app] in E.
  apply split_last in E as [Ea Er]; [|by apply repr_plain..]. apply chars_inj in Ea, Er. split; [done|].
  apply (f_equal int_of_text) in Er. rewrite !int_of_repr in Er. congruence.
Qed.

(** No text of the row is another one with a count after it. *)
Definition no_counted (l : list string) : Prop := ∀ h h' k, h ∈ l → h' ∈ l → 2 <= k → h ≠ h' +:+ "_" +:+ int_repr k.

Lemma names_differ l before before' h h' : no_counted l → h ∈ l → h' ∈ l → before `prefix_of` before' → (h = h' → h ∈ drop (length before) before') →
  header_name before h ≠ header_name before' h'.
Proof.
  intros Hl Hh Hh' [mid ->] Hmid. rewrite drop_app_length in Hmid. unfold header_name. pose proof (count_nonneg h before). pose proof (count_nonneg h' (before ++ mid)).
  destruct (count_of h before =? 0) eqn:E; destruct (count_of h' _ =? 0) eqn:E'; rewrite ?Z.eqb_eq, ?Z.eqb_neq in *; intros En.
  - subst h'. pose proof (count_in h mid (Hmid eq_refl)). rewrite count_app in E'. lia.
  - by apply (Hl h h' (count_of h' (before ++ mid) + 1)) in Hh; [|done|lia].
  - symmetry in En. by apply (Hl h' h (count_of h before + 1)) in Hh'; [|done|lia].
  - apply suffix_inj in En as [-> En]; [|lia..]. pose proof (count_in h' mid (Hmid eq_refl)). rewrite count_app in En. lia.
Qed.
Lemma names_unique l : no_counted l → ∀ rest before, (∀ h, h ∈ before ++ rest → h ∈ l) → NoDup (header_names before rest).
Proof.
  intros Hl. induction rest as [|h rest IH]; intros before Hin; cbn [header_names]; [constructor|]. constructor.
  - assert (Hfar : ∀ r b, before ++ [h] `prefix_of` b → (∀ x, x ∈ b ++ r → x ∈ l) → header_name before h ∉ header_names b r).
    { induction r as [|h' r IHr]; intros b Hb Hbr; cbn [header_names]; [apply not_elem_of_nil|]. intros [E|E]%elem_of_cons.
      - revert E. apply (names_differ l); [done|apply Hin; set_solver|apply Hbr; set_solver| |].
        + etrans; [|exact Hb]. by apply prefix_app_r.
        + intros _. destruct Hb as [mid ->]. rewrite <- app_assoc, drop_app_length. set_solver.
      - revert E. apply IHr; [etrans; [exact Hb|by apply prefix_app_r]|]. intros x Hx. apply Hbr. set_solver. }
    apply Hfar; [done|]. intros x Hx. apply Hin. set_solver.
  - apply IH. intros x Hx. apply Hin. set_solver.
Qed.

Lemma row_dict_keeps headers cells : NoDup headers → row_dict headers cells = zip headers cells.
Proof.
  intros Hnd. apply dict_merge_nil.
  revert cells. induction Hnd as [|h headers Hh _ IH]; intros [|c cells]; cbn; try constructor; [|done].
  rewrite list_elem_of_fmap. intros ([h' c'] & -> & Hin). apply elem_of_zip_l in Hin. done.
Qed.

(** ** Documents *)

Section documents.
Context {X : Type}.
Variables (source_read : Z → M X string) (holds : X → string → Prop).
Hypothesis source_lawful : lawful source_read holds.

(** A document that is returned is the whole content, within the ceiling. *)
Lemma read_document_spec x s : holds x s →
  match read_document source_read x with
  | (Ok data, _) => data = s ∧ size s <= MAX_DOCUMENT_BYTES
  | (Raise _, _) => True
  end.
Proof.
  intros Hs. set (I := λ k (data : string) x', k = MAX_DOCUMENT_BYTES - size data ∧ size data <= MAX_DOCUMENT_BYTES ∧
    ∃ t, holds x' t ∧ s = data +:+ t).
  set (Q := λ (data : string) (x' : X), data = s ∧ size s <= MAX_DOCUMENT_BYTES).
  assert (Hstep : ∀ k a, hoare (I k a) (read_chunk source_read a)
    (λ r x', match r with inl a' => ∃ k', k' + 1 <= k ∧ I k' a' x' | inr p => Q p x' end) (λ _ _, True)).
  { intros k data z (-> & Hle & t & Ht & Es). unfold read_chunk. rewrite bind_step. set (n := Z.min _ _).
    assert (Hn : 0 < n) by (unfold n; lia). pose proof (source_lawful n z t Ht) as Hr. destruct (source_read n z) as [[p|e] z']; [|done].
    destruct Hr as (t' & -> & Ht' & _ & _ & Hz). destruct (str_nonempty p) eqn:Ep.
    - rewrite bind_step. unfold lift_res. destruct (MAX_DOCUMENT_BYTES <? size (data +:+ p)) eqn:El; cbn [raise_if]; [done|].
      apply Z.ltb_ge in El. cbn. rewrite size_app in *. pose proof (size_positive p Ep). exists (MAX_DOCUMENT_BYTES - (size data + size p)).
      split; [lia|]. split_and!; [by rewrite size_app|by rewrite size_app|]. exists t'. by rewrite app_assoc_s.
    - assert (p = "") as -> by (by destruct p). destruct (Hz eq_refl) as [|E]; [lia|]. change ("" +:+ t') with t' in E. subst t'.
      cbn. unfold Q. rewrite Es, string_app_empty_r. by split. }
  pose proof (upto_rule (Z.to_pos (MAX_DOCUMENT_BYTES + 1)) (read_chunk source_read) I Q (λ _ _, True) Hstep MAX_DOCUMENT_BYTES "" x) as Hu.
  unfold read_document. rewrite bind_step. specialize (Hu ltac:(split_and!; [done|done|by exists s])).
  destruct (upto _ _ _ x) as [[[data|data]|e] x']; [|exact Hu|done].
  destruct Hu as (k & Hk & -> & Hle & _). rewrite Z2Pos.id in Hk by done. lia.
Qed.
End documents.

Section json.
Context {W : Type}.
Variables (source_read : Z → M W string) (holds : W → string → Prop).
Hypothesis source_lawful : lawful source_read holds.

Lemma space_char c t : is_json_space (first_bytes 1 (String c t)) = is_ws c.
Proof. cbn. replace (first_bytes _ t) with "" by by destruct t. by destruct c as [[] [] [] [] [] [] [] []]. Qed.

(** The text after a byte order mark *)
Definition without_bom (s : string) : string := if bool_decide (first_bytes 3 s = BOM) then bytes_from 3 s else s.

Lemma skip_spec (x : peekable * W) s space : pk_holds holds x s → size s < Zpos space →
  match upto space (skip_byte source_read) tt x with
  | (Ok _, x') => pk_holds holds x' (skip_ws s)
  | (Raise _, _) => True
  end.
Proof.
  intros Hs Hsp. set (I := λ k (_ : unit) x', ∃ t, k = size t ∧ pk_holds holds x' t ∧ skip_ws t = skip_ws s).
  set (Q := λ (_ : unit) x', pk_holds holds x' (skip_ws s)).
  assert (Hstep : ∀ k a, hoare (I k a) (skip_byte source_read a)
    (λ r x', match r with inl a' => ∃ k', k' + 1 <= k ∧ I k' a' x' | inr p => Q p x' end) (λ _ _, True)).
  { intros k [] z (t & -> & Ht & Es). unfold skip_byte. rewrite bind_step. pose proof (peek_spec _ _ source_lawful 1 z t Ht) as Hp.
    destruct (peek _ _ z) as [[p|e] z1]; [|done]. destruct Hp as [-> Ht1]. destruct t as [|c t]; [cbn; unfold Q; by rewrite <- Es|].
    rewrite space_char. cbn [str_nonempty first_bytes andb]. change (1 <=? 0) with false. cbv iota. destruct (is_ws c) eqn:Ec; cbn [str_nonempty andb]; cbv iota.
    - rewrite bind_step. pose proof (peekable_exact _ _ source_lawful 1 z1 _ Ht1) as Hr. destruct (pk_read _ _ z1) as [[p|e] z2]; [|done].
      destruct Hr as [_ Hr]. unfold exact_read in Hr. change (1 <? 0) with false in Hr. cbn [snd bytes_from] in Hr. change (1 <=? 0) with false in Hr.
      cbv iota in Hr. rewrite from_none in Hr by done. cbn. exists (size t). split; [unfold size; cbn; lia|]. exists t. split_and!; try done.
      rewrite <- Es. cbn. by rewrite Ec.
    - cbn. unfold Q. rewrite <- Es. cbn. by rewrite Ec. }
  pose proof (upto_rule space (skip_byte source_read) I Q (λ _ _, True) Hstep (size s) tt x ltac:(by exists s)) as Hu.
  destruct (upto _ _ _ x) as [[[[]|[]]|e] x']; [|exact Hu|done].
  destruct Hu as (k & Hk & t & -> & _). pose proof (size_nonneg t). lia.
Qed.

Lemma skipped_start t : match skip_ws t with String c _ => is_ws c = false | EmptyString => True end.
Proof. induction t as [|c t IH]; cbn; [done|]. destruct (is_ws c) eqn:E; [exact IH|exact E]. Qed.

(** What is found behind a byte order mark and white space *)
Definition json_entry (s : string) (found : string + bool) (x' : peekable * W) : Prop :=
  let text := skip_ws (without_bom s) in
  match found with
  | inl data => data = text ∧ first_bytes 1 text = "[" ∧ size text <= MAX_DOCUMENT_BYTES
  | inr false => text = ""
  | inr true => first_bytes 1 text = "{" ∧ pk_holds holds x' text
  end.
Lemma json_open_spec (x : peekable * W) s space : pk_holds holds x s → size s < Zpos space →
  match json_open source_read space x with
  | (Ok found, x') => json_entry s found x'
  | (Raise _, _) => True
  end.
Proof.
  intros Hs Hsp. unfold json_open. rewrite bind_step. pose proof (peek_spec _ _ source_lawful 3 x s Hs) as Hp.
  destruct (peek _ _ x) as [[bom|e] x1]; [|done]. destruct Hp as [-> Hs1]. rewrite bind_step.
  assert (Hbom : match (if bool_decide (first_bytes 3 s = BOM) then pk_read source_read 3;; mret tt else mret tt) x1 with
                 | (Ok _, x2) => pk_holds holds x2 (without_bom s) | (Raise _, _) => True end).
  { unfold without_bom. case_bool_decide; [|done]. rewrite bind_step. pose proof (peekable_exact _ _ source_lawful 3 x1 s Hs1) as Hr.
    destruct (pk_read _ _ x1) as [[p|e] x2]; [|done]. apply Hr. }
  match type of Hbom with context [match ?m x1 with _ => _ end] => destruct (m x1) as [[[]|e] x2]; [|done] end.
  assert (Hsz : size (without_bom s) < Zpos space).
  { unfold without_bom. case_bool_decide; [|done]. pose proof (f_equal size (first_from 3 s)) as E. rewrite size_app in E.
    pose proof (size_nonneg (first_bytes 3 s)). lia. }
  rewrite bind_step. pose proof (skip_spec x2 _ space Hbom Hsz) as Hk. destruct (upto _ _ _ x2) as [[[[]|[]]|e] x3]; [| |done].
  all: unfold json_entry; set (text := skip_ws (without_bom s)) in *; rewrite bind_step;
    pose proof (peek_spec _ _ source_lawful 1 x3 text Hk) as Hp; destruct (peek _ _ x3) as [[p|e] x4]; [|done]; destruct Hp as [-> Hs4];
    destruct text as [|c t] eqn:Et; [by cbn|]; cbn [first_bytes]; change (1 <=? 0) with false; cbv iota;
    rewrite (first_none (1 - 1)) by done; cbn [str_nonempty negb]; case_bool_decide as Ea; [|case_bool_decide; done];
    rewrite bind_step; pose proof (read_document_spec _ _ (exact_lawful _ _ (peekable_exact _ _ source_lawful)) x4 _ Hs4) as Hd;
    destruct (read_document _ x4) as [[data|e] x5]; [|done]; destruct Hd as [-> Hle]; done.
Qed.
End json.

(** ** Properties *)

Section properties.
Context {B T : Type} `{!ArrowTables B T} (rows : B → list record) `{!TableLaws B T rows}.

(** C29: the CSV reader yields batches of at most [batch_size] rows whose rows
    are among those the decoder gave, in order and none twice, and it yields
    every row when no error ends it early and they are fewer than [batch_size]
    or every decoded batch but the last ends at a boundary.  An Arrow error of opening the file, which
    decodes the first block, is a [FormatError], but an error of a later block
    leaves the reader as the decoder raised it, the Arrow error of a malformed
    row too, although [read_batches] promises a [FormatError] for it. *)
Theorem csv_rechunk_rows n (opened : result (list (result B))) : 0 < n →
  let '(out, e') := csv_read_batches (T := T) opened n in
  match opened with
  | Raise e => out = [] ∧ e' = Some (if is_subclass (exn_kind e) ArrowError then format_error "Invalid CSV" else e)
  | Ok reader =>
      let '(bs, e) := decoded reader in
      e' = e ∧ Forall (fits rows n) out ∧ rows_of rows out `sublist_of` rows_of rows bs ∧
      (e = None → Z.of_nat (length (rows_of rows bs)) < n ∨ aligned rows n bs → rows_of rows out = rows_of rows bs)
  end.
Proof.
  intros Hn. unfold csv_read_batches. destruct opened as [reader|e]; [|done]. cbn [arrow_failure].
  unfold _rechunk_reader. rewrite (proj2 (Z.leb_gt _ _)) by done.
  pose proof (rechunk_spec (T := T) rows n Hn reader None Hn) as Hr. destruct (decoded reader) as [bs e].
  destruct (rechunk_loop n None reader) as [out e']. destruct Hr as (-> & Hf & Hs & Hall). split_and!; try done.
  intros He [Hlt|Hal]; apply (Hall He); [by left|by right].
Qed.

(** C34: rows are lost where a decoded batch lies across a boundary: of two
    batches that only together reach [batch_size], the part of the second that
    would fill the first up is in no batch. *)
Theorem csv_rechunk_loses_rows n b1 b2 :
  0 < Z.of_nat (length (rows b1)) < n → n <= Z.of_nat (length (rows b1)) + Z.of_nat (length (rows b2)) < 2 * n →
  ∃ out, _rechunk_reader (T := T) [Ok b1; Ok b2] n = (out, None) ∧
    rows_of rows out = rows b1 ++ drop (Z.to_nat n - length (rows b1)) (rows b2) ∧
    (length (rows_of rows out) < length (rows b1 ++ rows b2))%nat.
Proof.
  intros H1 H2. unfold _rechunk_reader. rewrite (proj2 (Z.leb_gt _ _)) by lia.
  pose proof (rechunk_two (T := T) rows n ltac:(lia) b1 b2 H1 H2) as Hr. destruct (rechunk_loop n None _) as [out e].
  destruct Hr as [-> Hr]. exists out. split; [done|]. split; [done|]. rewrite Hr, !length_app, length_drop. lia.
Qed.

(** JSON lines keep every row of every decoded batch. *)
Lemma jsonl_keeps_rows n (reader : list (result B)) : 0 < n →
  let '(out, e) := _read_jsonl (Ok reader) n in let '(bs, e') := decoded reader in
  e = jsonl_error <$> e' ∧ rows_of rows out = rows_of rows bs ∧ Forall (fits rows n) out.
Proof.
  intros Hn. unfold _read_jsonl. pose proof (each_slices_rows rows n reader Hn) as Hs. destruct (each_slices n reader) as [out e].
  destruct (decoded reader) as [bs e']. cbn. destruct Hs as (-> & ? & ?). by split_and!.
Qed.

(** The rows of features, in batches of one set of columns each: that of the
    batch's first feature *)
Lemma geojson_rows `{!FloatText, !ContainerText} n features rs : 0 < n → map_res feature_row features = Ok rs →
  let '(out, e) := feature_batches (B := B) (T := T) n [] features in
  e = None → rows_of rows out = concat (first_columns <$> row_chunks n [] rs) ∧ concat (row_chunks n [] rs) = rs.
Proof.
  intros Hn E. rewrite (feature_batches_chunks n features rs E). pose proof (batches_of_rows (T := T) rows (row_chunks n [] rs)) as Hb.
  destruct (batches_of _) as [out e]. destruct Hb as (dn & rest & Ec & Eo & Hr). intros He. rewrite (Hr He), app_nil_r in Ec.
  split; [unfold rows_of; by rewrite Eo, Ec|]. by apply (row_chunks_spec n rs Hn []).
Qed.

Lemma first_columns_same headers (rs : list record) : NoDup headers → Forall (λ r : record, r.*1 = headers) rs → first_columns rs = rs.
Proof.
  intros Hnd Hall. destruct rs as [|r0 rs']; [done|]. unfold first_columns. set (rs := r0 :: rs') in *.
  assert (H0 : r0.*1 = headers) by (by inversion_clear Hall). rewrite <- (list_fmap_id rs) at 2. apply list_fmap_ext. intros i r Hi.
  rewrite Forall_lookup in Hall. specialize (Hall i r Hi). cbn beta.
  assert (Hk : r0.*1 = r.*1) by congruence. rewrite <- Hall in Hnd. clear -Hk Hnd.
  assert (Hg : ∀ pre (a b : record), NoDup (pre.*1 ++ b.*1) → a.*1 = b.*1 →
    (λ kv : string * pyval, (kv.1, default PyNone (dict_get kv.1 (pre ++ b)))) <$> a = b).
  { intros pre a b. revert pre a. induction b as [|[k v] b IH]; intros pre [|[k' v'] a] Hn E; try done. cbn in E. injection E as -> E.
    rewrite fmap_cons. cbn [fst]. f_equal.
    - f_equal. clear -Hn. induction pre as [|[k2 v2] pre IHp]; cbn in *; [by rewrite bool_decide_eq_true_2|].
      inversion_clear Hn as [|? ? Hk Hn']. rewrite bool_decide_eq_false_2; [by apply IHp|]. intros ->. apply Hk. set_solver.
    - specialize (IH (pre ++ [(k, v)]) a). rewrite <- app_assoc in IH. apply IH; [|done]. rewrite fmap_app, <- app_assoc. exact Hn. }
  by apply (Hg []).
Qed.

(** A worksheet whose header texts hold no text of the form [other_k] of
    another one has distinct headers, and when it is read without an error
    and its rows are as long as the header, every cell of every row is in a
    batch under its header, in order, at most [batch_size] rows each. *)
Theorem xlsx_rows_kept n header_row (cells : list (list pyval)) out :
  0 < n → no_counted (default "" <$> header_row) → Forall (λ row, length row = length header_row) cells →
  xlsx_read_batches (T := T) (Ok (Sheet header_row cells)) n = (out, None) →
  NoDup (_deduplicated_headers header_row) ∧ Forall (fits rows n) out ∧
  rows_of rows out = zip (_deduplicated_headers header_row) <$> cells.
Proof.
  intros Hn Hno Hlen E. unfold xlsx_read_batches in E. set (headers := _deduplicated_headers header_row) in *.
  assert (Hh : headers = header_names [] (default "" <$> header_row)) by apply (headers_spec header_row [] [] [] ltac:(done)).
  assert (Hnd : NoDup headers) by (rewrite Hh; by apply (names_unique _ Hno)).
  assert (Hhl : length headers = length header_row).
  { rewrite Hh, header_names_length. apply length_fmap. }
  split; [done|]. assert (Hrows : row_dict headers <$> cells = zip headers <$> cells).
  { apply list_fmap_ext. intros i c Hc. by apply row_dict_keeps. }
  rewrite Hrows in E. pose proof (batches_of_rows (T := T) rows (row_chunks n [] (zip headers <$> cells))) as Hb.
  destruct (batches_of _) as [out' e]. injection E as -> E. destruct e; [done|]. destruct Hb as (dn & rest & Ec & Eo & Hr).
  rewrite (Hr eq_refl), app_nil_r in Ec. destruct (row_chunks_spec n (zip headers <$> cells) Hn [] Hn) as [Hcat Hsz]. cbn in Hcat.
  assert (Hsame : first_columns <$> dn = dn).
  { rewrite <- (list_fmap_id dn) at 2. apply list_fmap_ext. intros i c Hc. apply (first_columns_same headers); [done|].
    apply Forall_forall. intros r Hin. assert (r ∈ zip headers <$> cells) as (row & -> & Hrow)%list_elem_of_fmap.
    { rewrite <- Hcat, Ec. apply list_elem_of_In, in_concat. exists c. split; apply list_elem_of_In; [by eapply list_elem_of_lookup_2|done]. }
    rewrite Forall_forall in Hlen. apply fst_zip. rewrite (Hlen row Hrow). lia. }
  rewrite Hsame in Eo. split.
  - rewrite Ec, <- Eo in Hsz. apply Forall_fmap in Hsz. eapply Forall_impl; [exact Hsz|]. intros b Hb. unfold fits. apply Hb.
  - unfold rows_of. rewrite Eo, <- Ec. exact Hcat.
Qed.
End properties.

(** A JSON document is entered at its first byte behind a byte order mark
    and white space, whatever chunks the source comes in: an array is read
    whole, within the ceiling and with nothing before or after it lost; lines
    are left to their decoder with nothing consumed; an empty document has no
    batches.  What starts otherwise raises. *)
Theorem json_document_entered {W} (source_read : Z → M W string) (holds : W → string → Prop) w s space found x' :
  lawful source_read holds → holds w s → size s < Zpos space →
  json_open source_read space (make_peekable, w) = (Ok found, x') →
  json_entry holds s found x'.
Proof.
  intros Hl Hs Hsp E. pose proof (json_open_spec source_read holds Hl (make_peekable, w) s space ltac:(right; by exists s) Hsp) as Ho.
  by rewrite E in Ho.
Qed.

(** The replacement of a repeated header may be another header: the cell of
    one of the two columns is lost. *)
Lemma headers_collide :
  let headers := _deduplicated_headers [Some "a"; Some "a"; Some "a_2"] in
  headers = ["a"; "a_2"; "a_2"] ∧ row_dict headers [PyInt 1; PyInt 2; PyInt 3] = [("a", PyInt 1); ("a_2", PyInt 3)].
Proof. by split; vm_compute. Qed.

(** ** Witnesses *)

(** Tables as lists of chunks *)
#[local] Instance chunk_tables : ArrowTables (list record) (list (list record)) := {|
  batch_len b := Z.of_nat (length b);
  batch_slice b o n := take (Z.to_nat n) (drop (Z.to_nat o) b);
  from_batch b := [b];
  concat_tables := app;
  table_len t := Z.of_nat (length (concat t));
  table_slice t o n := match n with Some n => chunk_take (Z.to_nat n) | None => id end (chunk_drop (Z.to_nat o) t);
  to_batches t := t;
  to_batches_of n t := row_chunks n [] (concat t);
  from_pylist rs := Ok [first_columns rs];
  batch_from_pylist rs := Ok (first_columns rs);
  empty_table := []
|}.
#[local] Instance chunk_laws : TableLaws (list record) (list (list record)) id.
Proof.
  split; cbn; try done; intros *; rewrite ?list_fmap_id; try done.
  - intros Hn. destruct (row_chunks_spec n (concat t) Hn [] Hn) as [E H]. split; [done|]. eapply Forall_impl; [exact H|]. by intros c [].
  - intros [= <-]. cbn. rewrite app_nil_r. split; [lia|done].
  - by intros [= <-].
Qed.

Definition csv_row (i : Z) : record := [("id", PyInt i)].
Definition csv_blocks : list (list record) := [csv_row <$> seqZ 0 3; csv_row <$> seqZ 3 3].

(** A file that is short, and one whose second block is malformed *)
Definition malformed : exn := err ArrowError "CSV parse error".
Lemma csv_rechunk_rows_witness :
  (let out := (csv_read_batches (T := list (list record)) (Ok (Ok <$> csv_blocks)) 10).1 in
   concat out = csv_row <$> seqZ 0 6 ∧ rows_of id out = rows_of id csv_blocks) ∧
  (csv_read_batches (T := list (list record)) (Ok [Ok (csv_row <$> seqZ 0 3); Raise malformed]) 10).2 = Some malformed.
Proof.
  split; [split; [vm_compute; reflexivity|]|].
  - exact (proj2 (proj2 (proj2 (csv_rechunk_rows (T := list (list record)) id 10 (Ok (Ok <$> csv_blocks)) eq_refl))) eq_refl (or_introl eq_refl)).
  - exact (proj1 (csv_rechunk_rows (T := list (list record)) id 10 (Ok [Ok (csv_row <$> seqZ 0 3); Raise malformed]) eq_refl)).
Defined.

Lemma csv_rechunk_loses_rows_witness :
  (concat (_rechunk_reader (T := list (list record)) (Ok <$> csv_blocks) 4).1 = csv_row <$> [0; 1; 2; 4; 5]) ∧
  ∃ out, _rechunk_reader (T := list (list record)) (Ok <$> csv_blocks) 4 = (out, None) ∧ (length (rows_of id out) < 6)%nat.
Proof.
  split; [vm_compute; reflexivity|].
  destruct (csv_rechunk_loses_rows (T := list (list record)) id 4 (csv_row <$> seqZ 0 3) (csv_row <$> seqZ 3 3)) as (out & E & _ & Hl);
    [vm_compute; split; congruence|vm_compute; split; congruence|].
  exists out. exact (conj E Hl).
Defined.

Definition sheet_headers : list (option string) := [Some "id"; Some "name"; Some "name"; None].
Definition sheet_cells : list (list pyval) := [[PyInt 1; PyStr "a"; PyStr "b"; PyNone]; [PyInt 2; PyStr "c"; PyStr "d"; PyInt 0]].
Definition sheet_out := (xlsx_read_batches (B := list record) (T := list (list record)) (Ok (Sheet sheet_headers sheet_cells)) 1).1.
Lemma sheet_plain : no_counted (default "" <$> sheet_headers).
Proof.
  intros h h' k Hh Hh' Hk E. assert (Hin : "_"%char ∈ String.list_ascii_of_string h).
  { rewrite E, !chars_app. set_solver. }
  assert (Hall : Forall (λ h, "_"%char ∉ String.list_ascii_of_string h) (default "" <$> sheet_headers)).
  { repeat (constructor; [vm_compute; set_solver|]). constructor. }
  rewrite Forall_forall in Hall. by apply (Hall h Hh).
Qed.
Lemma xlsx_rows_kept_witness :
  _deduplicated_headers sheet_headers = ["id"; "name"; "name_2"; ""] ∧
  rows_of id sheet_out = zip (_deduplicated_headers sheet_headers) <$> sheet_cells.
Proof.
  split; [vm_compute; reflexivity|].
  exact (proj2 (proj2 (xlsx_rows_kept (T := list (list record)) id 1 sheet_headers sheet_cells sheet_out eq_refl sheet_plain
    ltac:(repeat constructor) eq_refl))).
Defined.

Definition json_chunks : list string := [BOM +:+ " "; " "; "[{}"; ",{}]"].
Definition json_body : iterable nat * nat := (make_iterable (chunk_of <$> json_chunks), 0%nat).
Lemma json_body_holds : it_holds json_body (concat_bytes json_chunks).
Proof. right. exists json_chunks. split; [|reflexivity]. repeat (constructor; [by intros w|]). constructor. Qed.
Lemma json_document_entered_witness : "[{},{}]" = skip_ws (without_bom (concat_bytes json_chunks)).
Proof.
  destruct (json_open it_read 100 (make_peekable, json_body)) as [r x'] eqn:E.
  assert (r = Ok (inl "[{},{}]")) as -> by (apply (f_equal fst) in E; vm_compute in E; symmetry; exact E).
  exact (proj1 (json_document_entered it_read it_holds json_body (concat_bytes json_chunks) 100 (inl "[{},{}]") x'
    (exact_lawful _ _ iterable_exact) json_body_holds eq_refl E)).
Defined.
