(* ===== verification/Ckan.v ===== *)
(** * The CKAN connector: actions and wire values

    [connectors/catalog/ckan/]: the registry of Action API actions
    ([inventory.py]), the errors of its envelopes ([errors.py]), mutation tiers
    and token results ([results.py]), the decoding of results into records
    ([mapping.py]) and their normalised forms (the converters of
    [clients.py]).  The shipped manifest is data: the registry is an argument. *)
From Stdlib Require Import ZArith Ascii.
From stdpp Require Import strings.
From S2P Require Import Prelude PyVal Regex Redaction Policies Errors Json JsonText Ids Artifact Receipts Projection Records Targets ByteSource.
Local Open Scope Z_scope.
Local Open Scope py_scope.

Definition PLATFORM : CatalogPlatform := {| platform_value := "ckan" |}.

(** ** The registry of actions *)

Record ActionEntry := {
  ae_name : string; ae_group : string; ae_owning_operation_id : string; ae_mutation_class : string; ae_result_kind : string
}.

Definition MANIFEST_RESOURCE : string := "action_manifest.json".
(** [ActionManifestError] with the text behind the name of the manifest *)
Definition manifest_error (text : string) : exn :=
  err ActionManifestError ("The CKAN action manifest " +:+ MANIFEST_RESOURCE +:+ " " +:+ text).

(** [ActionInventory.__init__]: [by_name] holds the names before. *)
Fixpoint check_names (by_name : list string) (entries : list ActionEntry) : result unit :=
  match entries with
  | [] => Ok tt
  | e :: entries =>
      raise_if (bool_decide (ae_name e ∈ by_name)) (err ActionManifestError ("Duplicate action name '" +:+ ae_name e +:+ "' in " +:+ MANIFEST_RESOURCE +:+ "."));;
      check_names (by_name ++ [ae_name e]) entries
  end.
Record ActionInventory := { inv_entries : list ActionEntry }.
Definition make_inventory (entries : list ActionEntry) : result ActionInventory :=
  check_names [] entries;;
  Ok {| inv_entries := entries |}.

Definition lookup_action (self : ActionInventory) (action : string) : result ActionEntry :=
  match List.find (λ e, bool_decide (ae_name e = action)) (inv_entries self) with
  | Some entry => Ok entry
  | None => raise_new (catalog_error CatalogValidationError
      ("The action '" +:+ action +:+ "' is not registered in the checked-in CKAN action manifest.") action "ckan" None
      "Dispatch only manifest-registered actions through their typed client methods." None)
  end.

Definition _MANIFEST_KEYS : list string := ["schema_version"; "platform"; "profile_version"; "actions"].
Definition _ENTRY_KEYS : list string := ["name"; "group"; "owning_operation_id"; "mutation_class"; "result_kind"].
Definition _MUTATION_CLASSES : list string := ["read"; "standard"; "destructive"].
Definition _RESULT_KINDS : list string := ["record"; "record-list"; "value"; "value-list"; "mapping"; "token-secret"].

(** A JSON object with exactly the keys *)
Definition keyed_object (keys : list string) (e : exn) (v : pyval) : result pydict :=
  d ← object_dict v "" (λ _, e);
  raise_if (negb (keys_are d keys)) e;;
  Ok d.

Definition _entry_from (item : pyval) : result ActionEntry :=
  d ← keyed_object _ENTRY_KEYS (manifest_error "carries a malformed action entry.") item;
  let text key :=
    let e := manifest_error ("entry field '" +:+ key +:+ "' must be a non-empty string.") in
    v ← field d key; s ← as_str e v; raise_if (negb (str_nonempty s)) e;; Ok s in
  name ← text "name"; group ← text "group"; owner ← text "owning_operation_id";
  mutation_class ← text "mutation_class"; result_kind ← text "result_kind";
  raise_if (negb (bool_decide (mutation_class ∈ _MUTATION_CLASSES)))
    (manifest_error "entry declares an unknown mutation class.");;
  raise_if (negb (bool_decide (result_kind ∈ _RESULT_KINDS)))
    (manifest_error "entry declares an unknown result kind.");;
  Ok {| ae_name := name; ae_group := group; ae_owning_operation_id := owner; ae_mutation_class := mutation_class;
        ae_result_kind := result_kind |}.

(** [_load_entries]: [raw] is the text of the manifest, [None] when it is
    missing. *)
Definition _load_entries `{!FloatText} (raw : option string) : result (list ActionEntry) :=
  match raw with
  | None => Raise (manifest_error "is missing.")
  | Some raw =>
      match loads raw with
      | None => Raise (manifest_error "is not valid JSON.")
      | Some document =>
          d ← keyed_object _MANIFEST_KEYS (manifest_error "carries unexpected top-level keys.") document;
          version ← field d "schema_version"; platform ← field d "platform"; profile ← field d "profile_version";
          actions ← field d "actions";
          raise_if (negb (py_eq_str version "1.0")) (manifest_error "uses an unsupported schema version.");;
          raise_if (negb (py_eq_str platform "ckan")) (manifest_error "names the wrong platform identity.");;
          raise_if (match profile with PyStr s => negb (str_nonempty s) | _ => true end)
            (manifest_error "requires a profile version string.");;
          match actions with
          | PyList ((_ :: _) as items) => map_res _entry_from items
          | _ => Raise (manifest_error "must list at least one action.")
          end
      end
  end.
Definition from_manifest `{!FloatText} (raw : option string) : result ActionInventory := entries ← _load_entries raw; make_inventory entries.

(** ** Errors of an envelope *)

Definition ENVELOPE_MARKER_KEY : string := "__type".
Definition _FORBIDDEN_MESSAGE_MARKERS : list string := ["unauthorized to"; "not authorized"].
Definition _SIZE_LIMIT_MARKERS : list string :=
  ["file size"; "too large"; "max_size"; "max size"; "maximum size"; "size limit"; "content length"; "content-length";
   "max_request_size"; "ckan.max_resource_size"].
Definition _UPLOAD_REMEDY : string := "Reduce the uploaded file size below the deployment limit and retry the action.".

Definition _authorization_error (status_code : option Z) (message operation platform : string) (metadata : pydict) : result exn :=
  if bool_decide (status_code = Some 403) || existsb (λ part, str_contains part message) _FORBIDDEN_MESSAGE_MARKERS then
    catalog_error ForbiddenError "The deployment denied this authenticated action." operation platform (Some "forbidden")
      "Use credentials with the required role or request the missing permission." (Some metadata)
  else
    catalog_error UnauthenticatedError "The deployment rejected the credentials supplied for this action." operation platform
      (Some "unauthorized") "Provide valid credentials and retry the operation." (Some metadata).

Definition _size_limited (details : pydict) (message : string) : bool :=
  existsb (λ marker, str_contains marker message) _SIZE_LIMIT_MARKERS ||
  existsb (λ kv, bool_decide (str_lower kv.1 ∈ ["max_size"; "size"])) details.

Definition text_of (v : option pyval) : string := match v with Some (PyStr s) => s | _ => "" end.

(** The typed error for the [error] object of an envelope *)
Definition map_envelope_error (error_dict : list (pyval * pyval)) (operation platform : string) (status_code : option Z)
  : result exn :=
  let redacted := redact_mapping 0 error_dict in
  let details := List.filter (λ kv, negb (bool_decide (kv.1 = ENVELOPE_MARKER_KEY))) redacted in
  let envelope_type := str_lower (strip (text_of (dict_get ENVELOPE_MARKER_KEY redacted))) in
  let lowered := str_lower (text_of (dict_get "message" redacted)) in
  if bool_decide (envelope_type = "authorization error") then
    _authorization_error status_code lowered operation platform details
  else if bool_decide (envelope_type = "not found error") then
    catalog_error CatalogNotFoundError "The requested catalog target was not found." operation platform None
      "Confirm the target identifier against the deployment." (Some details)
  else if bool_decide (envelope_type = "validation error") then
    catalog_error CatalogValidationError "The deployment reported validation failures for this action." operation platform None
      (if _size_limited redacted lowered then _UPLOAD_REMEDY
       else "Correct the rejected fields according to the deployment validation rules.") (Some details)
  else if bool_decide (envelope_type ∈ ["conflict"; "conflict error"]) then
    catalog_error CatalogConflictError "The deployment reported a conflicting catalog state." operation platform None
      "Refresh the target state and retry the operation." (Some details)
  else
    catalog_error CatalogUnavailableError "The deployment answered with an unrecognized failure." operation platform
      (Some "unavailable") "Retry after confirming the deployment health." (Some details).

(** ** Mutation tiers *)

Definition default_standard_policy : MutationPolicy :=
  {| destructive := false; confirmation := None; concurrency := Some {| token := None; overwrite := true |};
     idempotency := {| safe := false; idem_key := None; explicit_retry_opt_in := false |}; dry_run := {| requested := false |} |}.

(** A destructive mutation is confirmed and says what it may overwrite. *)
Definition tier_confirmed (policy : option MutationPolicy) : bool :=
  match policy with
  | None => false
  | Some p =>
      destructive p && match confirmation p with Some c => confirmed c | None => false end &&
      match concurrency p with Some c => concurrency_allows c | None => false end
  end.
Definition require_mutation_tier (mutation_class : string) (operation_id : OperationId) (policy : option MutationPolicy)
  : result (option MutationPolicy) :=
  raise_if (negb (bool_decide (mutation_class ∈ _MUTATION_CLASSES))) (err ValueError ("Unknown mutation tier: '" +:+ mutation_class +:+ "'."));;
  if bool_decide (mutation_class = "read") then Ok policy
  else if bool_decide (mutation_class = "destructive") then
    if tier_confirmed policy then Ok policy
    else raise_new (catalog_error CatalogValidationError
      (operation_str operation_id +:+ " is a destructive mutation and requires explicit confirmation before dispatch.")
      (operation_str operation_id) (op_platform operation_id) None
      "Provide a MutationPolicy with destructive=True, ConfirmationPolicy(confirmed=True), and a version token or explicit overwrite."
      None)
  else Ok (Some (default default_standard_policy policy)).

(** ** Items of a result *)

Record CKANTokenResult := { result_metadata : pydict; _secret : string }.

(** The constructor, for a metadata that is a mapping *)
Definition make_token_result (metadata : list (pyval * pyval)) (secret : string) : result CKANTokenResult :=
  frozen ← freeze_mapping _contract_error (PyDict metadata) "ckan_token_result.metadata";
  Ok {| result_metadata := frozen; _secret := secret |}.
Definition from_token_result (payload : pyval) : result CKANTokenResult :=
  match payload with
  | PyDict kvs | PyProxy kvs =>
      match lookup_key "token" kvs with
      | Some (PyStr (String _ _ as secret)) =>
          make_token_result (List.filter (λ kv, negb (py_eq_str kv.1 "token")) kvs) secret
      | _ => Raise (err ValueError "CKAN token results must carry a non-empty token value.")
      end
  | _ => Raise (err ValueError "CKAN token results must be JSON objects.")
  end.
Definition token_to_dict (r : CKANTokenResult) : pyval :=
  str_dict (dict_set "token" (PyStr REDACTED) (thaw_dict (result_metadata r))).

Inductive CKANResultItem :=
  | ItemRecord (r : NativeRecord)
  | ItemMapping (r : MappingRecord)
  | ItemValue (r : ValueRecord)
  | ItemToken (r : CKANTokenResult).
Definition item_to_dict (i : CKANResultItem) : result pyval :=
  match i with
  | ItemRecord r => native_to_dict r
  | ItemMapping r => mapping_to_dict r
  | ItemValue r => Ok (value_to_dict r)
  | ItemToken r => Ok (token_to_dict r)
  end.

Record CKANMutationResult := { mr_result : ResultEnvelope CKANResultItem; mr_receipt : MutationReceipt }.
Definition mutation_result_to_dict (r : CKANMutationResult) : result pyval :=
  result ← result_to_dict item_to_dict (mr_result r);
  Ok (str_dict [("schema_version", PyInt 1); ("kind", PyStr "ckan_mutation_result"); ("result", result);
                ("receipt", receipt_to_dict (mr_receipt r))]).

(** ** The kinds of results *)

Inductive outcome := OutRecord | OutRecordList | OutValue | OutValueList | OutMapping | OutToken.
#[global] Instance outcome_eq_dec : EqDecision outcome.
Proof. solve_decision. Defined.

Definition RECORD_KINDS : list (string * ResourceKind) :=
  prod_map id Build_ResourceKind <$>
  [("package", "dataset"); ("resource", "resource"); ("organization", "organization"); ("user", "user"); ("group", "group");
   ("tag", "tag"); ("vocabulary", "vocabulary"); ("member", "member"); ("activity", "activity"); ("job", "job");
   ("task_status", "task")].

Definition RESULT_KINDS : list (string * (outcome * option string)) :=
  [("help_show", (OutValue, None)); ("status_show", (OutMapping, None)); ("package_list", (OutValueList, None));
   ("current_package_list_with_resources", (OutRecordList, Some "package")); ("package_show", (OutRecord, Some "package"));
   ("package_search", (OutRecordList, Some "package")); ("package_autocomplete", (OutRecordList, Some "package"));
   ("package_create", (OutRecord, Some "package")); ("package_update", (OutRecord, Some "package"));
   ("package_patch", (OutRecord, Some "package")); ("package_revise", (OutRecord, Some "package"));
   ("package_resource_reorder", (OutMapping, None)); ("package_owner_org_update", (OutMapping, None));
   ("package_delete", (OutValue, None)); ("dataset_purge", (OutValue, None)); ("bulk_update_private", (OutValue, None));
   ("bulk_update_public", (OutValue, None)); ("bulk_update_delete", (OutValue, None));
   ("package_collaborator_create", (OutMapping, None)); ("package_collaborator_delete", (OutValue, None));
   ("package_collaborator_list", (OutMapping, None)); ("package_collaborator_list_for_user", (OutMapping, None));
   ("resource_show", (OutRecord, Some "resource")); ("resource_search", (OutRecordList, Some "resource"));
   ("resource_create", (OutRecord, Some "resource")); ("resource_update", (OutRecord, Some "resource"));
   ("resource_patch", (OutRecord, Some "resource")); ("resource_delete", (OutValue, None));
   ("organization_list", (OutRecordList, Some "organization"));
   ("organization_list_for_user", (OutRecordList, Some "organization")); ("organization_show", (OutRecord, Some "organization"));
   ("organization_autocomplete", (OutRecordList, Some "organization")); ("organization_create", (OutRecord, Some "organization"));
   ("organization_update", (OutRecord, Some "organization")); ("organization_patch", (OutRecord, Some "organization"));
   ("organization_delete", (OutValue, None)); ("organization_purge", (OutValue, None));
   ("organization_member_create", (OutRecord, Some "member")); ("organization_member_delete", (OutValue, None));
   ("group_list", (OutValueList, None)); ("group_list_authz", (OutValueList, None)); ("group_show", (OutRecord, Some "group"));
   ("group_package_show", (OutRecordList, Some "package")); ("group_autocomplete", (OutRecordList, Some "group"));
   ("group_create", (OutRecord, Some "group")); ("group_update", (OutRecord, Some "group"));
   ("group_patch", (OutRecord, Some "group")); ("group_delete", (OutValue, None)); ("group_purge", (OutValue, None));
   ("group_member_create", (OutRecord, Some "member")); ("group_member_delete", (OutValue, None));
   ("member_create", (OutRecord, Some "member")); ("member_delete", (OutValue, None)); ("member_list", (OutMapping, None));
   ("member_roles_list", (OutValueList, None)); ("user_list", (OutRecordList, Some "user"));
   ("user_show", (OutRecord, Some "user")); ("user_autocomplete", (OutRecordList, Some "user"));
   ("user_create", (OutRecord, Some "user")); ("user_invite", (OutRecord, Some "user")); ("user_update", (OutRecord, Some "user"));
   ("user_patch", (OutRecord, Some "user")); ("user_delete", (OutValue, None)); ("get_site_user", (OutRecord, Some "user"));
   ("api_token_create", (OutToken, None)); ("api_token_list", (OutMapping, None)); ("api_token_revoke", (OutValue, None));
   ("tag_list", (OutValueList, None)); ("tag_show", (OutRecord, Some "tag")); ("tag_search", (OutMapping, None));
   ("tag_autocomplete", (OutRecordList, Some "tag")); ("tag_create", (OutRecord, Some "tag")); ("tag_delete", (OutValue, None));
   ("vocabulary_list", (OutRecordList, Some "vocabulary")); ("vocabulary_show", (OutRecord, Some "vocabulary"));
   ("vocabulary_create", (OutRecord, Some "vocabulary")); ("vocabulary_update", (OutRecord, Some "vocabulary"));
   ("vocabulary_delete", (OutValue, None)); ("license_list", (OutMapping, None)); ("format_autocomplete", (OutValueList, None));
   ("term_translation_show", (OutMapping, None)); ("term_translation_update", (OutValue, None));
   ("term_translation_update_many", (OutMapping, None)); ("package_relationships_list", (OutMapping, None));
   ("package_relationship_create", (OutMapping, None)); ("package_relationship_update", (OutMapping, None));
   ("package_relationship_delete", (OutValue, None)); ("follow_dataset", (OutMapping, None));
   ("unfollow_dataset", (OutMapping, None)); ("am_following_dataset", (OutValue, None)); ("follow_group", (OutMapping, None));
   ("unfollow_group", (OutMapping, None)); ("am_following_group", (OutValue, None)); ("follow_user", (OutMapping, None));
   ("unfollow_user", (OutMapping, None)); ("am_following_user", (OutValue, None)); ("dataset_follower_count", (OutValue, None));
   ("dataset_follower_list", (OutRecordList, Some "user")); ("group_follower_count", (OutValue, None));
   ("group_follower_list", (OutRecordList, Some "user")); ("organization_follower_count", (OutValue, None));
   ("organization_follower_list", (OutRecordList, Some "user")); ("user_follower_count", (OutValue, None));
   ("user_follower_list", (OutRecordList, Some "user")); ("dataset_followee_count", (OutValue, None));
   ("dataset_followee_list", (OutRecordList, Some "user")); ("group_followee_count", (OutValue, None));
   ("group_followee_list", (OutRecordList, Some "user")); ("organization_followee_count", (OutValue, None));
   ("organization_followee_list", (OutRecordList, Some "user")); ("user_followee_count", (OutValue, None));
   ("user_followee_list", (OutRecordList, Some "user")); ("followee_count", (OutValue, None));
   ("followee_list", (OutRecordList, Some "user")); ("activity_show", (OutRecord, Some "activity"));
   ("activity_data_show", (OutMapping, None)); ("activity_diff", (OutMapping, None));
   ("activity_create", (OutRecord, Some "activity")); ("package_activity_list", (OutRecordList, Some "activity"));
   ("group_activity_list", (OutRecordList, Some "activity")); ("organization_activity_list", (OutRecordList, Some "activity"));
   ("user_activity_list", (OutRecordList, Some "activity"));
   ("recently_changed_packages_activity_list", (OutRecordList, Some "activity"));
   ("dashboard_activity_list", (OutRecordList, Some "activity")); ("dashboard_new_activities_count", (OutValue, None));
   ("dashboard_mark_activities_old", (OutValue, None)); ("send_email_notifications", (OutValue, None));
   ("resource_view_create", (OutMapping, None)); ("resource_view_show", (OutMapping, None));
   ("resource_view_list", (OutMapping, None)); ("resource_view_update", (OutMapping, None));
   ("resource_view_reorder", (OutMapping, None)); ("resource_view_delete", (OutValue, None));
   ("resource_view_clear", (OutValue, None)); ("package_create_default_resource_views", (OutMapping, None));
   ("resource_create_default_resource_views", (OutMapping, None)); ("datastore_search", (OutMapping, None));
   ("datastore_info", (OutMapping, None)); ("datastore_create", (OutMapping, None)); ("datastore_upsert", (OutMapping, None));
   ("datastore_delete", (OutMapping, None)); ("datastore_records_delete", (OutMapping, None));
   ("datastore_function_create", (OutMapping, None)); ("datastore_function_delete", (OutValue, None));
   ("datastore_run_triggers", (OutMapping, None)); ("datastore_search_sql", (OutMapping, None));
   ("job_list", (OutRecordList, Some "job")); ("job_show", (OutRecord, Some "job")); ("job_cancel", (OutValue, None));
   ("job_clear", (OutValue, None)); ("task_status_show", (OutRecord, Some "task_status"));
   ("task_status_update", (OutRecord, Some "task_status")); ("task_status_update_many", (OutMapping, None));
   ("task_status_delete", (OutValue, None)); ("config_option_show", (OutValue, None));
   ("config_option_list", (OutValueList, None)); ("config_option_update", (OutMapping, None))].
Definition _fallback_outcome (action : string) : outcome * option string :=
  if starts_with "am_following_" action || ends_with "_follower_count" action || ends_with "_followee_count" action
  then (OutValue, None)
  else if ends_with "_follower_list" action || ends_with "_followee_list" action then (OutRecordList, Some "user")
  else (OutMapping, None).

(** ** Decoding *)

Definition native_error (detail operation platform : string) : result exn :=
  native_catalog_error detail operation platform None None None None None None.
Definition _shaping_error (action detail : string) : result exn := native_error detail ("ckan/" +:+ action) "ckan".
Definition _invalid_response (operation platform detail : string) : result exn := native_error detail operation platform.

Definition parse_action_envelope (payload : pyval) (operation platform : string) : result pyval :=
  match payload with
  | PyDict kvs | PyProxy kvs =>
      match lookup_key "success" kvs with
      | Some (PyBool true) => Ok (default PyNone (lookup_key "result" kvs))
      | Some (PyBool false) =>
          match lookup_key "error" kvs with
          | Some (PyDict e) | Some (PyProxy e) => raise_new (map_envelope_error e operation platform None)
          | _ => raise_new (_invalid_response operation platform "The deployment sent a failed envelope without an error object.")
          end
      | _ => raise_new (_invalid_response operation platform "The deployment sent an envelope without a boolean success flag.")
      end
  | _ => raise_new (_invalid_response operation platform "The deployment sent a non-object Action API payload.")
  end.

Definition sequence_items (v : option pyval) : option (list pyval) :=
  match v with Some (PyList l) | Some (PyTuple l) => Some l | _ => None end.
Definition _WRAPPER_KEYS : list string := ["results"; "records"].
Definition _sequence (action : string) (value : pyval) : result (list pyval) :=
  match value with
  | PyDict kvs | PyProxy kvs =>
      match omap (λ key, sequence_items (lookup_key key kvs)) _WRAPPER_KEYS with
      | nested :: _ => Ok nested
      | [] => raise_new (_shaping_error action "The result object carried no results array for a list outcome.")
      end
  | PyList l | PyTuple l => Ok l
  | _ => raise_new (_shaping_error action "The result value was not an array for a list outcome.")
  end.

Definition _object_payload (action : string) (entry : pyval) : result (list (pyval * pyval)) :=
  match entry with
  | PyDict kvs | PyProxy kvs => Ok kvs
  | _ => raise_new (_shaping_error action "The result carried a non-object where a record was expected.")
  end.

Definition mapping_item (kvs : list (pyval * pyval)) : result CKANResultItem := r ← make_mapping (PyDict kvs); Ok (ItemMapping r).

(** [payload.get("id", payload.get("name"))] *)
Definition identity_of (payload : list (pyval * pyval)) : pyval :=
  default (default PyNone (lookup_key "name" payload)) (lookup_key "id" payload).
Definition _record_item (payload : list (pyval * pyval)) (family : option string) : result CKANResultItem :=
  match family ≫= λ f, dict_get f RECORD_KINDS, identity_of payload with
  | Some kind, PyStr (String _ _ as identity) =>
      id ← make_catalog_id PLATFORM kind identity;
      r ← make_native PLATFORM kind id (PyDict payload) (PyDict []);
      Ok (ItemRecord r)
  | _, _ => mapping_item payload
  end.

Definition value_item (v : pyval) : result CKANResultItem := r ← make_value_record v; Ok (ItemValue r).
Definition _value_item (action : string) (value : pyval) : result CKANResultItem :=
  match value with
  | PyNone | PyStr _ | PyBool _ | PyInt _ | PyFloat (FFin _) => value_item value
  | PyDict kvs | PyProxy kvs => mapping_item kvs
  | _ => raise_new (_shaping_error action "The result value was neither scalar nor object.")
  end.

Definition _member_item (action : string) (entry : pyval) : result CKANResultItem :=
  match entry with
  | PyList [i; t; c] | PyTuple [i; t; c] => mapping_item [(PyStr "id", i); (PyStr "type", t); (PyStr "capacity", c)]
  | _ => raise_new (_shaping_error action "The member list carried an entry that was not an id/type/capacity triple.")
  end.
Definition mapping_or_value (action : string) (entry : pyval) : result CKANResultItem :=
  match entry with PyDict kvs | PyProxy kvs => mapping_item kvs | _ => _value_item action entry end.
Definition _mapping_items (action : string) (value : pyval) : result (list CKANResultItem) :=
  match value with
  | PyDict kvs | PyProxy kvs => i ← mapping_item kvs; Ok [i]
  | PyList l | PyTuple l => map_res ((if bool_decide (action = "member_list") then _member_item else mapping_or_value) action) l
  | _ => raise_new (_shaping_error action "The result value was neither object nor array for a mapping outcome.")
  end.

Definition _COUNT_KEYS : list string := ["count"; "total"].
Definition total_page (n : Z) : PageInfo := {| page_cursor := None; next_cursor := None; total_items := Some n |}.
Definition _platform_page (value : pyval) : option PageInfo :=
  match value with
  | PyDict kvs | PyProxy kvs =>
      total_page <$> head (omap (λ key, match lookup_key key kvs with
                                        | Some (PyInt n) => if 0 <=? n then Some n else None
                                        | _ => None
                                        end) _COUNT_KEYS)
  | PyList l | PyTuple l => Some (total_page (Z.of_nat (length l)))
  | _ => None
  end.

(** [except ValueError as exc: raise _shaping_error(action, str(exc))] *)
Definition shaping_failure {A} (action : string) (r : result A) : result A :=
  match r with
  | Raise e => if is_subclass (exn_kind e) ValueError then raise_new (_shaping_error action (exn_msg e)) else Raise e
  | Ok a => Ok a
  end.
Definition shape_items (action : string) (outcome : outcome) (family : option string) (value : pyval)
  : result (list CKANResultItem) :=
  match outcome with
  | OutToken => item ← shaping_failure action (from_token_result value); Ok [ItemToken item]
  | OutMapping => _mapping_items action value
  | OutValue => i ← _value_item action value; Ok [i]
  | OutValueList => entries ← _sequence action value; map_res (_value_item action) entries
  | OutRecord => payload ← _object_payload action value; i ← _record_item payload family; Ok [i]
  | OutRecordList =>
      entries ← _sequence action value;
      map_res (λ entry, payload ← _object_payload action entry; _record_item payload family) entries
  end.
Definition result_kind (action : string) : outcome * option string := default (_fallback_outcome action) (dict_get action RESULT_KINDS).
Definition shape_result_envelope (action : string) (value : pyval) (page_hint : option PageInfo)
  : result (ResultEnvelope CKANResultItem) :=
  let '(outcome, family) := result_kind action in
  its ← shape_items action outcome family value;
  Ok {| items := its; page := match page_hint with Some p => Some p | None => _platform_page value end;
        warnings := []; platform := None |}.

(** ** Normalised records *)

Definition _text_or_none (value : option pyval) : option string := match value with Some (PyStr s) => Some s | _ => None end.

Definition _native_of (item : CKANResultItem) (kind : string) : result NativeRecord :=
  let e := native_error "The CKAN result carried no native record where a normalized record was expected." ("ckan/" +:+ kind) "ckan" in
  match item with
  | ItemRecord r => if bool_decide (kind_value (nat_resource_kind r) = kind) then Ok r else raise_new e
  | _ => raise_new e
  end.
Definition _payload_of (record : NativeRecord) : pydict := thaw_dict (nat_payload record).

Definition nonempty_text (v : option pyval) : option string := match v with Some (PyStr (String _ _ as s)) => Some s | _ => None end.

(** The converters of datasets and organizations: the name is required, the
    description is the first of two texts. *)
Definition named_envelope (kind family missing first second : string) (item : CKANResultItem) : result pyval :=
  record ← _native_of item kind;
  let payload := _payload_of record in
  match nonempty_text (dict_get "name" payload) with
  | None => raise_new (native_error missing ("ckan/" +:+ family) "ckan")
  | Some name =>
      let description := match _text_or_none (dict_get first payload) with
                         | Some d => Some d
                         | None => _text_or_none (dict_get second payload)
                         end in
      Ok (str_dict [("schema_version", PyInt 1); ("kind", PyStr kind); ("id", catalog_id_to_dict (nat_id record));
                    ("name", PyStr name); ("description", opt_str description); ("extensions", PyDict [])])
  end.
Definition _dataset_envelope : CKANResultItem → result pyval :=
  named_envelope "dataset" "datasets" "The CKAN package payload carries no usable dataset name." "notes" "description".
Definition _organization_envelope : CKANResultItem → result pyval :=
  named_envelope "organization" "organizations" "The CKAN organization payload carries no usable organization name."
    "description" "notes".
Definition _resource_envelope (item : CKANResultItem) : result pyval :=
  record ← _native_of item "resource";
  let payload := _payload_of record in
  match nonempty_text (dict_get "package_id" payload) with
  | None => raise_new (native_error "The CKAN resource payload carries no package identifier." "ckan/resources" "ckan")
  | Some package_id =>
      let name := default (id_value (nat_id record)) (nonempty_text (dict_get "name" payload)) in
      dataset_id ← make_catalog_id PLATFORM {| kind_value := "dataset" |} package_id;
      Ok (str_dict [("schema_version", PyInt 1); ("kind", PyStr "resource"); ("id", catalog_id_to_dict (nat_id record));
                    ("dataset_id", catalog_id_to_dict dataset_id); ("name", PyStr name);
                    ("url", opt_str (_text_or_none (dict_get "url" payload))); ("extensions", PyDict [])])
  end.

(** [_normalized_decoder] *)
Definition decode_dataset (item : CKANResultItem) : result NamedRecord := v ← _dataset_envelope item; named_from_dict Dataset v.
Definition decode_organization (item : CKANResultItem) : result NamedRecord :=
  v ← _organization_envelope item; named_from_dict Organization v.
Definition decode_resource (item : CKANResultItem) : result ResourceRecord := v ← _resource_envelope item; resource_from_dict v.
