(* ===== verification/CkanClient.v ===== *)
(** * The CKAN client

    [connectors/catalog/ckan/clients.py] and [settings.py]: the origin of a
    deployment, the request of an action, one dispatch with its guards,
    capability evidence, mutation tier, circuit, retries, decoding and events,
    and the typed reads and mutations every service of the connector is made
    of.  It runs on the registry of circuits, the retry loop and the log of
    [Clients]; the asynchronous client runs the same steps with awaited calls.

    The state is [_credential_scope] and the state of [Clients]. *)
From Stdlib Require Import QArith ZArith Ascii.
From stdpp Require Import strings gmap.
From S2P Require Import Prelude PyVal Regex Redaction Policies Errors Transport Resilience Breaker Urls Json JsonText Ids Profiles Capability Receipts Projection Records Mutation Events Clients Uris Targets ByteSource Ckan.
Import Deadline.
Local Close Scope Q_scope.
Local Open Scope Z_scope.
Local Open Scope py_scope.

(** ** Origins *)

Definition LOOPBACK_HOSTS : list string := ["127.0.0.1"; "::1"; "localhost"].

(** [urllib.parse.unquote] *)
Class PathText := unquote : string → string.

(** [parse_origin] of [connectors/catalog/_settings.py] *)
Definition parse_origin `{IpLiterals} (value platform : string) : result SplitResult :=
  raise_if (negb (str_nonempty value)) (err ValueError (platform +:+ " client settings require a non-empty base URL string."));;
  parsed ← urlsplit value;
  raise_if (negb (bool_decide (scheme parsed ∈ ["http"; "https"])) || negb (str_nonempty (netloc parsed)))
    (err ValueError (platform +:+ " base URLs must be absolute HTTP(S) origins."));;
  raise_if (bool_decide (is_Some (username parsed)) || bool_decide (is_Some (password parsed)))
    (err ValueError (platform +:+ " base URLs cannot carry userinfo credentials."));;
  raise_if (str_nonempty (url_query parsed) || str_nonempty (url_fragment parsed))
    (err ValueError (platform +:+ " base URLs cannot carry query strings or fragments."));;
  Ok parsed.

(** [path.rstrip("/")] *)
Definition rstrip_slashes (path : string) : string :=
  rev_bytes (str_drop_while (λ c, bool_decide (c = "/"%char)) (rev_bytes path "")) "".
(** A segment of [path.split("/")] is one or two dots. *)
Fixpoint dot_segment (acc path : string) : bool :=
  match path with
  | EmptyString => bool_decide (acc ∈ ["."; ".."])
  | String c path =>
      if bool_decide (c = "/"%char) then bool_decide (acc ∈ ["."; ".."]) || dot_segment "" path
      else dot_segment (acc +:+ String c "") path
  end.

Section origin.
Context {W : Type} `{IpLiterals, IpAddresses, !Targets.Resolver W, PathText}.

Definition loopback (parsed : SplitResult) : bool :=
  match hostname parsed with Some host => bool_decide (host ∈ LOOPBACK_HOSTS) | None => false end.

Definition normalize_origin (value : string) : M W string :=
  parsed ← lift_res (parse_origin value "CKAN");
  lift_res (raise_if (bool_decide (scheme parsed = "http") && negb (loopback parsed))
    (err ValueError "Plain-text HTTP origins are restricted to loopback CKAN deployments."));;
  try_except (validate_http_target (PyStr value) (loopback parsed) false) (λ e,
    if is_subclass (exn_kind e) ValueError then
      Some (throw (err ValueError
        (if bool_decide (exn_msg e = "locality")
         then "CKAN base URLs must target a public host; only plain-text loopback deployments may be private."
         else "CKAN base URLs must be a valid HTTP(S) target (" +:+ exn_msg e +:+ ").")))
    else None);;
  let decoded_path := unquote (url_path parsed) in
  lift_res (raise_if (has_char "\" decoded_path || dot_segment "" decoded_path)
    (err ValueError "CKAN base URLs cannot carry backslash or dot path segments."));;
  mret (urlunsplit (str_lower (scheme parsed)) (str_lower (netloc parsed)) (rstrip_slashes (url_path parsed)) "" "").
End origin.

(** ** Requests *)

Definition _ACTION_PATH : string := "/api/3/action/".
Definition _NATIVE_GROUP_SAFE_ACTION : string := "Call the action through its owning native group projection.".

Definition validation_error (message operation safe_action : string) : result exn :=
  catalog_error CatalogValidationError message operation "ckan" None safe_action None.

(** [type(value) is float and not math.isfinite(value)], anywhere in a value:
    what [JSONEncoder(allow_nan=False)] refuses *)
Fixpoint all_finite (v : pyval) : bool :=
  match v with
  | PyFloat (FFin _) => true
  | PyFloat _ => false
  | PyList l | PyTuple l => forallb all_finite l
  | PyDict kvs | PyProxy kvs => forallb (λ kv, all_finite kv.2) kvs
  | _ => true
  end.

Definition part_bytes (p : UploadPart) : Z := match part_data p with UploadBytes data => size data | UploadStream _ => 0 end.
Definition over (max_bytes : option Z) (n : Z) : bool := match max_bytes with Some limit => limit <? n | None => false end.

(** The text of the parameters, [None] when they have none within the ceiling *)
Definition params_text `{!FloatText} (params : pydict) (max_bytes : option Z) : option string :=
  if all_finite (str_dict params) then
    match dumps false (str_dict params) with
    | Ok text => if over max_bytes (size text) then None else Some text
    | Raise _ => None
    end
  else None.

Definition _dispatch_request `{!FloatText} (origin : string) (entry : ActionEntry) (params : pydict) (c : option credential)
    (parts : list UploadPart) (max_bytes : option Z) : result RuntimeRequest :=
  let url := origin +:+ _ACTION_PATH +:+ ae_name entry in
  match parts with
  | _ :: _ =>
      if over max_bytes (foldr (λ p n, part_bytes p + n) 0 parts) then
        raise_new (validation_error "CKAN multipart uploads exceed the configured upload byte ceiling."
          (ae_owning_operation_id entry) "Reduce the upload size or raise max_upload_bytes.")
      else make_runtime_request "POST" url (dict_merge [("Content-Type", "multipart/form-data")] (_auth_headers c)) None parts FOLLOW None None
  | [] =>
      match params_text params max_bytes with
      | None =>
          raise_new (validation_error "CKAN request parameters require finite JSON within the configured upload byte ceiling."
            (ae_owning_operation_id entry) "Use finite JSON values and reduce the request size or raise max_upload_bytes.")
      | Some text =>
          make_runtime_request "POST" url (dict_merge [("Content-Type", "application/json")] (_auth_headers c)) (Some text) [] FOLLOW None None
      end
  end.

Definition _operation_id_from (value : string) : result OperationId :=
  let '(platform, tail) := partition "/" value in
  let tail := or_empty tail in
  match partition "." tail with
  | (service, Some method) => make_operation_id platform service method
  | (_, None) => make_operation_id platform "native" tail
  end.

(** [services/_shared.py]: the parameters that are no longer accepted *)
Definition _DEPRECATED_PARAMETERS : list (string * list (string * string)) :=
  [("current_package_list_with_resources", [("page", "Use offset instead of page.")]);
   ("tag_search", [("fields", "Use q and vocabulary_id instead of fields.")]);
   ("tag_autocomplete", [("fields", "Use q and vocabulary_id instead of fields.")])].
Definition reject_deprecated (action : string) (payload : pydict) : result unit :=
  let banned := default [] (dict_get action _DEPRECATED_PARAMETERS) in
  match List.filter (λ b, bool_decide (b.1 ∈ payload.*1)) banned with
  | [] => Ok tt
  | clash => raise_new (validation_error
      ("The parameter(s) ['" +:+ String.concat "', '" clash.*1 +:+ "'] are officially deprecated for " +:+ action +:+ " and are not accepted.")
      ("ckan/" +:+ action) (String.concat " " clash.*2))
  end.

(** ** The environment *)

(** The capability cache, by the scope of a credential *)
Class ScopedCapabilities (W : Type) := {
  scoped_resolve : OperationId → string → M W EffectiveCapabilityProfile;
  scoped_resolve_async : OperationId → string → M W EffectiveCapabilityProfile;
  scoped_record : OperationId → ProbeResponseClass → string → M W unit;
  scoped_peek : OperationId → string → M W EffectiveCapabilityProfile;
  scoped_invalidate : option OperationId → M W unit
}.
(** The cache of [Capability] is one. *)
#[global] Instance cache_scoped {W} `{!ProbeEnv W, IpLiterals} (self : EffectiveCapabilityCache)
  : ScopedCapabilities (cap W) := {|
  scoped_resolve o scope := resolve self o scope;
  scoped_resolve_async o scope := resolve_async self o scope;
  scoped_record o c scope := record_response self o c scope;; mret tt;
  scoped_peek o scope := Capability.peek self o scope;
  scoped_invalidate o := invalidate o |}.

Record CKANClient (W : Type) := {
  ck_origin : string; ck_profile : EffectiveCapabilityProfile; ck_credentials : credentials; ck_budget : TimeBudget;
  ck_max_attempts : Z; ck_emitter : EventEmitter W; ck_owns_transport : bool; ck_inventory : ActionInventory;
  ck_max_upload_bytes : option Z; ck_probe_policy : string; ck_has_probe_runner : bool; ck_no_redact : bool;
  ck_closed_message : string
}.
Arguments ck_origin {W}. Arguments ck_profile {W}. Arguments ck_credentials {W}. Arguments ck_budget {W}.
Arguments ck_max_attempts {W}. Arguments ck_emitter {W}. Arguments ck_owns_transport {W}. Arguments ck_inventory {W}.
Arguments ck_max_upload_bytes {W}. Arguments ck_probe_policy {W}. Arguments ck_has_probe_runner {W}.
Arguments ck_no_redact {W}. Arguments ck_closed_message {W}.

(** [credential_scope] of a resolved credential *)
Definition as_credentials (c : option credential) : credentials := match c with Some c => Plain c | None => NoCredentials end.

Section client.
Context {W : Type} `{!CatalogEnv W, !ScopedCapabilities W, IpLiterals, Hmac, JsonBytes, FloatText}.
Variable self : CKANClient W.
Abbreviation D := (M (client W)).
Abbreviation K := (M (string * client W)).

Definition set_scope (scope : string) : K unit := modify (λ s, (scope, s.2)).

(** *** Events and errors *)

Definition ck_emit (o : OperationId) (outcome : string) (metadata : pydict) : D unit :=
  emit_event (ck_emitter self) (operation_str o) "ckan" outcome metadata.
Definition ck_emit_breaker_change (o : OperationId) (before after : bool) : D unit :=
  if Bool.eqb before after then mret tt else ck_emit o "breaker_state_change" [("breaker_open", PyBool after)].

Definition circuit_open (o : OperationId) : result exn :=
  catalog_error CatalogUnavailableError "The catalog origin circuit is open after consecutive transport failures."
    (operation_str o) "ckan" (Some "unavailable")
    "Wait for the circuit cool-down or explicitly reset the circuit before retrying." None.

(** *** What is checked before a request *)

Definition _require_optional_evidence (o : OperationId) : result unit :=
  if negb (bool_decide (ck_probe_policy self = "auto")) then Ok tt
  else
    match operations (declared_profile (ck_profile self)) !! o with
    | Some declared =>
        if (match capability_class declared with CapOptional => true | _ => false end) && negb (ck_has_probe_runner self) then
          raise_new (catalog_error UnsupportedCapabilityError
            (operation_str o +:+ " is an optional CKAN capability and requires probe evidence before dispatch.")
            (operation_str o) "ckan" (Some "optional")
            "Attach a probe runner (probe_runner= or async_probe_runner=) or select declared-baseline probing explicitly via CKANClientSettings(probe_policy='declared-baseline')."
            None)
        else Ok tt
    | None => Ok tt
    end.

Definition _enforce_caller_guards (operation : CatalogOperationRequest) (guard : CatalogOperationGuard W) : D unit :=
  (if bool_decide (cg_operation_id guard = cor_operation_id operation) then mret tt
   else throw (err ValueError ("Catalog operation guard operation_id " +:+ operation_str (cg_operation_id guard) +:+
                               " does not match request operation_id " +:+ operation_str (cor_operation_id operation) +:+ ".")));;
  on_world (cg_require_allowed guard).

(** The policy of a dispatch and its idempotency *)
Definition tier_idempotency (entry : ActionEntry) (policy : option MutationPolicy) : IdempotencyPolicy :=
  match policy with
  | Some p => idempotency p
  | None => {| safe := bool_decide (ae_mutation_class entry = "read"); idem_key := None; explicit_retry_opt_in := false |}
  end.
Definition wire_parameters (operation : CatalogOperationRequest) : pydict :=
  List.filter (λ kv, negb (bool_decide (kv.1 = "action"))) (cor_payload operation).

Definition _prepare_dispatch (o : OperationId) (effective : EffectiveCapabilityProfile) (operation : CatalogOperationRequest)
    (entry : ActionEntry) (c : option credential) (parts : list UploadPart)
  : D (RuntimeRequest * IdempotencyPolicy * DeadlineMonitor * CircuitKey) :=
  lift_res (require_allowed o (Some effective) None);;
  policy ← lift_res (require_mutation_tier (ae_mutation_class entry) o (cor_mutation_policy operation));
  request ← lift_res (_dispatch_request (ck_origin self) entry (wire_parameters operation) c parts (ck_max_upload_bytes self));
  deadline ← make_monitor (ck_budget self);
  deadline ← assert_dispatchable (Some (operation_str o)) (Some "ckan") deadline;
  key ← lift_res (_circuit_key request (as_credentials c));
  mret (request, tier_idempotency entry policy, deadline, key).

(** *** One attempt: [_DispatchState.attempt] around the transport *)

Definition ck_record_failure (o : OperationId) (key : CircuitKey) (before : CircuitState) : D unit :=
  after ← on_breakers (record_transport_failure key);
  set_dispatch id true;;
  ck_emit_breaker_change o (is_open before) (is_open after).
Definition ck_record_response (o : OperationId) (key : CircuitKey) (before : CircuitState) (response : RuntimeResponse)
  : D RuntimeResponse :=
  after ← on_breakers (Breaker.record_response key (status_code response));
  set_dispatch id true;;
  ck_emit_breaker_change o (is_open before) (is_open after);;
  mret response.
Definition admitted_attempt (o : OperationId) (request : RuntimeRequest) (key : CircuitKey) (before : CircuitState) : D RuntimeResponse :=
  response ← try_except (note (Clients.Sent request);; on_world (transport_send request))
    (λ e, if is_subclass (exn_kind e) TransportError
          then Some (ck_record_failure o key before;; throw e) else None);
  ck_record_response o key before response.
Definition ck_attempt (o : OperationId) (request : RuntimeRequest) (key : CircuitKey) : D RuntimeResponse :=
  admitted ← on_breakers (breaker_admit key);
  if (admitted : bool) then
    set_dispatch (λ n, n + 1) false;;
    before ← on_breakers (inspect key);
    try_finally (admitted_attempt o request key before) (_release_abandoned_trial key)
  else ck_emit o "breaker_open" [];; lift_res (raise_new (circuit_open o)).

(** *** Decoding *)

Definition http_error (o : OperationId) (response : RuntimeResponse) : result exn :=
  native ← native_catalog_error "Catalog operation returned an unsuccessful HTTP status." (operation_str o) "ckan"
             (Some (status_code response)) None (retry_after response) None None None;
  map_catalog_error native.

Definition decode_body (o : OperationId) (entry : ActionEntry) (response : RuntimeResponse) : result (ResultEnvelope CKANResultItem) :=
  match json_loads (body response) with
  | None => raise_new (native_error "Catalog operation returned an invalid JSON result." (operation_str o) "ckan")
  | Some payload =>
      bare ← parse_action_envelope payload (operation_str o) "ckan";
      shape_result_envelope (ae_name entry) bare None
  end.
Definition _decode (o : OperationId) (entry : ActionEntry) (response : RuntimeResponse) (scope : string)
  : D (ResultEnvelope CKANResultItem) :=
  let status := status_code response in
  if negb ((200 <=? status) && (status <? 300)) then
    (if status =? 401 then on_world (scoped_record o RespUnauthorized scope)
     else if status =? 403 then on_world (scoped_record o RespForbidden scope) else mret tt);;
    lift_res (raise_new (http_error o response))
  else lift_res (decode_body o entry response).

(** *** [_DispatchState.outcome] *)

Definition ck_success (o : OperationId) (deadline : DeadlineMonitor) : D unit :=
  n ← retry_count;
  usage ← usage_of (ck_budget self) deadline;
  ck_emit o "succeeded" [("retry_count", PyInt n); ("budget_usage", usage)].
Definition ck_outcome {A} (o : OperationId) (deadline : DeadlineMonitor) (m : D A) : D A :=
  r ← try_except m (λ e,
        if is_subclass (exn_kind e) BudgetExhaustedError then
          Some (usage ← usage_of (ck_budget self) deadline; ck_emit o "budget_exhausted" [("budget_usage", usage)];; throw e)
        else if is_Exception (exn_kind e) then
          Some (n ← retry_count; ck_emit o "failed" [("retry_count", PyInt n)];; throw e)
        else None);
  ck_success o deadline;;
  mret r.

(** *** Dispatch *)

Definition ck_send (o : OperationId) (entry : ActionEntry) (scope : string) (request : RuntimeRequest) (idem : IdempotencyPolicy)
    (deadline : DeadlineMonitor) (key : CircuitKey) : D (ResultEnvelope CKANResultItem) :=
  loop ← lift_res (make_retry_loop (ck_budget self) idem deadline (ck_max_attempts self));
  response ← run (λ d, on_world (retry_sleep d)) (ck_attempt o request key) loop;
  _decode o entry response scope.

(** [_refreshed_credential(self._credentials)] *)
Definition refreshed (provider : M W (option credential)) : D (option credential) :=
  match ck_credentials self with
  | NoCredentials => mret None
  | Clients.Resolver explicit => mret explicit
  | Plain c => mret (Some c)
  | Provider _ => on_world provider
  end.

Definition ck_dispatch_with (resolve : OperationId → string → M W EffectiveCapabilityProfile) (provider : M W (option credential))
    (operation : CatalogOperationRequest) (guard : CatalogOperationGuard W) (entry : ActionEntry) (parts : list UploadPart)
  : K (ResultEnvelope CKANResultItem) :=
  on_inner (closed ← read cl_closed;
            if (closed : bool) then throw (err RuntimeError (ck_closed_message self)) else mret tt);;
  on_inner (_enforce_caller_guards operation guard);;
  lift_res (reject_deprecated (ae_name entry) (cor_payload operation));;
  o ← lift_res (_operation_id_from (ae_owning_operation_id entry));
  lift_res (_require_optional_evidence o);;
  c ← on_inner (refreshed provider);
  let scope := _credential_scope (as_credentials c) in
  set_scope scope;;
  effective ← on_inner (on_world (resolve o "anonymous"));
  '(request, idem, deadline, key) ← on_inner (_prepare_dispatch o effective operation entry c parts);
  on_inner (set_dispatch (λ _, 0) false;; ck_outcome o deadline (ck_send o entry scope request idem deadline key)).

Definition ck_dispatch := ck_dispatch_with scoped_resolve provider_resolve.
Definition ck_dispatch_async := ck_dispatch_with scoped_resolve_async provider_resolve_async.

(** With a decoder, the items are decoded after the dispatch has settled. *)
Definition ck_dispatch_decoded {T} (decoder : CKANResultItem → result T) (operation : CatalogOperationRequest)
    (guard : CatalogOperationGuard W) (entry : ActionEntry) : K (ResultEnvelope T) :=
  result ← ck_dispatch operation guard entry [];
  its ← lift_res (map_res decoder (items result));
  mret {| items := its; page := page result; warnings := []; platform := None |}.

Definition ck_close : D unit :=
  closed ← read cl_closed;
  if (closed : bool) then mret tt
  else set_client_closed;; if ck_owns_transport self then on_world transport_close else mret tt.

(** *** Reads and mutations of an action *)

(** [CatalogOperationRequest(...)] *)
Definition make_operation (o : OperationId) (payload : pydict) (policy : option MutationPolicy) : result CatalogOperationRequest :=
  raise_if (negb (forallb (λ kv, str_nonempty kv.1) payload))
    (err ValueError "Catalog operation request payloads require non-empty string keys.");;
  Ok {| cor_operation_id := o; cor_payload := payload; cor_mutation_policy := policy |}.

(** [CatalogOperationGuard(operation_id, profile=...)] *)
Definition guard_allowed (o : OperationId) (profile : EffectiveCapabilityProfile) : result unit :=
  let decision := guard_operation profile o in
  if gd_allowed decision then Ok tt
  else raise_new (catalog_error UnsupportedCapabilityError "The deployment cannot perform this catalog operation."
    (operation_str o) (op_platform o) (Some (state_value (gd_state decision)))
    (or_default (gd_remedy decision) "Inspect the deployment capability profile before retrying.") None).
Definition profile_guard (o : OperationId) (profile : EffectiveCapabilityProfile) : CatalogOperationGuard W :=
  {| cg_operation_id := o; cg_require_allowed := lift_res (guard_allowed o profile) |}.

Definition _typed_action_request (group action : string) (params : pydict) (policy : option MutationPolicy)
  : result (ActionEntry * CatalogOperationRequest * CatalogOperationGuard W) :=
  entry ← lookup_action (ck_inventory self) action;
  (if bool_decide (ae_group entry = group) then Ok tt
   else raise_new (validation_error ("The action '" +:+ action +:+ "' does not belong to the '" +:+ group +:+ "' group.")
     (ae_owning_operation_id entry) _NATIVE_GROUP_SAFE_ACTION));;
  o ← _operation_id_from (ae_owning_operation_id entry);
  operation ← make_operation o params policy;
  Ok (entry, operation, profile_guard o (ck_profile self)).

(** The dispatch of one of the two clients *)
Abbreviation dispatcher := (CatalogOperationRequest → CatalogOperationGuard W → ActionEntry → list UploadPart → K (ResultEnvelope CKANResultItem)).
Definition typed_read_with (dispatch : dispatcher) (group action : string) (params : pydict) : K (ResultEnvelope CKANResultItem) :=
  '(entry, operation, guard) ← lift_res (_typed_action_request group action params None);
  dispatch operation guard entry [].
Definition _typed_read := typed_read_with ck_dispatch.
Definition _async_typed_read := typed_read_with ck_dispatch_async.

Definition _typed_mutation_request (group action : string) (params : pydict) (policy : option MutationPolicy)
  : result (ActionEntry * MutationPolicy * CatalogOperationRequest * CatalogOperationGuard W) :=
  '(entry, operation, guard) ← _typed_action_request group action params None;
  effective ← require_mutation_tier (ae_mutation_class entry) (cor_operation_id operation) policy;
  match effective with
  | None => Raise (err AssertionError "")
  | Some effective =>
      operation ← make_operation (cor_operation_id operation) params (Some effective);
      Ok (entry, effective, operation, guard)
  end.
Definition _typed_mutation_result (entry : ActionEntry) (policy : MutationPolicy) (result : ResultEnvelope CKANResultItem)
    (target : CatalogId) : Prelude.result CKANMutationResult :=
  o ← _operation_id_from (ae_owning_operation_id entry);
  receipt ← build_mutation_receipt (ck_no_redact self) o target policy "succeeded" [("action", PyStr (ae_name entry))];
  Ok {| mr_result := result; mr_receipt := receipt |}.
Definition typed_mutation_with (dispatch : dispatcher) (group action : string) (params : pydict) (policy : option MutationPolicy)
    (target : string → pydict → result CatalogId) : K CKANMutationResult :=
  '(entry, effective, operation, guard) ← lift_res (_typed_mutation_request group action params policy);
  target_id ← lift_res (target (ae_name entry) params);
  result ← dispatch operation guard entry [];
  lift_res (_typed_mutation_result entry effective result target_id).
Definition _typed_mutation := typed_mutation_with ck_dispatch.
Definition _async_typed_mutation := typed_mutation_with ck_dispatch_async.

(** *** Families and native groups *)

Definition _NORMALIZED_BACKING : list (string * string * string) :=
  [("datasets", "get", "package_show"); ("datasets", "list", "current_package_list_with_resources");
   ("resources", "get", "resource_show"); ("resources", "list", "resource_search");
   ("organizations", "get", "organization_show"); ("organizations", "list", "organization_list")].
Definition _backing (family verb : string) : result ActionEntry :=
  match List.find (λ b, bool_decide (b.1 = (family, verb))) _NORMALIZED_BACKING with
  | None => Raise (err KeyError verb)
  | Some (_, action) =>
      entry ← lookup_action (ck_inventory self) action;
      if negb (bool_decide (ae_group entry = family)) || negb (bool_decide (ae_mutation_class entry = "read")) then
        raise_new (validation_error ("The normalized backing action '" +:+ action +:+ "' must be a manifest-registered read.")
          ("ckan/" +:+ family) "Keep the checked-in action manifest aligned with the normalized backing table.")
      else Ok entry
  end.
Definition family_get {T} (family : string) (decoder : CKANResultItem → result T) (operation : CatalogOperationRequest)
    (guard : CatalogOperationGuard W) : K (ResultEnvelope T) :=
  entry ← lift_res (_backing family "get");
  ck_dispatch_decoded decoder operation guard entry.
Definition family_list {T} (family : string) (decoder : CKANResultItem → result T) (operation : CatalogOperationRequest)
    (guard : CatalogOperationGuard W) : K (ResultEnvelope T) :=
  operation ← lift_res (if bool_decide (family = "organizations") then
                          make_operation (cor_operation_id operation) (dict_set "all_fields" (PyBool true) (cor_payload operation))
                            (cor_mutation_policy operation)
                        else Ok operation);
  entry ← lift_res (_backing family "list");
  ck_dispatch_decoded decoder operation guard entry.

Definition _registry_entry (action : pyval) (group declared_operation_id : string) : result ActionEntry :=
  match action with
  | PyStr (String _ _ as action) =>
      entry ← lookup_action (ck_inventory self) action;
      if negb (bool_decide (ae_group entry = group)) || negb (bool_decide (ae_owning_operation_id entry = declared_operation_id)) then
        raise_new (validation_error
          ("The action '" +:+ action +:+ "' is not registered under " +:+ declared_operation_id +:+ " in group '" +:+ group +:+ "'.")
          declared_operation_id "Dispatch the action through its owning native group projection.")
      else Ok entry
  | _ => raise_new (validation_error
      "CKAN native operations require the manifest-registered action name in the operation payload."
      declared_operation_id "Pass the registered action name under the 'action' payload key.")
  end.
(** [_invoke] of families and native groups *)
Definition _invoke (group : string) (operation : CatalogOperationRequest) (guard : CatalogOperationGuard W)
  : K (ResultEnvelope CKANResultItem) :=
  entry ← lift_res (_registry_entry (payload_get "action" PyNone operation) group (operation_str (cor_operation_id operation)));
  ck_dispatch operation guard entry [].

(** The action discovery of a client: [_invoke_typed], [status_show] and
    [help_show] *)
Definition _invoke_typed (action : string) (payload : pydict) : K (ResultEnvelope CKANResultItem) :=
  '(entry, operation, guard) ← lift_res (_typed_action_request "action_discovery" action payload None);
  ck_dispatch operation guard entry [].
Definition status_show : K (ResultEnvelope CKANResultItem) := _invoke_typed "status_show" [].
Definition help_show : K (ResultEnvelope CKANResultItem) := _invoke_typed "help_show" [].

(** *** Capabilities *)

Definition _peek_operation_id (value : string) : result OperationId :=
  match List.find (λ i, bool_decide (operation_str i = value)) (fst <$> map_to_list (capabilities (ck_profile self))) with
  | Some o => Ok o
  | None => raise_new (validation_error "Unknown CKAN operation identifier." value "Use an operation identifier declared by the CKAN profile.")
  end.
Definition ck_capability (operation_id : string) : K string :=
  o ← lift_res (_peek_operation_id operation_id);
  scope ← read fst;
  profile ← on_inner (on_world (scoped_peek o scope));
  mret (_capability_value (gd_state (guard_operation profile o))).
Definition ck_invalidate (operation_id : option string) : K unit :=
  target ← lift_res (match operation_id with Some v => o ← _peek_operation_id v; Ok (Some o) | None => Ok None end);
  on_inner (on_world (scoped_invalidate target)).
End client.
