(* ===== verification/CkanResults.v ===== *)
(** * What the CKAN connector keeps of a result

    The theorems about [Ckan]: the items of a result hold every element the
    deployment sent, in order and unchanged, and the secret of an API token is
    in no serialised form. *)
From Stdlib Require Import ZArith Lia.
From stdpp Require Import strings.
From S2P Require Import Prelude PyVal Regex Redaction Policies Errors Json JsonText Ids Artifact Receipts Projection Records Targets ByteSource Ckan.
Local Open Scope Z_scope.
Local Open Scope py_scope.

(** ** The elements of a result *)

(** What an item holds of the wire value *)
Definition item_content (i : CKANResultItem) : pyval :=
  match i with
  | ItemRecord r => str_dict (thaw_dict (nat_payload r))
  | ItemMapping r => str_dict (thaw_dict (map_payload r))
  | ItemValue r => vr_value r
  | ItemToken r => str_dict (thaw_dict (result_metadata r))
  end.

(** The elements of a wire value: a list is its elements, bare or under
    [results] or else [records]; a triple of [member_list] is named. *)
Definition member_dict (e : pyval) : pyval :=
  match e with PyList [i; t; c] => str_dict [("id", i); ("type", t); ("capacity", c)] | _ => e end.
Definition listed (value : pyval) : list pyval :=
  match value with
  | PyList l => l
  | PyDict kvs =>
      match lookup_key "results" kvs, lookup_key "records" kvs with
      | Some (PyList l), _ => l
      | _, Some (PyList l) => l
      | _, _ => []
      end
  | _ => []
  end.
Definition result_elements (action : string) (value : pyval) : list pyval :=
  match (result_kind action).1, value with
  | (OutRecordList | OutValueList), _ => listed value
  | OutMapping, PyList l => if bool_decide (action = "member_list") then member_dict <$> l else l
  | _, _ => [value]
  end.

(** What a deployment says of the size of a result: the [count], or the [total]
    where the count is no size, of an object; a bare list says how many elements
    it holds. *)
Definition size_at (key : string) (kvs : list (pyval * pyval)) (n : Z) : Prop := lookup_key key kvs = Some (PyInt n) ∧ 0 <= n.
Inductive counted : pyval → option Z → Prop :=
  | counted_list l : counted (PyList l) (Some (Z.of_nat (length l)))
  | counted_count kvs n : size_at "count" kvs n → counted (PyDict kvs) (Some n)
  | counted_total kvs n : (∀ m, ¬ size_at "count" kvs m) → size_at "total" kvs n → counted (PyDict kvs) (Some n)
  | counted_nothing kvs : (∀ m, ¬ size_at "count" kvs m) → (∀ m, ¬ size_at "total" kvs m) → counted (PyDict kvs) None
  | counted_scalar v : match v with PyList _ | PyDict _ => False | _ => True end → counted v None.
Definition size_of (key : string) (kvs : list (pyval * pyval)) : option Z :=
  match lookup_key key kvs with Some (PyInt n) => if 0 <=? n then Some n else None | _ => None end.
Lemma size_of_at key kvs n : size_of key kvs = Some n ↔ size_at key kvs n.
Proof.
  unfold size_of, size_at. split.
  - destruct (lookup_key key kvs) as [[| |m| | | | | | | |]|]; try done. destruct (Z.leb_spec 0 m); [|done]. by intros [= <-].
  - intros [-> Hn]. by rewrite (proj2 (Z.leb_le 0 n) Hn).
Qed.
Lemma size_of_none key kvs : size_of key kvs = None → ∀ m, ¬ size_at key kvs m.
Proof. intros Hn m Hm%size_of_at. congruence. Qed.
Lemma platform_page_counts value : plain value = true → ∃ n, counted value n ∧ _platform_page value = total_page <$> n.
Proof.
  intros Hp. destruct value as [| | | | | |l| |kvs| |]; try discriminate Hp; try by (exists None; split; [by constructor|]).
  - eexists. split; [apply counted_list|done].
  - cbn [_platform_page]. unfold _COUNT_KEYS. cbn [omap list_omap]. fold (size_of "count" kvs) (size_of "total" kvs).
    destruct (size_of "count" kvs) as [n|] eqn:Ec; [exists (Some n); split; [by apply counted_count, size_of_at|done]|].
    destruct (size_of "total" kvs) as [n|] eqn:Et.
    + exists (Some n). split; [apply counted_total; [by apply size_of_none|by apply size_of_at]|done].
    + exists None. split; [apply counted_nothing; by apply size_of_none|done].
Qed.

(** ** Freezing keeps a payload *)

Lemma freeze_keeps e kvs path d : plain (PyDict kvs) = true → freeze_mapping e (PyDict kvs) path = Ok d →
  str_dict (thaw_dict d) = PyDict kvs.
Proof.
  intros Hp Hf. destruct (thaw_freeze e (PyDict kvs) Hp path) as (f & Hfr & Hth). unfold freeze_mapping in Hf.
  rewrite Hfr in Hf. cbn [mbind result_bind] in Hf. apply freeze_json_frozen in Hfr.
  destruct f as [| | | | | | | | |kvs'|]; try discriminate Hf. unfold frozen in Hfr. cbn in Hfr.
  apply json_items_inv in Hfr as (d' & -> & Hnd & Hd). rewrite copy_entries_id in Hf by done. injection Hf as <-.
  by rewrite <- thaw_proxy.
Qed.

Lemma mapping_content kvs i : plain (PyDict kvs) = true → mapping_item kvs = Ok i → item_content i = PyDict kvs.
Proof.
  intros Hp Hi. unfold mapping_item, make_mapping in Hi. inv_ok. cbn. by eapply freeze_keeps.
Qed.

Lemma value_content action v i : plain v = true → _value_item action v = Ok i → item_content i = v.
Proof.
  intros Hp Hi. unfold _value_item in Hi. destruct v as [| | |[]| | | |l|kvs|kvs|]; try discriminate Hp;
    try (by apply raise_new_ok in Hi); try by apply mapping_content.
  all: unfold value_item, make_value_record in Hi; by inv_ok.
Qed.

Lemma record_content payload family i : plain (PyDict payload) = true → _record_item payload family = Ok i →
  item_content i = PyDict payload.
Proof.
  intros Hp Hi. unfold _record_item in Hi. repeat case_match; try by apply mapping_content.
  unfold make_native in Hi. inv_ok. cbn. by eapply freeze_keeps.
Qed.

(** Items made one by one keep the elements. *)
Lemma items_content (g : pyval → pyval) (f : pyval → result CKANResultItem) l its :
  (∀ v i, plain v = true → f v = Ok i → item_content i = g v) → forallb plain l = true → map_res f l = Ok its →
  item_content <$> its = g <$> l.
Proof.
  intros Hf. revert its. induction l as [|v l IH]; intros its Hl Hm; cbn in Hm; inv_ok; [done|].
  cbn in Hl. apply andb_true_iff in Hl as [Hv Hl]. cbn. f_equal; [by apply Hf|by apply IH].
Qed.

Lemma plain_entry key kvs v : plain (PyDict kvs) = true → lookup_key key kvs = Some v → plain v = true.
Proof.
  unfold plain. cbn. intros [_ Hp]%andb_true_iff. induction kvs as [|[k w] kvs IH]; [done|]. cbn in Hp |- *.
  apply andb_true_iff in Hp as [Hw Hp]. case_match; [by intros [= <-]|by apply IH].
Qed.

Lemma sequence_listed action value l : plain value = true → _sequence action value = Ok l → l = listed value ∧ forallb plain l = true.
Proof.
  intros Hp Hs. unfold _sequence in Hs. destruct value as [| | | | | |l'|l'|kvs|kvs|]; try discriminate Hp; try (by apply raise_new_ok in Hs).
  - injection Hs as <-. by split.
  - unfold listed. cbn in Hs. pose proof (λ v, plain_entry "results" kvs v Hp) as Hr. pose proof (λ v, plain_entry "records" kvs v Hp) as Hc.
    destruct (lookup_key "results" kvs) as [r|], (lookup_key "records" kvs) as [c|];
      try specialize (Hr _ eq_refl); try specialize (Hc _ eq_refl);
      try (destruct r; try discriminate Hr); try (destruct c; try discriminate Hc);
      cbn in Hs; try (by apply raise_new_ok in Hs); injection Hs as <-; by split.
Qed.

(** ** Nothing of a result is lost *)

Lemma member_content action v i : plain v = true → _member_item action v = Ok i → item_content i = member_dict v.
Proof.
  intros Hp Hi. unfold _member_item in Hi. destruct v as [| | | | | |l|l| | |]; try discriminate Hp; try (by apply raise_new_ok in Hi).
  destruct l as [|a [|b [|c [|]]]]; try (by apply raise_new_ok in Hi). apply mapping_content in Hi; [done|].
  unfold plain in *. cbn in *. by rewrite Hp.
Qed.

Lemma object_kvs action v payload : plain v = true → _object_payload action v = Ok payload → v = PyDict payload.
Proof. intros Hp Ho. destruct v; try discriminate Hp; try (by apply raise_new_ok in Ho). by injection Ho as <-. Qed.

Lemma record_entry_content action family v i : plain v = true →
  (payload ← _object_payload action v; _record_item payload family) = Ok i → item_content i = v.
Proof. intros Hp Hi. inv_ok. apply object_kvs in H as ->; [|done]. by eapply record_content. Qed.

Lemma mapping_items_content action v its : plain v = true → _mapping_items action v = Ok its →
  item_content <$> its = match v with PyList l => if bool_decide (action = "member_list") then member_dict <$> l else l | _ => [v] end.
Proof.
  intros Hp Hi. destruct v as [| | | | | |l|l|kvs|kvs|]; try discriminate Hp; unfold _mapping_items in Hi; try (by apply raise_new_ok in Hi).
  - unfold plain in Hp. cbn in Hp. case_bool_decide.
    + eapply items_content; [|done|done]. apply member_content.
    + rewrite <- (list_fmap_id l). eapply (items_content id); [|done|done]. intros v i Hv Hf. unfold mapping_or_value in Hf. destruct v; by eapply (value_content action).
  - inv_ok. cbn. f_equal. by apply mapping_content.
Qed.

(** C15: decoding loses nothing: for a JSON value, whatever the action unless
    it gives a token, the items of the envelope hold the elements of the result
    - a list bare, under [results] or under [records], else the value itself -
    one item each, in the order of the deployment and with every key and value
    unchanged, except that a triple of [member_list] gets the names id, type and
    capacity.  The page is the one the caller gave; without one its total is
    the [count] of an object, or the [total] where the count is no size, and the
    number of elements of a bare list, and there is no page where the deployment
    says no size. *)
Theorem ckan_results_lossless action value hint env : plain value = true → (result_kind action).1 ≠ OutToken →
  shape_result_envelope action value hint = Ok env →
  item_content <$> items env = result_elements action value ∧
  match hint with
  | Some p => page env = Some p
  | None => ∃ n, counted value n ∧ page env = total_page <$> n
  end ∧ warnings env = [].
Proof.
  intros Hp Hk He. unfold shape_result_envelope in He. unfold result_elements. destruct (result_kind action) as [outcome family].
  cbn [fst] in *. inv_ok. cbn.
  split; [|split; [by destruct hint; [|apply platform_page_counts]|done]]. rename H into Hi. unfold shape_items in Hi. destruct outcome; try done; inv_ok.
  - cbn. f_equal. eapply record_entry_content; [done|]. apply bind_ok. eauto.
  - match goal with Hs : _sequence _ _ = Ok _ |- _ => apply sequence_listed in Hs as [-> Hl]; [|done] end. rewrite <- (list_fmap_id (listed value)).
    eapply (items_content id); [|done|done]. intros v i. apply record_entry_content.
  - cbn. f_equal. by eapply value_content.
  - match goal with Hs : _sequence _ _ = Ok _ |- _ => apply sequence_listed in Hs as [-> Hl]; [|done] end. rewrite <- (list_fmap_id (listed value)).
    eapply (items_content id); [|done|done]. intros v i. apply value_content.
  - by eapply mapping_items_content in Hi.
Qed.

(** ** Tokens *)

Lemma lookup_key_after key before v after : Forall (λ kv : pyval * pyval, py_eq_str kv.1 key = false) before →
  lookup_key key (before ++ (PyStr key, v) :: after) = Some v.
Proof.
  induction 1 as [|[k w] before Hk _ IH]; cbn; [by rewrite bool_decide_true|]. cbn in Hk. by rewrite Hk.
Qed.

(** The result of a token action says nothing of the token when it is
    serialised: two tokens in the same answer give the same dictionary. *)
Theorem ckan_token_hidden before after token token' : token ≠ "" → token' ≠ "" →
  Forall (λ kv : pyval * pyval, py_eq_str kv.1 "token" = false) before →
  let answer token := from_token_result (PyDict (before ++ (PyStr "token", PyStr token) :: after)) in
  match answer token, answer token' with
  | Ok r, Ok r' => _secret r = token ∧ _secret r' = token' ∧ item_to_dict (ItemToken r) = item_to_dict (ItemToken r')
  | Raise e, Raise e' => e = e'
  | _, _ => False
  end.
Proof.
  intros Ht Ht' Hb. cbn beta zeta.
  assert (Ha : ∀ s, s ≠ "" → from_token_result (PyDict (before ++ (PyStr "token", PyStr s) :: after)) =
    make_token_result (List.filter (λ kv, negb (py_eq_str kv.1 "token")) (before ++ after)) s).
  { intros s Hs. unfold from_token_result. rewrite lookup_key_after by done. rewrite !List.filter_app. cbn. by destruct s. }
  rewrite (Ha token Ht), (Ha token' Ht'). unfold make_token_result. by destruct (freeze_mapping _ _ _) as [d|e].
Qed.

(** ** Witnesses *)

Definition search_answer : pyval :=
  str_dict [("count", PyInt 12); ("results", PyList [str_dict [("id", PyStr "p-1"); ("title", PyStr "Air"); ("tags", PyList [PyStr "no2"])];
                                                     str_dict [("title", PyStr "Water")]])].
Lemma ckan_results_lossless_witness :
  ∃ env, shape_result_envelope "package_search" search_answer None = Ok env ∧
    item_content <$> items env = [str_dict [("id", PyStr "p-1"); ("title", PyStr "Air"); ("tags", PyList [PyStr "no2"])];
                                  str_dict [("title", PyStr "Water")]] ∧
    page env = Some (total_page 12).
Proof.
  destruct (shape_result_envelope "package_search" search_answer None) as [env|e] eqn:He; [|vm_compute in He; discriminate He].
  exists env. split; [reflexivity|].
  destruct (ckan_results_lossless "package_search" search_answer None env eq_refl ltac:(vm_compute; discriminate) He) as (Hi & Hp & _).
  split; [rewrite Hi; vm_compute; reflexivity|]. destruct Hp as (n & Hn & ->). inversion Hn as [|kvs m [Hm _]|kvs m Hc|kvs Hc|]; subst.
  - vm_compute in Hm. by injection Hm as <-.
  - by destruct (Hc 12).
  - by destruct (Hc 12).
  - done.
Defined.
