(* ===== verification/CkanProofs.v ===== *)
(** * What the CKAN connector does

    The theorems about [Ckan] and [CkanClient]: what precedes a request and
    how many are sent, the events and half-open trials a dispatch leaves, what
    decoding keeps of a result, what stays secret, and two places where the
    connector does not do what it means to. *)
From Stdlib Require Import QArith ZArith Lia.
From stdpp Require Import strings gmap.
From S2P Require Import Prelude PyVal Regex Redaction Policies Errors Transport Resilience Breaker Urls Json JsonText Ids Profiles Capability CapabilityProofs Artifact Receipts Projection Records Mutation Events Clients ClientProofs Uris Targets ByteSource Ckan CkanClient.
Import Deadline.
Local Close Scope Q_scope.
Local Open Scope Z_scope.
Local Open Scope py_scope.

(** ** Attempts *)

Section client.
Context {W : Type} `{!CatalogEnv W, !ScopedCapabilities W} {ips : IpLiterals} {hm : Hmac} {jb : JsonBytes} {ft : FloatText}.
Variable self : CKANClient W.
Implicit Types (s : client W) (o : OperationId) (r : RuntimeRequest).
#[local] Hint Resolve world_summary breakers_summary set_summary event_quiet : datasluice.

Abbreviation in_flight s := (_trial_in_flight (cl_breakers s)).

Lemma change_quiet o b a x : preserves (λ s, summary s = x) (ck_emit_breaker_change self o b a).
Proof. unfold ck_emit_breaker_change. case_match; [auto with datasluice|by apply event_quiet]. Qed.
#[local] Hint Resolve change_quiet : datasluice.

(** An attempt that the circuit admits sends its request once. *)
Lemma admitted_sends o r key before s :
  summary (admitted_attempt self o r key before s).2 = and_send r (summary s).
Proof.
  unfold admitted_attempt.
  set (s1 := ClientState (cl_closed s) (cl_breakers s) (ds_attempts s) (ds_recorded s) (cl_log s ++ [Clients.Sent r]) (cl_world s)).
  assert (Hs1 : summary s1 = and_send r (summary s)).
  { unfold summary, and_send. cbn. unfold sent, terminal. rewrite !omap_app. cbn. by rewrite app_nil_r. }
  change (summary ((try_except (on_world (transport_send r)) (λ e, if is_subclass (exn_kind e) TransportError
     then Some (ck_record_failure self o key before;; throw e) else None) ≫= ck_record_response self o key before) s1).2 =
     and_send r (summary s)).
  revert Hs1. generalize (and_send r (summary s)). intros x Hs1. revert s1 Hs1. apply (preserves_bind (λ s, summary s = x)).
  - apply preserves_try; [auto with datasluice|]. intros e k Hk. case_match; [|done]. injection Hk as <-.
    unfold ck_record_failure. auto 10 with datasluice.
  - intros response. unfold ck_record_response. auto 10 with datasluice.
Qed.

Definition may_send r (x y : bool * list RuntimeRequest * list string) : Prop := y = x ∨ y = and_send r x.
Lemma may_sends r n x y : nsteps (may_send r) n x y → ∃ k, (k ≤ n)%nat ∧ y = (x.1.1, x.1.2 ++ replicate k r, x.2).
Proof.
  intros Hn. induction Hn as [x|n x y z Hxy _ (k & Hk & ->)].
  - exists 0%nat. split; [lia|]. cbn. rewrite app_nil_r. by destruct x as [[]].
  - destruct Hxy as [->| ->]; [exists k; split; [lia|done]|]. exists (S k). split; [lia|]. cbn. by rewrite <- app_assoc.
Qed.

Lemma attempt_sends o r key s : may_send r (summary s) (summary (ck_attempt self o r key s).2).
Proof.
  unfold ck_attempt. rewrite bind_step. assert (H1 := breakers_summary (summary s) (breaker_admit key) s eq_refl).
  destruct (on_breakers _ s) as [[[]|e] s1]; cbn in H1; [| |left; done].
  - right. rewrite bind_step. cbn [set_dispatch modify]. set (s2 := ClientState _ _ _ _ _ _).
    assert (H2 : summary s2 = summary s) by done. clearbody s2. rewrite bind_step.
    assert (H3 := breakers_summary (summary s) (inspect key) s2 H2).
    assert (∃ c, (on_breakers (inspect key) s2).1 = Ok c) as [c Hc] by by eexists.
    destruct (on_breakers (inspect key) s2) as [rc s3]; cbn in H3, Hc. subst rc. rewrite <- H3. unfold try_finally.
    assert (H4 := admitted_sends o r key c s3). destruct (admitted_attempt _ _ _ _ _ _) as [res s4]. cbn in H4.
    assert (H5 := release_summary key _ s4 H4). by destruct (_release_abandoned_trial key s4) as [[] s5].
  - left. assert (Hq : preserves (λ s, summary s = summary s1) (ck_emit self o "breaker_open" [];; @lift_res _ RuntimeResponse (raise_new (circuit_open o)))).
    { apply preserves_bind; [by apply event_quiet|auto with datasluice]. }
    rewrite <- H1. by apply Hq.
Qed.

(** An attempt gives the trial back that it took. *)
Lemma attempt_frees T0 o r key : preserves (λ s, in_flight s ⊆ T0) (ck_attempt self o r key).
Proof.
  intros s Hs. unfold ck_attempt. rewrite bind_step. unfold on_breakers at 1.
  pose proof (admit_trials (in_flight s) key (cl_breakers s, cl_world s) eq_refl) as Ha.
  destruct (breaker_admit key _) as [[[]|e] [b w]]; cbn [fst] in Ha; [| |cbn; set_solver].
  - rewrite bind_step. cbn [set_dispatch modify]. rewrite bind_step.
    set (s1 := ClientState _ _ _ _ _ _). assert (Hi : trial_inv T0 key s1) by (split; [cbn; set_solver|done]). clearbody s1.
    assert (Hi2 := inspect_trial T0 key s1 Hi). assert (∃ c, (on_breakers (inspect key) s1).1 = Ok c) as [before Hc] by by eexists.
    destruct (on_breakers (inspect key) s1) as [rc s2]; cbn in Hi2, Hc. subst rc.
    unfold try_finally. assert (Hb : preserves (trial_inv T0 key) (admitted_attempt self o r key before)).
    { unfold admitted_attempt. apply preserves_bind.
      - apply preserves_try; [apply preserves_bind; [by apply preserves_modify|intros; apply world_trial]|].
        intros e k Hk. case_match; [|done]. injection Hk as <-. apply preserves_bind; [|auto with datasluice].
        unfold ck_record_failure. apply recorded_then; [intros t; apply (discard_after T0 key); by right|].
        intros a. unfold ck_emit_breaker_change. case_match; [auto with datasluice|apply event_trial].
      - intros response. unfold ck_record_response. apply recorded_then; [intros t; apply response_trials|]. intros a.
        apply preserves_bind; [|auto with datasluice]. unfold ck_emit_breaker_change. case_match; [auto with datasluice|apply event_trial]. }
    specialize (Hb s2 Hi2). destruct (admitted_attempt _ _ _ _ _ s2) as [res s3]. cbn in Hb.
    pose proof (release_frees T0 key s3 Hb) as Hr. by destruct (_release_abandoned_trial key s3) as [[] s4].
  - rewrite bind_step. unfold ck_emit. set (s1 := ClientState _ _ _ _ _ _).
    assert (Hi : trial_inv T0 key s1) by (split; cbn; set_solver).
    assert (Hq : in_flight s1 ⊆ T0) by (cbn; set_solver). clearbody s1.
    assert (Hf : ∀ md, in_flight (emit_event (ck_emitter self) (operation_str o) "ckan" "breaker_open" md s1).2 ⊆ T0).
    { intros md. unfold emit_event. rewrite bind_step. unfold on_world. by destruct (emitter_record _ _ _ _ _ _ _) as [[]]. }
    specialize (Hf []). by destruct (emit_event _ _ _ _ _ s1) as [[] s2].
Qed.

(** ** The guarded section *)

Lemma decode_keeps (P : client W → Prop) o entry response scope :
  (∀ A (m : M W A), preserves P (on_world m)) → preserves P (_decode o entry response scope).
Proof.
  intros Hw. unfold _decode. case_match; [|auto with datasluice].
  apply preserves_bind; [repeat case_match; auto with datasluice|auto with datasluice].
Qed.

(** How many copies of one request may be sent *)
Definition ck_bound (idem : IdempotencyPolicy) (n : nat) : Prop :=
  Z.of_nat n <= Z.max 0 (ck_max_attempts self) ∧ (allows_retry idem = false → (n ≤ 1)%nat).

Lemma send_sends o entry scope r idem deadline key s : ∃ n, ck_bound idem n ∧
  summary (ck_send self o entry scope r idem deadline key s).2 = ((summary s).1.1, (summary s).1.2 ++ replicate n r, (summary s).2).
Proof.
  unfold ck_send, lift_res. unfold mbind at 1, M_bind at 1.
  destruct (make_retry_loop _ _ _ _) as [l|e] eqn:El.
  2:{ exists 0%nat. split; [split; lia|]. cbn. by rewrite app_nil_r. }
  unfold make_retry_loop in El. inv_ok. qbool. unfold mbind, M_bind.
  set (l := {| rl_budget := _ |}). change (ck_max_attempts self) with (rl_max_attempts l).
  destruct (run_from_counted summary (may_send r) (λ d, on_world (retry_sleep d)) (ck_attempt self o r key)
    (λ s, clock_summary _ s eq_refl) (λ d s, world_summary _ _ s eq_refl) (attempt_sends o r key) l
    (Z.to_nat (rl_max_attempts l)) 1 s) as (n & Hn & Hs & Hone).
  apply may_sends in Hs as (k & Hk & Hs). exists k. split.
  - split; [unfold l in *; cbn in *; lia|]. intros Hi. assert (n ≤ 1)%nat by by apply Hone. lia.
  - unfold run. cbn [rl_max_attempts] in *. destruct (run_from _ _ _ _ _ s) as [[response|e] s1]; [|exact Hs].
    rewrite <- Hs. apply (decode_keeps (λ s, summary s = _)); [intros; apply world_summary|done].
Qed.

Lemma send_frees T0 o entry scope r idem deadline key :
  preserves (λ s, in_flight s ⊆ T0) (ck_send self o entry scope r idem deadline key).
Proof.
  assert (Hw : ∀ A (m : M W A), preserves (λ s, in_flight s ⊆ T0) (on_world m)) by (intros A m s Hs; unfold on_world; by destruct (m _)).
  unfold ck_send. apply preserves_bind; [auto with datasluice|]. intros l. apply preserves_bind.
  - apply run_keeps; [|intros d; apply Hw|apply attempt_frees]. intros s Hs. unfold clock, client_clocked. by destruct (clock _).
  - intros response. by apply decode_keeps.
Qed.

(** The events of the guarded section, whatever its body does *)
Lemma outcome_events {A} o deadline (m : M (client W) A) s y : summary (m s).2 = y →
  let out := ck_outcome self o deadline m s in
  ∃ es, summary out.2 = (y.1, y.2 ++ es) ∧ match out.1 with Ok _ => es = ["succeeded"] | Raise _ => es ∈ terminal_kinds end.
Proof.
  intros Hm. cbn zeta.
  assert (Hy : ∀ s, summary s = y → ∃ es, es ∈ terminal_kinds ∧ summary s = (y.1, y.2 ++ es)).
  { intros s1 ->. exists []. rewrite app_nil_r. split; [unfold terminal_kinds; set_solver|by destruct y as [[]]]. }
  unfold ck_outcome. rewrite bind_step. set (h := λ e : exn, _).
  assert (Ht : hoare (λ s1, s1 = s) (try_except m h) (λ _ s1, summary s1 = y) (λ _ s1, ∃ es, es ∈ terminal_kinds ∧ summary s1 = (y.1, y.2 ++ es))).
  { eapply hoare_try with (E' := λ _ s, summary s = y); [|subst h; cbn beta|intros; by apply Hy].
    - intros s1 ->. by destruct (m s) as [[]].
    - intros e k Hk. assert (Hr : ∀ outcome md, outcome ∈ ["failed"; "budget_exhausted"] →
        hoare (λ s, summary s = y) (ck_emit self o outcome md;; @throw _ A e) (λ _ s, summary s = y)
          (λ _ s, ∃ es, es ∈ terminal_kinds ∧ summary s = (y.1, y.2 ++ es))).
      { intros outcome md Ho. eapply hoare_conseq; [apply (event_raise _ _ _ _ _ e y Ho)|done|by intros|by intros]. }
      case_match; [|case_match; [|done]]; injection Hk as <-.
      + apply hoare_bind with (R := λ _ s, summary s = y); [|intros; apply Hr; set_solver].
        eapply hoare_conseq; [apply preserves_hoare, (usage_of_summary (ck_budget self) deadline y)|done|done|intros ??; apply Hy].
      + apply hoare_bind with (R := λ _ s, summary s = y); [by apply hoare_read|intros; apply Hr; set_solver]. }
  specialize (Ht s eq_refl). destruct (try_except m h s) as [[a|e] s1]; [|destruct Ht as (es & Ht & Hes); exists es; by split].
  rewrite bind_step. assert (Hs : hoare (λ s, summary s = y) (ck_success self o deadline)
    (λ _ s, summary s = (y.1, y.2 ++ ["succeeded"])) (λ _ s, summary s = y)).
  { unfold ck_success. eapply hoare_bind; [apply preserves_hoare, preserves_read|]. intros n.
    eapply hoare_bind; [apply preserves_hoare, usage_of_summary|]. intros usage. apply (event_log _ _ _ "succeeded"). }
  specialize (Hs s1 Ht). destruct (ck_success _ _ _ s1) as [[[]|e] s2]; [by exists ["succeeded"]|].
  apply Hy in Hs as (es & ? & ?). by exists es.
Qed.

Lemma event_frees T0 o outcome md : preserves (λ s, in_flight s ⊆ T0) (ck_emit self o outcome md).
Proof.
  unfold ck_emit, emit_event. apply preserves_bind; [|by intros e; apply preserves_modify].
  intros s Hs. unfold on_world. by destruct (emitter_record _ _ _ _ _ _ _).
Qed.
Lemma usage_frees T0 deadline : preserves (λ s, in_flight s ⊆ T0) (usage_of (ck_budget self) deadline).
Proof.
  unfold usage_of, remaining. apply preserves_bind; [|auto with datasluice].
  apply preserves_bind; [|auto with datasluice]. apply clock_now_keeps. intros s Hs. unfold clock, client_clocked. by destruct (clock _).
Qed.
Lemma outcome_frees T0 {A} o deadline (m : M (client W) A) :
  preserves (λ s, in_flight s ⊆ T0) m → preserves (λ s, in_flight s ⊆ T0) (ck_outcome self o deadline m).
Proof.
  intros Hm. unfold ck_outcome, ck_success.
  apply preserves_bind; [apply preserves_try; [done|]|intros a].
  - intros e k Hk. case_match; [|case_match; [|done]]; injection Hk as <-.
    + apply preserves_bind; [apply usage_frees|]. intros u. apply preserves_bind; [apply event_frees|auto with datasluice].
    + apply preserves_bind; [apply preserves_read|]. intros n. apply preserves_bind; [apply event_frees|auto with datasluice].
  - apply preserves_bind; [|auto with datasluice]. apply preserves_bind; [apply preserves_read|]. intros n.
    apply preserves_bind; [apply usage_frees|]. intros u. apply event_frees.
Qed.
(** ** What precedes a request *)

(** The credential a dispatch uses: resolving it takes the world from [w] to
    [w'] *)
Definition credential_used (provider : M W (option credential)) (w : W) (c : option credential) (w' : W) : Prop :=
  match ck_credentials self with
  | NoCredentials => c = None ∧ w' = w
  | Clients.Resolver explicit => c = explicit ∧ w' = w
  | Plain c' => c = Some c' ∧ w' = w
  | Provider _ => provider w = (Ok c, w')
  end.

(** What was checked before [r] may be sent: the guard of the caller, then the
    credential, then the profile, each in the world the one before left *)
Definition ck_granted (resolve : OperationId → string → M W EffectiveCapabilityProfile) (provider : M W (option credential))
    (operation : CatalogOperationRequest) (guard : CatalogOperationGuard W) (entry : ActionEntry) (parts : list UploadPart)
    s (r : RuntimeRequest) (idem : IdempotencyPolicy) : Prop :=
  cl_closed s = false ∧ cg_operation_id guard = cor_operation_id operation ∧
  reject_deprecated (ae_name entry) (cor_payload operation) = Ok tt ∧
  ∃ o w1 w2 w3 effective c policy,
    _operation_id_from (ae_owning_operation_id entry) = Ok o ∧ _require_optional_evidence self o = Ok tt ∧
    cg_require_allowed guard (cl_world s) = (Ok tt, w1) ∧ credential_used provider w1 c w2 ∧
    resolve o "anonymous" w2 = (Ok effective, w3) ∧ gd_allowed (guard_operation effective o) = true ∧
    require_mutation_tier (ae_mutation_class entry) o (cor_mutation_policy operation) = Ok policy ∧
    idem = tier_idempotency entry policy ∧
    _dispatch_request (ck_origin self) entry (wire_parameters operation) c parts (ck_max_upload_bytes self) = Ok r.

Lemma inner_step {A} (m : M (client W) A) (x : string * client W) (r : result A) x' :
  on_inner m x = (r, x') → x'.1 = x.1 ∧ m x.2 = (r, x'.2).
Proof. unfold on_inner, zoom. destruct (m x.2) as [r' s']. by intros [= <- <-]. Qed.

Lemma caller_guards_frame operation guard s (r : result unit) s' : _enforce_caller_guards operation guard s = (r, s') → frame s s' ∧
  (r = Ok tt → cg_operation_id guard = cor_operation_id operation ∧ cg_require_allowed guard (cl_world s) = (Ok tt, cl_world s')).
Proof.
  unfold _enforce_caller_guards. rewrite bind_step. case_bool_decide as Hid; [|by intros [= <- <-]].
  cbn [mret M_ret]. intros E. apply world_frame in E as [F E]. split; [done|]. intros ->. by split.
Qed.

Lemma refreshed_frame provider s (r : result (option credential)) s' : refreshed self provider s = (r, s') → frame s s' ∧
  ∀ c, r = Ok c → credential_used provider (cl_world s) c (cl_world s').
Proof.
  unfold refreshed, credential_used. destruct (ck_credentials self); try (intros [= <- <-]; split; [done|by intros ? [= <-]]).
  intros E. apply world_frame in E as [F E]. split; [done|]. intros c' ->. by rewrite <- E.
Qed.

Lemma prepare_frame o effective operation entry c parts s (r : result (RuntimeRequest * IdempotencyPolicy * DeadlineMonitor * CircuitKey)) s' :
  _prepare_dispatch self o effective operation entry c parts s = (r, s') → frame s s' ∧
  ∀ request idem deadline key, r = Ok (request, idem, deadline, key) →
    gd_allowed (guard_operation effective o) = true ∧
    ∃ policy, require_mutation_tier (ae_mutation_class entry) o (cor_mutation_policy operation) = Ok policy ∧
      idem = tier_idempotency entry policy ∧
      _dispatch_request (ck_origin self) entry (wire_parameters operation) c parts (ck_max_upload_bytes self) = Ok request.
Proof.
  unfold _prepare_dispatch. rewrite bind_step. cbn [lift_res].
  destruct (require_allowed o (Some effective) None) as [[]|e] eqn:Ea; [|by intros [= <- <-]].
  assert (Hallowed : gd_allowed (guard_operation effective o) = true).
  { unfold require_allowed in Ea. inv_ok. destruct (gd_allowed _); [done|].
    by match goal with Hr : raise_new _ = Ok _ |- _ => apply raise_new_ok in Hr end. }
  rewrite bind_step. cbn [lift_res]. destruct (require_mutation_tier _ _ _) as [policy|e] eqn:Et; [|by intros [= <- <-]].
  rewrite bind_step. cbn [lift_res]. destruct (_dispatch_request _ _ _ _ _ _) as [request|e] eqn:Er; [|by intros [= <- <-]].
  rewrite bind_step. unfold make_monitor. rewrite (bind_step clock_now). unfold clock_now.
  destruct (clock s) as [t s1] eqn:Ec. apply clock_frame in Ec as F1. cbn [mret M_ret]. rewrite bind_step.
  destruct (assert_dispatchable _ _ _ s1) as [[m|e] s2] eqn:Ed; apply dispatchable_frame in Ed;
    (eapply frame_trans in Ed; [|exact F1]); [|by intros [= <- <-]].
  rewrite bind_step. unfold lift_res. destruct (_circuit_key _ _) as [key|e]; [|by intros [= <- <-]].
  intros [= <- <-]. split; [done|]. intros ? ? ? ? [= <- <- <- <-]. split; [done|]. by exists policy.
Qed.

Section dispatches.
Variables (resolve : OperationId → string → M W EffectiveCapabilityProfile) (provider : M W (option credential)).

(** A dispatch raises before anything is sent, or enters its guarded section. *)
Lemma ck_enters operation guard entry parts (x : string * client W) :
  let out := ck_dispatch_with self resolve provider operation guard entry parts x in
  (∃ e, out.1 = Raise e ∧ frame x.2 out.2.2) ∨
  ∃ r idem deadline key o scope s1, ck_granted resolve provider operation guard entry parts x.2 r idem ∧ frame x.2 s1 ∧
    let '(res, s2) := ck_outcome self o deadline (ck_send self o entry scope r idem deadline key) s1 in out = (res, (scope, s2)).
Proof.
  cbn zeta. destruct x as [scope0 s]. unfold ck_dispatch_with. cbn [snd].
  assert (Hout : ∀ e (x' : string * client W), frame s x'.2 → ∃ e', (@Raise (ResultEnvelope CKANResultItem) e, x').1 = Raise e' ∧ frame s x'.2).
  { intros e x' F. by exists e. }
  rewrite bind_step. destruct (on_inner _ _) as [[u|e] x1] eqn:E; apply inner_step in E as [_ E];
    cbn [snd] in E; rewrite bind_step in E; cbn [read] in E; destruct (cl_closed s) eqn:Eclosed; try discriminate E;
    injection E as _ E1; [|left; apply Hout; cbn; by rewrite <- E1].
  assert (F1 : frame s x1.2) by by rewrite <- E1. rewrite bind_step.
  destruct (on_inner _ x1) as [[[]|e] x2] eqn:E; apply inner_step in E as [_ E]; apply caller_guards_frame in E as [F2 Hg];
    (eapply frame_trans in F2; [|exact F1]); [|left; by apply Hout].
  destruct (Hg eq_refl) as [Hid Hguard]. rewrite <- E1 in Hguard. clear Hg.
  rewrite bind_step. cbn [lift_res]. destruct (reject_deprecated _ _) as [[]|e] eqn:Ed; [|left; by apply Hout].
  rewrite bind_step. cbn [lift_res]. destruct (_operation_id_from _) as [o|e] eqn:Eo; [|left; by apply Hout].
  rewrite bind_step. cbn [lift_res]. destruct (_require_optional_evidence self o) as [[]|e] eqn:Ee; [|left; by apply Hout].
  rewrite bind_step. destruct (on_inner _ x2) as [[c|e] x3] eqn:E; apply inner_step in E as [_ E]; apply refreshed_frame in E as [F3 Hc];
    (eapply frame_trans in F3; [|exact F2]); [|left; by apply Hout].
  rewrite bind_step. cbn [set_scope modify]. set (scope := _credential_scope (as_credentials c)).
  rewrite bind_step. destruct (on_inner _ _) as [[effective|e] x4] eqn:E; apply inner_step in E as [Es4 E]; cbn [fst snd] in Es4, E;
    apply world_frame in E as [F4 E4]; (eapply frame_trans in F4; [|exact F3]); [|left; by apply Hout].
  rewrite bind_step. destruct (on_inner _ x4) as [[[[[r idem] deadline] key]|e] x5] eqn:E; apply inner_step in E as [Es5 E];
    apply prepare_frame in E as [F5 Hp]; (eapply frame_trans in F5; [|exact F4]); [|left; by apply Hout].
  destruct (Hp _ _ _ _ eq_refl) as (Hallowed & policy & Ht & Hi & Hr).
  right. set (s1 := ClientState (cl_closed x5.2) (cl_breakers x5.2) 0 false (cl_log x5.2) (cl_world x5.2)).
  exists r, idem, deadline, key, o, scope, s1. split; [|split; [exact F5|]].
  - split_and!; try done. exists o, (cl_world x2.2), (cl_world x3.2), (cl_world x4.2), effective, c, policy.
    split_and!; try done. by apply Hc.
  - unfold on_inner, zoom. rewrite bind_step. cbn [set_dispatch modify]. fold s1. rewrite Es5, Es4.
    by destruct (ck_outcome _ _ _ _ s1).
Qed.
Lemma ck_dispatch_log operation guard entry parts x :
  let out := ck_dispatch_with self resolve provider operation guard entry parts x in
  (∃ e, out.1 = Raise e ∧ frame x.2 out.2.2) ∨
  ∃ r idem n es, ck_granted resolve provider operation guard entry parts x.2 r idem ∧ ck_bound idem n ∧
    summary out.2.2 = ((summary x.2).1.1, (summary x.2).1.2 ++ replicate n r, (summary x.2).2 ++ es) ∧
    in_flight out.2.2 ⊆ in_flight x.2 ∧
    match out.1 with Ok _ => es = ["succeeded"] | Raise _ => es ∈ terminal_kinds end.
Proof.
  cbn zeta. destruct (ck_enters operation guard entry parts x) as [He|(r & idem & deadline & key & o & scope & s1 & Hg & [Hs Hb] & Hout)];
    [by left|right].
  destruct (send_sends o entry scope r idem deadline key s1) as (n & Hn & Hsum).
  pose proof (outcome_events o deadline _ s1 _ Hsum) as (es & Hes & Hk).
  pose proof (outcome_frees (in_flight x.2) o deadline _ (send_frees (in_flight x.2) o entry scope r idem deadline key) s1) as Hf.
  cbn beta in Hf. rewrite Hb in Hf. specialize (Hf (reflexivity _)). destruct (ck_outcome _ _ _ _ s1) as [res s2]. rewrite Hout. exists r, idem, n, es. rewrite Hs in Hes. by split_and!.
Qed.
End dispatches.

Lemma destructive_confirmed entry o policy policy' : ae_mutation_class entry = "destructive" →
  require_mutation_tier (ae_mutation_class entry) o policy = Ok policy' → tier_confirmed policy = true.
Proof.
  intros ->. unfold require_mutation_tier. cbn. destruct (tier_confirmed policy); [done|]. by intros He%raise_new_ok.
Qed.

(** The bytes of a request: its body and the data of its parts, the encoded
    fields included; [None] where a part is a stream, whose size is not known.
    The names, file names and boundaries of a multipart body are not counted. *)
Definition payload_size (r : RuntimeRequest) : option Z :=
  if existsb is_stream (files r) then None
  else Some (match req_body r with Some text => size text | None => 0 end + foldr (λ p n, part_bytes p + n) 0 (files r)).
Lemma make_request_payload m u h b fs lim dl r : make_runtime_request m u h b fs FOLLOW lim dl = Ok r →
  req_body r = b ∧ files r = fs ∧ existsb is_stream fs = false.
Proof. unfold make_runtime_request. intros H. by inv_ok. Qed.
Lemma dispatch_request_within origin entry params c parts limit r :
  _dispatch_request origin entry params c parts (Some limit) = Ok r → ∃ n, payload_size r = Some n ∧ n <= limit.
Proof.
  unfold _dispatch_request. destruct parts as [|part parts].
  - unfold params_text. destruct (all_finite _); [|by intros He%raise_new_ok]. destruct (dumps _ _) as [text|e]; [|by intros He%raise_new_ok].
    cbn [over]. destruct (Z.ltb_spec limit (size text)) as [?|Hle]; [by intros He%raise_new_ok|].
    intros (Hb & Hf & _)%make_request_payload. unfold payload_size. rewrite Hb, Hf. cbn. eexists. split; [done|lia].
  - cbn [over]. destruct (Z.ltb_spec limit (foldr (λ p n, part_bytes p + n) 0 (part :: parts))) as [?|Hle]; [by intros He%raise_new_ok|].
    intros (Hb & Hf & Hs)%make_request_payload. unfold payload_size. rewrite Hb, Hf, Hs. eexists. split; [done|lia].
Qed.

(** C8: whatever the caller's guard, the capability cache, the credential
    provider, the transport, the clock, the sleep and the sinks do, the
    requests a CKAN dispatch sends are copies of one request, at most
    [max_attempts] of them and at most one when its idempotency does not allow
    a retry.  It sends none unless the client is open, the guard is for the
    operation and passed, no deprecated parameter is given, then the credential
    was resolved, then the capability profile that was resolved in the world
    the credential left allows the operation, and the mutation tier of the action is
    satisfied - for a destructive action by an explicit confirmation and a
    concurrency choice.  Under an upload ceiling no part that is sent is a
    stream, and the body with the data of all parts, the encoded fields
    included, is within the ceiling.  Both clients do. *)
Theorem ckan_sends_gated operation guard entry parts (x : string * client W) :
  let gated resolve provider (out : result (ResultEnvelope CKANResultItem) * (string * client W)) :=
    ∃ r n, sent (cl_log out.2.2) = sent (cl_log x.2) ++ replicate n r ∧ Z.of_nat n <= Z.max 0 (ck_max_attempts self) ∧
      (n ≠ 0%nat →
       (∃ idem, ck_granted resolve provider operation guard entry parts x.2 r idem ∧ (allows_retry idem = false → n = 1%nat)) ∧
       (ae_mutation_class entry = "destructive" → tier_confirmed (cor_mutation_policy operation) = true) ∧
       (∀ limit, ck_max_upload_bytes self = Some limit → ∃ size, payload_size r = Some size ∧ size <= limit)) in
  gated scoped_resolve provider_resolve (ck_dispatch self operation guard entry parts x) ∧
  gated scoped_resolve_async provider_resolve_async (ck_dispatch_async self operation guard entry parts x).
Proof.
  cbn zeta. unfold ck_dispatch, ck_dispatch_async. enough (Hall : ∀ resolve provider,
    let out := ck_dispatch_with self resolve provider operation guard entry parts x in
    ∃ r n, sent (cl_log out.2.2) = sent (cl_log x.2) ++ replicate n r ∧ Z.of_nat n <= Z.max 0 (ck_max_attempts self) ∧
      (n ≠ 0%nat →
       (∃ idem, ck_granted resolve provider operation guard entry parts x.2 r idem ∧ (allows_retry idem = false → n = 1%nat)) ∧
       (ae_mutation_class entry = "destructive" → tier_confirmed (cor_mutation_policy operation) = true) ∧
       (∀ limit, ck_max_upload_bytes self = Some limit → ∃ size, payload_size r = Some size ∧ size <= limit))) by by split; apply Hall.
  intros resolve provider. cbn zeta. destruct (ck_dispatch_log resolve provider operation guard entry parts x)
    as [(e & _ & [= _ Hs _] & _)|(r & idem & n & es & Hg & [Hn Hone] & [= _ Hs _] & _ & _)].
  - exists {| method := ""; url := ""; req_headers := []; req_body := None; files := []; redirect_policy := FOLLOW;
      max_response_bytes := None; deadline := None |}, 0%nat. rewrite app_nil_r. split_and!; try done. lia.
  - exists r, n. split_and!; [done|done|]. intros Hne. split_and!.
    + exists idem. split; [done|]. intros Hi. specialize (Hone Hi). lia.
    + destruct Hg as (_ & _ & _ & o & w1 & w2 & w3 & effective & c & policy & _ & _ & _ & _ & _ & _ & Ht & _).
      intros Hd. by eapply destructive_confirmed.
    + destruct Hg as (_ & _ & _ & o & w1 & w2 & w3 & effective & c & policy & _ & _ & _ & _ & _ & _ & _ & _ & Hr).
      intros limit Hl. rewrite Hl in Hr. by eapply dispatch_request_within.
Qed.

(** The profile of a dispatch is the anonymous one: what a resolver answers for
    another scope makes no difference. *)
Lemma bind_cong {St A B} (m : M St A) (f g : A → M St B) (y : St) : (∀ a z, f a z = g a z) → (m ≫= f) y = (m ≫= g) y.
Proof. intros Hfg. rewrite !bind_step. destruct (m y) as [[a|e] z]; [apply Hfg|done]. Qed.
Lemma dispatch_anonymous resolve resolve' provider operation guard entry parts (x : string * client W) :
  (∀ o w, resolve o "anonymous" w = resolve' o "anonymous" w) →
  ck_dispatch_with self resolve provider operation guard entry parts x = ck_dispatch_with self resolve' provider operation guard entry parts x.
Proof.
  intros Hr. unfold ck_dispatch_with. do 7 (apply bind_cong; intros ? ?).
  rewrite !bind_step. unfold on_inner, on_world, zoom. by rewrite Hr.
Qed.

(** The items are decoded after the dispatch has settled: when the decoder
    refuses one, the operation raises although its terminal event is
    [succeeded]. *)
Theorem decoded_after_success {T} (decoder : CKANResultItem → result T) operation guard entry x env x' e :
  ck_dispatch self operation guard entry [] x = (Ok env, x') → map_res decoder (items env) = Raise e →
  ck_dispatch_decoded self decoder operation guard entry x = (Raise e, x') ∧
  terminal (cl_log x'.2) = terminal (cl_log x.2) ++ ["succeeded"].
Proof.
  intros Hd Hm. split; [unfold ck_dispatch_decoded; by rewrite bind_step, Hd, bind_step, Hm|].
  unfold ck_dispatch in Hd. destruct (ck_dispatch_log scoped_resolve provider_resolve operation guard entry [] x)
    as [(e' & He & _)|(r & idem & n & es & _ & _ & [= _ _ Hs] & _ & Hk)]; rewrite Hd in *; [done|]. cbn in Hk. by rewrite Hk in Hs.
Qed.
End client.

(** ** What a refused answer tells *)

Section answers.
Context {W : Type} `{!ScopedCapabilities W} {jb : JsonBytes}.

Definition status_ok (status : Z) : bool := (200 <=? status) && (status <? 300).
Lemma http_error_kind o response : retry_after response = None → 100 <= status_code response <= 599 →
  ∃ x, (raise_new (http_error o response) : result unit) = Raise x ∧ exn_kind x = (error_of_status (Some (status_code response))).1.1.
Proof.
  intros Hr Hc. unfold http_error. rewrite Hr.
  destruct (native_catalog_error _ (operation_str o) "ckan" (Some (status_code response)) None None None None None) as [n|e] eqn:En.
  - cbn [mbind result_bind]. destruct (map_catalog_error_total _ _ _ _ _ _ _ _ _ _ En) as (x & i & -> & _ & Hk & _).
    exists x. split; [done|]. by rewrite <- Hk.
  - exfalso. unfold native_catalog_error, _validate_native_error_identity, _validate_native_error_details,
      _validate_native_error_context, _platform_value in En.
    assert (Ho := operation_str_nonempty o). destruct (operation_str o); [done|]. assert ((100 <=? status_code response) && (status_code response <=? 599) = true) as Hb by lia.
    rewrite Hb in En. discriminate En.
Qed.

(** C16: the status of an answer hides its envelope: whatever the body of an
    answer that is not 2xx, the error is the one of the status.  CKAN sends the
    envelope of a rejected action with status 409, so a validation failure, for
    which [map_envelope_error] has a typed error with the rejected fields and a
    remedy, is reported as a conflict, and the typed error is given only for
    the same envelope in a 2xx answer. *)
Theorem status_hides_envelope o entry scope s text kvs error :
  json_loads text = Some (PyDict kvs) → lookup_key "success" kvs = Some (PyBool false) →
  lookup_key "error" kvs = Some (PyDict error) →
  str_lower (strip (text_of (dict_get ENVELOPE_MARKER_KEY (redact_mapping 0 error)))) = "validation error" →
  let answer status text := {| status_code := status; resp_headers := []; body := text; retry_after := None |} in
  let decoded status text := _decode o entry (answer status text) scope s in
  (∀ status text', status_ok status = false → decoded status text = decoded status text') ∧
  (∃ x, decoded 200 text = (Raise x, s) ∧ exn_kind x = CatalogValidationError) ∧
  (∃ x, decoded 409 text = (Raise x, s) ∧ exn_kind x = CatalogConflictError).
Proof.
  intros Hj Hs He Ht. cbn zeta. split_and!.
  - intros status text' Hst. unfold _decode. cbn [status_code]. fold (status_ok status). by rewrite Hst.
  - unfold _decode, decode_body. cbn. rewrite Hj. cbn. rewrite Hs, He. unfold map_envelope_error. rewrite Ht. cbn.
    rewrite bool_decide_false by done. cbn.
    match goal with |- context [catalog_error CatalogValidationError ?m ?op ?p ?c ?a ?md] =>
      destruct (catalog_error_total CatalogValidationError m op p c a md) as [x Hx];
        [done|apply operation_str_nonempty|done|by case_match|] end.
    rewrite Hx. apply catalog_error_ok in Hx as [Hk _]. by exists x.
  - unfold _decode. cbn. rewrite bind_step. cbn [mret M_ret].
    destruct (http_error_kind o {| status_code := 409; resp_headers := []; body := text; retry_after := None |} eq_refl
      ltac:(cbn; lia)) as (x & Hx & Hk).
    exists x. unfold lift_res. split; [|done]. f_equal. unfold raise_new in *. by destruct (http_error _ _); injection Hx as ->.
Qed.
End answers.

(** ** Evidence of a refusal *)

Lemma store_shape ttl k p t es :
  ∃ es', store_entry ttl k p t es = es' ++ [(k, {| ce_profile := p; ce_timestamp := t |})] ∧ es' `sublist_of` remove_entry k es.
Proof.
  unfold store_entry. eexists. split; [reflexivity|]. repeat case_match; [|apply sublist_filter|done].
  match goal with |- tail ?l `sublist_of` _ => transitivity l; [destruct l; [done|by constructor]|] end.
  apply sublist_filter.
Qed.
Lemma entry_at_last k es e : k ∉ es.*1 → entry_at k (es ++ [(k, e)]) = Some e.
Proof.
  unfold entry_at. induction es as [|[k' e'] es IH]; intros Hk; cbn in *; [by rewrite bool_decide_true|].
  apply not_elem_of_cons in Hk as [Hne Hk]. rewrite bool_decide_false by done. by apply IH.
Qed.

Section evidence.
Context {V : Type} `{!ProbeEnv V} {ips : IpLiterals} {jb : JsonBytes}.
Variable cache : EffectiveCapabilityCache.
#[local] Instance over_cache : ScopedCapabilities (cap V) := cache_scoped cache.

(** What the clock of the cache reads next *)
Definition time_of (w : cap V) : Q := (clock w).1.

(** The answers that refuse a credential, as evidence *)
Inductive refusal : Z → ProbeResponseClass → EffectiveCapabilityState → Prop :=
  | refused_401 : refusal 401 RespUnauthorized StUnauthorized
  | refused_403 : refusal 403 RespForbidden StForbidden.

Lemma refusal_recorded o scope status c state p (s : cap V) : scope ≠ "" → refusal status c state →
  _profile_with_state cache o state = Ok p → ∃ s', record_response cache o c scope s = (Ok p, s') ∧
    _entries s' = store_entry (_ttl_seconds cache) (_cache_key cache o scope) p (clock s).1 (_entries s).
Proof.
  intros Hs Hst Hp. unfold record_response. rewrite bind_step. cbn [lift_res]. unfold _validate_scope.
  rewrite (proj2 (str_nonempty_true scope) Hs). cbn [negb raise_if]. rewrite bind_step.
  destruct Hst; cbn [lift_res]; rewrite Hp; rewrite bind_step; unfold clock_now, clock, cap_clocked;
    destruct (clock (cap_world s)) as [t w]; by eexists.
Qed.

(** An answer that refuses the credential leaves its evidence as the entry of
    the scope. *)
Lemma refusal_decoded o entry response scope c state p (s : client (cap V)) : scope ≠ "" →
  refusal (status_code response) c state → _profile_with_state cache o state = Ok p →
  _entries (cl_world (_decode o entry response scope s).2) =
  store_entry (_ttl_seconds cache) (_cache_key cache o scope) p (clock (cl_world s)).1 (_entries (cl_world s)).
Proof.
  intros Hs Hst Hp. destruct (refusal_recorded o scope _ c state p (cl_world s) Hs Hst Hp) as (w & Hr & Hw).
  unfold _decode. destruct Hst; cbn -[record_response]; rewrite bind_step; unfold on_world; cbn [scoped_record over_cache cache_scoped];
    rewrite bind_step, Hr; exact Hw.
Qed.

Lemma stored_entry ttl k p t es : entry_at k (store_entry ttl k p t es) = Some {| ce_profile := p; ce_timestamp := t |}.
Proof.
  destruct (store_shape ttl k p t es) as (es' & -> & Hes). apply entry_at_last. intros Hin. apply (fmap_sublist fst) in Hes.
  eapply elem_of_sublist in Hes; [|exact Hin]. by apply list_elem_of_fmap in Hes as (kv & -> & [Hk _]%list_elem_of_filter).
Qed.
Lemma stored_others ttl k p t es k' e : k' ≠ k → (k', e) ∈ store_entry ttl k p t es → (k', e) ∈ es.
Proof.
  intros Hne. destruct (store_shape ttl k p t es) as (es' & -> & Hes). intros [Hin|Hin%list_elem_of_singleton]%elem_of_app.
  - eapply elem_of_sublist in Hes; [|exact Hin]. by apply list_elem_of_filter in Hes as [_ ?].
  - injection Hin. congruence.
Qed.

Lemma with_state_reported o state p : is_Some (operations (_declared_profile cache) !! o) →
  _profile_with_state cache o state = Ok p → gd_state (guard_operation p o) = state.
Proof.
  intros [op Ho] Hp. unfold _profile_with_state in Hp. rewrite Ho in Hp. apply make_effective_iff in Hp as [-> _].
  unfold guard_operation. cbn. by rewrite lookup_insert_eq.
Qed.

(** What [capability] reports while the entry of the scope is fresh *)
Lemma capability_reports (self : CKANClient (cap V)) text o scope p t (s : client (cap V)) : scope ≠ "" → _peek_operation_id self text = Ok o →
  entry_at (_cache_key cache o scope) (_entries (cl_world s)) = Some {| ce_profile := p; ce_timestamp := t |} →
  Qle_bool (_ttl_seconds cache) ((clock (cl_world s)).1 - t)%Q = false →
  (ck_capability self text (scope, s)).1 = Ok (_capability_value (gd_state (guard_operation p o))).
Proof.
  intros Hs Hi He Hf. unfold ck_capability. rewrite bind_step. unfold lift_res at 1. rewrite Hi, bind_step. cbn [read fst].
  rewrite bind_step. unfold on_inner, on_world, zoom. cbn [scoped_peek over_cache cache_scoped fst snd].
  unfold Capability.peek. rewrite bind_step. unfold _validate_scope. rewrite (proj2 (str_nonempty_true scope) Hs). cbn [lift_res negb raise_if].
  rewrite bind_step. unfold _fresh_entry. rewrite bind_step. cbn [read]. rewrite He, bind_step. unfold clock_now.
  destruct (clock (cl_world s)) as [now w] eqn:Ec. cbn [mret M_ret ce_timestamp]. cbn in Hf. by rewrite Hf.
Qed.

Context `{!CatalogEnv (cap V)} {hm : Hmac} {ft : FloatText}.

(** C17: what an authenticated dispatch learns of its refusal is out of the reach
    of the next one: over the capability cache, the evidence of a 401 or 403
    answer is kept under the scope of the credential, where [capability]
    reports [unauthorized] or [forbidden] while the entry is fresh; the answer
    adds or changes no anonymous entry; and every dispatch, synchronous or not
    and whatever its credential, asks the cache for the anonymous scope only:
    with any resolver that answers the same for it the dispatch is the same. *)
Theorem evidence_out_of_reach o entry response scope c state p (s : client (cap V)) : scope ≠ "anonymous" → scope ≠ "" →
  refusal (status_code response) c state → is_Some (operations (_declared_profile cache) !! o) →
  _profile_with_state cache o state = Ok p →
  let s' := (_decode o entry response scope s).2 in
  let t := time_of (cl_world s) in
  entry_at (_cache_key cache o scope) (_entries (cl_world s')) = Some {| ce_profile := p; ce_timestamp := t |} ∧
  (∀ (self : CKANClient (cap V)) text, _peek_operation_id self text = Ok o →
     Qle_bool (_ttl_seconds cache) (time_of (cl_world s') - t)%Q = false →
     (ck_capability self text (scope, s')).1 = Ok (state_value state)) ∧
  (∀ o' e, (_cache_key cache o' "anonymous", e) ∈ _entries (cl_world s') → (_cache_key cache o' "anonymous", e) ∈ _entries (cl_world s)) ∧
  ∀ (self : CKANClient (cap V)) other operation guard entry' parts (x : string * client (cap V)),
    ((∀ o' w, other o' "anonymous" w = Capability.resolve cache o' "anonymous" w) →
     ck_dispatch self operation guard entry' parts x = ck_dispatch_with self other provider_resolve operation guard entry' parts x) ∧
    ((∀ o' w, other o' "anonymous" w = resolve_async cache o' "anonymous" w) →
     ck_dispatch_async self operation guard entry' parts x = ck_dispatch_with self other provider_resolve_async operation guard entry' parts x).
Proof.
  intros Hne Hs Hst Ho Hp. cbn zeta. pose proof (refusal_decoded o entry response scope c state p s Hs Hst Hp) as He.
  destruct (_decode _ _ _ _ s) as [res s']. cbn [snd] in *.
  assert (Hat : entry_at (_cache_key cache o scope) (_entries (cl_world s')) =
    Some {| ce_profile := p; ce_timestamp := time_of (cl_world s) |}) by (rewrite He; apply stored_entry).
  split; [exact Hat|]. split; [|split].
  - intros self text Hi Hf. rewrite (capability_reports self text o scope p _ s' Hs Hi Hat Hf), (with_state_reported o state p Ho Hp).
    by destruct Hst.
  - intros o' e. rewrite He. apply stored_others. intros Heq. unfold _cache_key in Heq. injection Heq. congruence.
  - intros self other operation guard entry' parts x. split; intros Hr; symmetry; by apply dispatch_anonymous.
Qed.
End evidence.

(** ** Witnesses *)

#[local] Instance ckan_literals : IpLiterals := λ _, false.
#[local] Instance ckan_hmac : Hmac := λ parts, default "" (last parts).
#[local] Instance ckan_json : JsonBytes := λ text,
  Some (if bool_decide (text = "rejected") then
          str_dict [("success", PyBool false); ("error", str_dict [("__type", PyStr "Validation Error"); ("name", PyStr "taken")])]
        else str_dict [("success", PyBool true); ("result", PyBool true)]).
#[local] Instance ckan_floats : FloatText := {| float_repr _ := "0.5"; float_of_text _ := FNan |}.
(** A transport that answers 503 and then 200 *)
#[local] Instance ckan_env : CatalogEnv nat := {|
  env_clock := λ n, (1%Q, n);
  transport_send _ := λ n, (Ok {| status_code := if (n <? 1)%nat then 503 else 200; resp_headers := []; body := "";
                                 retry_after := None |}, S n);
  transport_close := mret tt; provider_resolve := mret None; provider_resolve_async := mret None; retry_sleep _ := mret tt |}.
#[local] Instance ckan_capabilities : ScopedCapabilities nat := {|
  scoped_resolve _ _ := mret open_profile; scoped_resolve_async _ _ := mret open_profile; scoped_record _ _ _ := mret tt;
  scoped_peek _ _ := mret open_profile; scoped_invalidate _ := mret tt |}.

Definition ckan_sample : CKANClient nat :=
  {| ck_origin := "https://data.example.org"; ck_profile := open_profile; ck_credentials := Plain (CKANCredential "t0");
     ck_budget := sample_budget; ck_max_attempts := 3; ck_emitter := {| em_sinks := []; em_provider := None; em_no_redact := false |};
     ck_owns_transport := true; ck_inventory := {| inv_entries := [] |}; ck_max_upload_bytes := Some 64; ck_probe_policy := "auto";
     ck_has_probe_runner := false; ck_no_redact := false; ck_closed_message := "closed" |}.
Definition purge_entry : ActionEntry :=
  {| ae_name := "dataset_purge"; ae_group := "datasets"; ae_owning_operation_id := "ckan/datasets.update";
     ae_mutation_class := "destructive"; ae_result_kind := "value" |}.
Definition confirmed_policy : MutationPolicy :=
  {| destructive := true; confirmation := Some {| confirmed := true; conf_operation := None; conf_target := None |}; concurrency := Some {| token := None; overwrite := true |};
     idempotency := {| safe := false; idem_key := Some "k-1"; explicit_retry_opt_in := true |}; dry_run := {| requested := false |} |}.
Definition ckan_call (policy : option MutationPolicy) : CatalogOperationRequest :=
  {| cor_operation_id := probe_operation; cor_payload := [("id", PyStr "air")]; cor_mutation_policy := policy |}.
Definition ckan_run (policy : option MutationPolicy) :=
  ck_dispatch ckan_sample (ckan_call policy) sample_guard purge_entry [] ("anonymous", sample_state).

(** Confirmed, it is sent twice, retried after the 503; unconfirmed, never. *)
Example ckan_sample_sends :
  length (sent (cl_log (ckan_run (Some confirmed_policy)).2.2)) = 2%nat ∧ is_ok (ckan_run (Some confirmed_policy)).1 = true ∧
  length (sent (cl_log (ckan_run None).2.2)) = 0%nat ∧ is_ok (ckan_run None).1 = false.
Proof. vm_compute. by split_and!. Qed.

Lemma ckan_sends_gated_witness :
  length (sent (cl_log (ckan_run (Some confirmed_policy)).2.2)) = 2%nat ∧
  ∃ r idem, ck_granted ckan_sample scoped_resolve provider_resolve (ckan_call (Some confirmed_policy)) sample_guard purge_entry [] sample_state r idem.
Proof.
  split; [vm_compute; reflexivity|].
  destruct (ckan_sends_gated ckan_sample (ckan_call (Some confirmed_policy)) sample_guard purge_entry [] ("anonymous", sample_state))
    as [(r & n & Hs & _ & Hg) _]. fold (ckan_run (Some confirmed_policy)) in Hs. destruct n as [|n].
  - exfalso. apply (f_equal length) in Hs. vm_compute in Hs. discriminate Hs.
  - exists r. destruct (Hg ltac:(discriminate)) as [(idem & Hi & _) _]. by exists idem.
Defined.

Lemma status_hides_envelope_witness :
  ∃ x, _decode probe_operation purge_entry {| status_code := 409; resp_headers := []; body := "rejected"; retry_after := None |}
         "anonymous" sample_state = (Raise x, sample_state) ∧ exn_kind x = CatalogConflictError.
Proof.
  exact (proj2 (proj2 (status_hides_envelope probe_operation purge_entry "anonymous" sample_state "rejected"
    _ _ eq_refl eq_refl eq_refl eq_refl))).
Defined.

#[local] Instance ckan_probe_env : ProbeEnv nat := {|
  probe_clock := λ n, (1%Q, n); env_probe o w := (Ok Awaitable, w); env_loop_closed i w := false |}.
#[local] Instance ckan_cap_env : CatalogEnv (cap nat) := {|
  env_clock := λ s, clock s;
  transport_send _ := mret {| status_code := 200; resp_headers := []; body := ""; retry_after := None |};
  transport_close := mret tt; provider_resolve := mret None; provider_resolve_async := mret None; retry_sleep _ := mret tt |}.
Definition cache_state : client (cap nat) := ClientState false sample_registry 0 false [] (fresh_cache 0%nat).
Definition forbidden_answer : RuntimeResponse := {| status_code := 403; resp_headers := []; body := ""; retry_after := None |}.
Definition forbidden_state : client (cap nat) :=
  (@_decode _ (cache_scoped sample_cache) ckan_json probe_operation purge_entry forbidden_answer "key-1" cache_state).2.
Definition cap_client : CKANClient (cap nat) :=
  {| ck_origin := "https://data.example.org"; ck_profile := _baseline sample_cache; ck_credentials := Plain (CKANCredential "t0");
     ck_budget := sample_budget; ck_max_attempts := 3; ck_emitter := {| em_sinks := []; em_provider := None; em_no_redact := false |};
     ck_owns_transport := true; ck_inventory := {| inv_entries := [] |}; ck_max_upload_bytes := None; ck_probe_policy := "auto";
     ck_has_probe_runner := true; ck_no_redact := false; ck_closed_message := "closed" |}.
(** The scope that was refused reads [forbidden], the anonymous one does not. *)
Lemma evidence_out_of_reach_witness :
  (@ck_capability _ (cache_scoped sample_cache) cap_client (operation_str probe_operation) ("key-1", forbidden_state)).1 = Ok "forbidden" ∧
  (@ck_capability _ (cache_scoped sample_cache) cap_client (operation_str probe_operation) ("anonymous", forbidden_state)).1 ≠ Ok "forbidden".
Proof.
  split; [|vm_compute; discriminate].
  destruct (_profile_with_state sample_cache probe_operation StForbidden) as [p|e] eqn:Ep; [|vm_compute in Ep; discriminate Ep].
  destruct (evidence_out_of_reach sample_cache probe_operation purge_entry forbidden_answer "key-1" RespForbidden StForbidden p cache_state
    ltac:(discriminate) ltac:(discriminate) refused_403 ltac:(vm_compute; by eexists) Ep) as (_ & Hc & _).
  apply Hc; vm_compute; reflexivity.
Defined.
