(* ===== verification/CkanManifest.v ===== *)
(** * The shipped CKAN action manifest

    [connectors/catalog/ckan/action_manifest.json] as data: every Action API
    action with its group, the operation of the profile that owns it, its
    mutation class and the kind of its result. *)
From stdpp Require Import strings.
From S2P Require Import Prelude PyVal Ckan.

(** An entry; every operation is one of the platform [ckan]. *)
Definition act (name group operation mutation_class result_kind : string) : ActionEntry :=
  {| ae_name := name; ae_group := group; ae_owning_operation_id := "ckan/" +:+ operation; ae_mutation_class := mutation_class;
     ae_result_kind := result_kind |}.

Definition manifest_entries : list ActionEntry :=
  [act "help_show" "action_discovery" "action-api-v3.discovery-help-and-status" "read" "value";
   act "status_show" "action_discovery" "action-api-v3.discovery-help-and-status" "read" "mapping";
   act "package_show" "datasets" "action-api-v3.dataset-list-show-search" "read" "record";
   act "current_package_list_with_resources" "datasets" "action-api-v3.dataset-list-show-search" "read" "record-list";
   act "package_list" "datasets" "action-api-v3.dataset-list-show-search" "read" "value-list";
   act "package_search" "datasets" "action-api-v3.dataset-list-show-search" "read" "record-list";
   act "package_autocomplete" "datasets" "action-api-v3.dataset-list-show-search" "read" "record-list";
   act "package_create" "datasets" "action-api-v3.dataset-create-update-patch-delete-purge" "standard" "record";
   act "package_update" "datasets" "action-api-v3.dataset-create-update-patch-delete-purge" "standard" "record";
   act "package_revise" "datasets" "action-api-v3.dataset-create-update-patch-delete-purge" "standard" "record";
   act "package_resource_reorder" "datasets" "action-api-v3.dataset-create-update-patch-delete-purge" "standard" "mapping";
   act "package_owner_org_update" "datasets" "action-api-v3.dataset-create-update-patch-delete-purge" "standard" "mapping";
   act "package_patch" "datasets" "action-api-v3.dataset-create-update-patch-delete-purge" "standard" "record";
   act "package_delete" "datasets" "action-api-v3.dataset-create-update-patch-delete-purge" "standard" "value";
   act "dataset_purge" "datasets" "action-api-v3.dataset-create-update-patch-delete-purge" "destructive" "value";
   act "bulk_update_private" "datasets" "action-api-v3.dataset-create-update-patch-delete-purge" "standard" "value";
   act "bulk_update_public" "datasets" "action-api-v3.dataset-create-update-patch-delete-purge" "standard" "value";
   act "bulk_update_delete" "datasets" "action-api-v3.dataset-create-update-patch-delete-purge" "standard" "value";
   act "package_collaborator_create" "datasets" "action-api-v3.dataset-collaborators" "standard" "mapping";
   act "package_collaborator_delete" "datasets" "action-api-v3.dataset-collaborators" "standard" "value";
   act "package_collaborator_list" "datasets" "action-api-v3.dataset-collaborators" "read" "mapping";
   act "package_collaborator_list_for_user" "datasets" "action-api-v3.dataset-collaborators" "read" "mapping";
   act "resource_show" "resources" "action-api-v3.resource-list-show-create-update-patch-delete-upload" "read" "record";
   act "resource_search" "resources" "action-api-v3.resource-list-show-create-update-patch-delete-upload" "read" "record-list";
   act "resource_create" "resources" "action-api-v3.resource-list-show-create-update-patch-delete-upload" "standard" "record";
   act "resource_update" "resources" "action-api-v3.resource-list-show-create-update-patch-delete-upload" "standard" "record";
   act "resource_patch" "resources" "action-api-v3.resource-list-show-create-update-patch-delete-upload" "standard" "record";
   act "resource_delete" "resources" "action-api-v3.resource-list-show-create-update-patch-delete-upload" "standard" "value";
   act "organization_show" "organizations" "action-api-v3.organization-list-show-search" "read" "record";
   act "organization_list_for_user" "organizations" "action-api-v3.organization-list-show-search" "read" "record-list";
   act "organization_list" "organizations" "action-api-v3.organization-list-show-search" "read" "record-list";
   act "organization_autocomplete" "organizations" "action-api-v3.organization-list-show-search" "read" "record-list";
   act "member_list" "organizations" "action-api-v3.organization-list-show-search" "read" "mapping";
   act "member_roles_list" "organizations" "action-api-v3.organization-list-show-search" "read" "value-list";
   act "organization_create" "organizations" "action-api-v3.organization-create-update-delete-members" "standard" "record";
   act "organization_update" "organizations" "action-api-v3.organization-create-update-delete-members" "standard" "record";
   act "organization_patch" "organizations" "action-api-v3.organization-create-update-delete-members" "standard" "record";
   act "organization_delete" "organizations" "action-api-v3.organization-create-update-delete-members" "standard" "value";
   act "organization_purge" "organizations" "action-api-v3.organization-create-update-delete-members" "destructive" "value";
   act "organization_member_create" "organizations" "action-api-v3.organization-create-update-delete-members" "standard" "record";
   act "organization_member_delete" "organizations" "action-api-v3.organization-create-update-delete-members" "standard" "value";
   act "member_create" "organizations" "action-api-v3.organization-create-update-delete-members" "standard" "record";
   act "member_delete" "organizations" "action-api-v3.organization-create-update-delete-members" "standard" "value";
   act "group_list" "groups" "action-api-v3.group-list-show-search" "read" "value-list";
   act "group_list_authz" "groups" "action-api-v3.group-list-show-search" "read" "value-list";
   act "group_show" "groups" "action-api-v3.group-list-show-search" "read" "record";
   act "group_package_show" "groups" "action-api-v3.group-list-show-search" "read" "record-list";
   act "group_autocomplete" "groups" "action-api-v3.group-list-show-search" "read" "record-list";
   act "group_create" "groups" "action-api-v3.group-create-update-delete-members" "standard" "record";
   act "group_update" "groups" "action-api-v3.group-create-update-delete-members" "standard" "record";
   act "group_patch" "groups" "action-api-v3.group-create-update-delete-members" "standard" "record";
   act "group_delete" "groups" "action-api-v3.group-create-update-delete-members" "standard" "value";
   act "group_purge" "groups" "action-api-v3.group-create-update-delete-members" "destructive" "value";
   act "group_member_create" "groups" "action-api-v3.group-create-update-delete-members" "standard" "record";
   act "group_member_delete" "groups" "action-api-v3.group-create-update-delete-members" "standard" "value";
   act "user_list" "users" "action-api-v3.user-list-show" "read" "record-list";
   act "user_show" "users" "action-api-v3.user-list-show" "read" "record";
   act "user_autocomplete" "users" "action-api-v3.user-list-show" "read" "record-list";
   act "user_create" "users" "action-api-v3.user-create-update-delete-token-management" "standard" "record";
   act "user_invite" "users" "action-api-v3.user-create-update-delete-token-management" "standard" "record";
   act "user_update" "users" "action-api-v3.user-create-update-delete-token-management" "standard" "record";
   act "user_patch" "users" "action-api-v3.user-create-update-delete-token-management" "standard" "record";
   act "user_delete" "users" "action-api-v3.user-create-update-delete-token-management" "standard" "value";
   act "get_site_user" "users" "action-api-v3.user-create-update-delete-token-management" "standard" "record";
   act "api_token_create" "users" "action-api-v3.user-create-update-delete-token-management" "standard" "token-secret";
   act "api_token_list" "users" "action-api-v3.user-create-update-delete-token-management" "read" "mapping";
   act "api_token_revoke" "users" "action-api-v3.user-create-update-delete-token-management" "standard" "value";
   act "tag_list" "vocabularies_licenses" "action-api-v3.tags-vocabularies-licenses-list-show" "read" "value-list";
   act "tag_show" "vocabularies_licenses" "action-api-v3.tags-vocabularies-licenses-list-show" "read" "record";
   act "tag_search" "vocabularies_licenses" "action-api-v3.tags-vocabularies-licenses-list-show" "read" "mapping";
   act "tag_autocomplete" "vocabularies_licenses" "action-api-v3.tags-vocabularies-licenses-list-show" "read" "record-list";
   act "vocabulary_list" "vocabularies_licenses" "action-api-v3.tags-vocabularies-licenses-list-show" "read" "record-list";
   act "vocabulary_show" "vocabularies_licenses" "action-api-v3.tags-vocabularies-licenses-list-show" "read" "record";
   act "license_list" "vocabularies_licenses" "action-api-v3.tags-vocabularies-licenses-list-show" "read" "mapping";
   act "format_autocomplete" "vocabularies_licenses" "action-api-v3.tags-vocabularies-licenses-list-show" "read" "value-list";
   act "term_translation_show" "vocabularies_licenses" "action-api-v3.tags-vocabularies-licenses-list-show" "read" "mapping";
   act "tag_create" "vocabularies_licenses" "action-api-v3.tags-vocabularies-licenses-create-update-delete" "standard" "record";
   act "tag_delete" "vocabularies_licenses" "action-api-v3.tags-vocabularies-licenses-create-update-delete" "standard" "value";
   act "vocabulary_create" "vocabularies_licenses" "action-api-v3.tags-vocabularies-licenses-create-update-delete" "standard" "record";
   act "vocabulary_update" "vocabularies_licenses" "action-api-v3.tags-vocabularies-licenses-create-update-delete" "standard" "record";
   act "vocabulary_delete" "vocabularies_licenses" "action-api-v3.tags-vocabularies-licenses-create-update-delete" "standard" "value";
   act "term_translation_update" "vocabularies_licenses" "action-api-v3.tags-vocabularies-licenses-create-update-delete" "standard" "value";
   act "term_translation_update_many" "vocabularies_licenses" "action-api-v3.tags-vocabularies-licenses-create-update-delete" "standard" "mapping";
   act "package_relationships_list" "relationships_activity" "action-api-v3.relationships-follows" "read" "mapping";
   act "package_relationship_create" "relationships_activity" "action-api-v3.relationships-follows" "standard" "mapping";
   act "package_relationship_update" "relationships_activity" "action-api-v3.relationships-follows" "standard" "mapping";
   act "package_relationship_delete" "relationships_activity" "action-api-v3.relationships-follows" "standard" "value";
   act "follow_dataset" "relationships_activity" "action-api-v3.relationships-follows" "standard" "mapping";
   act "unfollow_dataset" "relationships_activity" "action-api-v3.relationships-follows" "standard" "mapping";
   act "am_following_dataset" "relationships_activity" "action-api-v3.relationships-follows" "read" "value";
   act "follow_group" "relationships_activity" "action-api-v3.relationships-follows" "standard" "mapping";
   act "unfollow_group" "relationships_activity" "action-api-v3.relationships-follows" "standard" "mapping";
   act "am_following_group" "relationships_activity" "action-api-v3.relationships-follows" "read" "value";
   act "follow_user" "relationships_activity" "action-api-v3.relationships-follows" "standard" "mapping";
   act "unfollow_user" "relationships_activity" "action-api-v3.relationships-follows" "standard" "mapping";
   act "am_following_user" "relationships_activity" "action-api-v3.relationships-follows" "read" "value";
   act "dataset_follower_count" "relationships_activity" "action-api-v3.relationships-follows" "read" "value";
   act "dataset_follower_list" "relationships_activity" "action-api-v3.relationships-follows" "read" "record-list";
   act "group_follower_count" "relationships_activity" "action-api-v3.relationships-follows" "read" "value";
   act "group_follower_list" "relationships_activity" "action-api-v3.relationships-follows" "read" "record-list";
   act "organization_follower_count" "relationships_activity" "action-api-v3.relationships-follows" "read" "value";
   act "organization_follower_list" "relationships_activity" "action-api-v3.relationships-follows" "read" "record-list";
   act "user_follower_count" "relationships_activity" "action-api-v3.relationships-follows" "read" "value";
   act "user_follower_list" "relationships_activity" "action-api-v3.relationships-follows" "read" "record-list";
   act "dataset_followee_count" "relationships_activity" "action-api-v3.relationships-follows" "read" "value";
   act "dataset_followee_list" "relationships_activity" "action-api-v3.relationships-follows" "read" "record-list";
   act "group_followee_count" "relationships_activity" "action-api-v3.relationships-follows" "read" "value";
   act "group_followee_list" "relationships_activity" "action-api-v3.relationships-follows" "read" "record-list";
   act "organization_followee_count" "relationships_activity" "action-api-v3.relationships-follows" "read" "value";
   act "organization_followee_list" "relationships_activity" "action-api-v3.relationships-follows" "read" "record-list";
   act "user_followee_count" "relationships_activity" "action-api-v3.relationships-follows" "read" "value";
   act "user_followee_list" "relationships_activity" "action-api-v3.relationships-follows" "read" "record-list";
   act "followee_count" "relationships_activity" "action-api-v3.relationships-follows" "read" "value";
   act "followee_list" "relationships_activity" "action-api-v3.relationships-follows" "read" "record-list";
   act "package_activity_list" "relationships_activity" "action-api-v3.activity" "read" "record-list";
   act "group_activity_list" "relationships_activity" "action-api-v3.activity" "read" "record-list";
   act "organization_activity_list" "relationships_activity" "action-api-v3.activity" "read" "record-list";
   act "user_activity_list" "relationships_activity" "action-api-v3.activity" "read" "record-list";
   act "recently_changed_packages_activity_list" "relationships_activity" "action-api-v3.activity" "read" "record-list";
   act "dashboard_activity_list" "relationships_activity" "action-api-v3.activity" "read" "record-list";
   act "dashboard_new_activities_count" "relationships_activity" "action-api-v3.activity" "read" "value";
   act "dashboard_mark_activities_old" "relationships_activity" "action-api-v3.activity" "standard" "value";
   act "activity_show" "relationships_activity" "action-api-v3.activity" "read" "record";
   act "activity_data_show" "relationships_activity" "action-api-v3.activity" "read" "mapping";
   act "activity_diff" "relationships_activity" "action-api-v3.activity" "read" "mapping";
   act "activity_create" "relationships_activity" "action-api-v3.activity" "standard" "record";
   act "send_email_notifications" "relationships_activity" "action-api-v3.activity" "standard" "value";
   act "resource_view_create" "views" "action-api-v3.resource-views" "standard" "mapping";
   act "resource_view_show" "views" "action-api-v3.resource-views" "read" "mapping";
   act "resource_view_list" "views" "action-api-v3.resource-views" "read" "mapping";
   act "resource_view_update" "views" "action-api-v3.resource-views" "standard" "mapping";
   act "resource_view_reorder" "views" "action-api-v3.resource-views" "standard" "mapping";
   act "resource_view_delete" "views" "action-api-v3.resource-views" "standard" "value";
   act "resource_view_clear" "views" "action-api-v3.resource-views" "standard" "value";
   act "package_create_default_resource_views" "views" "action-api-v3.resource-views" "standard" "mapping";
   act "resource_create_default_resource_views" "views" "action-api-v3.resource-views" "standard" "mapping";
   act "datastore_search" "datastore" "datastore-extension.query-and-record-crud" "read" "mapping";
   act "datastore_info" "datastore" "datastore-extension.query-and-record-crud" "read" "mapping";
   act "datastore_create" "datastore" "datastore-extension.query-and-record-crud" "standard" "mapping";
   act "datastore_upsert" "datastore" "datastore-extension.query-and-record-crud" "standard" "mapping";
   act "datastore_delete" "datastore" "datastore-extension.query-and-record-crud" "destructive" "mapping";
   act "datastore_records_delete" "datastore" "datastore-extension.query-and-record-crud" "standard" "mapping";
   act "datastore_function_create" "datastore" "datastore-extension.query-and-record-crud" "standard" "mapping";
   act "datastore_function_delete" "datastore" "datastore-extension.query-and-record-crud" "standard" "value";
   act "datastore_run_triggers" "datastore" "datastore-extension.query-and-record-crud" "standard" "mapping";
   act "datastore_search_sql" "datastore" "datastore-extension.sql-search" "read" "mapping";
   act "job_list" "extensions" "action-api-v3.jobs-and-task-status" "read" "record-list";
   act "job_show" "extensions" "action-api-v3.jobs-and-task-status" "read" "record";
   act "job_cancel" "extensions" "action-api-v3.jobs-and-task-status" "standard" "value";
   act "job_clear" "extensions" "action-api-v3.jobs-and-task-status" "destructive" "value";
   act "task_status_show" "extensions" "action-api-v3.jobs-and-task-status" "read" "record";
   act "task_status_update" "extensions" "action-api-v3.jobs-and-task-status" "standard" "record";
   act "task_status_update_many" "extensions" "action-api-v3.jobs-and-task-status" "standard" "mapping";
   act "task_status_delete" "extensions" "action-api-v3.jobs-and-task-status" "destructive" "value";
   act "config_option_show" "extensions" "action-api-v3.config-options" "read" "value";
   act "config_option_list" "extensions" "action-api-v3.config-options" "read" "value-list";
   act "config_option_update" "extensions" "action-api-v3.config-options" "standard" "mapping"].

Definition CKAN_ACTIONS : ActionInventory := {| inv_entries := manifest_entries |}.

(** Its names are distinct. *)
Lemma manifest_loads : make_inventory manifest_entries = Ok CKAN_ACTIONS.
Proof. vm_compute. reflexivity. Qed.
