(* ===== verification/CkanServices.v ===== *)
(** * The services of the CKAN connector

    [connectors/catalog/ckan/services/]: the keyword methods of every service,
    each the typed read or mutation it asks of the client - the action, its
    wire parameters and the policy -, the targets of their receipts, and the
    uploads of the resource service.  A method of an asynchronous service has
    the body of its synchronous twin with the calls awaited, so one definition
    stands for both; [perform] and [perform_async] execute what it asks.

    An argument of a method is a [pyval]: annotations are not checked, and the
    default of an optional one is [PyNone]. *)
From Stdlib Require Import QArith ZArith Ascii.
From stdpp Require Import strings gmap.
From S2P Require Import Prelude PyVal Regex Redaction Policies Errors Transport Resilience Breaker Urls Json JsonText Ids Profiles Capability Artifact Receipts Projection Records Mutation Events Clients Uris Targets ByteSource Ckan CkanClient.
Local Close Scope Q_scope.
Local Open Scope Z_scope.
Local Open Scope py_scope.

(** ** Calls *)

(** What a method hands to [_invoke_read] or [_invoke_mutation] *)
Inductive service_call :=
  | ReadCall (action : string) (params : pydict)
  | MutationCall (action : string) (params : pydict) (policy : option MutationPolicy).
Definition call_action (c : service_call) : string := match c with ReadCall a _ | MutationCall a _ _ => a end.
Definition call_params (c : service_call) : pydict := match c with ReadCall _ p | MutationCall _ p _ => p end.

(** [str] of a value that is no string *)
Class PyRepr := py_repr : pyval → string.
Definition py_str `{PyRepr} (v : pyval) : string := match v with PyStr s => s | _ => py_repr v end.

(** [services/_shared.py] *)
Definition drop_unset (params : pydict) : pydict :=
  List.filter (λ kv, match kv.2 with PyNone => false | _ => true end) params.
Definition wire_params (required optional : pydict) : pydict := dict_merge required (drop_unset optional).
Definition detail_params (id include_datasets include_dataset_count include_users : pyval) : pydict :=
  wire_params [("id", id)]
    [("include_datasets", include_datasets); ("include_dataset_count", include_dataset_count); ("include_users", include_users)].
Definition fields_params (id name title description image_url users : pyval) : pydict :=
  wire_params [("id", id)]
    [("name", name); ("title", title); ("description", description); ("image_url", image_url); ("users", users)].

(** The kinds of [mapping.py] *)
Definition DATASET : ResourceKind := {| kind_value := "dataset" |}.
Definition RESOURCE : ResourceKind := {| kind_value := "resource" |}.
Definition ORGANIZATION : ResourceKind := {| kind_value := "organization" |}.
Definition USER : ResourceKind := {| kind_value := "user" |}.
Definition GROUP : ResourceKind := {| kind_value := "group" |}.
Definition TAG : ResourceKind := {| kind_value := "tag" |}.
Definition VOCABULARY : ResourceKind := {| kind_value := "vocabulary" |}.
Definition MEMBER : ResourceKind := {| kind_value := "member" |}.
Definition ACTIVITY : ResourceKind := {| kind_value := "activity" |}.
Definition JOB : ResourceKind := {| kind_value := "job" |}.
Definition TASK : ResourceKind := {| kind_value := "task" |}.
Definition TOKEN : ResourceKind := {| kind_value := "token" |}.
Definition _VIEW : ResourceKind := {| kind_value := "view" |}.
Definition _CONFIG_OPTION : ResourceKind := {| kind_value := "config-option" |}.

(** [CatalogId(PLATFORM, kind, str(params[key]))] and the same with
    [params.get(key, missing)] *)
Definition target_at `{PyRepr} (kind : ResourceKind) (key : string) (params : pydict) : result CatalogId :=
  v ← field params key;
  make_catalog_id PLATFORM kind (py_str v).
Definition target_get `{PyRepr} (kind : ResourceKind) (key missing : string) (params : pydict) : result CatalogId :=
  make_catalog_id PLATFORM kind (py_str (default (PyStr missing) (dict_get key params))).

(** [['a', 'b']] *)
Definition names_repr (names : list string) : string := "['" +:+ String.concat "', '" names +:+ "']".

(** ** [services/datasets.py] *)

Definition _ORG_TARGET_ACTIONS : list string := ["bulk_update_private"; "bulk_update_public"; "bulk_update_delete"].
Definition _UPDATE_FIELDS : list string :=
  ["name"; "title"; "notes"; "url"; "version"; "license_id"; "owner_org"; "private"; "author"; "author_email"; "maintainer";
   "maintainer_email"; "tags"; "extras"; "groups"; "resources"].
Definition _PACKAGE_CREATE_FIELDS : list string := _UPDATE_FIELDS.
Definition _PACKAGE_UPDATE_FIELDS : list string := _PACKAGE_CREATE_FIELDS ++ ["id"].

(** The keys of the keyword arguments that are not allowed, in order *)
Definition unexpected (fields : pydict) (allowed : list string) : list string :=
  sort_items id (List.filter (λ k, negb (bool_decide (k ∈ allowed))) fields.*1).
Definition _package_mutation_params (fields : pydict) (target action : string) (allowed : list string) : result pydict :=
  match unexpected fields allowed with
  | name :: _ => Raise (err TypeError (action +:+ "() got an unexpected keyword argument '" +:+ name +:+ "'"))
  | [] =>
      let params := drop_unset (List.filter (λ kv, negb (bool_decide (kv.1 = target))) fields) in
      v ← field fields target;
      Ok (if bool_decide (target = "name") || negb (match v with PyNone => true | _ => false end) then dict_set target v params else params)
  end.

(** Whether a value is true *)
Definition truthy (v : pyval) : bool :=
  match v with
  | PyNone | PyBool false | PyStr EmptyString | PyBytes EmptyString _ | PyInt 0 | PyList [] | PyTuple [] | PyDict [] | PyProxy [] => false
  | PyFloat (FFin q) => negb (Qeq_bool q 0)
  | _ => true
  end.
Definition datasets_target `{PyRepr} (action : string) (params : pydict) : result CatalogId :=
  if bool_decide (action = "package_revise") then
    let target := match dict_get "match" params with
                  | Some (PyDict m) | Some (PyProxy m) =>
                      let first := default PyNone (lookup_key "id" m) in
                      if truthy first then first else default PyNone (lookup_key "name" m)
                  | _ => PyNone
                  end in
    make_catalog_id PLATFORM DATASET (if truthy target then py_str target else "ckan-bulk:package-revise")
  else if bool_decide (action ∈ _ORG_TARGET_ACTIONS) then target_at ORGANIZATION "org_id" params
  else target_at DATASET (if bool_decide (action = "package_create") then "name" else "id") params.

Definition package_list : service_call := ReadCall "package_list" [].
Definition current_package_list_with_resources (limit offset : pyval) : service_call :=
  ReadCall "current_package_list_with_resources" (drop_unset [("limit", limit); ("offset", offset)]).
Definition package_show (id use_default_schema include_tracking : pyval) : service_call :=
  ReadCall "package_show" (dict_merge [("id", id)] (drop_unset [("use_default_schema", use_default_schema);
    ("include_tracking", include_tracking)])).
Definition package_search (q fq rows start sort fl : pyval) : service_call :=
  ReadCall "package_search" (drop_unset [("q", q); ("fq", fq); ("rows", rows); ("start", start); ("sort", sort);
    ("fl", fl)]).
Definition package_autocomplete (q limit : pyval) : service_call :=
  ReadCall "package_autocomplete" (drop_unset [("q", q); ("limit", limit)]).
Definition package_revise (match_ update include filter : pyval) (policy : option MutationPolicy) : service_call :=
  MutationCall "package_revise" (drop_unset [("match", match_); ("update", update); ("include", include);
    ("filter", filter)]) policy.
Definition package_resource_reorder (id resources : pyval) (policy : option MutationPolicy) : service_call :=
  MutationCall "package_resource_reorder" [("id", id); ("resources", resources)] policy.
Definition package_owner_org_update (id organization_id force : pyval) (policy : option MutationPolicy) : service_call :=
  MutationCall "package_owner_org_update" (dict_merge [("id", id); ("organization_id", organization_id)]
    (drop_unset [("force", force)])) policy.
Definition package_delete (id : pyval) (policy : option MutationPolicy) : service_call :=
  MutationCall "package_delete" [("id", id)] policy.
Definition dataset_purge (id : pyval) (policy : option MutationPolicy) : service_call :=
  MutationCall "dataset_purge" [("id", id)] policy.
Definition bulk_update_private (datasets org_id : pyval) (policy : option MutationPolicy) : service_call :=
  MutationCall "bulk_update_private" [("datasets", datasets); ("org_id", org_id)] policy.
Definition bulk_update_public (datasets org_id : pyval) (policy : option MutationPolicy) : service_call :=
  MutationCall "bulk_update_public" [("datasets", datasets); ("org_id", org_id)] policy.
Definition bulk_update_delete (datasets org_id : pyval) (policy : option MutationPolicy) : service_call :=
  MutationCall "bulk_update_delete" [("datasets", datasets); ("org_id", org_id)] policy.
Definition package_collaborator_create (id user_id capacity : pyval) (policy : option MutationPolicy) : service_call :=
  MutationCall "package_collaborator_create" [("id", id); ("user_id", user_id); ("capacity", capacity)] policy.
Definition package_collaborator_delete (id user_id : pyval) (policy : option MutationPolicy) : service_call :=
  MutationCall "package_collaborator_delete" [("id", id); ("user_id", user_id)] policy.
Definition package_collaborator_list (id capacity : pyval) : service_call :=
  ReadCall "package_collaborator_list" (drop_unset [("id", id); ("capacity", capacity)]).
Definition package_collaborator_list_for_user (user_id capacity : pyval) : service_call :=
  ReadCall "package_collaborator_list_for_user" (drop_unset [("user_id", user_id); ("capacity", capacity)]).
Definition package_create (fields : pydict) (policy : option MutationPolicy) : result service_call :=
  params ← _package_mutation_params fields "name" "package_create" _PACKAGE_CREATE_FIELDS;
  Ok (MutationCall "package_create" params policy).
Definition package_update (fields : pydict) (policy : option MutationPolicy) : result service_call :=
  params ← _package_mutation_params fields "id" "package_update" _PACKAGE_UPDATE_FIELDS;
  Ok (MutationCall "package_update" params policy).
Definition package_patch (fields : pydict) (policy : option MutationPolicy) : result service_call :=
  params ← _package_mutation_params fields "id" "package_patch" _PACKAGE_UPDATE_FIELDS;
  Ok (MutationCall "package_patch" params policy).

(** ** [services/organizations.py] *)

Definition _ORG_ID_ACTIONS : list string :=
  ["organization_update"; "organization_patch"; "organization_delete"; "organization_purge"; "organization_member_create";
   "organization_member_delete"].
Definition organizations_target `{PyRepr} (action : string) (params : pydict) : result CatalogId :=
  if bool_decide (action = "organization_create") then target_get ORGANIZATION "name" "" params
  else if bool_decide (action ∈ _ORG_ID_ACTIONS) then target_get ORGANIZATION "id" "" params
  else target_get MEMBER "object" "" params.

Definition organization_list (sort limit offset capacity : pyval) : service_call :=
  ReadCall "organization_list" (drop_unset [("sort", sort); ("limit", limit); ("offset", offset); ("capacity", capacity);
    ("all_fields", PyBool true)]).
Definition organization_list_for_user (permission : pyval) : service_call :=
  ReadCall "organization_list_for_user" (drop_unset [("permission", permission)]).
Definition organization_show (id include_datasets include_dataset_count include_users : pyval) : service_call :=
  ReadCall "organization_show" (detail_params id include_datasets include_dataset_count include_users).
Definition organization_autocomplete (q limit : pyval) : service_call :=
  ReadCall "organization_autocomplete" (drop_unset [("q", q); ("limit", limit)]).
Definition member_list (id object_type capacity : pyval) : service_call :=
  ReadCall "member_list" (drop_unset [("id", id); ("object_type", object_type); ("capacity", capacity)]).
Definition member_roles_list : service_call := ReadCall "member_roles_list" [].
Definition organization_create (name title description image_url users : pyval)
    (policy : option MutationPolicy) : service_call :=
  MutationCall "organization_create" (wire_params [("name", name)] [("title", title); ("description", description);
    ("image_url", image_url); ("users", users)]) policy.
Definition organization_update (id name title description image_url users : pyval)
    (policy : option MutationPolicy) : service_call :=
  MutationCall "organization_update" (fields_params id name title description image_url users) policy.
Definition organization_patch (id name title description image_url users : pyval)
    (policy : option MutationPolicy) : service_call :=
  MutationCall "organization_patch" (fields_params id name title description image_url users) policy.
Definition organization_delete (id : pyval) (policy : option MutationPolicy) : service_call :=
  MutationCall "organization_delete" [("id", id)] policy.
Definition organization_purge (id : pyval) (policy : option MutationPolicy) : service_call :=
  MutationCall "organization_purge" [("id", id)] policy.
Definition organization_member_create (id username role : pyval) (policy : option MutationPolicy) : service_call :=
  MutationCall "organization_member_create" [("id", id); ("username", username); ("role", role)] policy.
Definition organization_member_delete (id username : pyval) (policy : option MutationPolicy) : service_call :=
  MutationCall "organization_member_delete" [("id", id); ("username", username)] policy.
Definition member_create (id object object_type capacity : pyval) (policy : option MutationPolicy) : service_call :=
  MutationCall "member_create" [("id", id); ("object", object); ("object_type", object_type); ("capacity", capacity)]
    policy.
Definition member_delete (id object object_type : pyval) (policy : option MutationPolicy) : service_call :=
  MutationCall "member_delete" [("id", id); ("object", object); ("object_type", object_type)] policy.

(** ** [services/groups.py] *)

Definition groups_target `{PyRepr} (action : string) (params : pydict) : result CatalogId :=
  target_at GROUP (if bool_decide (action = "group_create") then "name" else "id") params.

Definition group_list (sort limit offset capacity : pyval) : service_call :=
  ReadCall "group_list" (drop_unset [("sort", sort); ("limit", limit); ("offset", offset); ("capacity", capacity)]).
Definition group_list_authz : service_call := ReadCall "group_list_authz" [].
Definition group_show (id include_datasets include_dataset_count include_users : pyval) : service_call :=
  ReadCall "group_show" (detail_params id include_datasets include_dataset_count include_users).
Definition group_package_show (id limit : pyval) : service_call :=
  ReadCall "group_package_show" (drop_unset [("id", id); ("limit", limit)]).
Definition group_autocomplete (q limit : pyval) : service_call :=
  ReadCall "group_autocomplete" (drop_unset [("q", q); ("limit", limit)]).
Definition group_create (name title description image_url : pyval) (policy : option MutationPolicy) : service_call :=
  MutationCall "group_create" (wire_params [("name", name)] [("title", title); ("description", description);
    ("image_url", image_url)]) policy.
Definition group_update (id name title description image_url : pyval) (policy : option MutationPolicy) : service_call :=
  MutationCall "group_update" (fields_params id name title description image_url PyNone) policy.
Definition group_patch (id name title description image_url : pyval) (policy : option MutationPolicy) : service_call :=
  MutationCall "group_patch" (fields_params id name title description image_url PyNone) policy.
Definition group_delete (id : pyval) (policy : option MutationPolicy) : service_call :=
  MutationCall "group_delete" [("id", id)] policy.
Definition group_purge (id : pyval) (policy : option MutationPolicy) : service_call :=
  MutationCall "group_purge" [("id", id)] policy.
Definition group_member_create (id username role : pyval) (policy : option MutationPolicy) : service_call :=
  MutationCall "group_member_create" [("id", id); ("username", username); ("role", role)] policy.
Definition group_member_delete (id username : pyval) (policy : option MutationPolicy) : service_call :=
  MutationCall "group_member_delete" [("id", id); ("username", username)] policy.

(** ** [services/users.py] *)

Definition _user_params (base optional : pydict) : pydict := dict_merge base (drop_unset optional).
Definition _ID_TARGET_ACTIONS : list string := ["user_update"; "user_patch"; "user_delete"].
Definition users_target `{PyRepr} (action : string) (params : pydict) : result CatalogId :=
  if bool_decide (action = "user_create") then target_get USER "name" "" params
  else if bool_decide (action = "user_invite") then target_get USER "email" "" params
  else if bool_decide (action ∈ _ID_TARGET_ACTIONS) then target_get USER "id" "" params
  else if bool_decide (action = "api_token_create") then target_get USER "user" "" params
  else if bool_decide (action = "api_token_revoke") then target_get TOKEN "jti" "" params
  else make_catalog_id PLATFORM USER "site-user".

Definition user_list (q email : pyval) : service_call := ReadCall "user_list" (drop_unset [("q", q); ("email", email)]).
Definition user_show (id : pyval) : service_call := ReadCall "user_show" [("id", id)].
Definition user_autocomplete (q limit : pyval) : service_call :=
  ReadCall "user_autocomplete" (drop_unset [("q", q); ("limit", limit)]).
Definition user_create (name email fullname about password : pyval) (policy : option MutationPolicy) : service_call :=
  MutationCall "user_create" (_user_params [("name", name); ("email", email)] [("fullname", fullname); ("about", about);
    ("password", password)]) policy.
Definition user_invite (email group_id role name : pyval) (policy : option MutationPolicy) : service_call :=
  MutationCall "user_invite" (_user_params [("email", email); ("group_id", group_id); ("role", role)] [("name", name)])
    policy.
Definition user_update (id email fullname about password : pyval) (policy : option MutationPolicy) : service_call :=
  MutationCall "user_update" (_user_params [("id", id)] [("email", email); ("fullname", fullname); ("about", about);
    ("password", password)]) policy.
Definition user_patch (id email fullname about : pyval) (policy : option MutationPolicy) : service_call :=
  MutationCall "user_patch" (_user_params [("id", id)] [("email", email); ("fullname", fullname); ("about", about)])
    policy.
Definition user_delete (id : pyval) (policy : option MutationPolicy) : service_call :=
  MutationCall "user_delete" [("id", id)] policy.
Definition get_site_user (policy : option MutationPolicy) : service_call := MutationCall "get_site_user" [] policy.
Definition api_token_list (user : pyval) : service_call := ReadCall "api_token_list" [("user", user)].
Definition api_token_revoke (token_id : pyval) (policy : option MutationPolicy) : service_call :=
  MutationCall "api_token_revoke" [("jti", token_id)] policy.
(** The call of [api_token_create]; what it makes of the result is
    [token_of_result]. *)
Definition api_token_create (user name : pyval) (policy : option MutationPolicy) : service_call :=
  MutationCall "api_token_create" [("user", user); ("name", name)] policy.
Definition _TOKEN_OPERATION : string := "ckan/action-api-v3.user-create-update-delete-token-management".
Definition token_of_result (result : CKANMutationResult) : Prelude.result CKANTokenResult :=
  match items (mr_result result) with
  | ItemToken item :: _ => Ok item
  | _ => raise_new (native_error "The api_token_create result did not carry a typed token secret." _TOKEN_OPERATION "ckan")
  end.

(** ** [services/vocabularies_licenses.py] *)

Definition vocabularies_licenses_target `{PyRepr} (action : string) (params : pydict) : result CatalogId :=
  if bool_decide (action = "tag_create") then target_at TAG "name" params
  else if bool_decide (action = "tag_delete") then target_at TAG "id" params
  else if bool_decide (action = "vocabulary_create") then target_at VOCABULARY "name" params
  else if bool_decide (action ∈ ["vocabulary_update"; "vocabulary_delete"]) then target_at VOCABULARY "id" params
  else if bool_decide (action = "term_translation_update") then target_at VOCABULARY "term" params
  else make_catalog_id PLATFORM VOCABULARY action.

Definition tag_list (vocabulary_id q all_fields : pyval) : service_call :=
  ReadCall "tag_list" (drop_unset [("vocabulary_id", vocabulary_id); ("q", q); ("all_fields", all_fields)]).
Definition tag_show (id : pyval) : service_call := ReadCall "tag_show" [("id", id)].
Definition tag_search (q vocabulary_id limit offset : pyval) : service_call :=
  ReadCall "tag_search" (drop_unset [("q", q); ("vocabulary_id", vocabulary_id); ("limit", limit); ("offset", offset)]).
Definition tag_autocomplete (q vocabulary_id limit : pyval) : service_call :=
  ReadCall "tag_autocomplete" (drop_unset [("q", q); ("vocabulary_id", vocabulary_id); ("limit", limit)]).
Definition vocabulary_list : service_call := ReadCall "vocabulary_list" [].
Definition vocabulary_show (id : pyval) : service_call := ReadCall "vocabulary_show" [("id", id)].
Definition license_list : service_call := ReadCall "license_list" [].
Definition format_autocomplete (q limit : pyval) : service_call :=
  ReadCall "format_autocomplete" (drop_unset [("q", q); ("limit", limit)]).
Definition term_translation_show (terms lang_codes : pyval) : service_call :=
  ReadCall "term_translation_show" (wire_params [("terms", terms)] [("lang_codes", lang_codes)]).
Definition tag_create (name vocabulary_id : pyval) (policy : option MutationPolicy) : service_call :=
  MutationCall "tag_create" (drop_unset [("name", name); ("vocabulary_id", vocabulary_id)]) policy.
Definition tag_delete (id vocabulary_id : pyval) (policy : option MutationPolicy) : service_call :=
  MutationCall "tag_delete" (drop_unset [("id", id); ("vocabulary_id", vocabulary_id)]) policy.
Definition vocabulary_create (name tags : pyval) (policy : option MutationPolicy) : service_call :=
  MutationCall "vocabulary_create" (drop_unset [("name", name); ("tags", tags)]) policy.
Definition vocabulary_update (id name tags : pyval) (policy : option MutationPolicy) : service_call :=
  MutationCall "vocabulary_update" (wire_params [("id", id)] [("name", name); ("tags", tags)]) policy.
Definition vocabulary_delete (id : pyval) (policy : option MutationPolicy) : service_call :=
  MutationCall "vocabulary_delete" [("id", id)] policy.
Definition term_translation_update (term lang_code term_translation : pyval)
    (policy : option MutationPolicy) : service_call :=
  MutationCall "term_translation_update" [("term", term); ("lang_code", lang_code);
    ("term_translation", term_translation)] policy.
Definition term_translation_update_many (data : pyval) (policy : option MutationPolicy) : service_call :=
  MutationCall "term_translation_update_many" [("data", data)] policy.

(** ** [services/relationships_activity.py] *)

Definition _ENTITY_KINDS : list (string * ResourceKind) := [("dataset", DATASET); ("group", GROUP); ("user", USER)].
Definition _ACTIVITY_TARGETS : list (string * string) :=
  [("dashboard_mark_activities_old", "dashboard"); ("send_email_notifications", "activity-notifications")].
(** [action.rsplit("_", 1)[-1]] *)
Fixpoint last_word (acc s : string) : string :=
  match s with
  | EmptyString => acc
  | String c s => if bool_decide (c = "_"%char) then last_word "" s else last_word (acc +:+ String c "") s
  end.
Definition relationships_activity_target `{PyRepr} (action : string) (params : pydict) : result CatalogId :=
  if bool_decide (action = "activity_create") then target_get ACTIVITY "object_id" "" params
  else
    match dict_get action _ACTIVITY_TARGETS with
    | Some name => make_catalog_id PLATFORM ACTIVITY name
    | None =>
        if starts_with "package_relationship" action then target_get DATASET "subject" "" params
        else
          match dict_get (last_word "" action) _ENTITY_KINDS with
          | None => Raise (err KeyError (last_word "" action))
          | Some kind => target_get kind "id" "" params
          end
    end.

Definition package_relationships_list (id id2 rel : pyval) : service_call :=
  ReadCall "package_relationships_list" (drop_unset [("id", id); ("id2", id2); ("rel", rel)]).
Definition package_relationship_create (subject object type : pyval) (policy : option MutationPolicy) : service_call :=
  MutationCall "package_relationship_create" [("subject", subject); ("object", object); ("type", type)] policy.
Definition package_relationship_update (subject object type : pyval) (policy : option MutationPolicy) : service_call :=
  MutationCall "package_relationship_update" [("subject", subject); ("object", object); ("type", type)] policy.
Definition package_relationship_delete (subject object : pyval) (policy : option MutationPolicy) : service_call :=
  MutationCall "package_relationship_delete" [("subject", subject); ("object", object)] policy.
Definition follow_dataset (id : pyval) (policy : option MutationPolicy) : service_call :=
  MutationCall "follow_dataset" [("id", id)] policy.
Definition unfollow_dataset (id : pyval) (policy : option MutationPolicy) : service_call :=
  MutationCall "unfollow_dataset" [("id", id)] policy.
Definition am_following_dataset (id : pyval) : service_call := ReadCall "am_following_dataset" [("id", id)].
Definition follow_group (id : pyval) (policy : option MutationPolicy) : service_call :=
  MutationCall "follow_group" [("id", id)] policy.
Definition unfollow_group (id : pyval) (policy : option MutationPolicy) : service_call :=
  MutationCall "unfollow_group" [("id", id)] policy.
Definition am_following_group (id : pyval) : service_call := ReadCall "am_following_group" [("id", id)].
Definition follow_user (id : pyval) (policy : option MutationPolicy) : service_call :=
  MutationCall "follow_user" [("id", id)] policy.
Definition unfollow_user (id : pyval) (policy : option MutationPolicy) : service_call :=
  MutationCall "unfollow_user" [("id", id)] policy.
Definition am_following_user (id : pyval) : service_call := ReadCall "am_following_user" [("id", id)].
Definition dataset_follower_count (id : pyval) : service_call := ReadCall "dataset_follower_count" [("id", id)].
Definition dataset_follower_list (id : pyval) : service_call := ReadCall "dataset_follower_list" [("id", id)].
Definition group_follower_count (id : pyval) : service_call := ReadCall "group_follower_count" [("id", id)].
Definition group_follower_list (id : pyval) : service_call := ReadCall "group_follower_list" [("id", id)].
Definition organization_follower_count (id : pyval) : service_call := ReadCall "organization_follower_count" [("id", id)].
Definition organization_follower_list (id : pyval) : service_call := ReadCall "organization_follower_list" [("id", id)].
Definition user_follower_count (id : pyval) : service_call := ReadCall "user_follower_count" [("id", id)].
Definition user_follower_list (id : pyval) : service_call := ReadCall "user_follower_list" [("id", id)].
Definition dataset_followee_count (id : pyval) : service_call := ReadCall "dataset_followee_count" [("id", id)].
Definition dataset_followee_list (id : pyval) : service_call := ReadCall "dataset_followee_list" [("id", id)].
Definition group_followee_count (id : pyval) : service_call := ReadCall "group_followee_count" [("id", id)].
Definition group_followee_list (id : pyval) : service_call := ReadCall "group_followee_list" [("id", id)].
Definition organization_followee_count (id : pyval) : service_call := ReadCall "organization_followee_count" [("id", id)].
Definition organization_followee_list (id : pyval) : service_call := ReadCall "organization_followee_list" [("id", id)].
Definition user_followee_count (id : pyval) : service_call := ReadCall "user_followee_count" [("id", id)].
Definition user_followee_list (id : pyval) : service_call := ReadCall "user_followee_list" [("id", id)].
Definition followee_count (id : pyval) : service_call := ReadCall "followee_count" [("id", id)].
Definition followee_list (id : pyval) : service_call := ReadCall "followee_list" [("id", id)].
Definition package_activity_list (id offset limit : pyval) : service_call :=
  ReadCall "package_activity_list" (drop_unset [("id", id); ("offset", offset); ("limit", limit)]).
Definition group_activity_list (id offset limit : pyval) : service_call :=
  ReadCall "group_activity_list" (drop_unset [("id", id); ("offset", offset); ("limit", limit)]).
Definition organization_activity_list (id offset limit : pyval) : service_call :=
  ReadCall "organization_activity_list" (drop_unset [("id", id); ("offset", offset); ("limit", limit)]).
Definition user_activity_list (id offset limit : pyval) : service_call :=
  ReadCall "user_activity_list" (drop_unset [("id", id); ("offset", offset); ("limit", limit)]).
Definition recently_changed_packages_activity_list (offset limit : pyval) : service_call :=
  ReadCall "recently_changed_packages_activity_list" (drop_unset [("offset", offset); ("limit", limit)]).
Definition dashboard_activity_list (offset limit : pyval) : service_call :=
  ReadCall "dashboard_activity_list" (drop_unset [("offset", offset); ("limit", limit)]).
Definition dashboard_new_activities_count : service_call := ReadCall "dashboard_new_activities_count" [].
Definition dashboard_mark_activities_old (policy : option MutationPolicy) : service_call :=
  MutationCall "dashboard_mark_activities_old" [] policy.
Definition activity_show (id : pyval) : service_call := ReadCall "activity_show" [("id", id)].
Definition activity_data_show (id : pyval) : service_call := ReadCall "activity_data_show" [("id", id)].
Definition activity_diff (id context diff_type : pyval) : service_call :=
  ReadCall "activity_diff" (drop_unset [("id", id); ("context", context); ("diff_type", diff_type)]).
Definition activity_create (user_id object_id activity_type data : pyval) (policy : option MutationPolicy) : service_call :=
  MutationCall "activity_create" [("user_id", user_id); ("object_id", object_id); ("activity_type", activity_type);
    ("data", data)] policy.
Definition send_email_notifications (policy : option MutationPolicy) : service_call :=
  MutationCall "send_email_notifications" [] policy.

(** ** [services/views.py] *)

Fixpoint _mapping_identity (value : pyval) (keys : list string) : result string :=
  match keys with
  | [] => Raise (err KeyError "the default-view mutation carried no stable object identity")
  | key :: keys =>
      match value with
      | PyDict kvs | PyProxy kvs =>
          match lookup_key key kvs with
          | Some (PyStr (String _ _ as identity)) => Ok identity
          | _ => _mapping_identity value keys
          end
      | _ => _mapping_identity value keys
      end
  end.
Definition views_target `{PyRepr} (action : string) (params : pydict) : result CatalogId :=
  let identity key keys := _mapping_identity (default (PyStr "") (dict_get key params)) keys in
  if bool_decide (action = "package_create_default_resource_views") then
    name ← identity "package" ["id"; "name"]; make_catalog_id PLATFORM DATASET name
  else if bool_decide (action = "resource_create_default_resource_views") then
    name ← identity "resource" ["id"]; make_catalog_id PLATFORM RESOURCE name
  else if bool_decide (action ∈ ["resource_view_update"; "resource_view_delete"]) then target_at _VIEW "id" params
  else if bool_decide ("resource_id" ∈ params.*1) then target_at RESOURCE "resource_id" params
  else if bool_decide ("id" ∈ params.*1) then target_at RESOURCE "id" params
  else Raise (err KeyError "the view mutation carried no resource-targeting id").

Definition resource_view_create (resource_id view_type title description config : pyval)
    (policy : option MutationPolicy) : service_call :=
  MutationCall "resource_view_create" (wire_params [("resource_id", resource_id); ("view_type", view_type)]
    [("title", title); ("description", description); ("config", config)]) policy.
Definition resource_view_show (id : pyval) : service_call := ReadCall "resource_view_show" [("id", id)].
Definition resource_view_list (id : pyval) : service_call := ReadCall "resource_view_list" [("id", id)].
Definition resource_view_update (id title description config view_type : pyval)
    (policy : option MutationPolicy) : service_call :=
  MutationCall "resource_view_update" (wire_params [("id", id)] [("title", title); ("description", description);
    ("config", config); ("view_type", view_type)]) policy.
Definition resource_view_reorder (id order : pyval) (policy : option MutationPolicy) : service_call :=
  MutationCall "resource_view_reorder" [("id", id); ("order", order)] policy.
Definition resource_view_delete (id : pyval) (policy : option MutationPolicy) : service_call :=
  MutationCall "resource_view_delete" [("id", id)] policy.
Definition resource_view_clear (id : pyval) (policy : option MutationPolicy) : service_call :=
  MutationCall "resource_view_clear" [("id", id)] policy.
Definition package_create_default_resource_views (package create_datastore_views : pyval)
    (policy : option MutationPolicy) : service_call :=
  MutationCall "package_create_default_resource_views" (drop_unset [("package", package);
    ("create_datastore_views", create_datastore_views)]) policy.
Definition resource_create_default_resource_views (resource package create_datastore_views : pyval)
    (policy : option MutationPolicy) : service_call :=
  MutationCall "resource_create_default_resource_views" (drop_unset [("resource", resource); ("package", package);
    ("create_datastore_views", create_datastore_views)]) policy.

(** ** [services/datastore.py] *)

Definition datastore_target `{PyRepr} (_action : string) (params : pydict) : result CatalogId :=
  target_at RESOURCE (if bool_decide ("resource_id" ∈ params.*1) then "resource_id" else "name") params.
Definition _search_params (resource_id q plain language limit offset fields sort filters distinct include_total
    records_format : pyval) : pydict :=
  wire_params [("resource_id", resource_id)]
    [("q", q); ("plain", plain); ("language", language); ("limit", limit); ("offset", offset); ("fields", fields); ("sort", sort);
     ("filters", filters); ("distinct", distinct); ("include_total", include_total); ("records_format", records_format)].
Definition _create_params (resource_id fields records primary_key indexes aliases triggers : pyval) : pydict :=
  wire_params [("resource_id", resource_id)]
    [("fields", fields); ("records", records); ("primary_key", primary_key); ("indexes", indexes); ("aliases", aliases);
     ("triggers", triggers)].
Definition _upsert_params (resource_id records method dry_run calculate_record_id force : pyval) : pydict :=
  wire_params [("resource_id", resource_id); ("records", records); ("method", method)]
    [("dry_run", dry_run); ("calculate_record_id", calculate_record_id); ("force", force)].
Definition _function_create_params (name description language handler source or_replace return_type : pyval) : pydict :=
  wire_params [("name", name)]
    [("description", description); ("language", language); ("handler", handler); ("source", source);
     ("or_replace", or_replace); ("return_type", return_type)].

Definition datastore_search (resource_id q plain language limit offset fields sort filters distinct include_total
    records_format : pyval) : service_call :=
  ReadCall "datastore_search" (_search_params resource_id q plain language limit offset fields sort filters distinct include_total records_format).
Definition datastore_info (id : pyval) : service_call := ReadCall "datastore_info" [("id", id)].
Definition datastore_create (resource_id fields records primary_key indexes aliases triggers : pyval)
    (policy : option MutationPolicy) : service_call :=
  MutationCall "datastore_create" (_create_params resource_id fields records primary_key indexes aliases triggers)
    policy.
Definition datastore_upsert (resource_id records method dry_run calculate_record_id force : pyval)
    (policy : option MutationPolicy) : service_call :=
  MutationCall "datastore_upsert" (_upsert_params resource_id records method dry_run calculate_record_id force) policy.
Definition datastore_delete (resource_id filters force : pyval) (policy : option MutationPolicy) : service_call :=
  MutationCall "datastore_delete" (wire_params [("resource_id", resource_id)] [("filters", filters); ("force", force)])
    policy.
Definition datastore_records_delete (resource_id filters force dry_run : pyval)
    (policy : option MutationPolicy) : service_call :=
  MutationCall "datastore_records_delete" (wire_params [("resource_id", resource_id); ("filters", filters)]
    [("force", force); ("dry_run", dry_run)]) policy.
Definition datastore_function_create (name description language handler source or_replace return_type : pyval)
    (policy : option MutationPolicy) : service_call :=
  MutationCall "datastore_function_create" (_function_create_params name description language handler source or_replace return_type)
    policy.
Definition datastore_function_delete (name force : pyval) (policy : option MutationPolicy) : service_call :=
  MutationCall "datastore_function_delete" (wire_params [("name", name)] [("force", force)]) policy.
Definition datastore_run_triggers (resource_id : pyval) (policy : option MutationPolicy) : service_call :=
  MutationCall "datastore_run_triggers" [("resource_id", resource_id)] policy.
Definition datastore_search_sql (sql : pyval) : service_call := ReadCall "datastore_search_sql" [("sql", sql)].

(** ** [services/extensions.py] *)

Definition extensions_target `{PyRepr} (action : string) (params : pydict) : result CatalogId :=
  if bool_decide (action = "job_clear") then make_catalog_id PLATFORM JOB "background-jobs"
  else if starts_with "job_" action then target_get JOB "id" "" params
  else if starts_with "config_option" action then make_catalog_id PLATFORM _CONFIG_OPTION "site-config"
  else if bool_decide ("id" ∈ params.*1) then target_at TASK "id" params
  else target_get TASK "entity_id" "task" params.

Definition job_list (queues : pyval) : service_call := ReadCall "job_list" (drop_unset [("queues", queues)]).
Definition job_show (id : pyval) : service_call := ReadCall "job_show" [("id", id)].
Definition job_cancel (id : pyval) (policy : option MutationPolicy) : service_call :=
  MutationCall "job_cancel" [("id", id)] policy.
Definition job_clear (queues : pyval) (policy : option MutationPolicy) : service_call :=
  MutationCall "job_clear" (dict_merge [] (drop_unset [("queues", queues)])) policy.
Definition task_status_show (id : pyval) : service_call := ReadCall "task_status_show" [("id", id)].
Definition task_status_update (entity_id task_type key value state error : pyval)
    (policy : option MutationPolicy) : service_call :=
  MutationCall "task_status_update" (dict_merge [("entity_id", entity_id); ("task_type", task_type); ("key", key);
    ("value", value)] (drop_unset [("state", state); ("error", error)])) policy.
Definition task_status_update_many (data : pyval) (policy : option MutationPolicy) : service_call :=
  MutationCall "task_status_update_many" [("data", data)] policy.
Definition task_status_delete (id : pyval) (policy : option MutationPolicy) : service_call :=
  MutationCall "task_status_delete" [("id", id)] policy.
Definition config_option_show (key : pyval) : service_call := ReadCall "config_option_show" [("key", key)].
Definition config_option_list : service_call := ReadCall "config_option_list" [].
Definition config_option_update (values : pydict) (policy : option MutationPolicy) : service_call :=
  MutationCall "config_option_update" values policy.

(** ** [services/resources.py] *)

Definition _RESOURCE_FIELDS : list string := ["url"; "name"; "description"; "format"; "mimetype"; "size"; "hash"].
Definition _resource_params (base fields : pydict) : pydict := dict_merge base (drop_unset fields).
Definition undocumented (action : string) (fields : pydict) (allowed : list string) : result unit :=
  match unexpected fields allowed with
  | [] => Ok tt
  | names => Raise (err TypeError (action +:+ " received undocumented field(s): " +:+ names_repr names))
  end.

Definition resource_show (id : pyval) : service_call := ReadCall "resource_show" [("id", id)].
Definition resource_search (q fields limit offset : pyval) : service_call :=
  ReadCall "resource_search" (drop_unset [("q", q); ("fields", fields); ("limit", limit); ("offset", offset)]).
Definition resource_create (package_id : pyval) (fields : pydict) (policy : option MutationPolicy) : result service_call :=
  undocumented "resource_create" fields _RESOURCE_FIELDS;;
  Ok (MutationCall "resource_create" (_resource_params [("package_id", package_id)] fields) policy).
Definition resource_update (id : pyval) (fields : pydict) (policy : option MutationPolicy) : result service_call :=
  undocumented "resource_update" fields (_RESOURCE_FIELDS ++ ["package_id"]);;
  Ok (MutationCall "resource_update" (_resource_params [("id", id)] fields) policy).
Definition resource_patch (id : pyval) (fields : pydict) (policy : option MutationPolicy) : result service_call :=
  undocumented "resource_patch" fields (_RESOURCE_FIELDS ++ ["package_id"]);;
  Ok (MutationCall "resource_patch" (_resource_params [("id", id)] fields) policy).
Definition resource_delete (id : pyval) (policy : option MutationPolicy) : service_call :=
  MutationCall "resource_delete" [("id", id)] policy.

(** [raw.encode("utf-8")] for code points below 256 *)
Fixpoint encode_utf8 (text : string) : string :=
  match text with
  | EmptyString => ""
  | String c text =>
      if code c <? 128 then String c (encode_utf8 text)
      else String (ascii_of_N (Z.to_N (192 + code c / 64))) (String (ascii_of_N (Z.to_N (128 + code c mod 64))) (encode_utf8 text))
  end.

Definition _UPLOAD_FIELD : string := "upload".
Definition _encode_field `{!FloatText} (value : pyval) : result string :=
  match value with
  | PyStr text => Ok (encode_utf8 text)
  | _ =>
      match (if all_finite value then dumps false value else Raise not_serializable) with
      | Ok text => Ok text
      | Raise _ => raise_new (validation_error "Resource upload fields require finite JSON-serializable values."
          ("ckan/" +:+ _UPLOAD_FIELD) "Use finite JSON values (no NaN or Infinity) in upload fields.")
      end
  end.
Definition _multipart_parts `{!FloatText} (params : pydict) (data : string) (file_name : option string) : result (list UploadPart) :=
  fields ← map_res (λ kv, value ← _encode_field kv.2; make_upload_part kv.1 (UploadBytes value) None None) (sort_items fst params);
  part ← make_upload_part _UPLOAD_FIELD (UploadBytes data) file_name None;
  Ok (fields ++ [part]).

Definition _ceiling_error (observed ceiling : Z) : result exn :=
  validation_error ("The upload source exceeds the configured ceiling of " +:+ int_repr ceiling +:+ " bytes (buffered " +:+
                    int_repr observed +:+ " bytes).") ("ckan/" +:+ _UPLOAD_FIELD)
    ("Reduce the file size below " +:+ int_repr ceiling +:+ " bytes or raise settings.max_upload_bytes before retrying.").

(** A path or an open handle: its name, and the steps of its reads; behind
    them it is at its end *)
Record upload_source (W : Type) := { us_name : option string; us_reads : list (M W string) }.
Arguments us_name {W}. Arguments us_reads {W}.

Fixpoint buffer_chunks {W} (reads : list (M W string)) (max_bytes : option Z) (total : Z) (data : string) : M W string :=
  match reads with
  | [] => mret data
  | next :: reads =>
      chunk ← next;
      if str_nonempty chunk then
        let total := total + size chunk in
        match max_bytes with
        | Some limit => if limit <? total then lift_res (raise_new (_ceiling_error total limit)) else buffer_chunks reads max_bytes total (data +:+ chunk)
        | None => buffer_chunks reads max_bytes total (data +:+ chunk)
        end
      else mret data
  end.
Definition _buffer_upload {W} (source : upload_source W) (max_bytes : option Z) : M W string :=
  buffer_chunks (us_reads source) max_bytes 0 "".
Definition _resolve_files {W} `{!FloatText} (params : pydict) (upload : option (upload_source W)) (max_bytes : option Z)
  : M W (list UploadPart) :=
  match upload with
  | None => mret []
  | Some source => data ← _buffer_upload source max_bytes; lift_res (_multipart_parts params data (us_name source))
  end.

Definition native_items (l : list CKANResultItem) : list NativeRecord :=
  omap (λ i, match i with ItemRecord r => Some r | _ => None end) l.
Definition _receipt_target `{PyRepr} (action : string) (params : pydict) (envelope : ResultEnvelope CKANResultItem) : result CatalogId :=
  if bool_decide (action = "resource_create") then
    match native_items (items envelope) with
    | record :: _ => Ok (nat_id record)
    | [] => target_get RESOURCE "package_id" "resource-create" params
    end
  else target_at RESOURCE "id" params.

(** ** Execution *)

Section execution.
Context {W : Type} `{!CatalogEnv W, !ScopedCapabilities W, IpLiterals, Hmac, JsonBytes, FloatText, PyRepr}.
Variable self : CKANClient W.
Abbreviation K := (M (string * client W)).

(** [_invoke_mutation] of the resource service, where [upload] is read in
    between *)
Definition resource_mutation_with (dispatch : CatalogOperationRequest → CatalogOperationGuard W → ActionEntry → list UploadPart →
      K (ResultEnvelope CKANResultItem)) (action : string) (params : pydict) (policy : option MutationPolicy)
    (upload : option (upload_source W)) : K CKANMutationResult :=
  '(entry, effective, operation, guard) ← lift_res (_typed_mutation_request self "resources" action params policy);
  files ← on_inner (on_world (_resolve_files params upload (ck_max_upload_bytes self)));
  envelope ← dispatch operation guard entry files;
  lift_res (target ← _receipt_target (ae_name entry) params envelope;
            receipt ← build_mutation_receipt (ck_no_redact self) (cor_operation_id operation) target effective "succeeded"
                        [("action", PyStr (ae_name entry))];
            Ok {| mr_result := envelope; mr_receipt := receipt |}).

(** [_invoke_read] and [_invoke_mutation] of the service of a group; only the
    resource service takes an upload and finds its target in the answer *)
Definition perform_with (dispatch : CatalogOperationRequest → CatalogOperationGuard W → ActionEntry → list UploadPart →
      K (ResultEnvelope CKANResultItem)) (group : string) (target : string → pydict → result CatalogId)
    (upload : option (upload_source W)) (call : service_call) : K (ResultEnvelope CKANResultItem + CKANMutationResult) :=
  match call with
  | ReadCall action params => r ← typed_read_with self dispatch group action params; mret (inl r)
  | MutationCall action params policy =>
      r ← (if bool_decide (group = "resources") then resource_mutation_with dispatch action params policy upload
           else typed_mutation_with self dispatch group action params policy target);
      mret (inr r)
  end.
Definition perform := perform_with (ck_dispatch self).
Definition perform_async := perform_with (ck_dispatch_async self).
(** [api_token_create] of the user service, which gives the token alone *)
Definition create_token_with (dispatch : CatalogOperationRequest → CatalogOperationGuard W → ActionEntry → list UploadPart →
      K (ResultEnvelope CKANResultItem)) (user name : pyval) (policy : option MutationPolicy) : K CKANTokenResult :=
  r ← typed_mutation_with self dispatch "users" "api_token_create" (call_params (api_token_create user name policy)) policy users_target;
  lift_res (token_of_result r).

(** ** [services/filestore.py]

    The payload without [upload], which is the source or [None]. *)
Definition _UPLOAD_ACTIONS : list string := ["resource_create"; "resource_update"; "resource_patch"].
Definition _NOT_AN_UPLOAD : string := "The filestore fa" +:+ String "231"%char "ade accepts resource_create, resource_update, or resource_patch.".
Definition without {V} (key : string) (d : list (string * V)) : list (string * V) := List.filter (λ kv, negb (bool_decide (kv.1 = key))) d.
Definition _upload_call (operation : CatalogOperationRequest) (upload : option (upload_source W))
  : result (string * upload_source W * pydict) :=
  let payload := cor_payload operation in
  let refused message action := raise_new (catalog_error CatalogValidationError message (operation_str (cor_operation_id operation))
        (op_platform (cor_operation_id operation)) None action None) in
  match dict_get "action" payload with
  | Some (PyStr action) =>
      if bool_decide (action ∈ _UPLOAD_ACTIONS) then
        match upload with
        | None => refused ("The filestore fa" +:+ String "231"%char "ade requires an upload source.") "Provide a file path or open binary handle in payload['upload']."
        | Some source => Ok (action, source, without "action" payload)
        end
      else refused _NOT_AN_UPLOAD "Choose an upload-capable resource action."
  | Some action => if negb (hashable action) then Raise unhashable else refused _NOT_AN_UPLOAD "Choose an upload-capable resource action."
  | None => refused _NOT_AN_UPLOAD "Choose an upload-capable resource action."
  end.
(** The method of the resource service a payload selects; a payload that
    repeats a named argument is a [TypeError] of the call. *)
Definition filestore_call (action : string) (payload : pydict) (policy : option MutationPolicy) : result service_call :=
  let key := if bool_decide (action = "resource_create") then "package_id" else "id" in
  match dict_get key payload with
  | Some (PyStr id) =>
      let fields := without key payload in
      if bool_decide (is_Some (dict_get "policy" fields)) then Raise (err TypeError (action +:+ "() got multiple values for keyword argument 'policy'"))
      else if bool_decide (action = "resource_create") then resource_create (PyStr id) fields policy
      else if bool_decide (action = "resource_update") then resource_update (PyStr id) fields policy
      else resource_patch (PyStr id) fields policy
  | _ => Raise (err TypeError ("Filestore " +:+ action +:+ " requires " +:+ (if bool_decide (key = "id") then "an id" else "a package_id") +:+ " string."))
  end.
Definition filestore_upload_with (dispatch : CatalogOperationRequest → CatalogOperationGuard W → ActionEntry → list UploadPart →
      K (ResultEnvelope CKANResultItem)) (operation : CatalogOperationRequest) (guard : CatalogOperationGuard W)
    (upload : option (upload_source W)) : K (ResultEnvelope CKANResultItem) :=
  on_inner (on_world (cg_require_allowed guard));;
  '(action, source, payload) ← lift_res (_upload_call operation upload);
  call ← lift_res (filestore_call action payload (cor_mutation_policy operation));
  r ← resource_mutation_with dispatch (call_action call) (call_params call) (cor_mutation_policy operation) (Some source);
  mret (mr_result r).
Definition upload_and_resource_file_replacement := filestore_upload_with (ck_dispatch self).
Definition upload_and_resource_file_replacement_async := filestore_upload_with (ck_dispatch_async self).
End execution.
