(* ===== verification/CkanProbes.v ===== *)
(** * CKAN capability probes

    [connectors/catalog/ckan/probes.py] and the declared profile of
    [clients.py]: the deployment is asked for its status once per window, and
    the answer is the evidence of every optional operation.  The runner is a
    probe of the capability cache of [Capability].

    The state is the snapshot and what was last advised; a call holds the lock
    of the snapshot while it reads the status, so calls are whole steps.  The
    asynchronous runner takes the same steps with an awaited call. *)
From Stdlib Require Import QArith ZArith Ascii.
From stdpp Require Import strings gmap.
From S2P Require Import Prelude PyVal Regex Redaction Policies Errors Transport Resilience Urls Json JsonText Ids Profiles Capability Projection Records Events Clients Targets ByteSource Ckan CkanClient.
Import Deadline.
Local Close Scope Q_scope.
Local Open Scope Z_scope.
Local Open Scope py_scope.

(** ** The declared profile *)

(** The operations of [ckan-2.11.json]: identifier, authentication, mutation
    and capability class *)
Definition DECLARED_OPERATIONS : list (string * AuthClass * MutationClass * CapabilityClass) :=
  [("ckan/action-api-v3.discovery-help-and-status", AuthPublic, ClassRead, CapCore);
   ("ckan/action-api-v3.dataset-list-show-search", AuthPublic, ClassRead, CapCore);
   ("ckan/action-api-v3.dataset-create-update-patch-delete-purge", AuthAuthenticated, ClassDelete, CapAuthenticated);
   ("ckan/action-api-v3.dataset-collaborators", AuthAuthenticated, ClassUpdate, CapOptional);
   ("ckan/action-api-v3.resource-list-show-create-update-patch-delete-upload", AuthAuthenticated, ClassDelete, CapAuthenticated);
   ("ckan/action-api-v3.organization-list-show-search", AuthPublic, ClassRead, CapCore);
   ("ckan/action-api-v3.organization-create-update-delete-members", AuthPrivileged, ClassAdmin, CapAdmin);
   ("ckan/action-api-v3.group-list-show-search", AuthPublic, ClassRead, CapCore);
   ("ckan/action-api-v3.group-create-update-delete-members", AuthPrivileged, ClassAdmin, CapAdmin);
   ("ckan/action-api-v3.user-list-show", AuthPublic, ClassRead, CapCore);
   ("ckan/action-api-v3.user-create-update-delete-token-management", AuthPrivileged, ClassAdmin, CapAdmin);
   ("ckan/action-api-v3.tags-vocabularies-licenses-list-show", AuthPublic, ClassRead, CapCore);
   ("ckan/action-api-v3.tags-vocabularies-licenses-create-update-delete", AuthAuthenticated, ClassUpdate, CapAuthenticated);
   ("ckan/action-api-v3.relationships-follows", AuthAuthenticated, ClassUpdate, CapCore);
   ("ckan/action-api-v3.activity", AuthAuthenticated, ClassRead, CapOptional);
   ("ckan/action-api-v3.resource-views", AuthAuthenticated, ClassUpdate, CapOptional);
   ("ckan/datastore-extension.query-and-record-crud", AuthAuthenticated, ClassUpdate, CapOptional);
   ("ckan/datastore-extension.sql-search", AuthAuthenticated, ClassRead, CapOptional);
   ("ckan/filestore.upload-and-resource-file-replacement", AuthAuthenticated, ClassUpdate, CapOptional);
   ("ckan/action-api-v3.jobs-and-task-status", AuthAuthenticated, ClassUpdate, CapCore);
   ("ckan/action-api-v3.config-options", AuthPrivileged, ClassAdmin, CapAdmin);
   ("ckan/plugin-provided-action-and-extension-probes", AuthPublic, ClassRead, CapOptional)].

Definition is_read (m : MutationClass) : bool := match m with ClassRead => true | _ => false end.
Definition declared_operation (item : string * AuthClass * MutationClass * CapabilityClass) : result OperationSpec :=
  let '(id, auth, mutation, capability) := item in
  operation_id ← _operation_id_from id;
  make_operation_spec {|
    spec_id := operation_id; tier := Native; request_type := "ActionAPIRequest"; response_type := "ActionAPIResult";
    auth_class := auth; mutation_class := mutation;
    idempotency_class := if is_read mutation then IdemSafe else IdemConditional;
    concurrency_requirement := if is_read mutation then ConcNone else ConcOptional;
    op_atomicity := if is_read mutation then AtomNone else AtomSingleResource; capability_class := capability |}.

Definition PINNED_VERSION : string := "2.11.5".
Definition declared_ckan_profile `{IpLiterals} : result DeclaredCapabilityProfile :=
  specs ← map_res declared_operation DECLARED_OPERATIONS;
  make_declared_profile {|
    profile_version := PINNED_VERSION; profile_schema_version := "1.0"; platform_api_version := "Action API v3";
    official_source_uri := "https://docs.ckan.org/en/2.11/api/"; source_accessed_at := (2026, 8, 15);
    fixture_fingerprint := "6221a6c535a396d4dac0fa6a115bea5a19677d371c72ad8d0ee7eeb9f8e02797";
    operations := foldl (λ (acc : gmap OperationId OperationSpec) spec, <[spec_id spec := spec]> acc) ∅ specs |}.

(** ** Operations and plugins *)

Definition ckan_operation (service method : string) : OperationId :=
  {| op_platform := "ckan"; op_service := service; op_method := method |}.
Definition DATASTORE_CRUD_OPERATION_ID : OperationId := ckan_operation "datastore-extension" "query-and-record-crud".
Definition SQL_SEARCH_OPERATION_ID : OperationId := ckan_operation "datastore-extension" "sql-search".
Definition COLLABORATORS_OPERATION_ID : OperationId := ckan_operation "action-api-v3" "dataset-collaborators".
Definition ACTIVITY_OPERATION_ID : OperationId := ckan_operation "action-api-v3" "activity".
Definition RESOURCE_VIEWS_OPERATION_ID : OperationId := ckan_operation "action-api-v3" "resource-views".
Definition EXTENSION_PROBES_OPERATION_ID : OperationId := ckan_operation "native" "plugin-provided-action-and-extension-probes".

Definition _GATE_CONFIG_OPERATION_IDS : list OperationId := [SQL_SEARCH_OPERATION_ID; COLLABORATORS_OPERATION_ID].
Definition _VIEW_PLUGINS : list string := ["datatables_view"; "image_view"; "text_view"; "webpage_view"].
Definition _PLUGIN_OPERATION_TABLE : list (string * gset OperationId) :=
  [("datastore", {[DATASTORE_CRUD_OPERATION_ID]}); ("activity", {[ACTIVITY_OPERATION_ID]})] ++
  ((λ name, (name, {[RESOURCE_VIEWS_OPERATION_ID]})) <$> _VIEW_PLUGINS).
Definition _PLUGIN_MAPPED_OPERATION_IDS : gset OperationId := ⋃ (snd <$> _PLUGIN_OPERATION_TABLE).
Definition _PARENT_PLUGIN_REQUIREMENTS : list (OperationId * string) := [(SQL_SEARCH_OPERATION_ID, "datastore")].

Definition map_extensions_to_operations (extensions : list string) : gset OperationId :=
  ⋃ ((λ name, default ∅ (dict_get (strip name) _PLUGIN_OPERATION_TABLE)) <$> extensions).

(** ** The position of a version *)

Inductive LineState := PINNED_LINE | IN_LINE_DRIFT | FOREIGN_LINE | UNVERIFIED.
#[global] Instance LineState_eq_dec : EqDecision LineState.
Proof. solve_decision. Defined.
Definition line_value (s : LineState) : string :=
  match s with
  | PINNED_LINE => "pinned-line" | IN_LINE_DRIFT => "in-line-drift" | FOREIGN_LINE => "foreign-line"
  | UNVERIFIED => "unverified"
  end.

(** [\s*(\d+)\.(\d+)\.(\d+)]; the groups are the three numbers. *)
Definition digits_group (n : nat) : re := RGroup n (plus (RSet is_digit)).
Definition _VERSION_PATTERN : re :=
  RSeq (RStar (RSet is_space)) (RSeq (digits_group 1) (RSeq (lit "."%char) (RSeq (digits_group 2)
    (RSeq (lit "."%char) (digits_group 3))))).
(** [int] of decimal digits: the interpreter refuses more than 4300. *)
Definition _MAX_STR_DIGITS : nat := 4300.
Definition int_of_digits (l : list ascii) : result Z :=
  raise_if (_MAX_STR_DIGITS <? length l)%nat
    (err ValueError "Exceeds the limit (4300 digits) for integer string conversion");;
  Ok (default 0 (int_of_text (String.string_of_list_ascii l))).
(** The numbers of a version, or [None] *)
Definition version_numbers (text : string) : result (option (Z * Z * Z)) :=
  match match_at _VERSION_PATTERN (start (String.list_ascii_of_string text)) with
  | None => Ok None
  | Some (_, groups) =>
      major ← int_of_digits (group 1 groups); minor ← int_of_digits (group 2 groups);
      patch ← int_of_digits (group 3 groups); Ok (Some (major, minor, patch))
  end.

Definition _pinned_version : result (Z * Z * Z) :=
  numbers ← version_numbers PINNED_VERSION;
  match numbers with
  | Some v => Ok v
  | None => Raise (err ValueError "The pinned CKAN profile version is not a comparable semantic version.")
  end.
Definition version_line_state (version : option string) : result LineState :=
  match version with
  | None => Ok UNVERIFIED
  | Some text =>
      match match_at _VERSION_PATTERN (start (String.list_ascii_of_string text)) with
      | None => Ok UNVERIFIED
      | Some (_, groups) =>
          pinned ← _pinned_version;
          major ← int_of_digits (group 1 groups); minor ← int_of_digits (group 2 groups);
          patch ← int_of_digits (group 3 groups);
          Ok (if negb (bool_decide ((major, minor) = pinned.1)) then FOREIGN_LINE
              else if bool_decide ((major, minor, patch) = pinned) then PINNED_LINE else IN_LINE_DRIFT)
      end
  end.

(** ** Classification *)

Definition _status_extensions (payload : pyval) : option (list string) :=
  match payload with
  | PyDict kvs | PyProxy kvs =>
      match sequence_items (lookup_key "extensions" kvs) with
      | Some items => Some (flat_map (λ entry, match entry with PyStr s => [s] | _ => [] end) items)
      | None => None
      end
  | _ => None
  end.

Definition _classify_error_payload (o : OperationId) (type : string) (message : option pyval) : ProbeResponseClass :=
  let kind := str_lower (strip type) in
  let lowered := str_lower (text_of message) in
  if bool_decide (kind = "not found error") then
    if bool_decide (o ∈ _GATE_CONFIG_OPERATION_IDS) then RespDeploymentDisabled else RespUnavailable
  else if bool_decide (kind = "authorization error") then
    if existsb (λ part, str_contains part lowered) _FORBIDDEN_MESSAGE_MARKERS then RespForbidden else RespUnauthorized
  else RespUnavailable.

(** [payload.get("__type")] when it is a text, and [payload.get("message")] *)
Definition error_marker (payload : pyval) : option (string * option pyval) :=
  match payload with
  | PyDict kvs | PyProxy kvs =>
      match lookup_key "__type" kvs with
      | Some (PyStr type) => Some (type, lookup_key "message" kvs)
      | _ => None
      end
  | _ => None
  end.
Definition classify_extensions (o : OperationId) (extensions : list string) : ProbeResponseClass :=
  if bool_decide (o ∈ _GATE_CONFIG_OPERATION_IDS) then
    match List.find (λ p, bool_decide (p.1 = o)) _PARENT_PLUGIN_REQUIREMENTS with
    | Some (_, parent) => if bool_decide (parent ∈ extensions) then RespDeploymentDisabled else RespUnsupported
    | None => RespDeploymentDisabled
    end
  else if bool_decide (o = EXTENSION_PROBES_OPERATION_ID) then
    if nonempty_list extensions then RespSuccess else RespUnsupported
  else if bool_decide (o ∈ _PLUGIN_MAPPED_OPERATION_IDS) && negb (bool_decide (o ∈ map_extensions_to_operations extensions))
       then RespUnsupported else RespSuccess.
Definition classify_probe_response (o : OperationId) (payload : pyval) : ProbeResponseClass :=
  match error_marker payload with
  | Some (type, message) => _classify_error_payload o type message
  | None => match _status_extensions payload with
            | None => RespSuccess
            | Some extensions => classify_extensions o extensions
            end
  end.

(** ** Snapshots *)

Record _Snapshot := { sn_payload : pyval; sn_fetched_at : Q; sn_line_state : LineState; sn_version_present : bool }.

Definition authorization_marker : pyval := str_dict [("__type", PyStr "Authorization Error")].
Definition forbidden_marker : pyval := str_dict [("__type", PyStr "Authorization Error"); ("message", PyStr "not authorized")].
Definition _failure_marker (e : exn) : pyval :=
  if is_subclass (exn_kind e) ForbiddenError then forbidden_marker
  else if is_subclass (exn_kind e) UnauthenticatedError then authorization_marker
  else str_dict [("__type", PyStr "Unknown Error")].
Definition failed_snapshot (marker : pyval) (fetched_at : Q) : _Snapshot :=
  {| sn_payload := marker; sn_fetched_at := fetched_at; sn_line_state := UNVERIFIED; sn_version_present := false |}.

Definition _STATUS_OPERATION : string := "ckan/action-api-v3.discovery-help-and-status".
Definition status_marker (status : Z) : pyval :=
  if status =? 401 then authorization_marker else if status =? 403 then forbidden_marker
  else str_dict [("__type", PyStr "unknown error")].
(** [except CatalogError] leaves a marker; other errors propagate. *)
Definition _decode_snapshot `{JsonBytes} (response : RuntimeResponse) (fetched_at : Q) : result _Snapshot :=
  if negb ((200 <=? status_code response) && (status_code response <? 300)) then
    Ok (failed_snapshot (status_marker (status_code response)) fetched_at)
  else
    match parse_action_envelope (default PyNone (json_loads (body response))) _STATUS_OPERATION "ckan" with
    | Raise e =>
        if is_subclass (exn_kind e) CatalogError then Ok (failed_snapshot (_failure_marker e) fetched_at) else Raise e
    | Ok result =>
        let version := match result with PyDict kvs | PyProxy kvs => default PyNone (lookup_key "ckan_version" kvs) | _ => PyNone end in
        line ← version_line_state (match version with PyStr s => Some s | _ => None end);
        Ok {| sn_payload := result; sn_fetched_at := fetched_at; sn_line_state := line;
              sn_version_present := match version with PyNone => false | _ => true end |}
    end.

(** ** The runner *)

Record CKANProbeRunner (W : Type) := {
  rn_origin : string; rn_has_reader : bool; rn_ttl_seconds : Q; rn_emitter : option (EventEmitter W)
}.
Arguments rn_origin {W}.
Arguments rn_has_reader {W}.
Arguments rn_ttl_seconds {W}.
Arguments rn_emitter {W}.

(** [StatusSnapshotCache.__init__] and the initialisers of the runners *)
Definition make_probe_runner {W} `{IpLiterals, IpAddresses, !Targets.Resolver W, PathText} (origin : string) (has_reader : bool)
    (emitter : option (EventEmitter W)) (ttl : pyfloat) : M W (CKANProbeRunner W) :=
  let bad_ttl := err ValueError "Snapshot TTL must be a finite non-negative number." in
  ttl ← lift_res (match ttl with FFin q => if Qltb q 0%Q then Raise bad_ttl else Ok q | _ => Raise bad_ttl end);
  origin ← normalize_origin origin;
  mret {| rn_origin := origin; rn_has_reader := has_reader; rn_ttl_seconds := ttl; rn_emitter := emitter |}.

(** What a runner did: it read the status, it kept a snapshot, it advised. *)
Inductive probe_event := StatusRead (r : RuntimeRequest) | SnapshotKept (t : Q) | LineAdvised (e : EventEnvelope).

(** [_snapshot], [_last_state] and [_last_advised_at]; [None] for no time is
    minus infinity. *)
Record prober (W : Type) := Prober {
  pr_snapshot : option _Snapshot; pr_last_state : option LineState; pr_last_advised_at : option Q;
  pr_log : list probe_event; pr_world : W
}.
Arguments Prober {W}.
Arguments pr_snapshot {W}.
Arguments pr_last_state {W}.
Arguments pr_last_advised_at {W}.
Arguments pr_log {W}.
Arguments pr_world {W}.

#[global] Instance prober_clocked {W} `{!Clocked W} : Clocked (prober W) := λ s,
  let '(t, w) := clock (pr_world s) in
  (t, Prober (pr_snapshot s) (pr_last_state s) (pr_last_advised_at s) (pr_log s) w).

Section runner.
Context {W : Type} `{!CatalogEnv W, ips : IpLiterals, JsonBytes}.
Variable self : CKANProbeRunner W.
Abbreviation P := (M (prober W)).

Definition on_prober {A} (m : M W A) : P A := λ s,
  let '(r, w) := m (pr_world s) in (r, Prober (pr_snapshot s) (pr_last_state s) (pr_last_advised_at s) (pr_log s) w).
Definition note_probe (e : probe_event) : P unit := modify (λ s,
  Prober (pr_snapshot s) (pr_last_state s) (pr_last_advised_at s) (pr_log s ++ [e]) (pr_world s)).
Definition keep_snapshot (snapshot : _Snapshot) : P unit := modify (λ s,
  Prober (Some snapshot) (pr_last_state s) (pr_last_advised_at s) (pr_log s ++ [SnapshotKept (sn_fetched_at snapshot)]) (pr_world s)).
Definition set_last_state (state : LineState) : P unit := modify (λ s,
  Prober (pr_snapshot s) (Some state) (pr_last_advised_at s) (pr_log s) (pr_world s)).
Definition set_last_advised (t : Q) : P unit := modify (λ s,
  Prober (pr_snapshot s) (pr_last_state s) (Some t) (pr_log s) (pr_world s)).

Definition status_url : string := rn_origin self +:+ _ACTION_PATH +:+ "status_show".
Definition _status_request : result RuntimeRequest :=
  make_runtime_request "POST" status_url [("Content-Type", "application/json")] (Some "{}") [] FOLLOW None None.

(** The snapshot that is still fresh *)
Definition fresh_snapshot : P (option _Snapshot) :=
  current ← read pr_snapshot;
  match current with
  | None => mret None
  | Some snapshot => now ← clock_now; mret (if Qltb (now - sn_fetched_at snapshot)%Q (rn_ttl_seconds self) then Some snapshot else None)
  end.
Definition snapshot_with (send : RuntimeRequest → M W RuntimeResponse) : P _Snapshot :=
  current ← fresh_snapshot;
  match current with
  | Some snapshot => mret snapshot
  | None =>
      request ← lift_res _status_request;
      note_probe (StatusRead request);;
      response ← on_prober (send request);
      now ← clock_now;
      snapshot ← lift_res (_decode_snapshot response now);
      keep_snapshot snapshot;;
      mret snapshot
  end.
Definition snapshot : P _Snapshot :=
  if rn_has_reader self then snapshot_with transport_send
  else throw (err TypeError "Synchronous snapshot refresh requires a transport reader.").
Definition snapshot_async : (RuntimeRequest → M W RuntimeResponse) → P _Snapshot := snapshot_with.

(** *** Advisories *)

Definition maybe_emit_line_advisory (emitter : EventEmitter W) (o : OperationId) (state : LineState) (version_present : bool)
  : P bool :=
  if bool_decide (state = PINNED_LINE) then mret false
  else
    e ← on_prober (emitter_record emitter (operation_str o) "ckan" "line_drift_advisory"
      (Some [("observed_version_present", PyBool version_present); ("line_state", PyStr (line_value state))]) None);
    note_probe (LineAdvised e);;
    mret true.

Definition recently_advised (last : option Q) (now : Q) : bool :=
  match last with Some t => Qltb (now - t)%Q (rn_ttl_seconds self) | None => false end.
Definition _advise (o : OperationId) (snapshot : _Snapshot) : P unit :=
  match rn_emitter self with
  | None => mret tt
  | Some emitter =>
      let state := sn_line_state snapshot in
      previous ← read pr_last_state;
      set_last_state state;;
      if bool_decide (state = PINNED_LINE) then mret tt
      else
        now ← clock_now;
        last ← read pr_last_advised_at;
        if bool_decide (previous = Some state) && recently_advised last now then mret tt
        else set_last_advised now;;
             maybe_emit_line_advisory emitter o state (sn_version_present snapshot);;
             mret tt
  end.

(** *** Evidence *)

Definition provenance_of (state : LineState) : EvidenceProvenance :=
  match state with FOREIGN_LINE | UNVERIFIED => Unverified | _ => VerifiedLine end.
Definition snapshot_evidence (snapshot : _Snapshot) (o : OperationId) (deployment_url : string) : result ProbeEvidence :=
  make_probe_evidence {|
    pe_operation_id := o; pe_deployment_url := deployment_url; pe_credential := CredAnonymous; pe_role := RoleAnonymous;
    pe_response := classify_probe_response o (sn_payload snapshot); pe_provenance := provenance_of (sn_line_state snapshot);
    pe_credential_scope := None |}.
Definition evidence_from (snapshot : _Snapshot) (o : OperationId) (deployment_url : string) : P ProbeEvidence :=
  _advise o snapshot;;
  lift_res (snapshot_evidence snapshot o deployment_url).

Definition ckan_probe (o : OperationId) : P ProbeEvidence :=
  current ← snapshot;
  evidence_from current o status_url.
Definition ckan_probe_async (o : OperationId) : P ProbeEvidence :=
  current ← snapshot_async transport_send;
  evidence_from current o status_url.

(** The runner as the probe of a capability cache *)
#[export] Instance runner_probes : ProbeEnv (prober W) := {|
  env_probe o s := let '(r, s') := ckan_probe o s in (match r with Ok e => Ok (Evidence e) | Raise e => Raise e end, s');
  env_loop_closed _ _ := false |}.
End runner.
