(* ===== verification/CkanProbesProofs.v ===== *)
(** * What the CKAN probes promise

    The evidence of a runner is accepted by the capability cache it probes for,
    and opens exactly the operations whose plugins the deployment lists; the
    status is read once per window; a status that is no envelope escapes the
    classification. *)
From Stdlib Require Import QArith Lqa ZArith Ascii Lia.
From stdpp Require Import strings gmap.
From S2P Require Import Prelude PyVal Regex Redaction Policies Errors Transport Resilience Urls Json JsonText Ids Profiles Capability CapabilityProofs Projection Records Events Clients Targets ByteSource Ckan CkanClient CkanProbes.
Import Deadline.
Local Close Scope Q_scope.
Local Open Scope Z_scope.
Local Open Scope py_scope.

(** ** The URL of the status *)

Lemma forallb_app p a b : string_forallb p (a +:+ b) = string_forallb p a && string_forallb p b.
Proof. induction a as [|c a IH]; [done|].
  change (p c && string_forallb p (a +:+ b) = p c && string_forallb p a && string_forallb p b). by rewrite IH, andb_assoc.
Qed.

Lemma break_app p a b :
  string_forallb (λ c, negb (p c)) a = true → match b with String c _ => p c = true | EmptyString => True end →
  break p (a +:+ b) = (a, b).
Proof.
  intros Ha Hb. induction a as [|c a IH].
  - destruct b as [|c b]; [done|]. change ("" +:+ String c b) with (String c b). cbn [break]. by rewrite Hb.
  - change (String c a +:+ b) with (String c (a +:+ b)). cbn [break]. apply andb_true_iff in Ha as [Hc Ha]. apply negb_true_iff in Hc. rewrite Hc. by rewrite (IH Ha).
Qed.

Definition plain_net_char (c : ascii) : bool := negb (is_unsafe c || ends_netloc c || bool_decide (c ∈ ["@"; "["; "]"]%char)).
Definition plain_path_char (c : ascii) : bool := negb (is_unsafe c || bool_decide (c ∈ ["?"; "#"]%char)).
(** The host and the path of an HTTPS origin as [normalize_origin] leaves it,
    without an IPv6 literal *)
Definition plain_origin (net base : string) : bool :=
  str_nonempty net && string_forallb plain_net_char net && bool_decide (str_lower net = net) &&
  string_forallb plain_path_char base && (negb (str_nonempty base) || starts_with "/" base).

Lemma net_has_no net c : string_forallb plain_net_char net = true → c ∈ ["@"; "["; "]"]%char → has_char c net = false.
Proof.
  intros Hn Hc. unfold has_char. apply negb_false_iff. eapply forallb_impl; [|exact Hn]. intros x Hx.
  apply negb_true_iff, bool_decide_eq_false. intros ->. unfold plain_net_char in Hx.
  rewrite (bool_decide_true (c ∈ _)) in Hx by done. by rewrite orb_true_r in Hx.
Qed.

Lemma urlsplit_https `{IpLiterals} net path :
  string_forallb plain_net_char net = true → string_forallb plain_path_char path = true →
  match path with String c _ => c = "/"%char | EmptyString => True end →
  urlsplit ("https://" +:+ net +:+ path) =
    Ok {| scheme := "https"; netloc := net; url_path := path; url_query := ""; url_fragment := "" |}.
Proof.
  intros Hn Hp Hs. unfold urlsplit.
  change (str_drop_while is_c0_or_space ("https://" +:+ net +:+ path)) with ("https://" +:+ net +:+ path).
  rewrite filter_all.
  2:{ change (string_forallb (λ c, negb (is_unsafe c)) (net +:+ path) = true). rewrite forallb_app. apply andb_true_iff. split.
      - eapply forallb_impl; [|exact Hn]. intros c Hc. unfold plain_net_char in Hc. by destruct (is_unsafe c).
      - eapply forallb_impl; [|exact Hp]. intros c Hc. unfold plain_path_char in Hc. by destruct (is_unsafe c). }
  change (split_scheme ("https://" +:+ net +:+ path)) with ("https", "//" +:+ net +:+ path). cbn match beta.
  change (split_netloc ("//" +:+ net +:+ path)) with (break ends_netloc (net +:+ path)).
  rewrite break_app.
  2:{ eapply forallb_impl; [|exact Hn]. intros c Hc. unfold plain_net_char in Hc. destruct (is_unsafe c), (ends_netloc c); done. }
  2:{ destruct path as [|c path]; [done|]. by subst c. }
  rewrite !(net_has_no net) by (done || set_solver). cbn [Bool.eqb negb raise_if andb mbind result_bind].
  assert (Hno : ∀ c, c ∈ ["?"; "#"]%char → partition c path = (path, None)).
  { intros c Hc. unfold partition. rewrite break_all; [done|]. eapply forallb_impl; [|exact Hp]. intros x Hx.
    apply negb_true_iff, bool_decide_eq_false. intros ->. unfold plain_path_char in Hx.
    rewrite (bool_decide_true (c ∈ _)) in Hx by done. by rewrite orb_true_r in Hx. }
  rewrite Hno by set_solver. rewrite Hno by set_solver. done.
Qed.

Lemma starts_with_slash c b : negb (str_nonempty (String c b)) || starts_with "/" (String c b) = true → c = "/"%char.
Proof. change (negb (str_nonempty (String c b))) with false. unfold starts_with, String.prefix. by destruct (ascii_dec "/" c). Qed.

Lemma slash_kept b x : (str_nonempty (String "/" b +:+ x) && negb (starts_with "/" (String "/" b +:+ x))) = false.
Proof. change (String "/" b +:+ x) with (String "/" (b +:+ x)). unfold starts_with. cbn. by destruct (b +:+ x). Qed.

Section url.
Context `{ips : IpLiterals}.
Variables net base : string.
Hypothesis Horigin : plain_origin net base = true.
Let url : string := "https://" +:+ net +:+ base +:+ _ACTION_PATH +:+ "status_show".

Lemma status_url_split :
  urlsplit url = Ok {| scheme := "https"; netloc := net; url_path := base +:+ _ACTION_PATH +:+ "status_show";
                       url_query := ""; url_fragment := "" |}.
Proof.
  unfold plain_origin in Horigin. rewrite !andb_true_iff in Horigin. destruct Horigin as ((((_ & Hn) & _) & Hp) & Hs).
  unfold url. apply urlsplit_https; [done| |].
  - rewrite forallb_app. apply andb_true_iff. split; [done|]. vm_compute. reflexivity.
  - destruct base as [|c b]; [done|]. by apply starts_with_slash in Hs as ->.
Qed.

Lemma net_plain : str_nonempty net = true ∧ has_char "@" net = false ∧ str_lower net = net.
Proof.
  unfold plain_origin in Horigin. rewrite !andb_true_iff in Horigin. destruct Horigin as ((((H1 & Hn) & H2) & _) & _).
  split_and!; [done|apply net_has_no; [done|set_solver]|by apply bool_decide_eq_true in H2].
Qed.

Lemma status_userinfo p : netloc p = net → username p = None ∧ password p = None.
Proof.
  destruct net_plain as (_ & Ha & _). intros E. unfold username, password. rewrite E.
  apply rpartition_None in Ha. by destruct (rpartition "@" net) as [[u|] ?].
Qed.

Lemma status_url_sanitized : _sanitize_deployment_url url = Ok url.
Proof.
  unfold _sanitize_deployment_url. rewrite status_url_split. cbn [mbind result_bind].
  destruct (status_userinfo _ (eq_refl : netloc {| scheme := "https"; netloc := net;
    url_path := base +:+ _ACTION_PATH +:+ "status_show"; url_query := ""; url_fragment := "" |} = net)) as [Hu Hp].
  rewrite Hu, Hp. destruct net_plain as (H1 & _ & _). cbn [scheme netloc url_path]. rewrite guard_bind by by rewrite H1.
  unfold urlunsplit_origin. f_equal.
  unfold plain_origin in Horigin. rewrite !andb_true_iff in Horigin. destruct Horigin as (_ & Hs). unfold url.
  destruct base as [|c b]; [done|]. apply starts_with_slash in Hs as ->. rewrite (slash_kept b). reflexivity.
Qed.

Lemma status_url_origin : _origin_from_evidence url = Ok ("https://" +:+ net).
Proof.
  unfold _origin_from_evidence. rewrite status_url_split. cbn [mbind result_bind]. unfold sanitized_origin.
  destruct (status_userinfo _ (eq_refl : netloc {| scheme := "https"; netloc := net;
    url_path := base +:+ _ACTION_PATH +:+ "status_show"; url_query := ""; url_fragment := "" |} = net)) as [Hu Hp].
  rewrite Hu, Hp. destruct net_plain as (H1 & _ & H2). cbn [scheme netloc url_query url_fragment].
  rewrite guard_bind by by rewrite H1. rewrite H2. unfold urlunsplit_origin. cbn. by rewrite string_app_empty_r.
Qed.
End url.

(** ** Plugins *)

(** The plugins that provide an operation, when plugins do *)
Definition plugins_of (o : OperationId) : option (list string) :=
  if bool_decide (o = DATASTORE_CRUD_OPERATION_ID) then Some ["datastore"]
  else if bool_decide (o = ACTIVITY_OPERATION_ID) then Some ["activity"]
  else if bool_decide (o = RESOURCE_VIEWS_OPERATION_ID) then Some _VIEW_PLUGINS else None.

Lemma plugins_of_iff o ps : plugins_of o = Some ps ↔
  (o = DATASTORE_CRUD_OPERATION_ID ∧ ps = ["datastore"]) ∨ (o = ACTIVITY_OPERATION_ID ∧ ps = ["activity"]) ∨
  (o = RESOURCE_VIEWS_OPERATION_ID ∧ ps = _VIEW_PLUGINS).
Proof.
  unfold plugins_of. split.
  - repeat case_bool_decide; intros [= <-]; auto.
  - by intros [[-> ->]|[[-> ->]|[-> ->]]].
Qed.

(** The row of the table for a plugin *)
Lemma plugin_row name : dict_get name _PLUGIN_OPERATION_TABLE =
  if bool_decide (name = "datastore") then Some {[DATASTORE_CRUD_OPERATION_ID]}
  else if bool_decide (name = "activity") then Some {[ACTIVITY_OPERATION_ID]}
  else if bool_decide (name ∈ _VIEW_PLUGINS) then Some {[RESOURCE_VIEWS_OPERATION_ID]} else None.
Proof.
  destruct (decide (name = "datastore")) as [->|H1]; [reflexivity|].
  destruct (decide (name = "activity")) as [->|H2]; [reflexivity|].
  rewrite (bool_decide_false _ H1), (bool_decide_false _ H2).
  destruct (decide (name ∈ _VIEW_PLUGINS)) as [H3|H3].
  - rewrite (bool_decide_true _ H3). unfold _VIEW_PLUGINS in H3. rewrite !elem_of_cons, elem_of_nil in H3.
    by destruct H3 as [->|[->|[->|[->|[]]]]].
  - rewrite (bool_decide_false _ H3). apply dict_get_None. unfold _PLUGIN_OPERATION_TABLE. rewrite fmap_app.
    intros [Hin|Hin]%elem_of_app; [set_solver|]. destruct H3. by rewrite <- list_fmap_compose, list_fmap_id in Hin.
Qed.
Lemma view_plugins_apart : "datastore" ∉ _VIEW_PLUGINS ∧ "activity" ∉ _VIEW_PLUGINS.
Proof. split; apply (bool_decide_unpack _); vm_compute; exact I. Qed.
Lemma plugin_table name o :
  o ∈ default ∅ (dict_get name _PLUGIN_OPERATION_TABLE) ↔ ∃ ps, plugins_of o = Some ps ∧ name ∈ ps.
Proof.
  setoid_rewrite plugins_of_iff. rewrite plugin_row. destruct view_plugins_apart as [Hd Ha].
  assert (Hone : ∀ n, name ∈ [n] ↔ name = n) by (intros n; apply list_elem_of_singleton).
  repeat case_bool_decide; cbn [default from_option id]; rewrite ?elem_of_singleton, ?elem_of_empty; split.
  - intros ->. exists ["datastore"]. rewrite Hone. auto.
  - intros (ps & [[-> ->]|[[-> ->]|[-> ->]]] & Hin); [done|apply Hone in Hin; congruence|by subst name].
  - intros ->. exists ["activity"]. rewrite Hone. auto.
  - intros (ps & [[-> ->]|[[-> ->]|[-> ->]]] & Hin); [apply Hone in Hin; congruence|done|by subst name].
  - intros ->. exists _VIEW_PLUGINS. auto.
  - intros (ps & [[-> ->]|[[-> ->]|[-> ->]]] & Hin); [apply Hone in Hin; congruence..|done].
  - done.
  - intros (ps & [[-> ->]|[[-> ->]|[-> ->]]] & Hin); [apply Hone in Hin; congruence..|done].
Qed.

Lemma mapped_extensions o ext :
  o ∈ map_extensions_to_operations ext ↔ ∃ ps, plugins_of o = Some ps ∧ ∃ name, name ∈ ext ∧ strip name ∈ ps.
Proof.
  unfold map_extensions_to_operations. rewrite elem_of_union_list. split.
  - intros (X & (name & -> & Hn)%list_elem_of_fmap & Ho). apply plugin_table in Ho as (ps & ? & ?). eauto 6.
  - intros (ps & Hps & name & Hn & Hin). exists (default ∅ (dict_get (strip name) _PLUGIN_OPERATION_TABLE)).
    split; [apply list_elem_of_fmap; eauto|]. apply plugin_table. eauto.
Qed.

Lemma dict_get_in {V} k (v : V) d : NoDup d.*1 → (k, v) ∈ d → dict_get k d = Some v.
Proof.
  induction d as [|[k' v'] d IH]; [by intros _ ?%elem_of_nil|]. cbn. intros [Hk Hd]%NoDup_cons [[= -> ->]|Hin]%elem_of_cons.
  - by rewrite bool_decide_true.
  - rewrite bool_decide_false; [by apply IH|]. intros ->. destruct Hk. by apply (list_elem_of_fmap_2 fst) in Hin.
Qed.
Lemma mapped_operations o : o ∈ _PLUGIN_MAPPED_OPERATION_IDS ↔ is_Some (plugins_of o).
Proof.
  unfold _PLUGIN_MAPPED_OPERATION_IDS. rewrite elem_of_union_list. split.
  - intros (X & ([name X'] & -> & Hrow)%list_elem_of_fmap & Ho). cbn in Ho.
    destruct (proj1 (plugin_table name o)) as (ps & -> & _); [|by eexists].
    assert (Hd : NoDup (_PLUGIN_OPERATION_TABLE.*1)) by (apply (bool_decide_unpack _); vm_compute; exact I).
    by rewrite (dict_get_in _ _ _ Hd Hrow).
  - intros [ps Hps]. assert (∃ name, name ∈ ps) as [name Hn].
    { apply plugins_of_iff in Hps as [[_ ->]|[[_ ->]|[_ ->]]]; eexists; by left. }
    assert (Ho : o ∈ default ∅ (dict_get name _PLUGIN_OPERATION_TABLE)) by (apply plugin_table; eauto).
    destruct (dict_get name _PLUGIN_OPERATION_TABLE) as [X|] eqn:Er; [|by apply elem_of_empty in Ho].
    exists X. split; [|done]. apply list_elem_of_fmap. exists (name, X). split; [done|]. by apply dict_get_elem.
Qed.

(** What a status has to say for an operation to be open: the ones behind a
    configuration gate never are, the ones plugins provide need one of them, and
    the probes of extensions need any extension. *)
Definition offered (o : OperationId) (extensions : list string) : Prop :=
  o ∉ _GATE_CONFIG_OPERATION_IDS ∧ (o = EXTENSION_PROBES_OPERATION_ID → extensions ≠ []) ∧
  ∀ ps, plugins_of o = Some ps → ∃ name, name ∈ extensions ∧ strip name ∈ ps.

Lemma classify_extensions_success o ext : classify_extensions o ext = RespSuccess ↔ offered o ext.
Proof.
  unfold classify_extensions, offered. case_bool_decide as Hg.
  { split; [|by intros []]. repeat case_match; discriminate. }
  case_bool_decide as He.
  { subst o. destruct ext as [|x ext]; cbn [nonempty_list].
    - split; [discriminate|]. intros (_ & H & _). by destruct H.
    - split; [|done]. intros _. by split_and!. }
  destruct (plugins_of o) as [ps|] eqn:Ep.
  - rewrite bool_decide_true by by (apply mapped_operations; rewrite Ep). cbn [andb].
    case_bool_decide as Hm; cbn [negb]; rewrite mapped_extensions in Hm.
    + split; [|done]. intros _. split_and!; [done..|]. intros ps' Hps'. destruct Hm as (ps'' & Hps & H).
      rewrite Ep in Hps. injection Hps as <-. by injection Hps' as <-.
    + split; [discriminate|]. intros (_ & _ & H). destruct Hm. exists ps. split; [done|]. by apply H.
  - rewrite bool_decide_false; [split; [|done]; intros _; by split_and!|].
    rewrite mapped_operations, Ep. by intros [].
Qed.

Lemma error_payload_refused o type message : _classify_error_payload o type message ≠ RespSuccess.
Proof. unfold _classify_error_payload. by repeat case_match. Qed.

(** What a payload says of an operation *)
Definition payload_opens (o : OperationId) (payload : pyval) : Prop :=
  error_marker payload = None ∧ ∀ ext, _status_extensions payload = Some ext → offered o ext.
Lemma classify_success o payload : classify_probe_response o payload = RespSuccess ↔ payload_opens o payload.
Proof.
  unfold classify_probe_response, payload_opens. destruct (error_marker payload) as [[type message]|].
  { split; [intros []%error_payload_refused|by intros []]. }
  destruct (_status_extensions payload) as [ext|]; [rewrite classify_extensions_success; naive_solver|naive_solver].
Qed.

(** ** Evidence and the capability cache *)

Definition cache_ok (cache : EffectiveCapabilityCache) : Prop :=
  declared_wf (_declared_profile cache) ∧ profile_wf (_baseline cache) ∧
  declared_profile (_baseline cache) = _declared_profile cache.

(** What one record of evidence does to the baseline *)
Lemma evidence_guard cache o spec e :
  cache_ok cache → operations (_declared_profile cache) !! o = Some spec → pe_operation_id e = o →
  ∃ p, _profile_from_evidence cache o e = Ok p ∧
    (gd_allowed (guard_operation p o) = true ↔ pe_response e = RespSuccess) ∧
    ∀ o', o' ≠ o → gd_allowed (guard_operation p o') = gd_allowed (guard_operation (_baseline cache) o').
Proof.
  intros (Hd & [Hdom Hkeys] & Hb) Ho He. unfold _profile_from_evidence.
  assert (Hm : evidence_by_operation (_declared_profile cache) [e] ∅ = Ok {[o := e]}).
  { cbn [evidence_by_operation]. rewrite He, guard_bind by by (apply bool_decide_eq_false; rewrite Ho).
    by rewrite guard_bind by by (apply bool_decide_eq_false; rewrite lookup_empty; intros []). }
  destruct (derive_eq _ _ _ Hd Hm) as (q & -> & Hq & _ & Hcaps). cbn [mbind result_bind].
  unfold for_operation. rewrite Hcaps, Ho. cbn [fmap option_fmap option_map mbind result_bind].
  set (c := derived_capability _ o spec).
  assert (Hspec : spec_id spec = o) by (symmetry; by apply (Hd o spec)).
  exists {| declared_profile := _declared_profile cache; capabilities := <[o := c]> (capabilities (_baseline cache)) |}.
  split_and!.
  - apply make_effective_iff. split; [done|]. split; cbn [capabilities declared_profile].
    + rewrite dom_insert_L, Hdom, Hb. apply subseteq_union_1_L, singleton_subseteq_l, elem_of_dom. by rewrite Ho.
    + intros i c' [[<- <-]|[_ Hc']]%lookup_insert_Some; [exact Hspec|by apply Hkeys].
  - unfold guard_operation. cbn [capabilities]. rewrite lookup_insert_eq. cbn [gd_allowed cap_state].
    rewrite bool_decide_eq_true. unfold c, derived_capability. cbn [cap_state]. rewrite effective_state_allowed, lookup_singleton_eq.
    split; [by intros (x & [= <-] & ?)|eauto].
  - intros o' Hne. unfold guard_operation. cbn [capabilities]. rewrite lookup_insert_ne by done. done.
Qed.

Section opens.
Context {W : Type} `{!CatalogEnv W} {ips : IpLiterals} `{JsonBytes}.
Variable self : CKANProbeRunner W.
Variable cache : EffectiveCapabilityCache.
Variables net base : string.
Hypothesis Hurl : rn_origin self = "https://" +:+ net +:+ base.
Hypothesis Hplain : plain_origin net base = true.
Hypothesis Hcache : _deployment_origin cache ∈ [None; Some ("https://" +:+ net)].

Lemma status_url_eq : status_url self = "https://" +:+ net +:+ base +:+ _ACTION_PATH +:+ "status_show".
Proof. unfold status_url. rewrite Hurl. change ("https://" +:+ net +:+ base) with ("https://" +:+ (net +:+ base)).
  assert (Happ : ∀ a b c : string, (a +:+ b) +:+ c = a +:+ b +:+ c).
  { intros a b c. induction a as [|x a IH]; [done|]. change (String x ((a +:+ b) +:+ c) = String x (a +:+ b +:+ c)). by rewrite IH. }
  by rewrite !Happ. Qed.

(** The evidence of a snapshot is made, and the cache accepts it. *)
Lemma evidence_accepted sn o :
  ∃ e, snapshot_evidence sn o (status_url self) = Ok e ∧ pe_operation_id e = o ∧
    pe_response e = classify_probe_response o (sn_payload sn) ∧ _validate_evidence cache o (Evidence e) "anonymous" = Ok e.
Proof.
  unfold snapshot_evidence, make_probe_evidence. cbn [pe_deployment_url pe_credential_scope]. rewrite status_url_eq.
  rewrite status_url_sanitized by done. eexists. split; [reflexivity|]. split_and!; [done..|].
  unfold _validate_evidence. cbn [pe_operation_id pe_deployment_url]. rewrite guard_bind by by rewrite bool_decide_true.
  unfold _validate_credential_evidence. cbn [pe_credential pe_role pe_credential_scope].
  rewrite !guard_bind by done. cbn [mbind result_bind]. rewrite status_url_origin by done. cbn [mbind result_bind].
  rewrite guard_bind; [done|].
  rewrite !elem_of_cons, elem_of_nil in Hcache. destruct Hcache as [->|[->|[]]]; [done|]. by rewrite bool_decide_true.
Qed.

(** C11: over the capability cache, the probe of an operation opens it exactly
    when the status of the deployment does: the snapshot holds no error, and if
    it lists extensions, one of the plugins of the operation is listed (any
    extension for the probes of extensions) and no configuration gate is in
    front of it; every other operation is as the cache declares it.  The
    evidence of the runner is never refused by the cache. *)
Theorem ckan_evidence_opens o spec sn (s : cap (prober W)) s1 s2 :
  cache_ok cache → operations (_declared_profile cache) !! o = Some spec →
  snapshot self (cap_world s) = (Ok sn, s1) → _advise self o sn s1 = (Ok tt, s2) →
  ∃ p s', @probe_runner _ (runner_probes self) ips cache false o "anonymous" s = (Ok p, s') ∧
    (gd_allowed (guard_operation p o) = true ↔ payload_opens o (sn_payload sn)) ∧
    ∀ o', o' ≠ o → gd_allowed (guard_operation p o') = gd_allowed (guard_operation (_baseline cache) o').
Proof.
  intros Hok Ho Hs Ha. destruct (evidence_accepted sn o) as (e & He & Hid & Hr & Hv).
  destruct (evidence_guard cache o spec e Hok Ho Hid) as (p & Hp & Hg & Hother). rewrite Hr, classify_success in Hg.
  unfold probe_runner. rewrite bind_step. unfold try_except at 1. rewrite bind_step. unfold on_probe at 1.
  cbn [env_probe runner_probes]. unfold ckan_probe. rewrite bind_step, Hs. unfold evidence_from. rewrite bind_step, Ha.
  unfold lift_res at 1. rewrite He. cbn -[_validate_evidence _profile_from_evidence]. unfold lift_res. rewrite Hv.
  rewrite bind_step. cbn -[_profile_from_evidence]. rewrite Hp. eexists p, _. split; [reflexivity|]. done.
Qed.
End opens.

(** ** One read per window *)

Definition status_reads (log : list probe_event) : nat :=
  length (List.filter (λ e, match e with StatusRead _ => true | _ => false end) log).
Definition kept_times (log : list probe_event) : list Q :=
  flat_map (λ e, match e with SnapshotKept t => [t] | _ => [] end) log.

Lemma decode_fetched `{JsonBytes} response t sn : _decode_snapshot response t = Ok sn → sn_fetched_at sn = t.
Proof. unfold _decode_snapshot. intros E. repeat case_match; inv_ok; by simplify_eq. Qed.

Section window.
Context {W : Type} `{!CatalogEnv W} {ips : IpLiterals} `{JsonBytes}.
Variable self : CKANProbeRunner W.
(** The clock does not run backwards: [T] is a time between the readings. *)
Variable T : W → Q.
Hypothesis clock_forward : ∀ w, (T w <= (clock w).1)%Q ∧ ((clock w).1 <= T (clock w).2)%Q.
Hypothesis send_forward : ∀ r w, (T w <= T (transport_send r w).2)%Q.
Hypothesis emit_forward : ∀ emitter op platform outcome md w, rn_emitter self = Some emitter →
  (T w <= T (emitter_record emitter op platform outcome md None w).2)%Q.

(** What a call leaves behind *)
Definition call_kept (s s' : prober W) : Prop :=
  pr_snapshot s' = pr_snapshot s ∧ kept_times (pr_log s') = kept_times (pr_log s) ∧ (T (pr_world s) <= T (pr_world s'))%Q.
Definition call_read (s s' : prober W) : Prop :=
  ∃ sn, pr_snapshot s' = Some sn ∧ kept_times (pr_log s') = kept_times (pr_log s) ++ [sn_fetched_at sn] ∧
    (T (pr_world s) <= sn_fetched_at sn)%Q ∧ (sn_fetched_at sn <= T (pr_world s'))%Q ∧
    status_reads (pr_log s') = S (status_reads (pr_log s)) ∧
    ∀ old, pr_snapshot s = Some old → (sn_fetched_at old + rn_ttl_seconds self <= sn_fetched_at sn)%Q.

Lemma status_reads_app l l' : status_reads (l ++ l') = (status_reads l + status_reads l')%nat.
Proof. unfold status_reads. by rewrite List.filter_app, length_app. Qed.
Lemma kept_times_app l l' : kept_times (l ++ l') = kept_times l ++ kept_times l'.
Proof. unfold kept_times. by rewrite flat_map_app. Qed.

(** Fresh: the snapshot is handed out.  Stale: it is replaced, or the read
    failed and raises. *)
Lemma fresh_snapshot_spec s :
  let '(r, s') := fresh_snapshot self s in
  call_kept s s' ∧ pr_log s' = pr_log s ∧
  ((∃ sn, r = Ok (Some sn) ∧ pr_snapshot s = Some sn) ∨
   (r = Ok None ∧ ∀ old, pr_snapshot s = Some old → (sn_fetched_at old + rn_ttl_seconds self <= T (pr_world s'))%Q)).
Proof.
  unfold fresh_snapshot. rewrite bind_step. cbn [read]. unfold call_kept. destruct (pr_snapshot s) as [sn|] eqn:Es.
  - rewrite bind_step. unfold clock_now, clock, prober_clocked. destruct (clock (pr_world s)) as [t w] eqn:Ec.
    pose proof (clock_forward (pr_world s)) as [H1 H2]. rewrite Ec in H1, H2. cbn in H1, H2 |- *. rewrite Es.
    split; [split_and!; [done..|lra]|]. split; [done|]. destruct (Qltb _ _) eqn:El; [left; eauto|right]. split; [done|].
    intros old [= <-]. apply Qltb_false in El. lra.
  - cbn. split; [split_and!; [done..|lra]|]. split; [done|]. right. split; [done|]. discriminate.
Qed.

Lemma snapshot_spec s :
  let '(r, s') := snapshot self s in
  match r with
  | Ok sn => pr_snapshot s' = Some sn ∧ (call_read s s' ∨ call_kept s s' ∧ pr_log s' = pr_log s)
  | Raise _ => call_kept s s' ∧ (status_reads (pr_log s') <= S (status_reads (pr_log s)))%nat
  end.
Proof.
  unfold snapshot. destruct (rn_has_reader self); [|cbn; split; [split_and!; [done..|lra]|lia]].
  unfold snapshot_with. rewrite bind_step. pose proof (fresh_snapshot_spec s) as Hf.
  destruct (fresh_snapshot self s) as [r s1]. destruct Hf as ((Hp & Hk & HT) & Hl & [(sn & -> & Hs)|(-> & Hold)]).
  { cbn. split; [congruence|]. right. by split. }
  rewrite bind_step. unfold lift_res at 1. destruct (_status_request self) as [req|e].
  2:{ split; [by split_and!|]. rewrite Hl. lia. }
  rewrite bind_step. unfold note_probe, modify at 1. rewrite bind_step. unfold on_prober at 1. cbn [pr_world pr_snapshot pr_log].
  pose proof (send_forward req (pr_world s1)) as Hsend. destruct (transport_send req (pr_world s1)) as [[resp|e] w] eqn:Ew.
  2:{ split; [split_and!; cbn -[kept_times]; [done|by rewrite kept_times_app, app_nil_r|cbn in Hsend; lra]|]. cbn -[status_reads]. rewrite status_reads_app, Hl. cbn -[status_reads]. unfold status_reads at 2. cbn. lia. }
  rewrite bind_step. unfold clock_now, clock, prober_clocked. cbn [pr_world pr_snapshot pr_log pr_last_state pr_last_advised_at].
  pose proof (clock_forward w) as [H1 H2]. destruct (clock w) as [t w'] eqn:Ec. cbn in Hsend, H1, H2.
  rewrite bind_step. unfold lift_res at 1. destruct (_decode_snapshot resp t) as [sn|e] eqn:Ed.
  2:{ split; [split_and!; cbn -[kept_times]; [done|by rewrite kept_times_app, app_nil_r|lra]|]. cbn -[status_reads]. rewrite status_reads_app, Hl. unfold status_reads at 2. cbn. lia. }
  assert (sn_fetched_at sn = t) as Ht by by apply decode_fetched in Ed. cbn -[status_reads kept_times]. split; [done|]. left. exists sn.
  cbn -[status_reads kept_times]. rewrite Ht, Hl.
  rewrite <- app_assoc, kept_times_app, status_reads_app. split_and!; try done; try lra; [unfold status_reads at 2; cbn; lia|].
  intros old Ho. specialize (Hold old Ho). lra.
Qed.
(** An advisory touches neither the snapshot nor the reads. *)
Lemma advise_spec o sn s :
  let '(_, s') := _advise self o sn s in call_kept s s' ∧ status_reads (pr_log s') = status_reads (pr_log s).
Proof.
  unfold _advise. destruct (rn_emitter self) as [emitter|] eqn:Em; [|cbn; split; [split_and!; [done..|lra]|done]].
  rewrite bind_step. cbn [read]. rewrite bind_step. unfold set_last_state, modify at 1. case_bool_decide as Hp; [by split; [split_and!; [done..|cbn; lra]|]|].
  rewrite bind_step. unfold clock_now, clock, prober_clocked. cbn [pr_world pr_snapshot pr_log pr_last_state pr_last_advised_at].
  pose proof (clock_forward (pr_world s)) as [H1 H2]. destruct (clock (pr_world s)) as [t w]. cbn in H1, H2.
  rewrite bind_step. cbn [read]. destruct (_ && _); [cbn; split; [split_and!; [done..|cbn; lra]|done]|].
  rewrite bind_step. unfold set_last_advised, modify at 1. rewrite bind_step. unfold maybe_emit_line_advisory. rewrite bool_decide_false by done.
  rewrite bind_step. unfold on_prober. cbn [pr_world pr_snapshot pr_log pr_last_state pr_last_advised_at].
  pose proof (λ op platform outcome md, emit_forward emitter op platform outcome md w eq_refl) as He.
  match goal with |- context [emitter_record ?a ?b ?c ?d ?e ?f w] => specialize (He b c d e); destruct (emitter_record a b c d e f w) as [[x|x] w'] end;
    cbn in He; cbn -[kept_times status_reads]; split; try split_and!; cbn -[kept_times status_reads]; try done; try lra.
  - by rewrite kept_times_app, app_nil_r.
  - rewrite status_reads_app. unfold status_reads at 2. cbn. lia.
Qed.

(** One probe after another; an error of one is an answer like another. *)
Fixpoint probe_run (os : list OperationId) (s : prober W) : list (result ProbeEvidence) * prober W :=
  match os with
  | [] => ([], s)
  | o :: os => let '(r, s) := ckan_probe self o s in let '(rs, s) := probe_run os s in (r :: rs, s)
  end.
Definition raised (rs : list (result ProbeEvidence)) : nat := length (List.filter (λ r, negb (is_ok r)) rs).

Definition spaced (times : list Q) : Prop :=
  ∀ i t t', times !! i = Some t → times !! S i = Some t' → (t + rn_ttl_seconds self <= t')%Q.
Definition window_inv (start : Q) (s : prober W) : Prop :=
  let times := kept_times (pr_log s) in
  (start <= T (pr_world s))%Q ∧ spaced times ∧
  match pr_snapshot s with
  | None => times = []
  | Some sn => last times = Some (sn_fetched_at sn) ∧ (sn_fetched_at sn <= T (pr_world s))%Q ∧
      (start + inject_Z (Z.of_nat (length times) - 1) * rn_ttl_seconds self <= sn_fetched_at sn)%Q
  end.

Lemma spaced_snoc times t : spaced times → (∀ t0, last times = Some t0 → (t0 + rn_ttl_seconds self <= t)%Q) → spaced (times ++ [t]).
Proof.
  intros Hs Hl i a b Ha Hb. destruct (decide (S i < length times)%nat) as [Hi|Hi].
  - rewrite lookup_app_l in Ha, Hb by lia. by eapply Hs.
  - assert (S i = length times) as Hi'. { apply lookup_lt_Some in Hb. rewrite length_app in Hb. cbn in Hb. lia. }
    rewrite lookup_app_r in Hb by lia. rewrite Hi', Nat.sub_diag in Hb. injection Hb as <-.
    rewrite lookup_app_l in Ha by lia. apply Hl. rewrite last_lookup. by rewrite <- Hi'.
Qed.

Lemma inv_kept start s s' : window_inv start s → call_kept s s' → window_inv start s'.
Proof.
  intros (H1 & H2 & H3) (Hp & Hk & HT). unfold window_inv. cbn zeta. rewrite Hk, Hp. split_and!; [lra|done|].
  destruct (pr_snapshot s); [|done]. destruct H3 as (? & ? & ?). split_and!; [done|lra|done].
Qed.
Lemma inv_read start s s' : window_inv start s → call_read s s' → window_inv start s'.
Proof.
  intros (H1 & H2 & H3) (sn & Hp & Hk & Ht & HT & _ & Hold). unfold window_inv. cbn zeta. rewrite Hk, Hp. split_and!.
  - lra.
  - apply spaced_snoc; [done|]. intros t0 Hl. destruct (pr_snapshot s) as [old|]; [|by rewrite H3 in Hl].
    destruct H3 as (Hl' & _). rewrite Hl' in Hl. injection Hl as <-. by apply Hold.
  - by rewrite last_snoc.
  - done.
  - rewrite length_app. cbn [length]. destruct (pr_snapshot s) as [old|].
    + destruct H3 as (_ & _ & H3). specialize (Hold old eq_refl).
      replace (Z.of_nat (length (kept_times (pr_log s)) + 1) - 1)%Z with (Z.of_nat (length (kept_times (pr_log s))) - 1 + 1)%Z by lia.
      rewrite inject_Z_plus. change (inject_Z 1) with 1%Q. lra.
    + rewrite H3. change (inject_Z (Z.of_nat (length ([] : list Q) + 1) - 1)) with 0%Q. lra.
Qed.

Lemma probe_spec start o s : window_inv start s →
  let '(r, s') := ckan_probe self o s in
  window_inv start s' ∧
  (status_reads (pr_log s') + length (kept_times (pr_log s)) <=
   status_reads (pr_log s) + length (kept_times (pr_log s')) + raised [r])%nat.
Proof.
  intros Hi. unfold ckan_probe. rewrite bind_step. pose proof (snapshot_spec s) as Hs. destruct (snapshot self s) as [[sn|e] s1].
  2:{ destruct Hs as [Hk Hn]. split; [by eapply inv_kept|]. destruct Hk as (_ & -> & _). cbn. lia. }
  destruct Hs as [_ Hs]. assert (window_inv start s1 ∧ (status_reads (pr_log s1) + length (kept_times (pr_log s)) <=
    status_reads (pr_log s) + length (kept_times (pr_log s1)))%nat) as [Hi1 Hn].
  { destruct Hs as [Hr|[Hk Hl]]; [split; [by eapply inv_read|]|split; [by eapply inv_kept|by rewrite Hl]].
    destruct Hr as (x & _ & Hk & _ & _ & Hr & _). rewrite Hk, Hr, length_app. cbn. lia. }
  unfold evidence_from. rewrite bind_step. pose proof (advise_spec o sn s1) as Ha.
  destruct (_advise self o sn s1) as [[[]|e] s2]; destruct Ha as [Hk Hr]; unfold lift_res;
    (split; [by eapply inv_kept|]); destruct Hk as (_ & -> & _); rewrite Hr; unfold raised; cbn; lia.
Qed.

Lemma probe_run_spec start os : ∀ s, window_inv start s →
  let '(rs, s') := probe_run os s in
  window_inv start s' ∧
  (status_reads (pr_log s') + length (kept_times (pr_log s)) <=
   status_reads (pr_log s) + length (kept_times (pr_log s')) + raised rs)%nat.
Proof.
  induction os as [|o os IH]; intros s Hi; cbn [probe_run]; [split; [done|]; cbn; lia|].
  pose proof (probe_spec start o s Hi) as Hp. destruct (ckan_probe self o s) as [r s1]. destruct Hp as [Hi1 Hn1].
  specialize (IH s1 Hi1). destruct (probe_run os s1) as [rs s2]. destruct IH as [Hi2 Hn2]. split; [done|].
  unfold raised in *. cbn [List.filter] in *. destruct (is_ok r); cbn in *; lia.
Qed.

(** C12: the status is read once per window.  However many operations are probed,
    in whatever order and whatever the deployment answers, the snapshots that
    are kept are at least a time to live apart, so [n] of them take
    [(n - 1) * ttl] seconds; and every further read belongs to a probe that
    raised. *)
Theorem status_read_per_window os s rs s' :
  pr_snapshot s = None → pr_log s = [] → probe_run os s = (rs, s') →
  let times := kept_times (pr_log s') in
  spaced times ∧
  (times ≠ [] → (inject_Z (Z.of_nat (length times) - 1) * rn_ttl_seconds self <= T (pr_world s') - T (pr_world s))%Q) ∧
  (status_reads (pr_log s') <= length times + raised rs)%nat.
Proof.
  intros Hs Hl Hr. cbn zeta. pose proof (probe_run_spec (T (pr_world s)) os s) as Hp. rewrite Hr, Hl in Hp.
  destruct Hp as [(_ & Hsp & Hsn) Hn].
  { unfold window_inv. rewrite Hs, Hl. split_and!; [lra|by intros i ??|done]. }
  split_and!; [done| |cbn in Hn; lia]. intros Hne. destruct (pr_snapshot s') as [sn|]; [|done].
  destruct Hsn as (_ & H1 & H2). lra.
Qed.
End window.

(** ** A status that is no envelope *)

Section malformed.
Context {W : Type} `{!CatalogEnv W} {ips : IpLiterals} {jb : JsonBytes}.
Variable self : CKANProbeRunner W.

(** The body is not JSON, or its JSON is not an object. *)
Definition no_envelope (text : string) : Prop := is_mapping (default PyNone (json_loads text)) = false.
Definition answered (s : prober W) (response : RuntimeResponse) : Prop :=
  pr_snapshot s = None ∧ rn_has_reader self = true ∧
  ∃ request w, _status_request self = Ok request ∧ transport_send request (pr_world s) = (Ok response, w).

Lemma decode_no_envelope response t : status_code response = 200 → no_envelope (body response) →
  ∃ e, _decode_snapshot response t = Raise e ∧ exn_kind e = NativeCatalogError.
Proof.
  unfold no_envelope, _decode_snapshot. intros -> Hb.
  assert (Hp : parse_action_envelope (default PyNone (json_loads (body response))) _STATUS_OPERATION "ckan" =
    raise_new (_invalid_response _STATUS_OPERATION "ckan" "The deployment sent a non-object Action API payload.")).
  { revert Hb. by destruct (default PyNone (json_loads (body response))). }
  rewrite Hp. destruct (raise_new _ : result pyval) as [v|e] eqn:Er; [by apply raise_new_ok in Er|].
  vm_compute in Er. injection Er as <-. by eexists.
Qed.

Lemma snapshot_answered s response : answered s response →
  ∃ t s', snapshot self s = ((_decode_snapshot response t), s') ∧
    pr_snapshot s' = match _decode_snapshot response t with Ok sn => Some sn | Raise _ => None end.
Proof.
  intros (Hs & Hr & request & w & Hreq & Hsend). unfold snapshot. rewrite Hr. unfold snapshot_with, fresh_snapshot.
  rewrite bind_step, bind_step. cbn [read]. rewrite Hs. cbn [mret M_ret]. rewrite bind_step. unfold lift_res at 1. rewrite Hreq.
  rewrite bind_step. unfold note_probe, modify at 1. rewrite bind_step. unfold on_prober at 1. cbn [pr_world]. rewrite Hsend.
  rewrite bind_step. unfold clock_now, clock, prober_clocked. cbn [pr_world]. destruct (clock w) as [t w'].
  exists t. rewrite bind_step. unfold lift_res at 1. destruct (_decode_snapshot response t) as [sn|e]; eexists; split; try reflexivity; done.
Qed.

(** An answer of status 200 that is no envelope - a page of a proxy, an empty
    body - is not evidence that the deployment is unavailable, as a 500 with the
    same body is: its [NativeCatalogError] is no [CatalogError], so it passes
    [_decode_snapshot] and leaves the probe, the capability cache and the
    dispatch that asked; no snapshot is kept, so the next probe reads again. *)
Theorem malformed_status_escapes cache o response (s : cap (prober W)) :
  answered (cap_world s) response → status_code response = 200 → no_envelope (body response) →
  (∃ e s', @probe_runner _ (runner_probes self) ips cache false o "anonymous" s = (Raise e, s') ∧
     exn_kind e = NativeCatalogError ∧ is_subclass NativeCatalogError CatalogError = false ∧
     pr_snapshot (cap_world s') = None) ∧
  ∀ t, ∃ sn, _decode_snapshot {| status_code := 500; resp_headers := resp_headers response; body := body response;
                                 retry_after := retry_after response |} t = Ok sn ∧
    classify_probe_response o (sn_payload sn) = RespUnavailable.
Proof.
  intros Ha Hc Hb. split.
  - destruct (snapshot_answered _ _ Ha) as (t & s1 & Hs & Hk). destruct (decode_no_envelope response t Hc Hb) as (e & He & Hkind).
    rewrite He in Hs, Hk. exists e. eexists. split.
    + unfold probe_runner. rewrite bind_step. unfold try_except at 1. rewrite bind_step. unfold on_probe at 1.
      cbn [env_probe runner_probes]. unfold ckan_probe. rewrite bind_step, Hs. rewrite Hkind. reflexivity.
    + by split_and!.
  - intros t. eexists. split; reflexivity.
Qed.
End malformed.

(** ** Witnesses *)

#[local] Instance status_literals : IpLiterals := λ _, false.
(** A CKAN of the pinned line that lists the datastore *)
#[local] Instance status_json : JsonBytes := λ text,
  if bool_decide (text = "status") then
    Some (str_dict [("success", PyBool true);
      ("result", str_dict [("ckan_version", PyStr "2.11.5"); ("extensions", PyList [PyStr "datastore"; PyStr "envvars"])])])
  else None.
(** The world is the time; a request takes a second. *)
#[local] Instance status_env : CatalogEnv Z := {|
  env_clock := λ n, (inject_Z n, n);
  transport_send _ := λ n, (Ok {| status_code := 200; resp_headers := []; body := "status"; retry_after := None |}, n + 1);
  transport_close := mret tt; provider_resolve := mret None; provider_resolve_async := mret None; retry_sleep _ := mret tt |}.

Definition sample_runner : CKANProbeRunner Z :=
  {| rn_origin := "https://data.example.org"; rn_has_reader := true; rn_ttl_seconds := 300%Q; rn_emitter := None |}.
Definition sample_prober : prober Z := Prober None None None [] 100.
Definition ckan_profile : DeclaredCapabilityProfile :=
  match declared_ckan_profile with
  | Ok d => d
  | Raise _ => {| profile_version := ""; profile_schema_version := ""; platform_api_version := ""; official_source_uri := "";
                  source_accessed_at := (0, 0, 0); fixture_fingerprint := ""; operations := ∅ |}
  end.
Definition ckan_cache : EffectiveCapabilityCache :=
  {| _declared_profile := ckan_profile;
     _baseline := {| declared_profile := ckan_profile;
                     capabilities := (λ o, {| cap_operation := o; cap_state := class_state (capability_class o);
                                              cap_evidence := None |}) <$> operations ckan_profile |};
     has_probe_runner := true; has_async_probe_runner := false; _namespace := "ckan";
     _deployment_origin := Some "https://data.example.org"; _ttl_seconds := 300 |}.

(** The shipped profile is well formed, and so is the cache of a client. *)
Lemma ckan_profile_wf : declared_wf ckan_profile.
Proof. apply (bool_decide_unpack _). vm_compute. exact I. Qed.
Lemma ckan_cache_ok : cache_ok ckan_cache.
Proof.
  split_and!; [exact ckan_profile_wf| |reflexivity]. split; cbn [_baseline ckan_cache capabilities declared_profile].
  - by rewrite dom_fmap_L.
  - intros i c Hc. apply lookup_fmap_Some in Hc as (o & <- & Ho). symmetry. by apply (ckan_profile_wf i o).
Qed.
Lemma ckan_declares o : bool_decide (is_Some (operations ckan_profile !! o)) = true → ∃ spec, operations ckan_profile !! o = Some spec.
Proof. intros H%bool_decide_eq_true. exact H. Qed.

Definition status_probe (o : OperationId) :=
  @probe_runner _ (runner_probes sample_runner) status_literals ckan_cache false o "anonymous" (fresh_cache sample_prober).

Lemma ckan_evidence_opens_witness :
  (∃ p s', status_probe DATASTORE_CRUD_OPERATION_ID = (Ok p, s') ∧ gd_allowed (guard_operation p DATASTORE_CRUD_OPERATION_ID) = true) ∧
  (∃ p s', status_probe SQL_SEARCH_OPERATION_ID = (Ok p, s') ∧ gd_allowed (guard_operation p SQL_SEARCH_OPERATION_ID) = false).
Proof.
  split.
  - destruct (ckan_declares DATASTORE_CRUD_OPERATION_ID) as [spec Hspec]; [vm_compute; reflexivity|].
    destruct (ckan_evidence_opens sample_runner ckan_cache "data.example.org" "" eq_refl eq_refl ltac:(by right; left)
      DATASTORE_CRUD_OPERATION_ID spec _ (fresh_cache sample_prober) _ _ ckan_cache_ok Hspec eq_refl eq_refl)
      as (p & s' & Hp & Hg & _).
    exists p, s'. split; [exact Hp|]. apply Hg. apply classify_success. vm_compute. reflexivity.
  - destruct (ckan_declares SQL_SEARCH_OPERATION_ID) as [spec Hspec]; [vm_compute; reflexivity|].
    destruct (ckan_evidence_opens sample_runner ckan_cache "data.example.org" "" eq_refl eq_refl ltac:(by right; left)
      SQL_SEARCH_OPERATION_ID spec _ (fresh_cache sample_prober) _ _ ckan_cache_ok Hspec eq_refl eq_refl)
      as (p & s' & Hp & Hg & _).
    exists p, s'. split; [exact Hp|]. apply not_true_is_false. intros H%Hg%classify_success. revert H. vm_compute. discriminate.
Defined.

Definition sample_probes : list OperationId :=
  [DATASTORE_CRUD_OPERATION_ID; SQL_SEARCH_OPERATION_ID; ACTIVITY_OPERATION_ID].
Lemma status_read_per_window_witness :
  status_reads (pr_log (probe_run sample_runner sample_probes sample_prober).2) = 1%nat ∧
  spaced sample_runner (kept_times (pr_log (probe_run sample_runner sample_probes sample_prober).2)).
Proof.
  split; [vm_compute; reflexivity|].
  refine (proj1 (status_read_per_window sample_runner inject_Z _ _ _ sample_probes sample_prober _ _ eq_refl eq_refl (surjective_pairing _))).
  - intros w. cbn. split; apply Qle_refl.
  - intros r w. cbn. rewrite <- Zle_Qle. lia.
  - intros emitter op pf out md w Hem. discriminate Hem.
Defined.
