(* ===== verification/Udata.v ===== *)
(** * The uData version gate

    [connectors/catalog/udata/]: settings.py (origins), probes.py (the exact
    version a deployment has to prove before anything else is asked of it) and
    the page envelope of mapping.py. *)
From Stdlib Require Import QArith ZArith Ascii.
From stdpp Require Import strings gmap.
From S2P Require Import Prelude PyVal Regex Redaction Policies Errors Transport Resilience Urls Json JsonText Ids Profiles Capability Projection Records Events Clients Uris Targets ByteSource Ckan CkanClient CkanProbes.
Import Deadline.
Local Close Scope Q_scope.
Local Open Scope Z_scope.
Local Open Scope py_scope.

(** ** Origins *)

Definition udata_normalize_origin `{IpLiterals} (value : string) : result string :=
  parsed ← parse_origin value "uData";
  raise_if (negb (bool_decide (url_path parsed ∈ [""; "/"])))
    (err ValueError "uData base URLs cannot carry a mount path; supply the scheme and host only.");;
  raise_if (bool_decide (scheme parsed = "http") && negb (loopback parsed))
    (err ValueError "Plain-text HTTP origins are restricted to loopback uData deployments.");;
  Ok (urlunsplit (str_lower (scheme parsed)) (str_lower (netloc parsed)) "" "" "").

(** ** Versions *)

Definition SITE_PATH : string := "/api/1/site/".
Definition SITE_OPERATION_ID : string := "udata/api-v1.root-and-effective-profile-probe".
Definition dotted (n : nat) (r : re) : re := RSeq r (foldr (λ _ rest, RSeq (lit "."%char) (RSeq r rest)) REps (seq 0 n)).
Definition _VERSION_PATTERN : re := dotted 2 (plus (RSet is_digit)).
Definition _SITE_KEYS : list string := ["feed_size"; "id"; "keywords"; "metrics"; "title"; "version"].
Definition _SITE_PROBE_MAX_BYTES : Z := 64 * 1024.

(** [UDataVersionError] is a [CatalogUnavailableError] whose metadata has the state. *)
Definition version_error (version_state message safe_action : string) : result exn :=
  catalog_error CatalogUnavailableError message SITE_OPERATION_ID "udata" (Some "unavailable") safe_action
    (Some [("version_state", PyStr version_state)]).

Record SiteVersion := { sv_version : string; sv_site_id : option string }.
Definition make_site_version (version : string) (site_id : option string) : result SiteVersion :=
  raise_if (negb (fullmatch _VERSION_PATTERN version))
    (err ValueError "Site version evidence must be a strict semantic version string.");;
  raise_if (negb (opt_nonempty site_id)) (err ValueError "Site identity evidence must be a non-empty string when supplied.");;
  Ok {| sv_version := version; sv_site_id := site_id |}.

(** Another field of the site that looks like a version *)
Definition version_shaped (kv : pyval * pyval) : bool :=
  match kv with
  | (PyStr key, PyStr value) => bool_decide (key ∈ _SITE_KEYS) && negb (bool_decide (key = "version")) && fullmatch _VERSION_PATTERN value
  | _ => false
  end.
Definition parse_site_version (payload : pyval) : result SiteVersion :=
  match payload with
  | PyDict kvs =>
      match lookup_key "version" kvs with
      | None => raise_new (version_error "missing" "The uData site probe response omitted the version field."
                  "Verify the deployment exposes the stock /api/1/site/ document before dispatching.")
      | Some version =>
          if existsb version_shaped kvs then
            raise_new (version_error "ambiguous" "The uData site probe response carries conflicting version evidence."
              "Verify the deployment serves an unmodified stock /api/1/site/ document.")
          else
            let malformed := raise_new (version_error "malformed" "The uData site probe response carries a malformed version value."
                  "Verify the deployment serves the stock /api/1/site/ document before dispatching.") in
            match version with
            | PyStr text =>
                if fullmatch _VERSION_PATTERN text then make_site_version text (nonempty_text (lookup_key "id" kvs)) else malformed
            | _ => malformed
            end
      end
  | _ => raise_new (version_error "malformed" "The uData site probe did not return a JSON object payload."
           "Retry against a stock uData deployment serving /api/1/site/ JSON.")
  end.

Definition require_exact_version (observed : SiteVersion) (pinned_version : string) : result SiteVersion :=
  if bool_decide (sv_version observed = pinned_version) then Ok observed
  else raise_new (version_error "malformed"
    ("The uData deployment reported " +:+ sv_version observed +:+ ", not the pinned " +:+ pinned_version +:+ ".")
    "Point the connector at a deployment running the exact pinned uData release; version drift requires a reviewed capability profile change.").

(** ** The gate *)

Record SiteVersionGate := { sg_pinned_version : string; sg_origin : string; sg_ttl_seconds : Q }.
Definition make_site_gate `{IpLiterals} (pinned_version origin : string) (ttl_seconds : Q) : result SiteVersionGate :=
  origin ← udata_normalize_origin origin;
  Ok {| sg_pinned_version := pinned_version; sg_origin := origin; sg_ttl_seconds := ttl_seconds |}.

(** [_cache], and the requests the gate has sent *)
Record gate (W : Type) := Gate { g_cache : list (string * (SiteVersion * Q)); g_sent : list RuntimeRequest; g_world : W }.
Arguments Gate {W}.
Arguments g_cache {W}.
Arguments g_sent {W}.
Arguments g_world {W}.
#[global] Instance gate_clocked {W} `{!Clocked W} : Clocked (gate W) := λ s,
  let '(t, w) := clock (g_world s) in (t, Gate (g_cache s) (g_sent s) w).

Definition transport_failed : result exn :=
  native ← native_catalog_error "The uData site probe transport failed." SITE_OPERATION_ID "udata" None None None None None None;
  map_catalog_error native.
(** [deadline.assert_dispatchable()] when there is one *)
Definition still_dispatchable {S} `{!Clocked S} (deadline : option DeadlineMonitor) : M S unit :=
  match deadline with None => mret tt | Some d => assert_dispatchable None None d;; mret tt end.

Section gate.
Context {W : Type} `{!CatalogEnv W, IpLiterals, Hmac, JsonBytes}.
Variable self : SiteVersionGate.
Abbreviation G := (M (gate W)).

Definition on_gate {A} (m : M W A) : G A := λ s, let '(r, w) := m (g_world s) in (r, Gate (g_cache s) (g_sent s) w).
Definition note_site (r : RuntimeRequest) : G unit := modify (λ s, Gate (g_cache s) (g_sent s ++ [r]) (g_world s)).
Definition set_cache (f : list (string * (SiteVersion * Q)) → list (string * (SiteVersion * Q))) : G unit :=
  modify (λ s, Gate (f (g_cache s)) (g_sent s) (g_world s)).

Definition _probe_request (deadline : option DeadlineMonitor) : G RuntimeRequest :=
  still_dispatchable deadline;;
  lift_res (make_runtime_request "GET" (sg_origin self +:+ SITE_PATH) [] None [] FOLLOW (Some _SITE_PROBE_MAX_BYTES) deadline).

Definition site_states : list (Z * string) := [(401, "unauthorized"); (403, "forbidden"); (423, "disabled")].
Definition decode_site (response : RuntimeResponse) : result SiteVersion :=
  let status := status_code response in
  match List.find (λ s, s.1 =? status) site_states with
  | Some (_, state) => raise_new (native ← native_catalog_error "The uData site probe requires deployment access." SITE_OPERATION_ID "udata"
        (Some status) None None (Some state) (Some "Verify access to the deployment's stock /api/1/site/ document.") None;
      map_catalog_error native)
  | None =>
      if negb ((200 <=? status) && (status <? 300)) then
        raise_new (version_error "missing" ("The uData site probe returned HTTP " +:+ int_repr status +:+ ".")
          "Verify the deployment origin exposes the stock /api/1/site/ document.")
      else
        match json_loads (body response) with
        | None => raise_new (version_error "malformed" "The uData site probe returned an invalid JSON result."
                    "Verify the deployment serves the stock /api/1/site/ JSON document.")
        | Some payload => observed ← parse_site_version payload; require_exact_version observed (sg_pinned_version self)
        end
  end.
Definition _decode_probe (response : RuntimeResponse) (deadline : option DeadlineMonitor) : G SiteVersion :=
  still_dispatchable deadline;;
  lift_res (decode_site response).

(** [_probe] and [_probe_async] *)
Definition _probe (deadline : option DeadlineMonitor) : G SiteVersion :=
  request ← _probe_request deadline;
  response ← try_except (note_site request;; on_gate (transport_send request)) (λ e,
    if is_subclass (exn_kind e) BudgetExhaustedError then None
    else if is_Exception (exn_kind e) then Some (lift_res (raise_new transport_failed)) else None);
  _decode_probe response deadline.

(** [require_current] and [require_current_async] *)
Definition cached_version (scope : string) : G (option SiteVersion) :=
  cache ← read g_cache;
  match dict_get scope cache with
  | None => mret None
  | Some (version, t) => now ← clock_now; mret (if Qle_bool (now - t)%Q (sg_ttl_seconds self) then Some version else None)
  end.
Definition require_current (credentials : Clients.credentials) (deadline : option DeadlineMonitor) : G SiteVersion :=
  let scope := _credential_scope credentials in
  cached ← cached_version scope;
  match cached with
  | Some version => mret version
  | None =>
      observed ← _probe deadline;
      now ← clock_now;
      set_cache (dict_set scope (observed, now));;
      mret observed
  end.
Definition invalidate_gate : G unit := set_cache (λ _, []).
End gate.

(** ** Pages *)

Definition NATIVE_PAGE_FIELDS : list string := ["data"; "page"; "page_size"; "previous_page"; "next_page"; "total"].
Definition _UDATA_V1_PAGE_ENVELOPE_ACTION : string := "Verify the deployment serves the stock uData v1 page envelope.".

(** [present_fields] is a set. *)
Record NativePage := {
  np_items : list (list (pyval * pyval)); np_present_fields : gset string; np_page : option Z; np_page_size : option Z;
  np_previous_page : option string; np_next_page : option string; np_total : option Z
}.

Definition page_error (message operation safe_action : string) : result exn :=
  catalog_error CatalogValidationError message operation "udata" None safe_action None.
Definition _int_field (kvs : list (pyval * pyval)) (name operation : string) (minimum : Z) : result (option Z) :=
  let e := page_error ("The uData page field '" +:+ name +:+ "' must be an integer of at least " +:+ int_repr minimum +:+ " or null.")
             operation _UDATA_V1_PAGE_ENVELOPE_ACTION in
  match lookup_key name kvs with
  | None | Some PyNone => Ok None
  | Some (PyInt n) => if n <? minimum then raise_new e else Ok (Some n)
  | Some _ => raise_new e
  end.
Definition _string_field (kvs : list (pyval * pyval)) (name operation : string) : result (option string) :=
  match lookup_key name kvs with
  | None | Some PyNone => Ok None
  | Some (PyStr s) => Ok (Some s)
  | Some _ => raise_new (page_error ("The uData page field '" +:+ name +:+ "' must be a string URL or null.") operation
                _UDATA_V1_PAGE_ENVELOPE_ACTION)
  end.
Definition _link_field (kvs : list (pyval * pyval)) (name operation : string) : result (option string) :=
  value ← _string_field kvs name operation;
  match value with
  | Some EmptyString => raise_new (page_error ("The uData page field '" +:+ name +:+ "' must be a non-empty URL or null.") operation
                          _UDATA_V1_PAGE_ENVELOPE_ACTION)
  | _ => Ok value
  end.
Definition page_items (operation : string) (data : option pyval) : result (list (list (pyval * pyval))) :=
  let e := page_error "The uData page data field must be a list of JSON objects." operation _UDATA_V1_PAGE_ENVELOPE_ACTION in
  match data with
  | None | Some PyNone => raise_new (page_error "The uData page response omitted the data list." operation _UDATA_V1_PAGE_ENVELOPE_ACTION)
  | Some (PyList l) => map_res (λ item, match item with PyDict kvs | PyProxy kvs => Ok kvs | _ => raise_new e end) l
  | Some _ => raise_new e
  end.
Definition parse_native_page (payload : pyval) (operation : string) : result NativePage :=
  match payload with
  | PyDict kvs | PyProxy kvs =>
      items ← page_items operation (lookup_key "data" kvs);
      page ← _int_field kvs "page" operation 1;
      page_size ← _int_field kvs "page_size" operation 1;
      previous ← _link_field kvs "previous_page" operation;
      next ← _link_field kvs "next_page" operation;
      total ← _int_field kvs "total" operation 0;
      Ok {| np_items := items;
            np_present_fields := list_to_set (List.filter (λ name, bool_decide (is_Some (lookup_key name kvs))) NATIVE_PAGE_FIELDS);
            np_page := page; np_page_size := page_size; np_previous_page := previous; np_next_page := next; np_total := total |}
  | _ => raise_new (page_error "The uData page response must be a JSON object." operation "Retry against the stock uData v1 page endpoint.")
  end.

(** The cursor of [shape_native_page] *)
Definition native_page_info (page : NativePage) : option PageInfo :=
  match np_page page, np_next_page page with
  | None, None => None
  | _, _ =>
      Some {| page_cursor := int_repr <$> np_page page;
              next_cursor := match np_next_page page, np_page page with
                             | Some _, Some n => Some (int_repr (n + 1))
                             | next, _ => next
                             end;
              total_items := np_total page |}
  end.
