(* ===== verification/UdataClient.v ===== *)
(** * The uData client

    [connectors/catalog/udata/clients.py]: one call of a route ([_dataset_call],
    which every service of the connector is made of) behind the version gate,
    the prohibition of mutations outside a controlled deployment, capability
    evidence, the circuit and the retry loop, with its decoding and events; the
    opening of a stream; and the controlled dispatch of the site PATCH.

    The state is the scope of the credential, the cache of the gate and the
    state of [Clients].  The asynchronous client takes the same steps with
    awaited calls. *)
From Stdlib Require Import QArith ZArith Ascii.
From stdpp Require Import strings gmap.
From S2P Require Import Prelude PyVal Regex Redaction Policies Errors Transport Resilience Breaker Urls Json JsonText Ids Profiles Capability Projection Records Mutation Events Clients Uris Targets ByteSource Ckan CkanClient CkanProbes Udata.
Import Deadline.
Local Close Scope Q_scope.
Local Open Scope Z_scope.
Local Open Scope py_scope.

(** [json.loads] with [parse_constant] and [parse_float] that refuse numbers
    that are not finite *)
Class FiniteJson := json_loads_finite : string → option pyval.
(** [transport.send_stream], if there is one, and the [close] of what it
    returned *)
Class StreamEnv (W : Type) := {
  send_stream : option (RuntimeRequest → M W (headers * RuntimeStreamResponse));
  stream_release : M W unit
}.

Definition DEFAULT_MAX_RESPONSE_BYTES : Z := 1048576.
Definition REDIRECT_STATUSES : list Z := [301; 302; 303; 307; 308].
Definition SET_SITE_OPERATION : string := "udata/api-v1.set_site".

(** ** Calls *)

(** A form body: none, bytes, or a function that makes them for each attempt *)
Inductive form_body (W : Type) := NoForm | FormBytes (raw : string) | FormCall (make : M W string).
Arguments NoForm {W}. Arguments FormBytes {W}. Arguments FormCall {W}.

Record dataset_call (W : Type) := {
  dc_method : string; dc_path : string; dc_owning_operation : string; dc_headers : headers; dc_json_body : pyval;
  dc_permissions : option EffectivePermissions; dc_credential : option credential;
  dc_idempotency : option IdempotencyPolicy; dc_max_response_bytes : option Z; dc_files : list UploadPart;
  dc_form_body : form_body W;
  (** [_DatasetCallOverrides] *)
  dc_raw_text : bool; dc_redirect_mode : bool; dc_emit_success : bool; dc_accept_status : option (Z → bool);
  dc_omit_credential : bool; dc_deadline : option DeadlineMonitor
}.
Arguments dc_method {W}. Arguments dc_path {W}. Arguments dc_owning_operation {W}. Arguments dc_headers {W}.
Arguments dc_json_body {W}. Arguments dc_permissions {W}. Arguments dc_credential {W}. Arguments dc_idempotency {W}.
Arguments dc_max_response_bytes {W}. Arguments dc_files {W}. Arguments dc_form_body {W}. Arguments dc_raw_text {W}.
Arguments dc_redirect_mode {W}. Arguments dc_emit_success {W}. Arguments dc_accept_status {W}.
Arguments dc_omit_credential {W}. Arguments dc_deadline {W}.

(** What a call returns beside the status and the response *)
Inductive udata_payload := Redirected (h : headers) | RawBody (raw : string) | NoBody | JsonBody (v : pyval).

Definition is_none (v : pyval) : bool := match v with PyNone => true | _ => false end.
Definition is_callable {W} (f : form_body W) : bool := match f with FormCall _ => true | _ => false end.
Definition no_form {W} (f : form_body W) : bool := match f with NoForm => true | _ => false end.

Definition _json_body `{!FloatText} (v : pyval) (o : OperationId) : result (option string) :=
  if is_none v then Ok None
  else
    let e := native_catalog_error "Catalog mutation input could not be serialized as JSON." (operation_str o) "udata"
               None None None None None (Some [("phase", PyStr "serialization")]) in
    if all_finite v then match dumps false v with Ok text => Ok (Some text) | Raise _ => raise_new e end else raise_new e.
Definition _dataset_body {W} `{!FloatText} (json_body : pyval) (form : form_body W) (files : list UploadPart) (o : OperationId)
  : result (option string) :=
  if negb (no_form form) && (negb (is_none json_body) || nonempty_list files) then
    raise_new (native_error "Catalog requests cannot combine a form body with a JSON body or multipart parts." (operation_str o) "udata")
  else if negb (is_none json_body) && nonempty_list files then
    raise_new (native_error "Catalog dataset requests cannot combine a JSON body with multipart parts." (operation_str o) "udata")
  else if nonempty_list files then Ok None
  else match form with
       | FormCall _ => Ok None
       | FormBytes raw => Ok (Some raw)
       | NoForm => _json_body json_body o
       end.
Definition _request_headers (h : headers) (c : option credential) (policy : option IdempotencyPolicy) (body : option string)
    (json_media_fallback : bool) : headers :=
  let merged := dict_merge h (_auth_headers c) in
  let merged := match policy ≫= idem_key with Some key => dict_set "Idempotency-Key" key merged | None => merged end in
  if bool_decide (is_Some body) && json_media_fallback && negb (existsb (λ kv, bool_decide (str_lower kv.1 = "content-type")) merged)
  then dict_set "Content-Type" "application/json" merged else merged.

Definition _dataset_idempotency (policy : option IdempotencyPolicy) (method : string) (files : list UploadPart) : IdempotencyPolicy :=
  if existsb is_stream files then {| safe := false; idem_key := None; explicit_retry_opt_in := false |}
  else default {| safe := bool_decide (method = "GET"); idem_key := None; explicit_retry_opt_in := false |} policy.
Definition _dataset_retry_idempotency {W} (call : dataset_call W) : IdempotencyPolicy :=
  if is_callable (dc_form_body call) then {| safe := false; idem_key := None; explicit_retry_opt_in := false |}
  else _dataset_idempotency (dc_idempotency call) (dc_method call) (dc_files call).
Definition _dataset_redirect_policy (redirect_mode : bool) (files : list UploadPart) : RedirectPolicy :=
  if redirect_mode || nonempty_list files then NO_FOLLOW else FOLLOW.

Definition _dataset_request {W} `{!FloatText} (origin : string) (o : OperationId) (deadline : DeadlineMonitor) (call : dataset_call W)
    (c : option credential) : result RuntimeRequest :=
  body ← _dataset_body (dc_json_body call) (dc_form_body call) (dc_files call) o;
  make_runtime_request (dc_method call) (origin +:+ dc_path call)
    (_request_headers (dc_headers call) c (dc_idempotency call) body (no_form (dc_form_body call) && negb (nonempty_list (dc_files call))))
    body (dc_files call) (_dataset_redirect_policy (dc_redirect_mode call) (dc_files call))
    (Some (default DEFAULT_MAX_RESPONSE_BYTES (dc_max_response_bytes call))) (Some deadline).

(** [replace(request, body=...)] *)
Definition with_body (r : RuntimeRequest) (raw : string) : result RuntimeRequest :=
  make_runtime_request (method r) (url r) (req_headers r) (Some raw) (files r) (redirect_policy r) (max_response_bytes r) (deadline r).

(** ** Errors and decoding *)

Definition _STATUS_RESPONSE_CLASSES : list (Z * ProbeResponseClass) :=
  [(401, RespUnauthorized); (403, RespForbidden); (423, RespDeploymentDisabled)].
Definition response_class (status : Z) : option ProbeResponseClass := snd <$> List.find (λ s, s.1 =? status) _STATUS_RESPONSE_CLASSES.
Definition _AUTH_FAILURES : list (string * string) :=
  [("Invalid API token", "invalid"); ("Revoked API token", "revoked"); ("Expired API token", "expired"); ("Inactive user", "inactive-user")].
Definition _auth_failure_reason `{JsonBytes} (body : string) : option string :=
  if 512 <? size body then None
  else match json_loads body with
       | Some (PyDict kvs) => match lookup_key "message" kvs with Some (PyStr m) => dict_get m _AUTH_FAILURES | _ => None end
       | _ => None
       end.
Definition status_metadata `{JsonBytes} (status : Z) (body : option string) : option pydict :=
  match body with
  | Some body => if status =? 401 then (λ reason, [("reason_code", PyStr reason)]) <$> _auth_failure_reason body else None
  | None => None
  end.
Definition unsuccessful (o : OperationId) (status : Z) (retry_after : option Q) (metadata : option pydict) : result exn :=
  native ← native_catalog_error "Catalog operation returned an unsuccessful HTTP status." (operation_str o) "udata" (Some status) None
             retry_after None None metadata;
  map_catalog_error native.

(** [attach_catalog_metadata] *)
Definition attach_catalog_metadata (additions : pydict) : exn → exn :=
  update_info (λ i, CatalogInfo (ci_operation i) (ci_platform i) (ci_capability_state i) (ci_safe_action i) (ci_status_code i)
    (ci_vendor_code i) (ci_retry_after i) (ci_elapsed i) (ci_budget i) (ci_retry_state i)
    (_bounded_metadata (Some (dict_merge (ci_metadata i) additions)))).
Definition _settle_dataset_budget_error (e : exn) (request : RuntimeRequest) (status : option Z) : exn :=
  if bool_decide (method request ∈ ["GET"; "HEAD"; "OPTIONS"]) then e
  else attach_catalog_metadata [("ambiguous", PyBool true); ("status_code", PyInt (default 0 status))] e.

Definition _response_header (name : string) (h : headers) : option string :=
  snd <$> List.find (λ kv, bool_decide (str_lower kv.1 = str_lower name)) h.
Definition _decode_redirect_response (o : OperationId) (status : Z) (h : headers) : result headers :=
  if opt_truthy (_response_header "location" h) then Ok h
  else raise_new (native_catalog_error "The uData redirect response omits its Location header." (operation_str o) "udata" (Some status)
         None None None None None).

(** ** The state *)

Record udata (W : Type) := UdataState {
  ud_scope : string; ud_gate : list (string * (SiteVersion * Q)); ud_probes : list RuntimeRequest; ud_client : client W
}.
Arguments UdataState {W}. Arguments ud_scope {W}. Arguments ud_gate {W}. Arguments ud_probes {W}. Arguments ud_client {W}.

(** [uc_controlled] is the trusted dispatch of the transport the factory bound
    to this client, when it did. *)
Record UDataClient (W : Type) := {
  uc_origin : string; uc_profile : EffectiveCapabilityProfile; uc_credentials : credentials; uc_gate : SiteVersionGate;
  uc_budget : TimeBudget; uc_max_attempts : Z; uc_emitter : EventEmitter W; uc_owns_transport : bool;
  uc_controlled : option (string → pyval → M W RuntimeResponse); uc_closed_message : string
}.
Arguments uc_origin {W}. Arguments uc_profile {W}. Arguments uc_credentials {W}. Arguments uc_gate {W}. Arguments uc_budget {W}.
Arguments uc_max_attempts {W}. Arguments uc_emitter {W}. Arguments uc_owns_transport {W}. Arguments uc_controlled {W}.
Arguments uc_closed_message {W}.

Section client.
Context {W : Type} `{!CatalogEnv W, !ScopedCapabilities W, !StreamEnv W, IpLiterals, Hmac, JsonBytes, FiniteJson, FloatText}.
Variable self : UDataClient W.
Abbreviation D := (M (client W)).
Abbreviation U := (M (udata W)).

Definition on_client {A} (m : D A) : U A := zoom ud_client (λ c s, UdataState (ud_scope s) (ud_gate s) (ud_probes s) c) m.
(** The gate runs on its cache and the world of the client. *)
Definition in_gate {A} (m : M (gate W) A) : U A := λ s,
  let c := ud_client s in
  let '(r, g) := m (Gate (ud_gate s) (ud_probes s) (cl_world c)) in
  (r, UdataState (ud_scope s) (g_cache g) (g_sent g)
        (ClientState (cl_closed c) (cl_breakers c) (ds_attempts c) (ds_recorded c) (cl_log c) (g_world g))).
Definition set_udata_scope (scope : string) : U unit := modify (λ s, UdataState scope (ud_gate s) (ud_probes s) (ud_client s)).

(** *** Events *)

Definition ud_emit (o : OperationId) (outcome : string) (metadata : pydict) : D unit :=
  emit_event (uc_emitter self) (operation_str o) "udata" outcome metadata.
Definition ud_emit_breaker_change (o : OperationId) (before after : bool) : D unit :=
  if Bool.eqb before after then mret tt else ud_emit o "breaker_state_change" [("breaker_open", PyBool after)].
Definition _emit_dataset_failure (o : OperationId) (e : exn) (emit_success : bool) : D unit :=
  if emit_success then ud_emit o (if is_subclass (exn_kind e) BudgetExhaustedError then "budget_exhausted" else "failed") [] else mret tt.

(** *** What is checked before a request *)

Definition _require_site_version (deadline : option DeadlineMonitor) : U SiteVersion :=
  in_gate (require_current (uc_gate self) (uc_credentials self) deadline).
(** [site_version] *)
Definition site_version (deadline : option DeadlineMonitor) : U SiteVersion :=
  closed ← read (λ s, cl_closed (ud_client s));
  if (closed : bool) then throw (err RuntimeError (uc_closed_message self)) else _require_site_version deadline.

(** [_refreshed_credential(self._credentials)] *)
Definition ud_refreshed (provider : M W (option credential)) : D (option credential) :=
  match uc_credentials self with
  | NoCredentials => mret None
  | Clients.Resolver explicit => mret explicit
  | Plain c => mret (Some c)
  | Provider _ => on_world provider
  end.
Definition call_credential (provider : M W (option credential)) (call : dataset_call W) : D (option credential) :=
  if dc_omit_credential call then mret None
  else match dc_credential call with Some c => mret (Some c) | None => ud_refreshed provider end.
Definition _refresh_credential_scope (c : option credential) : U string :=
  let scope := _credential_scope (as_credentials c) in
  current ← read ud_scope;
  if bool_decide (scope = current) then mret scope
  else on_client (on_world (scoped_invalidate None));; in_gate invalidate_gate;; set_udata_scope scope;; mret scope.

Definition _controlled_origin : result bool :=
  parsed ← urlsplit (uc_origin self);
  Ok (loopback parsed).
Definition declared_read (o : OperationId) : bool :=
  match operations (declared_profile (uc_profile self)) !! o with Some spec => is_read (mutation_class spec) | None => false end.
Definition _require_dispatchable (o : OperationId) (effective : EffectiveCapabilityProfile) (permissions : option EffectivePermissions)
  : result unit :=
  controlled ← _controlled_origin;
  (if negb controlled && negb (declared_read o) then
     raise_new (catalog_error CatalogValidationError
       "uData mutations, administration, and uploads require a controlled local deployment." (operation_str o) "udata" None
       "Point the client at a loopback uData deployment before dispatching this route." None)
   else Ok tt);;
  require_allowed o (Some effective) permissions.

Definition _admit_request (o : OperationId) (request : RuntimeRequest) : D CircuitKey :=
  key ← lift_res (_circuit_key request (uc_credentials self));
  admitted ← on_breakers (breaker_admit key);
  if (admitted : bool) then mret key
  else ud_emit o "breaker_open" [];;
    lift_res (raise_new (catalog_error CatalogUnavailableError
      "The catalog origin circuit is open after consecutive transport failures." (operation_str o) "udata" (Some "unavailable")
      "Wait for the circuit cool-down or explicitly reset the circuit before retrying." None)).

(** *** One attempt: [_RequestAttempt.dispatch] around the transport *)

Definition _CONTROLLED_ORIGIN : string := "http://127.0.0.1:5640".
(** [_controlled_dispatch_state]: the trusted dispatch, its credential and body *)
Definition controlled_dispatch (request : RuntimeRequest) (c : option credential) (json_body : pyval) : result (M W RuntimeResponse) :=
  let refused := raise_new (catalog_error CatalogValidationError "The uData site PATCH is not bound to the verified controlled client."
        SET_SITE_OPERATION "udata" None "Use the verified disposable uData evidence stack." None) in
  match uc_controlled self with
  | None => refused
  | Some dispatch =>
      if negb (bool_decide (uc_origin self = _CONTROLLED_ORIGIN)) || negb (bool_decide (method request = "PATCH")) ||
         negb (bool_decide (url request = _CONTROLLED_ORIGIN +:+ "/api/1/site/")) then refused
      else match c, is_mapping json_body with
           | Some (UDataCredential key), true => Ok (dispatch key json_body)
           | _, _ => raise_new (catalog_error CatalogValidationError
                       "The controlled uData site PATCH requires a resolved credential and body." SET_SITE_OPERATION "udata" None
                       "Use the verified disposable uData evidence stack." None)
           end
  end.
Definition ud_send (request : RuntimeRequest) (c : option credential) (json_body : pyval) (controlled : bool) : D RuntimeResponse :=
  send ← lift_res (if controlled then controlled_dispatch request c json_body else Ok (transport_send request));
  note (Clients.Sent request);;
  on_world send.

Definition ud_record_failure (o : OperationId) (key : CircuitKey) (before : CircuitState) : D unit :=
  set_dispatch id true;;
  after ← on_breakers (record_transport_failure key);
  ud_emit_breaker_change o (is_open before) (is_open after).
Definition ud_record_response (o : OperationId) (key : CircuitKey) (before : CircuitState) (response : RuntimeResponse) : D RuntimeResponse :=
  after ← on_breakers (Breaker.record_response key (status_code response));
  set_dispatch id true;;
  ud_emit_breaker_change o (is_open before) (is_open after);;
  mret response.
(** The clauses [except BudgetExhaustedError] and [except TransportError] *)
Definition attempt_failed {A} (o : OperationId) (key : CircuitKey) (before : CircuitState) (request : RuntimeRequest)
    (status : option Z) (e : exn) : option (D A) :=
  if is_subclass (exn_kind e) BudgetExhaustedError then Some (throw (_settle_dataset_budget_error e request status))
  else if is_subclass (exn_kind e) TransportError then Some (ud_record_failure o key before;; throw e)
  else None.
Definition attempt_body (call : dataset_call W) (request : RuntimeRequest) : D RuntimeRequest :=
  match dc_form_body call with
  | FormCall make => raw ← on_world make; lift_res (with_body request raw)
  | _ => mret request
  end.
Definition ud_attempt (o : OperationId) (call : dataset_call W) (request : RuntimeRequest) (c : option credential)
    (deadline : DeadlineMonitor) (key : CircuitKey) : D RuntimeResponse :=
  set_dispatch (λ n, n + 1) false;;
  before ← on_breakers (inspect key);
  request ← attempt_body call request;
  assert_dispatchable None None deadline;;
  response ← try_except (ud_send request c (dc_json_body call) (bool_decide (dc_owning_operation call = SET_SITE_OPERATION)))
    (attempt_failed o key before request None);
  try_except (assert_dispatchable None None deadline;; mret tt) (attempt_failed o key before request (Some (status_code response)));;
  ud_record_response o key before response.

(** *** Decoding *)

Definition accepted_status (redirect_mode : bool) (accept_status : option (Z → bool)) (status : Z) : bool :=
  redirect_mode && bool_decide (status ∈ REDIRECT_STATUSES) ||
  match accept_status with Some f => f status | None => false end || ((200 <=? status) && (status <? 300)).
Definition _validate_status (o : OperationId) (status : Z) (retry_after : option Q) (body : option string) (redirect_mode : bool)
    (scope : string) (accept_status : option (Z → bool)) : D unit :=
  if accepted_status redirect_mode accept_status status then mret tt
  else
    match response_class status with Some c => on_world (scoped_record o c scope) | None => mret tt end;;
    lift_res (raise_new (unsuccessful o status retry_after (status_metadata status body))).

Definition decode_dataset_body (o : OperationId) (call : dataset_call W) (limit : option Z) (response : RuntimeResponse)
  : result udata_payload :=
  let status := status_code response in
  if over limit (size (body response)) then
    raise_new (native_catalog_error "Catalog operation returned a response larger than its configured byte limit." (operation_str o)
      "udata" (Some status) None None None None None)
  else if dc_redirect_mode call && bool_decide (status ∈ REDIRECT_STATUSES) then
    h ← _decode_redirect_response o status (resp_headers response); Ok (Redirected h)
  else if dc_raw_text call then Ok (RawBody (body response))
  else if negb (str_nonempty (body response)) then Ok NoBody
  else match json_loads_finite (body response) with
       | Some v => Ok (JsonBody v)
       | None => raise_new (native_catalog_error "Catalog operation returned an invalid JSON result." (operation_str o) "udata"
                   (Some status) None None None None (Some [("ambiguous", PyBool (negb (bool_decide (dc_method call = "GET"))))]))
       end.
Definition _decode_dataset_response (o : OperationId) (call : dataset_call W) (limit : option Z) (response : RuntimeResponse)
    (scope : string) : D (Z * udata_payload * RuntimeResponse) :=
  _validate_status o (status_code response) (retry_after response) (Some (body response)) (dc_redirect_mode call) scope (dc_accept_status call);;
  payload ← lift_res (decode_dataset_body o call limit response);
  mret (status_code response, payload, response).

(** *** The call *)

Definition fail_with_event {A} (o : OperationId) (emit_success : bool) (m : D A) : D A :=
  try_except m (λ e, if is_Exception (exn_kind e) then Some (_emit_dataset_failure o e emit_success;; throw e) else None).

(** The retry loop of a call: [_dataset_retry] around [RetryLoop.run] *)
Definition ud_retry (o : OperationId) (call : dataset_call W) (request : RuntimeRequest) (c : option credential)
    (deadline : DeadlineMonitor) (key : CircuitKey) : D RuntimeResponse :=
  set_dispatch (λ _, 0) false;;
  try_finally
    (fail_with_event o (dc_emit_success call)
      (loop ← lift_res (make_retry_loop (uc_budget self) (_dataset_retry_idempotency call) deadline (uc_max_attempts self));
       run (λ d, on_world (retry_sleep d)) (ud_attempt o call request c deadline key) loop))
    (_release_abandoned_trial key).
Definition _finish_dataset_call (o : OperationId) (call : dataset_call W) (request : RuntimeRequest) (scope : string)
    (response : RuntimeResponse) : D (Z * udata_payload * RuntimeResponse) :=
  result ← fail_with_event o (dc_emit_success call) (_decode_dataset_response o call (max_response_bytes request) response scope);
  (if dc_emit_success call then ud_emit o "succeeded" [] else mret tt);;
  mret result.

Definition _dataset_deadline (o : OperationId) (call : dataset_call W) : D DeadlineMonitor :=
  deadline ← match dc_deadline call with Some d => mret d | None => make_monitor (uc_budget self) end;
  assert_dispatchable (Some (operation_str o)) (Some "udata") deadline.
Definition dataset_call_with (resolve : OperationId → string → M W EffectiveCapabilityProfile) (provider : M W (option credential))
    (call : dataset_call W) : U (Z * udata_payload * RuntimeResponse) :=
  closed ← read (λ s, cl_closed (ud_client s));
  (if (closed : bool) then throw (err RuntimeError (uc_closed_message self)) else mret tt);;
  o ← lift_res (_operation_id_from (dc_owning_operation call));
  deadline ← on_client (_dataset_deadline o call);
  _require_site_version (Some deadline);;
  c ← on_client (call_credential provider call);
  scope ← _refresh_credential_scope c;
  effective ← on_client (on_world (resolve o scope));
  lift_res (_require_dispatchable o effective (dc_permissions call));;
  deadline ← on_client (assert_dispatchable (Some (operation_str o)) (Some "udata") deadline);
  request ← lift_res (_dataset_request (uc_origin self) o deadline call c);
  key ← on_client (_admit_request o request);
  response ← on_client (ud_retry o call request c deadline key);
  on_client (_finish_dataset_call o call request scope response).

Definition _dataset_call := dataset_call_with scoped_resolve provider_resolve.
Definition _dataset_call_async := dataset_call_with scoped_resolve_async provider_resolve_async.

(** *** Streams *)

(** The stream of a 2xx answer, which [_StreamGuard] settles when it has been
    read, and the answer of a redirect *)
Inductive udata_stream :=
  | StreamRedirect (h : headers) (response : RuntimeStreamResponse)
  | GuardedStream (h : headers) (response : RuntimeStreamResponse) (key : CircuitKey) (deadline : DeadlineMonitor).

(** [SETTLEMENT_ERRORS] and [ASYNC_SETTLEMENT_ERRORS] *)
Definition settles (is_async : bool) (e : exn) : bool := is_async || negb (bool_decide (exn_kind e = CancelledError)).
Definition _stream_failure_outcome (e : exn) : string := if bool_decide (exn_kind e = CancelledError) then "cancelled" else "failed".

Definition _build_stream_request (o : OperationId) (path : string) (h : headers) (c : option credential)
  : D (RuntimeRequest * DeadlineMonitor * (RuntimeRequest → M W (headers * RuntimeStreamResponse))) :=
  deadline ← make_monitor (uc_budget self);
  deadline ← assert_dispatchable (Some (operation_str o)) (Some "udata") deadline;
  request ← lift_res (make_runtime_request "GET" (uc_origin self +:+ path) (dict_merge h (_auth_headers c)) None [] NO_FOLLOW None (Some deadline));
  match send_stream with
  | Some send => mret (request, deadline, send)
  | None => lift_res (raise_new (catalog_error CatalogValidationError "The uData export requires a streaming catalog transport."
      (operation_str o) "udata" None "Use the default transport or inject one implementing send_stream." None))
  end.

Definition _record_stream_response (o : OperationId) (key : CircuitKey) (status : Z) : D bool :=
  before ← on_breakers (inspect key);
  let settled (m : M (BreakerRegistry * W) CircuitState) : D bool :=
    after ← on_breakers m; ud_emit_breaker_change o (is_open before) (is_open after);; mret true in
  if 500 <=? status then settled (record_transport_failure key)
  else if 400 <=? status then settled (Breaker.record_response key status)
  else if 300 <=? status then settled (record_success key)
  else mret false.

Definition _settle_stream_redirect (is_async : bool) (o : OperationId) (h : headers) (response : RuntimeStreamResponse) (scope : string)
  : D bool :=
  try_except
    (_validate_status o (stream_status response) (stream_retry_after response) None true scope None;;
     if bool_decide (stream_status response ∈ REDIRECT_STATUSES) then
       lift_res (_decode_redirect_response o (stream_status response) h);; mret true
     else mret false)
    (λ e, if settles is_async e then
       Some (ud_emit o "failed" [];;
             try_except (on_world stream_release)
               (λ e', if is_Exception (exn_kind e') || (is_async && bool_decide (exn_kind e' = CancelledError)) then Some (mret tt) else None);;
             throw e)
     else None).

(** What precedes the circuit *)
Definition open_stream (resolve : OperationId → string → M W EffectiveCapabilityProfile) (provider : M W (option credential))
    (o : OperationId) (path : string) (h : headers) (given : option credential)
  : U (RuntimeRequest * DeadlineMonitor * (RuntimeRequest → M W (headers * RuntimeStreamResponse)) * string) :=
  site_version None;;
  c ← on_client (match given with Some c => mret (Some c) | None => ud_refreshed provider end);
  scope ← _refresh_credential_scope c;
  effective ← on_client (on_world (resolve o scope));
  lift_res (_require_dispatchable o effective None);;
  '(request, deadline, send) ← on_client (_build_stream_request o path h c);
  mret (request, deadline, send, scope).

(** The section between the circuit and the guard *)
Definition send_open_stream (is_async : bool) (o : OperationId) (request : RuntimeRequest) (deadline : DeadlineMonitor)
    (send : RuntimeRequest → M W (headers * RuntimeStreamResponse)) (scope : string) (key : CircuitKey) : D udata_stream :=
  set_dispatch (λ _, 0) false;;
  try_finally
    (before ← on_breakers (inspect key);
     '(h, response) ← try_except (note (Clients.Sent request);; on_world (send request)) (λ e,
       if is_subclass (exn_kind e) TransportError then
         Some (after ← on_breakers (record_transport_failure key);
               ud_emit_breaker_change o (is_open before) (is_open after);;
               set_dispatch id true;;
               ud_emit o "failed" [];;
               throw e)
       else None);
     settled ← _record_stream_response o key (stream_status response);
     set_dispatch id settled;;
     redirected ← _settle_stream_redirect is_async o h response scope;
     mret (if (redirected : bool) then StreamRedirect h response else GuardedStream h response key deadline))
    (_release_abandoned_trial key).
Definition root_stream_with (is_async : bool) (resolve : OperationId → string → M W EffectiveCapabilityProfile)
    (provider : M W (option credential)) (owning_operation path : string) (h : headers) (given : option credential) : U udata_stream :=
  o ← lift_res (_operation_id_from owning_operation);
  '(request, deadline, send, scope) ← try_except (open_stream resolve provider o path h given) (λ e,
    if is_subclass (exn_kind e) BudgetExhaustedError then Some (on_client (ud_emit o "budget_exhausted" []);; throw e)
    else if settles is_async e then Some (on_client (ud_emit o (_stream_failure_outcome e) []);; throw e)
    else None);
  key ← on_client (_admit_request o request);
  on_client (send_open_stream is_async o request deadline send scope key).
Definition _root_stream_call := root_stream_with false scoped_resolve provider_resolve.
Definition _root_stream_call_async := root_stream_with true scoped_resolve_async provider_resolve_async.

(** *** Capabilities and the life cycle *)

Definition ud_capability (operation_id : string) : U string :=
  o ← lift_res (_operation_id_from operation_id);
  profile ← on_client (on_world (scoped_peek o (_credential_scope (uc_credentials self))));
  mret (_capability_value (gd_state (guard_operation profile o))).
Definition ud_invalidate (operation_id : option string) : U unit :=
  target ← lift_res (match operation_id with Some v => o ← _operation_id_from v; Ok (Some o) | None => Ok None end);
  on_client (on_world (scoped_invalidate target));;
  in_gate invalidate_gate.
Definition ud_close : D unit :=
  closed ← read cl_closed;
  if (closed : bool) then mret tt
  else set_client_closed;; if uc_owns_transport self then on_world transport_close else mret tt.
End client.
