(* ===== verification/UdataProofs.v ===== *)
(** * What the uData client does

    The theorems about [Udata] and [UdataClient]: what precedes a request and
    how many are sent, the events and half-open trials a call leaves, and a
    stream whose exhausted budget is never reported. *)
From Stdlib Require Import QArith ZArith Lia.
From stdpp Require Import strings gmap.
From S2P Require Import Prelude PyVal Regex Redaction Policies Errors Transport Resilience Breaker Urls Json JsonText Ids Profiles Capability Projection Records Mutation Events Clients ClientProofs Uris Targets ByteSource Ckan CkanClient Udata UdataClient.
Import Deadline.
Local Close Scope Q_scope.
Local Open Scope Z_scope.
Local Open Scope py_scope.

(** ** The gate *)

Section gate.
Context {W : Type} `{!CatalogEnv W} {ips : IpLiterals} {hm : Hmac} {jb : JsonBytes}.
Variable self : SiteVersionGate.
Implicit Types s : gate W.

(** Every version the gate keeps is the pinned one. *)
Definition gate_ok (cache : list (string * (SiteVersion * Q))) : Prop :=
  Forall (λ kv, sv_version kv.2.1 = sg_pinned_version self) cache.
(** The request of a probe: it carries no credential. *)
Definition site_request (r : RuntimeRequest) : Prop :=
  method r = "GET" ∧ url r = sg_origin self +:+ SITE_PATH ∧ req_headers r = [] ∧ req_body r = None.

Lemma exact_version observed pinned v : require_exact_version observed pinned = Ok v → sv_version v = pinned.
Proof. unfold require_exact_version. case_bool_decide; [by intros [= <-]|by intros He%raise_new_ok]. Qed.
Lemma decode_site_pinned response v : decode_site self response = Ok v → sv_version v = sg_pinned_version self.
Proof.
  unfold decode_site. destruct (List.find _ _) as [[? state]|]; [by intros He%raise_new_ok|].
  destruct (negb _); [by intros He%raise_new_ok|]. destruct (json_loads _) as [payload|]; [|by intros He%raise_new_ok].
  intros H. inv_ok. by eapply exact_version.
Qed.

Definition gate_step s s' : Prop :=
  g_cache s' = g_cache s ∧ ∃ ps, g_sent s' = g_sent s ++ ps ∧ (length ps ≤ 1)%nat ∧ Forall site_request ps.
Lemma gate_still s s' : g_cache s' = g_cache s → g_sent s' = g_sent s → gate_step s s'.
Proof. intros Hc Hs. split; [done|]. exists []. rewrite app_nil_r. split_and!; [done|cbn; lia|constructor]. Qed.

Lemma probe_request_spec deadline s r s' : _probe_request self deadline s = (r, s') →
  g_cache s' = g_cache s ∧ g_sent s' = g_sent s ∧ ∀ q, r = Ok q → site_request q.
Proof.
  unfold _probe_request. rewrite bind_step. set (K := λ s1 : gate W, g_cache s1 = g_cache s ∧ g_sent s1 = g_sent s).
  assert (HK : preserves K (still_dispatchable deadline)).
  { unfold still_dispatchable. case_match; [|auto with datasluice]. apply preserves_bind; [|auto with datasluice].
    apply assert_dispatchable_keeps. intros s1 [? ?]. unfold clock, gate_clocked. by destruct (clock _). }
  specialize (HK s (conj eq_refl eq_refl)). destruct (still_dispatchable _ s) as [[[]|e] s1]; destruct HK as [HK1 HK2]; cbn in HK1, HK2.
  - unfold lift_res. intros [= <- <-]. split_and!; [done|done|]. by intros q (? & ? & ? & ?)%make_request_headers.
  - intros [= <- <-]. by split_and!.
Qed.

Lemma ud_probe_spec deadline s r s' : _probe self deadline s = (r, s') →
  gate_step s s' ∧ ∀ v, r = Ok v → sv_version v = sg_pinned_version self.
Proof.
  unfold _probe. rewrite bind_step. destruct (_probe_request _ _ _) as [[q|e] s1] eqn:E1; apply probe_request_spec in E1 as (Hc1 & Hs1 & Hq);
    [|intros [= <- <-]; split; [by apply gate_still|done]].
  specialize (Hq q eq_refl). rewrite bind_step.
  set (K := λ s2 : gate W, g_cache s2 = g_cache s1 ∧ g_sent s2 = g_sent s1 ++ [q]).
  set (h := λ e : exn, _). assert (Hh : K (try_except (note_site q;; on_gate (transport_send q)) h s1).2).
  { unfold try_except. rewrite bind_step. unfold note_site at 1, modify. cbn.
    unfold on_gate at 1. cbn. destruct (transport_send q (g_world s1)) as [[resp|e] w]; [done|]. cbn.
    destruct (h e) as [k|] eqn:Eh; [|done]. subst h. cbn beta in Eh. case_match; [done|]. case_match; [|done]. apply (inj Some) in Eh as <-. unfold lift_res. by split. }
  destruct (try_except _ h s1) as [[response|e] s2]; destruct Hh as [Hc2 Hs2]; cbn in Hc2, Hs2.
  - unfold _decode_probe. rewrite bind_step. assert (HK : preserves K (still_dispatchable deadline)).
    { unfold still_dispatchable. case_match; [|auto with datasluice]. apply preserves_bind; [|auto with datasluice].
      apply assert_dispatchable_keeps. intros s3 [? ?]. unfold clock, gate_clocked. by destruct (clock _). }
    specialize (HK s2 (conj Hc2 Hs2)). destruct (still_dispatchable _ s2) as [[[]|e] s3]; destruct HK as [Hc3 Hs3]; cbn in Hc3, Hs3.
    + unfold lift_res. intros [= <- <-]. split; [|intros v; apply decode_site_pinned].
      split; [congruence|]. exists [q]. split_and!; [congruence|done|by constructor].
    + intros [= <- <-]. split; [|done]. split; [congruence|]. exists [q]. split_and!; [congruence|done|by constructor].
  - intros [= <- <-]. split; [|done]. split; [congruence|]. exists [q]. split_and!; [congruence|done|by constructor].
Qed.


Lemma cached_spec scope s r s' : cached_version self scope s = (r, s') → g_cache s' = g_cache s ∧ g_sent s' = g_sent s ∧
  (gate_ok (g_cache s) → ∀ v, r = Ok (Some v) → sv_version v = sg_pinned_version self).
Proof.
  unfold cached_version. rewrite bind_step. cbn [read]. destruct (dict_get scope (g_cache s)) as [[v t]|] eqn:E; [|by intros [= <- <-]].
  rewrite bind_step. unfold clock_now, clock, gate_clocked. destruct (clock (g_world s)) as [now w]. intros [= <- <-].
  split_and!; [done|done|]. intros Hok v'. case_match; [|done]. intros [= <-]. apply dict_get_elem in E.
  unfold gate_ok in Hok. rewrite Forall_forall in Hok. by apply (Hok (scope, (v, t))).
Qed.

(** The gate gives the pinned version only, and keeps no other. *)
Lemma require_current_spec credentials deadline s r s' : require_current self credentials deadline s = (r, s') →
  gate_ok (g_cache s) →
  gate_ok (g_cache s') ∧ (∃ ps, g_sent s' = g_sent s ++ ps ∧ (length ps ≤ 1)%nat ∧ Forall site_request ps) ∧
  ∀ v, r = Ok v → sv_version v = sg_pinned_version self.
Proof.
  intros E Hok. unfold require_current in E. set (scope := _credential_scope _) in E. rewrite bind_step in E.
  destruct (cached_version self scope s) as [[cached|e] s1] eqn:E1; apply cached_spec in E1 as (Hc & Hs & Hv); specialize (Hv Hok).
  2:{ injection E as <- <-. rewrite Hc, Hs. split_and!; [done|exists []; rewrite app_nil_r; split_and!; [done|cbn; lia|done]|done]. }
  destruct cached as [v|].
  { injection E as <- <-. rewrite Hc, Hs. split_and!; [done|exists []; rewrite app_nil_r; split_and!; [done|cbn; lia|done]|].
    intros v' [= <-]. by apply Hv. }
  rewrite bind_step in E. destruct (_probe self deadline s1) as [[observed|e] s2] eqn:E2; apply ud_probe_spec in E2 as [[Hc2 Hs2] Hv2];
    rewrite Hs in Hs2.
  - rewrite bind_step in E. unfold clock_now, clock, gate_clocked in E. destruct (clock (g_world s2)) as [now w].
    injection E as <- <-. cbn. split_and!; [|done|done]. apply dict_set_Forall; [by apply Hv2|]. by rewrite Hc2, Hc.
  - injection E as <- <-. rewrite Hc2, Hc. by split_and!.
Qed.
End gate.

(** ** Attempts *)

Section client.
Context {W : Type} `{!CatalogEnv W, !ScopedCapabilities W, !StreamEnv W} {ips : IpLiterals} {hm : Hmac} {jb : JsonBytes} {fj : FiniteJson} {ft : FloatText}.
Variable self : UDataClient W.
Implicit Types (s : client W) (o : OperationId) (r : RuntimeRequest) (call : dataset_call W).
#[local] Hint Resolve world_summary breakers_summary set_summary event_quiet : datasluice.

Abbreviation in_flight s := (_trial_in_flight (cl_breakers s)).

Lemma ud_change_quiet o b a x : preserves (λ s, summary s = x) (ud_emit_breaker_change self o b a).
Proof. unfold ud_emit_breaker_change. case_match; [auto with datasluice|by apply event_quiet]. Qed.
#[local] Hint Resolve ud_change_quiet : datasluice.
Lemma dispatchable_quiet op pl deadline x : preserves (λ s : client W, summary s = x) (assert_dispatchable op pl deadline).
Proof. apply assert_dispatchable_keeps. intros s. apply clock_summary. Qed.
#[local] Hint Resolve dispatchable_quiet : datasluice.

(** The handlers of an attempt *)
Lemma failed_keeps (P : client W → Prop) {A} o key before request status e k :
  preserves P (ud_record_failure self o key before) → attempt_failed (A:=A) self o key before request status e = Some k → preserves P k.
Proof.
  intros HP. unfold attempt_failed. case_match; [intros Hk; apply (inj Some) in Hk as <-; auto with datasluice|].
  case_match; [|done]. intros Hk. apply (inj Some) in Hk as <-. auto with datasluice.
Qed.
Lemma record_failure_quiet o key before x : preserves (λ s, summary s = x) (ud_record_failure self o key before).
Proof. unfold ud_record_failure. auto 10 with datasluice. Qed.
#[local] Hint Resolve record_failure_quiet : datasluice.

(** What a request that is sent is *)
Definition body_of call r r' : Prop :=
  r' = r ∨ ∃ make raw, dc_form_body call = FormCall make ∧ with_body r raw = Ok r'.
Definition patch_bound call (c : option credential) r : Prop :=
  dc_owning_operation call = SET_SITE_OPERATION →
  uc_origin self = _CONTROLLED_ORIGIN ∧ is_Some (uc_controlled self) ∧ method r = "PATCH" ∧ url r = _CONTROLLED_ORIGIN +:+ SITE_PATH ∧
  (∃ key, c = Some (UDataCredential key)) ∧ is_mapping (dc_json_body call) = true.
Definition sendable call c r r' : Prop := body_of call r r' ∧ patch_bound call c r'.
Definition may_send call c r (x y : bool * list RuntimeRequest * list string) : Prop :=
  y = x ∨ ∃ r', sendable call c r r' ∧ y = and_send r' x.
Lemma ud_may_sends call c r n x y : nsteps (may_send call c r) n x y →
  ∃ rs, (length rs ≤ n)%nat ∧ Forall (sendable call c r) rs ∧ y = (x.1.1, x.1.2 ++ rs, x.2).
Proof.
  intros Hn. induction Hn as [x|n x y z Hxy _ (rs & Hl & Hk & ->)].
  - exists []. cbn. rewrite app_nil_r. split_and!; [lia|constructor|by destruct x as [[]]].
  - destruct Hxy as [->|(r' & Hr & ->)]; [exists rs; split_and!; [lia|done..]|].
    exists (r' :: rs). split_and!; [cbn; lia|by constructor|]. cbn. by rewrite <- app_assoc.
Qed.

Lemma controlled_bound call c r m : controlled_dispatch self r c (dc_json_body call) = Ok m → patch_bound call c r.
Proof.
  unfold controlled_dispatch, patch_bound. destruct (uc_controlled self) as [d|]; [|by intros He%raise_new_ok].
  destruct (bool_decide_reflect (uc_origin self = _CONTROLLED_ORIGIN)); [|by intros He%raise_new_ok].
  destruct (bool_decide_reflect (method r = "PATCH")); [|by intros He%raise_new_ok].
  destruct (bool_decide_reflect (url r = _CONTROLLED_ORIGIN +:+ "/api/1/site/")); [|by intros He%raise_new_ok]. cbn [negb orb].
  destruct c as [[]|]; try by intros He%raise_new_ok. destruct (is_mapping _) eqn:Em; [|by intros He%raise_new_ok].
  intros _ _. split_and!; [done..| |done]. by eexists.
Qed.

(** Sending notes the request, unless the controlled dispatch refuses it. *)
Lemma send_step {A} (call : dataset_call W) c r (h : exn → option (M (client W) RuntimeResponse)) (k : RuntimeResponse → M (client W) A) s :
  (∀ x e m, h e = Some m → preserves (λ s, summary s = x) m) → (∀ x a, preserves (λ s, summary s = x) (k a)) →
  let s' := (response ← try_except (ud_send self r c (dc_json_body call) (bool_decide (dc_owning_operation call = SET_SITE_OPERATION))) h;
             k response) s in
  summary s'.2 = summary s ∨ patch_bound call c r ∧ summary s'.2 = and_send r (summary s).
Proof.
  intros Hh Hk. cbn zeta. assert (Ht : ∀ x m, preserves (λ s, summary s = x) m → preserves (λ s, summary s = x) (response ← try_except m h; k response)).
  { intros x m Hm. apply preserves_bind; [|done]. apply preserves_try; [done|]. intros e m' He. by eapply Hh. }
  set (d := if bool_decide (dc_owning_operation call = SET_SITE_OPERATION) then controlled_dispatch self r c (dc_json_body call) else Ok (transport_send r)).
  assert (Hd : ∀ m, d = Ok m → patch_bound call c r).
  { intros m. subst d. case_bool_decide; [apply controlled_bound|]. intros _ ?. done. }
  destruct d as [m|e] eqn:Ed.
  - right. split; [by eapply Hd|].
    set (s1 := ClientState (cl_closed s) (cl_breakers s) (ds_attempts s) (ds_recorded s) (cl_log s ++ [Clients.Sent r]) (cl_world s)).
    assert (Hs1 : summary s1 = and_send r (summary s)).
    { unfold summary, and_send. cbn. unfold sent, terminal. rewrite !omap_app. cbn. by rewrite app_nil_r. }
    rewrite <- Hs1. refine (eq_trans _ (Ht (summary s1) (on_world m) (world_summary _ _) s1 eq_refl)).
    do 2 f_equal. unfold ud_send. subst d. unfold try_except, mbind, M_bind, lift_res. rewrite Ed. reflexivity.
  - left. refine (eq_trans _ (Ht (summary s) (throw e) _ s eq_refl)); [|auto with datasluice].
    do 2 f_equal. unfold ud_send. subst d. unfold try_except, mbind, M_bind, lift_res. rewrite Ed. reflexivity.
Qed.

Lemma attempt_body_spec call r x s : summary s = x →
  let '(res, s') := attempt_body call r s in summary s' = x ∧ ∀ r', res = Ok r' → body_of call r r'.
Proof.
  intros Hs. unfold attempt_body. destruct (dc_form_body call) as [|raw|make] eqn:Ef; [| |].
  1,2: cbn; split; [done|]; intros r' [= <-]; by left.
  rewrite bind_step. assert (Hw := world_summary x make s Hs). destruct (on_world make s) as [[raw|e] s1]; cbn in Hw; [|done].
  unfold lift_res. split; [done|]. intros r' Hr'. right. by exists make, raw.
Qed.

Lemma ud_attempt_sends o call r c deadline key s : may_send call c r (summary s) (summary (ud_attempt self o call r c deadline key s).2).
Proof.
  unfold ud_attempt. rewrite bind_step. cbn [set_dispatch modify]. set (s1 := ClientState _ _ _ _ _ _).
  assert (H1 : summary s1 = summary s) by done. rewrite <- H1. clearbody s1. clear H1. rewrite bind_step.
  assert (H2 := breakers_summary (summary s1) (inspect key) s1 eq_refl).
  destruct (on_breakers (inspect key) s1) as [[before|e] s2]; cbn in H2; [|by left].
  rewrite bind_step. assert (H3 := attempt_body_spec call r _ s2 H2). destruct (attempt_body call r s2) as [[r'|e] s3]; destruct H3 as [H3 Hb]; [|by left].
  rewrite bind_step. assert (H4 := dispatchable_quiet None None deadline _ s3 H3).
  destruct (assert_dispatchable _ _ _ s3) as [[m|e] s4]; cbn in H4; [|by left]. rewrite <- H4.
  destruct (send_step call c r' (attempt_failed self o key before r' None) (λ response,
    try_except (assert_dispatchable None None deadline;; mret tt) (attempt_failed self o key before r' (Some (status_code response)));;
    ud_record_response self o key before response) s4) as [H|[Hp H]].
  - intros x e k. apply failed_keeps. auto with datasluice.
  - intros x response. apply preserves_bind; [apply preserves_try; [auto with datasluice|intros e k; apply failed_keeps; auto with datasluice]|].
    intros _. unfold ud_record_response. auto 10 with datasluice.
  - left. exact H.
  - right. exists r'. split; [|exact H]. split; [by apply Hb|done].
Qed.

(** The registry keeps its invariant, so that recording a failure returns and
    gives the trial back. *)
Lemma registry_keeps op (t : BreakerRegistry * W) : registry_inv t.1 → op_valid op = true →
  ∃ v, (exec op t).1 = Ok v ∧ registry_inv (exec op t).2.1.
Proof.
  destruct t as [b w]. intros Hb Hv. destruct (exec_refines op b w Hb Hv) as (v & r' & w' & E & [Hr _ _ _]). rewrite E. by exists v.
Qed.
Lemma breakers_keep {A} (m : M (BreakerRegistry * W) A) :
  (∀ t, registry_inv t.1 → registry_inv (m t).2.1) → preserves (λ s, registry_inv (cl_breakers s)) (on_breakers m).
Proof. intros Hm s Hs. unfold on_breakers. specialize (Hm (cl_breakers s, cl_world s) Hs). by destruct (m _) as [res [b w]]. Qed.
Lemma exec_keeps {A} (m : M (BreakerRegistry * W) A) op (g : A → option bool) : op_valid op = true →
  (∀ t, exec op t = (a ← m; mret (g a)) t) → ∀ t, registry_inv t.1 → registry_inv (m t).2.1.
Proof.
  intros Hv He t Ht. destruct (registry_keeps op t Ht Hv) as (v & _ & Hr). rewrite He, bind_step in Hr. by destruct (m t) as [[a|e] t'].
Qed.
Lemma response_keeps key status : ∀ t : BreakerRegistry * W, registry_inv t.1 → registry_inv (Breaker.record_response key status t).2.1.
Proof.
  destruct (valid_status status) eqn:Ev; [by apply (exec_keeps _ (Response key status) (λ _, None))|].
  intros t Ht. unfold Breaker.record_response. by rewrite Ev.
Qed.

Definition attempting T0 key s : Prop := registry_inv (cl_breakers s) ∧ trial_inv T0 key s.
Lemma attempting_by T0 key {A} (m : M (client W) A) :
  preserves (λ s, registry_inv (cl_breakers s)) m → preserves (trial_inv T0 key) m → preserves (attempting T0 key) m.
Proof. intros H1 H2 s [Hr Ht]. split; [by apply H1|by apply H2]. Qed.
Lemma attempting_world T0 key {A} (m : M W A) : preserves (attempting T0 key) (on_world m).
Proof. apply attempting_by; [intros s Hs; unfold on_world; by destruct (m _)|apply world_trial]. Qed.
Lemma attempting_clock T0 key s : attempting T0 key s → attempting T0 key (clock s).2.
Proof. intros [Hr Ht]. split; [unfold clock, client_clocked; by destruct (clock _)|by apply clock_trial]. Qed.
Lemma event_same b o outcome md : preserves (λ s, cl_breakers s = b) (ud_emit self o outcome md).
Proof.
  unfold ud_emit, emit_event. apply preserves_bind; [|by intros e; apply preserves_modify].
  intros s Hs. unfold on_world. by destruct (emitter_record _ _ _ _ _ _ _).
Qed.
Lemma event_keeps o outcome md : preserves (λ s, registry_inv (cl_breakers s)) (ud_emit self o outcome md).
Proof. intros s Hs. by rewrite (event_same _ o outcome md s eq_refl). Qed.
Lemma change_keeps o b a : preserves (λ s, registry_inv (cl_breakers s)) (ud_emit_breaker_change self o b a).
Proof. unfold ud_emit_breaker_change. case_match; [auto with datasluice|apply event_keeps]. Qed.
Lemma attempting_event T0 key o outcome md : preserves (attempting T0 key) (ud_emit self o outcome md).
Proof. apply attempting_by; [apply event_keeps|apply event_trial]. Qed.
Lemma attempting_change T0 key o b a : preserves (attempting T0 key) (ud_emit_breaker_change self o b a).
Proof. unfold ud_emit_breaker_change. case_match; [auto with datasluice|apply attempting_event]. Qed.
#[local] Hint Resolve attempting_world attempting_clock attempting_change : datasluice.

Lemma attempting_failure T0 o key before : preserves (attempting T0 key) (ud_record_failure self o key before).
Proof.
  intros s [Hr Ht]. unfold ud_record_failure. rewrite bind_step. cbn [set_dispatch modify]. set (s1 := ClientState _ _ _ _ _ _).
  rewrite bind_step. unfold on_breakers.
  destruct (registry_keeps (Failure key) (cl_breakers s, cl_world s) Hr eq_refl) as (v & Hv & Hr').
  pose proof (discard_after T0 key (cl_breakers s, cl_world s) (record_transport_failure key) (or_intror eq_refl) (proj1 Ht)) as Hd.
  cbn [exec] in Hv, Hr'. rewrite bind_step in Hv, Hr'. subst s1. cbn [cl_breakers cl_world].
  destruct (record_transport_failure key (cl_breakers s, cl_world s)) as [[after|e] [b w]]; [|done].
  apply attempting_change. split; [exact Hr'|]. split; cbn in *; set_solver.
Qed.
Lemma ud_attempt_trial T0 o call r c deadline key : preserves (attempting T0 key) (ud_attempt self o call r c deadline key).
Proof.
  assert (Hf : ∀ A before r' status e k, attempt_failed (A:=A) self o key before r' status e = Some k → preserves (attempting T0 key) k).
  { intros A before r' status e k. apply failed_keeps, attempting_failure. }
  assert (Hd : preserves (attempting T0 key) (assert_dispatchable None None deadline)) by (apply assert_dispatchable_keeps; auto with datasluice).
  unfold ud_attempt. apply preserves_bind; [apply preserves_modify; intros s [Hr [Hi _]]; by split|]. intros _.
  apply preserves_bind; [apply attempting_by; [by apply breakers_keep, (exec_keeps _ (Inspect key) (λ _, None))|apply inspect_trial]|].
  intros before. apply preserves_bind.
  { unfold attempt_body. case_match; auto with datasluice. }
  intros r'. apply preserves_bind; [done|]. intros _. apply preserves_bind.
  { apply preserves_try; [|apply Hf]. unfold ud_send. apply preserves_bind; [auto with datasluice|]. intros send.
    apply preserves_bind; [by apply preserves_modify|]. auto with datasluice. }
  intros response. apply preserves_bind; [apply preserves_try; [|apply Hf]; auto with datasluice|].
  intros _. unfold ud_record_response. apply attempting_by.
  - apply preserves_bind; [apply breakers_keep, response_keeps|]. intros a. apply preserves_bind; [by apply preserves_modify|].
    intros _. apply preserves_bind; [apply change_keeps|auto with datasluice].
  - apply recorded_then; [intros t; apply response_trials|]. intros a. apply preserves_bind; [|auto with datasluice].
    unfold ud_emit_breaker_change. case_match; [auto with datasluice|apply event_trial].
Qed.

(** ** The guarded sections *)

(** The terminal events a failure may leave *)
Definition failure_events (emit_success : bool) (es : list string) : Prop :=
  es = [] ∨ emit_success = true ∧ (es = ["failed"] ∨ es = ["budget_exhausted"]).
Definition outcome_events (emit_success : bool) {A} (res : result A) (es : list string) : Prop :=
  match res with Ok _ => es = if emit_success then ["succeeded"] else [] | Raise _ => failure_events emit_success es end.
Lemma no_events b : failure_events b [].
Proof. by left. Qed.
#[local] Hint Resolve no_events : datasluice.

Lemma failure_event {A} o e b x s : summary s = x →
  let '(res, s') := (_emit_dataset_failure self o e b;; @throw _ A e) s in
  is_ok res = false ∧ ∃ es, failure_events b es ∧ summary s' = (x.1, x.2 ++ es).
Proof.
  intros Hs. unfold _emit_dataset_failure. rewrite bind_step. destruct b.
  - set (outcome := if is_subclass _ _ then _ else _). assert (Ho : outcome = "failed" ∨ outcome = "budget_exhausted") by (subst outcome; case_match; auto).
    assert (H := event_log (uc_emitter self) (operation_str o) "udata" outcome [] x s Hs). unfold ud_emit.
    destruct (emit_event _ _ _ _ _ s) as [[[]|e'] s1]; (split; [done|]).
    + exists [outcome]. split; [right; split; [done|destruct Ho as [-> | ->]; auto]|]. rewrite H. by destruct Ho as [-> | ->].
    + exists []. split; [by left|]. rewrite app_nil_r, H. by destruct x.
  - split; [done|]. exists []. split; [by left|]. rewrite app_nil_r. cbn. by destruct x.
Qed.

Lemma fail_with_events {A} o b (m : M (client W) A) s y : summary (m s).2 = y →
  let '(res, s') := fail_with_event self o b m s in
  match res with
  | Ok a => summary s' = y ∧ m s = (Ok a, s')
  | Raise _ => ∃ es, failure_events b es ∧ summary s' = (y.1, y.2 ++ es)
  end.
Proof.
  intros Hm. unfold fail_with_event, try_except. destruct (m s) as [[a|e] s1]; cbn in Hm; [done|].
  assert (Hn : ∃ es, failure_events b es ∧ summary s1 = (y.1, y.2 ++ es)) by (exists []; rewrite app_nil_r; split; [by left|by destruct y]).
  destruct (is_Exception _); [|done]. assert (H := failure_event (A:=A) o e b y s1 Hm).
  destruct ((_emit_dataset_failure self o e b;; @throw _ A e) s1) as [[a|e'] s2]; destruct H as [He H]; [done|exact H].
Qed.

(** How many requests a call may send *)
Definition ud_bound call (n : nat) : Prop :=
  Z.of_nat n <= Z.max 0 (uc_max_attempts self) ∧ (allows_retry (_dataset_retry_idempotency call) = false → (n ≤ 1)%nat).

Lemma retry_sends o call r c deadline key s : let '(res, s') := ud_retry self o call r c deadline key s in
  ∃ rs es, ud_bound call (length rs) ∧ Forall (sendable call c r) rs ∧
    summary s' = ((summary s).1.1, (summary s).1.2 ++ rs, (summary s).2 ++ es) ∧
    match res with Ok _ => es = [] | Raise _ => failure_events (dc_emit_success call) es end.
Proof.
  unfold ud_retry. rewrite bind_step. cbn [set_dispatch modify]. set (s1 := ClientState _ _ _ _ _ _).
  assert (H1 : summary s1 = summary s) by done. rewrite <- H1. clearbody s1. clear H1. unfold try_finally.
  match goal with |- context [fail_with_event self o _ ?body s1] => set (m := body) end. assert (Hm : ∃ rs, ud_bound call (length rs) ∧ Forall (sendable call c r) rs ∧
    summary (m s1).2 = ((summary s1).1.1, (summary s1).1.2 ++ rs, (summary s1).2)).
  { subst m. rewrite bind_step. unfold lift_res. destruct (make_retry_loop _ _ _ _) as [l|e] eqn:El.
    2:{ exists []. cbn. rewrite app_nil_r. split_and!; [split; cbn; lia|constructor|done]. }
    unfold make_retry_loop in El. inv_ok. qbool. set (l := {| rl_budget := _ |}).
    destruct (run_from_counted summary (may_send call c r) (λ d, on_world (retry_sleep d)) (ud_attempt self o call r c deadline key)
      (λ s, clock_summary _ s eq_refl) (λ d s, world_summary _ _ s eq_refl) (ud_attempt_sends o call r c deadline key) l
      (Z.to_nat (rl_max_attempts l)) 1 s1) as (n & Hn & Hs & Hone).
    apply ud_may_sends in Hs as (rs & Hl & Hf & Hs). exists rs. split_and!; [|done|exact Hs].
    split; [unfold l in *; cbn in *; lia|]. intros Hi. assert (n ≤ 1)%nat by by apply Hone. lia. }
  clearbody m. destruct Hm as (rs & Hb & Hf & Hm).
  assert (He := fail_with_events o (dc_emit_success call) m s1 _ Hm).
  destruct (fail_with_event self o (dc_emit_success call) m s1) as [[response|e] s2].
  - destruct He as [He _]. assert (Hr := release_summary key _ s2 He).
    destruct (_release_abandoned_trial key s2) as [[u|e] s3]; cbn in Hr; exists rs, []; rewrite app_nil_r; split_and!; auto using no_events.
  - destruct He as (es & Hes & He). assert (Hr := release_summary key _ s2 He).
    destruct (_release_abandoned_trial key s2) as [[u|e'] s3]; cbn in Hr; exists rs, es; by split_and!.
Qed.

Lemma finish_sends o call r scope response s : let '(res, s') := _finish_dataset_call self o call r scope response s in
  ∃ es, summary s' = ((summary s).1, (summary s).2 ++ es) ∧ outcome_events (dc_emit_success call) res es.
Proof.
  unfold _finish_dataset_call. rewrite bind_step. set (m := _decode_dataset_response _ _ _ _ _).
  assert (Hm : summary (m s).2 = summary s).
  { subst m. apply (preserves_bind (λ s', summary s' = summary s)); [|intros; apply preserves_bind; auto with datasluice|done].
    unfold _validate_status. case_match; [auto with datasluice|]. apply preserves_bind; [case_match; auto with datasluice|auto with datasluice]. }
  assert (He := fail_with_events o (dc_emit_success call) m s _ Hm).
  destruct (fail_with_event self o (dc_emit_success call) m s) as [[x|e] s1]; [|destruct He as (es & Hes & He); by exists es].
  destruct He as [He _]. rewrite bind_step. destruct (dc_emit_success call).
  - assert (Hl := event_log (uc_emitter self) (operation_str o) "udata" "succeeded" [] _ s1 He). unfold ud_emit.
    destruct (emit_event _ _ _ _ _ s1) as [[[]|e] s2]; cbn in Hl; [by exists ["succeeded"]|].
    exists []. rewrite app_nil_r, Hl. split; [by destruct (summary s)|by left].
  - exists []. split; [|done]. change (summary s1 = ((summary s).1, (summary s).2 ++ [])). rewrite app_nil_r, He. by destruct (summary s).
Qed.

(** Neither keeps a trial. *)
Definition freed T0 s : Prop := registry_inv (cl_breakers s) ∧ in_flight s ⊆ T0.
Lemma freed_world T0 {A} (m : M W A) : preserves (freed T0) (on_world m).
Proof. intros s Hs. unfold on_world. by destruct (m _). Qed.
Lemma freed_event T0 o outcome md : preserves (freed T0) (ud_emit self o outcome md).
Proof. intros s Hs. unfold freed. by rewrite (event_same _ o outcome md s eq_refl). Qed.
#[local] Hint Resolve freed_world freed_event : datasluice.
Lemma fail_with_keeps (P : client W → Prop) {A} o b (m : M (client W) A) :
  (∀ outcome, preserves P (ud_emit self o outcome [])) → preserves P m → preserves P (fail_with_event self o b m).
Proof.
  intros He Hm. unfold fail_with_event. apply preserves_try; [done|]. intros e k. case_match; [|done].
  intros Hk. apply (inj Some) in Hk as <-. apply preserves_bind; [|auto with datasluice].
  unfold _emit_dataset_failure. case_match; auto with datasluice.
Qed.
Lemma retry_frees T0 o call r c deadline key s : registry_inv (cl_breakers s) → in_flight s ⊆ {[key]} ∪ T0 →
  freed T0 (ud_retry self o call r c deadline key s).2.
Proof.
  intros Hr Hi. unfold ud_retry. rewrite bind_step. cbn [set_dispatch modify]. set (s1 := ClientState _ _ _ _ _ _).
  assert (H1 : attempting T0 key s1) by (by split). clearbody s1. unfold try_finally.
  match goal with |- context [fail_with_event self o _ ?body s1] => set (m := body) end.
  assert (Hm : preserves (attempting T0 key) (fail_with_event self o (dc_emit_success call) m)).
  { apply fail_with_keeps; [intros outcome; apply attempting_event|]. subst m. apply preserves_bind; [auto with datasluice|]. intros l.
    apply run_keeps; [intros s2; apply attempting_clock|intros d; apply attempting_world|apply ud_attempt_trial]. }
  specialize (Hm s1 H1). destruct (fail_with_event self o (dc_emit_success call) m s1) as [res s2]. destruct Hm as [Hr2 Hm]. cbn in Hr2, Hm.
  pose proof (release_frees T0 key s2 Hm) as Hfree. assert (Hk : preserves (λ s, registry_inv (cl_breakers s)) (_release_abandoned_trial (W:=W) key)).
  { unfold _release_abandoned_trial. apply preserves_bind; [apply preserves_read|]. intros b. case_match; [auto with datasluice|].
    by apply breakers_keep, (exec_keeps _ (Release key) (λ _, None)). }
  specialize (Hk s2 Hr2). by destruct (_release_abandoned_trial key s2) as [[] s3].
Qed.
Lemma finish_frees T0 o call r scope response : preserves (freed T0) (_finish_dataset_call self o call r scope response).
Proof.
  unfold _finish_dataset_call. apply preserves_bind.
  - apply fail_with_keeps; [auto with datasluice|]. unfold _decode_dataset_response. apply preserves_bind; [|intros; apply preserves_bind; auto with datasluice].
    unfold _validate_status. case_match; [auto with datasluice|]. apply preserves_bind; [case_match; auto with datasluice|auto with datasluice].
  - intros x. apply preserves_bind; [case_match; auto with datasluice|auto with datasluice].
Qed.

(** ** What precedes a request *)

(** What the steps before the circuit move: the cache of the gate, by versions
    that are pinned, and at most [n] probes of the site *)
Definition before_circuit (n : nat) (x x' : udata W) : Prop :=
  frame (ud_client x) (ud_client x') ∧ (gate_ok (uc_gate self) (ud_gate x) → gate_ok (uc_gate self) (ud_gate x') ∧
  ∃ ps, ud_probes x' = ud_probes x ++ ps ∧ (length ps ≤ n)%nat ∧ Forall (site_request (uc_gate self)) ps).
Lemma before_still x x' : frame (ud_client x) (ud_client x') → ud_gate x' = ud_gate x → ud_probes x' = ud_probes x → before_circuit 0 x x'.
Proof. intros Hf Hg Hp. split; [done|]. rewrite Hg, Hp. intros Hok. split; [done|]. exists []. by rewrite app_nil_r. Qed.
Lemma before_trans n m x x1 x2 : before_circuit n x x1 → before_circuit m x1 x2 → before_circuit (n + m) x x2.
Proof.
  intros [F1 H1] [F2 H2]. split; [by eapply frame_trans|]. intros Hok. destruct (H1 Hok) as (Hok1 & ps & E1 & L1 & P1).
  destruct (H2 Hok1) as (Hok2 & ps' & E2 & L2 & P2). split; [done|]. exists (ps ++ ps'). rewrite E2, E1, length_app, Forall_app, app_assoc.
  split_and!; [done|lia|done..].
Qed.

Lemma client_step {A} (m : M (client W) A) (x : udata W) (r : result A) x' : on_client m x = (r, x') →
  ud_gate x' = ud_gate x ∧ ud_probes x' = ud_probes x ∧ m (ud_client x) = (r, ud_client x').
Proof. unfold on_client, zoom. destruct (m _) as [r' s']. by intros [= <- <-]. Qed.
Lemma client_before {A} (m : M (client W) A) (x : udata W) (r : result A) x' : on_client m x = (r, x') →
  (∀ s (r : result A) s', m s = (r, s') → frame s s') → before_circuit 0 x x'.
Proof. intros (Hg & Hp & E)%client_step Hf. apply before_still; [by eapply Hf|done..]. Qed.
Lemma world_before {A} (m : M W A) (x : udata W) (r : result A) x' : on_client (on_world m) x = (r, x') →
  before_circuit 0 x x' ∧ m (cl_world (ud_client x)) = (r, cl_world (ud_client x')).
Proof.
  intros E. split; [eapply client_before; [exact E|]; intros s r1 s1 H; by apply world_frame in H as [? _]|].
  apply client_step in E as (_ & _ & E). by apply world_frame in E as [_ <-].
Qed.

Lemma site_before deadline (x : udata W) (r : result SiteVersion) x' : _require_site_version self deadline x = (r, x') →
  before_circuit 1 x x' ∧ (gate_ok (uc_gate self) (ud_gate x) → ∀ v, r = Ok v → sv_version v = sg_pinned_version (uc_gate self)).
Proof.
  unfold _require_site_version, in_gate. destruct (require_current _ _ _ _) as [r1 g] eqn:E. intros [= <- <-].
  split; [split; [done|]|]; intros Hok; by apply require_current_spec in E as (H1 & H2 & H3).
Qed.

Lemma scope_before c (x : udata W) (r : result string) x' : _refresh_credential_scope c x = (r, x') →
  before_circuit 0 x x' ∧ ∀ scope, r = Ok scope → scope = _credential_scope (as_credentials c).
Proof.
  unfold _refresh_credential_scope. set (scope := _credential_scope _). rewrite bind_step. cbn [read]. case_bool_decide.
  { intros [= <- <-]. split; [by apply before_still|by intros ? [= <-]]. }
  rewrite bind_step. destruct (on_client _ x) as [[u|e] x1] eqn:E1; apply world_before in E1 as [B1 _]; [|by intros [= <- <-]].
  rewrite bind_step. unfold in_gate, invalidate_gate, set_cache, modify. cbn. intros [= <- <-]. split; [|by intros ? [= <-]].
  apply (before_trans 0 0 _ _ _ B1). split; [done|]. cbn. intros _. split; [constructor|]. exists []. by rewrite app_nil_r.
Qed.

(** The credential a call uses, resolved in the world [w] *)
Definition call_uses (provider : M W (option credential)) call (w : W) (c : option credential) : Prop :=
  if dc_omit_credential call then c = None
  else match dc_credential call with
       | Some given => c = Some given
       | None => match uc_credentials self with
                 | NoCredentials => c = None
                 | Clients.Resolver explicit => c = explicit
                 | Plain c' => c = Some c'
                 | Provider _ => (provider w).1 = Ok c
                 end
       end.
Lemma credential_before provider call (x : udata W) (r : result (option credential)) x' : on_client (call_credential self provider call) x = (r, x') →
  before_circuit 0 x x' ∧ ∀ c, r = Ok c → call_uses provider call (cl_world (ud_client x)) c.
Proof.
  intros E. apply client_step in E as (Hg & Hp & E).
  assert (H : frame (ud_client x) (ud_client x') ∧ ∀ c, r = Ok c → call_uses provider call (cl_world (ud_client x)) c);
    [|destruct H; split; [by apply before_still|done]].
  revert E. unfold call_credential, call_uses, ud_refreshed. case_match; [by intros [= <- <-]; split; [|intros ? [= <-]]|].
  case_match; [by intros [= <- <-]; split; [|intros ? [= <-]]|].
  case_match; try by intros [= <- <-]; split; [|intros ? [= <-]].
  intros (F & E)%world_frame. split; [done|]. intros c ->. by rewrite <- E.
Qed.

(** What was allowed before [r] may be sent with [c] *)
Definition ud_allowed o effective call : Prop :=
  (∃ parsed, urlsplit (uc_origin self) = Ok parsed ∧ (loopback parsed = true ∨ declared_read self o = true)) ∧
  gd_allowed (guard_operation effective o) = true ∧ (∀ p, dc_permissions call = Some p → require p (operation_str o) ∅ ∅ = Ok tt).
Lemma dispatchable_allowed o effective call : _require_dispatchable self o effective (dc_permissions call) = Ok tt → ud_allowed o effective call.
Proof.
  unfold _require_dispatchable, _controlled_origin, require_allowed. intros H. inv_ok. split_and!.
  - eexists. split; [done|]. destruct (loopback _); [by left|]. destruct (declared_read _ _); [by right|]. cbn in *.
    by match goal with Hr : raise_new _ = Ok _ |- _ => apply raise_new_ok in Hr end.
  - destruct (gd_allowed _); [done|]. by match goal with Hr : raise_new _ = Ok _ |- _ => apply raise_new_ok in Hr end.
  - intros p Hp. by rewrite Hp in *.
Qed.

Lemma deadline_frame o call s res s' : _dataset_deadline self o call s = (res, s') → frame s s'.
Proof.
  unfold _dataset_deadline. rewrite bind_step. destruct (dc_deadline call) as [d|].
  - cbn [mret M_ret]. apply dispatchable_frame.
  - unfold make_monitor. rewrite bind_step. unfold clock_now. destruct (clock s) as [t s1] eqn:Ec. cbn [mret M_ret].
    intros E%dispatchable_frame. eapply frame_trans; [by eapply clock_frame|done].
Qed.
Lemma ud_admit_frame o r s res s' : _admit_request self o r s = (res, s') → summary s' = summary s ∧
  match res with Ok key => in_flight s' ⊆ {[key]} ∪ in_flight s | Raise _ => in_flight s' ⊆ in_flight s end ∧
  (registry_inv (cl_breakers s) → registry_inv (cl_breakers s')).
Proof.
  unfold _admit_request. rewrite bind_step. unfold lift_res at 1. destruct (_circuit_key _ _) as [key|e]; [|by intros [= <- <-]].
  rewrite bind_step. unfold on_breakers. pose proof (admit_trials (in_flight s) key (cl_breakers s, cl_world s) eq_refl) as Ht.
  pose proof (exec_keeps (breaker_admit key) (Admit key) Some eq_refl (λ _, eq_refl) (cl_breakers s, cl_world s)) as Hr.
  destruct (breaker_admit _ _) as [[[]|e] [b w]]; cbn [fst snd] in Ht, Hr; [by intros [= <- <-]| |by intros [= <- <-]].
  rewrite bind_step. set (s1 := ClientState _ _ _ _ _ _).
  assert (H1 := event_quiet (uc_emitter self) (operation_str o) "udata" "breaker_open" [] (summary s) eq_refl s1 eq_refl).
  assert (H2 := event_same b o "breaker_open" [] s1 eq_refl). fold (ud_emit self o "breaker_open" []) in H1.
  destruct (ud_emit self o "breaker_open" [] s1) as [[u|e] s2]; cbn in H1, H2; [|by intros [= <- <-]; rewrite H2].
  unfold lift_res. intros E. assert (s' = s2) as -> by by injection E. rewrite H2. destruct res as [k|x]; [|done].
  injection E as E. by apply raise_new_ok in E.
Qed.

(** What was checked before [r] may be sent: the steps of the call from its
    state [x], each in the state the one before left *)
Definition ud_granted (resolve : OperationId → string → M W EffectiveCapabilityProfile) (provider : M W (option credential))
    call (x : udata W) (c : option credential) r : Prop :=
  cl_closed (ud_client x) = false ∧
  ∃ o deadline deadline' x1 x2 x3 x4 x5 x6 v scope effective,
    _operation_id_from (dc_owning_operation call) = Ok o ∧
    on_client (_dataset_deadline self o call) x = (Ok deadline, x1) ∧
    _require_site_version self (Some deadline) x1 = (Ok v, x2) ∧ sv_version v = sg_pinned_version (uc_gate self) ∧
    on_client (call_credential self provider call) x2 = (Ok c, x3) ∧ call_uses provider call (cl_world (ud_client x2)) c ∧
    _refresh_credential_scope c x3 = (Ok scope, x4) ∧ scope = _credential_scope (as_credentials c) ∧
    on_client (on_world (resolve o scope)) x4 = (Ok effective, x5) ∧ ud_allowed o effective call ∧
    on_client (assert_dispatchable (Some (operation_str o)) (Some "udata") deadline) x5 = (Ok deadline', x6) ∧
    _dataset_request (uc_origin self) o deadline' call c = Ok r.

(** What the circuit moves after that: nothing that is sent or settled *)
Definition at_circuit (x x' : udata W) : Prop :=
  ud_gate x' = ud_gate x ∧ ud_probes x' = ud_probes x ∧ summary (ud_client x') = summary (ud_client x).
(** A call that raises before it sends a request *)
Definition refused {A} (x : udata W) (out : result A * udata W) : Prop :=
  is_ok out.1 = false ∧ ∃ x1, before_circuit 1 x x1 ∧ at_circuit x1 out.2 ∧ in_flight (ud_client out.2) ⊆ in_flight (ud_client x1) ∧
    (registry_inv (cl_breakers (ud_client x1)) → registry_inv (cl_breakers (ud_client out.2))).
Lemma refused_at {A} e x x' : before_circuit 1 x x' → refused x (@Raise A e, x').
Proof. intros B. split; [done|]. by exists x'. Qed.
Lemma before_more x x' : before_circuit 0 x x' → before_circuit 1 x x'.
Proof. intros [F H]. split; [done|]. intros Hok. destruct (H Hok) as (Hok' & ps & ? & ? & ?). split; [done|]. exists ps. split_and!; [done|lia|done]. Qed.

(** A call is refused, or enters its retry loop. *)
Lemma ud_enters resolve provider call (x : udata W) : gate_ok (uc_gate self) (ud_gate x) →
  let out := dataset_call_with self resolve provider call x in
  refused x out ∨
  ∃ r c o deadline key scope x1 x2, ud_granted resolve provider call x c r ∧ before_circuit 1 x x1 ∧ at_circuit x1 x2 ∧
    in_flight (ud_client x2) ⊆ {[key]} ∪ in_flight (ud_client x1) ∧
    (registry_inv (cl_breakers (ud_client x1)) → registry_inv (cl_breakers (ud_client x2))) ∧
    out = (response ← on_client (ud_retry self o call r c deadline key); on_client (_finish_dataset_call self o call r scope response)) x2.
Proof.
  intros Hok. cbn zeta. unfold dataset_call_with. assert (Hz : before_circuit 0 x x) by by apply before_still.
  rewrite bind_step. cbn [read]. destruct (cl_closed (ud_client x)) eqn:Ec; [left; by apply refused_at, before_more|].
  rewrite bind_step. cbn [mret M_ret]. rewrite bind_step. cbn [lift_res].
  destruct (_operation_id_from _) as [o|e] eqn:Eo; [|left; by apply refused_at, before_more].
  rewrite bind_step. destruct (on_client (_dataset_deadline self o call) x) as [[deadline|e] x1] eqn:E1;
    apply client_before in E1 as B1; try (intros ???; apply deadline_frame); [|left; by apply refused_at, before_more].
  rewrite bind_step. destruct (_require_site_version self (Some deadline) x1) as [[v|e] x2] eqn:E2; pose proof E2 as [B2 Hv]%site_before;
    apply (before_trans 0 1 _ _ _ B1) in B2; [|left; by apply refused_at].
  specialize (Hv (proj1 (proj2 B1 Hok)) v eq_refl).
  rewrite bind_step. destruct (on_client (call_credential self provider call) x2) as [[c|e] x3] eqn:E3; pose proof E3 as [B3 Hc]%credential_before;
    apply (before_trans 1 0 _ _ _ B2) in B3; [|left; by apply refused_at].
  specialize (Hc c eq_refl).
  rewrite bind_step. destruct (_refresh_credential_scope c x3) as [[scope|e] x4] eqn:E4; pose proof E4 as [B4 Hscope]%scope_before;
    apply (before_trans 1 0 _ _ _ B3) in B4; [|left; by apply refused_at].
  specialize (Hscope scope eq_refl).
  rewrite bind_step. destruct (on_client (on_world (resolve o scope)) x4) as [[effective|e] x5] eqn:E5; pose proof E5 as [B5 Hr]%world_before;
    apply (before_trans 1 0 _ _ _ B4) in B5; [|left; by apply refused_at].
  rewrite bind_step. cbn [lift_res]. destruct (_require_dispatchable _ _ _ _) as [[]|e] eqn:E6; [|left; by apply refused_at].
  apply dispatchable_allowed in E6. rewrite bind_step.
  destruct (on_client (assert_dispatchable _ _ deadline) x5) as [[deadline'|e] x6] eqn:E7; apply client_before in E7 as B7;
    try (intros ???; apply dispatchable_frame); apply (before_trans 1 0 _ _ _ B5) in B7; [|left; by apply refused_at].
  rewrite bind_step. cbn [lift_res]. destruct (_dataset_request _ _ _ _ _) as [r|e] eqn:E8; [|left; by apply refused_at].
  rewrite bind_step. destruct (on_client (_admit_request self o r) x6) as [res x7] eqn:E9.
  apply client_step in E9 as (Hg & Hp & E9). apply ud_admit_frame in E9 as (Hs & Hf & Hreg). destruct res as [key|e].
  - right. exists r, c, o, deadline', key, scope, x6, x7. split; [|split; [done|by split_and!]]. split; [done|].
    exists o, deadline, deadline', x1, x2, x3, x4, x5, x6, v, scope, effective. by split_and!.
  - left. split; [done|]. by exists x6.
Qed.

Lemma call_log resolve provider call (x : udata W) : gate_ok (uc_gate self) (ud_gate x) →
  let out := dataset_call_with self resolve provider call x in
  (gate_ok (uc_gate self) (ud_gate out.2) ∧
   ∃ ps, ud_probes out.2 = ud_probes x ++ ps ∧ (length ps ≤ 1)%nat ∧ Forall (site_request (uc_gate self)) ps) ∧
  (registry_inv (cl_breakers (ud_client x)) → freed (in_flight (ud_client x)) (ud_client out.2)) ∧
  ∃ rs es, summary (ud_client out.2) = ((summary (ud_client x)).1.1, (summary (ud_client x)).1.2 ++ rs, (summary (ud_client x)).2 ++ es) ∧
    outcome_events (dc_emit_success call) out.1 es ∧ ud_bound call (length rs) ∧
    (rs ≠ [] → ∃ r c, ud_granted resolve provider call x c r ∧ Forall (sendable call c r) rs).
Proof.
  intros Hok. cbn zeta. assert (Hz : ud_bound call 0) by (split; lia).
  destruct (ud_enters resolve provider call x Hok) as [(He & x1 & [[Hs Hb] Hp] & (Hg & Hps & Hs1) & Hf & Hreg)|
    (r & c & o & deadline & key & scope & x1 & x2 & Hgr & [[Hs Hb] Hp] & (Hg & Hps & Hs1) & Hf & Hreg & Hout)]; specialize (Hp Hok).
  - rewrite Hg, Hps, <- Hb. split; [done|]. split; [intros Hr; split; [by apply Hreg|done]|]. exists [], []. rewrite !app_nil_r, Hs1, Hs.
    split; [by destruct (summary (ud_client x)) as [[]]|]. split; [|by split].
    destruct (dataset_call_with _ _ _ _ _).1; [done|]. apply no_events.
  - rewrite Hout. clear Hout. rewrite bind_step. unfold on_client, zoom.
    assert (Hsend := retry_sends o call r c deadline key (ud_client x2)). rewrite Hb in Hf, Hreg.
    assert (Hfree := λ Hr, retry_frees _ o call r c deadline key _ (Hreg Hr) Hf).
    destruct (ud_retry self o call r c deadline key (ud_client x2)) as [[response|e] s3]; cbn [snd] in Hfree;
      destruct Hsend as (rs & es & Hbd & Hrs & Hsum & Hes); rewrite Hs1, Hs in Hsum.
    + subst es. rewrite app_nil_r in Hsum. cbn [ud_client].
      assert (Hfin := finish_sends o call r scope response s3). assert (Hff := λ Hr, finish_frees _ o call r scope response s3 (Hfree Hr)).
      destruct (_finish_dataset_call self o call r scope response s3) as [res s4]. destruct Hfin as (es & Hfin & Hes).
      cbn [snd fst ud_gate ud_probes ud_client] in *. rewrite Hg, Hps. split; [done|]. split; [done|]. exists rs, es. rewrite Hfin, Hsum.
      do 3 (split; [done|]). intros _. by exists r, c.
    + cbn [snd fst ud_gate ud_probes ud_client] in *. rewrite Hg, Hps. split; [done|]. split; [done|]. exists rs, es.
      do 3 (split; [done|]). intros _. by exists r, c.
Qed.

(** C13: whatever the deployment, the capability cache, the credential
    provider, the clock and the sinks do, a call of the uData client sends no
    request unless, in this order and each in the state the step before left,
    the client is open, the deadline of the call has not passed, the version
    gate returned the pinned version, the credential of the call was resolved,
    the capability profile was resolved under the scope of that credential, it
    and the permissions given allow the operation, and the origin is a loopback
    deployment or the operation is declared a read.
    What it sends is the request of the call, or that request with the body its
    form function made, at most [max_attempts] times and at most once where no
    retry is allowed; the site PATCH is sent by a client bound to the controlled
    origin only.  Beside it the gate asks for the site document at most once,
    without a credential, and keeps the pinned version only.  Both clients do. *)
Theorem udata_sends_gated call (x : udata W) : gate_ok (uc_gate self) (ud_gate x) →
  let gated resolve provider (out : result (Z * udata_payload * RuntimeResponse) * udata W) :=
    gate_ok (uc_gate self) (ud_gate out.2) ∧
    (∃ ps, ud_probes out.2 = ud_probes x ++ ps ∧ (length ps ≤ 1)%nat ∧ Forall (site_request (uc_gate self)) ps) ∧
    ∃ rs, sent (cl_log (ud_client out.2)) = sent (cl_log (ud_client x)) ++ rs ∧ ud_bound call (length rs) ∧
      (rs ≠ [] → ∃ r c, ud_granted resolve provider call x c r ∧ Forall (sendable call c r) rs) in
  gated scoped_resolve provider_resolve (_dataset_call self call x) ∧
  gated scoped_resolve_async provider_resolve_async (_dataset_call_async self call x).
Proof.
  intros Hok. cbn zeta. split.
  - destruct (call_log scoped_resolve provider_resolve call x Hok) as ([Hg Hp] & _ & rs & es & [= _ Hs _] & _ & Hb & Hr).
    split; [done|]. split; [done|]. by exists rs.
  - destruct (call_log scoped_resolve_async provider_resolve_async call x Hok) as ([Hg Hp] & _ & rs & es & [= _ Hs _] & _ & Hb & Hr).
    split; [done|]. split; [done|]. by exists rs.
Qed.

(** C14: a call of the uData client settles: it leaves no half-open trial that
    was not in flight before and never closes the client, and where it reports
    its events it leaves [succeeded] exactly when it returns and at most one of
    [failed] and [budget_exhausted] when it raises; where it does not, it
    leaves none.  Both clients do. *)
Theorem udata_settles call (x : udata W) : gate_ok (uc_gate self) (ud_gate x) → registry_inv (cl_breakers (ud_client x)) →
  let settled (out : result (Z * udata_payload * RuntimeResponse) * udata W) :=
    registry_inv (cl_breakers (ud_client out.2)) ∧ in_flight (ud_client out.2) ⊆ in_flight (ud_client x) ∧
    cl_closed (ud_client out.2) = cl_closed (ud_client x) ∧
    ∃ es, terminal (cl_log (ud_client out.2)) = terminal (cl_log (ud_client x)) ++ es ∧
      outcome_events (dc_emit_success call) out.1 es in
  settled (_dataset_call self call x) ∧ settled (_dataset_call_async self call x).
Proof.
  intros Hok Hr. cbn zeta. split.
  - destruct (call_log scoped_resolve provider_resolve call x Hok) as (_ & Hf & rs & es & [= Hc _ Hs] & Hes & _).
    destruct (Hf Hr) as [Hr' Hin]. do 3 (split; [done|]). by exists es.
  - destruct (call_log scoped_resolve_async provider_resolve_async call x Hok) as (_ & Hf & rs & es & [= Hc _ Hs] & Hes & _).
    destruct (Hf Hr) as [Hr' Hin]. do 3 (split; [done|]). by exists es.
Qed.
End client.

(** ** A stream that cannot be opened *)

Section streams.
Context {W : Type} `{!CatalogEnv W, !ScopedCapabilities W, !StreamEnv W} {ips : IpLiterals} {hm : Hmac} {jb : JsonBytes}.
Variable self : UDataClient W.

Lemma opening_silent is_async o request deadline send scope key (s : client W) e w : exn_kind e = BudgetExhaustedError →
  send request (cl_world s) = (Raise e, w) →
  ∃ s', send_open_stream self is_async o request deadline send scope key s = (Raise e, s') ∧
    sent (cl_log s') = sent (cl_log s) ++ [request] ∧ terminal (cl_log s') = terminal (cl_log s).
Proof.
  intros He Hsend. unfold send_open_stream. rewrite bind_step. cbn [set_dispatch modify]. unfold try_finally. rewrite bind_step.
  unfold on_breakers at 1, inspect. rewrite state_for_eq. rewrite bind_step. unfold try_except at 1. rewrite bind_step. unfold note at 1, modify.
  unfold on_world at 1. cbn [cl_world]. rewrite Hsend, He. change (is_subclass BudgetExhaustedError TransportError) with false.
  cbv iota beta. unfold _release_abandoned_trial. rewrite bind_step. cbn [read ds_recorded]. unfold on_breakers. cbn.
  destruct (release_eq key (set_state key (circuit (cl_breakers s) key) (cl_breakers s)) w) as (b & Hb & _). rewrite Hb.
  eexists. split; [reflexivity|]. cbn. unfold sent, terminal. rewrite !omap_app. cbn. by rewrite app_nil_r.
Qed.

(** C25: a budget that the transport exhausts while it opens a stream is not
    reported: the call sends its request and raises the error without a terminal
    event, where the same error raised before the circuit leaves
    [budget_exhausted].  Neither client reports it. *)
Theorem stream_budget_silent is_async resolve provider operation path h given o request deadline send scope (x x1 : udata W) key x2 e w :
  _operation_id_from operation = Ok o → exn_kind e = BudgetExhaustedError →
  open_stream self resolve provider o path h given x = (Ok (request, deadline, send, scope), x1) →
  on_client (_admit_request self o request) x1 = (Ok key, x2) →
  send request (cl_world (ud_client x2)) = (Raise e, w) →
  let out := root_stream_with self is_async resolve provider operation path h given x in
  out.1 = Raise e ∧ sent (cl_log (ud_client out.2)) = sent (cl_log (ud_client x2)) ++ [request] ∧
  terminal (cl_log (ud_client out.2)) = terminal (cl_log (ud_client x2)) ∧
  ∀ x' x1' s', open_stream self resolve provider o path h given x' = (Raise e, x1') →
    ud_emit self o "budget_exhausted" [] (ud_client x1') = (Ok tt, s') →
    terminal (cl_log (ud_client (root_stream_with self is_async resolve provider operation path h given x').2)) =
    terminal (cl_log (ud_client x1')) ++ ["budget_exhausted"].
Proof.
  intros Ho He Hopen Hadmit Hsend. cbn zeta.
  assert (Hs : ∃ s', send_open_stream self is_async o request deadline send scope key (ud_client x2) = (Raise e, s') ∧
    sent (cl_log s') = sent (cl_log (ud_client x2)) ++ [request] ∧ terminal (cl_log s') = terminal (cl_log (ud_client x2))).
  { by apply opening_silent with (w := w). }
  destruct Hs as (s' & Hs & Hr & Ht).
  assert (Hx : root_stream_with self is_async resolve provider operation path h given x =
    (Raise e, UdataState (ud_scope x2) (ud_gate x2) (ud_probes x2) s')).
  { unfold root_stream_with. rewrite bind_step, Ho. cbn [lift_res]. rewrite bind_step. unfold try_except. rewrite Hopen.
    rewrite bind_step, Hadmit. unfold on_client, zoom. by rewrite Hs. }
  rewrite Hx. do 3 (split; [done|]). intros x' x1' s1 Hopen' Hemit. unfold root_stream_with. rewrite bind_step, Ho. cbn [lift_res].
  rewrite bind_step. unfold try_except. rewrite Hopen', He. change (is_subclass BudgetExhaustedError BudgetExhaustedError) with true.
  cbv iota beta. rewrite bind_step. unfold on_client, zoom. rewrite Hemit.
  assert (H := event_log (uc_emitter self) (operation_str o) "udata" "budget_exhausted" [] _ (ud_client x1') eq_refl).
  fold (ud_emit self o "budget_exhausted" []) in H. rewrite Hemit in H. by injection H.
Qed.
End streams.

(** ** Witnesses *)

#[local] Instance ud_literals : IpLiterals := λ _, false.
#[local] Instance ud_hmac : Hmac := λ parts, default "" (last parts).
#[local] Instance ud_json : JsonBytes := λ text,
  if bool_decide (text = "site") then Some (str_dict [("id", PyStr "fr"); ("version", PyStr "16.0.0")]) else None.
#[local] Instance ud_finite : FiniteJson := λ _, Some (str_dict [("data", PyList [])]).
#[local] Instance ud_floats : FloatText := {| float_repr _ := "0.5"; float_of_text _ := FNan |}.
Definition ud_origin : string := "https://www.data.gouv.fr".
Definition ud_answer (status : Z) (text : string) : RuntimeResponse :=
  {| status_code := status; resp_headers := []; body := text; retry_after := None |}.
(** A deployment that serves its site document and answers a call 503 and then
    200 *)
#[local] Instance ud_env : CatalogEnv nat := {|
  env_clock := λ n, (1%Q, n);
  transport_send r := λ n,
    if bool_decide (url r = ud_origin +:+ SITE_PATH) then (Ok (ud_answer 200 "site"), n)
    else (Ok (ud_answer (if (n <? 1)%nat then 503 else 200) "page"), S n);
  transport_close := mret tt; provider_resolve := mret None; provider_resolve_async := mret None; retry_sleep _ := mret tt |}.
Definition ud_operation : OperationId := {| op_platform := "udata"; op_service := "api-v1"; op_method := "list_datasets" |}.
Definition ud_spec (mutates : MutationClass) : OperationSpec :=
  {| spec_id := ud_operation; tier := Normalized; request_type := "DatasetList"; response_type := "DatasetPage";
     auth_class := AuthAuthenticated; mutation_class := mutates; idempotency_class := IdemIdempotent;
     concurrency_requirement := ConcOptional; op_atomicity := AtomSingleResource; capability_class := CapAuthenticated |}.
Definition ud_profile (mutates : MutationClass) : EffectiveCapabilityProfile :=
  {| declared_profile := {| profile_version := "1"; profile_schema_version := "1"; platform_api_version := "16.0.0";
       official_source_uri := "https://github.com/opendatateam/udata"; source_accessed_at := (2025, 6, 1)%Z;
       fixture_fingerprint := "f0"; operations := {[ud_operation := ud_spec mutates]} |};
     capabilities := {[ud_operation := {| cap_operation := ud_spec mutates; cap_state := StCore; cap_evidence := None |}]} |}.
#[local] Instance ud_capabilities : ScopedCapabilities nat := {|
  scoped_resolve _ _ := mret (ud_profile ClassRead); scoped_resolve_async _ _ := mret (ud_profile ClassRead); scoped_record _ _ _ := mret tt;
  scoped_peek _ _ := mret (ud_profile ClassRead); scoped_invalidate _ := mret tt |}.
Definition budget_exhausted : exn := {| exn_kind := BudgetExhaustedError; exn_msg := "exhausted"; exn_info := None |}.
#[local] Instance ud_streams : StreamEnv nat := {| send_stream := Some (λ _, throw budget_exhausted); stream_release := mret tt |}.

Definition ud_sample (mutates : MutationClass) : UDataClient nat :=
  {| uc_origin := ud_origin; uc_profile := ud_profile mutates; uc_credentials := Plain (UDataCredential "t0");
     uc_gate := {| sg_pinned_version := "16.0.0"; sg_origin := ud_origin; sg_ttl_seconds := 300%Q |};
     uc_budget := sample_budget; uc_max_attempts := 3; uc_emitter := {| em_sinks := []; em_provider := None; em_no_redact := false |};
     uc_owns_transport := true; uc_controlled := None; uc_closed_message := "closed" |}.
Definition ud_call : dataset_call nat :=
  {| dc_method := "GET"; dc_path := "/api/1/datasets/"; dc_owning_operation := "udata/api-v1.list_datasets"; dc_headers := [];
     dc_json_body := PyNone; dc_permissions := None; dc_credential := None; dc_idempotency := None; dc_max_response_bytes := None;
     dc_files := []; dc_form_body := NoForm; dc_raw_text := false; dc_redirect_mode := false; dc_emit_success := true;
     dc_accept_status := None; dc_omit_credential := false; dc_deadline := None |}.
Definition ud_start : udata nat := UdataState "anonymous" [] [] sample_state.
Definition ud_run (mutates : MutationClass) := _dataset_call (ud_sample mutates) ud_call ud_start.

(** The read is sent twice, retried after the 503, behind one probe; the same
    call of an operation declared an update is not. *)
Example ud_sample_sends :
  length (sent (cl_log (ud_client (ud_run ClassRead).2))) = 2%nat ∧ length (ud_probes (ud_run ClassRead).2) = 1%nat ∧
  is_ok (ud_run ClassRead).1 = true ∧
  length (sent (cl_log (ud_client (ud_run ClassUpdate).2))) = 0%nat ∧ is_ok (ud_run ClassUpdate).1 = false.
Proof. vm_compute. by split_and!. Qed.

Lemma udata_sends_gated_witness :
  length (sent (cl_log (ud_client (ud_run ClassRead).2))) = 2%nat ∧
  ∃ r c, ud_granted (ud_sample ClassRead) scoped_resolve provider_resolve ud_call ud_start c r.
Proof.
  split; [vm_compute; reflexivity|].
  destruct (udata_sends_gated (ud_sample ClassRead) ud_call ud_start ltac:(constructor)) as [(_ & _ & rs & Hs & _ & Hg) _].
  destruct rs as [|r rs].
  - exfalso. apply (f_equal length) in Hs. vm_compute in Hs. discriminate Hs.
  - destruct (Hg ltac:(discriminate)) as (r' & c & Hr & _). by exists r', c.
Defined.
Lemma udata_settles_witness :
  ∃ es, terminal (cl_log (ud_client (ud_run ClassRead).2)) = terminal (cl_log (ud_client ud_start)) ++ es ∧
    outcome_events true (ud_run ClassRead).1 es.
Proof. exact (proj2 (proj2 (proj2 (proj1 (udata_settles (ud_sample ClassRead) ud_call ud_start ltac:(constructor)
  (proj1 (registry_fresh 5 (PyFloat (FFin 30%Q)) sample_registry eq_refl))))))). Defined.

Definition ud_export := root_stream_with (ud_sample ClassRead) false scoped_resolve provider_resolve "udata/api-v1.list_datasets" "/api/1/x.csv" [] None ud_start.
Lemma stream_budget_silent_witness : ud_export.1 = Raise budget_exhausted ∧ terminal (cl_log (ud_client ud_export.2)) = [].
Proof.
  destruct (open_stream (ud_sample ClassRead) scoped_resolve provider_resolve ud_operation "/api/1/x.csv" [] None ud_start)
    as [[[[[request deadline] send] scope]|e] x1] eqn:E1; [|vm_compute in E1; discriminate E1].
  destruct (on_client (_admit_request (ud_sample ClassRead) ud_operation request) x1) as [[key|e] x2] eqn:E2;
    [|vm_compute in E1; injection E1 as <- _ _ _ <-; vm_compute in E2; discriminate E2].
  assert (Hs : send request (cl_world (ud_client x2)) = (Raise budget_exhausted, cl_world (ud_client x2))).
  { vm_compute in E1. injection E1 as _ _ <- _ _. reflexivity. }
  destruct (stream_budget_silent (ud_sample ClassRead) false scoped_resolve provider_resolve "udata/api-v1.list_datasets" "/api/1/x.csv" [] None
    ud_operation request deadline send scope ud_start x1 key x2 budget_exhausted _ eq_refl eq_refl E1 E2 Hs) as (H1 & _ & H2 & _).
  split; [exact H1|]. refine (eq_trans H2 _). vm_compute in E1. injection E1 as <- _ _ _ <-. vm_compute in E2. by injection E2 as _ <-.
Defined.
